(* ===== verification/_CoqProject ===== *)
-Q . S2P
Prelude.v
GoTime.v
GoStrings.v
Utf8.v
Cron.v
Recurrence.v
Regexp.v
GoURL.v
Urlnorm.v
Sanitize.v
Xml.v
Timestamps.v
TimeRead.v
Tables.v
Schema.v
Render.v
StoreItems.v
StoreRuns.v
StoreSamples.v
StoreHistory.v
StoreAuth.v
Budget.v
Scheduler.v
PubCache.v
Publish.v
PublicSite.v
Generate.v
Pipeline.v
Contract.v
FeedSpec.v
Wire.v
Password.v
Access.v
AuthService.v
AuthFlows.v
Paging.v
ItemService.v
ItemHistory.v
ItemEdits.v
FeedService.v
FeedHistory.v
FeedEdits.v
RunService.v
RunWatch.v
Settings.v
SettingsUse.v
SystemService.v
SampleService.v
