(* ===== verification/Prelude.v ===== *)
(** * AnimeFeedFlux: a verification development

    AnimeFeedFlux is a Go server that asks a language model for feed items on a
    schedule, checks what comes back, stores it in SQLite and publishes it as RSS,
    Atom, JSON and HTML.  This library models its core as executable definitions
    and proves what makes them correct.

    ** The parts of the program, and the files that model them

    - [Prelude]: results and their [let?] notation, tactics, the hint database
      [aff], and lemmas on lists, options, integers and strings.
    - [GoTime], [GoStrings], [Utf8], [Regexp], [GoURL]: what the sources use of Go itself:
      instants, calendars and zones with transition tables; byte strings, UTF-8,
      64-bit integers; runes and their encoding; regular expressions as data with a leftmost-first matcher,
      proved equivalent to their language; [net/url] with its escapes.
    - [Cron], [Recurrence]: internal/schedule/cron.go, jitter.go, recurrence.go.
      [Parse], [Next] (its loop body is [next_step], iterated), [NewRecurrence],
      [dateFires], [RNext], [nextN].
    - [Scheduler]: internal/schedule/runner.go.  Due times, ticks and failure
      accounting as functions; the loop, the workers, the semaphore and the
      shutdown as a labelled transition system ([State], [loop_step],
      [worker_step], [do_step], [step]) in every interleaving.
    - [Sanitize]: internal/sanitize/sanitize.go.  The tokenizer, the attribute
      parser, entity decoding, [safeHref] and the rendering with its stack.
    - [Urlnorm]: internal/urlnorm/urlnorm.go.  [Normalize], [Equal].
    - [Xml], [Render]: internal/render.  Escaping and CDATA with a reader of XML,
      the RSS, Atom and JSON Feed documents, the item page, the index and the
      widget, as the text they write.
    - [Timestamps], [TimeRead], [Tables], [Schema]: the text form of timestamps, its
      order and its reader, tables with ids, unique keys and references, and the rows and constraints of
      src/migrations.
    - [StoreItems], [StoreRuns], [StoreSamples], [StoreAuth]: internal/store.  One
      function per statement or transaction, from the tables to the tables or to an
      error; [StoreHistory] closes the content writes under sequences
      ([content_step]) and [StoreAuth] the authentication writes.
    - [Budget]: internal/budget.  [CheckRequest], [MonthStart], the price table.
    - [PubCache]: internal/publish/cache.go.  The byte-bounded LRU cache with its
      twin entries, and its interleaving with store writes and requests.
    - [Publish]: internal/publish/server.go, embed.go, invalidate.go.  The routes
      and handlers with conditional requests, negotiation and caching, over the
      answers of the store ([Publish.Deps]).
    - [PublicSite]: cmd/animefeedflux/server.go.  The read-only queries the server
      is wired to, and what the site then promises.
    - [Generate], [Pipeline]: internal/generate/runner.go and formats.go.
      Stamping, and [Run] and [Sample] with every step between, over a world
      of model, sources, clock and novelty gate ([Deps]) and a store interface
      (the class [RunStore]) whose instance is the adapter of wire.go.
    - [Contract]: internal/generate/contract.go and the checks of formats.go.
      [Validate], [CheckLink], [validateFormats]; it discharges the interface
      [Rules] that [Pipeline] is proved against.
    - [FeedSpec]: internal/feedspec and internal/modelclass.  The recipe of a feed,
      its written schedule ([Resolve], [Spec_Firing]) and [Spec_Validate], proved
      against the relation [violation] of the rules one by one.
    - [Wire]: cmd/animefeedflux/wire.go.  The budget gate, the preview check, the
      scheduled and the manual executor: pipeline, store and cache together.
    - [Password]: internal/auth/password.go, pepper.go, breached.go.  The policy,
      the hash format and verification.
    - [Access]: internal/rpc/interceptor.go, internal/rpc/auth.go,
      internal/auth/recovery.go, internal/bridge/ticket.go.  The gate of every
      call, the recovery path, back-off, elevation and login tickets.
    - [AuthService], [AuthFlows]: the other handlers of internal/rpc/auth.go, and
      the flows they make together: setup, login, reset, re-enrolment.
    - [Paging]: walking a listing by cursors, for any ordered table.
    - [ItemService], [ItemHistory], [ItemEdits]: internal/rpc/item.go and
      itemsearch.go.  Every handler of the item service over the tables, the
      revisions and the corrections; the relation [item_call] of any call, its
      invariant, and what edits, reverts, corrections and listings do.
    - [FeedService], [FeedHistory], [FeedEdits]: internal/rpc/feed.go and
      recurrence_conv.go, and the failure sink of wire.go.  Every handler of the
      feed service; the relation [feed_call] and its invariant; what edits,
      creation, deletion, the wire forms and the listing promise.
    - [RunService], [RunWatch]: internal/rpc/run.go.  The history, deletion, the
      progress hub with its bounded channels, and [Watch]; then the system they make
      with the store and the watchers ([run_step]) and its invariant [hub_ok].
    - [Settings], [SettingsUse]: the settings of internal/rpc/system.go,
      provider_endpoint.go and models.go, and the loaders of wire.go: reading and
      changing the sections, the stored keys, the kill switch, the endpoint and the
      key of a provider call, the list of models; and what they promise.
    - [SystemService]: the rest of system.go and models.go, internal/store/system.go
      and the daily totals of store/runs.go: dashboard, backup, audit trail, vacuum
      and cost history.
    - [SampleService]: internal/rpc/sample.go with its parts of wire.go: a preview
      over the same pipeline as a run, its candidates, its stream and its list.

    The components meet as in the program: the scheduler dispatches a feed, the
    gate of [Wire] asks [Budget] about totals of the store, the executor opens a
    row with [StartRun], runs [Pipeline.Run], which asks [Contract.Validate] and
    [Sanitize.HTML], and commits through [Generate.adapter_CommitRun]; then the
    render cache is invalidated, and requests fill it again: [Publish.serve] looks a
    document up, and on a miss renders what [PublicSite.buildPublishHandlerWithInvalidator]
    reads from the tables.

    ** State, errors, numbers

    Go's [(T, error)] is [result E T]; state is passed explicitly, or through the
    small monad [M] of [Pipeline]; goroutines are a step relation.  Times are
    nanoseconds in [Z]; integers are [Z] with the wrap-around written out
    ([wrap64]) where it can happen; costs are binary64 values of [SpecFloat]; maps
    are stdpp's [gmap]; strings are byte strings.

    ** What the theorems show

    - Publication: a run hands exactly one truthful record to the store, and every
      item it stores keeps the content contract, with safe markup, from the model's
      answer to the row; a commit is all or nothing; the executor closes what it
      opens (but for a refused commit) and drops exactly the stale documents;
      model calls and the day's spend are bounded.
    - The store: every history keeps the schema; an item's identity is forever; a
      closed run is final; locks, edits, previews and promotions behave as said.
    - The item service: every call keeps the schema and the identity of items; of two
      edits of one version one is refused; an edit stores and records what it
      changed, and a revert undoes it; what is published is dated after the newest
      item; the pages of a listing hold each matching item exactly once.
    - Recipes and the feed service: validation reports exactly the rules broken, and
      an accepted recipe has a schedule and bounded runs; every call keeps the
      schema, the versions, the membership of aggregates and the slug of a feed that
      has published; of two edits of one version one is refused; a created feed
      reads back; recipes cross the wire; listings are complete and their search is
      literal; a deleted feed frees its name (and is still served under another).
    - Runs, seen from outside: the progress a watcher is shown never goes back, a
      watch ends with its run and for no other reason, the hub keeps nothing of a run
      nobody looks at; deleting a run changes nothing that is published; the pages of
      the history are complete.
    - Settings: a change is all or nothing and reads back as sent; a stored key is
      never shown and is the one its calls carry; no variable of the deployment's own
      leaves with a call; the kill switch stops every run; gate and dashboard read
      the same settings.
    - The system service: a backup needs the password and a fresh code, and every
      attempt is in the audit trail, whose pages are complete; the cost history has
      one bucket per day and accounts for exactly what the gate counts.
    - Previews: sampling publishes nothing and calls nothing outside unless the switch
      and the budget allow it; its cost is recorded; a promoted candidate is the item
      that was shown; the stream and the call agree.
    - The sanitizer and the contract: the output is well-nested markup of the
      allowlist whatever the input, and reading it back changes nothing; the rules
      accept exactly what they say; [Normalize] is idempotent.
    - The documents: an XML reader reads in RSS and Atom exactly the elements meant,
      whatever bytes the channel holds; the three formats agree; no field becomes
      markup in a page; previews do not show answers.
    - The public plane: a feed's documents list its newest live items; a permalink
      is found, gone or not found exactly as the row says and never forgotten; the
      cache cannot be seen; validators are recognised; framing, methods and errors.
    - Time: [Next] and [RNext] return exactly the next firing in a zone with one
      offset, and a sound instant in any zone; [Parse] reads what a field denotes.
    - Concurrency: single flight, bounded concurrency, a shutdown that ends and
      leaves nothing; the cache refines a map of the latest bodies and its
      accounting is exact.
    - Access: the gate admits exactly live sessions of the right scope; codes,
      tokens, steps and tickets work once; recovery sessions stay confined; logins,
      password changes and resets succeed exactly when they should, guesses are
      bounded, and hashes verify what they were made of.

    Several theorems state behaviour its authors did not intend; they are listed as
    findings of the manifest.

    ** Fuel and bounds

    String scanners carry the length of their input as fuel, which is at least the
    number of turns since each consumes a byte ([tokenize], [clean], [runes],
    [find_all], [strip_slashes]).  The searches [Next] and [RNext] are iterated
    2^64 times by doubling ([iter2]); the fixed-zone theorems show that they return,
    far earlier, and one theorem exhibits a state they never leave.  Promotion
    retries five times, as the code does.  The loop over the days of the cost history
    ([fill_days]) has one turn for each day of the window and one to stop, and
    [cost_history_accounts] shows that they are enough.  Everything else is structural.

    ** What is not modelled, and why

    Parameters stand for what is not in the repository or is data of the platform:
    SHA-1, SHA-256, HMAC, HOTP, argon2, AES-GCM and gzip, NFKC and the lower case of
    Unicode, the model provider, the fetcher, the novelty gate (a float computation
    over embeddings), the prompt templates ([text/template]), the time zone tables,
    IP literals in URLs, dates in a request that are not in HTTP's own format, stored
    times not in the store's own form, the JSON and TOML forms of a recipe (the class
    [Codec] and its laws), whether a template parses, the full-text index and which runes are
    letters or digits, the JSON form of a preview's candidates (with the law that what
    is decoded is what was encoded), the text of the health report, the files and the
    snapshot of the database, SQLite's [SUM] of REAL columns.  A row of the settings
    holds the decoded message, or cannot be read; a stored provider key is a
    ciphertext, and AES-GCM opens what it sealed.  Where a handler reads in one
    transaction and writes in another, the tables at each are separate arguments, so
    that what others write in between is arbitrary.  Not modelled: the browser
    application, network clients, the WebSocket bridge, scheduled backups,
    configuration and telemetry, and the generated code.

    ** Plan

    Next: the health report and static files of internal/publish, the write hooks of
    internal/store, and the similarity of internal/novelty. *)
From stdpp Require Export base gmap strings list fin_maps relations sorting.
From Stdlib Require Export ZArith Lia.
From Stdlib Require Import String Ascii.

#[global] Set Default Goal Selector "!".
#[global] Open Scope Z_scope.

Declare Scope aff_scope.
Delimit Scope aff_scope with aff.
#[global] Open Scope aff_scope.

Create HintDb aff discriminated.

(** ** Results

    A Go function that returns [(T, error)] is a function into [result E T]. *)
Inductive result (E A : Type) : Type :=
| Ok (a : A)
| Err (e : E).
Arguments Ok {E A} a.
Arguments Err {E A} e.

Definition rbind {E A B} (m : result E A) (k : A -> result E B) : result E B :=
  match m with Ok a => k a | Err e => Err e end.

Definition rmap_err {E F A} (f : E -> F) (m : result E A) : result F A :=
  match m with Ok a => Ok a | Err e => Err (f e) end.

Notation "'let?' x ':=' m 'in' k" := (rbind m (fun x => k))
  (at level 10, x pattern, m at level 100, k at level 200) : aff_scope.

Definition is_ok {E A} (m : result E A) : bool :=
  match m with Ok _ => true | Err _ => false end.

Lemma rbind_Ok {E A B} (m : result E A) (k : A -> result E B) b :
  rbind m k = Ok b <-> exists a, m = Ok a /\ k a = Ok b.
Proof.
  destruct m as [a|e']; simpl; split.
  all: try (intros (?&?&?)); intros; simplify_eq; eauto.
Qed.

Lemma rbind_Err {E A B} (m : result E A) (k : A -> result E B) e :
  rbind m k = Err e <-> m = Err e \/ exists a, m = Ok a /\ k a = Err e.
Proof.
  destruct m as [a|e']; simpl; split; intros HE.
  - right. by exists a.
  - destruct HE as [?|(?&?&?)]; by simplify_eq.
  - left. congruence.
  - destruct HE as [?|(?&?&?)]; by simplify_eq.
Qed.

(** Invert a successful chain of [let?]s. *)
Ltac inv_ok :=
  repeat match goal with
  | H : rbind _ _ = Ok _ |- _ =>
      apply rbind_Ok in H; let a := fresh "v" in let Ha := fresh "Hv" in
      destruct H as (a & Ha & H)
  | H : Ok _ = Ok _ |- _ => injection H as H; try subst
  | H : Err _ = Ok _ |- _ => discriminate H
  | H : Ok _ = Err _ |- _ => discriminate H
  end.

(** ** Booleans *)

(** Turn every boolean comparison in the context into arithmetic. *)
Ltac bools :=
  repeat match goal with
  | H : (_ && _)%bool = true |- _ => apply andb_true_iff in H; destruct H
  | H : (_ && _)%bool = false |- _ => apply andb_false_iff in H
  | H : (_ || _)%bool = true |- _ => apply orb_true_iff in H
  | H : (_ || _)%bool = false |- _ => apply orb_false_iff in H; destruct H
  | H : negb _ = true |- _ => apply negb_true_iff in H
  | H : negb _ = false |- _ => apply negb_false_iff in H
  | H : (_ <? _) = true |- _ => apply Z.ltb_lt in H
  | H : (_ <? _) = false |- _ => apply Z.ltb_ge in H
  | H : (_ <=? _) = true |- _ => apply Z.leb_le in H
  | H : (_ <=? _) = false |- _ => apply Z.leb_gt in H
  | H : (_ =? _) = true |- _ => apply Z.eqb_eq in H
  | H : (_ =? _) = false |- _ => apply Z.eqb_neq in H
  | H : (_ >? _) = true |- _ => apply Z.gtb_lt in H
  | H : (_ >? _) = false |- _ => rewrite Z.gtb_ltb in H
  | H : (_ >=? _) = true |- _ => apply Z.geb_le in H
  | H : (_ >=? _) = false |- _ => rewrite Z.geb_leb in H
  | H : bool_decide _ = true |- _ => apply bool_decide_eq_true in H
  | H : bool_decide _ = false |- _ => apply bool_decide_eq_false in H
  end.

(** Case split on the first [if] of the goal and normalise the test. *)
Ltac split_if :=
  match goal with
  | |- context [if ?b then _ else _] =>
      let E := fresh "E" in destruct b eqn:E; bools
  end.

(** [lia] for goals with quotients and remainders by constants. *)
Ltac dlia := Z.to_euclidean_division_equations; lia.

(** ** Reachability *)

Lemma rtc_invariant {A} (R : relation A) (P : A -> Prop) x y :
  (forall a b, P a -> R a b -> P b) -> P x -> rtc R x y -> P y.
Proof. intros Hs Hx Hr. revert Hx. induction Hr as [|a b c Hab Hbc IH]; eauto. Qed.

(** ** Loops

    [iter2 k f a] runs the loop body [f] at most [2 ^ k] times from [a]: [inl]
    is a return, [inr] another turn.  The budget doubles with [k] while the
    cost is only what the loop really takes, so a generous [k] is free. *)
Fixpoint iter2 {A R} (k : nat) (f : A -> R + A) (a : A) : R + A :=
  match k with
  | O => f a
  | S k' => match iter2 k' f a with inl r => inl r | inr a' => iter2 k' f a' end
  end.

Section iter2.
Context {A R : Type} (f : A -> R + A).

(** A property every turn keeps holds of the result. *)
Lemma iter2_invariant (P : A -> Prop) (Q : R -> Prop) k a :
  (forall x y, P x -> f x = inr y -> P y) ->
  (forall x r, P x -> f x = inl r -> Q r) ->
  P a ->
  match iter2 k f a with inl r => Q r | inr b => P b end.
Proof.
  intros Hi Hr. revert a. induction k as [|k IH]; intros a Ha; simpl.
  - destruct (f a) eqn:E; eauto.
  - specialize (IH a Ha) as IHa. destruct (iter2 k f a) as [r|b]; [done|]. by apply IH.
Qed.

(** A measure that every turn decreases bounds the number of turns. *)
Lemma iter2_terminates (P : A -> Prop) (mu : A -> Z) k a :
  (forall x y, P x -> f x = inr y -> P y /\ 0 <= mu y < mu x) ->
  P a -> mu a < 2 ^ Z.of_nat k ->
  exists r, iter2 k f a = inl r.
Proof.
  intros Hstep Ha Hmu.
  enough (H : match iter2 k f a with
              | inl _ => True | inr b => P b /\ 0 <= mu b <= mu a - 2 ^ Z.of_nat k end).
  { destruct (iter2 k f a) as [r|b]; [by exists r|]. lia. }
  clear Hmu. revert a Ha. induction k as [|k IH]; intros a Ha; cbn [iter2].
  - destruct (f a) as [r|b] eqn:E; [done|]. apply Hstep in E as [??]; [|done].
    split; [done|]. change (2 ^ Z.of_nat 0) with 1. lia.
  - specialize (IH a Ha) as IHa. destruct (iter2 k f a) as [r|b]; [done|].
    destruct IHa as [Hb Hmb]. specialize (IH b Hb).
    destruct (iter2 k f b) as [r|c]; [done|]. destruct IH as [Hc Hmc].
    split; [done|].
    rewrite Nat2Z.inj_succ, Z.pow_succ_r by lia. lia.
Qed.

(** A state the body maps to itself is never left. *)
Lemma iter2_stuck k a : f a = inr a -> iter2 k f a = inr a.
Proof. intros H. induction k as [|k IH]; simpl; [done|]. by rewrite !IH. Qed.

(** A state that leads into such a state never returns either. *)
Lemma iter2_into_stuck k a b : f a = inr b -> f b = inr b -> iter2 k f a = inr b.
Proof.
  intros Ha Hb. induction k as [|k IH]; simpl; [done|].
  rewrite IH. by apply iter2_stuck.
Qed.
End iter2.

(** ** Lists *)

(** Sum of a list of integers. *)
Definition zsum (l : list Z) : Z := foldr Z.add 0 l.

Lemma zsum_cons x l : zsum (x :: l) = x + zsum l.
Proof. reflexivity. Qed.

Lemma zsum_app l1 l2 : zsum (l1 ++ l2) = zsum l1 + zsum l2.
Proof. induction l1 as [|x l IH]; simpl; [done|]. rewrite IH. lia. Qed.

Lemma zsum_nonneg l : Forall (fun x => 0 <= x) l -> 0 <= zsum l.
Proof. induction 1; simpl; lia. Qed.

#[export] Instance zsum_Permutation : Proper (Permutation ==> eq) zsum.
Proof. induction 1; simpl in *; lia. Qed.

(** ** Byte strings

    A Go string is a sequence of bytes; SQLite's BINARY collation and Go's
    [<] on strings both compare byte by byte, which is [String.compare]. *)

Definition str_ltb (a b : string) : bool :=
  match String.compare a b with Lt => true | _ => false end.
Definition str_leb (a b : string) : bool :=
  match String.compare a b with Gt => false | _ => true end.

Lemma ascii_compare_refl a : Ascii.compare a a = Eq.
Proof. unfold Ascii.compare. apply N.compare_refl. Qed.

Lemma ascii_compare_eq a b : Ascii.compare a b = Eq -> a = b.
Proof.
  unfold Ascii.compare. intros H. apply N.compare_eq in H.
  rewrite <- (ascii_N_embedding a), <- (ascii_N_embedding b). by f_equal.
Qed.

Lemma str_compare_refl s : String.compare s s = Eq.
Proof. induction s as [|c s IH]; [done|]. cbn [String.compare]. rewrite ascii_compare_refl. apply IH. Qed.

Lemma str_compare_app p a b :
  String.compare (p +:+ a) (p +:+ b) = String.compare a b.
Proof.
  induction p as [|c p IH]; [done|].
  change (String.compare (String c (p +:+ a)) (String c (p +:+ b)) = String.compare a b).
  cbn [String.compare]. by rewrite ascii_compare_refl.
Qed.

Lemma str_app_assoc (a b c : string) : (a +:+ b) +:+ c = a +:+ (b +:+ c).
Proof.
  induction a as [|x a IH]; [done|].
  change (String x ((a +:+ b) +:+ c) = String x (a +:+ (b +:+ c))). by f_equal.
Qed.

Lemma str_app_cons c (a b : string) : String c a +:+ b = String c (a +:+ b).
Proof. done. Qed.

Lemma str_app_nil_l (a : string) : EmptyString +:+ a = a.
Proof. done. Qed.

(** Compute with concatenations: stdpp keeps [cbn] from unfolding them. *)
Ltac sapp := rewrite ?str_app_cons, ?str_app_nil_l; cbn -[Ascii.eqb]; rewrite ?str_app_cons, ?str_app_nil_l.

Lemma str_app_nil_r (s : string) : s +:+ EmptyString = s.
Proof. induction s as [|c s IH]; [done|]. sapp. by rewrite IH. Qed.

Lemma str_app_length (a b : string) :
  (String.length (a +:+ b) = String.length a + String.length b)%nat.
Proof. induction a as [|x a IH]; [done|]. sapp. by rewrite IH. Qed.

Lemma str_compare_lt_trans a b c :
  String.compare a b = Lt -> String.compare b c = Lt -> String.compare a c = Lt.
Proof.
  revert b c. induction a as [|x a IH]; intros [|y b] [|z c]; cbn [String.compare]; try done.
  unfold Ascii.compare. destruct (N_of_ascii x ?= N_of_ascii y)%N eqn:E1; try done.
  - apply N.compare_eq in E1. rewrite E1. destruct (_ ?= _)%N; try done. apply IH.
  - rewrite N.compare_lt_iff in E1. destruct (N_of_ascii y ?= N_of_ascii z)%N eqn:E2; try done; intros _ Hc.
    + apply N.compare_eq in E2. rewrite <- E2. by apply N.compare_lt_iff in E1 as ->.
    + rewrite N.compare_lt_iff in E2.
      by replace (N_of_ascii x ?= N_of_ascii z)%N with Lt by (symmetry; apply N.compare_lt_iff; lia).
Qed.

Lemma str_leb_trans a b c : str_leb a b = true -> str_leb b c = true -> str_leb a c = true.
Proof.
  unfold str_leb. destruct (String.compare a b) eqn:E1; [|intros _|done].
  - apply String.compare_eq_iff in E1. by subst.
  - destruct (String.compare b c) eqn:E2; [|intros _|done].
    + apply String.compare_eq_iff in E2. subst. by rewrite E1.
    + by rewrite (str_compare_lt_trans _ _ _ E1 E2).
Qed.

Lemma str_leb_refl a : str_leb a a = true.
Proof. unfold str_leb. by rewrite str_compare_refl. Qed.

Lemma str_leb_total a b : str_leb a b = false -> str_leb b a = true.
Proof.
  unfold str_leb. rewrite (String.compare_antisym a b). by destruct (String.compare b a).
Qed.
