(* ===== verification/GoTime.v ===== *)
(** * Go's time values

    What the sources use of Go's [time] package, as the language defines it:
    instants, the proleptic Gregorian calendar, zones given by a table of
    offset transitions, [time.Date], [AddDate] and [Truncate].

    An instant is a count of nanoseconds since the Unix epoch.  The IANA
    database is data the program loads at run time, so a [Location] is an
    argument everywhere; its table has the form Go's own [Location] has. *)

From S2P Require Import Prelude.

Definition second : Z := 1000000000.
Definition minute : Z := 60 * second.
Definition hour : Z := 60 * minute.

(** The zero [time.Time]: January 1, year 1, 00:00:00 UTC. *)
Definition zero_time : Z := - 62135596800 * second.
Definition is_zero (t : Z) : bool := t =? zero_time.

(** [t.Truncate(d)] rounds down to a multiple of [d] since the zero time. *)
Definition truncate (t d : Z) : Z := t - (t - zero_time) mod d.

(** [b.Sub(a)] saturates at the ends of [time.Duration]. *)
Definition dur_sub (b a : Z) : Z := Z.max (- 2 ^ 63) (Z.min (2 ^ 63 - 1) (b - a)).

(** ** The calendar *)

Definition leap (y : Z) : bool :=
  (y mod 4 =? 0) && (negb (y mod 100 =? 0) || (y mod 400 =? 0)).

(** Days from 0001-01-01 to January 1 of year [y]. *)
Definition days_before_year (y : Z) : Z :=
  365 * (y - 1) + (y - 1) / 4 - (y - 1) / 100 + (y - 1) / 400.

(** Days of year [y] before the first of month [m]; [m] = 13 is the year's length. *)
Definition days_before_month (y m : Z) : Z :=
  let l := if leap y then 1 else 0 in
  if m <=? 1 then 0 else
  if m <=? 2 then 31 else
  if m <=? 3 then 59 + l else
  if m <=? 4 then 90 + l else
  if m <=? 5 then 120 + l else
  if m <=? 6 then 151 + l else
  if m <=? 7 then 181 + l else
  if m <=? 8 then 212 + l else
  if m <=? 9 then 243 + l else
  if m <=? 10 then 273 + l else
  if m <=? 11 then 304 + l else
  if m <=? 12 then 334 + l else 365 + l.

Definition days_in_month (y m : Z) : Z :=
  days_before_month y (m + 1) - days_before_month y m.

(** Day number (1970-01-01 is day 0) of a year, month and day; the month and
    the day may be out of range, as in [time.Date]. *)
Definition days_of_civil (y m d : Z) : Z :=
  let y' := y + (m - 1) / 12 in
  let m' := (m - 1) mod 12 + 1 in
  days_before_year y' + days_before_month y' m' + (d - 1) - 719162.

Definition year_of_day (n : Z) : Z :=
  let k := n + 719162 in
  let y := k * 400 / 146097 + 1 in
  if k <? days_before_year y then y - 1
  else if days_before_year (y + 1) <=? k then y + 1 else y.

Definition month_of_yday (y r : Z) : Z :=
  let b := days_before_month y in
  if r <? b 2 then 1 else if r <? b 3 then 2 else if r <? b 4 then 3 else
  if r <? b 5 then 4 else if r <? b 6 then 5 else if r <? b 7 then 6 else
  if r <? b 8 then 7 else if r <? b 9 then 8 else if r <? b 10 then 9 else
  if r <? b 11 then 10 else if r <? b 12 then 11 else 12.

Record civil := Civil { c_year : Z; c_month : Z; c_day : Z }.

Definition civil_of_day (n : Z) : civil :=
  let y := year_of_day n in
  let r := n + 719162 - days_before_year y in
  let m := month_of_yday y r in
  Civil y m (r - days_before_month y m + 1).

(** Sunday is 0, as in [time.Weekday]; 1970-01-01 was a Thursday. *)
Definition weekday_of_day (n : Z) : Z := (n + 4) mod 7.

Lemma days_before_year_succ y :
  days_before_year (y + 1) = days_before_year y + (if leap y then 366 else 365).
Proof.
  unfold days_before_year, leap. replace (y + 1 - 1) with y by lia.
  destruct (y mod 4 =? 0) eqn:E4; destruct (y mod 100 =? 0) eqn:E100;
    destruct (y mod 400 =? 0) eqn:E400; simpl; bools; dlia.
Qed.

Lemma days_before_month_mono y m m' :
  m <= m' -> days_before_month y m <= days_before_month y m'.
Proof.
  intros H. unfold days_before_month. destruct (leap y).
  all: repeat (split_if; try lia).
Qed.

Lemma days_before_month_1 y : days_before_month y 1 = 0.
Proof. reflexivity. Qed.

Lemma days_before_month_13 y : days_before_month y 13 = if leap y then 366 else 365.
Proof. unfold days_before_month. by destruct (leap y). Qed.

Lemma year_of_day_spec n :
  days_before_year (year_of_day n) <= n + 719162 < days_before_year (year_of_day n + 1).
Proof.
  unfold year_of_day. set (k := n + 719162). set (y := k * 400 / 146097 + 1).
  assert (Hlo : days_before_year (y - 1) <= k) by
    (unfold days_before_year, y; dlia).
  assert (Hhi : k < days_before_year (y + 2)) by
    (unfold days_before_year, y; dlia).
  destruct (k <? days_before_year y) eqn:E1; bools.
  - replace (y - 1 + 1) with y by lia. lia.
  - destruct (days_before_year (y + 1) <=? k) eqn:E2; bools.
    + replace (y + 1 + 1) with (y + 2) by lia. lia.
    + lia.
Qed.

(** January 1 sits where the year boundaries say, so the year is unique. *)
Lemma days_before_year_mono y y' :
  y <= y' -> days_before_year y <= days_before_year y'.
Proof. unfold days_before_year. intros. dlia. Qed.

Lemma year_of_day_unique n y :
  days_before_year y <= n + 719162 < days_before_year (y + 1) -> year_of_day n = y.
Proof.
  intros Hy. pose proof (year_of_day_spec n) as Hs.
  destruct (Z.lt_trichotomy (year_of_day n) y) as [Hlt|[->|Hgt]]; [|done|].
  - pose proof (days_before_year_mono (year_of_day n + 1) y). lia.
  - pose proof (days_before_year_mono (y + 1) (year_of_day n)). lia.
Qed.

Lemma month_of_yday_spec y r :
  0 <= r < days_before_month y 13 ->
  1 <= month_of_yday y r <= 12 /\
  days_before_month y (month_of_yday y r) <= r < days_before_month y (month_of_yday y r + 1).
Proof.
  intros Hr. rewrite days_before_month_13 in Hr.
  assert (Hm : forall m, days_before_month y m = days_before_month y m) by done.
  unfold month_of_yday.
  unfold days_before_month. destruct (leap y); simpl in *.
  all: repeat (split_if; [split; [lia|]; simpl; lia|]); split; [lia|]; simpl; lia.
Qed.

Lemma days_before_month_inj y m m' r :
  1 <= m <= 12 -> 1 <= m' <= 12 ->
  days_before_month y m <= r < days_before_month y (m + 1) ->
  days_before_month y m' <= r < days_before_month y (m' + 1) -> m = m'.
Proof.
  intros Hm Hm' H1 H2.
  destruct (Z.lt_trichotomy m m') as [Hlt|[->|Hgt]]; [|done|].
  - pose proof (days_before_month_mono y (m + 1) m'). lia.
  - pose proof (days_before_month_mono y (m' + 1) m). lia.
Qed.

Definition valid_civil (c : civil) : Prop :=
  1 <= c_month c <= 12 /\ 1 <= c_day c <= days_in_month (c_year c) (c_month c).

Lemma days_of_civil_in_year y m d :
  1 <= m <= 12 ->
  days_of_civil y m d = days_before_year y + days_before_month y m + (d - 1) - 719162.
Proof.
  intros Hm. unfold days_of_civil.
  replace ((m - 1) / 12) with 0 by dlia. replace ((m - 1) mod 12 + 1) with m by dlia.
  by rewrite Z.add_0_r.
Qed.

Lemma civil_of_day_valid n : valid_civil (civil_of_day n).
Proof.
  unfold valid_civil, civil_of_day, days_in_month. simpl.
  pose proof (year_of_day_spec n) as Hy. rewrite days_before_year_succ in Hy.
  set (y := year_of_day n) in *. set (r := n + 719162 - days_before_year y).
  assert (Hr : 0 <= r < days_before_month y 13) by
    (rewrite days_before_month_13; unfold r; destruct (leap y); lia).
  pose proof (month_of_yday_spec y r Hr). lia.
Qed.

(** [civil_of_day] inverts [days_of_civil], both ways. *)
Lemma days_of_civil_of_day n :
  days_of_civil (c_year (civil_of_day n)) (c_month (civil_of_day n)) (c_day (civil_of_day n)) = n.
Proof.
  pose proof (civil_of_day_valid n) as [Hm _].
  rewrite days_of_civil_in_year by done. unfold civil_of_day; simpl. lia.
Qed.

Lemma civil_of_days_of_civil c :
  valid_civil c -> civil_of_day (days_of_civil (c_year c) (c_month c) (c_day c)) = c.
Proof.
  destruct c as [y m d]. unfold valid_civil, days_in_month. simpl. intros [Hm Hd].
  rewrite days_of_civil_in_year by done.
  set (n := days_before_year y + days_before_month y m + (d - 1) - 719162).
  assert (H0 : 0 <= days_before_month y m) by
    (pose proof (days_before_month_mono y 1 m); rewrite days_before_month_1 in *; lia).
  assert (H13 : days_before_month y (m + 1) <= days_before_month y 13) by
    (apply days_before_month_mono; lia).
  assert (Hr : 0 <= days_before_month y m + (d - 1) < days_before_month y 13) by lia.
  assert (Hy : year_of_day n = y).
  { apply year_of_day_unique. rewrite days_before_year_succ, <- days_before_month_13.
    unfold n. lia. }
  unfold civil_of_day. rewrite Hy.
  replace (n + 719162 - days_before_year y) with (days_before_month y m + (d - 1)) by
    (unfold n; lia).
  destruct (month_of_yday_spec y _ Hr) as [Hm' Hb].
  rewrite (days_before_month_inj y _ m _ Hm' Hm Hb) by lia.
  f_equal. lia.
Qed.

(** ** Zones

    [tx] lists the transitions (second, offset from then on) in increasing
    order; [base] is the offset before the first.  [lookup] returns the offset
    in force at a second with the half-open interval it holds on, [None]
    standing for Go's [alpha] and [omega]. *)
Record Location := Loc { base : Z; tx : list (Z * Z) }.

Definition UTC : Location := Loc 0 [].

Fixpoint lookup_from (off : Z) (start : option Z) (l : list (Z * Z)) (sec : Z)
    : Z * option Z * option Z :=
  match l with
  | [] => (off, start, None)
  | (w, o) :: l' =>
      if sec <? w then (off, start, Some w) else lookup_from o (Some w) l' sec
  end.

Definition zone_lookup (l : Location) (sec : Z) : Z * option Z * option Z :=
  lookup_from (base l) None (tx l) sec.

Definition offset_at (l : Location) (sec : Z) : Z := (zone_lookup l sec).1.1.

(** Seconds since the epoch, and the wall clock as seconds since the epoch. *)
Definition unix (t : Z) : Z := t / second.
Definition nsec (t : Z) : Z := t mod second.
Definition wall (l : Location) (t : Z) : Z := unix t + offset_at l (unix t).

Definition local_day (l : Location) (t : Z) : Z := wall l t / 86400.
Definition Year (l : Location) (t : Z) : Z := c_year (civil_of_day (local_day l t)).
Definition Month (l : Location) (t : Z) : Z := c_month (civil_of_day (local_day l t)).
Definition Day (l : Location) (t : Z) : Z := c_day (civil_of_day (local_day l t)).
Definition Weekday (l : Location) (t : Z) : Z := weekday_of_day (local_day l t).
Definition Hour (l : Location) (t : Z) : Z := wall l t mod 86400 / 3600.
Definition Minute (l : Location) (t : Z) : Z := wall l t mod 3600 / 60.
Definition Second (l : Location) (t : Z) : Z := wall l t mod 60.

(** From a wall clock reading to an instant, as [time.Date] resolves it: look
    the zone up as if the reading were UTC, and look again when the answer does
    not lie in the interval that offset holds on. *)
Definition resolve (l : Location) (w : Z) : Z :=
  let '(off, start, stop) := zone_lookup l w in
  if off =? 0 then w else
  let utc := w - off in
  let inside := (match start with None => true | Some s => s <=? utc end) &&
                (match stop with None => true | Some e => utc <? e end) in
  if inside then w - off else w - offset_at l utc.

(** [time.Date(y, m, d, h, mi, s, ns, l)]. *)
Definition Date (l : Location) (y m d h mi s ns : Z) : Z :=
  resolve l (days_of_civil y m d * 86400 + h * 3600 + mi * 60 + s + ns / second) * second
  + ns mod second.

(** [t.AddDate(years, months, days)], [t] being a time in [l]. *)
Definition AddDate (l : Location) (t years months days : Z) : Z :=
  Date l (Year l t + years) (Month l t + months) (Day l t + days)
       (Hour l t) (Minute l t) (Second l t) (nsec t).

(** ** Zones with one offset *)

Definition fixed_zone (off : Z) : Location := Loc off [].

Lemma offset_at_fixed off sec : offset_at (fixed_zone off) sec = off.
Proof. reflexivity. Qed.

Lemma wall_fixed off t : wall (fixed_zone off) t = unix t + off.
Proof. reflexivity. Qed.

Lemma resolve_fixed off w : resolve (fixed_zone off) w = w - off.
Proof. unfold resolve. simpl. split_if; lia. Qed.

Lemma unix_mul s n : 0 <= n < second -> unix (s * second + n) = s.
Proof. unfold unix, second. intros. dlia. Qed.

Lemma unix_add t n : unix (t + n * second) = unix t + n.
Proof. unfold unix, second. dlia. Qed.

(** Reading a date back from the instant [Date] makes, in a fixed zone. *)
Lemma wall_Date_fixed off y m d h mi :
  wall (fixed_zone off) (Date (fixed_zone off) y m d h mi 0 0) =
  days_of_civil y m d * 86400 + h * 3600 + mi * 60.
Proof.
  unfold Date. rewrite wall_fixed, resolve_fixed, unix_mul by (unfold second; dlia).
  change (0 / second) with 0. lia.
Qed.

Lemma Date_fixed off y m d h mi :
  Date (fixed_zone off) y m d h mi 0 0 =
  (days_of_civil y m d * 86400 + h * 3600 + mi * 60 - off) * second.
Proof.
  unfold Date. rewrite resolve_fixed. change (0 / second) with 0.
  change (0 mod second) with 0. lia.
Qed.

(** A day between the first of a month and the first of the next lies in that month. *)
Lemma civil_same_month n x :
  let c := civil_of_day n in
  n <= x < days_of_civil (c_year c) (c_month c + 1) 1 ->
  c_year (civil_of_day x) = c_year c /\ c_month (civil_of_day x) = c_month c.
Proof.
  intros c Hx. pose proof (civil_of_day_valid n) as Hv. fold c in Hv.
  pose proof (days_of_civil_of_day n) as Hn. fold c in Hn.
  destruct Hv as [Hm Hd].
  assert (Hnext : days_of_civil (c_year c) (c_month c + 1) 1 =
                  days_of_civil (c_year c) (c_month c) 1 + days_in_month (c_year c) (c_month c)).
  { rewrite (days_of_civil_in_year _ (c_month c)) by lia. unfold days_in_month.
    destruct (decide (c_month c = 12)) as [E|E].
    - rewrite E. unfold days_of_civil.
      change ((12 + 1 - 1) / 12) with 1. change ((12 + 1 - 1) mod 12 + 1) with 1.
      rewrite days_before_year_succ, days_before_month_1.
      change (12 + 1) with 13. rewrite days_before_month_13. destruct (leap (c_year c)); lia.
    - rewrite days_of_civil_in_year by lia. lia. }
  set (d' := c_day c + (x - n)).
  assert (Hx' : x = days_of_civil (c_year c) (c_month c) d').
  { rewrite days_of_civil_in_year in Hn |- * by lia. unfold d'. lia. }
  assert (Hv' : valid_civil (Civil (c_year c) (c_month c) d')).
  { split; cbn [c_year c_month c_day]; [lia|]. rewrite Hnext in Hx.
    rewrite days_of_civil_in_year in Hx, Hn by lia. unfold d'. lia. }
  rewrite Hx'. apply civil_of_days_of_civil in Hv'.
  cbn [c_year c_month c_day] in Hv'. rewrite Hv'. done.
Qed.

(** The first of the next month is a later day, and a day after the first. *)
Lemma next_month_later n :
  let c := civil_of_day n in
  n < days_of_civil (c_year c) (c_month c + 1) 1.
Proof.
  intros c. pose proof (civil_of_day_valid n) as [Hm Hd]. fold c in Hm, Hd.
  pose proof (days_of_civil_of_day n) as Hn. fold c in Hn.
  rewrite days_of_civil_in_year in Hn by lia. unfold days_in_month in Hd.
  destruct (decide (c_month c = 12)) as [E|E].
  - rewrite E in *. unfold days_of_civil.
    change ((12 + 1 - 1) / 12) with 1. change ((12 + 1 - 1) mod 12 + 1) with 1.
    rewrite days_before_year_succ, days_before_month_1.
    change (12 + 1) with 13 in Hd. rewrite days_before_month_13 in Hd.
    destruct (leap (c_year c)); lia.
  - rewrite days_of_civil_in_year by lia. lia.
Qed.

Lemma days_of_civil_add y m d k : days_of_civil y m (d + k) = days_of_civil y m d + k.
Proof. unfold days_of_civil. lia. Qed.

(** The wall clock of a minute splits into day, hour and minute. *)
Lemma wall_split w :
  w = w / 86400 * 86400 + w mod 86400 / 3600 * 3600 + w mod 3600 / 60 * 60 + w mod 60.
Proof. dlia. Qed.

Lemma wall_parts D h mi :
  0 <= h < 24 -> 0 <= mi < 60 ->
  let w := D * 86400 + h * 3600 + mi * 60 in
  w / 86400 = D /\ w mod 86400 / 3600 = h /\ w mod 3600 / 60 = mi /\ w mod 60 = 0.
Proof. intros. unfold w. repeat split; dlia. Qed.
