(* ===== verification/GoStrings.v ===== *)
(** * Go's strings and integers

    What the sources use of Go's [strings], [strconv] and [unicode] packages on
    byte strings, and the wrap-around of the 64-bit [int]. *)

From S2P Require Import Prelude.
From Stdlib Require Import String Ascii.

(** ** 64-bit integers *)

Definition wrap64 (z : Z) : Z := (z + 2 ^ 63) mod 2 ^ 64 - 2 ^ 63.

Lemma wrap64_small z : - 2 ^ 63 <= z < 2 ^ 63 -> wrap64 z = z.
Proof. unfold wrap64. intros H. rewrite Z.mod_small by lia. lia. Qed.

(** [int32(x)]. *)
Definition wrap32 (z : Z) : Z := (z + 2 ^ 31) mod 2 ^ 32 - 2 ^ 31.
Definition int32 (z : Z) : Prop := - 2 ^ 31 <= z < 2 ^ 31.

Lemma wrap32_int32 z : int32 z -> wrap32 z = z.
Proof. unfold int32, wrap32. intros H. rewrite Z.mod_small; lia. Qed.

Lemma wrap64_over z : 2 ^ 63 <= z < 2 ^ 64 -> wrap64 z = z - 2 ^ 64.
Proof.
  unfold wrap64. intros H.
  replace (z + 2 ^ 63) with (z - 2 ^ 63 + 1 * 2 ^ 64) by lia.
  rewrite Z.mod_add, Z.mod_small by lia. lia.
Qed.

(** ** White space

    The byte sequences of the runes [unicode.IsSpace] accepts.  None of them
    can start inside the encoding of another rune, so scanning byte by byte
    sees exactly the runes a decoder sees. *)
Definition bytes (l : list nat) : string :=
  fold_right (fun n s => String (ascii_of_nat n) s) EmptyString l.

Definition space_runes : list string :=
  Eval vm_compute in map bytes
    ([[9]; [10]; [11]; [12]; [13]; [32]; [194; 133]; [194; 160]; [225; 154; 128]]
     ++ map (fun n => [226; 128; n]) (seq 128 11)
     ++ [[226; 128; 168]; [226; 128; 169]; [226; 128; 175]; [226; 129; 159]; [227; 128; 128]])%nat.

Fixpoint strip_prefix (p s : string) : option string :=
  match p, s with
  | EmptyString, _ => Some s
  | String a p', String b s' => if Ascii.eqb a b then strip_prefix p' s' else None
  | String _ _, EmptyString => None
  end.

Definition HasPrefix (s p : string) : bool :=
  match strip_prefix p s with Some _ => true | None => false end.

(** Drop one leading white-space rune. *)
Definition strip_space (s : string) : option string :=
  fold_right (fun p acc => match strip_prefix p s with Some r => Some r | None => acc end)
             None space_runes.

Lemma strip_prefix_length p s r :
  strip_prefix p s = Some r -> (String.length s = String.length p + String.length r)%nat.
Proof.
  revert s. induction p as [|a p IH]; intros [|b s]; simpl; intros H; simplify_eq; [done|done|].
  destruct (Ascii.eqb a b); [|done]. f_equal. by apply IH.
Qed.

Definition srev (s : string) : string :=
  string_of_list_ascii (rev (list_ascii_of_string s)).

Fixpoint trim_left_fuel (n : nat) (s : string) : string :=
  match n with
  | O => s
  | S n' => match strip_space s with Some r => trim_left_fuel n' r | None => s end
  end.

Definition strip_space_right (s : string) : option string :=
  let r := srev s in
  option_map srev
    (fold_right (fun p acc => match strip_prefix (srev p) r with Some q => Some q | None => acc end)
                None space_runes).

Fixpoint trim_right_fuel (n : nat) (s : string) : string :=
  match n with
  | O => s
  | S n' => match strip_space_right s with Some r => trim_right_fuel n' r | None => s end
  end.

(** [strings.TrimSpace]. *)
Definition TrimSpace (s : string) : string :=
  let l := trim_left_fuel (String.length s) s in trim_right_fuel (String.length l) l.

(** [strings.Fields]: [acc] is the field being read, in reverse. *)
Fixpoint fields_fuel (n : nat) (acc s : string) : list string :=
  let flush k := if decide (acc = EmptyString) then k else srev acc :: k in
  match n with
  | O => flush []
  | S n' =>
      match s with
      | EmptyString => flush []
      | String a s' =>
          match strip_space s with
          | Some r => flush (fields_fuel n' EmptyString r)
          | None => fields_fuel n' (String a acc) s'
          end
      end
  end.

Definition Fields (s : string) : list string := fields_fuel (S (String.length s)) EmptyString s.

(** ** Splitting *)

(** [strings.Split(s, sep)] for a one-byte separator. *)
Fixpoint Split (s : string) (sep : ascii) : list string :=
  match s with
  | EmptyString => [EmptyString]
  | String a r =>
      if Ascii.eqb a sep then EmptyString :: Split r sep
      else match Split r sep with
           | h :: t => String a h :: t
           | [] => [String a EmptyString]
           end
  end.

(** Around the first occurrence of a byte: [IndexByte] with the two slices,
    and [SplitN(s, sep, 2)]. *)
Fixpoint cut (s : string) (sep : ascii) : option (string * string) :=
  match s with
  | EmptyString => None
  | String a r =>
      if Ascii.eqb a sep then Some (EmptyString, r)
      else match cut r sep with
           | Some (x, y) => Some (String a x, y)
           | None => None
           end
  end.

(** ** Case

    [strings.ToLower] on the bytes of ASCII letters and on the two other runes
    whose lower case is an ASCII letter (U+212A and U+0130).  Every other rune
    keeps its bytes here; its lower case is never ASCII, and the sources only
    compare the result with ASCII names. *)
Definition lower_ascii (a : ascii) : ascii :=
  let n := nat_of_ascii a in
  if ((65 <=? n) && (n <=? 90))%nat then ascii_of_nat (n + 32) else a.

Fixpoint to_lower_fuel (n : nat) (s : string) : string :=
  match n with
  | O => s
  | S n' =>
      match strip_prefix (bytes [226; 132; 170]%nat) s with
      | Some r => String "k" (to_lower_fuel n' r)
      | None =>
          match strip_prefix (bytes [196; 176]%nat) s with
          | Some r => String "i" (to_lower_fuel n' r)
          | None =>
              match s with
              | EmptyString => EmptyString
              | String a r => String (lower_ascii a) (to_lower_fuel n' r)
              end
          end
      end
  end.

Definition ToLower (s : string) : string := to_lower_fuel (String.length s) s.

(** ** Integers in text *)

Definition digit (a : ascii) : option Z :=
  let n := Z.of_nat (nat_of_ascii a) in
  if (48 <=? n) && (n <=? 57) then Some (n - 48) else None.

Fixpoint digits_value (acc : Z) (s : string) : option Z :=
  match s with
  | EmptyString => Some acc
  | String a r => match digit a with Some d => digits_value (10 * acc + d) r | None => None end
  end.

Definition unsigned_value (s : string) : option Z :=
  match s with EmptyString => None | _ => digits_value 0 s end.

(** [strconv.Atoi]: an optional sign and decimal digits, within [int]'s range. *)
Definition Atoi (s : string) : option Z :=
  let v := match s with
           | String "+" r => unsigned_value r
           | String "-" r => option_map Z.opp (unsigned_value r)
           | _ => unsigned_value s
           end in
  match v with
  | Some n => if (- 2 ^ 63 <=? n) && (n <? 2 ^ 63) then Some n else None
  | None => None
  end.

Lemma Atoi_range s n : Atoi s = Some n -> - 2 ^ 63 <= n < 2 ^ 63.
Proof.
  unfold Atoi. match goal with |- context [match ?v with _ => _ end] => destruct v end; [|done].
  destruct ((- 2 ^ 63 <=? z) && (z <? 2 ^ 63)) eqn:E; intros H; simplify_eq. bools. lia.
Qed.

Definition digit_char (d : Z) : ascii := ascii_of_nat (Z.to_nat (48 + d)).

(** [n] in decimal, padded with zeros to exactly [k] digits. *)
Fixpoint pad (k : nat) (n : Z) (rest : string) : string :=
  match k with
  | O => rest
  | S k' => pad k' (n / 10) (String (digit_char (n mod 10)) rest)
  end.

(** [%d] for a number between 0 and 99. *)
Definition show_small (n : Z) : string :=
  if n <? 10 then pad 1 n EmptyString else pad 2 n EmptyString.

(** ** Scanning bytes *)

Definition dquote : ascii := "034".

(** The longest prefix of bytes that satisfy [p], and what follows it. *)
Fixpoint span (p : ascii -> bool) (s : string) : string * string :=
  match s with
  | EmptyString => (EmptyString, EmptyString)
  | String a r => if p a then let q := span p r in (String a q.1, q.2) else (EmptyString, s)
  end.

(** Around the first occurrence of [p]: [strings.Index] with the two slices. *)
Fixpoint find_sub (p s : string) : option (string * string) :=
  match strip_prefix p s with
  | Some r => Some (EmptyString, r)
  | None =>
      match s with
      | EmptyString => None
      | String a r => match find_sub p r with Some (x, y) => Some (String a x, y) | None => None end
      end
  end.

(** [strings.ReplaceAll(s, c, by)] for a one-byte [c]. *)
Fixpoint ReplaceAll (s : string) (c : ascii) (by_ : string) : string :=
  match s with
  | EmptyString => EmptyString
  | String a r => ((if Ascii.eqb a c then by_ else String a EmptyString) ++ ReplaceAll r c by_)%string
  end.

Lemma strip_prefix_app p s : strip_prefix p (p ++ s) = Some s.
Proof. induction p as [|a p IH]; simpl; [done|]. by rewrite Ascii.eqb_refl. Qed.

Lemma strip_prefix_Some p s r : strip_prefix p s = Some r <-> s = (p ++ r)%string.
Proof.
  split; [|intros ->; apply strip_prefix_app].
  revert s. induction p as [|a p IH]; intros [|b s]; simpl; intros H; simplify_eq; [done..|].
  destruct (Ascii.eqb_spec a b) as [->|]; [|done]. exact (f_equal (String b) (IH s H)).
Qed.

Lemma srev_app a b : srev (a ++ b)%string = (srev b ++ srev a)%string.
Proof.
  unfold srev.
  assert (H1 : forall x y, list_ascii_of_string (x ++ y)%string = list_ascii_of_string x ++ list_ascii_of_string y).
  { intros x y. induction x as [|c x IH]; [done|]. rewrite str_app_cons. cbn. by rewrite IH. }
  assert (H2 : forall x y, string_of_list_ascii (x ++ y) = (string_of_list_ascii x ++ string_of_list_ascii y)%string).
  { intros x y. induction x as [|c x IH]; [done|]. cbn [app string_of_list_ascii]. by rewrite IH, str_app_cons. }
  by rewrite H1, rev_app_distr, H2.
Qed.

Lemma srev_involutive s : srev (srev s) = s.
Proof.
  unfold srev. rewrite list_ascii_of_string_of_list_ascii, rev_involutive. apply string_of_list_ascii_of_string.
Qed.

Lemma srev_length s : String.length (srev s) = String.length s.
Proof.
  unfold srev. assert (E : forall l, String.length (string_of_list_ascii l) = List.length l) by (induction l as [|x l IH]; cbn; [done|by rewrite IH]).
  rewrite E, length_rev. induction s as [|y s IH]; cbn; [done|by rewrite IH].
Qed.

Lemma HasPrefix_app s p : HasPrefix s p = true <-> exists r, s = (p ++ r)%string.
Proof.
  unfold HasPrefix. destruct (strip_prefix p s) as [r|] eqn:E.
  - apply strip_prefix_Some in E as ->. split; eauto.
  - split; [done|]. intros [r ->]. by rewrite strip_prefix_app in E.
Qed.

Lemma find_sub_spec p s :
  match find_sub p s with
  | Some (x, y) => s = (x ++ p ++ y)%string
  | None => forall x y, s <> (x ++ p ++ y)%string
  end.
Proof.
  induction s as [|a s IH]; cbn [find_sub]; destruct (strip_prefix p _) as [r|] eqn:E.
  - by apply strip_prefix_Some in E.
  - intros x y Hs. destruct x; [|done]. by rewrite Hs, str_app_nil_l, strip_prefix_app in E.
  - by apply strip_prefix_Some in E.
  - destruct (find_sub p s) as [[x y]|].
    + by rewrite IH.
    + intros [|c x] y Hs; [by rewrite Hs, str_app_nil_l, strip_prefix_app in E|].
      rewrite str_app_cons in Hs. injection Hs as _ Hs. by destruct (IH x y).
Qed.

Definition all_bytes (p : ascii -> bool) (s : string) : bool := forallb p (list_ascii_of_string s).

Lemma all_bytes_app p a b : all_bytes p (a ++ b) = all_bytes p a && all_bytes p b.
Proof. induction a as [|x a IH]; [done|]. rewrite str_app_cons. unfold all_bytes in *. cbn. by rewrite IH, andb_assoc. Qed.

Lemma all_bytes_cons p c s : all_bytes p (String c s) = p c && all_bytes p s.
Proof. done. Qed.

(** ** UTF-8 *)

Definition in_range (lo hi : nat) (a : ascii) : bool :=
  ((lo <=? nat_of_ascii a) && (nat_of_ascii a <=? hi))%nat.
Definition cont : ascii -> bool := in_range 128 191.

(** The well-formed encodings of more than one byte: the first byte, the second
    and how many continuation bytes follow those two. *)
Definition utf8_heads : list ((nat * nat) * (nat * nat) * nat) :=
  [((194, 223), (128, 191), 0); ((224, 224), (160, 191), 1); ((225, 236), (128, 191), 1);
   ((237, 237), (128, 159), 1); ((238, 239), (128, 191), 1); ((240, 240), (144, 191), 2);
   ((241, 243), (128, 191), 2); ((244, 244), (128, 143), 2)]%nat.

Fixpoint conts (k : nat) (s : string) : bool :=
  match k, s with
  | O, _ => true
  | S k', String a r => cont a && conts k' r
  | S _, EmptyString => false
  end.

(** The length of the encoding [s] begins with, when it is longer than a byte. *)
Definition rune_len (s : string) : option nat :=
  match s with
  | String a (String b r) =>
      match List.find (fun h => in_range h.1.1.1 h.1.1.2 a && in_range h.1.2.1 h.1.2.2 b && conts h.2 r)
              utf8_heads with
      | Some h => Some (2 + h.2)%nat
      | None => None
      end
  | _ => None
  end.

(** [utf8.RuneCountInString]: a byte that begins no encoding counts as a rune. *)
Fixpoint rune_count_from (fuel : nat) (s : string) : nat :=
  match fuel, s with
  | S fuel', String c r =>
      if (nat_of_ascii c <? 128)%nat then S (rune_count_from fuel' r)
      else match rune_len s with
           | Some k => S (rune_count_from fuel' (substring k (String.length s - k) s))
           | None => S (rune_count_from fuel' r)
           end
  | _, _ => O
  end.

Definition RuneCountInString (s : string) : Z := Z.of_nat (rune_count_from (String.length s) s).

(** The code point of the encoding of [k] bytes [s] begins with. *)
Definition rune_value (k : nat) (s : string) : Z :=
  let b i := Z.of_nat (match String.get i s with Some c => nat_of_ascii c | None => 0 end) in
  match k with
  | 2%nat => (b 0%nat mod 32) * 64 + b 1%nat mod 64
  | 3%nat => ((b 0%nat mod 16) * 64 + b 1%nat mod 64) * 64 + b 2%nat mod 64
  | _ => (((b 0%nat mod 8) * 64 + b 1%nat mod 64) * 64 + b 2%nat mod 64) * 64 + b 3%nat mod 64
  end.

(** [range s]: the code points, U+FFFD for a byte that begins no encoding. *)
Fixpoint runes_from (fuel : nat) (s : string) : list Z :=
  match fuel, s with
  | S fuel', String c r =>
      if (nat_of_ascii c <? 128)%nat then Z.of_nat (nat_of_ascii c) :: runes_from fuel' r
      else match rune_len s with
           | Some k => rune_value k s :: runes_from fuel' (substring k (String.length s - k) s)
           | None => 65533 :: runes_from fuel' r
           end
  | _, _ => []
  end.
Definition runes (s : string) : list Z := runes_from (String.length s) s.

(** [utf8.ValidString]. *)
Fixpoint valid_from (fuel : nat) (s : string) : bool :=
  match fuel, s with
  | S fuel', String c r =>
      if (nat_of_ascii c <? 128)%nat then valid_from fuel' r
      else match rune_len s with
           | Some k => valid_from fuel' (substring k (String.length s - k) s)
           | None => false
           end
  | _, _ => true
  end.
Definition ValidString (s : string) : bool := valid_from (String.length s) s.

Lemma rune_count_runes s : RuneCountInString s = Z.of_nat (List.length (runes s)).
Proof.
  unfold RuneCountInString, runes. f_equal. generalize (String.length s). intros n. revert s.
  induction n as [|n IH]; intros [|c s]; [done..|]. cbn [rune_count_from runes_from].
  destruct (_ <? _)%nat; [cbn; by rewrite IH|]. destruct (rune_len _); cbn [List.length]; by rewrite IH.
Qed.

(** The encoding of a code point; U+FFFD for what is none. *)
Definition byte (z : Z) : ascii := ascii_of_nat (Z.to_nat z).
Definition rune_error : string := bytes [239; 191; 189]%nat.
Definition encode_rune (r : Z) : string :=
  if (r <? 0) || (1114111 <? r) || ((55296 <=? r) && (r <=? 57343)) then rune_error
  else if r <? 128 then String (byte r) EmptyString
  else if r <? 2048 then String (byte (192 + r / 64)) (String (byte (128 + r mod 64)) EmptyString)
  else if r <? 65536 then
    String (byte (224 + r / 4096))
      (String (byte (128 + r / 64 mod 64)) (String (byte (128 + r mod 64)) EmptyString))
  else
    String (byte (240 + r / 262144)) (String (byte (128 + r / 4096 mod 64))
      (String (byte (128 + r / 64 mod 64)) (String (byte (128 + r mod 64)) EmptyString))).

(** ** Integers in a base *)

Definition digit_in (base : Z) (a : ascii) : option Z :=
  let n := Z.of_nat (nat_of_ascii a) in
  let v := if (48 <=? n) && (n <=? 57) then n - 48
           else if (97 <=? n) && (n <=? 122) then n - 87
           else if (65 <=? n) && (n <=? 90) then n - 55 else base in
  if v <? base then Some v else None.

Fixpoint base_value (base acc : Z) (s : string) : option Z :=
  match s with
  | EmptyString => Some acc
  | String a r => match digit_in base a with Some d => base_value base (base * acc + d) r | None => None end
  end.

(** [strconv.ParseInt(s, base, 32)] for a base that is not 0. *)
Definition ParseInt32 (base : Z) (s : string) : option Z :=
  let unsigned s := match s with EmptyString => None | _ => base_value base 0 s end in
  let v := match s with
           | String "+" r => unsigned r
           | String "-" r => option_map Z.opp (unsigned r)
           | _ => unsigned s
           end in
  match v with
  | Some n => if (- 2 ^ 31 <=? n) && (n <? 2 ^ 31) then Some n else None
  | None => None
  end.

(** [%d]. *)
Fixpoint show_digits (fuel : nat) (n : Z) (rest : string) : string :=
  match fuel with
  | O => rest
  | S f => let rest' := String (digit_char (n mod 10)) rest in
           if n <? 10 then rest' else show_digits f (n / 10) rest'
  end.
Definition show_int (n : Z) : string :=
  if n <? 0 then String "-" (show_digits 20 (- n) EmptyString) else show_digits 20 n EmptyString.

(** ** Around a separator *)

Definition lacks (c : ascii) (s : string) : Prop := all_bytes (fun x => negb (Ascii.eqb x c)) s = true.

Lemma all_bytes_weaken (p q : ascii -> bool) s :
  (forall c, p c = true -> q c = true) -> all_bytes p s = true -> all_bytes q s = true.
Proof.
  intros Hpq. induction s as [|c s IH]; [done|]. rewrite !all_bytes_cons, !andb_true_iff. naive_solver.
Qed.

Lemma lacks_app c a b : lacks c (a +:+ b) <-> lacks c a /\ lacks c b.
Proof. unfold lacks. by rewrite all_bytes_app, andb_true_iff. Qed.

Lemma lacks_cons c x s : lacks c (String x s) <-> x <> c /\ lacks c s.
Proof.
  unfold lacks. rewrite all_bytes_cons, andb_true_iff, negb_true_iff. by rewrite Ascii.eqb_neq.
Qed.

Lemma cut_lacks s c : cut s c = None <-> lacks c s.
Proof.
  induction s as [|x s IH]; [done|]. rewrite lacks_cons. cbn [cut]. destruct (Ascii.eqb_spec x c); [naive_solver|].
  destruct (cut s c) as [[? ?]|]; naive_solver.
Qed.

Lemma cut_app a b c : lacks c a -> cut (a +:+ String c b) c = Some (a, b).
Proof.
  induction a as [|x a IH]; intros H; sapp; [by rewrite Ascii.eqb_refl|].
  apply lacks_cons in H as [Hx H]. rewrite (proj2 (Ascii.eqb_neq x c) Hx). by rewrite IH.
Qed.

Lemma cut_Some s c a b : cut s c = Some (a, b) -> s = a +:+ String c b /\ lacks c a.
Proof.
  revert a. induction s as [|x s IH]; intros a; cbn [cut]; [done|]. destruct (Ascii.eqb_spec x c) as [->|Hx].
  - intros [= <- <-]. done.
  - destruct (cut s c) as [[y z]|]; [|done]. intros [= <- <-]. destruct (IH y eq_refl) as [-> H].
    split; [done|]. by apply lacks_cons.
Qed.

Lemma Split_cons (s r : string) c : lacks c s -> Split (s +:+ String c r) c = s :: Split r c.
Proof.
  induction s as [|x s IH]; intros H.
  - rewrite str_app_nil_l. cbn [Split]. by rewrite Ascii.eqb_refl.
  - apply lacks_cons in H as [Hx H]. rewrite str_app_cons. cbn [Split].
    rewrite (proj2 (Ascii.eqb_neq _ _) Hx), IH by done. done.
Qed.

Lemma Split_lacks s c : lacks c s -> Split s c = [s].
Proof.
  induction s as [|x s IH]; intros H; [done|]. apply lacks_cons in H as [Hx H]. cbn [Split].
  by rewrite (proj2 (Ascii.eqb_neq _ _) Hx), IH.
Qed.

(** ** Printing and reading numbers *)

Definition digit_byte (a : ascii) : bool := match digit a with Some _ => true | None => false end.

Lemma digit_digit_char d : 0 <= d <= 9 -> digit (digit_char d) = Some d.
Proof.
  intros Hd. assert (H : d = 0 \/ d = 1 \/ d = 2 \/ d = 3 \/ d = 4 \/ d = 5 \/ d = 6 \/ d = 7 \/ d = 8 \/ d = 9) by lia.
  by repeat destruct H as [->|H]; try subst d.
Qed.

Lemma show_digits_bytes fuel n rest :
  0 <= n -> all_bytes digit_byte rest = true -> all_bytes digit_byte (show_digits fuel n rest) = true.
Proof.
  revert n rest. induction fuel as [|f IH]; intros n rest Hn Hr; [done|]. cbn [show_digits].
  assert (H : all_bytes digit_byte (String (digit_char (n mod 10)) rest) = true).
  { rewrite all_bytes_cons. unfold digit_byte at 1. by rewrite digit_digit_char by dlia. }
  destruct (n <? 10); [done|]. apply IH; [dlia|done].
Qed.

(** Reading back what was printed, with whatever followed. *)
Lemma digits_value_show fuel n rest acc :
  0 <= n < 10 ^ Z.of_nat fuel ->
  exists k, 0 <= k /\ digits_value acc (show_digits fuel n rest) = digits_value (acc * 10 ^ k + n) rest.
Proof.
  revert n rest acc. induction fuel as [|f IH]; intros n rest acc Hn.
  - exists 0. change (10 ^ Z.of_nat 0) with 1 in Hn. cbn [show_digits]. split; [lia|]. f_equal. lia.
  - rewrite Nat2Z.inj_succ, Z.pow_succ_r in Hn by lia. cbn [show_digits]. destruct (Z.ltb_spec n 10) as [H|H].
    + exists 1. split; [lia|]. cbn [digits_value]. rewrite digit_digit_char by dlia. f_equal. rewrite Z.mod_small by lia. lia.
    + destruct (IH (n / 10) (String (digit_char (n mod 10)) rest) acc ltac:(dlia)) as (k & Hk & E).
      exists (k + 1). split; [lia|]. rewrite E. cbn [digits_value]. rewrite digit_digit_char by dlia. f_equal.
      rewrite Z.pow_add_r by lia. change (10 ^ 1) with 10. pose proof (Z.div_mod n 10). lia.
Qed.

Lemma show_digits_cons f n rest : exists a s, show_digits (S f) n rest = String a s.
Proof.
  revert n rest. induction f as [|f IH]; intros n rest; cbn [show_digits].
  - destruct (n <? 10); eauto.
  - destruct (n <? 10); [eauto|]. apply IH.
Qed.

Lemma unsigned_show n : 0 <= n < 10 ^ 20 -> unsigned_value (show_int n) = Some n.
Proof.
  intros Hn. unfold show_int. rewrite (proj2 (Z.ltb_ge n 0)) by lia.
  destruct (digits_value_show 20 n EmptyString 0 Hn) as (k & _ & E). unfold unsigned_value.
  destruct (show_digits_cons 19 n EmptyString) as (a & s & Es). rewrite Es in *. rewrite E. by f_equal.
Qed.

Lemma show_int_bytes n : 0 <= n -> all_bytes digit_byte (show_int n) = true.
Proof. intros Hn. unfold show_int. rewrite (proj2 (Z.ltb_ge n 0)) by lia. by apply show_digits_bytes. Qed.

Lemma Atoi_show n : 0 <= n < 2 ^ 63 -> Atoi (show_int n) = Some n.
Proof.
  intros Hn. pose proof (unsigned_show n ltac:(lia)) as Hu. pose proof (show_int_bytes n ltac:(lia)) as Hb.
  unfold Atoi. destruct (show_int n) as [|a s] eqn:E; [done|]. rewrite all_bytes_cons in Hb. bools.
  assert (Ha : match String a s with
               | String "+" r => unsigned_value r | String "-" r => option_map Z.opp (unsigned_value r)
               | _ => unsigned_value (String a s) end = Some n).
  { by destruct a as [[] [] [] [] [] [] [] []]. }
  rewrite Ha. rewrite (proj2 (Z.leb_le _ _)), (proj2 (Z.ltb_lt _ _)) by lia. done.
Qed.

(** ** Sorting and joining *)

Fixpoint insert_string (x : string) (l : list string) : list string :=
  match l with
  | [] => [x]
  | y :: r => if str_leb x y then x :: l else y :: insert_string x r
  end.

(** [sort.Strings]. *)
Definition sort_strings (l : list string) : list string := fold_right insert_string [] l.

Definition str_le (a b : string) : Prop := str_leb a b = true.
#[export] Instance str_le_trans : Transitive str_le.
Proof. intros a b c. apply str_leb_trans. Qed.
#[export] Instance str_le_antisym : AntiSymm (=) str_le.
Proof.
  intros a b Ha Hb. unfold str_le, str_leb in *. rewrite (String.compare_antisym b a) in Hb.
  destruct (String.compare a b) eqn:E; [|done..]. by apply String.compare_eq_iff.
Qed.

Lemma insert_string_perm x l : insert_string x l ≡ₚ x :: l.
Proof.
  induction l as [|y l IH]; [done|]. cbn. destruct (str_leb x y); [done|]. rewrite IH. apply perm_swap.
Qed.

Lemma sort_strings_perm l : sort_strings l ≡ₚ l.
Proof. induction l as [|x l IH]; [done|]. cbn. by rewrite insert_string_perm, IH. Qed.

Lemma insert_string_sorted x l : StronglySorted str_le l -> StronglySorted str_le (insert_string x l).
Proof.
  induction 1 as [|y l Hl IH Hy]; cbn; [by repeat constructor|]. destruct (str_leb x y) eqn:E.
  - constructor; [by constructor|]. constructor; [done|]. eapply Forall_impl; [exact Hy|]. intros z Hz. by trans y.
  - constructor; [done|]. rewrite insert_string_perm. constructor; [|done]. by apply str_leb_total.
Qed.

Lemma sort_strings_sorted l : StronglySorted str_le (sort_strings l).
Proof. induction l as [|x l IH]; [constructor|]. by apply insert_string_sorted. Qed.

(** Sorting forgets the order. *)
#[export] Instance sort_strings_proper : Proper ((≡ₚ) ==> (=)) sort_strings.
Proof.
  intros l l' Hl. apply (StronglySorted_unique str_le); [apply sort_strings_sorted..|].
  by rewrite !sort_strings_perm.
Qed.

(** [strings.Join]. *)
Fixpoint Join (l : list string) (sep : string) : string :=
  match l with
  | [] => EmptyString
  | [x] => x
  | x :: r => (x ++ sep ++ Join r sep)%string
  end.

Example fields_ex : Fields " 0  12 * * 1-5 " = ["0"; "12"; "*"; "*"; "1-5"]%string.
Proof. reflexivity. Qed.
Example split_ex : Split "1,3,5" "," = ["1"; "3"; "5"]%string.
Proof. reflexivity. Qed.
Example atoi_ex : Atoi "-42" = Some (-42) /\ Atoi "4x" = None /\ Atoi "+7" = Some 7.
Proof. done. Qed.
Example runes_ex : runes (bytes [65; 195; 169; 226; 130; 172; 240; 159; 152; 128; 255]%nat) = [65; 233; 8364; 128512; 65533].
Proof. vm_compute. reflexivity. Qed.
Example trim_ex : TrimSpace "  Weekly " = "Weekly"%string.
Proof. reflexivity. Qed.

(** ** Trimming twice *)
Local Open Scope string_scope.

Lemma strip_space_Some s r : strip_space s = Some r -> exists p, p ∈ space_runes /\ s = p ++ r.
Proof.
  unfold strip_space. induction space_runes as [|p l IH]; cbn [fold_right]; [done|]. destruct (strip_prefix p s) as [q|] eqn:E.
  - intros [= ->]. exists p. split; [left|by apply strip_prefix_Some].
  - intros (q & Hq & Hs)%IH. exists q. split; [by right|done].
Qed.

Lemma strip_space_prefix p s : p ∈ space_runes -> exists r, strip_space (p ++ s) = Some r.
Proof.
  unfold strip_space. induction space_runes as [|q l IH]; cbn [fold_right]; [by intros ?%elem_of_nil|].
  intros [->|Hp]%elem_of_cons; [rewrite strip_prefix_app; by eexists|].
  destruct (strip_prefix q (p ++ s)); [by eexists|by apply IH].
Qed.

Lemma space_runes_nonempty p : p ∈ space_runes -> (0 < String.length p)%nat.
Proof.
  assert (H : forallb (fun p => (0 <? String.length p)%nat) space_runes = true) by reflexivity.
  intros Hp. apply Nat.ltb_lt. rewrite forallb_forall in H. apply H. by apply list_elem_of_In.
Qed.

Lemma strip_space_right_Some s r : strip_space_right s = Some r -> exists p, p ∈ space_runes /\ s = r ++ p.
Proof.
  unfold strip_space_right. destruct (fold_right _ _ _) as [q|] eqn:E; [|done]. cbn. intros [= <-].
  assert (H : exists p, p ∈ space_runes /\ strip_prefix (srev p) (srev s) = Some q).
  { revert E. induction space_runes as [|p l IH]; cbn [fold_right]; [done|]. destruct (strip_prefix (srev p) (srev s)) eqn:Ep.
    - intros [= ->]. exists p. split; [left|done].
    - intros (x & Hx & Ex)%IH. exists x. split; [by right|done]. }
  destruct H as (p & Hp & Hs%strip_prefix_Some). exists p. split; [done|].
  rewrite <- (srev_involutive s), Hs, srev_app, srev_involutive. done.
Qed.

Lemma trim_left_done n s : (String.length s <= n)%nat -> strip_space (trim_left_fuel n s) = None.
Proof.
  revert s. induction n as [|n IH]; intros s Hn; cbn [trim_left_fuel]; [destruct s; [done|cbn in Hn; lia]|].
  destruct (strip_space s) as [r|] eqn:E; [|done]. apply IH. apply strip_space_Some in E as (p & Hp%space_runes_nonempty & ->). rewrite str_app_length in Hn. lia.
Qed.

Lemma trim_right_done n s : (String.length s <= n)%nat -> strip_space_right (trim_right_fuel n s) = None /\ exists x, s = trim_right_fuel n s ++ x.
Proof.
  revert s. induction n as [|n IH]; intros s Hn; cbn [trim_right_fuel].
  - destruct s; [|cbn in Hn; lia]. split; [done|]. by exists "".
  - destruct (strip_space_right s) as [r|] eqn:E; [|split; [done|exists ""; by rewrite str_app_nil_r]].
    apply strip_space_right_Some in E as (p & Hp%space_runes_nonempty & ->). rewrite str_app_length in Hn. destruct (IH r) as [H1 [x Hx]]; [lia|].
    split; [done|]. exists (x ++ p). rewrite <- str_app_assoc. by f_equal.
Qed.

Lemma trim_left_stop n s : strip_space s = None -> trim_left_fuel n s = s.
Proof. intros H. destruct n; cbn [trim_left_fuel]; [done|]. by rewrite H. Qed.
Lemma trim_right_stop n s : strip_space_right s = None -> trim_right_fuel n s = s.
Proof. intros H. destruct n; cbn [trim_right_fuel]; [done|]. by rewrite H. Qed.

Lemma TrimSpace_idem s : TrimSpace (TrimSpace s) = TrimSpace s.
Proof.
  unfold TrimSpace. set (l := trim_left_fuel (String.length s) s). cbv zeta. destruct (trim_right_done (String.length l) l) as [H1 [x Hx]]; [lia|].
  set (t := trim_right_fuel (String.length l) l) in *.
  assert (H2 : strip_space t = None).
  { destruct (strip_space t) as [r|] eqn:E; [|done]. apply strip_space_Some in E as (p & Hp & Et).
    pose proof (trim_left_done (String.length s) s (le_n _)) as Hl. fold l in Hl. rewrite Hx, Et, str_app_assoc in Hl.
    destruct (strip_space_prefix p (r ++ x) Hp) as [y Hy]. congruence. }
  rewrite trim_left_stop by done. by apply trim_right_stop.
Qed.
