(* ===== verification/Utf8.v ===== *)
(** * UTF-8

    The strings that are valid UTF-8 as a grammar, with the code points they
    encode: what [ValidString], [runes] and [encode_rune] of GoStrings.v compute. *)

From S2P Require Import Prelude GoStrings.
From Stdlib Require Import String Ascii.
Local Open Scope string_scope.
Local Open Scope Z_scope.

Definition ascii_byte (c : ascii) : bool := (nat_of_ascii c <? 128)%nat.

(** One encoding of more than a byte. *)
Definition multi (h : string) : Prop := rune_len h = Some (String.length h).

Inductive Utf8 : string -> list Z -> Prop :=
| Utf8_nil : Utf8 "" []
| Utf8_ascii c s l : ascii_byte c = true -> Utf8 s l -> Utf8 (String c s) (Z.of_nat (nat_of_ascii c) :: l)
| Utf8_multi h s l : multi h -> Utf8 s l -> Utf8 (h ++ s) (rune_value (String.length h) h :: l).

(** ** One encoding *)

Lemma in_range_spec lo hi a : in_range lo hi a = true <-> (lo <= nat_of_ascii a <= hi)%nat.
Proof. unfold in_range. rewrite andb_true_iff, !Nat.leb_le. done. Qed.

(** The first byte decides which row of the table applies. *)
Definition head_of (a : ascii) : option ((nat * nat) * (nat * nat) * nat) :=
  List.find (fun h => in_range h.1.1.1 h.1.1.2 a) utf8_heads.

Lemma rune_len_head a b r :
  rune_len (String a (String b r)) =
  match head_of a with
  | Some h => if in_range h.1.2.1 h.1.2.2 b && conts h.2 r then Some (2 + h.2)%nat else None
  | None => None
  end.
Proof.
  unfold rune_len, head_of, utf8_heads. cbn [List.find fst snd].
  repeat match goal with
  | |- context [in_range ?lo ?hi a] =>
      let E := fresh "E" in destruct (in_range lo hi a) eqn:E; cbn [andb];
      try (exfalso; repeat match goal with H : in_range _ _ a = true |- _ => apply in_range_spec in H end; lia)
  end; cbn [fst snd]; try done; by destruct (_ && _).
Qed.

Lemma head_of_spec a h :
  head_of a = Some h ->
  (128 <= nat_of_ascii a)%nat /\ (128 <= h.1.2.1)%nat /\ (h.2 <= 2)%nat.
Proof.
  unfold head_of. intros [Hin Hr]%find_some. apply in_range_spec in Hr. unfold utf8_heads in Hin. cbn in Hin.
  repeat destruct Hin as [<-|Hin]; cbn in *; try done; lia.
Qed.

Lemma cont_byte x : cont x = true -> ascii_byte x = false.
Proof. unfold cont. rewrite in_range_spec. intros. apply Nat.ltb_ge. lia. Qed.

(** [rune_len] looks at the bytes of the encoding only, all of them outside ASCII. *)
Lemma rune_len_split s k :
  rune_len s = Some k ->
  exists h t, s = h ++ t /\ String.length h = k /\ all_bytes (fun c => negb (ascii_byte c)) h = true
    /\ (forall t', rune_len (h ++ t') = Some k) /\ (forall t', rune_value k (h ++ t') = rune_value k h).
Proof.
  destruct s as [|a [|b r]]; try done. rewrite rune_len_head. destruct (head_of a) as [hd|] eqn:Eh; [|done].
  destruct (in_range _ _ b) eqn:Eb; [|done]. destruct (conts _ r) eqn:Ec; [|done]. intros [= <-].
  destruct (head_of_spec a hd Eh) as (Ha & Hlo & Hn). pose proof Eb as Eb'. apply in_range_spec in Eb'.
  assert (Hab : ascii_byte a = false /\ ascii_byte b = false) by (split; apply Nat.ltb_ge; lia). destruct Hab as [Hab1 Hab2].
  destruct hd as [[r1 r2] n]. cbn [fst snd] in *. destruct n as [|[|[|n]]]; [| | |lia].
  - exists (String a (String b "")), r. split_and!; [done|done|by rewrite !all_bytes_cons, Hab1, Hab2| |done].
    intros t'. change (String a (String b "") ++ t') with (String a (String b t')). by rewrite rune_len_head, Eh; cbn; rewrite Eb.
  - destruct r as [|c r]; [done|]. cbn in Ec. rewrite andb_true_r in Ec.
    exists (String a (String b (String c ""))), r. split_and!; [done|done|by rewrite !all_bytes_cons, Hab1, Hab2, cont_byte| |done].
    intros t'. change (_ ++ t') with (String a (String b (String c t'))). rewrite rune_len_head, Eh; cbn. by rewrite Eb, Ec.
  - destruct r as [|c [|d r]]; cbn in Ec; [done|by rewrite andb_false_r in Ec|]. rewrite andb_true_r in Ec. bools.
    exists (String a (String b (String c (String d "")))), r. split_and!; [done|done|by rewrite !all_bytes_cons, Hab1, Hab2, !cont_byte| |done].
    intros t'. change (_ ++ t') with (String a (String b (String c (String d t')))). rewrite rune_len_head, Eh; cbn.
    by rewrite Eb, H, H0.
Qed.

Lemma multi_len h t : multi h -> rune_len (h ++ t) = Some (String.length h) /\ rune_value (String.length h) (h ++ t) = rune_value (String.length h) h
  /\ all_bytes (fun c => negb (ascii_byte c)) h = true /\ h <> "".
Proof.
  intros Hm. unfold multi in Hm. pose proof Hm as Hm'. apply rune_len_split in Hm' as (h' & t' & E & Hl & Ha & H1 & H2).
  assert (t' = "") as ->. { destruct t' as [|c t']; [done|]. rewrite E, str_app_length in Hl. cbn in Hl. lia. }
  rewrite str_app_nil_r in E. subst h'. split_and!; [apply H1|apply H2|done|]. by intros ->.
Qed.

(** ** Reading and writing *)

Lemma substring_drop h t : substring (String.length h) (String.length (h ++ t) - String.length h) (h ++ t) = t.
Proof.
  rewrite str_app_length, Nat.add_comm, Nat.add_sub. induction h as [|c h IH]; sapp; [|exact IH].
  induction t as [|c t IH]; [done|]. cbn. by rewrite IH.
Qed.

(** What the two loops do on a valid string, with any fuel that suffices. *)
Lemma loops_utf8 s l n : Utf8 s l -> (String.length s <= n)%nat -> valid_from n s = true /\ runes_from n s = l.
Proof.
  intros H. revert n. induction H as [|c s l Hc H IH|h s l Hm H IH]; intros n Hn.
  - by destruct n.
  - destruct n as [|n]; [cbn in Hn; lia|]. cbn in Hn. unfold ascii_byte in Hc. cbn [valid_from runes_from]. rewrite Hc.
    destruct (IH n ltac:(lia)) as [-> ->]. done.
  - destruct (multi_len h s Hm) as (H1 & H2 & H3 & H4). destruct h as [|c h]; [done|]. rewrite str_app_length in Hn. cbn in Hn.
    destruct n as [|n]; [lia|]. rewrite str_app_cons in *. cbn [valid_from runes_from].
    rewrite all_bytes_cons in H3. apply andb_true_iff in H3 as [Hc _]. apply negb_true_iff in Hc. unfold ascii_byte in Hc. rewrite Hc, H1, H2.
    rewrite <- !str_app_cons, substring_drop. destruct (IH n ltac:(lia)) as [-> ->]. done.
Qed.

Lemma Utf8_valid s l : Utf8 s l -> ValidString s = true /\ runes s = l.
Proof. intros H. by apply loops_utf8. Qed.

Lemma valid_from_utf8 n s : (String.length s <= n)%nat -> valid_from n s = true -> exists l, Utf8 s l.
Proof.
  revert s. induction n as [|n IH]; intros [|c s] Hn Hv; cbn in Hn; try lia; [eexists; constructor..|].
  cbn [valid_from] in Hv. destruct (nat_of_ascii c <? 128)%nat eqn:Hc.
  - destruct (IH s ltac:(lia) Hv) as [l Hl]. eexists. by apply Utf8_ascii.
  - destruct (rune_len (String c s)) as [k|] eqn:Ek; [|done].
    apply rune_len_split in Ek as (h & t & E & <- & Ha & H1 & H2). rewrite E, substring_drop in Hv.
    assert (Ht : (String.length t <= n)%nat).
    { assert (String.length (String c s) = String.length h + String.length t)%nat by (by rewrite E, str_app_length).
      destruct h; [|cbn in *; lia]. specialize (H1 ""). done. }
    destruct (IH t Ht Hv) as [l Hl]. rewrite E. eexists. apply Utf8_multi; [|done].
    specialize (H1 ""). by rewrite str_app_nil_r in H1.
Qed.

Lemma valid_utf8 s : ValidString s = true <-> Utf8 s (runes s).
Proof.
  split; [|intros H; apply (Utf8_valid _ _ H)]. intros H. destruct (valid_from_utf8 _ _ (Nat.le_refl _) H) as [l Hl].
  destruct (Utf8_valid _ _ Hl) as [_ ->]. done.
Qed.

Lemma Utf8_app a la b lb : Utf8 a la -> Utf8 b lb -> Utf8 (a ++ b) (la ++ lb)%list.
Proof.
  intros Ha Hb. induction Ha as [|c s l Hc H IH|h s l Hm H IH]; [done|by apply Utf8_ascii|].
  rewrite str_app_assoc. by apply Utf8_multi.
Qed.

(** ** Code points *)

(** The Unicode scalar values. *)
Definition scalar (r : Z) : bool := (0 <=? r) && (r <=? 1114111) && negb ((55296 <=? r) && (r <=? 57343)).

Lemma nat_of_byte z : 0 <= z < 256 -> nat_of_ascii (byte z) = Z.to_nat z.
Proof. intros Hz. unfold byte. apply nat_ascii_embedding. lia. Qed.

Lemma in_range_true lo hi z : 0 <= z < 256 -> Z.of_nat lo <= z <= Z.of_nat hi -> in_range lo hi (byte z) = true.
Proof. intros Hz H. apply in_range_spec. rewrite nat_of_byte by done. lia. Qed.
Lemma in_range_false lo hi z : 0 <= z < 256 -> z < Z.of_nat lo \/ Z.of_nat hi < z -> in_range lo hi (byte z) = false.
Proof. intros Hz H. apply not_true_iff_false. rewrite in_range_spec, nat_of_byte by done. lia. Qed.

(** The row of a first byte. *)
Ltac head_row :=
  unfold head_of, utf8_heads; cbn [List.find fst snd];
  repeat first [rewrite in_range_true by lia | rewrite in_range_false by lia]; reflexivity.

Lemma rune_value_bytes x y z w :
  0 <= x < 256 -> 0 <= y < 256 -> 0 <= z < 256 -> 0 <= w < 256 ->
  rune_value 2 (String (byte x) (String (byte y) "")) = x mod 32 * 64 + y mod 64
  /\ rune_value 3 (String (byte x) (String (byte y) (String (byte z) ""))) = (x mod 16 * 64 + y mod 64) * 64 + z mod 64
  /\ rune_value 4 (String (byte x) (String (byte y) (String (byte z) (String (byte w) ""))))
     = ((x mod 8 * 64 + y mod 64) * 64 + z mod 64) * 64 + w mod 64.
Proof. intros. unfold rune_value. cbn [String.get]. rewrite !nat_of_byte by done. by rewrite !Z2Nat.id by lia. Qed.

Lemma multi2 x y : 194 <= x <= 223 -> 128 <= y <= 191 -> multi (String (byte x) (String (byte y) "")).
Proof.
  intros Hx Hy. unfold multi. rewrite rune_len_head.
  assert (E : head_of (byte x) = Some ((194, 223), (128, 191), 0)%nat) by head_row. rewrite E. cbn [fst snd].
  by rewrite in_range_true by lia.
Qed.

Lemma multi3 x y z :
  (x = 224 /\ 160 <= y <= 191) \/ (225 <= x <= 236 /\ 128 <= y <= 191) \/ (x = 237 /\ 128 <= y <= 159) \/ (238 <= x <= 239 /\ 128 <= y <= 191) ->
  128 <= z <= 191 -> multi (String (byte x) (String (byte y) (String (byte z) ""))).
Proof.
  intros Hxy Hz. unfold multi. rewrite rune_len_head.
  assert (E : exists lo hi ab, head_of (byte x) = Some (ab, (lo, hi), 1%nat) /\ Z.of_nat lo <= y <= Z.of_nat hi).
  { destruct Hxy as [[-> Hy]|[[Hx Hy]|[[-> Hy]|[Hx Hy]]]]; eexists _, _, _; (split; [head_row|lia]). }
  destruct E as (lo & hi & ab & -> & Hy). cbn [fst snd conts]. unfold cont.
  rewrite in_range_true by (destruct Hxy; lia). by rewrite in_range_true by lia.
Qed.

Lemma multi4 x y z w :
  (x = 240 /\ 144 <= y <= 191) \/ (241 <= x <= 243 /\ 128 <= y <= 191) \/ (x = 244 /\ 128 <= y <= 143) ->
  128 <= z <= 191 -> 128 <= w <= 191 -> multi (String (byte x) (String (byte y) (String (byte z) (String (byte w) "")))).
Proof.
  intros Hxy Hz Hw. unfold multi. rewrite rune_len_head.
  assert (E : exists lo hi ab, head_of (byte x) = Some (ab, (lo, hi), 2%nat) /\ Z.of_nat lo <= y <= Z.of_nat hi).
  { destruct Hxy as [[-> Hy]|[[Hx Hy]|[-> Hy]]]; eexists _, _, _; (split; [head_row|lia]). }
  destruct E as (lo & hi & ab & -> & Hy). cbn [fst snd conts]. unfold cont.
  rewrite in_range_true by (destruct Hxy; lia). by rewrite !in_range_true by lia.
Qed.

Lemma Utf8_one h r : multi h -> rune_value (String.length h) h = r -> Utf8 h [r].
Proof. intros Hm <-. rewrite <- (str_app_nil_r h) at 1. apply Utf8_multi; [done|constructor]. Qed.

Lemma encode_utf8 r : scalar r = true -> Utf8 (encode_rune r) [r].
Proof.
  unfold scalar. intros H. apply andb_true_iff in H as [H Hs]. bools. unfold encode_rune.
  assert (Hgap : r < 55296 \/ 57343 < r) by (destruct Hs; bools; lia). clear Hs.
  assert (Hbad : (r <? 0) || (1114111 <? r) || ((55296 <=? r) && (r <=? 57343)) = false).
  { rewrite (proj2 (Z.ltb_ge r 0)), (proj2 (Z.ltb_ge 1114111 r)) by lia. cbn [orb]. apply andb_false_iff. rewrite !Z.leb_gt. lia. }
  rewrite Hbad. destruct (Z.ltb_spec r 128) as [H1|H1].
  { replace [r] with [Z.of_nat (nat_of_ascii (byte r))] by (rewrite nat_of_byte by lia; f_equal; lia).
    apply Utf8_ascii; [|constructor]. apply Nat.ltb_lt. rewrite nat_of_byte by lia. lia. }
  destruct (Z.ltb_spec r 2048) as [H2|H2]; [|destruct (Z.ltb_spec r 65536) as [H3|H3]].
  - apply Utf8_one; [apply multi2; dlia|]. cbn [String.length].
    destruct (rune_value_bytes (192 + r / 64) (128 + r mod 64) 0 0) as (-> & _ & _); [dlia..|]. dlia.
  - assert (Hc : r < 4096 \/ 4096 <= r < 53248 \/ 53248 <= r < 55296 \/ 57344 <= r < 65536) by lia.
    apply Utf8_one; [apply multi3; [destruct Hc as [Hc|[Hc|[Hc|Hc]]]; [left|right; left|right; right; left|right; right; right]; split; dlia|dlia]|]. cbn [String.length].
    destruct (rune_value_bytes (224 + r / 4096) (128 + r / 64 mod 64) (128 + r mod 64) 0) as (_ & -> & _); [dlia..|]. dlia.
  - assert (Hc : r < 262144 \/ 262144 <= r < 1048576 \/ 1048576 <= r < 1114112) by lia.
    apply Utf8_one; [apply multi4; [destruct Hc as [Hc|[Hc|Hc]]; [left|right; left|right; right]; split; dlia|dlia|dlia]|]. cbn [String.length].
    destruct (rune_value_bytes (240 + r / 262144) (128 + r / 4096 mod 64) (128 + r / 64 mod 64) (128 + r mod 64)) as (_ & _ & ->); [dlia..|]. dlia.
Qed.

(** Encoding a list of code points. *)
Definition encode_runes (l : list Z) : string := foldr (fun r acc => encode_rune r ++ acc) "" l.

Lemma encode_runes_utf8 l : forallb scalar l = true -> Utf8 (encode_runes l) l.
Proof.
  induction l as [|r l IH]; [constructor|]. cbn [forallb]. intros [Hr Hl]%andb_true_iff.
  apply (Utf8_app _ [r] _ l); [by apply encode_utf8|by apply IH].
Qed.

(** ** Splitting and searching *)

(** More than a byte is not for ASCII. *)
Lemma rune_value_multi s k : rune_len s = Some k -> 128 <= rune_value k s.
Proof.
  destruct s as [|a [|b r]]; try done. rewrite rune_len_head. destruct (head_of a) as [hd|] eqn:Eh; [|done].
  destruct (in_range _ _ b) eqn:Eb; [|done]. destruct (conts _ r); [|done]. intros [= <-]. apply in_range_spec in Eb.
  unfold head_of in Eh. apply find_some in Eh as [Hin Ha]. apply in_range_spec in Ha. unfold utf8_heads in Hin. cbn in Hin.
  unfold rune_value. cbn [String.get].
  repeat destruct Hin as [<-|Hin]; cbn [fst snd Nat.add] in *; try done; cbn [String.get];
  repeat match goal with |- context [Z.of_nat ?x mod 64] => lazymatch x with nat_of_ascii b => fail | _ => pose proof (Z.mod_pos_bound (Z.of_nat x) 64 ltac:(lia)); generalize dependent (Z.of_nat x mod 64); intros end end; dlia.
Qed.

Lemma runes_lack c s : lacks c s -> ascii_byte c = true -> forallb (fun r => negb (r =? Z.of_nat (nat_of_ascii c))) (runes s) = true.
Proof.
  unfold runes. generalize (String.length s). intros n Hs Hc. unfold ascii_byte in Hc. apply Nat.ltb_lt in Hc. revert s Hs.
  induction n as [|n IH]; intros [|x s] Hs; [done..|]. apply lacks_cons in Hs as Hxs. destruct Hxs as [Hx Hr]. cbn [runes_from].
  destruct (nat_of_ascii x <? 128)%nat.
  - cbn [forallb]. rewrite IH by done. rewrite andb_true_r, negb_true_iff, Z.eqb_neq. intros E. apply Hx.
    rewrite <- (ascii_nat_embedding x), <- (ascii_nat_embedding c). f_equal. lia.
  - destruct (rune_len (String x s)) as [k|] eqn:Ek; cbn [forallb].
    + pose proof (rune_value_multi _ _ Ek). apply rune_len_split in Ek as (h & t & E & <- & _). rewrite E, substring_drop.
      rewrite <- E. rewrite IH; [|rewrite E in Hs; apply lacks_app in Hs; tauto]. rewrite andb_true_r, negb_true_iff, Z.eqb_neq. lia.
    + rewrite IH by done. rewrite andb_true_r, negb_true_iff, Z.eqb_neq. lia.
Qed.

Lemma app_eq_split (h s a b : string) : h ++ s = a ++ b ->
  (exists m, a = h ++ m /\ s = m ++ b) \/ (exists m, m <> "" /\ h = a ++ m /\ b = m ++ s).
Proof.
  revert a. induction h as [|c h IH]; intros a E; [left; by exists a|]. destruct a as [|x a].
  - right. by exists (String c h).
  - rewrite !str_app_cons in E. injection E as <- E. apply IH in E as [(m & -> & ->)|(m & Hm & -> & ->)]; [left|right]; by exists m.
Qed.

(** An encoding ends before an ASCII byte. *)
Lemma Utf8_split a c b l :
  ascii_byte c = true -> Utf8 (a ++ String c b) l -> exists la lb, Utf8 a la /\ Utf8 (String c b) lb /\ l = (la ++ lb)%list.
Proof.
  intros Hc H. remember (a ++ String c b) as w eqn:E. revert a E. induction H as [|x s l Hx H IH|h s l Hm H IH]; intros a E.
  - by destruct a.
  - destruct a as [|y a]; [exists [], (Z.of_nat (nat_of_ascii x) :: l); rewrite str_app_nil_l in E; rewrite <- E; split_and!; by constructor|].
    rewrite str_app_cons in E. injection E as <- E. destruct (IH a E) as (la & lb & Ha & Hb & ->).
    eexists (_ :: la), lb. split_and!; [by apply Utf8_ascii|done|done].
  - apply app_eq_split in E as [(m & -> & E)|(m & Hm0 & Eh & E)].
    + destruct (IH m E) as (la & lb & Ha & Hb & ->). eexists (_ :: la), lb. split_and!; [by apply Utf8_multi|done|done].
    + exfalso. destruct (multi_len h "" Hm) as (_ & _ & Hb & _). rewrite Eh, all_bytes_app in Hb. apply andb_true_iff in Hb as [_ Hb].
      destruct m as [|y m]; [done|]. rewrite str_app_cons in E. injection E as <- E. rewrite all_bytes_cons, Hc in Hb. done.
Qed.
