(* ===== verification/Cron.v ===== *)
(** * Cron schedules: internal/schedule/cron.go and jitter.go

    [Parse] builds a [Schedule] from five fields; [Next] searches for the next
    firing.  The search loop is [next_step], one turn of the [for], run by
    [iter2]; [None] is a search that has not returned within 2^64 turns. *)

From S2P Require Import Prelude GoTime GoStrings.
From Stdlib Require Import String Ascii.
Local Abbreviation length := List.length.

(** ** Parsing *)

(** [set] is the Go array [[64]bool]. *)
Record fieldSpec := FieldSpec { set : list bool; wildcard : bool }.

Record Schedule := MkSchedule {
  minute_f : fieldSpec; hour_f : fieldSpec; dom : fieldSpec; month : fieldSpec;
  dow : fieldSpec; loc : Location; expr : string }.

Inductive parse_kind :=
| EmptyItem | InvalidStep | StepNotPositive | InvalidRangeStart | InvalidRangeEnd
| RangeReversed | InvalidValue | OutOfRange.

(** Which error [Parse] returns; [Panicked] is a run-time panic. *)
Inductive parse_error :=
| TimezoneRequired
| FieldCount (n : nat)
| FieldError (field : string) (k : parse_kind)
| Panicked.

(** [fs.set[v]], a read the callers keep in range. *)
Definition has (fs : fieldSpec) (v : Z) : bool :=
  default false (set fs !! Z.to_nat v).

(** [fs.set[v] = true]; an index outside the array panics. *)
Definition set_bit (l : list bool) (v : Z) : option (list bool) :=
  if (0 <=? v) && (v <? 64) then Some (<[Z.to_nat v := true]> l) else None.

(** [splitStep]: the base and the step of one item. *)
Definition splitStep (item : string) : result parse_kind (string * Z) :=
  match cut item "/" with
  | Some (base, stepStr) =>
      match Atoi stepStr with
      | None => Err InvalidStep
      | Some step => if step <=? 0 then Err StepNotPositive else Ok (base, step)
      end
  | None => Ok (item, 1)
  end.

(** The [for v := lo; v <= hi; v += step] loop, [int] addition wrapping.
    [fuel] bounds the turns; [hi - lo + 2] always suffice: a turn that does not
    wrap moves [v] up, and the turn after one that wraps panics. *)
Fixpoint fill (fuel : nat) (v hi step : Z) (l : list bool) : option (list bool) :=
  match fuel with
  | O => Some l
  | S n =>
      if v <=? hi then
        match set_bit l v with
        | Some l' => fill n (wrap64 (v + step)) hi step l'
        | None => None
        end
      else Some l
  end.

Definition item_bounds (base : string) (min max : Z) : result parse_kind (Z * Z) :=
  if decide (base = "*"%string) then Ok (min, max)
  else match cut base "-" with
       | Some (a, b) =>
           match Atoi a with
           | None => Err InvalidRangeStart
           | Some lo =>
               match Atoi b with
               | None => Err InvalidRangeEnd
               | Some hi => if hi <? lo then Err RangeReversed else Ok (lo, hi)
               end
           end
       | None =>
           match Atoi base with
           | None => Err InvalidValue
           | Some n => Ok (n, n)
           end
       end.

Definition parse_item (name : string) (min max : Z) (item : string) (l : list bool)
    : result parse_error (list bool) :=
  if decide (item = ""%string) then Err (FieldError name EmptyItem) else
  let? (base, step) := rmap_err (FieldError name) (splitStep item) in
  let? (lo, hi) := rmap_err (FieldError name) (item_bounds base min max) in
  if (lo <? min) || (max <? hi) then Err (FieldError name OutOfRange) else
  match fill (S (S (Z.to_nat (hi - lo)))) lo hi step l with
  | Some l' => Ok l'
  | None => Err Panicked
  end.

Fixpoint parse_items (name : string) (min max : Z) (items : list string) (l : list bool)
    : result parse_error (list bool) :=
  match items with
  | [] => Ok l
  | item :: rest => let? l' := parse_item name min max item l in parse_items name min max rest l'
  end.

Definition parseField (name e : string) (min max : Z) : result parse_error fieldSpec :=
  let? l := parse_items name min max (Split e ",") (replicate 64 false) in
  Ok (FieldSpec l (bool_decide (e = "*"%string))).

Definition Parse (e : string) (tz : option Location) : result parse_error Schedule :=
  match tz with
  | None => Err TimezoneRequired
  | Some l =>
      match Fields e with
      | [f0; f1; f2; f3; f4] =>
          let? mi := parseField "minute" f0 0 59 in
          let? h := parseField "hour" f1 0 23 in
          let? d := parseField "day-of-month" f2 1 31 in
          let? mo := parseField "month" f3 1 12 in
          let? w := parseField "day-of-week" f4 0 6 in
          Ok (MkSchedule mi h d mo w l e)
      | fs => Err (FieldCount (length fs))
      end
  end.

(** ** Searching *)

(** [dayMatches] reads only the day of the month and of the week. *)
Definition dayMatches (s : Schedule) (day wday : Z) : bool :=
  let domMatch := has (dom s) day in
  let dowMatch := has (dow s) wday in
  if wildcard (dom s) && wildcard (dow s) then true
  else if wildcard (dom s) then dowMatch
  else if wildcard (dow s) then domMatch
  else domMatch || dowMatch.

(** The wall clock at [t] as an instant in UTC, to the minute. *)
Definition nominal (l : Location) (t : Z) : Z :=
  Date UTC (Year l t) (Month l t) (Day l t) (Hour l t) (Minute l t) 0 0.

Definition matches_at (s : Schedule) (l : Location) (t : Z) : bool :=
  has (minute_f s) (Minute l t) && has (hour_f s) (Hour l t) &&
  has (month s) (Month l t) && dayMatches s (Day l t) (Weekday l t).

(** The [for nom := ...] loop of [gapSkippedAScheduledHour], [n] minutes long. *)
Fixpoint gap_scan (n : nat) (s : Schedule) (nom nt : Z) : bool :=
  match n with
  | O => false
  | S n' =>
      if nom <? nt then
        if matches_at s UTC nom then true else gap_scan n' s (nom + minute) nt
      else false
  end.

Definition gapSkippedAScheduledHour (s : Schedule) (from to : Z) : bool :=
  let nf := nominal (loc s) from in
  let nt := nominal (loc s) to in
  if nt - nf =? to - from then false
  else gap_scan (Z.to_nat ((nt - nf) / minute)) s (nf + minute) nt.

(** One turn of the loop of [Next]. *)
Definition next_step (s : Schedule) (deadline t : Z) : Z + Z :=
  let l := loc s in
  if deadline <? t then inl zero_time else
  if negb (has (month s) (Month l t)) then
    inr (AddDate l (Date l (Year l t) (Month l t) 1 0 0 0 0) 0 1 0)
  else if negb (dayMatches s (Day l t) (Weekday l t)) then
    inr (AddDate l (Date l (Year l t) (Month l t) (Day l t) 0 0 0 0) 0 0 1)
  else if negb (has (hour_f s) (Hour l t)) then
    let startOfHour := t - Minute l t * minute in
    let next := startOfHour + hour in
    if gapSkippedAScheduledHour s startOfHour next then inl next else inr next
  else
    let canonical := Date l (Year l t) (Month l t) (Day l t) (Hour l t) (Minute l t) 0 0 in
    if negb (t =? canonical) then inr (t + minute)
    else if negb (has (minute_f s) (Minute l t)) then inr (t + minute)
    else inl t.

Definition next_start (s : Schedule) (after : Z) : Z :=
  let l := loc s in
  Date l (Year l after) (Month l after) (Day l after) (Hour l after) (Minute l after) 0 0 + minute.

(** [after] is a time in the zone [al], which only the deadline reads. *)
Definition next_deadline (al : Location) (after : Z) : Z := AddDate al after 8 0 0.

Definition next_fuel : nat := 64.

Definition Next (s : Schedule) (al : Location) (after : Z) : option Z :=
  match iter2 next_fuel (next_step s (next_deadline al after)) (next_start s after) with
  | inl r => Some r
  | inr _ => None
  end.

(** ** Firing instants *)

(** A whole minute of the wall clock at which every field matches. *)
Definition fires (s : Schedule) (t : Z) : Prop :=
  wall (loc s) t mod 60 = 0 /\ nsec t = 0 /\ matches_at s (loc s) t = true.

(** *** One offset: minutes numbered by the wall clock *)
Section fixed.
Context (s : Schedule) (off : Z) (Hloc : loc s = fixed_zone off).

Definition at_min (k : Z) : Z := (60 * k - off) * second.

Lemma wall_at_min k : wall (loc s) (at_min k) = 60 * k.
Proof.
  rewrite Hloc, wall_fixed. unfold at_min.
  replace ((60 * k - off) * second) with ((60 * k - off) * second + 0) by lia.
  rewrite unix_mul by (unfold second; lia). lia.
Qed.

Lemma local_day_at_min k : local_day (loc s) (at_min k) = k / 1440.
Proof. unfold local_day. rewrite wall_at_min. dlia. Qed.

Lemma Hour_at_min k : Hour (loc s) (at_min k) = k mod 1440 / 60.
Proof.
  unfold Hour. rewrite wall_at_min.
  change 86400 with (60 * 1440). rewrite Z.mul_mod_distr_l by lia.
  change 3600 with (60 * 60). by rewrite Z.div_mul_cancel_l by lia.
Qed.

Lemma Minute_at_min k : Minute (loc s) (at_min k) = k mod 60.
Proof.
  unfold Minute. rewrite wall_at_min.
  change 3600 with (60 * 60). rewrite Z.mul_mod_distr_l by lia.
  rewrite Z.mul_comm. by rewrite Z.div_mul by lia.
Qed.

Lemma Second_at_min k : Second (loc s) (at_min k) = 0.
Proof. unfold Second. rewrite wall_at_min. dlia. Qed.

Lemma nsec_at_min k : nsec (at_min k) = 0.
Proof. unfold nsec, at_min. by rewrite Z_mod_mult. Qed.

Lemma at_min_lt j k : at_min j < at_min k <-> j < k.
Proof. unfold at_min, second. lia. Qed.

Lemma Date_at_min y m d h mi :
  Date (loc s) y m d h mi 0 0 = at_min (1440 * days_of_civil y m d + 60 * h + mi).
Proof. rewrite Hloc, Date_fixed. unfold at_min. lia. Qed.

Definition mcivil (k : Z) : civil := civil_of_day (k / 1440).

(** The four tests of the loop body at minute [k]. *)
Definition month_ok k : bool := has (month s) (c_month (mcivil k)).
Definition day_ok k : bool := dayMatches s (c_day (mcivil k)) (weekday_of_day (k / 1440)).
Definition hour_ok k : bool := has (hour_f s) (k mod 1440 / 60).
Definition minute_ok k : bool := has (minute_f s) (k mod 60).

Lemma matches_at_min k :
  matches_at s (loc s) (at_min k) = minute_ok k && hour_ok k && month_ok k && day_ok k.
Proof.
  unfold matches_at, minute_ok, hour_ok, month_ok, day_ok, mcivil, Month, Day, Weekday.
  by rewrite Hour_at_min, Minute_at_min, local_day_at_min.
Qed.

(** Every firing instant is a minute, and conversely. *)
Lemma fires_at_min t :
  fires s t <-> exists k, t = at_min k /\ minute_ok k && hour_ok k && month_ok k && day_ok k = true.
Proof.
  split.
  - intros (Hw & Hn & Hm). rewrite Hloc, wall_fixed in Hw.
    assert (Ht : t = at_min ((unix t + off) / 60)).
    { unfold at_min, unix, nsec, second in *. dlia. }
    eexists. split; [exact Ht|]. by rewrite <- matches_at_min, <- Ht.
  - intros (k & -> & Hm). unfold fires.
    rewrite wall_at_min, nsec_at_min, matches_at_min. repeat split; [dlia|done].
Qed.

(** The first minute of the month after, the day after, the hour after. *)
Definition skip_month k : Z := 1440 * days_of_civil (c_year (mcivil k)) (c_month (mcivil k) + 1) 1.
Definition skip_day k : Z := 1440 * (k / 1440 + 1).
Definition skip_hour k : Z := 60 * (k / 60 + 1).

Lemma civil_first n :
  civil_of_day (days_of_civil (c_year (civil_of_day n)) (c_month (civil_of_day n)) 1) =
  Civil (c_year (civil_of_day n)) (c_month (civil_of_day n)) 1.
Proof.
  pose proof (civil_of_day_valid n) as [Hm Hd].
  apply (civil_of_days_of_civil (Civil (c_year (civil_of_day n)) (c_month (civil_of_day n)) 1)).
  split; cbn [c_year c_month c_day]; lia.
Qed.

Lemma month_jump k :
  AddDate (loc s) (Date (loc s) (Year (loc s) (at_min k)) (Month (loc s) (at_min k)) 1 0 0 0 0) 0 1 0
  = at_min (skip_month k).
Proof.
  rewrite Date_at_min. unfold AddDate, Year, Month, Day.
  rewrite Hour_at_min, Minute_at_min, Second_at_min, nsec_at_min, !local_day_at_min.
  replace ((1440 * _ + 60 * 0 + 0) / 1440) with
    (days_of_civil (c_year (civil_of_day (k / 1440))) (c_month (civil_of_day (k / 1440))) 1) by dlia.
  rewrite civil_first. cbn [c_year c_month c_day].
  replace ((1440 * _ + 60 * 0 + 0) mod 1440 / 60) with 0 by dlia.
  replace ((1440 * _ + 60 * 0 + 0) mod 60) with 0 by dlia.
  rewrite Date_at_min. f_equal. unfold skip_month, mcivil.
  rewrite !Z.add_0_r. lia.
Qed.

Lemma day_jump k :
  AddDate (loc s) (Date (loc s) (Year (loc s) (at_min k)) (Month (loc s) (at_min k))
                        (Day (loc s) (at_min k)) 0 0 0 0) 0 0 1
  = at_min (skip_day k).
Proof.
  rewrite Date_at_min. unfold AddDate, Year, Month, Day.
  rewrite Hour_at_min, Minute_at_min, Second_at_min, nsec_at_min, !local_day_at_min.
  rewrite days_of_civil_of_day.
  replace ((1440 * (k / 1440) + 60 * 0 + 0) / 1440) with (k / 1440) by dlia.
  replace ((1440 * (k / 1440) + 60 * 0 + 0) mod 1440 / 60) with 0 by dlia.
  replace ((1440 * (k / 1440) + 60 * 0 + 0) mod 60) with 0 by dlia.
  rewrite Date_at_min, days_of_civil_add, !Z.add_0_r, days_of_civil_of_day.
  unfold skip_day. f_equal; lia.
Qed.

Lemma nominal_at_min k : nominal (loc s) (at_min k) = 60 * k * second.
Proof.
  unfold nominal, Year, Month, Day. rewrite Hour_at_min, Minute_at_min, local_day_at_min.
  unfold UTC. change (Loc 0 []) with (fixed_zone 0).
  rewrite Date_fixed, days_of_civil_of_day. f_equal. dlia.
Qed.

(** No transition, so no hour is ever skipped. *)
Lemma no_gap k j : gapSkippedAScheduledHour s (at_min k) (at_min j) = false.
Proof.
  unfold gapSkippedAScheduledHour. rewrite !nominal_at_min. split_if; [done|].
  exfalso. unfold at_min in *. lia.
Qed.

Lemma hour_start k : at_min k - k mod 60 * minute = at_min (60 * (k / 60)).
Proof. unfold at_min, minute, second. dlia. Qed.

Lemma at_min_add k n : at_min k + n * minute = at_min (k + n).
Proof. unfold at_min, minute, second. lia. Qed.

(** One turn of the loop, in minutes. *)
Lemma next_step_at_min dl k :
  next_step s dl (at_min k) =
  if dl <? at_min k then inl zero_time
  else if negb (month_ok k) then inr (at_min (skip_month k))
  else if negb (day_ok k) then inr (at_min (skip_day k))
  else if negb (hour_ok k) then inr (at_min (skip_hour k))
  else if negb (minute_ok k) then inr (at_min (k + 1))
  else inl (at_min k).
Proof.
  unfold next_step. rewrite month_jump, day_jump.
  rewrite Minute_at_min, hour_start, Hour_at_min.
  unfold month_ok, day_ok, hour_ok, minute_ok, mcivil, Month, Weekday.
  rewrite !local_day_at_min.
  replace (at_min (60 * (k / 60)) + hour) with (at_min (skip_hour k)) by
    (unfold skip_hour, at_min, hour, minute, second; lia).
  rewrite no_gap. unfold Day. rewrite !local_day_at_min.
  unfold Year. rewrite Date_at_min, local_day_at_min, days_of_civil_of_day.
  replace (1440 * (k / 1440) + 60 * (k mod 1440 / 60) + k mod 60) with k by dlia.
  rewrite Z.eqb_refl. cbn [negb].
  replace (at_min k + minute) with (at_min (k + 1)) by (rewrite <- at_min_add; lia).
  done.
Qed.

(** Nothing fires on the minutes a turn jumps over, and a turn moves forward. *)
Lemma skip_month_quiet k x :
  month_ok k = false -> k <= x < skip_month k -> month_ok x = false.
Proof.
  intros H Hx. unfold month_ok, mcivil, skip_month in *.
  destruct (civil_same_month (k / 1440) (x / 1440)) as [_ ->]; [|done].
  unfold mcivil in Hx. dlia.
Qed.

Lemma skip_month_later k : k < skip_month k.
Proof.
  unfold skip_month, mcivil. pose proof (next_month_later (k / 1440)) as H.
  cbv zeta in H. generalize dependent
    (days_of_civil (c_year (civil_of_day (k / 1440))) (c_month (civil_of_day (k / 1440)) + 1) 1).
  intros. dlia.
Qed.

Lemma skip_day_quiet k x :
  day_ok k = false -> k <= x < skip_day k -> day_ok x = false.
Proof.
  intros H Hx. unfold day_ok, mcivil, skip_day in *.
  replace (x / 1440) with (k / 1440) by dlia. done.
Qed.

Lemma skip_hour_quiet k x :
  hour_ok k = false -> k <= x < skip_hour k -> hour_ok x = false.
Proof.
  intros H Hx. unfold hour_ok, skip_hour in *.
  replace (x mod 1440 / 60) with (k mod 1440 / 60) by dlia. done.
Qed.

Definition min_fires k : bool := minute_ok k && hour_ok k && month_ok k && day_ok k.

Definition start_min (after : Z) : Z := (unix after + off) / 60.

Lemma next_start_at_min after : next_start s after = at_min (start_min after + 1).
Proof.
  unfold next_start, Year, Month, Day. rewrite Date_at_min, days_of_civil_of_day.
  replace minute with (1 * minute) by lia. rewrite at_min_add. f_equal. f_equal.
  unfold local_day, Hour, Minute. rewrite Hloc, wall_fixed. unfold start_min. dlia.
Qed.

Lemma start_min_bound after : at_min (start_min after) <= after < at_min (start_min after + 1).
Proof. unfold start_min, at_min, unix, second. dlia. Qed.

(** What the loop keeps: it stands on a minute after the start and nothing
    fired in between. *)
Definition searched (after t : Z) : Prop :=
  exists k, t = at_min k /\ start_min after < k /\
            forall x, start_min after < x < k -> min_fires x = false.

Lemma searched_start after : searched after (next_start s after).
Proof. exists (start_min after + 1). rewrite next_start_at_min. repeat split; [lia|]. lia. Qed.

Lemma searched_jump after k j :
  start_min after < k -> (forall x, start_min after < x < k -> min_fires x = false) ->
  k < j -> (forall x, k <= x < j -> min_fires x = false) -> searched after (at_min j).
Proof.
  intros H1 H2 H3 H4. exists j. repeat split; [lia|].
  intros x Hx. destruct (decide (x < k)); [apply H2; lia | apply H4; lia].
Qed.

(** The minute a turn moves to: later, with nothing firing in between. *)
Lemma next_step_moves dl k y :
  next_step s dl (at_min k) = inr y ->
  exists j, y = at_min j /\ k < j /\ (forall x, k <= x < j -> min_fires x = false) /\ at_min k <= dl.
Proof.
  rewrite next_step_at_min. unfold min_fires.
  destruct (dl <? at_min k) eqn:Ed; [done|]. bools.
  destruct (month_ok k) eqn:Em; simpl.
  2:{ intros [= <-]. exists (skip_month k).
      repeat split; [apply skip_month_later| |done].
      intros x Hx. rewrite (skip_month_quiet k x Em Hx). by rewrite !andb_false_r. }
  destruct (day_ok k) eqn:Eday; simpl.
  2:{ intros [= <-]. exists (skip_day k).
      repeat split; [unfold skip_day; dlia| |done].
      intros x Hx. rewrite (skip_day_quiet k x Eday Hx). by rewrite andb_false_r. }
  destruct (hour_ok k) eqn:Eh; simpl.
  2:{ intros [= <-]. exists (skip_hour k).
      repeat split; [unfold skip_hour; dlia| |done].
      intros x Hx. rewrite (skip_hour_quiet k x Eh Hx). by rewrite andb_false_r. }
  destruct (minute_ok k) eqn:Emi; simpl; [done|].
  intros [= <-]. exists (k + 1). repeat split; [lia| |done].
  intros x Hx. replace x with k by lia. by rewrite Emi.
Qed.

Lemma next_step_returns dl k r :
  next_step s dl (at_min k) = inl r ->
  (r = zero_time /\ dl < at_min k) \/ (r = at_min k /\ min_fires k = true /\ at_min k <= dl).
Proof.
  rewrite next_step_at_min. unfold min_fires.
  destruct (dl <? at_min k) eqn:Ed; bools; [intros [= <-]; by left|].
  destruct (month_ok k), (day_ok k), (hour_ok k), (minute_ok k); simpl; try done.
  intros [= <-]. by right.
Qed.

Lemma quiet_until after k x :
  (forall j, start_min after < j < k -> min_fires j = false) ->
  after < x < at_min k -> ~ fires s x.
Proof.
  intros Hj Hx Hf. pose proof (start_min_bound after).
  apply fires_at_min in Hf as (j & -> & Hf).
  fold (min_fires j) in Hf. rewrite (Hj j) in Hf; [done|].
  split; apply at_min_lt; lia.
Qed.

(** The search ends within the budget. *)
Lemma next_loop_ends dl after :
  dl - after < 2 ^ 62 * minute ->
  exists r, iter2 next_fuel (next_step s dl) (next_start s after) = inl r.
Proof.
  intros Hdl. pose proof (start_min_bound after) as Hb.
  apply (iter2_terminates (next_step s dl) (searched after)
           (fun t => if dl <? t then 0 else (dl - t) / minute + 1)).
  - intros x y (k & -> & Hk & Hq) Hxy. apply next_step_moves in Hxy as (j & -> & Hlt & Hq' & Hle).
    split; [by eapply searched_jump|].
    replace j with (k + (j - k)) by lia. rewrite <- at_min_add.
    repeat split_if; unfold minute, second in *; dlia.
  - apply searched_start.
  - rewrite next_start_at_min. change (2 ^ Z.of_nat next_fuel) with (2 ^ 64).
    split_if; unfold minute, second in *; dlia.
Qed.

(** It ends on a minute nothing fires before, which fires or lies past the deadline. *)
Lemma next_loop_result dl after r :
  iter2 next_fuel (next_step s dl) (next_start s after) = inl r ->
  exists k, start_min after < k /\
    (forall j, start_min after < j < k -> min_fires j = false) /\
    ((r = zero_time /\ dl < at_min k) \/
     (r = at_min k /\ min_fires k = true /\ at_min k <= dl)).
Proof.
  intros Hr.
  pose proof (iter2_invariant (next_step s dl) (searched after)
    (fun r => exists k, start_min after < k /\
               (forall j, start_min after < j < k -> min_fires j = false) /\
               ((r = zero_time /\ dl < at_min k) \/
                (r = at_min k /\ min_fires k = true /\ at_min k <= dl)))
    next_fuel (next_start s after)) as Hinv.
  rewrite Hr in Hinv. apply Hinv.
  - intros x y (k & -> & Hk & Hq) Hxy. apply next_step_moves in Hxy as (j & -> & Hlt & Hq' & _).
    by eapply searched_jump.
  - intros x r' (k & -> & Hk & Hq) Hxr. exists k. repeat split; [done|done|].
    by apply next_step_returns.
  - apply searched_start.
Qed.

Lemma next_fixed al after :
  next_deadline al after - after < 2 ^ 62 * minute ->
  exists r, Next s al after = Some r /\
    ((after < r /\ r <= next_deadline al after /\ fires s r /\
      forall x, after < x < r -> ~ fires s x) \/
     (r = zero_time /\ forall x, after < x <= next_deadline al after -> ~ fires s x)).
Proof.
  intros Hdl. destruct (next_loop_ends _ _ Hdl) as [r Hr].
  exists r. split; [unfold Next; by rewrite Hr|].
  destruct (next_loop_result _ _ _ Hr) as (k & Hk & Hq & [[-> Hd]|(-> & Hf & Hd)]).
  - right. split; [done|]. intros x Hx. eapply quiet_until; [done|lia].
  - left. pose proof (start_min_bound after).
    assert (at_min (start_min after + 1) <= at_min k) by
      (destruct (decide (start_min after + 1 = k)) as [->|]; [done|];
       apply Z.lt_le_incl, at_min_lt; lia).
    split; [lia|]. split; [done|]. split.
    + apply fires_at_min. by exists k.
    + intros x Hx. eapply quiet_until; [done|lia].
Qed.
End fixed.

(** Eight calendar years are well within the budget, in a zone with one offset. *)
Lemma next_deadline_fixed o after :
  next_deadline (fixed_zone o) after - after < 2 ^ 62 * minute.
Proof.
  unfold next_deadline, AddDate, Date. rewrite resolve_fixed.
  unfold Year, Month, Day. set (n := local_day (fixed_zone o) after).
  pose proof (civil_of_day_valid n) as [Hm _].
  pose proof (days_of_civil_of_day n) as Hn.
  rewrite !Z.add_0_r, days_of_civil_in_year in * by lia.
  assert (Hdm : days_before_month (c_year (civil_of_day n) + 8) (c_month (civil_of_day n)) <=
                days_before_month (c_year (civil_of_day n)) (c_month (civil_of_day n)) + 1).
  { unfold days_before_month. destruct (leap _), (leap _); repeat (split_if; try lia). }
  unfold Hour, Minute, Second, nsec. unfold n, local_day in *. rewrite wall_fixed in *.
  unfold days_before_year, minute, unix, second in *.
  generalize dependent (civil_of_day ((after / 1000000000 + o) / 86400)). intros c Hm Hn Hdm.
  dlia.
Qed.

(** ** What a field accepts *)

Definition bit (l : list bool) (x : Z) : bool := default false (l !! Z.to_nat x).

(** The values an item of a field denotes. *)
Definition item_denotes (min max : Z) (item : string) (x : Z) : Prop :=
  exists base step lo hi,
    splitStep item = Ok (base, step) /\ item_bounds base min max = Ok (lo, hi) /\
    lo <= x <= hi /\ (x - lo) mod step = 0.

Lemma splitStep_step item base step :
  splitStep item = Ok (base, step) -> 1 <= step < 2 ^ 63.
Proof.
  unfold splitStep. destruct (cut item "/") as [[b st]|].
  - destruct (Atoi st) as [n|] eqn:E; [|done]. apply Atoi_range in E.
    destruct (n <=? 0) eqn:En; [done|]. bools. intros [= <- <-]. lia.
  - intros [= <- <-]. lia.
Qed.

Lemma bit_insert l v x :
  0 <= v < 64 -> 0 <= x -> length l = 64%nat ->
  bit (<[Z.to_nat v := true]> l) x = true <-> bit l x = true \/ x = v.
Proof.
  intros Hv Hx Hl. unfold bit. destruct (decide (x = v)) as [->|Hne].
  - rewrite list_lookup_insert_eq by lia. simpl. tauto.
  - rewrite list_lookup_insert_ne by lia. tauto.
Qed.

Lemma fill_spec fuel v hi step l l' :
  1 <= step < 2 ^ 63 -> 0 <= v -> hi < 64 -> length l = 64%nat -> hi - v + 1 < Z.of_nat fuel ->
  fill fuel v hi step l = Some l' ->
  length l' = 64%nat /\
  forall x, 0 <= x -> bit l' x = true <-> bit l x = true \/ (v <= x <= hi /\ (x - v) mod step = 0).
Proof.
  revert v l. induction fuel as [|n IH]; intros v l Hs Hv Hhi Hl Hf.
  { intros [= <-]. split; [done|]. intros x _. split; [by left|].
    intros [?|[? _]]; [done|]. exfalso. lia. }
  cbn [fill]. destruct (v <=? hi) eqn:E; bools.
  2:{ intros [= <-]. split; [done|]. intros x _. split; [by left|].
      intros [?|[? _]]; [done|]. exfalso. lia. }
  unfold set_bit. destruct ((0 <=? v) && (v <? 64)) eqn:Ev; [|done]. bools.
  destruct (decide (v + step < 2 ^ 63)) as [Hw|Hw].
  - rewrite wrap64_small by lia. intros Hrec.
    apply IH in Hrec as [Hl' Hb]; [|lia|lia|lia|by rewrite length_insert|lia].
    split; [done|]. intros x Hx. rewrite Hb, bit_insert by lia.
    split.
    + intros [[?| ->]|[? Hm]]; [by left| |].
      * right. split; [lia|]. by rewrite Z.sub_diag, Z.mod_0_l by lia.
      * right. split; [lia|].
        replace (x - v) with (x - (v + step) + 1 * step) by lia. by rewrite Z.mod_add by lia.
    + intros [?|[? Hm]]; [by left; left|].
      destruct (decide (x = v)) as [->|]; [by left; right|]. right.
      assert (v + step <= x).
      { apply Z.mod_divide in Hm as [q Hq]; [|lia].
        assert (0 < q * step) by lia. assert (0 < q) by nia. nia. }
      split; [lia|]. replace (x - (v + step)) with (x - v + (-1) * step) by lia.
      by rewrite Z.mod_add by lia.
  - rewrite wrap64_over by lia. destruct n as [|n]; [lia|]. cbn [fill].
    replace (v + step - 2 ^ 64 <=? hi) with true by (symmetry; apply Z.leb_le; lia).
    unfold set_bit. replace (0 <=? v + step - 2 ^ 64) with false; [done|].
    symmetry. apply Z.leb_gt. lia.
Qed.

Lemma parse_item_spec name min max item l l' :
  0 <= min -> max < 64 -> length l = 64%nat -> parse_item name min max item l = Ok l' ->
  length l' = 64%nat /\
  (forall x, 0 <= x -> bit l' x = true <-> bit l x = true \/ item_denotes min max item x) /\
  (forall x, item_denotes min max item x -> min <= x <= max).
Proof.
  intros Hmin Hmax Hl. unfold parse_item.
  destruct (decide (item = "")) as [|_]; [done|]. intros H.
  apply rbind_Ok in H as ([base step] & Hsp & H).
  apply rbind_Ok in H as ([lo hi] & Hib & H).
  destruct (splitStep item) as [bs|] eqn:Es; [|done]. simpl in Hsp.
  destruct (item_bounds base min max) as [lh|] eqn:Eb; [|done]. simpl in Hib. simplify_eq.
  destruct ((lo <? min) || (max <? hi)) eqn:Er; [done|]. bools.
  destruct (fill _ lo hi step l) as [l1|] eqn:Ef; [|done]. injection H as ->.
  pose proof (splitStep_step _ _ _ Es) as Hst.
  assert (Hden : forall x, item_denotes min max item x <->
                           lo <= x <= hi /\ (x - lo) mod step = 0).
  { intros x. unfold item_denotes. rewrite Es. split.
    - intros (b & st & lo' & hi' & [= <- <-] & Hb & ?). by rewrite Eb in Hb; simplify_eq.
    - intros ?. by exists base, step, lo, hi. }
  apply fill_spec in Ef as [Hl' Hb]; [|lia|lia|lia|done|lia].
  split; [done|]. split.
  - intros x Hx. by rewrite Hb, Hden.
  - intros x. rewrite Hden. lia.
Qed.

Lemma parse_items_spec name min max items l l' :
  0 <= min -> max < 64 -> length l = 64%nat -> parse_items name min max items l = Ok l' ->
  length l' = 64%nat /\
  (forall x, 0 <= x -> bit l' x = true <->
     bit l x = true \/ exists item, item ∈ items /\ item_denotes min max item x) /\
  (forall item x, item ∈ items -> item_denotes min max item x -> min <= x <= max).
Proof.
  intros Hmin Hmax. revert l. induction items as [|it items IH]; intros l Hl; cbn [parse_items].
  - intros [= <-]. split; [done|]. split; [|intros ?? Hin; by apply elem_of_nil in Hin].
    intros x _. split; [by left|]. intros [?|(? & Hin & _)]; [done|]. by apply elem_of_nil in Hin.
  - intros H. apply rbind_Ok in H as (l1 & H1 & H2).
    apply parse_item_spec in H1 as (Hl1 & Hb1 & Hr1); [|done..].
    apply IH in H2 as (Hl2 & Hb2 & Hr2); [|done].
    split; [done|]. split.
    + intros x Hx. rewrite Hb2, Hb1 by done. setoid_rewrite elem_of_cons. naive_solver.
    + intros item x. rewrite elem_of_cons. naive_solver.
Qed.

Lemma parseField_denotes name e min max fs :
  0 <= min -> max < 64 -> parseField name e min max = Ok fs ->
  (wildcard fs = true <-> e = "*"%string) /\
  (forall x, 0 <= x -> has fs x = true <-> exists item, item ∈ Split e "," /\ item_denotes min max item x) /\
  (forall x, 0 <= x -> has fs x = true -> min <= x <= max).
Proof.
  intros Hmin Hmax H. unfold parseField in H. apply rbind_Ok in H as (l & H & [= <-]). simpl.
  apply parse_items_spec in H as (Hl & Hb & Hr); [|done..|by rewrite length_replicate].
  assert (Hspec : forall x, 0 <= x -> has (FieldSpec l (bool_decide (e = "*"%string))) x = true <->
            exists item, item ∈ Split e "," /\ item_denotes min max item x).
  { intros x Hx. unfold has. simpl. fold (bit l x). rewrite Hb by done. split; [|by right].
    intros [Hrep|?]; [|done]. exfalso. unfold bit in Hrep.
    destruct (replicate 64 false !! Z.to_nat x) eqn:E; [|done].
    apply lookup_replicate in E as [-> _]. done. }
  split; [apply bool_decide_eq_true|]. split; [done|].
  intros x Hx Hh. apply Hspec in Hh as (item & Hin & Hd); [|done]. by eapply Hr.
Qed.

(** ** Any zone *)

Lemma gap_scan_spec n s nom nt :
  gap_scan n s nom nt = true -> exists m, nom <= m < nt /\ matches_at s UTC m = true.
Proof.
  revert nom. induction n as [|n IH]; intros nom; simpl; [done|].
  destruct (nom <? nt) eqn:E; [|done]. bools.
  destruct (matches_at s UTC nom) eqn:Em; [intros _; by exists nom|].
  intros (m & Hm & ?)%IH. exists m. split; [|done]. unfold minute, second in Hm. lia.
Qed.

(** The wall clock minutes a turn of the loop jumps over at a transition. *)
Lemma gapSkipped_spec s from to :
  gapSkippedAScheduledHour s from to = true ->
  nominal (loc s) to - nominal (loc s) from <> to - from /\
  exists m, nominal (loc s) from < m < nominal (loc s) to /\ matches_at s UTC m = true.
Proof.
  unfold gapSkippedAScheduledHour. split_if; [done|]. intros (m & Hm & ?)%gap_scan_spec.
  split; [done|]. exists m. split; [|done]. unfold minute, second in Hm. lia.
Qed.

(** What a returned instant is. *)
Definition next_result (s : Schedule) (deadline r : Z) : Prop :=
  r = zero_time \/
  (r <= deadline /\ matches_at s (loc s) r = true /\
   r = Date (loc s) (Year (loc s) r) (Month (loc s) r) (Day (loc s) r)
            (Hour (loc s) r) (Minute (loc s) r) 0 0) \/
  (exists t, t <= deadline /\ r = t - Minute (loc s) t * minute + hour /\
     has (hour_f s) (Hour (loc s) t) = false /\
     exists m, nominal (loc s) (r - hour) < m < nominal (loc s) r /\ matches_at s UTC m = true).

Lemma next_step_result s dl t r : next_step s dl t = inl r -> next_result s dl r.
Proof.
  unfold next_step, next_result. destruct (dl <? t) eqn:Ed; bools; [intros [= <-]; by left|].
  destruct (has (month s) _) eqn:Em; cbn [negb]; [|done].
  destruct (dayMatches s _ _) eqn:Eday; cbn [negb]; [|done].
  destruct (has (hour_f s) _) eqn:Eh; cbn [negb].
  - destruct (t =? Date _ _ _ _ _ _ _ _) eqn:Ec; cbn [negb]; [|done]. bools.
    destruct (has (minute_f s) _) eqn:Emi; cbn [negb]; [|done]. intros [= <-].
    right. left. split; [done|]. split; [|done]. unfold matches_at. by rewrite Emi, Eh, Em, Eday.
  - destruct (gapSkippedAScheduledHour s _ _) eqn:Eg; [|done]. intros [= <-].
    apply gapSkipped_spec in Eg as (_ & m & Hm & Hmm).
    right. right. exists t. repeat split; [done|done|]. exists m.
    rewrite Z.add_simpl_r. done.
Qed.

(** A turn of a schedule that restricts neither month nor day moves at least a minute. *)
Definition every_day (s : Schedule) : Prop :=
  (forall m, 1 <= m <= 12 -> has (month s) m = true) /\
  wildcard (dom s) = true /\ wildcard (dow s) = true.

Lemma Minute_range l t : 0 <= Minute l t <= 59.
Proof. unfold Minute. dlia. Qed.

Lemma Hour_range l t : 0 <= Hour l t <= 23.
Proof. unfold Hour. dlia. Qed.

Lemma every_day_step s dl t y :
  every_day s -> next_step s dl t = inr y -> t <= dl /\ t + minute <= y <= t + hour.
Proof.
  intros (Hm & Hd & Hw). unfold next_step. destruct (dl <? t) eqn:Ed; [done|]. bools.
  rewrite Hm by (unfold Month; pose proof (civil_of_day_valid (local_day (loc s) t)) as [? _]; lia).
  unfold dayMatches. rewrite Hd, Hw. cbn [negb andb]. pose proof (Minute_range (loc s) t).
  destruct (has (hour_f s) _); cbn [negb].
  - destruct (t =? _); cbn [negb]; [|intros [= <-]; unfold hour, minute, second; lia].
    destruct (has (minute_f s) _); cbn [negb]; [done|]. intros [= <-]. unfold hour, minute, second. lia.
  - destruct (gapSkippedAScheduledHour s _ _); [done|]. intros [= <-].
    unfold hour, minute, second. lia.
Qed.

Lemma every_day_ends s al after :
  every_day s -> next_deadline al after - next_start s after < 2 ^ 62 * minute ->
  exists r, Next s al after = Some r.
Proof.
  intros Hed Hdl. unfold Next. set (dl := next_deadline al after) in *.
  destruct (iter2_terminates (next_step s dl) (fun _ => True)
              (fun t => if dl <? t then 0 else (dl - t) / minute + 1)
              next_fuel (next_start s after)) as [r ->]; [|done| |by exists r].
  - intros x y _ Hxy. apply every_day_step in Hxy; [|done].
    split; [done|]. repeat split_if; unfold minute, second in *; dlia.
  - change (2 ^ Z.of_nat next_fuel) with (2 ^ 64). split_if; unfold minute, second in *; dlia.
Qed.

(** Until the loop returns it has only gone forward. *)
Lemma every_day_forward s al after r :
  every_day s -> Next s al after = Some r -> r <> zero_time -> next_start s after <= r.
Proof.
  intros Hed. unfold Next. set (dl := next_deadline al after).
  pose proof (iter2_invariant (next_step s dl) (fun t => next_start s after <= t)
    (fun r => r <> zero_time -> next_start s after <= r) next_fuel (next_start s after)) as Hinv.
  destruct (iter2 _ _ _) as [r'|]; [|done]. intros [= ->]. apply Hinv.
  - intros x y Hx Hxy. apply every_day_step in Hxy; [|done]. unfold minute, second in *. lia.
  - intros x r' Hx Hxr Hz. unfold next_step in Hxr. cbv zeta in Hxr.
    repeat match type of Hxr with context [if ?b then _ else _] => destruct b end; simplify_eq; try done.
    pose proof (Minute_range (loc s) x). unfold hour, minute, second. lia.
  - done.
Qed.

(** ** Jitter *)

Definition fnv_step (h : Z) (a : ascii) : Z :=
  (Z.lxor h (Z.of_nat (nat_of_ascii a)) * 1099511628211) mod 2 ^ 64.

(** [fnv.New64a] over the bytes of the slug. *)
Definition fnv64a (s : string) : Z :=
  foldl fnv_step 14695981039346656037 (list_ascii_of_string s).

Definition Offset (slug : string) (window : Z) : Z :=
  if window <=? 0 then 0 else fnv64a slug mod window.

Lemma Offset_range slug window : 0 <= Offset slug window /\ (0 < window -> Offset slug window < window).
Proof. unfold Offset. split_if; [lia|]. pose proof (Z.mod_pos_bound (fnv64a slug) window). lia. Qed.

(** ** Concrete schedules, for witnesses *)

Definition empty_field : fieldSpec := FieldSpec [] false.
Definition parsed (e : string) (l : Location) : Schedule :=
  match Parse e (Some l) with
  | Ok s => s
  | Err _ => MkSchedule empty_field empty_field empty_field empty_field empty_field l e
  end.

(** America/New_York through 2026: EST until March 8, EDT until November 1. *)
Definition new_york : Location :=
  Loc (-18000) [(1772953200, -14400); (1793512800, -18000)].
(** America/Santiago around 2026-09-06 04:00 UTC, when the clock goes from 00:00 to 01:00. *)
Definition santiago : Location := Loc (-14400) [(1788667200, -10800)].

Definition noon_weekdays : Schedule := parsed "0 12 * * 1-5" UTC.
Definition nine_weekdays_santiago : Schedule := parsed "0 9 * * 1-5" santiago.
Definition half_past_one_ny : Schedule := parsed "30 1 * * *" new_york.

(** ** Theorems *)

(** C28: in a zone with a single offset (UTC and the like), [Next] always
    returns, and what it returns is exactly the next firing: an instant strictly
    after [after], within eight years, at a whole minute whose month, day, hour
    and minute all match, with no other matching minute in between; or the zero
    time, and then nothing fires within the eight-year horizon. *)
Theorem next_fixed_zone_correct s off o after :
  loc s = fixed_zone off ->
  exists r, Next s (fixed_zone o) after = Some r /\
    ((after < r /\ r <= next_deadline (fixed_zone o) after /\ fires s r /\
      forall x, after < x < r -> ~ fires s x) \/
     (r = zero_time /\
      forall x, after < x <= next_deadline (fixed_zone o) after -> ~ fires s x)).
Proof. intros Hl. eapply next_fixed; [exact Hl|]. apply next_deadline_fixed. Qed.

(** On Friday 2026-08-14 at 12:00 the next noon on a weekday is Monday's. *)
Lemma next_fixed_zone_correct_witness :
  Next noon_weekdays UTC (1786708800 * second) = Some (1786968000 * second) /\
  exists r, Next noon_weekdays (fixed_zone 0) (1786708800 * second) = Some r /\
    ((1786708800 * second < r /\ r <= next_deadline (fixed_zone 0) (1786708800 * second) /\
      fires noon_weekdays r /\
      forall x, 1786708800 * second < x < r -> ~ fires noon_weekdays x) \/
     (r = zero_time /\
      forall x, 1786708800 * second < x <= next_deadline (fixed_zone 0) (1786708800 * second) ->
                ~ fires noon_weekdays x)).
Proof.
  split; [vm_compute; reflexivity|].
  apply (next_fixed_zone_correct noon_weekdays 0 0 (1786708800 * second)). reflexivity.
Defined.

(** a field that parses accepts exactly the values its comma-separated
    items denote (a value, a range or [*], thinned by the step), all of them
    within the field's bounds, and is a wildcard exactly when its text is [*]. *)
Theorem parseField_correct name e min max fs :
  0 <= min -> max < 64 -> parseField name e min max = Ok fs ->
  (wildcard fs = true <-> e = "*"%string) /\
  (forall x, 0 <= x ->
     has fs x = true <-> exists item, item ∈ Split e "," /\ item_denotes min max item x) /\
  (forall x, 0 <= x -> has fs x = true -> min <= x <= max).
Proof. apply parseField_denotes. Qed.

Lemma parseField_correct_witness :
  exists fs, parseField "minute" "*/15,7" 0 59 = Ok fs /\
    filter (fun x => has fs x = true) (seqZ 0 60) = [0; 7; 15; 30; 45] /\
    (forall x, 0 <= x -> has fs x = true -> 0 <= x <= 59).
Proof.
  destruct (parseField "minute" "*/15,7" 0 59) as [fs|] eqn:E; [|vm_compute in E; discriminate E].
  exists fs. split; [reflexivity|]. split.
  - vm_compute in E. injection E as <-. vm_compute. reflexivity.
  - apply (parseField_correct "minute" "*/15,7" 0 59 fs); [lia|lia|exact E].
Defined.

(** in any zone, an instant [Next] returns is the zero time; or an instant
    before the deadline whose wall clock matches every field and is the one
    [time.Date] maps that wall clock to; or the first instant after an hour the
    schedule does not list, when the clock jumped over a minute it does list. *)
Theorem next_sound s al after r :
  Next s al after = Some r -> next_result s (next_deadline al after) r.
Proof.
  unfold Next. set (dl := next_deadline al after).
  pose proof (iter2_invariant (next_step s dl) (fun _ => True) (next_result s dl)
                next_fuel (next_start s after)) as Hinv.
  destruct (iter2 _ _ _) as [r'|]; [|discriminate]. intros [= ->].
  apply Hinv; [done| |done]. intros x r' _. apply next_step_result.
Qed.

(** The run at 02:30 on 2026-03-08 in New York, an hour that does not exist, is made at 03:00. *)
Lemma next_sound_witness :
  Next (parsed "30 2 * * *" new_york) UTC (1772949600 * second) = Some (1772953200 * second) /\
  next_result (parsed "30 2 * * *" new_york) (next_deadline UTC (1772949600 * second))
              (1772953200 * second).
Proof.
  assert (H : Next (parsed "30 2 * * *" new_york) UTC (1772949600 * second)
              = Some (1772953200 * second)) by (vm_compute; reflexivity).
  split; [exact H|]. apply (next_sound _ _ _ _ H).
Defined.

(** a schedule that restricts neither month nor day always returns from
    [Next], in any zone whatever its transitions, and never goes back before
    the minute the search starts on. *)
Theorem next_every_day_ends s al after :
  every_day s -> next_deadline al after - next_start s after < 2 ^ 62 * minute ->
  exists r, Next s al after = Some r /\ (r = zero_time \/ next_start s after <= r).
Proof.
  intros Hed Hdl. destruct (every_day_ends s al after Hed Hdl) as [r Hr].
  exists r. split; [done|]. destruct (decide (r = zero_time)); [by left|right].
  by eapply every_day_forward.
Qed.

Lemma every_day_half_past_one : every_day half_past_one_ny.
Proof.
  split; [|split; reflexivity]. intros m Hm.
  assert (E : forallb (has (month half_past_one_ny)) (seqZ 1 12) = true) by (vm_compute; reflexivity).
  rewrite forallb_forall in E. apply E. apply list_elem_of_In, elem_of_seqZ. lia.
Qed.

Lemma next_every_day_ends_witness :
  exists r, Next half_past_one_ny UTC (1772949600 * second) = Some r /\
    (r = zero_time \/ next_start half_past_one_ny (1772949600 * second) <= r).
Proof.
  apply next_every_day_ends; [apply every_day_half_past_one|vm_compute; reflexivity].
Defined.

(** on the Saturday before America/Santiago's 2026 change to summer time, a
    schedule for weekdays sends the search into a state it never leaves: no
    number of turns of the loop of [Next] returns. *)
Theorem next_never_returns_santiago k :
  iter2 k (next_step nine_weekdays_santiago (next_deadline UTC (1788627600 * second)))
          (next_start nine_weekdays_santiago (1788627600 * second))
  = inr (1788663600 * second).
Proof. apply iter2_into_stuck; vm_compute; reflexivity. Qed.

(** in the repeated hour of America/New_York's 2026 change back to standard
    time, [Next] returns an instant earlier than the one it was asked to follow:
    at 01:10 EST it answers 01:30 EDT, forty minutes before. *)
Theorem next_goes_back_new_york :
  Next half_past_one_ny UTC (1793513400 * second) = Some (1793511000 * second) /\
  1793511000 * second < 1793513400 * second.
Proof. split; [vm_compute; reflexivity|]. unfold second. lia. Qed.

(** a step that overflows the loop variable makes [Parse] panic instead of
    returning an error, on a range as on a plain [*] in a field that starts at 1. *)
Theorem parse_step_overflow_panics :
  Parse "1-5/9223372036854775807 * * * *" (Some UTC) = Err Panicked /\
  Parse "0 0 */9223372036854775807 * *" (Some UTC) = Err Panicked.
Proof. split; vm_compute; reflexivity. Qed.
