(* ===== verification/Recurrence.v ===== *)
(** * Interval schedules: internal/schedule/recurrence.go

    A [Recurrence] filters the firings of a time-of-day cron schedule by a
    predicate on the local date, [dateFires]. *)

From S2P Require Import Prelude GoTime GoStrings Cron.
From Stdlib Require Import String Ascii.
Local Abbreviation length := List.length.

(** [type Frequency int]: other values than these three exist. *)
Definition Frequency := Z.
Definition FreqDaily : Frequency := 1.
Definition FreqWeekly : Frequency := 2.
Definition FreqMonthly : Frequency := 3.

Definition LastDayOfMonth : Z := -1.
Definition SetPosLast : Z := -1.

Record Recurrence := MkRecurrence {
  Freq : Frequency; Interval : Z; Weekdays : list Z; MonthDay : Z; SetPos : Z;
  RHour : Z; RMinute : Z; Anchor : Z; RLoc : option Location; timeOfDay : option Schedule }.

Inductive rec_error :=
| RecTimezoneRequired | IntervalTooSmall | HourRange | MinuteRange | NoWeekday
| InvalidWeekday (d : Z) | WeekdayTwice (d : Z) | SetPosRange | NthNeedsOneWeekday
| MonthDayRange | UnknownFrequency (f : Z) | BuildingTimeOfDay (e : parse_error).

(** [validWeekdays]: [seen] is the Go map of the days met so far. *)
Fixpoint validWeekdays (seen : list Z) (days : list Z) : result rec_error unit :=
  match days with
  | [] => Ok tt
  | d :: rest =>
      if (d <? 0) || (6 <? d) then Err (InvalidWeekday d)
      else if decide (d ∈ seen) then Err (WeekdayTwice d)
      else validWeekdays (d :: seen) rest
  end.

Definition check_freq (r : Recurrence) : result rec_error unit :=
  if Freq r =? FreqDaily then Ok tt
  else if Freq r =? FreqWeekly then
    if decide (Weekdays r = []) then Err NoWeekday else validWeekdays [] (Weekdays r)
  else if Freq r =? FreqMonthly then
    if negb (SetPos r =? 0) then
      if (SetPos r <? SetPosLast) || (SetPos r =? 0) || (4 <? SetPos r) then Err SetPosRange
      else if negb (length (Weekdays r) =? 1)%nat then Err NthNeedsOneWeekday
      else validWeekdays [] (Weekdays r)
    else
      if negb (MonthDay r =? LastDayOfMonth) && ((MonthDay r <? 1) || (31 <? MonthDay r))
      then Err MonthDayRange else Ok tt
  else Err (UnknownFrequency (Freq r)).

(** [fmt.Sprintf("%d %d * * *", minute, hour)]. *)
Definition tod_expr (mi h : Z) : string :=
  show_small mi +:+ " " +:+ show_small h +:+ " * * *".

Definition NewRecurrence (r : Recurrence) : result rec_error Recurrence :=
  match RLoc r with
  | None => Err RecTimezoneRequired
  | Some l =>
      if Interval r <? 1 then Err IntervalTooSmall else
      if (RHour r <? 0) || (23 <? RHour r) then Err HourRange else
      if (RMinute r <? 0) || (59 <? RMinute r) then Err MinuteRange else
      let? _ := check_freq r in
      let? tod := rmap_err BuildingTimeOfDay (Parse (tod_expr (RMinute r) (RHour r)) (Some l)) in
      let anchor := if is_zero (Anchor r) then 0 else Anchor r in
      Ok (MkRecurrence (Freq r) (Interval r) (Weekdays r) (MonthDay r) (SetPos r)
            (RHour r) (RMinute r) anchor (Some l) (Some tod))
  end.

(** ** Calendar helpers *)

Definition dateOnly (l : Location) (t : Z) : Z :=
  Date l (Year l t) (Month l t) (Day l t) 0 0 0 0.

Definition daysBetween (l : Location) (a b : Z) : Z :=
  let ua := Date UTC (Year l a) (Month l a) (Day l a) 0 0 0 0 in
  let ub := Date UTC (Year l b) (Month l b) (Day l b) 0 0 0 0 in
  Z.quot (dur_sub ub ua) (24 * hour).

Definition weekStart (l : Location) (t : Z) : Z := AddDate l t 0 0 (- Weekday l t).

Definition monthsBetween (l : Location) (a b : Z) : Z :=
  (Year l b - Year l a) * 12 + Month l b - Month l a.

Definition positiveModulo (a b : Z) : Z :=
  if b <=? 0 then 0 else
  let m := Z.rem a b in if m <? 0 then m + b else m.

Definition containsWeekday (days : list Z) (d : Z) : bool := bool_decide (d ∈ days).

(** Day 0 of the next month is the last of this one. *)
Definition daysInMonth (y m : Z) : Z := Day UTC (Date UTC y (m + 1) 0 0 0 0 0).

Definition isNthWeekdayOfMonth (l : Location) (t wd n : Z) : bool :=
  if negb (Weekday l t =? wd) then false
  else if n =? SetPosLast then negb (Month l (AddDate l t 0 0 7) =? Month l t)
  else Z.quot (Day l t - 1) 7 + 1 =? n.

(** [t] is read in [l], the recurrence's zone.  [NewRecurrence] admits no
    recurrence with a position and no weekday, on which the code would panic. *)
Definition dateFires (r : Recurrence) (l : Location) (t : Z) : bool :=
  if Freq r =? FreqDaily then
    positiveModulo (daysBetween l (dateOnly l (Anchor r)) (dateOnly l t)) (Interval r) =? 0
  else if Freq r =? FreqWeekly then
    containsWeekday (Weekdays r) (Weekday l t) &&
    (positiveModulo
       (Z.quot (daysBetween l (weekStart l (dateOnly l (Anchor r))) (weekStart l (dateOnly l t))) 7)
       (Interval r) =? 0)
  else if Freq r =? FreqMonthly then
    if negb (positiveModulo (monthsBetween l (Anchor r) t) (Interval r) =? 0) then false
    else if negb (SetPos r =? 0) then
      match Weekdays r with
      | wd :: _ => isNthWeekdayOfMonth l t wd (SetPos r)
      | [] => false
      end
    else if MonthDay r =? LastDayOfMonth then Day l t =? daysInMonth (Year l t) (Month l t)
    else Day l t =? MonthDay r
  else false.

(** ** Searching *)

(** One turn of the loop of [Next]; [inl None] is a search inside that does not return. *)
Definition rec_step (r : Recurrence) (l : Location) (tod : Schedule) (deadline t : Z)
    : option Z + Z :=
  if is_zero t || (deadline <? t) then inl (Some zero_time)
  else if dateFires r l t then inl (Some t)
  else match Cron.Next tod l t with
       | Some t' => inr t'
       | None => inl None
       end.

(** [Recurrence.Next].  A recurrence that [NewRecurrence] did not build has no
    time-of-day engine and panics. *)
Definition RNext (r : Recurrence) (al : Location) (after : Z) : option Z :=
  match RLoc r with
  | None => Some zero_time
  | Some l =>
      match timeOfDay r with
      | None => None
      | Some tod =>
          match Cron.Next tod al after with
          | None => None
          | Some t =>
              match iter2 next_fuel (rec_step r l tod (next_deadline al after)) t with
              | inl o => o
              | inr _ => None
              end
          end
      end
  end.

(** [NextN]: [None] when a search inside does not return. *)
Fixpoint nextN (r : Recurrence) (al : Location) (n : nat) (t : Z) : option (list Z) :=
  match n with
  | O => Some []
  | S n' =>
      match RNext r al t with
      | None => None
      | Some t' =>
          if is_zero t' then Some []
          else match nextN r (default UTC (RLoc r)) n' t' with
               | Some l => Some (t' :: l)
               | None => None
               end
      end
  end.

Definition NextN (r : Recurrence) (al : Location) (after : Z) (n : Z) : option (list Z) :=
  if n <=? 0 then Some [] else nextN r al (Z.to_nat n) after.

(** ** Calendar facts *)

Lemma positiveModulo_mod a b : 0 < b -> positiveModulo a b = a mod b.
Proof.
  intros Hb. unfold positiveModulo. destruct (b <=? 0) eqn:E; bools; [lia|].
  pose proof (Z.quot_rem' a b) as Hq. pose proof (Z.rem_bound_abs a b) as Ha.
  cbv zeta. destruct (Z.rem a b <? 0) eqn:E2; bools.
  - apply Z.mod_unique with (a ÷ b - 1); lia.
  - apply Z.mod_unique with (a ÷ b); lia.
Qed.

Lemma validWeekdays_ok seen days :
  validWeekdays seen days = Ok tt <->
  Forall (fun d => 0 <= d <= 6) days /\ NoDup days /\ forall d, d ∈ days -> d ∉ seen.
Proof.
  revert seen. induction days as [|d days IH]; intros seen; simpl.
  - split; [|done]. intros _. split; [done|]. split; [constructor|].
    intros d Hd. by apply elem_of_nil in Hd.
  - rewrite Forall_cons, NoDup_cons. setoid_rewrite elem_of_cons. split_if.
    + split; [done|]. intros ((Hd & _) & _). destruct E; bools; lia.
    + case_decide as Hs.
      * split; [done|]. intros (_ & _ & Hn). by destruct (Hn d (or_introl eq_refl)).
      * rewrite IH. setoid_rewrite elem_of_cons. split.
        -- intros (Hf & Hnd & Hn). split; [split; [lia|done]|]. split; [split; [|done]|].
           ++ intros Hin. by destruct (Hn d Hin); left.
           ++ intros x [->|Hx]; [done|]. intros ?. destruct (Hn x Hx). by right.
        -- intros ((_ & Hf) & (Hnin & Hnd) & Hn). split; [done|]. split; [done|].
           intros x Hx [->|Hxs]; [done|]. by apply (Hn x (or_intror Hx)).
Qed.

Lemma daysInMonth_eq y m : 1 <= m <= 12 -> daysInMonth y m = days_in_month y m.
Proof.
  intros Hm. unfold daysInMonth, Day, local_day. unfold UTC. fold (fixed_zone 0).
  rewrite wall_Date_fixed. replace (days_of_civil y (m + 1) 0 * 86400 + 0 * 3600 + 0 * 60)
    with (days_of_civil y (m + 1) 0 * 86400) by lia.
  rewrite Z.div_mul by lia.
  assert (Hd : 28 <= days_in_month y m <= 31).
  { unfold days_in_month, days_before_month. destruct (leap y); repeat (split_if; try lia). }
  assert (H : days_of_civil y (m + 1) 0 = days_of_civil y m (days_in_month y m)).
  { rewrite (days_of_civil_in_year y m) by lia. unfold days_in_month.
    destruct (decide (m = 12)) as [->|].
    - unfold days_of_civil. change ((12 + 1 - 1) / 12) with 1.
      change ((12 + 1 - 1) mod 12 + 1) with 1.
      rewrite days_before_year_succ, days_before_month_1. change (12 + 1) with 13.
      rewrite days_before_month_13. destruct (leap y); lia.
    - rewrite days_of_civil_in_year by lia. lia. }
  rewrite H.
  pose proof (civil_of_days_of_civil (Civil y m (days_in_month y m))) as Hc.
  cbn [c_year c_month c_day] in Hc. rewrite Hc; [done|].
  split; cbn [c_year c_month c_day]; lia.
Qed.

(** A week later lies in another month exactly when fewer than seven days are left. *)
Lemma week_later_month n :
  c_month (civil_of_day (n + 7)) = c_month (civil_of_day n) <->
  c_day (civil_of_day n) + 7 <= days_in_month (c_year (civil_of_day n)) (c_month (civil_of_day n)).
Proof.
  set (c := civil_of_day n). set (c' := civil_of_day (n + 7)).
  pose proof (civil_of_day_valid n) as [Hm Hd]. fold c in Hm, Hd.
  pose proof (civil_of_day_valid (n + 7)) as [Hm' Hd']. fold c' in Hm', Hd'.
  pose proof (days_of_civil_of_day n) as Hn. fold c in Hn.
  pose proof (days_of_civil_of_day (n + 7)) as Hn'. fold c' in Hn'.
  rewrite days_of_civil_in_year in Hn, Hn' by lia. split; intros H.
  - rewrite H in *.
    assert (Hb : forall y y', days_before_month y (c_month c) <= days_before_month y' (c_month c) + 1 /\
                              days_in_month y (c_month c) <= 31).
    { intros y y'. unfold days_in_month, days_before_month.
      destruct (leap y), (leap y'); repeat (split_if; try lia). }
    pose proof (Hb (c_year c) (c_year c')). pose proof (Hb (c_year c') (c_year c)).
    destruct (Z.lt_trichotomy (c_year c') (c_year c)) as [Hlt|[He|Hgt]].
    + unfold days_before_year in *. dlia.
    + rewrite He in *. lia.
    + unfold days_before_year in *. dlia.
  - pose proof (civil_same_month n (n + 7)) as Hs. cbv zeta in Hs. fold c in Hs.
    apply Hs. split; [lia|]. clear Hs. destruct (decide (c_month c = 12)) as [E|].
    + rewrite E in *. unfold days_of_civil.
      change ((12 + 1 - 1) / 12) with 1. change ((12 + 1 - 1) mod 12 + 1) with 1.
      rewrite days_before_year_succ, days_before_month_1. unfold days_in_month in *.
      change (12 + 1) with 13 in *. rewrite days_before_month_13 in *. destruct (leap (c_year c)); lia.
    + rewrite days_of_civil_in_year by lia. unfold days_in_month in *. lia.
Qed.

(** ** The time-of-day engine *)

(** Rewrite an equality a finite check gives for every [z] in a range. *)
Lemma seqZ_check (f : Z -> bool) lo n z :
  forallb f (seqZ lo n) = true -> lo <= z < lo + n -> f z = true.
Proof.
  intros H Hz. rewrite forallb_forall in H. apply H.
  apply list_elem_of_In, elem_of_seqZ. lia.
Qed.

Definition single (v : Z) : fieldSpec :=
  FieldSpec (<[Z.to_nat v := true]> (replicate 64 false)) false.

#[export] Instance fieldSpec_eq_dec : EqDecision fieldSpec.
Proof. solve_decision. Defined.

Definition parses_to (m : result parse_error fieldSpec) (fs : fieldSpec) : bool :=
  match m with Ok fs' => bool_decide (fs' = fs) | Err _ => false end.

Lemma parses_to_eq m fs : parses_to m fs = true -> m = Ok fs.
Proof. destruct m; simpl; [|done]. intros. bools. by subst. Qed.

Lemma parse_minute_number mi : 0 <= mi < 60 -> parseField "minute" (show_small mi) 0 59 = Ok (single mi).
Proof.
  intros H. apply parses_to_eq.
  apply (seqZ_check (fun z => parses_to (parseField "minute" (show_small z) 0 59) (single z)) 0 60);
    [vm_compute; reflexivity|lia].
Qed.

Lemma parse_hour_number h : 0 <= h < 24 -> parseField "hour" (show_small h) 0 23 = Ok (single h).
Proof.
  intros H. apply parses_to_eq.
  apply (seqZ_check (fun z => parses_to (parseField "hour" (show_small z) 0 23) (single z)) 0 24);
    [vm_compute; reflexivity|lia].
Qed.

Lemma tod_expr_fields mi h :
  0 <= mi < 60 -> 0 <= h < 24 ->
  Fields (tod_expr mi h) = [show_small mi; show_small h; "*"; "*"; "*"]%string.
Proof.
  intros Hmi Hh.
  assert (H : forallb (fun a => forallb (fun b =>
     bool_decide (Fields (tod_expr a b) = [show_small a; show_small b; "*"; "*"; "*"]%string))
     (seqZ 0 24)) (seqZ 0 60) = true) by (vm_compute; reflexivity).
  pose proof (seqZ_check _ _ _ mi H ltac:(lia)) as H1. cbv beta in H1.
  pose proof (seqZ_check _ _ _ h H1 ltac:(lia)) as H2. cbv beta in H2. by bools.
Qed.

Definition star (name : string) (lo hi : Z) : fieldSpec :=
  match parseField name "*" lo hi with Ok fs => fs | Err _ => empty_field end.

Definition tod_schedule (mi h : Z) (l : Location) : Schedule :=
  MkSchedule (single mi) (single h) (star "day-of-month" 1 31) (star "month" 1 12)
             (star "day-of-week" 0 6) l (tod_expr mi h).

Lemma parse_tod mi h l :
  0 <= mi < 60 -> 0 <= h < 24 -> Parse (tod_expr mi h) (Some l) = Ok (tod_schedule mi h l).
Proof.
  intros Hmi Hh. unfold Parse. rewrite tod_expr_fields by done.
  rewrite parse_minute_number, parse_hour_number by done. reflexivity.
Qed.

Lemma has_single v x : 0 <= v < 64 -> 0 <= x -> has (single v) x = true <-> x = v.
Proof.
  intros Hv Hx. unfold has, single. cbn [set]. destruct (decide (x = v)) as [->|Hne].
  - rewrite list_lookup_insert_eq by (rewrite length_replicate; lia). tauto.
  - rewrite list_lookup_insert_ne by lia. split; [|done].
    destruct (replicate 64 false !! Z.to_nat x) eqn:E; [|done].
    apply lookup_replicate in E as [-> _]. done.
Qed.

Lemma has_star_month m : 1 <= m <= 12 -> has (star "month" 1 12) m = true.
Proof.
  intros Hm. apply (seqZ_check (has (star "month" 1 12)) 1 12); [vm_compute; reflexivity|lia].
Qed.

(** The engine fires once on every day, at its hour and minute. *)
Lemma tod_fires mi h l t :
  0 <= mi < 60 -> 0 <= h < 24 ->
  fires (tod_schedule mi h l) t <-> wall l t mod 86400 = h * 3600 + mi * 60 /\ nsec t = 0.
Proof.
  intros Hmi Hh. unfold fires, matches_at, tod_schedule. cbn [loc minute_f hour_f month].
  rewrite has_star_month
    by (unfold Month; pose proof (civil_of_day_valid (local_day l t)) as [? _]; lia).
  replace (dayMatches _ _ _) with true by reflexivity. rewrite !andb_true_r, andb_true_iff.
  rewrite !has_single
    by (pose proof (Minute_range l t); pose proof (Hour_range l t); lia).
  unfold Hour, Minute. split.
  - intros (H1 & H2 & H3 & H4). split; [|done]. dlia.
  - intros (H1 & H2). repeat split; [dlia|done|dlia|dlia].
Qed.

(** ** Which days a recurrence means *)

(** Weeks begin on Sunday; months are numbered from year 0. *)
Definition week_of_day (d : Z) : Z := (d + 4) / 7.
Definition month_index (d : Z) : Z := c_year (civil_of_day d) * 12 + c_month (civil_of_day d).

(** The day [d] of the month the monthly rules pick out. *)
Definition month_rule (r : Recurrence) (d : Z) : Prop :=
  let c := civil_of_day d in
  if decide (SetPos r <> 0) then
    exists wd rest, Weekdays r = wd :: rest /\ weekday_of_day d = wd /\
      (if decide (SetPos r = SetPosLast)
       then days_in_month (c_year c) (c_month c) < c_day c + 7
       else (c_day c - 1) / 7 + 1 = SetPos r)
  else if decide (MonthDay r = LastDayOfMonth)
       then c_day c = days_in_month (c_year c) (c_month c)
       else c_day c = MonthDay r.

(** A recurrence anchored on day [a] includes day [d]. *)
Definition day_rule (r : Recurrence) (a d : Z) : Prop :=
  if decide (Freq r = FreqDaily) then (d - a) mod Interval r = 0
  else if decide (Freq r = FreqWeekly) then
    weekday_of_day d ∈ Weekdays r /\ (week_of_day d - week_of_day a) mod Interval r = 0
  else if decide (Freq r = FreqMonthly) then
    (month_index d - month_index a) mod Interval r = 0 /\ month_rule r d
  else False.

Section calendar.
Context (off : Z).
Let l := fixed_zone off.

Lemma local_day_Date_midnight y m d :
  local_day l (Date l y m d 0 0 0 0) = days_of_civil y m d.
Proof. unfold local_day, l. rewrite wall_Date_fixed. dlia. Qed.

Lemma local_day_dateOnly t : local_day l (dateOnly l t) = local_day l t.
Proof.
  unfold dateOnly. rewrite local_day_Date_midnight. unfold Year, Month, Day.
  apply days_of_civil_of_day.
Qed.

Lemma local_day_AddDate t k : local_day l (AddDate l t 0 0 k) = local_day l t + k.
Proof.
  unfold AddDate, Date, l. unfold local_day at 1. rewrite wall_fixed, resolve_fixed.
  rewrite unix_mul by (apply Z.mod_pos_bound; done).
  rewrite days_of_civil_add, !Z.add_0_r. unfold Year, Month, Day.
  rewrite days_of_civil_of_day.
  unfold Hour, Minute, Second, local_day, nsec, second.
  set (w := wall _ t). dlia.
Qed.

(** Durations saturate at 292 years, so day counts are exact within that. *)
Lemma daysBetween_fixed a b :
  Z.abs (local_day l b - local_day l a) <= 106751 ->
  daysBetween l a b = local_day l b - local_day l a.
Proof.
  intros H. unfold daysBetween. unfold UTC. change (Loc 0 []) with (fixed_zone 0).
  rewrite !Date_fixed. unfold Year, Month, Day. rewrite !days_of_civil_of_day.
  set (x := local_day l b) in *. set (y := local_day l a) in *.
  unfold dur_sub, hour, minute, second.
  replace (Z.max _ _) with ((x - y) * 86400000000000) by lia.
  change (24 * (60 * (60 * 1000000000))) with 86400000000000.
  by rewrite Z.quot_mul by lia.
Qed.

Lemma local_day_weekStart t :
  local_day l (weekStart l (dateOnly l t)) = 7 * week_of_day (local_day l t) - 4.
Proof.
  unfold weekStart, Weekday. rewrite local_day_AddDate, local_day_dateOnly.
  unfold weekday_of_day, week_of_day. dlia.
Qed.

Lemma isNth_fixed t wd n :
  isNthWeekdayOfMonth l t wd n = true <->
  weekday_of_day (local_day l t) = wd /\
  (if decide (n = SetPosLast)
   then days_in_month (Year l t) (Month l t) < Day l t + 7
   else (Day l t - 1) / 7 + 1 = n).
Proof.
  unfold isNthWeekdayOfMonth, Weekday. split_if.
  { split; [done|]. by intros [??]. }
  pose proof (week_later_month (local_day l t)) as Hw.
  pose proof (civil_of_day_valid (local_day l t)) as [Hm Hd].
  unfold Month, Day, Year in *. rewrite local_day_AddDate.
  set (c := civil_of_day (local_day l t)) in *. split_if.
  - rewrite decide_True by done. rewrite negb_true_iff, Z.eqb_neq, Hw. split; [lia|]. lia.
  - rewrite decide_False by done. rewrite Z.eqb_eq, Z.quot_div_nonneg by lia. naive_solver.
Qed.

Lemma dateFires_fixed r t :
  1 <= Interval r ->
  Z.abs (local_day l t - local_day l (Anchor r)) <= 106740 ->
  dateFires r l t = true <-> day_rule r (local_day l (Anchor r)) (local_day l t).
Proof.
  intros Hi Hd. unfold dateFires, day_rule, containsWeekday. rewrite !positiveModulo_mod by lia.
  destruct (decide (Freq r = FreqDaily)) as [->|Hf1].
  { cbn [Z.eqb]. rewrite Z.eqb_refl, daysBetween_fixed by (rewrite !local_day_dateOnly; lia).
    rewrite !local_day_dateOnly. apply Z.eqb_eq. }
  apply Z.eqb_neq in Hf1 as ->.
  destruct (decide (Freq r = FreqWeekly)) as [->|Hf2].
  { rewrite Z.eqb_refl, daysBetween_fixed
      by (rewrite !local_day_weekStart; unfold week_of_day; dlia).
    rewrite !local_day_weekStart, andb_true_iff, bool_decide_eq_true, Z.eqb_eq. unfold Weekday.
    set (wk := week_of_day _). set (wa := week_of_day _).
    replace (7 * wk - 4 - (7 * wa - 4)) with ((wk - wa) * 7) by lia.
    by rewrite Z.quot_mul by lia. }
  apply Z.eqb_neq in Hf2 as ->.
  destruct (decide (Freq r = FreqMonthly)) as [->|Hf3].
  2:{ apply Z.eqb_neq in Hf3 as ->. done. }
  rewrite Z.eqb_refl. unfold monthsBetween, month_index, month_rule, Year, Month.
  set (da := civil_of_day (local_day l (Anchor r))). set (dt := civil_of_day (local_day l t)).
  replace (c_year dt * 12 + c_month dt - (c_year da * 12 + c_month da))
    with ((c_year dt - c_year da) * 12 + c_month dt - c_month da) by lia.
  split_if; [split; [done|]; intros [? _]; done|].
  destruct (decide (SetPos r <> 0)) as [Hs|Hs].
  - replace (negb (SetPos r =? 0)) with true by (symmetry; apply negb_true_iff, Z.eqb_neq; lia).
    destruct (Weekdays r) as [|wd rest].
    + split; [done|]. by intros (_ & ? & ? & ? & _).
    + rewrite isNth_fixed. unfold Year, Month, Day. fold dt. naive_solver.
  - replace (SetPos r =? 0) with true by (symmetry; apply Z.eqb_eq; lia). cbn [negb].
    destruct (decide (MonthDay r = LastDayOfMonth)) as [->|Hm].
    + rewrite Z.eqb_refl, daysInMonth_eq
        by (pose proof (civil_of_day_valid (local_day l t)) as [? _]; unfold dt; lia).
      rewrite Z.eqb_eq. unfold Day. fold dt. tauto.
    + apply Z.eqb_neq in Hm as ->. rewrite Z.eqb_eq. unfold Day. fold dt. tauto.
Qed.
End calendar.

(** ** Validation *)

Definition weekdays_valid (days : list Z) : Prop :=
  Forall (fun d => 0 <= d <= 6) days /\ NoDup days.

(** The recurrences [NewRecurrence] is documented to accept. *)
Definition valid_recurrence (r : Recurrence) : Prop :=
  RLoc r <> None /\ 1 <= Interval r /\ 0 <= RHour r <= 23 /\ 0 <= RMinute r <= 59 /\
  (Freq r = FreqDaily \/
   (Freq r = FreqWeekly /\ Weekdays r <> [] /\ weekdays_valid (Weekdays r)) \/
   (Freq r = FreqMonthly /\ SetPos r <> 0 /\ -1 <= SetPos r <= 4 /\
    exists wd, Weekdays r = [wd] /\ 0 <= wd <= 6) \/
   (Freq r = FreqMonthly /\ SetPos r = 0 /\ (MonthDay r = -1 \/ 1 <= MonthDay r <= 31))).

Lemma validWeekdays_valid days : validWeekdays [] days = Ok tt <-> weekdays_valid days.
Proof. rewrite validWeekdays_ok. unfold weekdays_valid. set_solver. Qed.

Lemma check_freq_monthly r :
  Freq r = FreqMonthly ->
  check_freq r = Ok tt <->
  (SetPos r <> 0 /\ -1 <= SetPos r <= 4 /\ exists wd, Weekdays r = [wd] /\ 0 <= wd <= 6) \/
  (SetPos r = 0 /\ (MonthDay r = -1 \/ 1 <= MonthDay r <= 31)).
Proof.
  intros Hf. unfold check_freq. rewrite Hf. cbn [FreqMonthly FreqDaily FreqWeekly Z.eqb Pos.eqb].
  destruct (SetPos r =? 0) eqn:Es; cbn [negb]; bools.
  - unfold LastDayOfMonth. split_if; [split; [done|]|split; [intros _|done]].
    + intros [(? & _)|[_ ?]]; [lia|]. destruct H0; bools; lia.
    + right. split; [lia|]. destruct E as [E|E]; bools; lia.
  - unfold SetPosLast. split_if.
    { split; [done|]. intros [(_ & ? & _)|[? _]]; [|lia].
      destruct E as [E|E]; bools; [|lia]. destruct E; bools; lia. }
    destruct (Weekdays r) as [|wd [|wd' rest]]; cbn [length Nat.eqb negb].
    1,3: split; [done|]; intros [(_ & _ & ? & [=] & _)|[? _]]; lia.
    rewrite validWeekdays_valid. unfold weekdays_valid. rewrite Forall_singleton. split.
    + intros [Hw _]. left. repeat split; [lia|lia|lia|]. by exists wd.
    + intros [(_ & _ & ? & [= <-] & ?)|[? _]]; [|lia]. split; [done|]. apply NoDup_singleton.
Qed.

Lemma NewRecurrence_eq r l :
  valid_recurrence r -> RLoc r = Some l ->
  NewRecurrence r =
  Ok (MkRecurrence (Freq r) (Interval r) (Weekdays r) (MonthDay r) (SetPos r) (RHour r) (RMinute r)
        (if is_zero (Anchor r) then 0 else Anchor r) (Some l)
        (Some (tod_schedule (RMinute r) (RHour r) l))).
Proof.
  intros (_ & Hi & Hh & Hm & Hf) Hl. unfold NewRecurrence. rewrite Hl.
  repeat (split_if; [exfalso; lia|]).
  rewrite parse_tod by lia. cbn [rmap_err rbind].
  enough (check_freq r = Ok tt) as -> by done.
  destruct Hf as [Hf|[(Hf & Hn & Hw)|Hf]].
  - unfold check_freq. by rewrite Hf.
  - unfold check_freq. rewrite Hf. cbn [FreqWeekly FreqDaily Z.eqb Pos.eqb].
    rewrite decide_False by done. by apply validWeekdays_valid.
  - apply check_freq_monthly; [|tauto]. tauto.
Qed.

Lemma NewRecurrence_valid r r' : NewRecurrence r = Ok r' -> valid_recurrence r.
Proof.
  unfold NewRecurrence, valid_recurrence. destruct (RLoc r) as [l|]; [|done].
  repeat (split_if; [done|]). intros HN. apply rbind_Ok in HN as ([] & Hc & _).
  repeat split; [done|lia..|].
  destruct (decide (Freq r = FreqDaily)) as [|Hd]; [by left|]. right.
  destruct (decide (Freq r = FreqWeekly)) as [Hw|Hw].
  - left. unfold check_freq in Hc. rewrite Hw in Hc. cbn in Hc.
    case_decide; [done|]. split; [done|]. split; [done|]. by apply validWeekdays_valid.
  - right. destruct (decide (Freq r = FreqMonthly)) as [Hf|Hf].
    + apply check_freq_monthly in Hc; [|done]. tauto.
    + unfold check_freq in Hc.
      apply Z.eqb_neq in Hd, Hw, Hf. by rewrite Hd, Hw, Hf in Hc.
Qed.

(** ** Searching in a zone with one offset *)

(** A firing: the hour and minute of the recurrence on a day of its rule. *)
Definition rec_fires (r : Recurrence) (l : Location) (t : Z) : Prop :=
  nsec t = 0 /\ wall l t mod 86400 = RHour r * 3600 + RMinute r * 60 /\
  day_rule r (local_day l (Anchor r)) (local_day l t).

(** Eight years are at least two thousand nine hundred days. *)
Lemma next_deadline_fixed_low o after :
  2900 * 24 * hour <= next_deadline (fixed_zone o) after - after <= 2930 * 24 * hour.
Proof.
  unfold next_deadline, AddDate, Date. rewrite resolve_fixed.
  unfold Year, Month, Day. set (n := local_day (fixed_zone o) after).
  pose proof (civil_of_day_valid n) as [Hm _].
  pose proof (days_of_civil_of_day n) as Hn.
  rewrite !Z.add_0_r, days_of_civil_in_year in * by lia.
  assert (Hdm : -1 <= days_before_month (c_year (civil_of_day n) + 8) (c_month (civil_of_day n)) -
                days_before_month (c_year (civil_of_day n)) (c_month (civil_of_day n)) <= 1).
  { unfold days_before_month. destruct (leap _), (leap _); repeat (split_if; try lia). }
  unfold Hour, Minute, Second, nsec. unfold n, local_day in *. rewrite wall_fixed in *.
  unfold days_before_year, hour, minute, unix, second in *.
  generalize dependent (civil_of_day ((after / 1000000000 + o) / 86400)). intros c Hm Hn Hdm.
  dlia.
Qed.

Section search.
Context (h mi off : Z) (Hh : 0 <= h < 24) (Hmi : 0 <= mi < 60).
Let l := fixed_zone off.
Let tod := tod_schedule mi h l.

(** The engine's firing on day [j]. *)
Definition at_day (j : Z) : Z := (86400 * j + h * 3600 + mi * 60 - off) * second.

Lemma wall_at_day j : wall l (at_day j) = 86400 * j + h * 3600 + mi * 60.
Proof.
  unfold l. rewrite wall_fixed. unfold at_day. rewrite <- (Z.add_0_r (_ * second)).
  rewrite unix_mul by (unfold second; lia). lia.
Qed.

Lemma local_day_at_day j : local_day l (at_day j) = j.
Proof. unfold local_day. rewrite wall_at_day. dlia. Qed.

Lemma at_day_lt i j : at_day i < at_day j <-> i < j.
Proof. unfold at_day, second. lia. Qed.

Lemma at_day_of t :
  wall l t mod 86400 = h * 3600 + mi * 60 -> nsec t = 0 -> t = at_day (local_day l t).
Proof.
  unfold local_day, at_day, l. rewrite wall_fixed. unfold nsec, unix, second. intros. dlia.
Qed.

Lemma tod_fires_at_day t : fires tod t <-> exists j, t = at_day j.
Proof.
  unfold tod. rewrite tod_fires by done. split.
  - intros [H1 H2]. eexists. by apply at_day_of.
  - intros [j ->]. rewrite wall_at_day. split; [dlia|]. unfold nsec, at_day. by rewrite Z_mod_mult.
Qed.

(** The day whose firing is the first after [t]. *)
Definition day_after (t : Z) : Z := (t - at_day 0) / (24 * hour) + 1.

Lemma day_after_spec t : at_day (day_after t - 1) <= t < at_day (day_after t).
Proof. unfold day_after, at_day, hour, minute, second. dlia. Qed.

Lemma tod_next o t : zero_time <= t -> Next tod (fixed_zone o) t = Some (at_day (day_after t)).
Proof.
  intros Hz. pose proof (day_after_spec t) as Hd.
  pose proof (next_deadline_fixed_low o t) as Hdl.
  destruct (next_fixed tod off eq_refl (fixed_zone o) t (next_deadline_fixed _ _))
    as (r & Hr & Hcase). rewrite Hr. f_equal.
  destruct Hcase as [(H1 & _ & Hf & Hq)|(-> & Hq)].
  - apply tod_fires_at_day in Hf as [j ->].
    destruct (Z.lt_trichotomy j (day_after t)) as [Hlt|[->|Hgt]]; [|done|].
    + exfalso. assert (at_day j <= at_day (day_after t - 1)) by (unfold at_day, second; lia). lia.
    + exfalso. apply (Hq (at_day (day_after t))); [|apply tod_fires_at_day; eauto].
      split; [lia|]. by apply at_day_lt.
  - exfalso. apply (Hq (at_day (day_after t))); [|apply tod_fires_at_day; eauto].
    split; [lia|]. unfold at_day, hour, minute, second in *. lia.
Qed.

Lemma day_after_at_day j : day_after (at_day j) = j + 1.
Proof. unfold day_after, at_day, hour, minute, second. dlia. Qed.

Context (r : Recurrence).

Lemma rec_step_at_day dl j :
  zero_time < at_day j ->
  rec_step r l tod dl (at_day j) =
  if dl <? at_day j then inl (Some zero_time)
  else if dateFires r l (at_day j) then inl (Some (at_day j)) else inr (at_day (j + 1)).
Proof.
  intros Hz. unfold rec_step, is_zero.
  replace (at_day j =? zero_time) with false by (symmetry; apply Z.eqb_neq; lia).
  cbn [orb]. unfold l at 2. rewrite tod_next by lia. by rewrite day_after_at_day.
Qed.

(** The days passed over do not qualify. *)
Definition rec_searched (after t : Z) : Prop :=
  exists j, t = at_day j /\ day_after after <= j /\
    forall i, day_after after <= i < j -> dateFires r l (at_day i) = false.

Lemma rec_loop_ends dl after :
  zero_time <= after -> dl - after < 2 ^ 60 * hour ->
  exists o, iter2 next_fuel (rec_step r l tod dl) (at_day (day_after after)) = inl o.
Proof.
  intros Hz Hdl. pose proof (day_after_spec after) as Hd.
  apply (iter2_terminates _ (rec_searched after)
           (fun t => if dl <? t then 0 else (dl - t) / (24 * hour) + 1)).
  - intros x y (j & -> & Hj & Hq). assert (at_day (day_after after) <= at_day j) by
      (unfold at_day, second; lia).
    rewrite rec_step_at_day by lia. destruct (dl <? at_day j) eqn:E; [done|].
    destruct (dateFires r l (at_day j)) eqn:Ef; [done|]. intros [= <-]. bools. split.
    + exists (j + 1). repeat split; [lia|]. intros i Hi.
      destruct (decide (i = j)) as [->|]; [done|]. apply Hq. lia.
    + repeat split_if; unfold at_day, hour, minute, second in *; dlia.
  - exists (day_after after). repeat split; [lia|]. lia.
  - change (2 ^ Z.of_nat next_fuel) with (2 ^ 64).
    split_if; unfold hour, minute, second in *; dlia.
Qed.

Lemma rec_loop_result dl after o :
  zero_time <= after ->
  iter2 next_fuel (rec_step r l tod dl) (at_day (day_after after)) = inl o ->
  exists j, day_after after <= j /\
    (forall i, day_after after <= i < j -> dateFires r l (at_day i) = false) /\
    ((o = Some zero_time /\ dl < at_day j) \/
     (o = Some (at_day j) /\ at_day j <= dl /\ dateFires r l (at_day j) = true)).
Proof.
  intros Hz Ho. pose proof (day_after_spec after) as Hd.
  pose proof (iter2_invariant (rec_step r l tod dl) (rec_searched after)
    (fun o => exists j, day_after after <= j /\
      (forall i, day_after after <= i < j -> dateFires r l (at_day i) = false) /\
      ((o = Some zero_time /\ dl < at_day j) \/
       (o = Some (at_day j) /\ at_day j <= dl /\ dateFires r l (at_day j) = true)))
    next_fuel (at_day (day_after after))) as Hinv.
  rewrite Ho in Hinv. apply Hinv; clear Hinv.
  3:{ exists (day_after after). repeat split; [lia|]. lia. }
  all: intros x y (j & -> & Hj & Hq);
    assert (at_day (day_after after) <= at_day j) by (unfold at_day, second; lia);
    rewrite rec_step_at_day by lia; destruct (dl <? at_day j) eqn:E;
    destruct (dateFires r l (at_day j)) eqn:Ef; try done; intros [= <-]; bools.
  - exists (j + 1). repeat split; [lia|]. intros i Hi.
    destruct (decide (i = j)) as [->|]; [done|]. apply Hq. lia.
  - exists j. repeat split; [done|done|]. by left.
  - exists j. repeat split; [done|done|]. by left.
  - exists j. repeat split; [done|done|]. by right.
Qed.
End search.

(** What [NewRecurrence] builds from a valid recurrence in a one-offset zone. *)
Definition built (r : Recurrence) (off : Z) : Prop :=
  RLoc r = Some (fixed_zone off) /\
  timeOfDay r = Some (tod_schedule (RMinute r) (RHour r) (fixed_zone off)) /\
  1 <= Interval r /\ 0 <= RHour r < 24 /\ 0 <= RMinute r < 60.

Lemma NewRecurrence_built r r' off :
  NewRecurrence r = Ok r' -> RLoc r = Some (fixed_zone off) -> built r' off.
Proof.
  intros H Hl. pose proof (NewRecurrence_valid _ _ H) as Hv.
  rewrite (NewRecurrence_eq _ _ Hv Hl) in H. injection H as <-.
  destruct Hv as (_ & ? & ? & ? & _). repeat split; simpl; lia.
Qed.

(** What a search from [after] to [dl] must answer. *)
Definition rec_answer (r : Recurrence) (l : Location) (after dl x : Z) : Prop :=
  (after < x <= dl /\ rec_fires r l x /\ forall y, after < y < x -> ~ rec_fires r l y) \/
  (x = zero_time /\ forall y, after < y <= dl -> ~ rec_fires r l y).

(** The day counts reach 292 years from the anchor; [n] days are kept in hand. *)
Definition near_anchor (r : Recurrence) (l : Location) (after n : Z) : Prop :=
  Z.abs (local_day l after - local_day l (Anchor r)) + n <= 106700.

Lemma local_day_mono off a b :
  a <= b <= a + 2930 * 24 * hour ->
  local_day (fixed_zone off) a <= local_day (fixed_zone off) b <= local_day (fixed_zone off) a + 2931.
Proof. unfold local_day. rewrite !wall_fixed. unfold hour, minute, unix, second. intros. dlia. Qed.

Lemma rec_fires_iff r off t :
  built r off -> near_anchor r (fixed_zone off) t 0 ->
  rec_fires r (fixed_zone off) t <->
  t = at_day (RHour r) (RMinute r) off (local_day (fixed_zone off) t) /\
  dateFires r (fixed_zone off) t = true.
Proof.
  intros (_ & _ & Hi & Hh & Hm) Hn. unfold near_anchor in Hn.
  rewrite dateFires_fixed by (try done; lia). unfold rec_fires. split.
  - intros (H1 & H2 & H3). split; [|done]. by apply at_day_of.
  - intros [H1 H2]. split; [|split; [|done]]; rewrite H1.
    + unfold nsec, at_day. by rewrite Z_mod_mult.
    + rewrite wall_at_day by done. dlia.
Qed.

Lemma rnext_fixed r off o after :
  built r off -> zero_time <= after -> near_anchor r (fixed_zone off) after 2931 ->
  exists x, RNext r (fixed_zone o) after = Some x /\
            rec_answer r (fixed_zone off) after (next_deadline (fixed_zone o) after) x.
Proof.
  intros Hb Hz Hn. pose proof Hb as (Hl & Ht & Hi & Hh & Hm).
  unfold RNext. rewrite Hl, Ht, tod_next by done.
  set (dl := next_deadline (fixed_zone o) after).
  pose proof (next_deadline_fixed_low o after) as Hdl. fold dl in Hdl.
  destruct (rec_loop_ends (RHour r) (RMinute r) off Hh Hm r dl after Hz) as [res Hres].
  { unfold hour, minute, second in *. lia. }
  rewrite Hres. apply rec_loop_result in Hres as (j & Hj & Hq & Hcase); [|done..].
  set (at_d := at_day (RHour r) (RMinute r) off) in *.
  pose proof (day_after_spec (RHour r) (RMinute r) off Hh Hm after) as Hda. fold at_d in Hda.
  assert (Hquiet : forall y, after < y < at_d j -> y <= dl -> ~ rec_fires r (fixed_zone off) y).
  { intros y Hy Hyd Hf. apply rec_fires_iff in Hf as [Hy1 Hy2]; [|done|].
    2:{ pose proof (local_day_mono off after y). unfold near_anchor in *. lia. }
    set (i := local_day (fixed_zone off) y) in *. fold at_d in Hy1.
    rewrite Hy1 in Hy, Hy2. rewrite Hq in Hy2; [done|]. split.
    - enough (day_after (RHour r) (RMinute r) off after - 1 < i) by lia.
      apply (at_day_lt (RHour r) (RMinute r) off). fold at_d. lia.
    - apply (at_day_lt (RHour r) (RMinute r) off). fold at_d. lia. }
  destruct Hcase as [[-> Hd]|(-> & Hd & Hf)].
  - exists zero_time. split; [done|]. right. split; [done|]. intros y Hy. apply Hquiet; lia.
  - exists (at_d j). split; [done|]. left.
    assert (after < at_d j) by (assert (at_d (day_after (RHour r) (RMinute r) off after) <= at_d j) by
      (unfold at_d, at_day, second; lia); lia).
    split; [lia|]. split; [|intros y Hy; apply Hquiet; lia].
    apply rec_fires_iff; [done| |].
    + pose proof (local_day_mono off after (at_d j)). unfold near_anchor in *. lia.
    + split; [|done]. unfold at_d at 2. by rewrite local_day_at_day.
Qed.

(** [l] lists firings after [t] in order, with none left out. *)
Fixpoint consecutive (r : Recurrence) (l : Location) (t : Z) (xs : list Z) : Prop :=
  match xs with
  | [] => True
  | x :: xs' => t < x /\ rec_fires r l x /\ (forall y, t < y < x -> ~ rec_fires r l y) /\
                consecutive r l x xs'
  end.

Lemma nextN_fixed r off o n after :
  built r off -> zero_time <= after ->
  near_anchor r (fixed_zone off) after (2931 * Z.of_nat n) ->
  exists xs, nextN r (fixed_zone o) n after = Some xs /\
    consecutive r (fixed_zone off) after xs /\
    (length xs = n \/
     (length xs < n)%nat /\ forall y, default after (last xs) < y <=
       default after (last xs) + 2900 * 24 * hour -> ~ rec_fires r (fixed_zone off) y).
Proof.
  intros Hb. revert o after. induction n as [|n IH]; intros o after Hz Hn.
  { exists []. repeat split. by left. }
  cbn [nextN]. destruct (rnext_fixed r off o after Hb Hz) as (x & Hx & Ha).
  { unfold near_anchor in *. lia. }
  rewrite Hx. pose proof (next_deadline_fixed_low o after) as Hdl.
  destruct Ha as [(Hx1 & Hx2 & Hx3)|(-> & Hq)].
  - unfold is_zero. replace (x =? zero_time) with false by (symmetry; apply Z.eqb_neq; lia).
    destruct Hb as (Hl & Hb'). rewrite Hl. cbn [default]. unfold id.
    destruct (IH off x) as (xs & -> & Hc & Hlen); [lia| |].
    { pose proof (local_day_mono off after x). unfold near_anchor in *. lia. }
    exists (x :: xs). split; [done|]. split; [split; [lia|done]|]. cbn [length].
    destruct Hlen as [->|[? Hrest]]; [by left|right]. split; [lia|].
    rewrite last_cons. by destruct (last xs).
  - unfold is_zero. rewrite Z.eqb_refl. exists []. repeat split. right. cbn [length last default].
    split; [lia|]. intros y Hy. apply Hq. unfold id in *. lia.
Qed.

(** ** Concrete recurrences, for witnesses *)

(** Every other Thursday at 07:30 UTC, anchored on Thursday 2026-01-01. *)
Definition biweekly : Recurrence :=
  MkRecurrence FreqWeekly 2 [4] 0 0 7 30 (1767225600 * second) (Some UTC) None.
(** Every other day at noon in Santiago, anchored on 2026-09-04. *)
Definition alternate_days : Recurrence :=
  MkRecurrence FreqDaily 2 [] 0 0 12 0 (1788523200 * second) (Some santiago) None.

Definition make (r : Recurrence) : Recurrence :=
  match NewRecurrence r with Ok r' => r' | Err _ => r end.

(** ** Theorems *)

(** [NewRecurrence] accepts exactly the documented recurrences (a zone, a
    positive interval, an hour and a minute of the clock, and per frequency the
    weekdays, set position or day of month it needs), never because of the
    time-of-day expression it builds, and what it returns carries an engine that
    fires on every day of its zone at exactly that hour and minute. *)
Theorem NewRecurrence_correct r :
  ((exists r', NewRecurrence r = Ok r') <-> valid_recurrence r) /\
  forall r', NewRecurrence r = Ok r' ->
    exists l tod, RLoc r' = Some l /\ timeOfDay r' = Some tod /\ loc tod = l /\
      (forall t, fires tod t <->
         wall l t mod 86400 = RHour r * 3600 + RMinute r * 60 /\ nsec t = 0) /\
      Anchor r' = (if is_zero (Anchor r) then 0 else Anchor r).
Proof.
  split.
  - split; [intros [r' H]; by eapply NewRecurrence_valid|]. intros Hv.
    destruct (RLoc r) as [l|] eqn:Hl; [|by destruct Hv as [? _]].
    eexists. by apply NewRecurrence_eq.
  - intros r' H. pose proof (NewRecurrence_valid _ _ H) as Hv.
    destruct (RLoc r) as [l|] eqn:Hl; [|by destruct Hv as [? _]].
    rewrite (NewRecurrence_eq _ _ Hv Hl) in H. injection H as <-.
    exists l, (tod_schedule (RMinute r) (RHour r) l). do 3 (split; [done|]). split; [|done].
    destruct Hv as (_ & _ & ? & ? & _). intros t. apply tod_fires; lia.
Qed.

(** C40: in a zone with one offset, a search of an accepted recurrence that
    starts within about 284 years of its anchor always returns, with the first
    instant after [after] that has the recurrence's hour and minute on a day of
    its rule: every n-th day, the chosen weekdays of every n-th Sunday-based
    week, or the chosen day of every n-th month; or with the zero time, and then
    no such instant exists within eight years. *)
Theorem rnext_fixed_zone_correct r r' off o after :
  NewRecurrence r = Ok r' -> RLoc r = Some (fixed_zone off) ->
  zero_time <= after -> near_anchor r' (fixed_zone off) after 2931 ->
  exists x, RNext r' (fixed_zone o) after = Some x /\
            rec_answer r' (fixed_zone off) after (next_deadline (fixed_zone o) after) x.
Proof. intros Hr Hl. apply rnext_fixed. by eapply NewRecurrence_built. Qed.

(** From Thursday 2026-01-01 12:00 UTC, every other Thursday next fires on January 15. *)
Lemma rnext_fixed_zone_correct_witness :
  RNext (make biweekly) UTC (1767268800 * second) = Some (1768462200 * second) /\
  exists x, RNext (make biweekly) (fixed_zone 0) (1767268800 * second) = Some x /\
    rec_answer (make biweekly) (fixed_zone 0) (1767268800 * second)
      (next_deadline (fixed_zone 0) (1767268800 * second)) x.
Proof.
  split; [vm_compute; reflexivity|].
  apply (rnext_fixed_zone_correct biweekly (make biweekly) 0 0);
    [vm_compute; reflexivity|reflexivity|vm_compute; discriminate|vm_compute; discriminate].
Defined.

(** the preview [NextN] lists consecutive firings in increasing order, each
    the first after the one before, and stops short of [n] of them only when the
    recurrence has no further firing for almost eight years. *)
Theorem nextN_fixed_zone_correct r r' off o after n :
  NewRecurrence r = Ok r' -> RLoc r = Some (fixed_zone off) -> 0 < n ->
  zero_time <= after -> near_anchor r' (fixed_zone off) after (2931 * n) ->
  exists xs, NextN r' (fixed_zone o) after n = Some xs /\
    consecutive r' (fixed_zone off) after xs /\
    (Z.of_nat (length xs) = n \/
     Z.of_nat (length xs) < n /\
     forall y, default after (last xs) < y <= default after (last xs) + 2900 * 24 * hour ->
               ~ rec_fires r' (fixed_zone off) y).
Proof.
  intros Hr Hl Hn Hz Ha. unfold NextN.
  replace (n <=? 0) with false by (symmetry; apply Z.leb_gt; lia).
  destruct (nextN_fixed r' off o (Z.to_nat n) after) as (xs & Hx & Hc & Hlen).
  - by eapply NewRecurrence_built.
  - done.
  - by rewrite Z2Nat.id by lia.
  - exists xs. split; [done|]. split; [done|].
    destruct Hlen as [->|[? ?]]; [left; lia|right]. split; [lia|done].
Qed.

Lemma nextN_fixed_zone_correct_witness :
  NextN (make biweekly) UTC (1767268800 * second) 2 =
    Some [1768462200 * second; 1769671800 * second] /\
  exists xs, NextN (make biweekly) (fixed_zone 0) (1767268800 * second) 2 = Some xs /\
    consecutive (make biweekly) (fixed_zone 0) (1767268800 * second) xs /\
    (Z.of_nat (length xs) = 2 \/ Z.of_nat (length xs) < 2 /\
     forall y, default (1767268800 * second) (last xs) < y <=
               default (1767268800 * second) (last xs) + 2900 * 24 * hour ->
               ~ rec_fires (make biweekly) (fixed_zone 0) y).
Proof.
  split; [vm_compute; reflexivity|].
  apply (nextN_fixed_zone_correct biweekly (make biweekly) 0 0 _ 2);
    [vm_compute; reflexivity|reflexivity|lia|vm_compute; discriminate|vm_compute; discriminate].
Defined.

(** a day that begins with a gap in the clock is counted as the day before:
    in America/Santiago an every-other-day recurrence anchored on 2026-09-04
    skips its day 2026-09-06, whose midnight does not exist, and the next firing
    after September 5 is on the 8th, four days after the anchor. *)
Theorem alternate_days_skips_gap_day :
  RNext (make alternate_days) UTC (1788570000 * second) = Some (1788879600 * second) /\
  daysBetween santiago (dateOnly santiago (1788523200 * second))
                       (dateOnly santiago (1788706800 * second)) = 1 /\
  local_day santiago (1788706800 * second) - local_day santiago (1788523200 * second) = 2 /\
  local_day santiago (1788879600 * second) - local_day santiago (1788523200 * second) = 4.
Proof. repeat split; vm_compute; reflexivity. Qed.
