(* ===== verification/Regexp.v ===== *)
(** * Regular expressions

    What the sources use of Go's [regexp] package: expressions over bytes whose
    repetitions are repetitions of a class, matched leftmost-first, which is the
    order of a backtracking search.  The classes of the sources tell only ASCII
    bytes apart, so that reading bytes finds what reading runes finds. *)

From S2P Require Import Prelude GoStrings.
From Stdlib Require Import String Ascii.
Local Open Scope string_scope.
Local Abbreviation length := String.length.

Inductive re :=
| Eps
| Class (p : ascii -> bool)
| Many (greedy : bool) (p : ascii -> bool)
| Boundary
| Seq (r1 r2 : re)
| Alt (r1 r2 : re)
| Group (n : nat) (r : re).

Infix "then_" := Seq (at level 62, right associativity) : aff_scope.

Definition is_byte (c x : ascii) : bool := Ascii.eqb x c.
Definition none_of (l : list ascii) (x : ascii) : bool := negb (existsb (Ascii.eqb x) l).
Definition is_letter (x : ascii) : bool := in_range 65 90 x || in_range 97 122 x.
Definition is_digit (x : ascii) : bool := in_range 48 57 x.
Definition is_word (x : ascii) : bool := is_letter x || is_digit x || Ascii.eqb x "_".
(** [\s]. *)
Definition re_space (x : ascii) : bool := existsb (Ascii.eqb x) ["009"; "010"; "012"; "013"; " "]%char.
(** A letter of the expression under [(?i)]. *)
Definition either_case (c x : ascii) : bool := Ascii.eqb (lower_ascii x) c.

Definition lit (c : ascii) : re := Class (is_byte c).
Definition plus (p : ascii -> bool) : re := Class p then_ Many true p.
Definition opt (r : re) : re := Alt r Eps.

(** ** The search

    [prev] is the byte before, [k] what must match after.  The captured texts
    are those of the groups taken. *)

Abbreviation caps := (gmap nat string).

Definition at_boundary (prev : option ascii) (s : string) : bool :=
  let next := match s with String c _ => is_word c | EmptyString => false end in
  xorb (match prev with Some c => is_word c | None => false end) next.

Section search.
Context {R : Type}.

Fixpoint many (greedy : bool) (p : ascii -> bool) (prev : option ascii) (s : string)
    (k : option ascii -> string -> option R) : option R :=
  if greedy then
    match (match s with String c r => if p c then many greedy p (Some c) r k else None | EmptyString => None end) with
    | Some x => Some x
    | None => k prev s
    end
  else
    match k prev s with
    | Some x => Some x
    | None => match s with String c r => if p c then many greedy p (Some c) r k else None | EmptyString => None end
    end.

Fixpoint search (r : re) (prev : option ascii) (s : string) (cs : caps)
    (k : option ascii -> string -> caps -> option R) : option R :=
  match r with
  | Eps => k prev s cs
  | Class p => match s with
               | String c rest => if p c then k (Some c) rest cs else None
               | EmptyString => None
               end
  | Many greedy p => many greedy p prev s (fun prev' s' => k prev' s' cs)
  | Boundary => if at_boundary prev s then k prev s cs else None
  | Seq r1 r2 => search r1 prev s cs (fun prev' s' cs' => search r2 prev' s' cs' k)
  | Alt r1 r2 => match search r1 prev s cs k with Some x => Some x | None => search r2 prev s cs k end
  | Group n r1 => search r1 prev s cs
                    (fun prev' s' cs' => k prev' s' (<[n := substring 0 (length s - length s') s]> cs'))
  end.
End search.

(** A match that starts here: the byte before its end, what follows, the groups. *)
Definition match_at (r : re) (prev : option ascii) (s : string) : option (option ascii * string * caps) :=
  search r prev s ∅ (fun prev' s' cs => Some (prev', s', cs)).

(** The leftmost matches that do not overlap, with the text before each, and the
    text after the last, for an expression that does not match the empty text.
    [acc] is the text since the last match, in reverse. *)
Fixpoint find_all (fuel : nat) (r : re) (prev : option ascii) (acc s : string) : list (string * caps) * string :=
  match fuel with
  | O => ([], (srev acc ++ s)%string)
  | S fuel' =>
      match match_at r prev s with
      | Some (prev', s', cs) =>
          let q := find_all fuel' r prev' "" s' in ((srev acc, cs) :: q.1, q.2)
      | None =>
          match s with
          | EmptyString => ([], srev acc)
          | String c rest => find_all fuel' r (Some c) (String c acc) rest
          end
      end
  end.

Definition MatchString (r : re) (s : string) : bool :=
  negb (bool_decide ((find_all (S (length s)) r None "" s).1 = [])).

Definition FindAllStringSubmatch (r : re) (s : string) : list caps :=
  ((find_all (S (length s)) r None "" s).1).*2.

(** [ReplaceAllString] with the empty replacement. *)
Definition delete_all (r : re) (s : string) : string :=
  let q := find_all (S (length s)) r None "" s in String.concat "" (q.1.*1 ++ [q.2]).

(** [m[n]]: the empty string for a group that took no part. *)
Definition submatch (m : caps) (n : nat) : string := default "" (m !! n).

(** ** The language of an expression *)

Fixpoint last_byte (prev : option ascii) (s : string) : option ascii :=
  match s with EmptyString => prev | String c r => last_byte (Some c) r end.

(** [lang r prev m next]: [r] matches [m] between a byte and a text. *)
Inductive lang : re -> option ascii -> string -> string -> Prop :=
| lang_eps prev next : lang Eps prev "" next
| lang_class p prev c next : p c = true -> lang (Class p) prev (String c "") next
| lang_many g p prev m next : all_bytes p m = true -> lang (Many g p) prev m next
| lang_boundary prev next : at_boundary prev next = true -> lang Boundary prev "" next
| lang_seq r1 r2 prev m1 m2 next :
    lang r1 prev m1 (m2 ++ next) -> lang r2 (last_byte prev m1) m2 next -> lang (Seq r1 r2) prev (m1 ++ m2) next
| lang_alt_l r1 r2 prev m next : lang r1 prev m next -> lang (Alt r1 r2) prev m next
| lang_alt_r r1 r2 prev m next : lang r2 prev m next -> lang (Alt r1 r2) prev m next
| lang_group n r prev m next : lang r prev m next -> lang (Group n r) prev m next.

Section language.
Context {R : Type}.
Implicit Types (s m : string) (x : R).

Lemma last_byte_app prev a b : last_byte prev (a ++ b) = last_byte (last_byte prev a) b.
Proof. revert prev. induction a as [|c a IH]; intros prev; [done|]. sapp. apply IH. Qed.

Lemma many_sound g p prev s k x :
  many g p prev s k = Some x ->
  exists m s', s = m ++ s' /\ all_bytes p m = true /\ k (last_byte prev m) s' = Some x.
Proof.
  revert prev. induction s as [|c s IH]; intros prev H.
  { exists "", "". split; [done|]. split; [done|]. cbn in *. by destruct g, (k prev ""). }
  assert (Hstop : k prev (String c s) = Some x -> exists m s', String c s = m ++ s' /\ all_bytes p m = true /\
                    k (last_byte prev m) s' = Some x) by (by exists "", (String c s)).
  assert (Hmore : p c = true -> many g p (Some c) s k = Some x -> exists m s', String c s = m ++ s' /\
                    all_bytes p m = true /\ k (last_byte prev m) s' = Some x).
  { intros Hp Hm. apply IH in Hm as (m & s' & -> & Hb & Hk). exists (String c m), s'.
    rewrite all_bytes_cons, Hp. done. }
  cbn [many] in H. destruct g, (p c); repeat case_match; simplify_eq; auto.
Qed.

Lemma many_complete g p prev m s' (k : option ascii -> string -> option R) :
  all_bytes p m = true -> k (last_byte prev m) s' <> None -> many g p prev (m ++ s') k <> None.
Proof.
  revert prev. induction m as [|c m IH]; intros prev Hb Hk.
  { sapp. cbn [last_byte] in Hk. destruct s'; cbn [many]; destruct g; repeat case_match; congruence. }
  rewrite all_bytes_cons in Hb. apply andb_true_iff in Hb as [Hp Hb]. sapp. rewrite Hp.
  specialize (IH (Some c) Hb Hk). destruct g; repeat case_match; congruence.
Qed.

Lemma search_sound r prev s cs k x :
  search r prev s cs k = Some x ->
  exists m s' cs', s = m ++ s' /\ lang r prev m s' /\ k (last_byte prev m) s' cs' = Some x.
Proof.
  revert prev s cs k. induction r as [|p|g p| |r1 IH1 r2 IH2|r1 IH1 r2 IH2|n r IH]; intros prev s cs k H; cbn in H.
  - exists "", s, cs. split; [done|]. split; [constructor|done].
  - destruct s as [|c s]; [done|]. destruct (p c) eqn:E; [|done]. exists (String c ""), s, cs.
    split; [done|]. split; [by constructor|done].
  - apply many_sound in H as (m & s' & -> & Hm & Hk). exists m, s', cs. split; [done|]. split; [by constructor|done].
  - destruct (at_boundary prev s) eqn:E; [|done]. exists "", s, cs. split; [done|]. split; [by constructor|done].
  - apply IH1 in H as (m1 & s1 & cs1 & -> & H1 & Hk). apply IH2 in Hk as (m2 & s2 & cs2 & -> & H2 & Hk).
    exists (m1 ++ m2), s2, cs2. rewrite str_app_assoc, last_byte_app. split; [done|]. split; [by constructor|done].
  - destruct (search r1 prev s cs k) eqn:E; simplify_eq.
    + apply IH1 in E as (m & s' & cs' & -> & Hm & Hk). exists m, s', cs'. split; [done|]. split; [by apply lang_alt_l|done].
    + apply IH2 in H as (m & s' & cs' & -> & Hm & Hk). exists m, s', cs'. split; [done|]. split; [by apply lang_alt_r|done].
  - apply IH in H as (m & s' & cs' & -> & Hm & Hk). eexists m, s', _. split; [done|]. split; [by constructor|exact Hk].
Qed.

Lemma search_complete r prev m s' cs (k : option ascii -> string -> caps -> option R) :
  lang r prev m s' -> (forall cs', k (last_byte prev m) s' cs' <> None) -> search r prev (m ++ s') cs k <> None.
Proof.
  intros H. revert cs k. induction H as [prev next|p prev c next Hp|g p prev m next Hm|prev next Hb|
    r1 r2 prev m1 m2 next H1 IH1 H2 IH2|r1 r2 prev m next H IH|r1 r2 prev m next H IH|n r prev m next H IH];
    intros cs k Hk; cbn [search].
  - apply Hk.
  - sapp. rewrite Hp. apply Hk.
  - apply many_complete; [done|]. apply Hk.
  - sapp. rewrite Hb. apply Hk.
  - rewrite str_app_assoc. apply IH1. intros cs1. apply IH2. intros cs2. rewrite <- last_byte_app. apply Hk.
  - specialize (IH cs k Hk). case_match; congruence.
  - specialize (IH cs k Hk). case_match; congruence.
  - apply IH. intros cs'. apply Hk.
Qed.

End language.

Lemma find_all_some fuel r prev acc s :
  (length s < fuel)%nat ->
  (find_all fuel r prev acc s).1 <> [] <->
  exists a m b, s = a ++ m ++ b /\ lang r (last_byte prev a) m b.
Proof.
  revert prev acc s. induction fuel as [|fuel IH]; intros prev acc s Hl; [lia|]. cbn [find_all].
  destruct (match_at r prev s) as [[[p' s'] cs]|] eqn:E.
  - split; [intros _|done]. apply search_sound in E as (m & s1 & cs1 & -> & Hm & _).
    by exists "", m, s1.
  - assert (Hno : forall m b, s = m ++ b -> ~ lang r prev m b).
    { intros m b -> Hm. by apply (search_complete _ _ _ _ ∅ (fun p s c => Some (p, s, c)) Hm). }
    destruct s as [|c s]; cbn [fst].
    + split; [done|]. intros (a & m & b & Hs & Hm). destruct a, m, b; try done. destruct (Hno "" "" eq_refl Hm).
    + cbn in Hl. rewrite IH by lia. split; intros (a & m & b & Hs & Hm).
      * exists (String c a), m, b. rewrite Hs. done.
      * destruct a as [|c' a]; [by destruct (Hno m b Hs Hm)|]. rewrite str_app_cons in Hs. injection Hs as -> ->.
        by exists a, m, b.
Qed.

(** An expression matches a text exactly when some part of it, in its place, is
    in the language of the expression. *)
Lemma MatchString_spec r s :
  MatchString r s = true <-> exists a m b, s = a ++ m ++ b /\ lang r (last_byte None a) m b.
Proof.
  unfold MatchString. rewrite negb_true_iff, bool_decide_eq_false. apply find_all_some. lia.
Qed.
