(* ===== verification/GoURL.v ===== *)
(** * URLs

    What the sources use of Go's [net/url] package: [Parse], [String] for a URL
    without a fragment, [Hostname], [Query] and [QueryEscape].

    A host in brackets is an IP literal, which the package checks with
    [net/netip]; that check is an argument ([parseIPLiteral]), and so is the
    choice of the schemes whose host may hold one colon only ([strictColons]),
    which the release notes of Go 1.26 make for http and https. *)

From S2P Require Import Prelude GoStrings Regexp.
From Stdlib Require Import String Ascii.
Local Open Scope string_scope.
Local Open Scope Z_scope.
Local Abbreviation length := String.length.

(** ** Percent encoding *)

Inductive encoding := encodePath | encodeHost | encodeUserPassword | encodeQueryComponent | encodeFragment.

Definition one_of (s : string) (c : ascii) : bool := existsb (Ascii.eqb c) (list_ascii_of_string s).
Definition alnum (c : ascii) : bool := is_letter c || is_digit c.

Definition shouldEscape (c : ascii) (mode : encoding) : bool :=
  if alnum c then false
  else if match mode with encodeHost => one_of "!$&'()*+,;=:[]<>" c || Ascii.eqb c dquote | _ => false end then false
  else if one_of "-_.~" c then false
  else if one_of "$&+,/:;=?@" c then
    match mode with
    | encodePath => Ascii.eqb c "?"
    | encodeUserPassword => one_of "@/?:" c
    | encodeQueryComponent => true
    | encodeFragment => false
    | encodeHost => true
    end
  else match mode with encodeFragment => negb (one_of "!()*" c) | _ => true end.

Definition upperhex (n : Z) : ascii := byte (if n <? 10 then 48 + n else 55 + n).
Definition code (c : ascii) : Z := Z.of_nat (nat_of_ascii c).

Definition escape_byte (mode : encoding) (c : ascii) : string :=
  if shouldEscape c mode then
    match mode, Ascii.eqb c " " with
    | encodeQueryComponent, true => "+"
    | _, _ => String "%" (String (upperhex (code c / 16)) (String (upperhex (code c mod 16)) ""))
    end
  else String c "".

Fixpoint escape (mode : encoding) (s : string) : string :=
  match s with
  | EmptyString => ""
  | String c r => escape_byte mode c ++ escape mode r
  end.

Definition is_host (mode : encoding) : bool := match mode with encodeHost => true | _ => false end.
Definition is_query (mode : encoding) : bool := match mode with encodeQueryComponent => true | _ => false end.

Fixpoint unescape (mode : encoding) (s : string) : option string :=
  match s with
  | EmptyString => Some ""
  | String c r =>
      if Ascii.eqb c "%" then
        match r with
        | String a (String b r') =>
            match digit_in 16 a, digit_in 16 b with
            | Some x, Some y =>
                if is_host mode && (x <? 8) && negb ((x =? 2) && (y =? 5)) then None
                else String (byte (16 * x + y)) <$> unescape mode r'
            | _, _ => None
            end
        | _ => None
        end
      else if Ascii.eqb c "+" then String (if is_query mode then " " else "+")%char <$> unescape mode r
      else if is_host mode && (code c <? 128) && shouldEscape c mode then None
      else String c <$> unescape mode r
  end.

Definition QueryEscape : string -> string := escape encodeQueryComponent.

Definition validEncoded (s : string) : bool :=
  all_bytes (fun c => one_of "!$&'()*+,;=:@[]%" c || negb (shouldEscape c encodePath)) s.

(** ** The parts of a URL *)

(** [User]: a name and perhaps a password. *)
Record URL := MkURL {
  Scheme : string; Opaque : string; User : option (string * option string); Host : string; Path : string;
  RawPath : string; OmitHost : bool; ForceQuery : bool; RawQuery : string }.

(** Around the last occurrence of a byte. *)
Fixpoint cut_last (s : string) (sep : ascii) : option (string * string) :=
  match s with
  | EmptyString => None
  | String c r =>
      match cut_last r sep with
      | Some (x, y) => Some (String c x, y)
      | None => if Ascii.eqb c sep then Some ("", r) else None
      end
  end.

Definition contains (s : string) (c : ascii) : bool := one_of s c.
Definition HasSuffix (s p : string) : bool := HasPrefix (srev s) (srev p).

Definition scheme_byte (c : ascii) : bool := alnum c || one_of "+-." c.

(** The scheme and the rest, or the whole text when it has none. *)
Definition getScheme (raw : string) : option (string * string) :=
  let q := span scheme_byte raw in
  match q.2 with
  | String c rest =>
      if Ascii.eqb c ":" then
        match q.1 with
        | EmptyString => None
        | String a _ => if is_letter a then Some (q.1, rest) else Some ("", raw)
        end
      else Some ("", raw)
  | EmptyString => Some ("", raw)
  end.

Definition ctl_byte (c : ascii) : bool := (code c <? 32) || (code c =? 127).

Definition validOptionalPort (port : string) : bool :=
  match port with
  | EmptyString => true
  | String c r => Ascii.eqb c ":" && all_bytes is_digit r
  end.

Section parsing.
Context (parseIPLiteral : string -> option string) (strictColons : string -> bool).

Definition parseHost (scheme host : string) : option string :=
  if contains host "[" then parseIPLiteral host
  else
    let port_ok := match (if strictColons scheme then cut host ":" else cut_last host ":") with
                   | Some (_, p) => all_bytes is_digit p
                   | None => true
                   end in
    if port_ok then unescape encodeHost host else None.

Definition validUserinfo (s : string) : bool := all_bytes (fun c => alnum c || one_of "-._:~!$&'()*+,;=%@" c) s.

Definition parseAuthority (scheme authority : string) : option (option (string * option string) * string) :=
  match cut_last authority "@" with
  | None => pair None <$> parseHost scheme authority
  | Some (userinfo, rest) =>
      host ← parseHost scheme rest;
      if negb (validUserinfo userinfo) then None
      else match cut userinfo ":" with
           | None => name ← unescape encodeUserPassword userinfo; Some (Some (name, None), host)
           | Some (n, p) =>
               name ← unescape encodeUserPassword n; pass ← unescape encodeUserPassword p;
               Some (Some (name, Some pass), host)
           end
  end.

(** [setPath]: the path and, when it is not the default encoding of it, the text. *)
Definition setPath (p : string) : option (string * string) :=
  path ← unescape encodePath p;
  Some (path, if String.eqb p (escape encodePath path) then "" else p).

(** [Parse] of a text without a fragment. *)
Definition parse (raw : string) : option URL :=
  if negb (all_bytes (fun c => negb (ctl_byte c)) raw) then None
  else if String.eqb raw "*" then Some (MkURL "" "" None "" "*" "" false false "")
  else
    '(sch, rest0) ← getScheme raw;
    let scheme := ToLower sch in
    let '(force, rest, query) :=
      match cut rest0 "?" with
      | Some (a, EmptyString) => (true, a, "")
      | Some (a, b) => (false, a, b)
      | None => (false, rest0, "")
      end in
    if negb (HasPrefix rest "/") && negb (String.eqb scheme "")
    then Some (MkURL scheme rest None "" "" "" false force query)
    else if negb (HasPrefix rest "/") && contains (match cut rest "/" with Some (a, _) => a | None => rest end) ":"
    then None
    else if (negb (String.eqb scheme "") || negb (HasPrefix rest "///")) && HasPrefix rest "//" then
      let rest2 := substring 2 (length rest - 2) rest in
      let '(authority, path) := match cut rest2 "/" with
                                | Some (a, p) => (a, String "/" p)
                                | None => (rest2, "")
                                end in
      '(user, host) ← parseAuthority scheme authority;
      '(p, rp) ← setPath path;
      Some (MkURL scheme "" user host p rp false force query)
    else
      '(p, rp) ← setPath rest;
      Some (MkURL scheme "" None "" p rp (negb (String.eqb scheme "") && HasPrefix rest "/") force query).

Definition Parse (raw : string) : option URL :=
  match cut raw "#" with
  | None => parse raw
  | Some (u, frag) => url ← parse u; _ ← unescape encodeFragment frag; Some url
  end.

End parsing.

(** ** Writing a URL *)

Definition EscapedPath (u : URL) : string :=
  if negb (String.eqb (RawPath u) "") && validEncoded (RawPath u) &&
     bool_decide (unescape encodePath (RawPath u) = Some (Path u))
  then RawPath u
  else if String.eqb (Path u) "*" then "*"
  else escape encodePath (Path u).

Definition userinfo_text (ui : string * option string) : string :=
  escape encodeUserPassword ui.1 ++
  match ui.2 with Some p => ":" ++ escape encodeUserPassword p | None => "" end.

Definition URL_String (u : URL) : string :=
  let scheme := if String.eqb (Scheme u) "" then "" else Scheme u ++ ":" in
  let authority :=
    if String.eqb (Scheme u) "" && String.eqb (Host u) "" && bool_decide (User u = None) then ""
    else if OmitHost u && String.eqb (Host u) "" && bool_decide (User u = None) then ""
    else (if String.eqb (Host u) "" && String.eqb (Path u) "" && bool_decide (User u = None) then "" else "//") ++
         match User u with Some ui => userinfo_text ui ++ "@" | None => "" end ++
         escape encodeHost (Host u) in
  let path := EscapedPath u in
  let slash := if negb (String.eqb path "") && negb (HasPrefix path "/") && negb (String.eqb (Host u) "")
               then "/" else "" in
  let dot := if String.eqb (scheme ++ authority ++ slash) "" &&
                contains (match cut path "/" with Some (a, _) => a | None => path end) ":"
             then "./" else "" in
  let body := if String.eqb (Opaque u) "" then authority ++ slash ++ dot ++ path else Opaque u in
  let query := if ForceQuery u || negb (String.eqb (RawQuery u) "") then "?" ++ RawQuery u else "" in
  scheme ++ body ++ query.

Definition Hostname (u : URL) : string :=
  let host := match cut_last (Host u) ":" with
              | Some (a, p) => if all_bytes is_digit p then a else Host u
              | None => Host u
              end in
  if HasPrefix host "[" && HasSuffix host "]" then substring 1 (length host - 2) host else host.

(** ** Queries *)

Abbreviation Values := (gmap string (list string)).

(** One [key=value] of a query; what does not decode is left out. *)
Definition add_pair (m : Values) (kv : string) : Values :=
  if contains kv ";" || String.eqb kv "" then m
  else
    let (k, v) := match cut kv "=" with Some (a, b) => (a, b) | None => (kv, "") end in
    match unescape encodeQueryComponent k, unescape encodeQueryComponent v with
    | Some k', Some v' => <[k' := default [] (m !! k') ++ [v']]> m
    | _, _ => m
    end%list.

Definition Query (u : URL) : Values := fold_left add_pair (Split (RawQuery u) "&") ∅.

(** ** Facts about bytes, by enumeration *)

Definition all_ascii : list ascii := map ascii_of_nat (seq 0 256).

Lemma by_bytes (P : ascii -> bool) : forallb P all_ascii = true -> forall c, P c = true.
Proof.
  intros H c. rewrite forallb_forall in H. apply H. unfold all_ascii. apply in_map_iff. exists (nat_of_ascii c).
  split; [apply ascii_nat_embedding|]. apply in_seq. pose proof (nat_ascii_bounded c). lia.
Qed.

(** [by_bytes] for an implication. *)
Lemma by_bytes_if (p q : ascii -> bool) :
  forallb (fun c => implb (p c) (q c)) all_ascii = true -> forall c, p c = true -> q c = true.
Proof. intros H c Hp. pose proof (by_bytes _ H c) as Hc. cbn beta in Hc. by rewrite Hp in Hc. Qed.

(** ** Where a byte occurs *)

Lemma cut_last_lacks s c : cut_last s c = None <-> lacks c s.
Proof.
  induction s as [|x s IH]; [done|]. rewrite lacks_cons. cbn [cut_last].
  destruct (cut_last s c) as [[y z]|]; [naive_solver|]. destruct (Ascii.eqb_spec x c); naive_solver.
Qed.

Lemma cut_last_app a b c : lacks c b -> cut_last (a ++ String c b) c = Some (a, b).
Proof.
  intros H. induction a as [|x a IH]; sapp; [|by rewrite IH].
  apply cut_last_lacks in H as ->. by rewrite Ascii.eqb_refl.
Qed.

Lemma cut_last_Some s c a b : cut_last s c = Some (a, b) -> s = a ++ String c b /\ lacks c b.
Proof.
  revert a. induction s as [|x s IH]; intros a; cbn [cut_last]; [done|].
  destruct (cut_last s c) as [[y z]|] eqn:E.
  - intros [= <- <-]. destruct (IH y eq_refl) as [-> H]. done.
  - destruct (Ascii.eqb_spec x c) as [->|]; [|done]. intros [= <- <-]. split; [done|]. by apply cut_last_lacks.
Qed.

Lemma contains_lacks s c : contains s c = false <-> lacks c s.
Proof.
  unfold contains, one_of. induction s as [|x s IH]; [done|]. rewrite lacks_cons, <- IH. cbn [list_ascii_of_string existsb].
  rewrite orb_false_iff, Ascii.eqb_neq. naive_solver.
Qed.

(** ** Round trips *)

Lemma escape_app mode a b : escape mode (a ++ b) = escape mode a ++ escape mode b.
Proof. induction a as [|c a IH]; [done|]. rewrite str_app_cons. cbn [escape]. by rewrite IH, str_app_assoc. Qed.

Lemma escape_bytes (p : ascii -> bool) mode s :
  forallb (fun c => all_bytes p (escape_byte mode c)) all_ascii = true -> all_bytes p (escape mode s) = true.
Proof.
  intros H. induction s as [|c s IH]; [done|]. cbn [escape]. rewrite all_bytes_app, IH, andb_true_r.
  by apply (by_bytes _ H c).
Qed.

Lemma code_range c : 0 <= code c < 256.
Proof. unfold code. pose proof (nat_ascii_bounded c). lia. Qed.

Lemma byte_code c : byte (code c) = c.
Proof. unfold byte, code. rewrite Nat2Z.id. apply ascii_nat_embedding. Qed.

Lemma unhex_upperhex n : 0 <= n < 16 -> digit_in 16 (upperhex n) = Some n.
Proof.
  intros H. assert (Hn : In n (map Z.of_nat (seq 0 16))).
  { apply in_map_iff. exists (Z.to_nat n). split; [lia|]. apply in_seq. lia. }
  clear H. revert n Hn. apply (proj1 (List.Forall_forall (fun n => digit_in 16 (upperhex n) = Some n) _)). repeat constructor.
Qed.

(** The bytes a host name may hold once decoded. *)
Definition host_byte (c : ascii) : bool := (128 <=? code c) || negb (shouldEscape c encodeHost) || Ascii.eqb c "%".

Lemma unescape_escape mode s :
  (is_host mode = true -> all_bytes host_byte s = true) -> unescape mode (escape mode s) = Some s.
Proof.
  induction s as [|c s IH]; intros Hs; [done|].
  assert (IH' : unescape mode (escape mode s) = Some s).
  { apply IH. intros Hm. specialize (Hs Hm). rewrite all_bytes_cons, andb_true_iff in Hs. by destruct Hs. }
  assert (Hc : is_host mode = true -> host_byte c = true).
  { intros Hm. specialize (Hs Hm). rewrite all_bytes_cons, andb_true_iff in Hs. by destruct Hs. }
  clear Hs IH. cbn [escape]. unfold escape_byte. destruct (shouldEscape c mode) eqn:E.
  - destruct (is_query mode && Ascii.eqb c " ") eqn:Eq.
    { apply andb_true_iff in Eq as [Em Ec]. destruct mode; try done. apply Ascii.eqb_eq in Ec as ->.
      rewrite Ascii.eqb_refl, str_app_cons, str_app_nil_l. cbn [unescape]. by rewrite IH'. }
    assert (Hesc : (match mode, Ascii.eqb c " " with encodeQueryComponent, true => "+" | _, _ =>
               String "%" (String (upperhex (code c / 16)) (String (upperhex (code c mod 16)) "")) end)
            = String "%" (String (upperhex (code c / 16)) (String (upperhex (code c mod 16)) ""))).
    { destruct mode; try done. cbn in Eq. by rewrite Eq. }
    rewrite Hesc, !str_app_cons, str_app_nil_l. pose proof (code_range c) as Hr. cbn [unescape]. rewrite Ascii.eqb_refl.
    rewrite !unhex_upperhex by (apply Z.mod_pos_bound || (split; [apply Z.div_pos|apply Z.div_lt_upper_bound]); lia).
    replace (16 * (code c / 16) + code c mod 16) with (code c) by (apply Z.div_mod; lia). rewrite byte_code, IH'.
    destruct (is_host mode) eqn:Em; [|done]. specialize (Hc eq_refl). destruct mode; try done.
    unfold host_byte in Hc. rewrite E, orb_false_r in Hc. apply orb_true_iff in Hc as [Hc|Hc].
    + apply Z.leb_le in Hc. assert (8 <= code c / 16) by (apply Z.div_le_lower_bound; lia).
      by rewrite (proj2 (Z.ltb_ge _ 8)).
    + by apply Ascii.eqb_eq in Hc as ->.
  - rewrite str_app_cons, str_app_nil_l. cbn [unescape]. assert (Hp : Ascii.eqb c "%" = false).
    { destruct (Ascii.eqb_spec c "%") as [->|]; [|done]. by destruct mode. }
    rewrite Hp, IH', E, andb_false_r. destruct (Ascii.eqb_spec c "+") as [->|]; [|done]. by destruct mode.
Qed.

(** ** Hosts *)

Lemma unescape_other mode c r :
  c <> "%"%char -> c <> "+"%char -> shouldEscape c encodeHost = false ->
  unescape mode (String c r) = String c <$> unescape mode r.
Proof.
  intros H1 H2 H3. cbn [unescape]. rewrite (proj2 (Ascii.eqb_neq _ _) H1), (proj2 (Ascii.eqb_neq _ _) H2).
  destruct (is_host mode) eqn:E; [|done]. destruct mode; try done. rewrite H3. by rewrite andb_false_r.
Qed.

(** Decoding stays on either side of a byte that is no part of an escape. *)
Lemma unescape_split mode c a b h :
  c <> "%"%char -> c <> "+"%char -> shouldEscape c encodeHost = false -> digit_in 16 c = None ->
  unescape mode (a ++ String c b) = Some h ->
  exists x y, unescape mode a = Some x /\ unescape mode b = Some y /\ h = x ++ String c y.
Proof.
  intros H1 H2 H3 H4. revert h. remember (length a) as n eqn:Hn. revert a Hn.
  induction n as [n IH] using lt_wf_ind. intros a Hn h. destruct a as [|d a].
  { rewrite str_app_nil_l, unescape_other by done. destruct (unescape mode b) as [y|]; [|done]. intros [= <-].
    by exists "", y. }
  cbn in Hn. rewrite str_app_cons. cbn [unescape]. destruct (Ascii.eqb d "%").
  - destruct a as [|e [|f a]].
    + sapp. destruct b; [done|]. by rewrite H4.
    + sapp. rewrite H4. by destruct (digit_in 16 e).
    + rewrite !str_app_cons. destruct (digit_in 16 e), (digit_in 16 f); try done. destruct (_ && _ && _); [done|].
      destruct (unescape mode (a ++ String c b)) as [h'|] eqn:E; [|done]. intros [= <-].
      apply (IH (length a)) in E as (x & y & Hx & Hy & ->); [|cbn in Hn; lia|done].
      rewrite Hx. by eexists _, y.
  - assert (Hrec : forall k, k <$> unescape mode (a ++ String c b) = Some h ->
              (forall x y, k (x ++ y) = k x ++ y) ->
              exists x y, k <$> unescape mode a = Some x /\ unescape mode b = Some y /\ h = x ++ String c y).
    { intros k. destruct (unescape mode (a ++ String c b)) as [h'|] eqn:E; [|done]. intros [= <-] Hk.
      apply (IH (length a)) in E as (x & y & -> & Hy & ->); [|lia|done]. exists (k x), y. by rewrite Hk. }
    destruct (Ascii.eqb d "+"); [intros H; by apply Hrec|].
    destruct (_ && _ && _); [done|]. intros H. by apply Hrec.
Qed.

Lemma hex_range z d : digit_in 16 z = Some d -> 0 <= d < 16.
Proof.
  unfold digit_in. set (n := Z.of_nat (nat_of_ascii z)). assert (0 <= n) by lia.
  destruct ((48 <=? n) && (n <=? 57)) eqn:Q1; [|destruct ((97 <=? n) && (n <=? 122)) eqn:Q2;
    [|destruct ((65 <=? n) && (n <=? 90)) eqn:Q3; [|done]]]; destruct (_ <? 16) eqn:Q; try done; intros [= <-]; lia.
Qed.

(** What is decoded in a host holds host bytes only, and no byte that was not
    there, above ASCII and the per cent sign apart. *)
Lemma unescape_host_bytes (p : ascii -> bool) s h :
  (forall c, (128 <=? code c) = true -> p c = true) -> p "%"%char = true ->
  all_bytes p s = true -> unescape encodeHost s = Some h -> all_bytes p h = true /\ all_bytes host_byte h = true.
Proof.
  intros Hhigh Hpct. revert h. remember (length s) as n eqn:Hn. revert s Hn.
  induction n as [n IH] using lt_wf_ind. intros s Hn h. destruct s as [|c s]; [by intros _ [= <-]|].
  cbn in Hn. rewrite all_bytes_cons, andb_true_iff. intros [Hc Hs]. cbn [unescape is_host is_query].
  destruct (Ascii.eqb_spec c "%") as [->|Hne].
  - destruct s as [|a [|b s]]; try done. rewrite !all_bytes_cons, !andb_true_iff in Hs.
    destruct (digit_in 16 a) as [x|] eqn:Ea, (digit_in 16 b) as [y|] eqn:Eb; try done.
    destruct (true && (x <? 8) && _) eqn:E8; [done|].
    destruct (unescape encodeHost s) as [h'|] eqn:E; [|done]. intros [= <-].
    apply (IH (length s)) in E as [H1 H2]; [|cbn in Hn; lia|done|by destruct Hs as (_ & _ & ?)].
    rewrite !all_bytes_cons, H1, H2, !andb_true_r.
    pose proof (hex_range _ _ Ea). pose proof (hex_range _ _ Eb).
    destruct (x <? 8) eqn:Ex; cbn [andb] in E8.
    + apply negb_false_iff, andb_true_iff in E8 as [->%Z.eqb_eq ->%Z.eqb_eq].
      replace (byte (16 * 2 + 5)) with "%"%char by reflexivity. by rewrite Hpct.
    + apply Z.ltb_ge in Ex. assert (Hk : (128 <=? code (byte (16 * x + y))) = true).
      { unfold code, byte. rewrite nat_ascii_embedding by lia. apply Z.leb_le. lia. }
      rewrite (Hhigh _ Hk). unfold host_byte. by rewrite Hk.
  - destruct (Ascii.eqb_spec c "+") as [->|].
    + destruct (unescape encodeHost s) as [h'|] eqn:E; [|done]. intros [= <-].
      apply (IH (length s)) in E as [H1 H2]; [|lia|done..]. by rewrite !all_bytes_cons, Hc, H1, H2.
    + cbn [andb]. destruct (_ && _) eqn:Eb; [done|].
      destruct (unescape encodeHost s) as [h'|] eqn:E; [|done]. intros [= <-].
      apply (IH (length s)) in E as [H1 H2]; [|lia|done..]. rewrite !all_bytes_cons, Hc, H1, H2, andb_true_r. split; [done|].
      unfold host_byte. apply andb_false_iff in Eb as [Eb|Eb]; [|by rewrite Eb, orb_true_r].
      apply Z.ltb_ge in Eb. by rewrite (proj2 (Z.leb_le 128 _) Eb).
Qed.

Lemma unescape_digits mode p : all_bytes is_digit p = true -> unescape mode p = Some p.
Proof.
  induction p as [|c p IH]; [done|]. rewrite all_bytes_cons, andb_true_iff. intros [Hc Hp].
  assert (Hd : shouldEscape c encodeHost = false) by (unfold shouldEscape, alnum; by rewrite Hc, orb_true_r).
  rewrite unescape_other; [by rewrite IH| | |done]; by intros ->.
Qed.

Lemma escape_digits mode p : all_bytes is_digit p = true -> escape mode p = p.
Proof.
  induction p as [|c p IH]; [done|]. rewrite all_bytes_cons, andb_true_iff. intros [Hc Hp]. cbn [escape].
  unfold escape_byte, shouldEscape, alnum. by rewrite Hc, orb_true_r, IH.
Qed.

Lemma digits_lack_colon p : all_bytes is_digit p = true -> lacks ":" p.
Proof. apply all_bytes_weaken. apply by_bytes_if. vm_compute. reflexivity. Qed.

(** ** Schemes *)

Fixpoint smap (f : ascii -> ascii) (s : string) : string :=
  match s with EmptyString => "" | String c r => String (f c) (smap f r) end.

Lemma ToLower_scheme s : all_bytes scheme_byte s = true -> ToLower s = smap lower_ascii s.
Proof.
  unfold ToLower. induction s as [|c s IH]; [done|]. rewrite all_bytes_cons, andb_true_iff. intros [Hc Hs].
  cbn [length to_lower_fuel smap]. assert (Hn : c <> "226"%char /\ c <> "196"%char) by (split; intros ->; done).
  destruct Hn as [H1 H2]. cbn [bytes fold_right strip_prefix].
  rewrite (proj2 (Ascii.eqb_neq _ c)) by (intros E; apply H1; rewrite <- E; done).
  rewrite (proj2 (Ascii.eqb_neq _ c)) by (intros E; apply H2; rewrite <- E; done).
  by rewrite IH.
Qed.

(** A scheme as [Parse] leaves it. *)
Definition scheme_ok (s : string) : Prop :=
  all_bytes scheme_byte s = true /\ (match s with String a _ => is_letter a = true | EmptyString => False end) /\
  ToLower s = s.

Lemma smap_lower_bytes s : all_bytes scheme_byte s = true -> all_bytes scheme_byte (smap lower_ascii s) = true.
Proof.
  induction s as [|c s IH]; [done|]. cbn [smap]. rewrite !all_bytes_cons, !andb_true_iff. intros [Hc Hs].
  split; [|by apply IH]. revert c Hc. apply by_bytes_if. vm_compute. reflexivity.
Qed.

Lemma smap_lower_idem s : smap lower_ascii (smap lower_ascii s) = smap lower_ascii s.
Proof.
  induction s as [|c s IH]; [done|]. cbn [smap]. rewrite IH. f_equal.
  assert (H : Ascii.eqb (lower_ascii (lower_ascii c)) (lower_ascii c) = true).
  { apply (by_bytes (fun c => Ascii.eqb (lower_ascii (lower_ascii c)) (lower_ascii c))). vm_compute. reflexivity. }
  by apply Ascii.eqb_eq in H.
Qed.

Lemma span_spec p s : all_bytes p (span p s).1 = true /\ s = (span p s).1 ++ (span p s).2.
Proof.
  induction s as [|c s IH]; [done|]. cbn [span]. destruct (p c) eqn:E; [|done]. cbn [fst snd].
  rewrite all_bytes_cons, E. destruct IH as [H1 H2]. split; [done|]. rewrite str_app_cons. by rewrite <- H2.
Qed.

Lemma span_app p s c r : all_bytes p s = true -> p c = false -> span p (s ++ String c r) = (s, String c r).
Proof.
  intros Hs Hc. induction s as [|x s IH]; [rewrite str_app_nil_l; cbn [span]; by rewrite Hc|].
  rewrite all_bytes_cons, andb_true_iff in Hs. destruct Hs as [Hx Hs]. rewrite str_app_cons. cbn [span].
  by rewrite Hx, IH.
Qed.

Lemma getScheme_ok raw sch rest :
  getScheme raw = Some (sch, rest) -> sch <> "" -> scheme_ok (ToLower sch).
Proof.
  unfold getScheme. destruct (span_spec scheme_byte raw) as [Hs _]. set (q := span scheme_byte raw) in *.
  destruct q.2 as [|c r]; [by intros [= <- _]|]. destruct (Ascii.eqb c ":"); [|by intros [= <- _]].
  destruct q.1 as [|a s] eqn:Eq; [done|]. destruct (is_letter a) eqn:Ea; [|by intros [= <- _]].
  intros [= <- _] _. pose proof (smap_lower_bytes _ Hs) as Hl.
  rewrite ToLower_scheme by done. split; [done|]. split; [|by rewrite ToLower_scheme, smap_lower_idem].
  cbn [smap]. clear - Ea. revert a Ea. apply by_bytes_if. vm_compute. reflexivity.
Qed.

Lemma getScheme_app s rest : scheme_ok s -> getScheme (s ++ String ":" rest) = Some (s, rest).
Proof.
  intros (Hs & Ha & _). unfold getScheme. rewrite span_app by done. cbn [fst snd]. rewrite Ascii.eqb_refl.
  destruct s as [|a s]; [done|]. by rewrite Ha.
Qed.

(** ** Writing a URL and reading it back *)

Definition port_ok (strict : bool) (host : string) : Prop :=
  match (if strict then cut host ":" else cut_last host ":") with
  | Some (_, p) => all_bytes is_digit p = true
  | None => True
  end.

Definition rooted (p : string) : Prop := p = "" \/ exists q, p = String "/" q.

(** An absolute URL as [Parse] leaves it, its host no IP literal. *)
Record absolute (strictColons : string -> bool) (u : URL) : Prop := {
  ab_scheme : scheme_ok (Scheme u);
  ab_opaque : Opaque u = "" /\ OmitHost u = false;
  ab_host : Host u <> "" /\ all_bytes host_byte (Host u) = true /\ lacks "[" (Host u);
  ab_port : port_ok (strictColons (Scheme u)) (Host u);
  ab_path : rooted (Path u) /\ rooted (RawPath u) /\ (Path u = "" -> RawPath u = "");
  ab_force : ForceQuery u = true -> RawQuery u = "" }.

(** A byte that can stand anywhere in front of the fragment. *)
Definition plain_byte (c : ascii) : bool := negb (ctl_byte c) && negb (Ascii.eqb c "#").

Lemma validEncoded_plain s : validEncoded s = true -> all_bytes (fun c => plain_byte c && negb (Ascii.eqb c "?")) s = true.
Proof. apply all_bytes_weaken. apply by_bytes_if. vm_compute. reflexivity. Qed.

Lemma rooted_escape s : rooted s -> rooted (escape encodePath s).
Proof. intros [->|(q & ->)]; [by left|]. right. exists (escape encodePath q). done. Qed.

(** The path as it is written. *)
Lemma EscapedPath_spec u :
  rooted (Path u) -> rooted (RawPath u) -> (Path u = "" -> RawPath u = "") ->
  rooted (EscapedPath u) /\ unescape encodePath (EscapedPath u) = Some (Path u) /\
  all_bytes (fun c => plain_byte c && negb (Ascii.eqb c "?")) (EscapedPath u) = true /\
  (EscapedPath u = "" -> Path u = "").
Proof.
  intros H1 H2 H3. assert (Hesc : rooted (escape encodePath (Path u)) /\
    unescape encodePath (escape encodePath (Path u)) = Some (Path u) /\
    all_bytes (fun c => plain_byte c && negb (Ascii.eqb c "?")) (escape encodePath (Path u)) = true /\
    (escape encodePath (Path u) = "" -> Path u = "")).
  { split; [by apply rooted_escape|]. split; [by apply unescape_escape|]. split.
    - apply escape_bytes. vm_compute. reflexivity.
    - destruct H1 as [->|(q & ->)]; [done|]. done. }
  unfold EscapedPath. destruct (negb _ && _ && _) eqn:E.
  - rewrite !andb_true_iff, bool_decide_eq_true in E. destruct E as [[En Ev] Eu].
    split; [done|]. split; [done|]. split; [by apply validEncoded_plain|].
    intros Hr. rewrite Hr in En. done.
  - destruct (String.eqb_spec (Path u) "*") as [Es|_]; [|done].
    destruct H1 as [H1|(q & H1)]; rewrite H1 in Es; done.
Qed.

Lemma URL_String_absolute strict u :
  absolute strict u ->
  URL_String u = Scheme u ++ ":" ++ "//" ++ match User u with Some ui => userinfo_text ui ++ "@" | None => "" end ++
    escape encodeHost (Host u) ++ EscapedPath u ++
    (if ForceQuery u || negb (String.eqb (RawQuery u) "") then "?" ++ RawQuery u else "").
Proof.
  intros [(_ & Hs & _) [Ho Hm] (Hh & _) _ (Hp & Hr & Hpr) _]. unfold URL_String.
  destruct (EscapedPath_spec u Hp Hr Hpr) as (Hroot & _).
  assert (Es : String.eqb (Scheme u) "" = false) by (by destruct (Scheme u)).
  assert (Eh : String.eqb (Host u) "" = false) by (by destruct (Host u)).
  rewrite Es, Eh, Ho, Hm, String.eqb_refl. cbn [andb negb].
  assert (Esl : (if negb (String.eqb (EscapedPath u) "") && negb (HasPrefix (EscapedPath u) "/") && true
                 then "/" else "") = "").
  { destruct Hroot as [->|(q & ->)]; [done|]. cbn. done. }
  rewrite Esl. assert (Ed : String.eqb ((Scheme u ++ ":") ++ ("//" ++
     match User u with Some ui => userinfo_text ui ++ "@" | None => "" end ++ escape encodeHost (Host u)) ++ "") "" = false).
  { by destruct (Scheme u). }
  rewrite Ed. cbn [andb]. by rewrite !str_app_nil_l, !str_app_assoc.
Qed.

Lemma userinfo_bytes ui :
  all_bytes (fun c => plain_byte c && negb (one_of "/?" c)) (userinfo_text ui) = true /\ validUserinfo (userinfo_text ui) = true.
Proof.
  unfold userinfo_text, validUserinfo. destruct ui as [n [p|]]; cbn [fst snd];
    rewrite ?all_bytes_app, ?str_app_nil_r, !escape_bytes by (vm_compute; reflexivity); done.
Qed.

Lemma userinfo_read ui :
  match cut (userinfo_text ui) ":" with
  | None => name ← unescape encodeUserPassword (userinfo_text ui); Some (name, None)
  | Some (n, p) =>
      name ← unescape encodeUserPassword n; pass ← unescape encodeUserPassword p; Some (name, Some pass)
  end = Some ui.
Proof.
  assert (Hl : forall s, lacks ":" (escape encodeUserPassword s)).
  { intros s. apply escape_bytes. vm_compute. reflexivity. }
  unfold userinfo_text. destruct ui as [n [p|]]; cbn [fst snd].
  - change (":" ++ escape encodeUserPassword p) with (String ":" (escape encodeUserPassword p)).
    rewrite cut_app by done. rewrite !unescape_escape by done. done.
  - rewrite str_app_nil_r, (proj2 (cut_lacks _ _)) by done. rewrite unescape_escape by done. done.
Qed.

Lemma escape_host_lacks c s :
  forallb (fun x => implb (negb (Ascii.eqb x c)) (all_bytes (fun y => negb (Ascii.eqb y c)) (escape_byte encodeHost x))) all_ascii = true ->
  lacks c s -> lacks c (escape encodeHost s).
Proof.
  intros H Hs. induction s as [|x s IH]; [done|]. apply lacks_cons in Hs as [Hx Hs]. cbn [escape]. apply lacks_app.
  split; [|by apply IH]. apply (by_bytes_if _ _ H). by rewrite (proj2 (Ascii.eqb_neq _ _) Hx).
Qed.

Lemma escape_colon a b : escape encodeHost (a ++ String ":" b) = escape encodeHost a ++ String ":" (escape encodeHost b).
Proof. by rewrite escape_app. Qed.

Lemma port_ok_escape strict h : port_ok strict h -> port_ok strict (escape encodeHost h).
Proof.
  assert (Hl : forall s, lacks ":" s -> lacks ":" (escape encodeHost s)) by (intros s; apply escape_host_lacks; vm_compute; reflexivity).
  unfold port_ok. destruct strict.
  - destruct (cut h ":") as [[a p]|] eqn:E.
    + apply cut_Some in E as [-> Ha]. intros Hp. rewrite escape_colon, cut_app by auto. by rewrite escape_digits.
    + apply cut_lacks in E. intros _. by rewrite (proj2 (cut_lacks _ _)) by auto.
  - destruct (cut_last h ":") as [[a p]|] eqn:E.
    + apply cut_last_Some in E as [-> Ha]. intros Hp. rewrite escape_colon, cut_last_app by auto. by rewrite escape_digits.
    + apply cut_last_lacks in E. intros _. by rewrite (proj2 (cut_last_lacks _ _)) by auto.
Qed.

Lemma substring_rest x : substring 2 (length ("//" ++ x) - 2) ("//" ++ x) = x.
Proof.
  change ("//" ++ x) with (String "/" (String "/" x)). cbn [length Nat.sub substring]. rewrite Nat.sub_0_r.
  induction x as [|c x IH]; [done|]. cbn. by rewrite IH.
Qed.

Definition query_part (force : bool) (q : string) : string :=
  if force || negb (String.eqb q "") then "?" ++ q else "".

Lemma cut_query force q rest :
  lacks "?" rest -> (force = true -> q = "") ->
  match cut (rest ++ query_part force q) "?" with
  | Some (a, "") => (true, a, "") | Some (a, b) => (false, a, b)
  | None => (false, rest ++ query_part force q, "")
  end = (force, rest, q).
Proof.
  intros Hr Hf. unfold query_part. destruct force; cbn [orb].
  - rewrite Hf by done. change ("?" ++ "") with (String "?" ""). by rewrite cut_app.
  - destruct q as [|c r]; cbn [negb String.eqb].
    + rewrite str_app_nil_r, (proj2 (cut_lacks _ _)) by done. done.
    + change ("?" ++ String c r) with (String "?" (String c r)). by rewrite cut_app.
Qed.

Lemma cut_path a p :
  lacks "/" a -> rooted p ->
  match cut (a ++ p) "/" with Some (x, y) => (x, String "/" y) | None => (a ++ p, "") end = (a, p).
Proof.
  intros Ha [->|(r & ->)].
  - rewrite str_app_nil_r, (proj2 (cut_lacks _ _)) by done. done.
  - by rewrite cut_app.
Qed.

(** The user and the host as they are written. *)
Definition authority_text (user : option (string * option string)) (host : string) : string :=
  match user with Some ui => userinfo_text ui ++ "@" | None => "" end ++ escape encodeHost host.

Lemma authority_bytes user host :
  all_bytes (fun c => plain_byte c && negb (one_of "/?" c)) (authority_text user host) = true.
Proof.
  unfold authority_text. rewrite all_bytes_app, escape_bytes, andb_true_r by (vm_compute; reflexivity).
  destruct user as [ui|]; [|done]. rewrite all_bytes_app. by rewrite (proj1 (userinfo_bytes ui)).
Qed.

Lemma written_plain strict u :
  absolute strict u -> all_bytes plain_byte (RawQuery u) = true -> all_bytes plain_byte (URL_String u) = true.
Proof.
  intros Hu Hq. rewrite (URL_String_absolute _ _ Hu). destruct Hu as [(Hs & _) _ _ _ (Hp1 & Hp2 & Hp3) _].
  destruct (EscapedPath_spec u Hp1 Hp2 Hp3) as (_ & _ & Hplain & _).
  pose proof (authority_bytes (User u) (Host u)) as Ha. unfold authority_text in Ha.
  assert (Hw : forall q s, all_bytes (fun c => plain_byte c && q c) s = true -> all_bytes plain_byte s = true).
  { intros q s. apply all_bytes_weaken. intros c. by rewrite andb_true_iff; intros [? _]. }
  apply Hw in Ha, Hplain. rewrite all_bytes_app, andb_true_iff in Ha. destruct Ha as [Ha1 Ha2].
  assert (Hsp : all_bytes plain_byte (Scheme u) = true).
  { revert Hs. apply all_bytes_weaken, by_bytes_if. vm_compute. reflexivity. }
  rewrite !all_bytes_app, Hsp, Ha1, Ha2, Hplain. destruct (_ || _); [|done]. by rewrite str_app_cons, all_bytes_cons.
Qed.

Section reading.
Context (parseIPLiteral : string -> option string) (strictColons : string -> bool).

Lemma parseHost_escape scheme h :
  all_bytes host_byte h = true -> lacks "[" h -> port_ok (strictColons scheme) h ->
  parseHost parseIPLiteral strictColons scheme (escape encodeHost h) = Some h.
Proof.
  intros Hb Hl Hp. unfold parseHost.
  rewrite (proj2 (contains_lacks _ _)) by (apply escape_host_lacks; [vm_compute; reflexivity|done]).
  apply port_ok_escape in Hp. unfold port_ok in Hp.
  destruct (if strictColons scheme then _ else _) as [[a p]|]; rewrite ?Hp; by apply unescape_escape.
Qed.

Lemma parseHost_spec scheme host h :
  (forall s h, parseIPLiteral s = Some h -> HasPrefix h "[" = true) ->
  parseHost parseIPLiteral strictColons scheme host = Some h -> lacks "[" h ->
  all_bytes host_byte h = true /\ port_ok (strictColons scheme) h.
Proof.
  intros Hip. unfold parseHost. destruct (contains host "[").
  { intros Hh%Hip Hl. apply HasPrefix_app in Hh as (r & ->). by apply lacks_cons in Hl as [? _]. }
  intros H _. assert (Hdec : forall s x, unescape encodeHost s = Some x -> lacks ":" s -> lacks ":" x).
  { intros s x Hx Hs. refine (proj1 (unescape_host_bytes _ s x _ _ Hs Hx)); [|reflexivity].
    apply by_bytes_if. vm_compute. reflexivity. }
  assert (Hbytes : forall s x, unescape encodeHost s = Some x -> all_bytes host_byte x = true).
  { intros s x Hx. refine (proj2 (unescape_host_bytes (fun _ => true) s x _ _ _ Hx)); [done..|].
    unfold all_bytes. by apply forallb_forall. }
  destruct (if strictColons scheme then _ else _) as [[a p]|] eqn:E.
  - destruct (all_bytes is_digit p) eqn:Hp; [|done]. split; [by eapply Hbytes|]. unfold port_ok.
    assert (Es : host = a ++ String ":" p /\ (strictColons scheme = true -> lacks ":" a)).
    { destruct (strictColons scheme); [by apply cut_Some in E as [-> ?]|by apply cut_last_Some in E as [-> _]]. }
    destruct Es as [-> Ha]. apply unescape_split in H as (x & y & Hx & Hy & ->); [|done..].
    rewrite unescape_digits in Hy by done. injection Hy as <-. destruct (strictColons scheme).
    + rewrite cut_app; [done|]. by eapply Hdec; [|apply Ha].
    + by rewrite cut_last_app by (by apply digits_lack_colon).
  - split; [by eapply Hbytes|]. assert (Hl : lacks ":" h).
    { eapply Hdec; [exact H|]. destruct (strictColons scheme); [by apply cut_lacks|by apply cut_last_lacks]. }
    unfold port_ok. by destruct (strictColons scheme); [rewrite (proj2 (cut_lacks _ _))|rewrite (proj2 (cut_last_lacks _ _))].
Qed.

Lemma setPath_spec p path rp :
  rooted p -> setPath p = Some (path, rp) -> rooted path /\ rooted rp /\ (path = "" -> rp = "").
Proof.
  unfold setPath. intros Hp. destruct (unescape encodePath p) as [x|] eqn:E; [|done]. cbn. intros [= <- <-].
  destruct Hp as [->|(q & ->)].
  - cbn in E. injection E as <-. split; [by left|]. split; [by left|]. done.
  - change (String "/" <$> unescape encodePath q = Some x) in E. destruct (unescape encodePath q) as [y|]; [|done]. injection E as <-.
    split; [by right; exists y|]. split; [|done]. destruct (String.eqb _ _); [by left|]. by right; exists q.
Qed.

Lemma parse_absolute raw u :
  (forall s h, parseIPLiteral s = Some h -> HasPrefix h "[" = true) ->
  parse parseIPLiteral strictColons raw = Some u -> Scheme u <> "" -> Host u <> "" -> lacks "[" (Host u) ->
  absolute strictColons u.
Proof.
  intros Hip. unfold parse. destruct (negb _); [done|]. destruct (String.eqb raw "*"); [by intros [= <-]|].
  destruct (getScheme raw) as [[sch rest0]|] eqn:Eg; [|done]. cbn [mbind option_bind].
  set (q := match cut rest0 "?" with Some (a, "") => (true, a, "") | Some (a, b) => (false, a, b) | None => (false, rest0, "") end).
  assert (Hforce : q.1.1 = true -> q.2 = "") by (unfold q; by destruct (cut rest0 "?") as [[a [|c b]]|]).
  destruct q as [[force rest] query]. cbn [fst snd] in Hforce.
  destruct (_ && negb (String.eqb (ToLower sch) "")); [by intros [= <-]|]. destruct (_ && contains _ _); [done|].
  destruct (_ && HasPrefix rest "//").
  - set (ap := match cut (substring 2 (length rest - 2) rest) "/" with Some (a, p) => (a, String "/" p) | None => _ end).
    assert (Hroot : rooted ap.2).
    { unfold ap. destruct (cut _ "/") as [[a p]|]; [by right; exists p|by left]. }
    destruct ap as [authority path]. cbn [snd] in Hroot.
    destruct (parseAuthority _ _ (ToLower sch) authority) as [[user host]|] eqn:Ea; [|done]. cbn [mbind option_bind].
    destruct (setPath path) as [[p rp]|] eqn:Ep; [|done]. cbn. intros [= <-] Hs Hh Hl. cbn in Hs, Hh, Hl.
    apply setPath_spec in Ep; [|done].
    assert (Hsch : scheme_ok (ToLower sch)) by (eapply getScheme_ok; [exact Eg|by intros ->]).
    assert (Hhost : exists raw_host, parseHost parseIPLiteral strictColons (ToLower sch) raw_host = Some host).
    { unfold parseAuthority in Ea. destruct (cut_last authority "@") as [[ui r]|].
      - destruct (parseHost _ _ _ r) as [h|] eqn:Eh; [|done]. exists r. rewrite Eh. f_equal. cbn in Ea.
        destruct (negb _); [done|]. destruct (cut ui ":") as [[n pw]|]; by simplify_option_eq.
      - destruct (parseHost _ _ _ authority) as [h|] eqn:Eh; [|done]. exists authority. cbn in Ea. by simplify_eq. }
    destruct Hhost as (rh & Hrh). apply parseHost_spec in Hrh as [Hb Hp]; [|done..]. by split.
  - destruct (setPath rest) as [[p rp]|]; [|done]. cbn. by intros [= <-].
Qed.

Lemma Parse_absolute raw u :
  (forall s h, parseIPLiteral s = Some h -> HasPrefix h "[" = true) ->
  Parse parseIPLiteral strictColons raw = Some u -> Scheme u <> "" -> Host u <> "" -> lacks "[" (Host u) ->
  absolute strictColons u.
Proof.
  intros Hip. unfold Parse. destruct (cut raw "#") as [[r f]|]; [|by apply parse_absolute].
  destruct (parse _ _ r) as [u'|] eqn:E; [|done]. cbn. destruct (unescape encodeFragment f); [|done].
  intros [= <-]. by apply (parse_absolute r).
Qed.

Lemma parseAuthority_written scheme user h :
  all_bytes host_byte h = true -> lacks "[" h -> port_ok (strictColons scheme) h ->
  parseAuthority parseIPLiteral strictColons scheme (authority_text user h) = Some (user, h).
Proof.
  intros Hb Hl Hp. unfold parseAuthority, authority_text.
  assert (Hat : lacks "@" (escape encodeHost h)) by (apply escape_bytes; vm_compute; reflexivity).
  destruct user as [ui|].
  - rewrite str_app_assoc. change ("@" ++ escape encodeHost h) with (String "@" (escape encodeHost h)).
    rewrite cut_last_app by done. rewrite parseHost_escape by done. cbn [mbind option_bind].
    rewrite (proj2 (userinfo_bytes ui)). cbn [negb]. pose proof (userinfo_read ui) as Hr.
    destruct (cut (userinfo_text ui) ":") as [[n pw]|]; by simplify_option_eq.
  - rewrite str_app_nil_l, (proj2 (cut_last_lacks _ _)) by done. rewrite parseHost_escape by done. done.
Qed.

Lemma Parse_written u :
  absolute strictColons u -> all_bytes plain_byte (RawQuery u) = true ->
  Parse parseIPLiteral strictColons (URL_String u) =
  Some (MkURL (Scheme u) "" (User u) (Host u) (Path u)
          (if String.eqb (EscapedPath u) (escape encodePath (Path u)) then "" else EscapedPath u)
          false (ForceQuery u) (RawQuery u)).
Proof.
  intros Hu Hq. pose proof (written_plain _ _ Hu Hq) as Hall. pose proof (URL_String_absolute _ _ Hu) as Hs.
  destruct Hu as [Hsch _ (Hh & Hhb & Hhl) Hport (Hp1 & Hp2 & Hp3) Hf].
  destruct (EscapedPath_spec u Hp1 Hp2 Hp3) as (Hroot & Hun & Hplain & Hnil). set (P := EscapedPath u) in *.
  pose proof (authority_bytes (User u) (Host u)) as Hauth. set (auth := authority_text (User u) (Host u)) in *.
  assert (Hcut : cut (URL_String u) "#" = None).
  { apply cut_lacks. revert Hall. apply all_bytes_weaken, by_bytes_if. vm_compute. reflexivity. }
  assert (Hctl : all_bytes (fun c => negb (ctl_byte c)) (URL_String u) = true).
  { revert Hall. apply all_bytes_weaken, by_bytes_if. vm_compute. reflexivity. }
  assert (Hshape : URL_String u = Scheme u ++ String ":" (("//" ++ auth ++ P) ++ query_part (ForceQuery u) (RawQuery u))).
  { rewrite Hs. unfold auth, authority_text, query_part. by rewrite !str_app_assoc. }
  assert (Hstar : String.eqb (URL_String u) "*" = false).
  { rewrite Hshape. destruct Hsch as (_ & Ha & _). destruct (Scheme u) as [|a s]; [done|].
    rewrite str_app_cons. cbn. by destruct (Ascii.eqb_spec a "*") as [->|]. }
  unfold Parse. rewrite Hcut. unfold parse. rewrite Hctl, Hstar. cbn [negb].
  rewrite Hshape, getScheme_app by done. cbn [mbind option_bind]. rewrite (proj2 (proj2 Hsch)).
  assert (Hnoq : lacks "?" ("//" ++ auth ++ P)).
  { rewrite !lacks_app. split; [done|]. split; [revert Hauth|revert Hplain];
      apply all_bytes_weaken, by_bytes_if; vm_compute; reflexivity. }
  rewrite cut_query by done.
  assert (Esch : String.eqb (Scheme u) "" = false) by (destruct Hsch as (_ & ? & _); by destruct (Scheme u)).
  rewrite Esch. change (HasPrefix ("//" ++ auth ++ P) "/") with true. cbn [negb andb orb].
  change (HasPrefix ("//" ++ auth ++ P) "//") with true. cbn [andb orb].
  rewrite substring_rest, cut_path; [|revert Hauth; apply all_bytes_weaken, by_bytes_if; vm_compute; reflexivity|done].
  unfold auth. rewrite parseAuthority_written by done. cbn [mbind option_bind]. unfold setPath. by rewrite Hun.
Qed.

End reading.
