(* ===== verification/Sanitize.v ===== *)
(** * The HTML sanitizer: internal/sanitize/sanitize.go

    The tokenizer, the attribute parser and the renderer of the allowlist, on
    byte strings; that whatever it is given, the output is a well-nested
    document of the allowlist; and that sanitizing again changes nothing. *)

From S2P Require Import Prelude GoStrings.
From Stdlib Require Import String Ascii.
Local Open Scope string_scope.
Local Abbreviation length := String.length.

(** ** Tokens *)

Definition allowedTags : list string :=
  ["p"; "em"; "strong"; "a"; "ul"; "ol"; "li"; "blockquote"; "code"; "br"].
Definition rawTextTags : list string := ["script"; "style"].

Definition allowed (name : string) : bool := bool_decide (name ∈ allowedTags).
Definition raw_text (name : string) : bool := bool_decide (name ∈ rawTextTags).

Inductive tokenKind := tokenText | tokenStartTag | tokenEndTag | tokenSelfClose | tokenComment.

Record token := MkTok { kind : tokenKind; name : string; attrs : gmap string string; text : string }.


Definition text_tok (t : string) : token := MkTok tokenText "" ∅ t.

Definition isSpace (c : ascii) : bool :=
  bool_decide (nat_of_ascii c ∈ [32; 9; 10; 13; 12]%nat).

Definition isNameByte (c : ascii) : bool :=
  in_range 97 122 c || in_range 65 90 c || in_range 48 57 c
  || Ascii.eqb c "-" || Ascii.eqb c ":" || Ascii.eqb c "_".

(** ** Entities *)

Definition namedEntities : list (string * Z) :=
  [("&amp;", 38); ("&lt;", 60); ("&gt;", 62); ("&quot;", 34); ("&apos;", 39)].

(** The rune an entity, from [&] to [;], stands for. *)
Definition entity (ent : string) : option Z :=
  match List.find (fun p => String.eqb p.1 ent) namedEntities with
  | Some p => Some p.2
  | None =>
      match strip_prefix "&#" ent with
      | Some tail =>
          let body := substring 0 (length tail - 1) tail in
          let code := match body with
                      | String c (String _ _ as digits) =>
                          if Ascii.eqb c "x" || Ascii.eqb c "X" then ParseInt32 16 digits
                          else ParseInt32 10 body
                      | _ => ParseInt32 10 body
                      end in
          match code with
          | Some z => if ((0 <? z) && (z <=? 1114111))%Z then Some z else None
          | None => None
          end
      | None => None
      end
  end.

(** The loop; [fuel] bounds the bytes left. *)
Fixpoint decode_from (fuel : nat) (s : string) : string :=
  match fuel, s with
  | S fuel', String c r =>
      if negb (Ascii.eqb c "&") then String c (decode_from fuel' r)
      else match cut s ";" with
           | Some (before, after) =>
               if (12 <? length before)%nat then String c (decode_from fuel' r)
               else match entity (before ++ ";") with
                    | Some code => encode_rune code ++ decode_from fuel' after
                    | None => String c (decode_from fuel' r)
                    end
           | None => String c (decode_from fuel' r)
           end
  | _, _ => EmptyString
  end.

Definition decodeEntities (s : string) : string := decode_from (length s) s.

Definition escapeAttr (s : string) : string :=
  ReplaceAll (ReplaceAll (ReplaceAll (ReplaceAll s "&" "&amp;") dquote "&quot;") "<" "&lt;") ">" "&gt;".

(** ** Links *)

(** The runes above the space; a byte that begins no encoding is U+FFFD. *)
Fixpoint clean (fuel : nat) (s : string) : string :=
  match fuel, s with
  | S fuel', String c r =>
      if (nat_of_ascii c <=? 32)%nat then clean fuel' r
      else if (nat_of_ascii c <? 128)%nat then String c (clean fuel' r)
      else match rune_len s with
           | Some k => substring 0 k s ++ clean fuel' (substring k (length s - k) s)
           | None => rune_error ++ clean fuel' r
           end
  | _, _ => EmptyString
  end.

Definition safeHref (href : string) : option string :=
  let h := TrimSpace href in
  if bool_decide (h = "") then None
  else
    let h := clean (length h) h in
    let lower := ToLower h in
    if HasPrefix lower "http://" then Some h
    else if HasPrefix lower "https://" then Some h
    else None.

(** ** Attributes *)

Definition not_space_eq (c : ascii) : bool := negb (isSpace c) && negb (Ascii.eqb c "=").

(** One attribute value and what follows it. *)
Definition attr_value (s : string) : string * string :=
  match s with
  | String q r =>
      if Ascii.eqb q dquote || Ascii.eqb q "'" then
        let (v, rest) := span (fun c => negb (Ascii.eqb c q)) r in
        (v, match rest with String _ rest' => rest' | EmptyString => EmptyString end)
      else span (fun c => negb (isSpace c)) s
  | EmptyString => (EmptyString, EmptyString)
  end.

Fixpoint parse_attrs_from (fuel : nat) (raw : string) (m : gmap string string) : gmap string string :=
  match fuel with
  | O => m
  | S fuel' =>
      match (span isSpace raw).2 with
      | EmptyString => m
      | String c r as s =>
          let (key, rest) := span not_space_eq s in
          if bool_decide (key = "") then parse_attrs_from fuel' r m
          else
            let key := ToLower key in
            match (span isSpace rest).2 with
            | String "=" after =>
                match (span isSpace after).2 with
                | EmptyString => <[key := ""]> m
                | v => parse_attrs_from fuel' (attr_value v).2 (<[key := decodeEntities (attr_value v).1]> m)
                end
            | rest' => parse_attrs_from fuel' rest' (<[key := ""]> m)
            end
      end
  end.

Definition parseAttrs (raw : string) : gmap string string := parse_attrs_from (length raw) raw ∅.

(** ** The tokenizer *)

(** The rest of a tag, up to a [>] outside quotes: the attribute region and
    what follows the [>]. *)
Fixpoint tag_end (quote : option ascii) (s : string) : option (string * string) :=
  match s with
  | EmptyString => None
  | String c r =>
      let more q := match tag_end q r with Some (x, y) => Some (String c x, y) | None => None end in
      match quote with
      | Some q => more (if Ascii.eqb c q then None else quote)
      | None =>
          if Ascii.eqb c dquote || Ascii.eqb c "'" then more (Some c)
          else if Ascii.eqb c ">" then Some (EmptyString, r)
          else more None
      end
  end.

(** The region without its closing slash, when it has one. *)
Definition self_close (raw : string) : option string :=
  match (span (fun c => bool_decide (nat_of_ascii c ∈ [32; 9; 13; 10]%nat)) (srev raw)).2 with
  | String "/" r => Some (srev r)
  | _ => None
  end.

(** One turn of the loop on [s] that begins with [<]: the tokens it appends,
    and where it goes on; [None] ends the loop. *)
Definition scan_markup (s : string) : list token * option string :=
  if HasPrefix s "<!--" then
    match find_sub "-->" s with
    | None => ([MkTok tokenComment "" ∅ s], None)
    | Some (x, rest) => ([MkTok tokenComment "" ∅ (x ++ "-->")], Some rest)
    end
  else if HasPrefix s "<!" || HasPrefix s "<?" then
    match cut s ">" with
    | None => ([], None)
    | Some (_, rest) => ([], Some rest)
    end
  else
    let after := match s with String _ r => r | EmptyString => EmptyString end in
    let (closing, j) := match after with String "/" r => (true, r) | _ => (false, after) end in
    let (nm, tail) := span isNameByte (span isSpace j).2 in
    if bool_decide (nm = "") then ([text_tok "<"], Some after)
    else
      match tag_end None tail with
      | None => ([text_tok s], None)
      | Some (raw, rest) =>
          let name := ToLower nm in
          let (selfClose, raw) :=
            match self_close raw with Some r => (true, r) | None => (false, raw) end in
          (* The attributes of a closing tag are parsed and dropped. *)
          let tok := if closing : bool then MkTok tokenEndTag name ∅ ""
                     else if selfClose : bool then MkTok tokenSelfClose name (parseAttrs raw) ""
                     else MkTok tokenStartTag name (parseAttrs raw) "" in
          ([tok], Some rest)
      end.

Definition not_lt (c : ascii) : bool := negb (Ascii.eqb c "<").

Definition scan (s : string) : list token * option string :=
  match s with
  | String c _ =>
      if not_lt c then ([text_tok (span not_lt s).1], Some (span not_lt s).2) else scan_markup s
  | EmptyString => ([], None)
  end.

Fixpoint tokenize_from (fuel : nat) (s : string) : list token :=
  match fuel with
  | O => []
  | S fuel' =>
      let (toks, next) := scan s in
      toks ++ match next with Some rest => tokenize_from fuel' rest | None => [] end
  end%list.

Definition tokenize (s : string) : list token := tokenize_from (length s) s.

(** ** The renderer *)

Definition href_attr (h : string) : string :=
  " href=" ++ String dquote (escapeAttr h) ++ String dquote " rel=" ++ String dquote "nofollow noopener"
  ++ String dquote " target=" ++ String dquote "_blank" ++ String dquote "".

Definition renderStartTag (t : token) : string :=
  let attr := if String.eqb (name t) "a" then
                match attrs t !! "href" with
                | Some href => match safeHref href with Some safe => href_attr safe | None => "" end
                | None => ""
                end
              else "" in
  let close := match kind t with
               | tokenSelfClose => " />"
               | _ => if String.eqb (name t) "br" then " />" else ">"
               end in
  "<" ++ name t ++ attr ++ close.

Definition end_tag (n : string) : string := "</" ++ n ++ ">".

(** [openStack], innermost first. [skip] is the raw-text element being
    discarded ([skipTag]), if any. *)
Record render_state := MkRender { openStack : list string; skip : option string }.

(** The tags to close, innermost first, and what stays open. *)
Fixpoint close_to (n : string) (st : list string) : option (list string * list string) :=
  match st with
  | [] => None
  | x :: rest =>
      if String.eqb x n then Some ([x], rest)
      else match close_to n rest with Some (l, r) => Some (x :: l, r) | None => None end
  end.

Definition close_all (l : list string) : string := fold_right (fun n s => end_tag n ++ s) "" l.

(** One token: what is written, and the state after it. *)
Definition render_token (s : render_state) (t : token) : string * render_state :=
  match kind t with
  | tokenComment => ("", s)
  | tokenText =>
      match skip s with Some _ => ("", s) | None => (ReplaceAll (text t) "<" "&lt;", s) end
  | tokenStartTag | tokenSelfClose =>
      match skip s with
      | Some _ => ("", s)
      | None =>
          if raw_text (name t) then
            ("", match kind t with tokenStartTag => MkRender (openStack s) (Some (name t)) | _ => s end)
          else if negb (allowed (name t)) then ("", s)
          else (renderStartTag t,
                match kind t with
                | tokenStartTag =>
                    if String.eqb (name t) "br" then s else MkRender (name t :: openStack s) None
                | _ => s
                end)
      end
  | tokenEndTag =>
      match skip s with
      | Some n => ("", if String.eqb (name t) n then MkRender (openStack s) None else s)
      | None =>
          if raw_text (name t) || negb (allowed (name t)) || String.eqb (name t) "br" then ("", s)
          else match close_to (name t) (openStack s) with
               | Some (l, rest) => (close_all l, MkRender rest None)
               | None => ("", s)
               end
      end
  end.

Fixpoint render_tokens (s : render_state) (l : list token) : string :=
  match l with
  | [] => close_all (openStack s)
  | t :: rest => (render_token s t).1 ++ render_tokens (render_token s t).2 rest
  end.

Definition HTML (s : string) : string := render_tokens (MkRender [] None) (tokenize s).

(** ** What the output is made of *)

(** An absolute web link: no byte up to the space, and the scheme first. *)
Definition safe_link (h : string) : Prop :=
  all_bytes (fun c => negb (nat_of_ascii c <=? 32)%nat) h = true /\
  (HasPrefix (ToLower h) "http://" = true \/ HasPrefix (ToLower h) "https://" = true).

Definition plain_value (c : ascii) : bool :=
  negb (Ascii.eqb c dquote) && negb (Ascii.eqb c "<") && negb (Ascii.eqb c ">").

Definition start_tag (n attr : string) (void : bool) : string :=
  "<" ++ n ++ attr ++ (if void then " />" else ">").

(** The attributes of a tag: none, or on [a] the one link whose quoted value has
    no quote or bracket in it and decodes to an [L]. *)
Definition safe_attr (L : string -> Prop) (n attr : string) : Prop :=
  attr = "" \/
  n = "a" /\ exists h, L h /\ attr = href_attr h /\
    all_bytes plain_value (escapeAttr h) = true /\ decodeEntities (escapeAttr h) = h.

(** An element that can be open. *)
Definition element (n : string) : Prop := allowed n = true /\ n <> "br".

(** [markup L st o st']: with the elements [st] open, innermost first, [o] is
    text without [<] and tags of the allowlist, and leaves [st'] open. *)
Inductive markup (L : string -> Prop) : list string -> string -> list string -> Prop :=
| markup_nil st : markup L st "" st
| markup_text st t o st' : all_bytes not_lt t = true -> markup L st o st' -> markup L st (t ++ o) st'
| markup_open st n attr o st' : element n -> safe_attr L n attr -> markup L (n :: st) o st' ->
    markup L st (start_tag n attr false ++ o) st'
| markup_void st n attr o st' : allowed n = true -> safe_attr L n attr -> markup L st o st' ->
    markup L st (start_tag n attr true ++ o) st'
| markup_close st n o st' : element n -> markup L st o st' -> markup L (n :: st) (end_tag n ++ o) st'.

(** ** Strings *)

Lemma ReplaceAll_app a b c w : ReplaceAll (a ++ b) c w = ReplaceAll a c w ++ ReplaceAll b c w.
Proof. induction a as [|x a IH]; [done|]. sapp. by rewrite IH, str_app_assoc. Qed.

Lemma ReplaceAll_without s c w : all_bytes (fun x => negb (Ascii.eqb x c)) s = true -> ReplaceAll s c w = s.
Proof.
  induction s as [|x s IH]; [done|]. rewrite all_bytes_cons. intros H. bools. cbn [ReplaceAll].
  rewrite IH by done. by destruct (Ascii.eqb x c).
Qed.

Lemma ReplaceAll_gone s c w p :
  all_bytes p w = true -> (forall x, Ascii.eqb x c = false -> p x = true) ->
  all_bytes p (ReplaceAll s c w) = true.
Proof.
  intros Hw Hp. induction s as [|x s IH]; [done|]. cbn [ReplaceAll]. rewrite all_bytes_app, IH, andb_true_r.
  destruct (Ascii.eqb x c) eqn:E; [done|]. rewrite all_bytes_cons, andb_true_r. by apply Hp.
Qed.

Lemma span_run p a b : (span p (a ++ b)) = if all_bytes p a then (a ++ (span p b).1, (span p b).2)
                                           else ((span p a).1, (span p a).2 ++ b).
Proof.
  induction a as [|x a IH]; [rewrite !str_app_nil_l; apply surjective_pairing|]. rewrite str_app_cons. cbn [span]. rewrite all_bytes_cons.
  destruct (p x); cbn [andb]; [|done]. rewrite IH. by destruct (all_bytes p a).
Qed.

Lemma span_length p s : (length (span p s).2 <= length s)%nat.
Proof. induction s as [|x s IH]; [done|]. cbn. destruct (p x); cbn; lia. Qed.

Lemma cut_length s c x y : cut s c = Some (x, y) -> (length y < length s)%nat.
Proof.
  revert x. induction s as [|a s IH]; intros x; [done|]. cbn. destruct (Ascii.eqb a c).
  - intros [= _ ->]. lia.
  - destruct (cut s c) as [[x' y']|] eqn:E; [|done]. intros [= _ <-]. specialize (IH _ eq_refl). lia.
Qed.

Lemma find_sub_length p s x y :
  find_sub p s = Some (x, y) -> (length s = length x + length p + length y)%nat.
Proof.
  revert x. induction s as [|a s IH]; intros x; cbn [find_sub].
  - destruct (strip_prefix p "") eqn:E; [|done]. intros [= <- <-]. apply strip_prefix_length in E. cbn in *. lia.
  - destruct (strip_prefix p (String a s)) eqn:E.
    + intros [= <- <-]. apply strip_prefix_length in E. cbn in *. lia.
    + destruct (find_sub p s) as [[x' y']|] eqn:E'; [|done]. intros [= <- <-].
      specialize (IH _ eq_refl). cbn. lia.
Qed.

Lemma tag_end_length s : forall q x y, tag_end q s = Some (x, y) -> (length y < length s)%nat.
Proof.
  induction s as [|c s IH]; intros q x y; [done|]. cbn [tag_end].
  assert (Hm : forall q', match tag_end q' s with Some (x, y) => Some (String c x, y) | None => None end
                          = Some (x, y) -> (length y < length (String c s))%nat).
  { intros q'. destruct (tag_end q' s) as [[x' y']|] eqn:E; [|done]. intros [= _ <-].
    specialize (IH _ _ _ E). cbn. lia. }
  destruct q as [q|]; [apply Hm|]. destruct (_ || _); [apply Hm|].
  destruct (Ascii.eqb c ">"); [|apply Hm]. intros [= _ ->]. cbn. lia.
Qed.

(** ** Escaping *)

Lemma escapeAttr_app a b : escapeAttr (a ++ b) = escapeAttr a ++ escapeAttr b.
Proof. unfold escapeAttr. by rewrite !ReplaceAll_app. Qed.

(** One byte, escaped. *)
Definition esc (c : ascii) : string :=
  if Ascii.eqb c "&" then "&amp;" else if Ascii.eqb c dquote then "&quot;"
  else if Ascii.eqb c "<" then "&lt;" else if Ascii.eqb c ">" then "&gt;" else String c "".

Lemma escapeAttr_cons c s : escapeAttr (String c s) = esc c ++ escapeAttr s.
Proof.
  change (String c s) with (String c "" ++ s). rewrite escapeAttr_app. f_equal.
  unfold escapeAttr, esc. cbn [ReplaceAll]. rewrite str_app_nil_r.
  destruct (Ascii.eqb c "&") eqn:E1; [done|].
  cbn [ReplaceAll]. rewrite str_app_nil_r. destruct (Ascii.eqb c dquote) eqn:E2; [done|].
  cbn [ReplaceAll]. rewrite str_app_nil_r. destruct (Ascii.eqb c "<") eqn:E3; [done|].
  cbn [ReplaceAll]. rewrite str_app_nil_r. by destruct (Ascii.eqb c ">").
Qed.

Lemma escapeAttr_plain h : all_bytes plain_value (escapeAttr h) = true.
Proof.
  induction h as [|c h IH]; [done|]. rewrite escapeAttr_cons, all_bytes_app, IH, andb_true_r.
  unfold esc. destruct (Ascii.eqb c "&") eqn:E1; [done|]. destruct (Ascii.eqb c dquote) eqn:E2; [done|].
  destruct (Ascii.eqb c "<") eqn:E3; [done|]. destruct (Ascii.eqb c ">") eqn:E4; [done|].
  rewrite all_bytes_cons. unfold plain_value. by rewrite E2, E3, E4.
Qed.

Lemma decode_esc fuel c s : decode_from (S fuel) (esc c ++ s) = String c (decode_from fuel s).
Proof.
  unfold esc. destruct (Ascii.eqb c "&") eqn:E1; [apply Ascii.eqb_eq in E1 as ->; reflexivity|].
  destruct (Ascii.eqb c dquote) eqn:E2; [apply Ascii.eqb_eq in E2 as ->; reflexivity|].
  destruct (Ascii.eqb c "<") eqn:E3; [apply Ascii.eqb_eq in E3 as ->; reflexivity|].
  destruct (Ascii.eqb c ">") eqn:E4; [apply Ascii.eqb_eq in E4 as ->; reflexivity|].
  rewrite str_app_cons, str_app_nil_l. cbn [decode_from]. by rewrite E1.
Qed.

Lemma esc_nonempty c : (0 < length (esc c))%nat.
Proof. unfold esc. repeat destruct (Ascii.eqb c _); cbn; lia. Qed.

(** Escaping is undone by decoding. *)
Lemma decode_escape h : decodeEntities (escapeAttr h) = h.
Proof.
  unfold decodeEntities. assert (H : (length (escapeAttr h) <= length (escapeAttr h))%nat) by lia.
  revert H. generalize (length (escapeAttr h)) at 2 3 as fuel.
  induction h as [|c h IH]; intros fuel; [by destruct fuel|].
  rewrite escapeAttr_cons, str_app_length. pose proof (esc_nonempty c) as Hc.
  destruct fuel as [|fuel]; [lia|]. intros H. rewrite decode_esc, IH by lia. done.
Qed.

(** ** Links *)

Definition above_space (c : ascii) : bool := negb (nat_of_ascii c <=? 32)%nat.

Lemma in_range_above lo hi c : (32 < lo)%nat -> in_range lo hi c = true -> above_space c = true.
Proof.
  unfold in_range, above_space. intros Hlo H. bools. apply Nat.leb_le in H.
  apply negb_true_iff, Nat.leb_gt. lia.
Qed.

Lemma conts_above k s : conts k s = true -> all_bytes above_space (substring 0 k s) = true.
Proof.
  revert s. induction k as [|k IH]; intros [|c s]; try done. cbn [conts substring]. intros H. bools.
  rewrite all_bytes_cons, (in_range_above 128 191 c), IH by (done || lia). done.
Qed.

Lemma rune_above s k : rune_len s = Some k -> all_bytes above_space (substring 0 k s) = true.
Proof.
  destruct s as [|a [|b r]]; [done|done|]. cbn [rune_len].
  destruct (List.find _ utf8_heads) as [h|] eqn:E; [|done]. intros [= <-].
  apply List.find_some in E as [Hin E]. bools. cbn [substring Nat.add]. rewrite !all_bytes_cons.
  assert (Hlo : (32 < h.1.1.1)%nat /\ (32 < h.1.2.1)%nat).
  { cbn in Hin. repeat (destruct Hin as [<-|Hin]; [cbn; lia|]). done. }
  rewrite (in_range_above h.1.1.1 h.1.1.2 a), (in_range_above h.1.2.1 h.1.2.2 b) by (done || lia).
  by apply conts_above.
Qed.

Lemma clean_above fuel s : all_bytes above_space (clean fuel s) = true.
Proof.
  revert s. induction fuel as [|fuel IH]; intros [|c s]; try done. cbn [clean].
  destruct (nat_of_ascii c <=? 32)%nat eqn:E; [apply IH|].
  destruct (nat_of_ascii c <? 128)%nat.
  { rewrite all_bytes_cons, IH. unfold above_space. by rewrite E. }
  destruct (rune_len (String c s)) as [k|] eqn:Ek; rewrite all_bytes_app, IH, andb_true_r; [|done].
  by apply rune_above.
Qed.

Lemma safeHref_safe href h : safeHref href = Some h -> safe_link h.
Proof.
  unfold safeHref. case_bool_decide; [done|]. set (x := clean _ _).
  destruct (HasPrefix (ToLower x) "http://") eqn:E1.
  { intros [= <-]. split; [apply clean_above|by left]. }
  destruct (HasPrefix (ToLower x) "https://") eqn:E2; [|done].
  intros [= <-]. split; [apply clean_above|by right].
Qed.

(** ** The output is markup of the allowlist *)

Lemma renderStartTag_shape (L : string -> Prop) t :
  (forall v h, attrs t !! "href" = Some v -> safeHref v = Some h -> L h) ->
  exists attr, safe_attr L (name t) attr /\
    renderStartTag t = start_tag (name t) attr
      (match kind t with tokenSelfClose => true | _ => String.eqb (name t) "br" end).
Proof.
  intros HL. unfold renderStartTag.
  set (attr := if String.eqb (name t) "a" then _ else _). exists attr. split.
  - unfold attr. destruct (String.eqb (name t) "a") eqn:En; [|by left]. apply String.eqb_eq in En.
    destruct (attrs t !! "href") as [v|] eqn:Ev; [|by left].
    destruct (safeHref v) as [h|] eqn:Eh; [|by left]. right. split; [done|].
    exists h. split; [by eapply HL|]. split; [done|]. split; [apply escapeAttr_plain|apply decode_escape].
  - unfold start_tag. destruct (kind t); try destruct (String.eqb (name t) "br"); done.
Qed.

Lemma close_to_app n st l rest : close_to n st = Some (l, rest) -> st = (l ++ rest)%list.
Proof.
  revert l. induction st as [|x st IH]; intros l; [done|]. cbn.
  destruct (String.eqb x n); [by intros [= <- <-]|].
  destruct (close_to n st) as [[l' r']|]; [|done]. intros [= <- <-]. cbn. f_equal. by apply IH.
Qed.

Lemma markup_close_all L l rest o st' :
  Forall element l -> markup L rest o st' -> markup L (l ++ rest)%list (close_all l ++ o) st'.
Proof.
  intros Hl Ho. induction Hl as [|n l Hn _ IH]; [done|]. cbn [close_all fold_right].
  rewrite str_app_assoc. cbn [app]. by apply markup_close.
Qed.

Definition links_ok (L : string -> Prop) (t : token) : Prop :=
  forall v h, attrs t !! "href" = Some v -> safeHref v = Some h -> L h.

Lemma render_markup L l s :
  Forall (links_ok L) l -> Forall element (openStack s) -> markup L (openStack s) (render_tokens s l) [].
Proof.
  intros Hl. revert s. induction Hl as [|t l Ht _ IH]; intros s Hs; cbn [render_tokens].
  { rewrite <- (app_nil_r (openStack s)) at 1. rewrite <- (str_app_nil_r (close_all _)).
    apply markup_close_all; [done|constructor]. }
  assert (Hskip : forall s', openStack s' = openStack s ->
                    markup L (openStack s) ("" ++ render_tokens s' l) []).
  { intros s' E. rewrite str_app_nil_l, <- E. apply IH. by rewrite E. }
  assert (Hstart : kind t = tokenStartTag \/ kind t = tokenSelfClose ->
                   markup L (openStack s) ((render_token s t).1 ++ render_tokens (render_token s t).2 l) []).
  { intros Hk. unfold render_token.
    destruct (skip s) eqn:Esk; [destruct Hk as [-> | ->]; by apply Hskip|].
    destruct (raw_text (name t)); [destruct Hk as [-> | ->]; by apply Hskip|].
    destruct (allowed (name t)) eqn:Ea; cbn [negb]; [|destruct Hk as [-> | ->]; by apply Hskip].
    destruct (renderStartTag_shape L t Ht) as (attr & Hattr & Hr). rewrite Hr.
    destruct Hk as [-> | ->]; cbn [fst snd].
    - destruct (String.eqb (name t) "br") eqn:Eb.
      + apply markup_void; [done..|]. by apply IH.
      + apply String.eqb_neq in Eb. apply markup_open; [done..|].
        apply (IH (MkRender (name t :: openStack s) None)). by constructor.
    - apply markup_void; [done..|]. by apply IH. }
  destruct (kind t) eqn:Ek; try (apply Hstart; by auto); unfold render_token; rewrite Ek.
  - destruct (skip s); cbn [fst snd]; [by apply Hskip|]. apply markup_text; [|by apply IH].
    by apply ReplaceAll_gone; [|intros x Hx; unfold not_lt; rewrite Hx].
  - destruct (skip s); cbn [fst snd]; [apply Hskip; by destruct (String.eqb _ _)|].
    destruct (_ || _ || _); [by apply Hskip|].
    destruct (close_to (name t) (openStack s)) as [[cl rest]|] eqn:Ec; [|by apply Hskip].
    apply close_to_app in Ec. rewrite Ec in Hs |- *. apply Forall_app in Hs as [H1 H2]. cbn [fst snd].
    apply markup_close_all; [done|]. by apply (IH (MkRender rest None)).
  - by apply Hskip.
Qed.

(** ** Tokenizing markup *)

Lemma scan_shorter s toks rest : scan s = (toks, Some rest) -> (length rest < length s)%nat.
Proof.
  destruct s as [|c r]; [done|]. cbn [scan]. destruct (not_lt c) eqn:Ec.
  { intros [= _ <-]. cbn [span]. rewrite Ec. pose proof (span_length not_lt r). cbn. lia. }
  unfold scan_markup. destruct (HasPrefix _ "<!--").
  { destruct (find_sub "-->" _) as [[x y]|] eqn:E; [|done]. intros [= _ <-].
    apply find_sub_length in E. cbn in *. lia. }
  destruct (_ || _).
  { destruct (cut _ _) as [[x y]|] eqn:E; [|done]. intros [= _ <-]. by apply cut_length in E. }
  set (cj := match r with String "/" r' => _ | _ => _ end).
  assert (Hj : (length cj.2 <= length r)%nat).
  { subst cj. destruct r as [|d r']; [done|].
    repeat (destruct d as [[] [] [] [] [] [] [] []]; try (cbn; lia)). }
  destruct cj as [closing j]. cbn in Hj. pose proof (span_length isSpace j).
  pose proof (span_length isNameByte (span isSpace j).2).
  destruct (span isNameByte _) as [nm tail]. cbn in *. case_bool_decide; [intros [= _ <-]; cbn; lia|].
  destruct (tag_end None tail) as [[raw y]|] eqn:E; [|done]. apply tag_end_length in E.
  destruct (self_close raw); intros [= _ <-]; cbn; lia.
Qed.

(** Enough fuel is as good as any. *)
Lemma tokenize_enough n s : (length s <= n)%nat -> tokenize_from n s = tokenize s.
Proof.
  unfold tokenize. assert (H : forall m n s, (length s <= n)%nat -> (length s <= m)%nat ->
                                 tokenize_from n s = tokenize_from m s); [|intros; by apply H].
  clear. intros m. induction m as [|m IH]; intros n s Hn Hm.
  { destruct s; [|cbn in Hm; lia]. by destruct n. }
  destruct n as [|n]; [destruct s; [done|cbn in Hn; lia]|].
  cbn [tokenize_from]. destruct (scan s) as [toks [rest|]] eqn:E; [|done]. f_equal.
  apply scan_shorter in E. apply IH; lia.
Qed.

Lemma tokenize_step s toks rest : scan s = (toks, Some rest) -> tokenize s = (toks ++ tokenize rest)%list.
Proof.
  intros E. pose proof (scan_shorter _ _ _ E) as Hl. unfold tokenize at 1.
  destruct s as [|c r]; [done|]. cbn [length tokenize_from]. rewrite E. f_equal.
  apply tokenize_enough. cbn in Hl. lia.
Qed.

(** A byte of text in front. *)
Lemma render_text_byte st c o :
  not_lt c = true ->
  render_tokens (MkRender st None) (tokenize (String c o))
  = String c (render_tokens (MkRender st None) (tokenize o)).
Proof.
  intros Hc. assert (Hr : forall x, ReplaceAll (String c x) "<" "&lt;" = String c (ReplaceAll x "<" "&lt;")).
  { intros x. cbn [ReplaceAll]. unfold not_lt in Hc. by destruct (Ascii.eqb c "<"). }
  assert (E : scan (String c o) = ([text_tok (String c (span not_lt o).1)], Some (span not_lt o).2)).
  { cbn [scan]. rewrite Hc. cbn [span]. by rewrite Hc. }
  rewrite (tokenize_step _ _ _ E). cbn [app render_tokens render_token text_tok kind skip text fst snd].
  rewrite Hr, str_app_cons. f_equal. destruct o as [|d o]; [done|].
  destruct (not_lt d) eqn:Ed.
  - assert (E' : scan (String d o) = ([text_tok (span not_lt (String d o)).1], Some (span not_lt (String d o)).2)).
    { cbn [scan]. by rewrite Ed. }
    by rewrite (tokenize_step _ _ _ E').
  - cbn [span]. by rewrite Ed.
Qed.

Lemma render_text st t o :
  all_bytes not_lt t = true ->
  render_tokens (MkRender st None) (tokenize (t ++ o))
  = t ++ render_tokens (MkRender st None) (tokenize o).
Proof.
  induction t as [|c t IH]; [done|]. rewrite all_bytes_cons. intros H. bools.
  rewrite !str_app_cons, render_text_byte, IH by done. done.
Qed.

Lemma tag_end_quoted v q rest :
  all_bytes (fun c => negb (Ascii.eqb c q)) v = true ->
  tag_end (Some q) (v ++ String q rest)
  = match tag_end None rest with Some (x, y) => Some (v ++ String q x, y) | None => None end.
Proof.
  induction v as [|c v IH].
  - intros _. rewrite str_app_nil_l. cbn [tag_end]. by rewrite Ascii.eqb_refl.
  - rewrite all_bytes_cons. intros H. bools. rewrite str_app_cons. cbn [tag_end].
    rewrite H, IH by done. by destruct (tag_end None rest) as [[x y]|].
Qed.

(** The attributes after the link. *)
Definition rel_attrs : string :=
  Eval vm_compute in
    " rel=" ++ String dquote "nofollow noopener" ++ String dquote " target=" ++ String dquote "_blank"
    ++ String dquote "".

Lemma href_attr_app h w :
  href_attr h ++ w = " href=" ++ String dquote (escapeAttr h ++ String dquote (rel_attrs ++ w)).
Proof. unfold href_attr. rewrite !str_app_assoc. reflexivity. Qed.

Lemma tag_end_href y :
  tag_end None (" href=" ++ String dquote y)
  = match tag_end (Some dquote) y with
    | Some (x, r) => Some (" href=" ++ String dquote x, r) | None => None end.
Proof. sapp. by destruct (tag_end (Some dquote) y) as [[x r]|]. Qed.

Lemma self_close_slash x : self_close (x ++ "/") = Some x.
Proof.
  unfold self_close. rewrite srev_app. change (srev "/") with "/". rewrite str_app_cons, str_app_nil_l.
  cbn [span]. rewrite bool_decide_eq_false_2 by (cbn; set_solver).
  cbn -[srev]. by rewrite srev_involutive.
Qed.

Lemma self_close_quote x : self_close (x ++ rel_attrs) = None.
Proof. unfold self_close. rewrite srev_app. reflexivity. Qed.

Lemma parse_attr_step f raw m c r key rest after v :
  (span isSpace raw).2 = String c r -> span not_space_eq (String c r) = (key, rest) -> key <> "" ->
  (span isSpace rest).2 = String "=" after -> (span isSpace after).2 = v -> v <> "" ->
  parse_attrs_from (S f) raw m
  = parse_attrs_from f (attr_value v).2 (<[ToLower key := decodeEntities (attr_value v).1]> m).
Proof.
  intros H1 H2 H3 H4 H5 H6. cbn [parse_attrs_from]. rewrite H1, H2, bool_decide_eq_false_2 by done.
  rewrite H4, H5. by destruct v.
Qed.

Lemma attr_value_quoted v x :
  all_bytes (fun c => negb (Ascii.eqb c dquote)) v = true ->
  attr_value (String dquote (v ++ String dquote x)) = (v, x).
Proof.
  intros Hv. cbn -[span]. rewrite span_run, Hv. cbn [span]. rewrite Ascii.eqb_refl. cbn.
  by rewrite str_app_nil_r.
Qed.

Lemma parse_href f v w :
  all_bytes (fun c => negb (Ascii.eqb c dquote)) v = true -> w = "" \/ w = " " ->
  parse_attrs_from (S (S (S f))) (" href=" ++ String dquote (v ++ String dquote (rel_attrs ++ w))) ∅ !! "href"
  = Some (decodeEntities v).
Proof.
  intros Hv Hw.
  rewrite (parse_attr_step _ _ _ "h" ("ref=" ++ String dquote (v ++ String dquote (rel_attrs ++ w))) "href"
             (String "=" (String dquote (v ++ String dquote (rel_attrs ++ w))))
             (String dquote (v ++ String dquote (rel_attrs ++ w)))
             (String dquote (v ++ String dquote (rel_attrs ++ w)))); try done.
  rewrite attr_value_quoted by done. cbn [fst snd].
  assert (Hrest : forall m, parse_attrs_from (S (S f)) (rel_attrs ++ w) m !! "href" = m !! "href").
  { intros m.
    assert (E : parse_attrs_from (S (S f)) (rel_attrs ++ w) m
                = parse_attrs_from f w (<["target" := "_blank"]> (<["rel" := "nofollow noopener"]> m))).
    { destruct Hw as [-> | ->]; reflexivity. }
    rewrite E. assert (Ew : forall g x, parse_attrs_from g w x = x).
    { intros [|g] x; [done|]. by destruct Hw as [-> | ->]. }
    by rewrite Ew, !lookup_insert_ne. }
  rewrite Hrest. by rewrite lookup_insert_eq.
Qed.

Lemma allowed_cases (P : string -> Prop) : Forall P allowedTags -> forall n, allowed n = true -> P n.
Proof. intros HP n Hn. unfold allowed in Hn. bools. by eapply Forall_forall in HP. Qed.

(** The kind of a start tag as it is written. *)
Definition tag_kind (void : bool) : tokenKind := if void then tokenSelfClose else tokenStartTag.

Lemma scan_plain n void o :
  allowed n = true -> scan (start_tag n "" void ++ o) = ([MkTok (tag_kind void) n ∅ ""], Some o).
Proof.
  intros Hn. revert n Hn. apply allowed_cases. unfold allowedTags.
  repeat (constructor; [destruct void; reflexivity|]). constructor.
Qed.

Lemma scan_end n o : allowed n = true -> scan (end_tag n ++ o) = ([MkTok tokenEndTag n ∅ ""], Some o).
Proof.
  revert n. apply allowed_cases. unfold allowedTags. repeat (constructor; [reflexivity|]). constructor.
Qed.

Lemma plain_no_quote v :
  all_bytes plain_value v = true -> all_bytes (fun c => negb (Ascii.eqb c dquote)) v = true.
Proof.
  induction v as [|c v IH]; [done|]. rewrite !all_bytes_cons. unfold plain_value at 1. intros H. bools.
  by rewrite H, IH.
Qed.

(** Scanning the one tag with an attribute. *)
Lemma scan_href h void o :
  exists m, scan (start_tag "a" (href_attr h) void ++ o) = ([MkTok (tag_kind void) "a" m ""], Some o)
    /\ m !! "href" = Some h.
Proof.
  pose proof (plain_no_quote _ (escapeAttr_plain h)) as Hv. set (v := escapeAttr h) in *.
  set (w := if void then " " else "").
  set (raw := " href=" ++ String dquote (v ++ String dquote (rel_attrs ++ w))).
  exists (parseAttrs raw). split.
  - set (tail := " href=" ++ String dquote (v ++ String dquote (rel_attrs ++ (if void then " />" else ">") ++ o))).
    assert (Es : start_tag "a" (href_attr h) void ++ o = "<a" ++ tail).
    { unfold start_tag, tail, v. rewrite <- href_attr_app, !str_app_assoc. by destruct void. }
    assert (Et : tag_end None tail = Some (if void then raw ++ "/" else raw, o)).
    { unfold tail. rewrite tag_end_href, tag_end_quoted by done. unfold raw, w.
      destruct void; [|reflexivity].
      change (tag_end None (rel_attrs ++ " />" ++ o)) with (Some (rel_attrs ++ " /", o)).
      do 2 f_equal. rewrite !str_app_assoc, !str_app_cons, !str_app_assoc, !str_app_cons, !str_app_assoc. done. }
    assert (Ec : self_close (if void then raw ++ "/" else raw) = if void then Some raw else None).
    { destruct void; [apply self_close_slash|]. unfold raw, w. rewrite str_app_nil_r.
      replace (" href=" ++ String dquote (v ++ String dquote rel_attrs))
        with ((" href=" ++ String dquote (v ++ String dquote "")) ++ rel_attrs); [apply self_close_quote|].
      rewrite !str_app_assoc, !str_app_cons, !str_app_assoc. done. }
    assert (En : span isNameByte tail = ("", tail)) by done.
    rewrite Es. clear Es. clearbody tail. clearbody raw.
    change ("<a" ++ tail) with (String "<" (String "a" tail)).
    cbn -[tag_end self_close parseAttrs span]. change (span isSpace (String "a" tail)) with ("", String "a" tail).
    cbn [snd]. change (span isNameByte (String "a" tail))
      with (String "a" (span isNameByte tail).1, (span isNameByte tail).2).
    rewrite En. cbn -[tag_end self_close parseAttrs].
    rewrite Et, Ec. by destruct void.
  - unfold parseAttrs. rewrite <- (decode_escape h). fold v.
    replace (length raw) with (S (S (S (length raw - 3)))).
    { apply parse_href; [done|]. destruct void; auto. }
    assert (3 <= length raw)%nat by (unfold raw; rewrite str_app_length; cbn; lia). lia.
Qed.

Lemma raw_not_allowed n : allowed n = true -> raw_text n = false.
Proof. revert n. apply allowed_cases. repeat (constructor; [reflexivity|]). constructor. Qed.

(** A link that survives as it is. *)
Definition fixed_link (h : string) : Prop := safeHref h = Some h.

(** The token of a tag, and that it is written back as the tag. *)
Lemma scan_start n attr void o :
  allowed n = true -> safe_attr fixed_link n attr -> (n = "br" -> void = true) ->
  exists t, scan (start_tag n attr void ++ o) = ([t], Some o) /\ kind t = tag_kind void /\ name t = n
    /\ renderStartTag t = start_tag n attr void.
Proof.
  intros Hn [-> | (-> & h & Hh & -> & _)] Hbr.
  - eexists. split; [by apply scan_plain|]. split; [done|]. split; [done|].
    unfold renderStartTag, start_tag. cbn [name attrs kind]. rewrite lookup_empty.
    replace (if String.eqb n "a" then "" else "") with "" by (by destruct (String.eqb n "a")).
    destruct void; [done|]. cbn [tag_kind]. destruct (String.eqb n "br") eqn:E; [|done].
    apply String.eqb_eq in E. by discriminate Hbr.
  - destruct (scan_href h void o) as (m & E & Em). eexists. split; [exact E|]. split; [done|]. split; [done|].
    unfold renderStartTag, start_tag. cbn [name attrs kind]. rewrite Em, Hh. by destruct void.
Qed.

(** Markup whose links survive is rendered as itself. *)
Lemma render_fixed st o st' :
  markup fixed_link st o st' -> st' = [] -> render_tokens (MkRender st None) (tokenize o) = o.
Proof.
  induction 1 as [st|st t o st' Ht _ IH|st n attr o st' [Hn Hb] Ha _ IH|st n attr o st' Hn Ha _ IH|st n o st' [Hn Hb] _ IH];
    intros E.
  - by rewrite E.
  - by rewrite render_text, IH.
  - destruct (scan_start n attr false o Hn Ha) as (t & Es & Hk & Hname & Hr); [done|].
    rewrite (tokenize_step _ _ _ Es). cbn [app render_tokens]. unfold render_token.
    cbn [skip openStack]. rewrite Hk, Hname. cbn [tag_kind]. rewrite raw_not_allowed, Hn by done. cbn [negb].
    rewrite (proj2 (String.eqb_neq n "br") Hb). cbn [fst snd]. by rewrite IH, Hr.
  - destruct (scan_start n attr true o Hn Ha) as (t & Es & Hk & Hname & Hr); [done|].
    rewrite (tokenize_step _ _ _ Es). cbn [app render_tokens]. unfold render_token.
    cbn [skip openStack]. rewrite Hk, Hname. cbn [tag_kind]. rewrite raw_not_allowed, Hn by done. cbn [negb fst snd].
    by rewrite IH, Hr.
  - rewrite (tokenize_step _ _ _ (scan_end n o Hn)). cbn [app render_tokens]. unfold render_token.
    cbn [kind name skip openStack]. rewrite raw_not_allowed, Hn by done.
    rewrite (proj2 (String.eqb_neq n "br") Hb). cbn [negb orb close_to]. rewrite String.eqb_refl.
    cbn [fst snd close_all fold_right]. rewrite str_app_nil_r. by rewrite IH.
Qed.

(** The condition on the links, decided. *)
Definition links_fixed (s : string) : bool :=
  forallb (fun t => match attrs t !! "href" with
                    | Some v => match safeHref v with
                                | Some h => bool_decide (safeHref h = Some h)
                                | None => true
                                end
                    | None => true
                    end) (tokenize s).

Lemma links_checked s :
  links_fixed s = true ->
  forall t v h, t ∈ tokenize s -> attrs t !! "href" = Some v -> safeHref v = Some h -> safeHref h = Some h.
Proof.
  intros H t v h Ht Hv Hh. unfold links_fixed in H. rewrite forallb_forall in H.
  specialize (H t (proj1 (list_elem_of_In _ _) Ht)). rewrite Hv, Hh in H. by bools.
Qed.

(** ** Raw-text elements *)

Definition state_after (s : render_state) (l : list token) : render_state :=
  foldl (fun s t => (render_token s t).2) s l.

Lemma render_skipped s n l rest :
  skip s = Some n -> Forall (fun t => ~ (kind t = tokenEndTag /\ name t = n)) l ->
  render_tokens s (l ++ rest)%list = render_tokens s rest.
Proof.
  intros Hs Hl. induction Hl as [|t l Ht _ IH]; [done|]. cbn [app render_tokens].
  assert (E : render_token s t = ("", s)).
  { unfold render_token. destruct (kind t) eqn:Ek; rewrite ?Hs; try done.
    destruct (String.eqb (name t) n) eqn:En; [|done]. apply String.eqb_eq in En. by destruct Ht. }
  by rewrite E.
Qed.

(** A script or style element disappears with everything up to its end tag. *)
Lemma raw_text_dropped s l1 n a mid b l2 :
  raw_text n = true -> skip (state_after s l1) = None ->
  Forall (fun t => ~ (kind t = tokenEndTag /\ name t = n)) mid ->
  render_tokens s (l1 ++ MkTok tokenStartTag n a "" :: mid ++ MkTok tokenEndTag n b "" :: l2)%list
  = render_tokens s (l1 ++ l2)%list.
Proof.
  intros Hn. revert s. induction l1 as [|t l1 IH]; intros s Hs Hm; cbn [app].
  - cbn [state_after foldl] in Hs. cbn [render_tokens]. unfold render_token at 1 2. cbn [kind name].
    rewrite Hs, Hn. cbn [fst snd]. rewrite (render_skipped _ n) by done. cbn [render_tokens].
    unfold render_token. cbn [kind name skip openStack]. rewrite String.eqb_refl. cbn [fst snd].
    rewrite !str_app_nil_l. destruct s as [st sk]. cbn in Hs. by subst.
  - cbn [render_tokens]. by rewrite IH.
Qed.

Lemma HTML_markup s : markup safe_link [] (HTML s) [].
Proof.
  apply (render_markup safe_link (tokenize s) (MkRender [] None)); [|constructor].
  apply Forall_forall. intros t _ v h _. apply safeHref_safe.
Qed.

(** ** The properties *)


(** sanitizing what was sanitized changes nothing, provided each link it
    keeps is one that it would keep as it stands. *)
Theorem sanitize_idempotent s :
  (forall t v h, t ∈ tokenize s -> attrs t !! "href" = Some v -> safeHref v = Some h -> safeHref h = Some h) ->
  HTML (HTML s) = HTML s.
Proof.
  intros H. unfold HTML at 1. eapply render_fixed; [|reflexivity].
  apply (render_markup fixed_link (tokenize s) (MkRender [] None)); [|constructor].
  apply Forall_forall. intros t Ht v h Hv Hh. by eapply H.
Qed.

Definition demo_html : string :=
  "<p onclick='x'>Hi <b>there</b><br> <A HREF=https://x.y/?a=1&b>z</p> <script>bad<p></script>1 <  2".

Lemma sanitize_idempotent_witness : HTML (HTML demo_html) = HTML demo_html.
Proof. apply (sanitize_idempotent demo_html), links_checked. vm_compute. reflexivity. Defined.

(** without that condition it is not idempotent: a link that ends with a
    no-break space and a control character keeps the space, which the next pass
    trims. *)
Theorem sanitize_not_idempotent :
  let s := "<a href='http://x&#160;&#1;'>y</a>" in HTML (HTML s) <> HTML s.
Proof. vm_compute. discriminate. Qed.

(** A [<] in front of a digit is read as a tag and swallowed up to the [>]. *)
Lemma stray_lt_swallowed : HTML "from <3 oclock to> 4" = "from  4".
Proof. reflexivity. Qed.
