(* ===== verification/Xml.v ===== *)
(** * XML text: internal/render/escape.go

    What the renderers write for a piece of text, and a reader of XML documents
    (elements, attributes, character references, CDATA sections) against which
    the documents of Render.v are read back. *)

From S2P Require Import Prelude GoStrings Utf8.
From Stdlib Require Import String Ascii.
Local Open Scope string_scope.
Local Open Scope Z_scope.

(** ** Escaping *)

Definition isInvalidXMLRune (r : Z) : bool :=
  if (r =? 9) || (r =? 10) || (r =? 13) then false
  else if (32 <=? r) && (r <=? 55295) then false
  else if (57344 <=? r) && (r <=? 65533) then false
  else if (65536 <=? r) && (r <=? 1114111) then false
  else true.

(** [strings.ReplaceAll] for a string that is not empty. *)
Fixpoint replace_from (fuel : nat) (s old new : string) : string :=
  match fuel with
  | O => s
  | S f => match find_sub old s with
           | Some (x, y) => x ++ new ++ replace_from f y old new
           | None => s
           end
  end.
Definition replace_all (s old new : string) : string := replace_from (S (String.length s)) s old new.

Definition cr : string := String "013" "".
Definition lf : string := String "010" "".

Definition normalize_lines (s : string) : string :=
  if existsb (Ascii.eqb "013") (list_ascii_of_string s)
  then replace_all (replace_all s (cr ++ lf) lf) cr lf else s.

Definition sanitizeXMLText (s : string) : string :=
  let s := normalize_lines s in
  if ValidString s && negb (existsb isInvalidXMLRune (runes s)) then s
  else encode_runes (List.filter (fun r => negb ((r =? 65533) || isInvalidXMLRune r)) (runes s)).

(** [strings.NewReplacer] of single bytes replaces each byte. *)
Definition xml_escape_byte (a : ascii) : string :=
  if Ascii.eqb a "&" then "&#x26;"
  else if Ascii.eqb a "<" then "&#x3C;"
  else if Ascii.eqb a ">" then "&#x3E;"
  else if Ascii.eqb a dquote then "&#x22;"
  else if Ascii.eqb a "'" then "&#x27;"
  else String a "".

Fixpoint textEscaper (s : string) : string :=
  match s with EmptyString => "" | String a r => xml_escape_byte a ++ textEscaper r end.

Definition EscapeText (s : string) : string := textEscaper (sanitizeXMLText s).

Definition cdata_open : string := "<![CDATA[".
Definition cdata_close : string := "]]>".
Definition cdata_split : string := "]]]]><![CDATA[>".

Definition CDATA (s : string) : string :=
  cdata_open ++ replace_all (sanitizeXMLText s) cdata_close cdata_split ++ cdata_close.

(** ** Reading *)

(** Characters the grammar of XML 1.0 allows, encoded, and no carriage return:
    every parser would turn it into a line feed. *)
Definition xml_rune (r : Z) : bool := negb (isInvalidXMLRune r) && negb (r =? 13).
Definition xml_chars (s : string) : bool := ValidString s && forallb xml_rune (runes s).

Inductive xml_event := EOpen (name : string) (attrs : list (string * string)) | EClose (name : string) | EText (s : string).

(** Adjacent pieces of text are one. *)
Definition emit (t : string) (l : list xml_event) : list xml_event :=
  if String.eqb t "" then l
  else match l with EText u :: r => EText (t ++ u) :: r | _ => EText t :: l end.

Definition name_byte (c : ascii) : bool :=
  in_range 97 122 c || in_range 65 90 c || in_range 48 57 c || Ascii.eqb c ":" || Ascii.eqb c "-" || Ascii.eqb c "_" || Ascii.eqb c ".".

Fixpoint hex_value (acc : Z) (s : string) : option Z :=
  match s with
  | EmptyString => Some acc
  | String a r => match digit_in 16 a with Some d => hex_value (16 * acc + d) r | None => None end
  end.

(** The reference that follows an ampersand, and what comes after it. *)
Definition reference (r : string) : option (string * string) :=
  match cut r ";" with
  | None => None
  | Some (body, rest) =>
      match strip_prefix "#x" body with
      | Some "" => None
      | Some digits => match hex_value 0 digits with
                       | Some v => if isInvalidXMLRune v then None else Some (encode_rune v, rest)
                       | None => None
                       end
      | None =>
          if String.eqb body "amp" then Some ("&", rest)
          else if String.eqb body "lt" then Some ("<", rest)
          else if String.eqb body "gt" then Some (">", rest)
          else if String.eqb body "quot" then Some (String dquote "", rest)
          else if String.eqb body "apos" then Some ("'", rest)
          else None
      end
  end.

(** An attribute's value, up to the closing quote. *)
Fixpoint value_from (fuel : nat) (s : string) : option (string * string) :=
  match fuel, s with
  | S f, String c r =>
      if Ascii.eqb c dquote then Some ("", r)
      else if Ascii.eqb c "<" then None
      else if Ascii.eqb c "&" then
        '(t, rest) ← reference r; '(v, after) ← value_from f rest; Some (t ++ v, after)
      else '(v, after) ← value_from f r; Some (String c v, after)
  | _, _ => None
  end.

(** The attributes of a tag up to its end: [true] for an empty element. *)
Fixpoint attrs_from (fuel : nat) (s : string) : option (list (string * string) * bool * string) :=
  match fuel with
  | O => None
  | S f =>
      match strip_prefix ">" s with
      | Some rest => Some ([], false, rest)
      | None =>
          match strip_prefix "/>" s with
          | Some rest => Some ([], true, rest)
          | None =>
              rest ← strip_prefix " " s;
              let '(name, r1) := span name_byte rest in
              if String.eqb name "" then None else
              r2 ← strip_prefix ("=" ++ String dquote "") r1;
              '(v, r3) ← value_from (String.length r2) r2;
              '(l, e, r4) ← attrs_from f r3;
              Some ((name, v) :: l, e, r4)
          end
      end
  end.

(** One piece of markup, after its [<]: the events it makes, and what follows. *)
Definition xml_markup (r : string) : option (list xml_event * string) :=
  match strip_prefix "![CDATA[" r with
  | Some r1 => '(x, rest) ← find_sub cdata_close r1; Some (emit x [], rest)
  | None =>
  match strip_prefix "!" r with
  | Some r1 => '(_, rest) ← cut r1 ">"; Some ([], rest)
  | None =>
  match strip_prefix "/" r with
  | Some r1 =>
      let '(name, r2) := span name_byte r1 in
      rest ← strip_prefix ">" r2; if String.eqb name "" then None else Some ([EClose name], rest)
  | None =>
      let '(name, r1) := span name_byte r in
      if String.eqb name "" then None else
      '(attrs, empty, rest) ← attrs_from (S (String.length r1)) r1;
      Some (EOpen name attrs :: (if (empty : bool) then [EClose name] else []), rest)
  end end end.

Definition join (a b : list xml_event) : list xml_event :=
  match a with [EText t] => emit t b | _ => (a ++ b)%list end.

Fixpoint read_from (fuel : nat) (s : string) : option (list xml_event) :=
  match fuel, s with
  | _, EmptyString => Some []
  | O, _ => None
  | S f, String c r =>
      if Ascii.eqb c "<" then '(es, rest) ← xml_markup r; k ← read_from f rest; Some (join es k)
      else if Ascii.eqb c "&" then '(t, rest) ← reference r; k ← read_from f rest; Some (emit t k)
      else k ← read_from f r; Some (emit (String c "") k)
  end.

Definition read_content (s : string) : option (list xml_event) := read_from (String.length s) s.

Definition xml_declaration : string :=
  "<?xml version=" ++ String dquote ("1.0" ++ String dquote (" encoding=" ++ String dquote ("utf-8" ++ String dquote "?>"))).

(** A document: the declaration, then content whose tags nest. *)
Fixpoint nested (open : list string) (l : list xml_event) : bool :=
  match l with
  | [] => match open with [] => true | _ => false end
  | EOpen n _ :: r => nested (n :: open) r
  | EClose n :: r => match open with m :: o => String.eqb n m && nested o r | [] => false end
  | EText _ :: r => nested open r
  end.

Definition read_document (s : string) : option (list xml_event) :=
  rest ← strip_prefix xml_declaration s;
  l ← read_content rest;
  if nested [] l then Some l else None.

Example read_ex :
  read_document (xml_declaration ++ "<a x=" ++ String dquote ("1&#x26;2" ++ String dquote "><b/>t&lt;<![CDATA[<>]]]]><![CDATA[>]]></a>"))
  = Some [EOpen "a" [("x", "1&2")]; EOpen "b" []; EClose "b"; EText "t<<>]]>"; EClose "a"].
Proof. vm_compute. reflexivity. Qed.
Example escape_ex : EscapeText ("a<b>&'" ++ String "000" (String dquote (String "013" ""))) = "a&#x3C;b&#x3E;&#x26;&#x27;&#x22;" ++ lf.
Proof. vm_compute. reflexivity. Qed.

(** ** The reader consumes what it reads *)

Lemma cut_shorter s c x y : cut s c = Some (x, y) -> (String.length y < String.length s)%nat.
Proof. intros [-> _]%cut_Some. rewrite str_app_length. cbn. lia. Qed.

Lemma strip_shorter p s r : strip_prefix p s = Some r -> (String.length s = String.length p + String.length r)%nat.
Proof. intros ->%strip_prefix_Some. apply str_app_length. Qed.

Lemma reference_shorter r t rest : reference r = Some (t, rest) -> (String.length rest < String.length r)%nat.
Proof.
  unfold reference. destruct (cut r ";") as [[body after]|] eqn:E; [|done]. apply cut_shorter in E.
  destruct (strip_prefix "#x" body) as [[|d ds]|]; [done| |].
  - destruct (hex_value _ _); [|done]. destruct (isInvalidXMLRune _); [done|]. by intros [= _ <-].
  - repeat (destruct (String.eqb _ _); [by intros [= _ <-]|]). done.
Qed.

Lemma span_total p s : (String.length (span p s).1 + String.length (span p s).2 = String.length s)%nat.
Proof. induction s as [|c s IH]; [done|]. cbn. destruct (p c); cbn; lia. Qed.

Lemma value_shorter f s v rest : value_from f s = Some (v, rest) -> (String.length rest < String.length s)%nat.
Proof.
  revert s v. induction f as [|f IH]; intros [|c s] v; cbn [value_from]; try done.
  destruct (Ascii.eqb c dquote); [intros [= <- <-]; cbn; lia|]. destruct (Ascii.eqb c "<"); [done|].
  destruct (Ascii.eqb c "&").
  - destruct (reference s) as [[t r]|] eqn:E; [|done]. cbn. apply reference_shorter in E.
    destruct (value_from f r) as [[v' after]|] eqn:Ev; [|done]. cbn. intros [= <- <-]. apply IH in Ev. lia.
  - destruct (value_from f s) as [[v' after]|] eqn:Ev; [|done]. cbn. intros [= <- <-]. apply IH in Ev. lia.
Qed.

Lemma attrs_shorter f s l e rest : attrs_from f s = Some (l, e, rest) -> (String.length rest < String.length s)%nat.
Proof.
  revert s l. induction f as [|f IH]; intros s l; cbn [attrs_from]; [done|].
  destruct (strip_prefix ">" s) as [r|] eqn:E1; [intros [= <- <- <-]; apply strip_shorter in E1; cbn in E1; lia|].
  destruct (strip_prefix "/>" s) as [r|] eqn:E2; [intros [= <- <- <-]; apply strip_shorter in E2; cbn in E2; lia|].
  destruct (strip_prefix " " s) as [r|] eqn:E3; [|done]. cbn. apply strip_shorter in E3. cbn in E3.
  pose proof (span_total name_byte r) as Hs. destruct (span name_byte r) as [name r1]. cbn in Hs.
  destruct (String.eqb name ""); [done|]. destruct (strip_prefix _ r1) as [r2|] eqn:E4; [|done]. cbn. apply strip_shorter in E4.
  destruct (value_from _ r2) as [[v r3]|] eqn:E5; [|done]. cbn. apply value_shorter in E5.
  destruct (attrs_from f r3) as [[[l' e'] r4]|] eqn:E6; [|done]. cbn. intros [= <- <- <-]. apply IH in E6. cbn in E4. lia.
Qed.

Lemma find_sub_shorter p s x y : find_sub p s = Some (x, y) -> (String.length y <= String.length s)%nat.
Proof. intros E. pose proof (find_sub_spec p s) as H. rewrite E in H. rewrite H, !str_app_length. lia. Qed.

Lemma markup_shorter r es rest : xml_markup r = Some (es, rest) -> (String.length rest <= String.length r)%nat.
Proof.
  unfold xml_markup. destruct (strip_prefix "![CDATA[" r) as [r1|] eqn:E1.
  { apply strip_shorter in E1. destruct (find_sub _ r1) as [[x y]|] eqn:E; [|done]. cbn. intros [= <- <-].
    apply find_sub_shorter in E. lia. }
  destruct (strip_prefix "!" r) as [r1|] eqn:E0.
  { apply strip_shorter in E0. destruct (cut r1 ">") as [[x y]|] eqn:E; [|done]. cbn. intros [= <- <-].
    apply cut_shorter in E. lia. }
  destruct (strip_prefix "/" r) as [r1|] eqn:E2.
  - apply strip_shorter in E2. pose proof (span_total name_byte r1) as Hs. destruct (span name_byte r1) as [name r2]. cbn in Hs.
    destruct (strip_prefix ">" r2) as [r3|] eqn:E3; [|done]. cbn. apply strip_shorter in E3.
    destruct (String.eqb name ""); [done|]. intros [= <- <-]. lia.
  - pose proof (span_total name_byte r) as Hs. destruct (span name_byte r) as [name r1]. cbn in Hs.
    destruct (String.eqb name ""); [done|]. destruct (attrs_from _ r1) as [[[l e] r2]|] eqn:E3; [|done]. cbn.
    apply attrs_shorter in E3. intros [= <- <-]. lia.
Qed.

Lemma read_fuel n m s : (String.length s <= n)%nat -> (String.length s <= m)%nat -> read_from n s = read_from m s.
Proof.
  revert m s. induction n as [|n IH]; intros m [|c r] Hn Hm; try (by destruct m); [cbn in Hn; lia|].
  destruct m as [|m]; [cbn in Hm; lia|]. cbn in Hn, Hm. cbn [read_from]. destruct (Ascii.eqb c "<").
  - destruct (xml_markup r) as [[es rest]|] eqn:E; [|done]. cbn. apply markup_shorter in E. by rewrite (IH m rest) by lia.
  - destruct (Ascii.eqb c "&"); [|by rewrite (IH m r) by lia].
    destruct (reference r) as [[t rest]|] eqn:E; [|done]. cbn. apply reference_shorter in E. by rewrite (IH m rest) by lia.
Qed.

Lemma read_byte c s :
  Ascii.eqb c "<" = false -> Ascii.eqb c "&" = false -> read_content (String c s) = emit (String c "") <$> read_content s.
Proof. intros H1 H2. unfold read_content. cbn [String.length read_from]. rewrite H1, H2. by destruct (read_from _ s). Qed.

Lemma read_reference r t rest :
  reference r = Some (t, rest) -> read_content (String "&" r) = emit t <$> read_content rest.
Proof.
  intros E. unfold read_content. cbn [String.length read_from]. change (Ascii.eqb "&" "<") with false.
  change (Ascii.eqb "&" "&") with true. cbv iota. rewrite E. cbn. pose proof (reference_shorter _ _ _ E).
  rewrite (read_fuel (String.length r) (String.length rest)) by lia. by destruct (read_from _ rest).
Qed.

Lemma read_markup r es rest :
  xml_markup r = Some (es, rest) -> read_content (String "<" r) = join es <$> read_content rest.
Proof.
  intros E. unfold read_content. cbn [String.length read_from]. change (Ascii.eqb "<" "<") with true. cbv iota. rewrite E. cbn.
  pose proof (markup_shorter _ _ _ E). rewrite (read_fuel (String.length r) (String.length rest)) by lia.
  by destruct (read_from _ rest).
Qed.

Lemma emit_app a b l : emit a (emit b l) = emit (a ++ b) l.
Proof.
  unfold emit. destruct a as [|x a]; [done|]. rewrite str_app_cons. destruct b as [|y b]; cbn [String.eqb].
  - rewrite str_app_nil_r. done.
  - destruct l as [|[]]; cbn; try done. by rewrite <- str_app_assoc, str_app_cons.
Qed.

Lemma emit_nil l : emit "" l = l.
Proof. done. Qed.

Lemma fmap_emit_app a b (o : option (list xml_event)) : emit a <$> (emit b <$> o) = emit (a ++ b) <$> o.
Proof. destruct o; [|done]. cbn. by rewrite emit_app. Qed.

(** ** Text *)

Definition xml_plain_byte (c : ascii) : bool :=
  negb (Ascii.eqb c "&" || Ascii.eqb c "<" || Ascii.eqb c ">" || Ascii.eqb c dquote || Ascii.eqb c "'").

Lemma escape_byte_cases c :
  (xml_plain_byte c = true /\ xml_escape_byte c = String c "")
  \/ exists ref, xml_escape_byte c = String "&" ref /\ forall s, reference (ref ++ s) = Some (String c "", s).
Proof.
  unfold xml_plain_byte, xml_escape_byte.
  destruct (Ascii.eqb_spec c "&") as [->|]; [right; exists "#x26;"; split; [done|]; intros s; by vm_compute|].
  destruct (Ascii.eqb_spec c "<") as [->|]; [right; exists "#x3C;"; split; [done|]; intros s; by vm_compute|].
  destruct (Ascii.eqb_spec c ">") as [->|]; [right; exists "#x3E;"; split; [done|]; intros s; by vm_compute|].
  destruct (Ascii.eqb_spec c dquote) as [->|]; [right; exists "#x22;"; split; [done|]; intros s; by vm_compute|].
  destruct (Ascii.eqb_spec c "'") as [->|]; [right; exists "#x27;"; split; [done|]; intros s; by vm_compute|].
  by left.
Qed.

Lemma plain_not c : xml_plain_byte c = true ->
  Ascii.eqb c "<" = false /\ Ascii.eqb c "&" = false /\ Ascii.eqb c dquote = false.
Proof. unfold xml_plain_byte. rewrite negb_true_iff, !orb_false_iff. tauto. Qed.

(** Escaped text reads as the text, wherever it stands. *)
Lemma read_escaped t s : read_content (textEscaper t ++ s) = emit t <$> read_content s.
Proof.
  induction t as [|c t IH]; cbn [textEscaper]; [rewrite str_app_nil_l; by destruct (read_content s)|]. rewrite str_app_assoc.
  destruct (escape_byte_cases c) as [[Hp ->]|(ref & -> & Hr)].
  - destruct (plain_not c Hp) as (H1 & H2 & _). rewrite str_app_cons, str_app_nil_l, read_byte, IH, fmap_emit_app by done. done.
  - rewrite str_app_cons. rewrite (read_reference _ _ _ (Hr _)), IH, fmap_emit_app. done.
Qed.

Lemma textEscaper_plain s : all_bytes xml_plain_byte s = true -> textEscaper s = s.
Proof.
  induction s as [|c s IH]; [done|]. rewrite all_bytes_cons. intros [Hc Hs]%andb_true_iff. cbn [textEscaper]. rewrite IH by done.
  unfold xml_plain_byte in Hc. rewrite negb_true_iff, !orb_false_iff in Hc. destruct Hc as ((((H1 & H2) & H3) & H4) & H5).
  unfold xml_escape_byte. by rewrite H1, H2, H3, H4, H5.
Qed.

(** Literal text: nothing of it needs escaping. *)
Lemma read_plain t s : all_bytes xml_plain_byte t = true -> read_content (t ++ s) = emit t <$> read_content s.
Proof. intros Ht. rewrite <- (textEscaper_plain t Ht) at 1. apply read_escaped. Qed.

(** ** Tags *)

Definition quoted (v : string) : string := String dquote (textEscaper v ++ String dquote "").

Definition print_attr (a : string * string) : string := " " ++ a.1 ++ "=" ++ quoted a.2.
Definition print_attrs (l : list (string * string)) : string := foldr (fun a acc => print_attr a ++ acc) "" l.

Lemma value_escaped v s n :
  (String.length (textEscaper v) < n)%nat -> value_from n (textEscaper v ++ String dquote s) = Some (v, s).
Proof.
  revert n. induction v as [|c v IH]; intros n Hn; cbn [textEscaper] in *.
  - destruct n; [lia|]. rewrite str_app_nil_l. cbn [value_from]. by rewrite Ascii.eqb_refl.
  - rewrite str_app_length in Hn. rewrite str_app_assoc.
    destruct (escape_byte_cases c) as [[Hp E]|(ref & E & Hr)]; rewrite E in *.
    + destruct (plain_not c Hp) as (H1 & H2 & H3). destruct n as [|n]; [lia|]. rewrite str_app_cons, str_app_nil_l.
      cbn [value_from]. rewrite H1, H2, H3. cbn in Hn. rewrite IH by lia. done.
    + destruct n as [|n]; [lia|]. rewrite str_app_cons. cbn [value_from]. change (Ascii.eqb "&" dquote) with false.
      change (Ascii.eqb "&" "<") with false. change (Ascii.eqb "&" "&") with true. cbv iota. rewrite Hr. cbn. cbn in Hn.
      rewrite IH by lia. done.
Qed.

Definition good_name (n : string) : bool := negb (String.eqb n "") && all_bytes name_byte n.

Lemma span_name n s :
  good_name n = true -> match s with String c _ => name_byte c = false | "" => True end -> span name_byte (n ++ s) = (n, s).
Proof.
  unfold good_name. intros [_ Hn]%andb_true_iff Hs. induction n as [|c n IH].
  - rewrite str_app_nil_l. destruct s as [|c s]; [done|]. cbn. by rewrite Hs.
  - rewrite all_bytes_cons in Hn. apply andb_true_iff in Hn as [Hc Hn]. rewrite str_app_cons. cbn. by rewrite Hc, IH.
Qed.

Lemma good_name_nonempty n : good_name n = true -> String.eqb n "" = false.
Proof. unfold good_name. by intros [?%negb_true_iff _]%andb_true_iff. Qed.

Definition end_of_tag (e : bool) : string := if e then "/>" else ">".

Lemma attrs_printed l e s n :
  forallb (fun a => good_name a.1) l = true -> (List.length l < n)%nat ->
  attrs_from n (print_attrs l ++ end_of_tag e ++ s) = Some (l, e, s).
Proof.
  revert n. induction l as [|[name v] l IH]; intros n Hl Hn; cbn in Hn; (destruct n as [|n]; [lia|]).
  - cbn [print_attrs foldr]. rewrite str_app_nil_l. destruct e; reflexivity.
  - cbn [forallb fst] in Hl. apply andb_true_iff in Hl as [Hname Hl].
    change (print_attrs ((name, v) :: l)) with (print_attr (name, v) ++ print_attrs l). unfold print_attr, quoted. cbn [fst snd].
    repeat (rewrite ?str_app_assoc, ?str_app_cons, ?str_app_nil_l). cbn [attrs_from].
    change (strip_prefix ">" (String " " ?x)) with (@None string). change (strip_prefix "/>" (String " " ?x)) with (@None string).
    change (strip_prefix " " (String " " ?x)) with (Some x). cbv iota. cbn [mbind option_bind].
    rewrite span_name by done. rewrite good_name_nonempty by done.
    change (strip_prefix ("=" ++ String dquote "") (String "=" (String dquote ?x))) with (Some x). cbn [mbind option_bind].
    rewrite value_escaped by (rewrite !str_app_length; cbn; lia). cbn [mbind option_bind]. rewrite IH by (done || lia). done.
Qed.

Lemma good_name_head n s :
  good_name n = true -> strip_prefix "![CDATA[" (n ++ s) = None /\ strip_prefix "!" (n ++ s) = None /\ strip_prefix "/" (n ++ s) = None.
Proof.
  unfold good_name. destruct n as [|c n]; [done|]. rewrite all_bytes_cons. intros [_ [Hc _]%andb_true_iff]%andb_true_iff.
  rewrite str_app_cons. cbn [strip_prefix].
  assert (c <> "!"%char /\ c <> "/"%char) as [H1 H2] by (split; intros ->; by vm_compute in Hc).
  rewrite (proj2 (Ascii.eqb_neq _ _)) by (intros E; by apply H1).
  rewrite (proj2 (Ascii.eqb_neq _ _)) by (intros E; by apply H2). done.
Qed.

Lemma markup_tag n l e s :
  good_name n = true -> forallb (fun a => good_name a.1) l = true ->
  xml_markup (n ++ print_attrs l ++ end_of_tag e ++ s) = Some (EOpen n l :: (if e then [EClose n] else []), s).
Proof.
  intros Hn Hl. unfold xml_markup. destruct (good_name_head n (print_attrs l ++ end_of_tag e ++ s) Hn) as (-> & -> & ->).
  rewrite span_name; [|done|].
  - rewrite good_name_nonempty by done. rewrite attrs_printed; [done|done|].
    rewrite str_app_length. enough (List.length l <= String.length (print_attrs l))%nat by lia. clear.
    induction l as [|[a v] l IH]; [done|]. change (print_attrs ((a, v) :: l)) with (print_attr (a, v) ++ print_attrs l).
    rewrite str_app_length. unfold print_attr. rewrite str_app_length. cbn. lia.
  - by destruct l, e.
Qed.

Lemma read_open n l s :
  good_name n = true -> forallb (fun a => good_name a.1) l = true ->
  read_content ("<" ++ n ++ print_attrs l ++ ">" ++ s) = cons (EOpen n l) <$> read_content s.
Proof. intros Hn Hl. rewrite str_app_cons, str_app_nil_l. apply (read_markup _ _ _ (markup_tag n l false s Hn Hl)). Qed.

Lemma read_empty n l s :
  good_name n = true -> forallb (fun a => good_name a.1) l = true ->
  read_content ("<" ++ n ++ print_attrs l ++ "/>" ++ s) = (fun k => EOpen n l :: EClose n :: k) <$> read_content s.
Proof. intros Hn Hl. rewrite str_app_cons, str_app_nil_l. apply (read_markup _ _ _ (markup_tag n l true s Hn Hl)). Qed.

Lemma read_close n s : good_name n = true -> read_content ("</" ++ n ++ ">" ++ s) = cons (EClose n) <$> read_content s.
Proof.
  intros Hn. rewrite !str_app_cons, str_app_nil_l. apply (read_markup _ [EClose n]). unfold xml_markup.
  change (strip_prefix "![CDATA[" (String "/" ?x)) with (@None string). change (strip_prefix "!" (String "/" ?x)) with (@None string). change (strip_prefix "/" (String "/" ?x)) with (Some x).
  cbv iota. rewrite span_name by done. rewrite good_name_nonempty by done. done.
Qed.

(** ** CDATA sections *)

Local Notation "'no_close' x" := (find_sub cdata_close x = None) (at level 10, x at level 9).

(** An opening bracket of [cdata_close] is decided by three bytes. *)
Lemma close_here c d e r : strip_prefix cdata_close (String c (String d (String e r))) =
  if Ascii.eqb "]" c && Ascii.eqb "]" d && Ascii.eqb ">" e then Some r else None.
Proof. cbn [strip_prefix cdata_close]. destruct (Ascii.eqb "]" c); [|done]. destruct (Ascii.eqb "]" d); [|done]. by destruct (Ascii.eqb ">" e). Qed.

Lemma no_close_cons c s : no_close (String c s) <-> strip_prefix cdata_close (String c s) = None /\ no_close s.
Proof.
  cbn [find_sub]. destruct (strip_prefix _ _) eqn:E; [split; [done|by intros [? _]]|].
  destruct (find_sub _ s) as [[x y]|]; [split; [done|by intros [_ ?]]|done].
Qed.

Lemma no_close_short c d : strip_prefix cdata_close (String c "") = None /\ strip_prefix cdata_close (String c (String d "")) = None.
Proof. cbn [strip_prefix cdata_close]. destruct (Ascii.eqb "]" c), (Ascii.eqb "]" d); done. Qed.

(** A bracket after it cannot complete the terminator. *)
Lemma no_close_bracket x : no_close x -> no_close (x ++ "]").
Proof.
  induction x as [|c x IH]; [done|]. rewrite no_close_cons. intros [Hc Hx]. rewrite str_app_cons, no_close_cons. split; [|by apply IH].
  destruct x as [|d [|e x]]; rewrite ?str_app_cons, ?str_app_nil_l.
  - apply no_close_short.
  - rewrite close_here. change (Ascii.eqb ">" "]") with false. by rewrite andb_false_r.
  - rewrite close_here in Hc |- *. by destruct (_ && _ && _).
Qed.

(** The terminator a section finds is the one written after it. *)
Lemma section_ends x t : no_close (x ++ "]]") -> find_sub cdata_close (x ++ cdata_close ++ t) = Some (x, t).
Proof.
  induction x as [|c x IH]; [done|]. rewrite !str_app_cons, no_close_cons. intros [Hc Hx]. cbn [find_sub]. rewrite (IH Hx).
  enough (strip_prefix cdata_close (String c (x ++ cdata_close ++ t)) = None) as -> by done.
  destruct x as [|d [|e x]]; unfold cdata_close at 2; rewrite ?str_app_cons, ?str_app_nil_l in *; rewrite close_here in *;
    [by rewrite ?andb_false_r..|by destruct (_ && _ && _)].
Qed.

Lemma before_first s x y : find_sub cdata_close s = Some (x, y) -> no_close (x ++ "]]").
Proof.
  revert x. induction s as [|c s IH]; intros x; [done|]. cbn [find_sub].
  destruct (strip_prefix _ _) eqn:E; [intros [= <- <-]; done|].
  destruct (find_sub cdata_close s) as [[x' y']|] eqn:Es; [|done]. intros [= <- <-].
  rewrite str_app_cons, no_close_cons. split; [|by apply IH].
  pose proof (find_sub_spec cdata_close s) as Hs. rewrite Es in Hs. subst s.
  destruct x' as [|d [|e x']]; rewrite ?str_app_cons, ?str_app_nil_l in *; rewrite close_here in *;
    [by rewrite ?andb_false_r..|by destruct (_ && _ && _)].
Qed.

Lemma join_emit x l : join (emit x []) l = emit x l.
Proof. unfold emit at 1. by destruct (String.eqb_spec x "") as [->|]. Qed.

Lemma read_section x s : no_close (x ++ "]]") -> read_content (cdata_open ++ x ++ cdata_close ++ s) = emit x <$> read_content s.
Proof.
  intros Hx. unfold cdata_open. rewrite str_app_cons. rewrite (read_markup _ (emit x []) s).
  - destruct (read_content s) as [l|]; [|done]. cbn. by rewrite join_emit.
  - unfold xml_markup. rewrite strip_prefix_app. by rewrite section_ends.
Qed.

Lemma read_split fuel pre s rest :
  (String.length s < fuel)%nat -> pre = "" \/ pre = ">" ->
  read_content (cdata_open ++ pre ++ replace_from fuel s cdata_close cdata_split ++ cdata_close ++ rest) = emit (pre ++ s) <$> read_content rest.
Proof.
  revert pre s. induction fuel as [|fuel IH]; intros pre s Hl Hp; [lia|]. cbn [replace_from].
  assert (Hpre : forall z, no_close z -> no_close (pre ++ z)).
  { destruct Hp as [-> | ->]; intros z Hz; [done|]. rewrite str_app_cons, str_app_nil_l, no_close_cons. done. }
  destruct (find_sub cdata_close s) as [[x y]|] eqn:E.
  - pose proof (find_sub_spec cdata_close s) as Hs. rewrite E in Hs.
    replace (cdata_open ++ pre ++ (x ++ cdata_split ++ replace_from fuel y cdata_close cdata_split) ++ cdata_close ++ rest)
      with (cdata_open ++ (pre ++ x ++ "]]") ++ cdata_close ++ cdata_open ++ ">" ++ replace_from fuel y cdata_close cdata_split ++ cdata_close ++ rest)
      by (unfold cdata_split; rewrite !str_app_assoc; done).
    rewrite read_section, IH, fmap_emit_app; [|rewrite Hs, !str_app_length in Hl; cbn in Hl; lia|by right|].
    + f_equal. f_equal. rewrite Hs, !str_app_assoc. done.
    + rewrite !str_app_assoc. apply Hpre. change ("]]" ++ "]]") with ("]]" ++ "]" ++ "]"). rewrite <- !str_app_assoc.
      do 2 apply no_close_bracket. by eapply before_first.
  - rewrite <- (str_app_assoc pre). apply read_section. rewrite str_app_assoc. apply Hpre. change "]]" with ("]" ++ "]").
    rewrite <- str_app_assoc. by do 2 apply no_close_bracket.
Qed.

(** A section reads as what was put into it, whatever terminators that contains. *)
Lemma read_CDATA s rest : read_content (CDATA s ++ rest) = emit (sanitizeXMLText s) <$> read_content rest.
Proof.
  pose proof (read_split (S (String.length (sanitizeXMLText s))) "" (sanitizeXMLText s) rest) as H. rewrite !str_app_nil_l in H.
  unfold CDATA, replace_all. rewrite !str_app_assoc. rewrite H; [done|lia|by left].
Qed.

(** ** Characters *)

Lemma xml_chars_spec s : xml_chars s = true <-> exists l, Utf8 s l /\ forallb xml_rune l = true.
Proof.
  unfold xml_chars. rewrite andb_true_iff, valid_utf8. split; [intros [H1 H2]; eauto|].
  intros (l & Hl & Hr). destruct (Utf8_valid _ _ Hl) as [_ ->]. done.
Qed.

Lemma xml_chars_app a b : xml_chars a = true -> xml_chars b = true -> xml_chars (a ++ b) = true.
Proof.
  rewrite !xml_chars_spec. intros (la & Ha & Hla) (lb & Hb & Hlb). exists (la ++ lb)%list. split; [by apply Utf8_app|].
  by rewrite forallb_app, Hla, Hlb.
Qed.

(** Cutting at an ASCII byte. *)
Lemma xml_chars_split a c b :
  ascii_byte c = true -> xml_chars (a ++ String c b) = true -> xml_chars a = true /\ xml_chars (String c b) = true.
Proof.
  intros Hc. rewrite !xml_chars_spec. intros (l & H & Hl). destruct (Utf8_split _ _ _ _ Hc H) as (la & lb & Ha & Hb & ->).
  rewrite forallb_app in Hl. apply andb_true_iff in Hl as [H1 H2]. split; [by exists la|by exists lb].
Qed.

Lemma xml_chars_tail c s : ascii_byte c = true -> xml_chars (String c s) = true -> xml_chars s = true.
Proof.
  intros Hc. rewrite !xml_chars_spec. intros (l & H & Hl). inversion H as [|x s' l' Hx H' E|h s' l' Hm H' E]; subst.
  - cbn [forallb] in Hl. apply andb_true_iff in Hl as [_ Hl]. eauto.
  - destruct (multi_len h "" Hm) as (_ & _ & Hb & Hn). destruct h as [|x h]; [done|]. rewrite str_app_cons in E. injection E as -> E.
    by rewrite all_bytes_cons, Hc in Hb.
Qed.

Lemma plain_multi c : ascii_byte c = false -> xml_plain_byte c = true.
Proof.
  intros Hc. unfold xml_plain_byte. rewrite negb_true_iff, !orb_false_iff, !Ascii.eqb_neq. split_and!; intros ->; by vm_compute in Hc.
Qed.

Lemma textEscaper_app a b : textEscaper (a ++ b) = textEscaper a ++ textEscaper b.
Proof. induction a as [|c a IH]; [done|]. rewrite str_app_cons. cbn [textEscaper]. by rewrite IH, str_app_assoc. Qed.

Lemma escape_byte_chars c : ascii_byte c = true -> xml_chars (String c "") = true -> xml_chars (xml_escape_byte c) = true.
Proof.
  intros Ha Hc. unfold xml_escape_byte. repeat (destruct (Ascii.eqb c _); [vm_compute; reflexivity|]). done.
Qed.

Lemma escaped_chars s : xml_chars s = true -> xml_chars (textEscaper s) = true.
Proof.
  rewrite xml_chars_spec. intros (l & H & Hl). induction H as [|c s l Hc H IH|h s l Hm H IH]; [done|..];
    cbn [forallb] in Hl; apply andb_true_iff in Hl as [Hr Hl].
  - cbn [textEscaper]. apply xml_chars_app; [|by apply IH]. apply escape_byte_chars; [done|]. apply xml_chars_spec.
    eexists. split; [apply Utf8_ascii; [done|constructor]|]. cbn [forallb]. by rewrite Hr.
  - rewrite textEscaper_app. apply xml_chars_app; [|by apply IH]. destruct (multi_len h "" Hm) as (_ & _ & Hb & _).
    rewrite textEscaper_plain; [apply xml_chars_spec; eexists; split; [by apply Utf8_one|]; cbn [forallb]; by rewrite Hr|].
    revert Hb. apply all_bytes_weaken. intros c Hc. apply plain_multi. by apply negb_true_iff in Hc.
Qed.

(** Replacing ASCII by ASCII. *)
Lemma replaced_chars fuel s p new :
  p <> "" -> all_bytes ascii_byte p = true -> xml_chars new = true -> xml_chars s = true -> xml_chars (replace_from fuel s p new) = true.
Proof.
  intros Hp Ha Hn. revert s. induction fuel as [|fuel IH]; intros s Hs; [done|]. cbn [replace_from].
  destruct (find_sub p s) as [[x y]|] eqn:E; [|done]. pose proof (find_sub_spec p s) as H. rewrite E in H. subst s.
  destruct p as [|c p]; [done|]. rewrite all_bytes_cons in Ha. apply andb_true_iff in Ha as [Hc Ha].
  rewrite str_app_cons in Hs. apply xml_chars_split in Hs as [Hx Hs]; [|done].
  apply xml_chars_app; [done|]. apply xml_chars_app; [done|]. apply IH. apply (xml_chars_tail c) in Hs; [|done].
  clear -Hs Ha. induction p as [|d p IH]; [done|]. rewrite all_bytes_cons in Ha. apply andb_true_iff in Ha as [Hd Ha].
  apply IH; [done|]. rewrite str_app_cons in Hs. by apply xml_chars_tail in Hs.
Qed.

(** *** What the sanitizer leaves *)

Lemma find_sub_cut c s : find_sub (String c "") s = cut s c.
Proof.
  induction s as [|x s IH]; [done|]. cbn [find_sub strip_prefix cut]. rewrite Ascii.eqb_sym. by destruct (Ascii.eqb x c); rewrite ?IH.
Qed.

Lemma replaced_lacks fuel s c new : (String.length s < fuel)%nat -> lacks c new -> lacks c (replace_from fuel s (String c "") new).
Proof.
  intros Hl Hn. revert s Hl. induction fuel as [|fuel IH]; intros s Hl; [lia|]. cbn [replace_from]. rewrite find_sub_cut.
  destruct (cut s c) as [[x y]|] eqn:E; [|by apply cut_lacks]. apply cut_shorter in E as Hy. apply cut_Some in E as [_ Hx].
  rewrite !lacks_app. split_and!; [done|done|apply IH; lia].
Qed.

Lemma existsb_lacks c s : existsb (Ascii.eqb c) (list_ascii_of_string s) = false -> lacks c s.
Proof.
  induction s as [|x s IH]; [done|]. cbn [list_ascii_of_string existsb]. rewrite orb_false_iff. intros [Hx Hs]. apply lacks_cons.
  split; [intros ->; by rewrite Ascii.eqb_refl in Hx|by apply IH].
Qed.

Lemma normalized_lacks s : lacks "013" (normalize_lines s).
Proof.
  unfold normalize_lines. destruct (existsb _ _) eqn:E; [|by apply existsb_lacks]. apply replaced_lacks; [lia|done].
Qed.

Lemma xml_rune_scalar r : xml_rune r = true -> scalar r = true.
Proof.
  unfold xml_rune, isInvalidXMLRune, scalar. rewrite andb_true_iff. intros [H _].
  destruct ((r =? 9) || (r =? 10) || (r =? 13)) eqn:E1; [apply orb_true_iff in E1 as [[E|E]%orb_true_iff|E]; apply Z.eqb_eq in E; by subst|].
  repeat match type of H with context [(?a <=? r) && (r <=? ?b)] => destruct (Z.leb_spec a r), (Z.leb_spec r b); cbn in H end; try done;
    rewrite !andb_true_iff, negb_true_iff, andb_false_iff, !Z.leb_le, !Z.leb_gt; lia.
Qed.

Lemma forallb_filter_and {A} (p q : A -> bool) l : forallb q l = true -> forallb (fun x => p x && q x) (List.filter p l) = true.
Proof.
  induction l as [|x l IH]; [done|]. cbn [forallb List.filter]. intros [Hx Hl]%andb_true_iff. destruct (p x) eqn:E; [|by apply IH].
  cbn [forallb]. by rewrite E, Hx, IH.
Qed.

(** Whatever bytes come in, what goes out can stand in a document. *)
Lemma sanitized_chars s : xml_chars (sanitizeXMLText s) = true.
Proof.
  unfold sanitizeXMLText. set (t := normalize_lines s). cbv zeta.
  pose proof (runes_lack "013" t (normalized_lacks s) eq_refl) as Hcr. change (Z.of_nat (nat_of_ascii "013")) with 13 in Hcr.
  destruct (ValidString t && _) eqn:E.
  - apply andb_true_iff in E as [Hv Hi]. unfold xml_chars. rewrite Hv. cbn [andb]. apply negb_true_iff in Hi.
    apply forallb_forall. intros r Hr. unfold xml_rune. rewrite (proj1 (forallb_forall _ _) Hcr r Hr), andb_true_r, negb_true_iff.
    destruct (isInvalidXMLRune r) eqn:Er; [|done]. rewrite <- Hi. symmetry. apply existsb_exists. eauto.
  - set (l := List.filter _ _). assert (Hl : forallb xml_rune l = true).
    { unfold l. eapply forallb_forall. intros r Hr. pose proof (forallb_filter_and (fun r => negb ((r =? 65533) || isInvalidXMLRune r)) _ _ Hcr) as Hf.
      apply (proj1 (forallb_forall _ _) Hf) in Hr. unfold xml_rune. rewrite negb_orb, !andb_true_iff in *. tauto. }
    apply xml_chars_spec. exists l. split; [|done]. apply encode_runes_utf8. apply forallb_forall. intros r Hr. apply xml_rune_scalar.
    by apply (proj1 (forallb_forall _ _) Hl).
Qed.

Lemma EscapeText_chars s : xml_chars (EscapeText s) = true.
Proof. apply escaped_chars, sanitized_chars. Qed.

Lemma CDATA_chars s : xml_chars (CDATA s) = true.
Proof.
  unfold CDATA. apply xml_chars_app; [done|]. apply xml_chars_app; [|done]. apply replaced_chars; [done|done|done|apply sanitized_chars].
Qed.

(** The sanitizer changes nothing that can stand in a document. *)
Lemma sanitized_id s : xml_chars s = true -> sanitizeXMLText s = s.
Proof.
  intros Hs. assert (E : normalize_lines s = s).
  { unfold normalize_lines. destruct (existsb _ _) eqn:E; [|done]. exfalso.
    apply existsb_exists in E as (x & Hx & <-%Ascii.eqb_eq). apply xml_chars_spec in Hs as (l & H & Hl).
    assert (Hin : In 13 l).
    { clear Hl. induction H as [|c s l Hc H IH|h s l Hm H IH]; [done|..].
      - cbn in Hx. destruct Hx as [->|Hx]; [by left|right; by apply IH].
      - right. apply IH. destruct (multi_len h "" Hm) as (_ & _ & Hb & _). clear -Hx Hb. induction h as [|c h IH]; [done|].
        rewrite all_bytes_cons in Hb. apply andb_true_iff in Hb as [Hc Hb]. rewrite str_app_cons in Hx. destruct Hx as [->|Hx]; [done|by apply IH]. }
    apply (proj1 (forallb_forall _ _) Hl) in Hin. done. }
  unfold sanitizeXMLText. rewrite E. cbv zeta. unfold xml_chars in Hs. apply andb_true_iff in Hs as [-> Hr]. cbn [andb].
  destruct (existsb isInvalidXMLRune (runes s)) eqn:Ex; [|done]. apply existsb_exists in Ex as (r & Hin & Hbad).
  apply (proj1 (forallb_forall _ _) Hr) in Hin. unfold xml_rune in Hin. by rewrite Hbad in Hin.
Qed.

(** ** Composing documents *)

(** [Reads a f]: wherever [a] stands, the reader sees what [f] adds. *)
Definition Reads (a : string) (f : list xml_event -> list xml_event) : Prop :=
  forall rest, read_content (a ++ rest) = f <$> read_content rest.

Lemma Reads_app a b f g : Reads a f -> Reads b g -> Reads (a ++ b) (fun k => f (g k)).
Proof. intros Ha Hb rest. rewrite str_app_assoc, Ha, Hb. by destruct (read_content rest). Qed.

Lemma Reads_ext a f g : (forall k, f k = g k) -> Reads a f -> Reads a g.
Proof. intros H Ha rest. rewrite Ha. destruct (read_content rest); [|done]. cbn. by rewrite H. Qed.

Lemma Reads_nil : Reads "" (fun k => k).
Proof. intros rest. rewrite str_app_nil_l. by destruct (read_content rest). Qed.

Lemma Reads_when (b : bool) a f : (b = true -> Reads a f) -> Reads (if b then a else "") (fun k => if b then f k else k).
Proof. destruct b; intros H; [by apply H|apply Reads_nil]. Qed.

Definition concat_map {A} (f : A -> string) (l : list A) : string := foldr (fun x acc => f x ++ acc) "" l.

Lemma Reads_concat {A} (p : A -> string) (f : A -> list xml_event -> list xml_event) l :
  (forall x, Reads (p x) (f x)) -> Reads (concat_map p l) (fun k => foldr f k l).
Proof. intros H. induction l as [|x l IH]; [apply Reads_nil|]. exact (Reads_app _ _ _ _ (H x) IH). Qed.

Lemma Reads_text s : Reads (EscapeText s) (emit (sanitizeXMLText s)).
Proof. intros rest. apply read_escaped. Qed.

Lemma Reads_cdata s : Reads (CDATA s) (emit (sanitizeXMLText s)).
Proof. intros rest. apply read_CDATA. Qed.

Lemma Reads_plain s : all_bytes xml_plain_byte s = true -> Reads s (emit s).
Proof. intros Hs rest. by apply read_plain. Qed.

(** Text that holds neither an ampersand nor the start of a tag. *)
Definition raw_byte (c : ascii) : bool := negb (Ascii.eqb c "<" || Ascii.eqb c "&").

Lemma Reads_raw s : all_bytes raw_byte s = true -> Reads s (emit s).
Proof.
  induction s as [|c s IH]; intros Hs rest; [rewrite str_app_nil_l; by destruct (read_content rest)|].
  rewrite all_bytes_cons in Hs. apply andb_true_iff in Hs as [Hc Hs]. unfold raw_byte in Hc. rewrite negb_true_iff, orb_false_iff in Hc.
  destruct Hc as [H1 H2]. rewrite str_app_cons, read_byte, (IH Hs), fmap_emit_app by done. done.
Qed.

(** A tag is given by its name, its attributes and how it ends. *)
Definition tag (n : string) (l : list (string * string)) (e : bool) : string := "<" ++ n ++ print_attrs l ++ end_of_tag e.
Definition good_tag (n : string) (l : list (string * string)) : bool := good_name n && forallb (fun a => good_name a.1) l.

Lemma Reads_open n l : good_tag n l = true -> Reads (tag n l false) (cons (EOpen n l)).
Proof. intros [Hn Hl]%andb_true_iff rest. unfold tag. rewrite !str_app_assoc. by apply read_open. Qed.

Lemma Reads_empty n l : good_tag n l = true -> Reads (tag n l true) (fun k => EOpen n l :: EClose n :: k).
Proof. intros [Hn Hl]%andb_true_iff rest. unfold tag. rewrite !str_app_assoc. by apply read_empty. Qed.

Lemma Reads_close n : good_name n = true -> Reads ("</" ++ n ++ ">") (cons (EClose n)).
Proof. intros Hn rest. rewrite !str_app_assoc. by apply read_close. Qed.

(** A document that reads, and whose tags nest, is one. *)
Lemma Reads_document a f : Reads a f -> nested [] (f []) = true -> read_document (xml_declaration ++ a) = Some (f []).
Proof.
  intros Ha Hn. unfold read_document. rewrite strip_prefix_app. cbn. rewrite <- (str_app_nil_r a), Ha. cbn. by rewrite Hn.
Qed.

(** ** Tokens *)

(** What remains when the text between the tags of an element's children is
    ignored, and an element without children is one token with its text. *)
Inductive xml_token := TOpen (n : string) (a : list (string * string)) | TClose (n : string)
| TLeaf (n : string) (a : list (string * string)) (t : string).

Fixpoint tokens (l : list xml_event) : list xml_token :=
  match l with
  | [] => []
  | EText _ :: r => tokens r
  | EClose n :: r => TClose n :: tokens r
  | EOpen n a :: r =>
      match r with
      | EClose _ :: r' => TLeaf n a "" :: tokens r'
      | EText t :: EClose _ :: r' => TLeaf n a t :: tokens r'
      | _ => TOpen n a :: tokens r
      end
  end.

Lemma tokens_emit t k : tokens (emit t k) = tokens k.
Proof. unfold emit. destruct (String.eqb t ""); [done|]. by destruct k as [|[]]. Qed.

Lemma nested_emit o t k : nested o (emit t k) = nested o k.
Proof. unfold emit. destruct (String.eqb t ""); [done|]. by destruct k as [|[]]. Qed.

Lemma tokens_leaf n a t k : tokens (EOpen n a :: emit t (EClose n :: k)) = TLeaf n a t :: tokens k.
Proof. unfold emit. by destruct (String.eqb_spec t "") as [->|]. Qed.

(** The next tag, whatever text comes before it, is an opening one. *)
Definition opens (k : list xml_event) : bool :=
  match k with EOpen _ _ :: _ | EText _ :: EOpen _ _ :: _ => true | _ => false end.

Lemma opens_emit t k : opens k = true -> opens (emit t k) = true.
Proof. unfold emit. destruct (String.eqb t ""); [done|]. by destruct k as [|[| |] [|[]]]. Qed.

Lemma tokens_open n a k : opens k = true -> tokens (EOpen n a :: k) = TOpen n a :: tokens k.
Proof. by destruct k as [|[| |] [|[]]]. Qed.

Create HintDb reads.
#[export] Hint Resolve Reads_app Reads_text Reads_cdata : reads.
#[export] Hint Rewrite tokens_emit tokens_leaf nested_emit : reads.
