(* ===== verification/Timestamps.v ===== *)
(** * Timestamp columns: internal/store/items.go, formatTime

    Every timestamp column of the database is text, [time.RFC3339Nano] in UTC,
    and SQLite compares those columns byte by byte.  This file is the text
    form, and how its order relates to the order of time. *)

From S2P Require Import Prelude GoTime GoStrings.
From Stdlib Require Import String Ascii.

(** A year takes four digits, or as many as it needs, and a sign. *)
Fixpoint ndigits (fuel : nat) (n : Z) : nat :=
  match fuel with
  | O => 1
  | S f => if n <? 10 then 1 else S (ndigits f (n / 10))
  end.

Definition show_year (y : Z) (rest : string) : string :=
  if y <? 0 then String "-" (pad (Nat.max 4 (ndigits 20 (- y))) (- y) rest)
  else pad (Nat.max 4 (ndigits 20 y)) y rest.

(** The fraction [.999999999] of the layout: nine digits, trailing zeros dropped. *)
Fixpoint frac_digits (k : nat) (n : Z) (rest : string) : string :=
  match k with
  | O => rest
  | S k' => if n mod 10 =? 0 then frac_digits k' (n / 10) rest else pad (S k') n rest
  end.

Definition show_frac (ns : Z) (rest : string) : string :=
  if ns =? 0 then rest else String "." (frac_digits 9 ns rest).

Definition formatTime (t : Z) : string :=
  show_year (Year UTC t) (String "-" (pad 2 (Month UTC t) (String "-" (pad 2 (Day UTC t)
    (String "T" (pad 2 (Hour UTC t) (String ":" (pad 2 (Minute UTC t)
    (String ":" (pad 2 (Second UTC t) (show_frac (nsec t) "Z"))))))))))).

(** [t.Truncate(time.Second)]. *)
Definition truncatePublishedAt (t : Z) : Z := truncate t second.

(** The comparisons the queries make between two columns, or a column and a bound. *)
Definition text_lt (a b : Z) : bool := str_ltb (formatTime a) (formatTime b).
Definition text_le (a b : Z) : bool := str_leb (formatTime a) (formatTime b).
Definition text_eq (a b : Z) : bool := bool_decide (formatTime a = formatTime b).

(** The instants a four-digit year can name. *)
Definition four_digit (t : Z) : Prop := 0 <= Year UTC t <= 9999.

Example formatTime_ex :
  formatTime (1767225600 * second + 120000000) = "2026-01-01T00:00:00.12Z"%string.
Proof. reflexivity. Qed.

(** ** Comparing padded numbers *)

Lemma ascii_compare_digit a b :
  0 <= a < 10 -> 0 <= b < 10 -> Ascii.compare (digit_char a) (digit_char b) = (a ?= b).
Proof.
  intros Ha Hb. unfold Ascii.compare, digit_char, ascii_of_nat, N_of_ascii.
  assert (Hc : forallb (fun x => forallb (fun y => match
     (N_of_ascii (ascii_of_N (N.of_nat (Z.to_nat (48 + x)))) ?=
      N_of_ascii (ascii_of_N (N.of_nat (Z.to_nat (48 + y)))))%N, x ?= y with
     | Eq, Eq | Lt, Lt | Gt, Gt => true | _, _ => false end) (seqZ 0 10)) (seqZ 0 10) = true)
    by (vm_compute; reflexivity).
  rewrite forallb_forall in Hc.
  specialize (Hc a ltac:(apply list_elem_of_In, elem_of_seqZ; lia)). rewrite forallb_forall in Hc.
  specialize (Hc b ltac:(apply list_elem_of_In, elem_of_seqZ; lia)).
  change ((N_of_ascii (ascii_of_N (N.of_nat (Z.to_nat (48 + a)))) ?=
           N_of_ascii (ascii_of_N (N.of_nat (Z.to_nat (48 + b)))))%N = (a ?= b)).
  by destruct (_ ?= _)%N, (a ?= b).
Qed.

Definition then_cmp (c d : comparison) : comparison := match c with Eq => d | _ => c end.

Lemma str_compare_cons a b r s :
  String.compare (String a r) (String b s) = then_cmp (Ascii.compare a b) (String.compare r s).
Proof. by cbn; destruct (Ascii.compare a b). Qed.

Lemma str_compare_same a r s : String.compare (String a r) (String a s) = String.compare r s.
Proof. by rewrite str_compare_cons, ascii_compare_refl. Qed.

Lemma str_compare_pad k x y r s :
  0 <= x < 10 ^ Z.of_nat k -> 0 <= y < 10 ^ Z.of_nat k ->
  String.compare (pad k x r) (pad k y s) = then_cmp (x ?= y) (String.compare r s).
Proof.
  revert x y r s. induction k as [|k IH]; intros x y r s Hx Hy.
  { change (10 ^ Z.of_nat 0) with 1 in *. replace x with 0 by lia. by replace y with 0 by lia. }
  rewrite Nat2Z.inj_succ, Z.pow_succ_r in Hx, Hy by lia. cbn [pad].
  rewrite IH, str_compare_cons, ascii_compare_digit by dlia.
  pose proof (Z.div_mod x 10 ltac:(done)). pose proof (Z.div_mod y 10 ltac:(done)).
  pose proof (Z.mod_pos_bound x 10 ltac:(done)). pose proof (Z.mod_pos_bound y 10 ltac:(done)).
  destruct (x / 10 ?= y / 10) eqn:E; simpl.
  - apply Z.compare_eq in E. destruct (x mod 10 ?= y mod 10) eqn:E2; simpl.
    + apply Z.compare_eq in E2. by replace (x ?= y) with Eq by (symmetry; apply Z.compare_eq_iff; lia).
    + rewrite Z.compare_lt_iff in E2. by replace (x ?= y) with Lt by (symmetry; apply Z.compare_lt_iff; lia).
    + rewrite Z.compare_gt_iff in E2. by replace (x ?= y) with Gt by (symmetry; apply Z.compare_gt_iff; lia).
  - rewrite Z.compare_lt_iff in E. by replace (x ?= y) with Lt by (symmetry; apply Z.compare_lt_iff; lia).
  - rewrite Z.compare_gt_iff in E. by replace (x ?= y) with Gt by (symmetry; apply Z.compare_gt_iff; lia).
Qed.

Lemma show_year_pad y rest : 0 <= y <= 9999 -> show_year y rest = pad 4 y rest.
Proof.
  intros Hy. unfold show_year. split_if; [lia|]. f_equal.
  enough (ndigits 20 y <= 4)%nat by lia. cbn [ndigits].
  repeat (split_if; [lia|]). exfalso. dlia.
Qed.

Lemma text_head t : exists m d h mi s,
  formatTime t = show_year (Year UTC t) (String "-" (pad 2 m (String "-" (pad 2 d
    (String "T" (pad 2 h (String ":" (pad 2 mi (String ":" (pad 2 s (show_frac (nsec t) "Z"))))))))))) /\
  m = Month UTC t /\ d = Day UTC t /\ h = Hour UTC t /\ mi = Minute UTC t /\ s = Second UTC t /\
  1 <= m <= 12 /\ 1 <= d <= 31 /\ 0 <= h < 24 /\ 0 <= mi < 60 /\ 0 <= s < 60.
Proof.
  do 5 eexists. split; [reflexivity|]. do 5 (split; [reflexivity|]).
  pose proof (civil_of_day_valid (local_day UTC t)) as [Hm Hd].
  unfold Month, Day, Hour, Minute, Second. split; [lia|]. split; [|split; [dlia|split; dlia]].
  split; [lia|]. etransitivity; [apply Hd|].
  unfold days_in_month, days_before_month. destruct (leap _); repeat (split_if; try lia).
Qed.

(** ** The order of the calendar fields is the order of seconds *)

Definition fields_cmp (a b : Z) (tail : comparison) : comparison :=
  then_cmp (Year UTC a ?= Year UTC b) (then_cmp (Month UTC a ?= Month UTC b)
    (then_cmp (Day UTC a ?= Day UTC b) (then_cmp (Hour UTC a ?= Hour UTC b)
    (then_cmp (Minute UTC a ?= Minute UTC b) (then_cmp (Second UTC a ?= Second UTC b) tail))))).

Lemma text_compare_fields a b :
  four_digit a -> four_digit b ->
  String.compare (formatTime a) (formatTime b) =
  fields_cmp a b (String.compare (show_frac (nsec a) "Z") (show_frac (nsec b) "Z")).
Proof.
  intros Ha Hb. destruct (text_head a) as (m & d & h & mi & s & -> & -> & -> & -> & -> & -> & Hra).
  destruct (text_head b) as (m' & d' & h' & mi' & s' & -> & -> & -> & -> & -> & -> & Hrb).
  rewrite !show_year_pad by done. unfold fields_cmp, four_digit in *.
  rewrite str_compare_pad by (change (10 ^ Z.of_nat 4) with 10000; lia).
  rewrite str_compare_same, str_compare_pad by (change (10 ^ Z.of_nat 2) with 100; lia).
  rewrite str_compare_same, str_compare_pad by (change (10 ^ Z.of_nat 2) with 100; lia).
  rewrite str_compare_same, str_compare_pad by (change (10 ^ Z.of_nat 2) with 100; lia).
  rewrite str_compare_same, str_compare_pad by (change (10 ^ Z.of_nat 2) with 100; lia).
  rewrite str_compare_same, str_compare_pad by (change (10 ^ Z.of_nat 2) with 100; lia).
  done.
Qed.

(** Later days have later dates. *)
Lemma civil_mono n n' :
  n <= n' ->
  let c := civil_of_day n in let c' := civil_of_day n' in
  c_year c <= c_year c' /\
  (c_year c = c_year c' -> c_month c <= c_month c' /\
     (c_month c = c_month c' -> c_day c' - c_day c = n' - n)).
Proof.
  intros Hn c c'. pose proof (civil_of_day_valid n) as [Hm Hd]. fold c in Hm, Hd.
  pose proof (civil_of_day_valid n') as [Hm' Hd']. fold c' in Hm', Hd'.
  pose proof (days_of_civil_of_day n) as He. fold c in He.
  pose proof (days_of_civil_of_day n') as He'. fold c' in He'.
  rewrite days_of_civil_in_year in He, He' by lia. unfold days_in_month in *.
  pose proof (year_of_day_spec n) as Hy. pose proof (year_of_day_spec n') as Hy'.
  change (year_of_day n) with (c_year c) in Hy. change (year_of_day n') with (c_year c') in Hy'.
  split; [|intros E; split].
  - destruct (Z.le_gt_cases (c_year c) (c_year c')) as [|Hgt]; [done|].
    pose proof (days_before_year_mono (c_year c' + 1) (c_year c)). lia.
  - rewrite E in *. destruct (Z.le_gt_cases (c_month c) (c_month c')) as [|Hgt]; [done|].
    pose proof (days_before_month_mono (c_year c') (c_month c' + 1) (c_month c)). lia.
  - intros E2. rewrite E, E2 in *. lia.
Qed.

Lemma then_cmp_lt x y t : x < y -> then_cmp (x ?= y) t = Lt.
Proof. intros H. by rewrite (proj2 (Z.compare_lt_iff x y) H). Qed.

Lemma then_cmp_eq x y t : x = y -> then_cmp (x ?= y) t = t.
Proof. intros ->. by rewrite Z.compare_refl. Qed.

Lemma wall_UTC t : wall UTC t = unix t.
Proof. change UTC with (fixed_zone 0). rewrite wall_fixed. lia. Qed.

Lemma fields_cmp_lt a b t : unix a < unix b -> fields_cmp a b t = Lt.
Proof.
  intros H. unfold fields_cmp.
  assert (Hw : wall UTC a < wall UTC b) by (by rewrite !wall_UTC).
  assert (Hd : local_day UTC a <= local_day UTC b) by (unfold local_day; dlia).
  destruct (civil_mono _ _ Hd) as [Hy Hm]. cbv zeta in *.
  fold (Year UTC a) (Year UTC b) (Month UTC a) (Month UTC b) (Day UTC a) (Day UTC b) in *.
  destruct (decide (Year UTC a = Year UTC b)) as [Ey|]; [|apply then_cmp_lt; lia].
  rewrite then_cmp_eq by done. destruct (Hm Ey) as [Hmo Hda].
  destruct (decide (Month UTC a = Month UTC b)) as [Em|]; [|apply then_cmp_lt; lia].
  rewrite then_cmp_eq by done. specialize (Hda Em).
  destruct (decide (Day UTC a = Day UTC b)) as [Ed|]; [|apply then_cmp_lt; lia].
  rewrite then_cmp_eq by done.
  assert (Hl : wall UTC a / 86400 = wall UTC b / 86400) by (unfold local_day in *; lia).
  clear - Hl Hw. unfold Hour, Minute, Second.
  destruct (decide (wall UTC a mod 86400 / 3600 = wall UTC b mod 86400 / 3600)) as [Eh|];
    [|apply then_cmp_lt; dlia].
  rewrite then_cmp_eq by done.
  destruct (decide (wall UTC a mod 3600 / 60 = wall UTC b mod 3600 / 60)) as [Emi|];
    [|apply then_cmp_lt; dlia].
  rewrite then_cmp_eq by done. apply then_cmp_lt. dlia.
Qed.

Lemma fields_cmp_opp a b t : fields_cmp b a (CompOpp t) = CompOpp (fields_cmp a b t).
Proof.
  unfold fields_cmp.
  rewrite (Z.compare_antisym (Year UTC a)), (Z.compare_antisym (Month UTC a)),
    (Z.compare_antisym (Day UTC a)), (Z.compare_antisym (Hour UTC a)),
    (Z.compare_antisym (Minute UTC a)), (Z.compare_antisym (Second UTC a)).
  by repeat (destruct (_ ?= _); cbn [CompOpp then_cmp]; try reflexivity).
Qed.

Lemma fields_cmp_unix a b t : fields_cmp a b t = then_cmp (unix a ?= unix b) t.
Proof.
  destruct (Z.lt_trichotomy (unix a) (unix b)) as [H|[H|H]].
  - rewrite fields_cmp_lt, then_cmp_lt by done. done.
  - rewrite then_cmp_eq by done. unfold fields_cmp, Year, Month, Day, Hour, Minute, Second, local_day, wall.
    rewrite H, !Z.compare_refl. done.
  - rewrite <- (CompOpp_involutive t), fields_cmp_opp, fields_cmp_lt by done.
    by rewrite (proj2 (Z.compare_gt_iff (unix a) (unix b)) H).
Qed.

(** ** Fractions *)

Lemma frac_digits_nonempty k n rest :
  0 < n < 10 ^ Z.of_nat k -> exists d r, 0 <= d < 10 /\ frac_digits k n rest = String (digit_char d) r.
Proof.
  revert n. induction k as [|k IH]; intros n Hn.
  { change (10 ^ Z.of_nat 0) with 1 in Hn. lia. }
  rewrite Nat2Z.inj_succ, Z.pow_succ_r in Hn by lia.
  cbn [frac_digits]. split_if; [apply IH; dlia|].
  assert (Hp : forall k n rest, exists d r, 0 <= d < 10 /\ pad (S k) n rest = String (digit_char d) r).
  { clear. induction k as [|k IH]; intros n rest.
    - exists (n mod 10), rest. split; [dlia|done].
    - cbn [pad]. apply IH. }
  apply Hp.
Qed.

(** A padded number is never a proper prefix of another of the same length. *)
Lemma pad_inj k x y r s :
  0 <= x < 10 ^ Z.of_nat k -> 0 <= y < 10 ^ Z.of_nat k -> pad k x r = pad k y s -> x = y /\ r = s.
Proof.
  revert x y r s. induction k as [|k IH]; intros x y r s Hx Hy H.
  { change (10 ^ Z.of_nat 0) with 1 in *. split; [lia|done]. }
  rewrite Nat2Z.inj_succ, Z.pow_succ_r in Hx, Hy by lia. cbn [pad] in H.
  apply IH in H as [H1 H2]; [|dlia..]. injection H2 as H2 H3. split; [|done].
  assert (Hd : x mod 10 = y mod 10).
  { apply Z.compare_eq_iff. rewrite <- ascii_compare_digit by dlia. rewrite H2. apply ascii_compare_refl. }
  dlia.
Qed.

Lemma pad_length k n r : (String.length (pad k n r) = k + String.length r)%nat.
Proof. revert n r. induction k as [|k IH]; intros n r; cbn [pad]; [done|]. rewrite IH. simpl. lia. Qed.

Lemma frac_digits_pad k n rest :
  0 < n < 10 ^ Z.of_nat k ->
  exists j q, (j <= k)%nat /\ 0 <= q < 10 ^ Z.of_nat j /\ n = q * 10 ^ Z.of_nat (k - j) /\
              frac_digits k n rest = pad j q rest.
Proof.
  revert n. induction k as [|k IH]; intros n Hn.
  { change (10 ^ Z.of_nat 0) with 1 in Hn. lia. }
  pose proof Hn as Hn'. rewrite Nat2Z.inj_succ, Z.pow_succ_r in Hn by lia. cbn [frac_digits].
  destruct (n mod 10 =? 0) eqn:E; bools.
  - destruct (IH (n / 10)) as (j & q & Hj & Hq & He & Hf); [dlia|].
    exists j, q. split; [lia|]. split; [done|]. split; [|done].
    replace (S k - j)%nat with (S (k - j)) by lia.
    rewrite Nat2Z.inj_succ, Z.pow_succ_r by lia.
    rewrite Z.mul_assoc, (Z.mul_comm q), <- Z.mul_assoc, <- He. dlia.
  - exists (S k), n. split; [lia|]. split; [lia|]. split; [|done].
    rewrite Nat.sub_diag. change (10 ^ Z.of_nat 0) with 1. lia.
Qed.

Lemma nsec_range t : 0 <= nsec t < second.
Proof. apply Z.mod_pos_bound. done. Qed.

Lemma show_frac_inj a b :
  0 <= a < second -> 0 <= b < second -> show_frac a "Z" = show_frac b "Z" -> a = b.
Proof.
  intros Ha Hb. unfold show_frac. repeat split_if; intros H; try (congruence || done).
  change second with (10 ^ Z.of_nat 9) in *.
  destruct (frac_digits_pad 9 a "Z" ltac:(lia)) as (j & q & Hj & Hq & He & Hf).
  destruct (frac_digits_pad 9 b "Z" ltac:(lia)) as (j' & q' & Hj' & Hq' & He' & Hf').
  rewrite Hf, Hf' in H. injection H as H. assert (j = j') as <-.
  { apply (f_equal String.length) in H. rewrite !pad_length in H. lia. }
  apply pad_inj in H as [-> _]; [|done..]. by rewrite He, He'.
Qed.

(** A whole second is written without a fraction, and sorts after every
    fractional instant of the same second. *)
Lemma show_frac_whole_last ns :
  0 < ns < second -> String.compare (show_frac ns "Z") (show_frac 0 "Z") = Lt.
Proof. intros H. unfold show_frac. split_if; [lia|]. reflexivity. Qed.

Lemma text_compare a b :
  four_digit a -> four_digit b ->
  String.compare (formatTime a) (formatTime b) =
  then_cmp (unix a ?= unix b) (String.compare (show_frac (nsec a) "Z") (show_frac (nsec b) "Z")).
Proof. intros Ha Hb. by rewrite text_compare_fields, fields_cmp_unix. Qed.

Lemma unix_nsec t : t = unix t * second + nsec t.
Proof. unfold unix, nsec. pose proof (Z.div_mod t second ltac:(done)). lia. Qed.

Lemma text_inj a b : four_digit a -> four_digit b -> formatTime a = formatTime b -> a = b.
Proof.
  intros Ha Hb H. pose proof (text_compare a b Ha Hb) as Hc. rewrite H, str_compare_refl in Hc.
  destruct (unix a ?= unix b) eqn:E; try done. simpl in Hc. apply Z.compare_eq in E.
  assert (Hf : show_frac (nsec a) "Z" = show_frac (nsec b) "Z").
  { symmetry in Hc. apply String.compare_eq_iff in Hc. done. }
  apply show_frac_inj in Hf; [|apply nsec_range..].
  rewrite (unix_nsec a), (unix_nsec b). congruence.
Qed.

(** [a >= b] in text when [b] is a whole second: a strictly later second, or [b] itself. *)
Lemma text_ge_whole a b :
  four_digit a -> four_digit b -> nsec b = 0 ->
  text_le b a = true <-> unix b < unix a \/ a = b.
Proof.
  intros Ha Hb Hn. unfold text_le, str_leb. rewrite text_compare by done. rewrite Hn.
  destruct (Z.lt_trichotomy (unix b) (unix a)) as [H|[H|H]].
  - rewrite then_cmp_lt by done. tauto.
  - rewrite then_cmp_eq by done. destruct (decide (nsec a = 0)) as [E|E].
    + rewrite E, str_compare_refl. split; [|done]. intros _. right.
      rewrite (unix_nsec a), (unix_nsec b). congruence.
    + pose proof (nsec_range a).
      rewrite String.compare_antisym, show_frac_whole_last by lia. simpl.
      split; [done|]. intros [?| ->]; [lia|]. congruence.
  - rewrite (proj2 (Z.compare_gt_iff _ _) H). simpl. split; [done|].
    intros [?| ->]; lia.
Qed.

(** Between whole seconds the two orders agree. *)
Lemma text_le_whole a b :
  four_digit a -> four_digit b -> nsec a = 0 -> nsec b = 0 -> text_le a b = (a <=? b).
Proof.
  intros Ha Hb Hna Hnb. destruct (text_le a b) eqn:E.
  - apply text_ge_whole in E; [|done..]. symmetry. apply Z.leb_le.
    rewrite (unix_nsec a), (unix_nsec b), Hna, Hnb. destruct E as [?| ->]; unfold second; lia.
  - symmetry. apply Z.leb_gt. apply Z.nle_gt. intros Hle.
    enough (text_le a b = true) by congruence. apply text_ge_whole; [done..|].
    rewrite (unix_nsec a), (unix_nsec b), Hna, Hnb in Hle.
    destruct (decide (unix a = unix b)) as [He|]; [right|left; unfold second in *; lia].
    rewrite (unix_nsec a), (unix_nsec b). congruence.
Qed.

(** Truncation. *)
Lemma truncate_unix t : truncatePublishedAt t = unix t * second.
Proof. unfold truncatePublishedAt, truncate, zero_time, unix, second. dlia. Qed.

Lemma truncate_whole t : nsec (truncatePublishedAt t) = 0.
Proof. rewrite truncate_unix. unfold nsec. by rewrite Z_mod_mult. Qed.

Lemma unix_truncate t : unix (truncatePublishedAt t) = unix t.
Proof. rewrite truncate_unix. unfold unix. by rewrite Z.div_mul. Qed.

Lemma four_digit_truncate t : four_digit t -> four_digit (truncatePublishedAt t).
Proof. unfold four_digit, Year, local_day, wall. by rewrite unix_truncate. Qed.

(** ** Theorems *)

(** for instants of the years 0 to 9999, the text of a timestamp determines
    the instant; a later second has a later text; but against a bound that is a
    whole second the text order is not the time order: [bound <= a] holds of the
    later seconds and of the bound itself, and of no other instant of that second. *)
Theorem timestamp_text_order a b :
  four_digit a -> four_digit b ->
  (formatTime a = formatTime b <-> a = b) /\
  (unix a < unix b -> text_lt a b = true) /\
  (nsec b = 0 -> text_le b a = true <-> unix b < unix a \/ a = b) /\
  (nsec a = 0 -> nsec b = 0 -> text_le a b = (a <=? b)).
Proof.
  intros Ha Hb. split; [split; [by apply text_inj|congruence]|].
  split; [|split; [by apply text_ge_whole|by apply text_le_whole]].
  intros H. unfold text_lt, str_ltb. rewrite text_compare by done. by rewrite then_cmp_lt.
Qed.

(** Half a second past midnight sorts before midnight. *)
Lemma timestamp_text_order_witness :
  text_le (1767225600 * second) (1767225600 * second + 500000000) = false /\
  (text_le (1767225600 * second) (1767225600 * second + 500000000) = true <->
   unix (1767225600 * second) < unix (1767225600 * second + 500000000) \/
   1767225600 * second + 500000000 = 1767225600 * second).
Proof.
  split; [vm_compute; reflexivity|].
  apply (timestamp_text_order (1767225600 * second + 500000000) (1767225600 * second));
    [split; vm_compute; discriminate|split; vm_compute; discriminate|reflexivity].
Defined.
