(* ===== verification/TimeRead.v ===== *)
(** * Reading timestamps back: time.Parse of the text [formatTime] writes

    The digits of a date, and the instant a stored timestamp names.  A text in
    another form that [time.RFC3339Nano] also accepts (an offset, trailing zeros in
    the fraction) is left to an argument. *)

From S2P Require Import Prelude GoTime GoStrings Timestamps.
From Stdlib Require Import String Ascii.
Local Open Scope string_scope.
Local Open Scope Z_scope.

Definition two (a b : ascii) : option Z := x ← digit a; y ← digit b; Some (10 * x + y).
Definition four (a b c d : ascii) : option Z := x ← two a b; y ← two c d; Some (100 * x + y).

Lemma two_pad n r : 0 <= n <= 99 -> exists a b, pad 2 n r = String a (String b r) /\ two a b = Some n.
Proof.
  intros Hn. exists (digit_char (n / 10 mod 10)), (digit_char (n mod 10)). split; [done|]. unfold two.
  rewrite !digit_digit_char by dlia. cbn. f_equal. dlia.
Qed.

Lemma four_pad n r : 0 <= n <= 9999 -> exists a b c d, pad 4 n r = String a (String b (String c (String d r))) /\ four a b c d = Some n.
Proof.
  intros Hn. destruct (two_pad (n / 100) (pad 2 (n mod 100) r)) as (a & b & E1 & E2); [dlia|].
  destruct (two_pad (n mod 100) r) as (c & d & E3 & E4); [dlia|]. exists a, b, c, d. unfold four. rewrite E2, E4. cbn. split; [|f_equal; dlia].
  rewrite <- E3, <- E1. cbn [pad]. replace (n mod 100 / 10 mod 10) with (n / 10 mod 10) by dlia. replace (n mod 100 mod 10) with (n mod 10) by dlia.
  by replace (n / 100) with (n / 10 / 10) by dlia.
Qed.

(** The fields name the second the instant lies in. *)
Lemma instant_of_fields t :
  (days_of_civil (Year UTC t) (Month UTC t) (Day UTC t) * 86400 + Hour UTC t * 3600 + Minute UTC t * 60 + Second UTC t) * second = unix t * second.
Proof.
  unfold Year, Month, Day. rewrite days_of_civil_of_day. unfold local_day, Hour, Minute, Second. rewrite wall_UTC. f_equal. dlia.
Qed.

Lemma month_range t : 1 <= Month UTC t <= 12.
Proof. by destruct (civil_of_day_valid (local_day UTC t)) as [Hm _]. Qed.

Lemma day_range t : 1 <= Day UTC t <= 31.
Proof.
  destruct (civil_of_day_valid (local_day UTC t)) as [_ Hd]. unfold Day. unfold days_in_month in Hd. split; [apply Hd|].
  destruct Hd as [_ Hd]. etransitivity; [exact Hd|]. unfold days_before_month. repeat case_match; lia.
Qed.

Lemma clock_range t : 0 <= Hour UTC t <= 99 /\ 0 <= Minute UTC t <= 99 /\ 0 <= Second UTC t <= 99.
Proof. unfold Hour, Minute, Second. dlia. Qed.

(** The fraction, [k] digits at most, up to the final [Z]. *)
Fixpoint read_frac (k : nat) (acc : Z) (s : string) : option Z :=
  match s with
  | EmptyString => None
  | String c r =>
      if Ascii.eqb c "Z" then (match r with EmptyString => Some (acc * 10 ^ Z.of_nat k) | _ => None end)
      else match k with
           | O => None
           | S k' => match digit c with Some d => read_frac k' (acc * 10 + d) r | None => None end
           end
  end.

Definition read_nanos (s : string) : option Z :=
  match s with
  | String c r => if Ascii.eqb c "." then read_frac 9 0 r else if String.eqb s "Z" then Some 0 else None
  | EmptyString => None
  end.

(** The instant [formatTime] writes as exactly this text. *)
Definition read_time (s : string) : option Z :=
  match s with
  | String y1 (String y2 (String y3 (String y4 (String _ (String m1 (String m2 (String _ (String d1 (String d2 (String _
      (String h1 (String h2 (String _ (String i1 (String i2 (String _ (String s1 (String s2 rest)))))))))))))))))) =>
      y ← four y1 y2 y3 y4; m ← two m1 m2; d ← two d1 d2; h ← two h1 h2; i ← two i1 i2; sec ← two s1 s2; ns ← read_nanos rest;
      let t := (days_of_civil y m d * 86400 + h * 3600 + i * 60 + sec) * second + ns in
      if String.eqb (formatTime t) s then Some t else None
  | _ => None
  end.

Definition parse_time (lenient : string -> option Z) (s : string) : option Z :=
  match read_time s with Some t => Some t | None => lenient s end.

Lemma read_frac_pad j : forall k acc q r,
  0 <= q < 10 ^ Z.of_nat j -> (j <= k)%nat -> read_frac k acc (pad j q r) = read_frac (k - j) (acc * 10 ^ Z.of_nat j + q) r.
Proof.
  induction j as [|j IH]; intros k acc q r Hq Hk.
  { change (10 ^ Z.of_nat 0) with 1 in *. cbn [pad]. rewrite Nat.sub_0_r. f_equal. lia. }
  rewrite Nat2Z.inj_succ, Z.pow_succ_r in * by lia. cbn [pad]. rewrite IH by (dlia || lia).
  destruct (k - j)%nat as [|n] eqn:E; [lia|]. replace (k - S j)%nat with n by lia. cbn [read_frac].
  assert (Hz : Ascii.eqb (digit_char (q mod 10)) "Z" = false).
  { assert (H : 0 <= q mod 10 <= 9) by dlia. destruct (Ascii.eqb_spec (digit_char (q mod 10)) "Z") as [E'|]; [|done].
    pose proof (digit_digit_char _ H) as Hd. rewrite E' in Hd. by vm_compute in Hd. }
  rewrite Hz, digit_digit_char by dlia. f_equal. dlia.
Qed.

Lemma read_nanos_written ns : 0 <= ns < second -> read_nanos (show_frac ns "Z") = Some ns.
Proof.
  intros Hns. unfold show_frac. split_if; [subst; reflexivity|]. cbn [read_nanos]. change (Ascii.eqb "." ".") with true. cbv iota.
  change second with (10 ^ Z.of_nat 9) in Hns. destruct (frac_digits_pad 9 ns "Z" ltac:(lia)) as (j & q & Hj & Hq & He & Hf).
  rewrite Hf, read_frac_pad by done. destruct (9 - j)%nat as [|m] eqn:En; cbn [read_frac]; change (Ascii.eqb "Z" "Z") with true; cbv iota; f_equal.
  - rewrite He, ?En. lia.
  - rewrite He, ?En. lia.
Qed.

Lemma read_time_written t : four_digit t -> read_time (formatTime t) = Some t.
Proof.
  intros Hy. pose proof (month_range t) as Hm. pose proof (day_range t) as Hd. destruct (clock_range t) as (Hh & Hi & Hs).
  remember (formatTime t) as whole eqn:Ew. assert (Ew' : formatTime t = whole) by done. unfold formatTime in Ew'. rewrite show_year_pad in Ew' by exact Hy.
  set (fr := show_frac (nsec t) "Z") in *.
  destruct (two_pad (Second UTC t) fr Hs) as (s1 & s2 & E1 & F1). rewrite E1 in Ew'.
  destruct (two_pad (Minute UTC t) (String ":" (String s1 (String s2 fr))) Hi) as (i1 & i2 & E2 & F2). rewrite E2 in Ew'.
  match type of Ew' with context [pad 2 (Hour UTC t) ?r] => destruct (two_pad (Hour UTC t) r Hh) as (h1 & h2 & E3 & F3); rewrite E3 in Ew' end.
  match type of Ew' with context [pad 2 (Day UTC t) ?r] => destruct (two_pad (Day UTC t) r) as (d1 & d2 & E4 & F4); [lia|]; rewrite E4 in Ew' end.
  match type of Ew' with context [pad 2 (Month UTC t) ?r] => destruct (two_pad (Month UTC t) r) as (m1 & m2 & E5 & F5); [lia|]; rewrite E5 in Ew' end.
  match type of Ew' with context [pad 4 (Year UTC t) ?r] => destruct (four_pad (Year UTC t) r Hy) as (y1 & y2 & y3 & y4 & E6 & F6); rewrite E6 in Ew' end.
  rewrite <- Ew'. cbn [read_time]. rewrite F6, F5, F4, F3, F2, F1. cbn [mbind option_bind]. unfold fr. rewrite read_nanos_written by apply nsec_range.
  cbv zeta. cbn [mbind option_bind]. rewrite instant_of_fields, <- unix_nsec. fold fr. rewrite Ew', Ew, String.eqb_refl. done.
Qed.

Lemma parse_time_written lenient t : four_digit t -> parse_time lenient (formatTime t) = Some t.
Proof. intros Ht. unfold parse_time. by rewrite read_time_written. Qed.
