(* ===== verification/Tables.v ===== *)
(** * Database tables

    What the stored statements of internal/store use of SQLite: tables with an
    integer primary key, [INSERT], [UPDATE ... WHERE], [DELETE ... WHERE],
    [ORDER BY ... DESC LIMIT], [UNIQUE] and foreign keys.

    A table is the list of its rows by increasing id.  A new row takes one more
    than the largest id in use, as SQLite allocates it for an
    [INTEGER PRIMARY KEY] that is not [AUTOINCREMENT] (and that has not reached
    the last 64-bit id).  Each write of the program is one statement or one
    transaction on the only writer connection, so it is one function from the
    old tables to the new ones, or to an error and no change. *)

From S2P Require Import Prelude GoTime Timestamps.
From Stdlib Require Import String Ascii.
Local Abbreviation length := List.length.

(** ** Errors of the store *)

Inductive store_error :=
| NotFound | VersionConflict | RunInProgress | AdminExists | TOTPReplay
| RecoveryCodeUsed | ResetTokenInvalid | NegativeIndex (n : Z)
| TooManySummaries (n : nat)
| ReasonsMismatch (total rejected : Z)
| LeftoverEmbeddings (keys : list string)
| PreCommitFailure
(** The SQLite constraint that refused a statement. *)
| CheckViolation | UniqueViolation | PrimaryKeyViolation | ForeignKeyViolation
| SlugUnresolved (e : store_error).

#[export] Instance store_error_eq_dec : EqDecision store_error.
Proof. solve_decision. Defined.

(** ** Rows *)

Class Row (R : Type) := row_id : R -> Z.

Definition ids `{Row R} (t : list R) : list Z := row_id <$> t.

Definition next_id `{Row R} (t : list R) : Z := foldr Z.max 0 (ids t) + 1.

Definition update_where {R} (p : R -> bool) (f : R -> R) (t : list R) : list R :=
  (fun r => if p r then f r else r) <$> t.

Definition delete_where {R} (p : R -> bool) (t : list R) : list R :=
  filter (fun r => p r = false) t.

(** [RowsAffected]. *)
Definition affected {R} (p : R -> bool) (t : list R) : nat := length (filter (fun r => p r = true) t).

Definition find_id `{Row R} (i : Z) (t : list R) : option R :=
  List.find (fun r => row_id r =? i) t.

(** [ORDER BY key DESC]: rows the order leaves tied stay in id order, the order
    an index on the key yields them in. *)
Fixpoint insert_desc {R} (key : R -> string) (r : R) (l : list R) : list R :=
  match l with
  | [] => [r]
  | x :: l' => if str_leb (key x) (key r) then r :: l else x :: insert_desc key r l'
  end.

Definition order_desc {R} (key : R -> string) (t : list R) : list R :=
  foldr (insert_desc key) [] t.

(** [ORDER BY key], and a stable sort by it. *)
Fixpoint insert_asc {R} (key : R -> string) (r : R) (l : list R) : list R :=
  match l with [] => [r] | x :: l' => if str_leb (key r) (key x) then r :: l else x :: insert_asc key r l' end.
Definition order_asc {R} (key : R -> string) (t : list R) : list R := foldr (insert_asc key) [] t.

(** [LIMIT n], a negative [n] meaning no limit. *)
Definition limit {R} (n : Z) (t : list R) : list R :=
  if n <? 0 then t else take (Z.to_nat n) t.

(** [limit <= 0] becomes -1 in the callers. *)
Definition cap (n : Z) : Z := if n <=? 0 then -1 else n.

(** [SUM] over an integer column, [COALESCE]d to 0. *)
Definition sum_int {R} (col : R -> Z) (t : list R) : Z := zsum (col <$> t).

(** ** Well-formed tables *)

Definition table_ok `{Row R} (t : list R) : Prop :=
  StronglySorted Z.lt (ids t) /\ Forall (fun r => 0 < row_id r) t.

(** [UNIQUE (k)]. *)
Definition distinct {R K} (k : R -> K) (t : list R) : Prop := NoDup (k <$> t).

(** [REFERENCES]: every key points to a row. *)
Definition refers `{Row T} {R} (k : R -> option Z) (t : list R) (target : list T) : Prop :=
  Forall (fun r => forall i, k r = Some i -> i ∈ ids target) t.

Section tables.
Context `{Row R}.
Implicit Types (t : list R) (r : R).

Lemma ids_app t1 t2 : ids (t1 ++ t2) = ids t1 ++ ids t2.
Proof. apply fmap_app. Qed.

Lemma next_id_fresh t i : i ∈ ids t -> i < next_id t.
Proof.
  unfold next_id. induction (ids t) as [|x l IH]; [by intros ?%elem_of_nil|].
  simpl. intros [->|Hi]%elem_of_cons; [lia|]. specialize (IH Hi). lia.
Qed.

Lemma next_id_pos t : 0 < next_id t.
Proof. unfold next_id. induction (ids t) as [|x l IH]; simpl; lia. Qed.

Lemma next_id_notin t : next_id t ∉ ids t.
Proof. intros Hi%next_id_fresh. lia. Qed.

Lemma table_ok_nil : table_ok ([] : list R).
Proof. split; constructor. Qed.

Lemma table_ok_insert t r : table_ok t -> row_id r = next_id t -> table_ok (t ++ [r]).
Proof.
  intros [Hs Hp] Hr. split.
  - rewrite ids_app. unfold ids at 2. simpl. rewrite Hr.
    assert (Hf : Forall (fun x => x < next_id t) (ids t)) by
      (apply Forall_forall; apply next_id_fresh).
    revert Hs Hf. generalize (ids t) (next_id t). clear. intros l n.
    induction l as [|x l IH]; intros Hs Hf; simpl.
    + repeat constructor.
    + apply StronglySorted_cons in Hs as [Hx Hs]. apply Forall_cons in Hf as [Hxn Hf].
      constructor; [by apply IH|]. apply Forall_app. split; [done|]. by constructor.
  - apply Forall_app. split; [done|]. constructor; [|done]. rewrite Hr. apply next_id_pos.
Qed.

Lemma ids_update p f t : (forall r, row_id (f r) = row_id r) -> ids (update_where p f t) = ids t.
Proof.
  intros Hf. unfold ids, update_where. rewrite <- list_fmap_compose. apply list_fmap_ext.
  intros i r _. simpl. by destruct (p r).
Qed.

Lemma table_ok_update p f t :
  (forall r, row_id (f r) = row_id r) -> table_ok t -> table_ok (update_where p f t).
Proof.
  intros Hf [Hs Hp]. split; [by rewrite ids_update|].
  unfold update_where. apply Forall_fmap. eapply Forall_impl; [exact Hp|].
  intros r Hr. simpl. destruct (p r); [by rewrite Hf|done].
Qed.

Lemma table_ok_delete p t : table_ok t -> table_ok (delete_where p t).
Proof.
  intros [Hs Hp]. unfold delete_where. split.
  - unfold ids in *. clear Hp. induction t as [|r t IH]; [done|].
    rewrite fmap_cons in Hs. apply StronglySorted_cons in Hs as [Hr Hs].
    rewrite filter_cons. case_decide; [|by apply IH].
    rewrite fmap_cons. constructor; [by apply IH|].
    rewrite Forall_fmap in Hr |- *. apply Forall_forall. intros x [_ Hx]%list_elem_of_filter.
    rewrite Forall_forall in Hr. by apply Hr.
  - apply Forall_forall. intros r [_ Hr]%list_elem_of_filter. by eapply Forall_forall in Hp.
Qed.

Lemma table_ok_NoDup t : table_ok t -> NoDup (ids t).
Proof.
  intros [Hs _]. induction Hs as [|x l Hs IH Hx]; constructor; [|done].
  intros Hin. rewrite Forall_forall in Hx. specialize (Hx x Hin). lia.
Qed.

Lemma ids_inj t r1 r2 : table_ok t -> r1 ∈ t -> r2 ∈ t -> row_id r1 = row_id r2 -> r1 = r2.
Proof.
  intros Hok H1 H2 He. apply table_ok_NoDup in Hok. unfold ids in Hok.
  apply list_elem_of_lookup in H1 as [i Hi], H2 as [j Hj].
  assert (i = j) as ->; [|congruence].
  eapply NoDup_lookup; [exact Hok|by rewrite list_lookup_fmap, Hi|].
  rewrite list_lookup_fmap, Hj. simpl. by rewrite He.
Qed.

Lemma find_id_elem i t r : find_id i t = Some r -> r ∈ t /\ row_id r = i.
Proof. unfold find_id. intros [Hin Hi]%find_some. bools. by rewrite list_elem_of_In. Qed.

Lemma find_id_None i t : find_id i t = None <-> i ∉ ids t.
Proof.
  unfold find_id, ids. split.
  - intros Hn Hin. apply list_elem_of_fmap in Hin as (r & -> & Hr).
    apply list_elem_of_In in Hr. eapply find_none in Hn; [|exact Hr]. simpl in Hn. bools. done.
  - intros Hn. destruct (List.find _ t) as [r|] eqn:E; [|done].
    apply find_id_elem in E as [Hr <-]. destruct Hn. by apply list_elem_of_fmap_2.
Qed.

Lemma find_id_Some i t r : table_ok t -> find_id i t = Some r <-> r ∈ t /\ row_id r = i.
Proof.
  intros Hok. split; [apply find_id_elem|]. intros [Hr <-].
  destruct (find_id (row_id r) t) as [r'|] eqn:E.
  - apply find_id_elem in E as [Hr' He]. f_equal. by eapply ids_inj.
  - apply find_id_None in E. destruct E. by apply list_elem_of_fmap_2.
Qed.

Lemma elem_of_update p f t r :
  r ∈ update_where p f t <-> exists r0, r0 ∈ t /\ r = if p r0 then f r0 else r0.
Proof. unfold update_where. rewrite list_elem_of_fmap. naive_solver. Qed.

Lemma elem_of_delete p t r : r ∈ delete_where p t <-> r ∈ t /\ p r = false.
Proof. unfold delete_where. rewrite list_elem_of_filter. tauto. Qed.

Lemma affected_0 p t : affected p t = 0%nat <-> forall r, r ∈ t -> p r = false.
Proof.
  unfold affected. split.
  - intros H0%nil_length_inv r Hr. destruct (p r) eqn:E; [|done].
    assert (Hin : r ∈ filter (fun r => p r = true) t) by (by apply list_elem_of_filter).
    rewrite H0 in Hin. by apply elem_of_nil in Hin.
  - intros Hf. induction t as [|r t IH]; [done|]. rewrite filter_cons.
    rewrite decide_False by (rewrite Hf; [done|left]). apply IH. intros x Hx. apply Hf. by right.
Qed.
End tables.

(** ** Constraints under the three kinds of write *)

Section constraints.
Context {R K : Type} (k : R -> K).
Implicit Types (t : list R) (r : R).

Lemma distinct_nil : distinct k ([] : list R).
Proof. constructor. Qed.

Lemma distinct_insert t r : distinct k t -> k r ∉ k <$> t -> distinct k (t ++ [r]).
Proof.
  intros Hd Hn. unfold distinct. rewrite fmap_app. apply NoDup_app. split; [done|]. split.
  - intros x Hx ->%list_elem_of_singleton. done.
  - apply NoDup_singleton.
Qed.

Lemma distinct_update p f t :
  (forall r, p r = true -> k (f r) = k r) -> distinct k t -> distinct k (update_where p f t).
Proof.
  intros Hf Hd. unfold distinct, update_where. rewrite <- list_fmap_compose.
  replace (k ∘ _ <$> t) with (k <$> t); [done|]. apply list_fmap_ext. intros i r _. simpl.
  destruct (p r) eqn:E; [by rewrite Hf|done].
Qed.

Lemma distinct_delete p t : distinct k t -> distinct k (delete_where p t).
Proof.
  unfold distinct, delete_where. induction t as [|r t IH]; intros Hd; [done|].
  rewrite fmap_cons in Hd. apply NoDup_cons in Hd as [Hr Hd].
  rewrite filter_cons. case_decide; [|by apply IH]. rewrite fmap_cons.
  constructor; [|by apply IH]. intros Hin. apply Hr.
  apply list_elem_of_fmap in Hin as (x & -> & [_ Hx]%list_elem_of_filter). by apply list_elem_of_fmap_2.
Qed.

Lemma distinct_inj t r1 r2 : distinct k t -> r1 ∈ t -> r2 ∈ t -> k r1 = k r2 -> r1 = r2.
Proof.
  intros Hd H1 H2 He.
  apply list_elem_of_lookup in H1 as [i Hi], H2 as [j Hj].
  assert (i = j) as ->; [|congruence].
  eapply NoDup_lookup; [exact Hd|by rewrite list_lookup_fmap, Hi|].
  rewrite list_lookup_fmap, Hj. simpl. by rewrite He.
Qed.

(** One row changes key, to one no other row has. *)
Lemma distinct_update_one `{Row R} p f t :
  table_ok t -> distinct k t ->
  (forall r, p r = true -> row_id (f r) = row_id r) ->
  (forall r1 r2, r1 ∈ t -> r2 ∈ t -> p r1 = true -> p r2 = true -> r1 = r2) ->
  (forall r1 r2, r1 ∈ t -> r2 ∈ t -> p r1 = true -> p r2 = false -> k (f r1) <> k r2) ->
  distinct k (update_where p f t).
Proof.
  intros Hok Hd Hid Huniq Hfresh. unfold distinct, update_where.
  apply NoDup_fmap_2_strong; [|by apply (NoDup_fmap_1 k) in Hd;
    apply NoDup_fmap_2_strong; [|done]; intros x y Hx Hy Hxy;
    destruct (p x) eqn:Ex, (p y) eqn:Ey; auto;
    exfalso; first [by apply (Hfresh x y); try done; rewrite Hxy
                   |by apply (Hfresh y x); try done; rewrite <- Hxy]].
  intros x' y' (x & -> & Hx)%list_elem_of_fmap (y & -> & Hy)%list_elem_of_fmap He.
  destruct (p x) eqn:Ex, (p y) eqn:Ey.
  - by rewrite (Huniq x y).
  - exfalso. by apply (Hfresh x y).
  - exfalso. by apply (Hfresh y x).
  - by apply (distinct_inj t).
Qed.
End constraints.

Section references.
Context `{Row T} {R : Type} (k : R -> option Z).
Implicit Types (t : list R) (target : list T).

Lemma refers_insert t r target :
  refers k t target -> (forall i, k r = Some i -> i ∈ ids target) -> refers k (t ++ [r]) target.
Proof. intros Ht Hr. apply Forall_app. split; [done|]. by constructor. Qed.

Lemma refers_update p f t target :
  (forall r, p r = true -> k (f r) = k r) -> refers k t target -> refers k (update_where p f t) target.
Proof.
  intros Hf Ht. unfold refers, update_where. apply Forall_fmap. eapply Forall_impl; [exact Ht|].
  intros r Hr. simpl. destruct (p r) eqn:E; [by rewrite Hf|done].
Qed.

Lemma refers_delete p t target : refers k t target -> refers k (delete_where p t) target.
Proof.
  unfold refers. rewrite !Forall_forall. intros Ht r [_ Hr]%list_elem_of_filter. by apply Ht.
Qed.

Lemma refers_target t (target target' : list T) :
  (forall i, i ∈ ids target -> i ∈ ids target') -> refers k t target -> refers k t target'.
Proof.
  intros Hs Ht. eapply Forall_impl; [exact Ht|]. intros r Hr i Hi. by apply Hs, Hr.
Qed.
End references.

(** ** Ordering *)

Lemma insert_asc_elem {R} (key : R -> string) r l x : x ∈ insert_asc key r l <-> x = r \/ x ∈ l.
Proof.
  induction l as [|y l IH]; cbn [insert_asc]; [set_solver|]. destruct (str_leb _ _); rewrite !elem_of_cons; [done|]. rewrite IH. tauto.
Qed.

Lemma order_asc_elem {R} (key : R -> string) l x : x ∈ order_asc key l <-> x ∈ l.
Proof. induction l as [|r l IH]; [done|]. unfold order_asc. cbn [foldr]. rewrite insert_asc_elem, elem_of_cons. by rewrite <- IH. Qed.

Lemma insert_desc_perm {R} (key : R -> string) r l : insert_desc key r l ≡ₚ r :: l.
Proof.
  induction l as [|x l IH]; simpl; [done|]. destruct (str_leb _ _); [done|].
  rewrite IH. by constructor.
Qed.

Lemma order_desc_perm {R} (key : R -> string) t : order_desc key t ≡ₚ t.
Proof. induction t as [|r t IH]; simpl; [done|]. rewrite insert_desc_perm. by constructor. Qed.

Lemma insert_desc_sorted {R} (key : R -> string) r l :
  Sorted (fun a b => str_leb (key b) (key a) = true) l ->
  Sorted (fun a b => str_leb (key b) (key a) = true) (insert_desc key r l).
Proof.
  induction l as [|x l IH]; simpl; intros Hs; [by repeat constructor|].
  destruct (str_leb (key x) (key r)) eqn:E; [by constructor; [|constructor]|].
  apply str_leb_total in E. apply Sorted_inv in Hs as [Hs Hx].
  constructor; [by apply IH|]. destruct l as [|y l]; simpl.
  - by constructor.
  - destruct (str_leb (key y) (key r)); constructor; [done|]. by inversion Hx.
Qed.

Lemma order_desc_sorted {R} (key : R -> string) t :
  Sorted (fun a b => str_leb (key b) (key a) = true) (order_desc key t).
Proof. induction t as [|r t IH]; simpl; [constructor|]. by apply insert_desc_sorted. Qed.

(** The first row has the greatest key. *)
Lemma order_desc_head {R} (key : R -> string) t r x :
  head (order_desc key t) = Some r -> x ∈ t -> str_leb (key x) (key r) = true.
Proof.
  intros Hh Hx. rewrite <- (order_desc_perm key t) in Hx.
  pose proof (order_desc_sorted key t) as Hs. destruct (order_desc key t) as [|y l]; [done|].
  injection Hh as ->. apply Sorted_StronglySorted in Hs.
  2:{ intros a b c Hab Hbc. by eapply str_leb_trans. }
  apply StronglySorted_inv in Hs as [_ Hs]. apply elem_of_cons in Hx as [->|Hx].
  - apply str_leb_refl.
  - rewrite Forall_forall in Hs. by apply Hs.
Qed.

Lemma order_desc_nil {R} (key : R -> string) t : head (order_desc key t) = None -> t = [].
Proof.
  intros H. apply Permutation_nil_r. rewrite <- (order_desc_perm key t). by destruct (order_desc key t).
Qed.

Lemma limit_elem {R} n (t : list R) r : r ∈ limit n t -> r ∈ t.
Proof. unfold limit. split_if; [done|]. intros (i & Hi & _)%elem_of_take.
  by apply list_elem_of_lookup_2 with i.
Qed.

#[export] Hint Resolve table_ok_nil distinct_nil table_ok_insert distinct_insert
  table_ok_update table_ok_delete distinct_delete refers_delete refers_insert : aff.
