(* ===== verification/Schema.v ===== *)
(** * The content tables: migrations/0002, 0006 and 0007, internal/model

    The rows of the feed, item, run, sample and spend tables, the domain types
    the program passes around, and the integrity the schema declares.  Times are
    instants; a column compares them through their text ([Timestamps]).  Costs
    are binary64 values, which this development only copies and sums. *)

From S2P Require Import Prelude GoTime Timestamps Tables.
From Stdlib Require Import String Ascii.
From Stdlib Require Export SpecFloat.
Local Abbreviation length := List.length.

Definition float64 := spec_float.
Definition f64_zero : float64 := S754_zero false.
Definition f64_add : float64 -> float64 -> float64 := SFadd 53 1024.
Definition f64_mul : float64 -> float64 -> float64 := SFmul 53 1024.
Definition f64_div : float64 -> float64 -> float64 := SFdiv 53 1024.
Definition f64_of_int (z : Z) : float64 := binary_normalize 53 1024 z 0 false.

(** ** Domain types: internal/model/model.go *)

Record ItemFormats := MkFormats {
  FeedHTML : string; CardText : string; EmbedText : string; PageHTML : string }.

Definition no_formats : ItemFormats := MkFormats "" "" "" "".

Definition is_empty (s : string) : bool := bool_decide (s = ""%string).

Lemma is_empty_false s : is_empty s = false <-> s <> ""%string.
Proof. apply bool_decide_eq_false. Qed.

Definition Empty (f : ItemFormats) : bool :=
  is_empty (FeedHTML f) && is_empty (CardText f) && is_empty (EmbedText f) && is_empty (PageHTML f).

Record Item := MkItem {
  ID : Z; FeedID : Z; ItemKey : string; ContentHash : string; Title : string;
  SummaryText : string; BodyHTML : string; AnswerHTML : string; Formats : ItemFormats;
  Link : string; SourceName : string; PublishedAt : Z; Tags : list string; Origin : string;
  CreatedAt : Z; UpdatedAt : Z; EditedAt : Z; DeletedAt : Z; Version : Z }.

Definition IsDeleted (i : Item) : bool := negb (is_zero (DeletedAt i)).
Definition HasAnswer (i : Item) : bool := negb (is_empty (AnswerHTML i)).

Definition RenderCardText (it : Item) : string :=
  if negb (is_empty (CardText (Formats it))) then CardText (Formats it) else SummaryText it.
Definition RenderFeedHTML (it : Item) : string :=
  if negb (is_empty (FeedHTML (Formats it))) then FeedHTML (Formats it) else BodyHTML it.
Definition RenderPageHTML (it : Item) : string :=
  if negb (is_empty (PageHTML (Formats it))) then PageHTML (Formats it) else BodyHTML it.
Definition RenderEmbedText (it : Item) : string :=
  if negb (is_empty (EmbedText (Formats it))) then EmbedText (Formats it) else SummaryText it.

Record Feed := MkFeed {
  fd_ID : Z; fd_Slug : string; fd_Title : string; fd_Description : string; fd_Language : string;
  fd_Kind : string; fd_Author : string; fd_Copyright : string; fd_OGImage : string;
  fd_TTLMinutes : Z; fd_Enabled : bool; fd_Timezone : string; fd_LastBuiltAt : Z;
  fd_CreatedAt : Z; fd_Version : Z }.

(** ** Rows *)

Record FeedRow := MkFeedRow {
  f_id : Z; f_slug : string; f_title : string; f_description : string; f_language : string;
  f_kind : string; f_enabled : bool; f_timezone : string; f_author : option string; f_copyright : option string;
  f_og_image : option string; f_ttl_minutes : Z; f_last_built_at : option Z; f_version : Z;
  f_deleted_at : option Z; f_created_at : Z; f_updated_at : Z; f_spec_json : string; f_jitter_offset : Z;
  f_consecutive_failures : Z }.

Record MemberRow := MkMember { m_aggregate : Z; m_member : Z; m_position : Z }.

(** [formats_json]: [None] is the empty text, [Some f] the JSON object of [f]. *)
Record ItemRow := MkItemRow {
  i_id : Z; i_feed_id : Z; i_item_key : string; i_content_hash : string; i_title : string;
  i_summary_text : string; i_body_html : string; i_answer_html : option string;
  i_link : option string; i_source_name : option string; i_formats : option ItemFormats;
  i_published_at : Z; i_run_id : option Z; i_origin : string; i_version : Z;
  i_created_at : Z; i_updated_at : Z; i_edited_at : option Z; i_deleted_at : option Z }.

Inductive run_status :=
| Running | Success | Failed | Skipped | Interrupted | CompletedUnconfirmed.
#[export] Instance run_status_eq_dec : EqDecision run_status.
Proof. solve_decision. Defined.

Record RunRow := MkRunRow {
  r_id : Z; r_feed_id : Z; r_started_at : Z; r_finished_at : option Z; r_status : run_status;
  r_error_kind : option string; r_error : option string; r_items_added : Z; r_items_rejected : Z;
  r_reject_reasons : gmap string Z; r_tokens_in : Z; r_tokens_out : Z; r_est_cost_usd : float64;
  r_trigger : string; r_lock_holder : option string; r_heartbeat_at : option Z }.

(** [vec] is the blob [novelty.Encode] makes of the components. *)
Record EmbeddingRow := MkEmbedding {
  e_item_id : Z; e_model : string; e_dim : Z; e_vec : list Z }.

Record SampleRow := MkSampleRow {
  s_id : Z; s_feed_id : Z; s_created_at : Z; s_expires_at : Z; s_payload : string;
  s_tokens_in : Z; s_tokens_out : Z; s_cost_usd : float64 }.

Record SpendRow := MkSpendRow {
  sp_id : Z; sp_feed_id : Z; sp_at : Z; sp_tokens_in : Z; sp_tokens_out : Z; sp_cost_usd : float64 }.

#[export] Instance row_feed : Row FeedRow := f_id.
#[export] Instance row_item : Row ItemRow := i_id.
#[export] Instance row_run : Row RunRow := r_id.
#[export] Instance row_embedding : Row EmbeddingRow := e_item_id.
#[export] Instance row_sample : Row SampleRow := s_id.
#[export] Instance row_spend : Row SpendRow := sp_id.

Record Content := MkContent {
  feeds : list FeedRow; members : list MemberRow; items : list ItemRow; runs : list RunRow;
  embeddings : list EmbeddingRow; samples : list SampleRow; spend : list SpendRow }.

Definition empty_content : Content := MkContent [] [] [] [] [] [] [].

Definition set_feeds (x : list FeedRow) (d : Content) :=
  MkContent x (members d) (items d) (runs d) (embeddings d) (samples d) (spend d).
Definition set_items (x : list ItemRow) (d : Content) :=
  MkContent (feeds d) (members d) x (runs d) (embeddings d) (samples d) (spend d).
Definition set_runs (x : list RunRow) (d : Content) :=
  MkContent (feeds d) (members d) (items d) x (embeddings d) (samples d) (spend d).
Definition set_embeddings (x : list EmbeddingRow) (d : Content) :=
  MkContent (feeds d) (members d) (items d) (runs d) x (samples d) (spend d).
Definition set_samples (x : list SampleRow) (d : Content) :=
  MkContent (feeds d) (members d) (items d) (runs d) (embeddings d) x (spend d).
Definition set_spend (x : list SpendRow) (d : Content) :=
  MkContent (feeds d) (members d) (items d) (runs d) (embeddings d) (samples d) x.

(** ** CHECK constraints *)

Definition valid_kind (k : string) : bool :=
  bool_decide (k ∈ ["generative"; "grounded"; "aggregate"]%string).
Definition valid_origin (o : string) : bool :=
  bool_decide (o ∈ ["generated"; "sampled"; "manual"; "correction"]%string).
Definition valid_trigger (t : string) : bool := bool_decide (t ∈ ["cron"; "manual"]%string).

(** ** The unique keys of items *)

Definition key_hash (r : ItemRow) : Z * string := (i_feed_id r, i_content_hash r).
Definition key_published (r : ItemRow) : Z * string := (i_feed_id r, formatTime (i_published_at r)).

(** A new item row collides with a stored one on some unique key. *)
Definition item_conflict (r r' : ItemRow) : bool :=
  bool_decide (i_item_key r' = i_item_key r) || bool_decide (key_hash r' = key_hash r)
  || bool_decide (key_published r' = key_published r).

(** [INSERT INTO items]: the CHECK, then the unique keys, then the foreign keys. *)
Definition insert_item (d : Content) (r : ItemRow) : result store_error Content :=
  if negb (valid_origin (i_origin r)) then Err CheckViolation
  else if existsb (item_conflict r) (items d) then Err UniqueViolation
  else if negb (bool_decide (i_feed_id r ∈ ids (feeds d))) then Err ForeignKeyViolation
  else if negb (match i_run_id r with
                | None => true | Some n => bool_decide (n ∈ ids (runs d)) end)
       then Err ForeignKeyViolation
  else Ok (set_items (items d ++ [r]) d).

(** ** What the schema guarantees of every stored state *)
Record content_ok (d : Content) : Prop := {
  ok_feeds : table_ok (feeds d);
  ok_items : table_ok (items d);
  ok_runs : table_ok (runs d);
  ok_samples : table_ok (samples d);
  ok_spend : table_ok (spend d);
  ok_slug : distinct f_slug (feeds d);
  ok_item_key : distinct i_item_key (items d);
  ok_hash : distinct key_hash (items d);
  ok_published : distinct key_published (items d);
  ok_embedding : distinct e_item_id (embeddings d);
  ok_item_feed : refers (fun r => Some (i_feed_id r)) (items d) (feeds d);
  ok_item_run : refers i_run_id (items d) (runs d);
  ok_run_feed : refers (fun r => Some (r_feed_id r)) (runs d) (feeds d);
  ok_embedding_item : refers (fun r => Some (e_item_id r)) (embeddings d) (items d);
  ok_sample_feed : refers (fun r => Some (s_feed_id r)) (samples d) (feeds d);
  ok_spend_feed : refers (fun r => Some (sp_feed_id r)) (spend d) (feeds d);
  ok_kind : Forall (fun r => valid_kind (f_kind r) = true) (feeds d);
  ok_origin : Forall (fun r => valid_origin (i_origin r) = true) (items d);
  ok_trigger : Forall (fun r => valid_trigger (r_trigger r) = true) (runs d) }.

Lemma empty_content_ok : content_ok empty_content.
Proof. split; simpl; try apply table_ok_nil; try apply NoDup_nil_2; constructor. Qed.

(** Destruct the invariant of a state and prove it of another. *)
Ltac content_inv H :=
  destruct H; split; cbn [feeds members items runs embeddings samples spend
    set_feeds set_items set_runs set_embeddings set_samples set_spend];
  try assumption.

Lemma item_conflict_false (r : ItemRow) (t : list ItemRow) :
  existsb (item_conflict r) t = false ->
  (i_item_key r ∉ i_item_key <$> t) /\ (key_hash r ∉ key_hash <$> t) /\
  (key_published r ∉ key_published <$> t).
Proof.
  intros H. assert (Hf : forall r', r' ∈ t -> item_conflict r r' = false).
  { intros r' Hr'. destruct (item_conflict r r') eqn:E; [|done]. rewrite <- H. symmetry.
    apply existsb_exists. exists r'. by rewrite <- list_elem_of_In. }
  repeat split; intros (r' & He & Hr')%list_elem_of_fmap; specialize (Hf r' Hr');
    unfold item_conflict in Hf; bools; done.
Qed.

Lemma insert_item_spec d r d' :
  insert_item d r = Ok d' <->
  d' = set_items (items d ++ [r]) d /\ valid_origin (i_origin r) = true /\
  existsb (item_conflict r) (items d) = false /\ i_feed_id r ∈ ids (feeds d) /\
  (forall n, i_run_id r = Some n -> n ∈ ids (runs d)).
Proof.
  unfold insert_item. destruct (valid_origin (i_origin r)); cbn [negb]; [|naive_solver].
  destruct (existsb _ _); [naive_solver|].
  case_bool_decide as Hf; cbn [negb]; [|naive_solver].
  destruct (i_run_id r) as [n|]; [case_bool_decide|]; cbn [negb]; naive_solver.
Qed.

Lemma insert_item_ok d r d' :
  content_ok d -> i_id r = next_id (items d) -> insert_item d r = Ok d' -> content_ok d'.
Proof.
  intros Hd Hid (-> & Ho & (Hk & Hh & Hp)%item_conflict_false & Hf & Hr)%insert_item_spec.
  content_inv Hd.
  - by apply table_ok_insert.
  - by apply distinct_insert.
  - by apply distinct_insert.
  - by apply distinct_insert.
  - apply refers_insert; [done|]. by intros i [= <-].
  - by apply refers_insert.
  - eapply refers_target; [|eassumption]. intros i Hi. rewrite ids_app. set_solver.
  - apply Forall_app. split; [done|]. by constructor.
Qed.
