(* ===== verification/Render.v ===== *)
(** * The renderers: internal/render, internal/model

    RSS 2.0 and Atom 1.0 documents, the JSON Feed document, the item page, the
    index and the embedded widget, as the text they write.  A [bytes.Buffer] is
    the text written so far, so a writer is the text it appends. *)

From S2P Require Import Prelude GoTime GoStrings Utf8 Regexp GoURL Xml Timestamps Schema.
From Stdlib Require Import String Ascii.
Local Open Scope string_scope.
Local Open Scope Z_scope.

(** A value between double quotes. *)
Definition q (v : string) : string := String dquote (v ++ String dquote "").

(** ** Dates *)

Definition short_weekday (w : Z) : string :=
  nth (Z.to_nat w) ["Sun"; "Mon"; "Tue"; "Wed"; "Thu"; "Fri"; "Sat"] "".
Definition month_name (m : Z) : string :=
  nth (Z.to_nat (m - 1)) ["Jan"; "Feb"; "Mar"; "Apr"; "May"; "Jun"; "Jul"; "Aug"; "Sep"; "Oct"; "Nov"; "Dec"] "".

Definition RFC822 (t : Z) : string :=
  short_weekday (Weekday UTC t) ++ ", " ++ pad 2 (Day UTC t) (" " ++ month_name (Month UTC t) ++ " "
  ++ show_year (Year UTC t) (" " ++ pad 2 (Hour UTC t) (":" ++ pad 2 (Minute UTC t) (":" ++ pad 2 (Second UTC t) " +0000")))).

Definition RFC3339 (t : Z) : string :=
  show_year (Year UTC t) ("-" ++ pad 2 (Month UTC t) ("-" ++ pad 2 (Day UTC t) ("T"
  ++ pad 2 (Hour UTC t) (":" ++ pad 2 (Minute UTC t) (":" ++ pad 2 (Second UTC t) "Z"))))).

Example RFC822_ex : RFC822 (1191542385 * second) = "Thu, 04 Oct 2007 23:59:45 +0000".
Proof. reflexivity. Qed.
Example RFC3339_ex : RFC3339 (1191542385 * second + 7) = "2007-10-04T23:59:45Z".
Proof. reflexivity. Qed.

(** ** The channel *)

Record Channel := MkChannel {
  ch_Feed : Feed; SelfURL : string; HTMLURL : string; Host : string; TagYear : Z;
  ch_Items : list Item; BuildTime : Z; Generator : string; DocsURL : string }.

Definition Channel_NewestPublished (c : Channel) : Z :=
  let newest := fold_left (fun newest it => if newest <? PublishedAt it then PublishedAt it else newest) (ch_Items c) zero_time in
  if is_zero newest then BuildTime c else newest.

(** [sort.SliceStable]: an element stays behind those it is not before. *)
Fixpoint insert_stable {A} (less : A -> A -> bool) (x : A) (l : list A) : list A :=
  match l with
  | [] => [x]
  | y :: r => if less y x then y :: insert_stable less x r else x :: l
  end.
Definition SliceStable {A} (less : A -> A -> bool) (l : list A) : list A := foldr (insert_stable less) [] l.

Definition newer (a b : Item) : bool := PublishedAt b <? PublishedAt a.
Definition newestFirst (items : list Item) : list Item := SliceStable newer items.

(** ** Identifiers *)

Definition TrimSuffix_slash (s : string) : string :=
  match strip_prefix "/" (srev s) with Some r => srev r | None => s end.

Definition stripHostDecoration (host : string) : string :=
  TrimSuffix_slash (match find_sub "://" host with Some (_, r) => r | None => host end).

Definition TagURI (host : string) (year : Z) (slug itemKey : string) : string :=
  "tag:" ++ stripHostDecoration host ++ "," ++ show_int year ++ ":" ++ slug ++ "/" ++ itemKey.

Definition feedID (c : Channel) : string :=
  "tag:" ++ stripHostDecoration (Host c) ++ "," ++ show_int (TagYear c) ++ ":" ++ fd_Slug (ch_Feed c).

(** ** RSS *)

Definition writeElem (indent name value : string) : string :=
  indent ++ "<" ++ name ++ ">" ++ EscapeText value ++ "</" ++ name ++ ">" ++ lf.

Definition itemBodyWithAnswer (it : Item) : string :=
  let body := RenderFeedHTML it in
  if negb (HasAnswer it) then body
  else body ++ "<hr class=" ++ q "spoiler-break" ++ "/><p><strong>Answer:</strong> " ++ AnswerHTML it ++ "</p>".

Definition item_uri (c : Channel) (it : Item) : string := TagURI (Host c) (TagYear c) (fd_Slug (ch_Feed c)) (ItemKey it).

Definition writeItem (c : Channel) (it : Item) : string :=
  "    <item>" ++ lf
  ++ writeElem "      " "title" (Title it)
  ++ (if negb (is_empty (Link it)) then writeElem "      " "link" (Link it) else "")
  ++ writeElem "      " "description" (RenderCardText it)
  ++ "      <content:encoded>" ++ CDATA (itemBodyWithAnswer it) ++ "</content:encoded>" ++ lf
  ++ "      <guid isPermaLink=" ++ q "false" ++ ">" ++ EscapeText (item_uri c it) ++ "</guid>" ++ lf
  ++ writeElem "      " "pubDate" (RFC822 (PublishedAt it))
  ++ "    </item>" ++ lf.

Definition RSS (c : Channel) : string :=
  xml_declaration ++ lf
  ++ "<rss version=" ++ q "2.0" ++ " xmlns:atom=" ++ q "http://www.w3.org/2005/Atom"
  ++ " xmlns:content=" ++ q "http://purl.org/rss/1.0/modules/content/" ++ ">" ++ lf
  ++ "  <channel>" ++ lf
  ++ writeElem "    " "title" (fd_Title (ch_Feed c))
  ++ writeElem "    " "link" (HTMLURL c)
  ++ writeElem "    " "description" (fd_Description (ch_Feed c))
  ++ writeElem "    " "language" (fd_Language (ch_Feed c))
  ++ writeElem "    " "pubDate" (RFC822 (Channel_NewestPublished c))
  ++ writeElem "    " "lastBuildDate" (RFC822 (BuildTime c))
  ++ writeElem "    " "generator" (Generator c)
  ++ writeElem "    " "docs" (DocsURL c)
  ++ writeElem "    " "ttl" (show_int (fd_TTLMinutes (ch_Feed c)))
  ++ "    <atom:link rel=" ++ q "self" ++ " type=" ++ q "application/rss+xml" ++ " href=" ++ q (EscapeText (SelfURL c)) ++ "/>" ++ lf
  ++ concat_map (writeItem c) (newestFirst (ch_Items c))
  ++ "  </channel>" ++ lf
  ++ "</rss>" ++ lf.

(** ** Atom *)

Definition atom_line (indent name attrs value : string) : string :=
  indent ++ "<" ++ name ++ attrs ++ ">" ++ value ++ "</" ++ name ++ ">" ++ lf.
Definition atom_link (indent rel href : string) : string :=
  indent ++ "<link rel=" ++ q rel ++ " href=" ++ q (EscapeText href) ++ "/>" ++ lf.

Definition writeAtomEntry (c : Channel) (it : Item) : string :=
  "  <entry>" ++ lf
  ++ atom_line "    " "id" "" (EscapeText (item_uri c it))
  ++ atom_line "    " "title" "" (EscapeText (Title it))
  ++ atom_line "    " "updated" "" (RFC3339 (PublishedAt it))
  ++ (if negb (is_empty (Link it)) then atom_link "    " "alternate" (Link it) else "")
  ++ atom_line "    " "summary" (" type=" ++ q "text") (EscapeText (RenderCardText it))
  ++ atom_line "    " "content" (" type=" ++ q "html") (EscapeText (itemBodyWithAnswer it))
  ++ "  </entry>" ++ lf.

Definition Atom (c : Channel) : string :=
  let author := if is_empty (fd_Author (ch_Feed c)) then fd_Title (ch_Feed c) else fd_Author (ch_Feed c) in
  xml_declaration ++ lf
  ++ "<feed xmlns=" ++ q "http://www.w3.org/2005/Atom" ++ ">" ++ lf
  ++ atom_line "  " "id" "" (EscapeText (feedID c))
  ++ atom_line "  " "title" "" (EscapeText (fd_Title (ch_Feed c)))
  ++ atom_line "  " "updated" "" (RFC3339 (BuildTime c))
  ++ "  <author>" ++ lf
  ++ atom_line "    " "name" "" (EscapeText author)
  ++ "  </author>" ++ lf
  ++ (if negb (is_empty (SelfURL c)) then atom_link "  " "self" (SelfURL c) else "")
  ++ (if negb (is_empty (HTMLURL c)) then atom_link "  " "alternate" (HTMLURL c) else "")
  ++ (if negb (is_empty (fd_Description (ch_Feed c))) then atom_line "  " "subtitle" "" (EscapeText (fd_Description (ch_Feed c))) else "")
  ++ (if negb (is_empty (fd_Copyright (ch_Feed c))) then atom_line "  " "rights" "" (EscapeText (fd_Copyright (ch_Feed c))) else "")
  ++ (if negb (is_empty (Generator c)) then atom_line "  " "generator" "" (EscapeText (Generator c)) else "")
  ++ concat_map (writeAtomEntry c) (newestFirst (ch_Items c))
  ++ "</feed>" ++ lf.

(** ** JSON Feed *)

Record jsonFeedItem := MkJsonItem {
  ji_ID : string; ji_URL : string; ji_Title : string; ji_ContentHTML : string; ji_Summary : string;
  ji_DatePublished : string; ji_Tags : list string }.

Record jsonFeedDoc := MkJsonDoc {
  jd_Version : string; jd_Title : string; jd_HomePageURL : string; jd_FeedURL : string; jd_Description : string;
  jd_Language : string; jd_Icon : string; jd_Authors : list string; jd_Items : list jsonFeedItem }.

(** The document [JSONFeed] builds, before it is encoded. *)
Definition json_item (c : Channel) (it : Item) : jsonFeedItem :=
  MkJsonItem (item_uri c it) (Link it) (sanitizeXMLText (Title it)) (sanitizeXMLText (itemBodyWithAnswer it))
    (sanitizeXMLText (RenderCardText it)) (RFC3339 (PublishedAt it)) (Tags it).

Definition jsonfeed_doc (c : Channel) : jsonFeedDoc :=
  MkJsonDoc "https://jsonfeed.org/version/1.1" (sanitizeXMLText (fd_Title (ch_Feed c))) (HTMLURL c) (SelfURL c)
    (fd_Description (ch_Feed c)) (fd_Language (ch_Feed c)) (fd_OGImage (ch_Feed c))
    (if is_empty (fd_Author (ch_Feed c)) then [] else [fd_Author (ch_Feed c)])
    (List.map (json_item c) (newestFirst (ch_Items c))).

(** *** [encoding/json]

    The encoder with an indentation of two spaces and without the escaping of
    HTML, for what the document holds. *)
Inductive jval := JStr (s : string) | JArr (l : list jval) | JObj (l : list (string * jval)).

Definition hex_digit (n : Z) : ascii := byte (if n <? 10 then 48 + n else 87 + n).

Definition json_ascii (c : ascii) : string :=
  let n := Z.of_nat (nat_of_ascii c) in
  if Ascii.eqb c dquote || (n =? 92) then String (byte 92) (String c "")
  else if n =? 8 then String (byte 92) "b"
  else if n =? 12 then String (byte 92) "f"
  else if n =? 10 then String (byte 92) "n"
  else if n =? 13 then String (byte 92) "r"
  else if n =? 9 then String (byte 92) "t"
  else if n <? 32 then String (byte 92) ("u00" ++ String (hex_digit (n / 16)) (String (hex_digit (n mod 16)) ""))
  else String c "".

Fixpoint json_from (fuel : nat) (s : string) : string :=
  match fuel, s with
  | S f, String c r =>
      if ascii_byte c then json_ascii c ++ json_from f r
      else match rune_len s with
           | None => String (byte 92) "ufffd" ++ json_from f r
           | Some k =>
               let v := rune_value k s in
               (if (v =? 8232) || (v =? 8233) then String (byte 92) ("u202" ++ String (hex_digit (v mod 16)) "") else substring 0 k s)
               ++ json_from f (substring k (String.length s - k) s)
           end
  | _, _ => ""
  end.
Definition json_string (s : string) : string := q (json_from (String.length s) s).

Fixpoint spaces (n : nat) : string := match n with O => "" | S k => "  " ++ spaces k end.
Definition newline (n : nat) : string := lf ++ spaces n.

Fixpoint join_with (sep : string) (l : list string) : string :=
  match l with [] => "" | [x] => x | x :: r => x ++ sep ++ join_with sep r end.

Fixpoint print_json (n : nat) (v : jval) : string :=
  match v with
  | JStr s => json_string s
  | JArr [] => "[]"
  | JArr l => "[" ++ newline (S n) ++ join_with ("," ++ newline (S n)) (List.map (print_json (S n)) l) ++ newline n ++ "]"
  | JObj [] => "{}"
  | JObj l => "{" ++ newline (S n)
      ++ join_with ("," ++ newline (S n)) (List.map (fun kv => json_string kv.1 ++ ": " ++ print_json (S n) kv.2) l) ++ newline n ++ "}"
  end.

(** A field with [omitempty]. *)
Definition omit_empty (k v : string) : list (string * jval) := if is_empty v then [] else [(k, JStr v)].
Definition omit_empty_list (k : string) (l : list jval) : list (string * jval) := match l with [] => [] | _ => [(k, JArr l)] end.

Definition item_value (i : jsonFeedItem) : jval :=
  JObj ([("id", JStr (ji_ID i))] ++ omit_empty "url" (ji_URL i) ++ omit_empty "title" (ji_Title i)
        ++ [("content_html", JStr (ji_ContentHTML i))] ++ omit_empty "summary" (ji_Summary i)
        ++ omit_empty "date_published" (ji_DatePublished i) ++ omit_empty_list "tags" (List.map JStr (ji_Tags i)))%list.

Definition doc_value (d : jsonFeedDoc) : jval :=
  JObj ([("version", JStr (jd_Version d)); ("title", JStr (jd_Title d))] ++ omit_empty "home_page_url" (jd_HomePageURL d)
        ++ omit_empty "feed_url" (jd_FeedURL d) ++ omit_empty "description" (jd_Description d) ++ omit_empty "language" (jd_Language d)
        ++ omit_empty "icon" (jd_Icon d) ++ omit_empty_list "authors" (List.map (fun a => JObj (omit_empty "name" a)) (jd_Authors d))
        ++ [("items", JArr (List.map item_value (jd_Items d)))])%list.

Definition JSONFeed (c : Channel) : string := print_json 0 (doc_value (jsonfeed_doc c)).

(** ** The item page *)

(** [value] is already escaped. *)
Definition writeMeta (attr key value : string) : string :=
  "<meta " ++ attr ++ "=" ++ q key ++ " content=" ++ q value ++ ">" ++ lf.

Definition lang_of (c : Channel) : string := if is_empty (fd_Language (ch_Feed c)) then "en" else fd_Language (ch_Feed c).

Definition viewport : string := "<meta name=" ++ q "viewport" ++ " content=" ++ q "width=device-width, initial-scale=1" ++ ">" ++ lf.
Definition charset : string := "<meta charset=" ++ q "utf-8" ++ ">" ++ lf.

(** Up to the body of the item. *)
Definition permalink_head (c : Channel) (it : Item) : string :=
  let summary := EscapeText (RenderCardText it) in
  let title := EscapeText (Title it) in
  let published := RFC3339 (PublishedAt it) in
  "<!DOCTYPE html>" ++ lf
  ++ "<html lang=" ++ q (EscapeText (lang_of c)) ++ ">" ++ lf
  ++ "<head>" ++ lf ++ charset ++ viewport
  ++ "<title>" ++ title ++ "</title>" ++ lf
  ++ writeMeta "name" "description" summary
  ++ writeMeta "property" "og:title" title
  ++ writeMeta "property" "og:description" summary
  ++ (if negb (is_empty (fd_OGImage (ch_Feed c))) then writeMeta "property" "og:image" (EscapeText (fd_OGImage (ch_Feed c))) else "")
  ++ writeMeta "property" "og:type" "article"
  ++ writeMeta "property" "og:url" (EscapeText (Link it))
  ++ writeMeta "property" "article:published_time" published
  ++ writeMeta "name" "twitter:card" "summary_large_image"
  ++ "</head>" ++ lf ++ "<body>" ++ lf ++ "<article>" ++ lf
  ++ "<h1>" ++ title ++ "</h1>" ++ lf
  ++ "<time datetime=" ++ q published ++ ">" ++ published ++ "</time>" ++ lf.

Definition Permalink (c : Channel) (it : Item) : string :=
  permalink_head c it
  ++ RenderPageHTML it ++ lf
  ++ (if HasAnswer it then "<details>" ++ lf ++ "<summary>Reveal the answer</summary>" ++ lf ++ AnswerHTML it ++ lf ++ "</details>" ++ lf else "")
  ++ "</article>" ++ lf ++ "</body>" ++ lf ++ "</html>" ++ lf.

(** ** The embedded widget *)

Definition css_base : string := "*,*::before,*::after{box-sizing:border-box}
html,body{height:100%}
body{margin:0;background:var(--bg);color:var(--fg);
  font:15px/1.55 system-ui,-apple-system," ++ q "Segoe UI" ++ ",Roboto,sans-serif;
  -webkit-text-size-adjust:100%;text-rendering:optimizeLegibility}
/* The frame's height is fixed by whoever embedded it and its content is
   not, so the list takes the overflow and scrolls while the heading and
   the subscribe link stay put. Letting the document overflow instead
   sliced the subscribe link in half at the default height — which is what
   it looked like in a browser, and it read as a broken widget rather than
   as a widget with more content than room. */
.aff{padding:18px 20px;height:100%;display:flex;flex-direction:column}
.aff-feed{margin:0 0 4px;font-size:11px;font-weight:700;letter-spacing:.09em;
  text-transform:uppercase;color:var(--muted);flex:none}
.aff-items{margin:0;padding:0;list-style:none;
  flex:1 1 auto;min-height:0;overflow-y:auto;overscroll-behavior:contain}
/* One column, not a date rail beside the text. The rail was a fifth of the
   width printing the same date on every row — a feed publishes a run at a
   time, so those labels repeat by construction — and it left a hole
   whenever an item had no date at all. As a caption it costs nothing when
   it is absent and stops competing with the title when it is present. */
.aff-item{padding:14px 0;border-top:1px solid var(--line)}
.aff-item:first-child{border-top:0}
.aff-when{display:block;margin-bottom:5px;
  font:11px/1 ui-monospace,SFMono-Regular,Menlo,Consolas,monospace;
  font-variant-numeric:tabular-nums;letter-spacing:.02em;color:var(--muted)}
.aff-title{display:block;font-size:15.5px;font-weight:650;line-height:1.35;
  letter-spacing:-.005em;text-wrap:balance}
/* Clamped, not truncated by the frame. Summaries are model-authored and
   their length is not a fixed quantity — one long one would otherwise push
   every other item out of a fixed-height frame. Three lines is enough to
   judge an item and short enough that the rows stay a list. */
.aff-summary{margin:5px 0 0;color:var(--muted);font-size:13.5px;line-height:1.5;
  display:-webkit-box;-webkit-line-clamp:3;-webkit-box-orient:vertical;
  overflow:hidden}
.aff-empty{margin:0;color:var(--muted);flex:1 1 auto}
.aff-sub{margin:0;padding-top:12px;margin-top:auto;
  border-top:1px solid var(--line);
  font-size:11px;font-weight:600;letter-spacing:.06em;text-transform:uppercase;
  flex:none}
a{color:inherit;text-decoration:none}
.aff-title a{text-decoration-color:transparent;text-decoration-line:underline;
  text-decoration-thickness:1.5px;text-underline-offset:3px;
  transition:text-decoration-color .12s ease}
.aff-title a:hover{text-decoration-color:var(--accent)}
.aff-sub a{color:var(--accent)}
.aff-sub a:hover{text-decoration:underline;text-underline-offset:3px}
a:focus-visible{outline:2px solid var(--accent);outline-offset:3px;
  border-radius:2px}
@media (prefers-reduced-motion:reduce){*{transition:none!important}}
".
Definition css_light : string := ":root{color-scheme:light;--bg:#fff;--fg:#16161a;--muted:#6b6b76;
  --line:#e6e6ea;--accent:#3a5ccc}
".
Definition css_dark : string := ":root{color-scheme:dark;--bg:#131317;--fg:#ecedf1;--muted:#9a9aa6;
  --line:#2a2a33;--accent:#8fa6ff}
".

Definition embedCSS (theme : string) : string :=
  if String.eqb theme "light" then css_light ++ css_base
  else if String.eqb theme "dark" then css_dark ++ css_base
  else css_light ++ "@media (prefers-color-scheme:dark){" ++ css_dark ++ "}" ++ lf ++ css_base.

Record EmbedOptions := MkEmbedOptions { Count : Z; Theme : string }.

Definition EmbedCounts : list Z := [5; 10; 20].
Definition EmbedThemes : list string := ["light"; "dark"; "auto"].
Definition DefaultEmbedCount : Z := 10.
Definition DefaultEmbedTheme : string := "auto".
Definition ValidEmbedCount (n : Z) : bool := existsb (Z.eqb n) EmbedCounts.
Definition ValidEmbedTheme (s : string) : bool := existsb (String.eqb s) EmbedThemes.

Definition embed_resolve (o : EmbedOptions) : EmbedOptions :=
  MkEmbedOptions (if ValidEmbedCount (Count o) then Count o else DefaultEmbedCount)
                 (if ValidEmbedTheme (Theme o) then Theme o else DefaultEmbedTheme).

(** [url.Parse], with its arguments of GoURL.v. *)
Section links.
Context (parseIPLiteral : string -> option string) (strictColons : string -> bool).

Definition linkableURL (raw : string) : bool :=
  if String.eqb raw "" then false
  else match Parse parseIPLiteral strictColons raw with
       | None => false
       | Some u => String.eqb (Scheme u) "http" || String.eqb (Scheme u) "https"
       end.

(** [label] is already escaped. *)
Definition writeEmbedLink (href label : string) : string :=
  if negb (linkableURL href) then label
  else "<a href=" ++ q (EscapeText href) ++ " target=" ++ q "_blank" ++ " rel=" ++ q "noopener noreferrer" ++ ">" ++ label ++ "</a>".

Definition embedStamp (t : Z) : string :=
  show_int (Day UTC t) ++ " " ++ month_name (Month UTC t) ++ " " ++ show_year (Year UTC t) ""
  ++ " · " ++ pad 2 (Hour UTC t) (":" ++ pad 2 (Minute UTC t) "") ++ " UTC".

Definition writeEmbedItem (it : Item) : string :=
  "<li class=" ++ q "aff-item" ++ ">" ++ lf
  ++ (if negb (is_zero (PublishedAt it))
      then "<time class=" ++ q "aff-when" ++ " datetime=" ++ q (RFC3339 (PublishedAt it)) ++ ">" ++ embedStamp (PublishedAt it) ++ "</time>" ++ lf
      else "")
  ++ "<span class=" ++ q "aff-title" ++ ">" ++ writeEmbedLink (Link it) (EscapeText (Title it)) ++ "</span>" ++ lf
  ++ (if negb (is_empty (RenderEmbedText it))
      then "<p class=" ++ q "aff-summary" ++ ">" ++ EscapeText (RenderEmbedText it) ++ "</p>" ++ lf else "")
  ++ "</li>" ++ lf.

Definition embed_items (c : Channel) (o : EmbedOptions) : list Item := firstn (Z.to_nat (Count o)) (newestFirst (ch_Items c)).

Definition Embed (c : Channel) (opts : EmbedOptions) : string :=
  let o := embed_resolve opts in
  let title := EscapeText (fd_Title (ch_Feed c)) in
  let items := embed_items c o in
  "<!doctype html>" ++ lf
  ++ "<html lang=" ++ q (EscapeText (lang_of c)) ++ ">" ++ lf
  ++ "<head>" ++ lf ++ charset ++ viewport
  ++ "<meta name=" ++ q "robots" ++ " content=" ++ q "noindex" ++ ">" ++ lf
  ++ "<title>" ++ title ++ "</title>" ++ lf
  ++ writeMeta "name" "generator" (EscapeText (Generator c))
  ++ "<style>" ++ lf ++ embedCSS (Theme o) ++ "</style>" ++ lf
  ++ "</head>" ++ lf ++ "<body>" ++ lf
  ++ "<section class=" ++ q "aff" ++ ">" ++ lf
  ++ "<h1 class=" ++ q "aff-feed" ++ ">" ++ writeEmbedLink (HTMLURL c) title ++ "</h1>" ++ lf
  ++ (if (List.length items =? 0)%nat then "<p class=" ++ q "aff-empty" ++ ">No items yet.</p>" ++ lf
      else "<ol class=" ++ q "aff-items" ++ ">" ++ lf ++ concat_map writeEmbedItem items ++ "</ol>" ++ lf)
  ++ "<p class=" ++ q "aff-sub" ++ ">" ++ writeEmbedLink (SelfURL c) "Subscribe by RSS" ++ "</p>" ++ lf
  ++ "</section>" ++ lf ++ "</body>" ++ lf ++ "</html>" ++ lf.

End links.

Definition EmbedSnippet (baseURL slug : string) : string :=
  "<iframe src=" ++ q (baseURL ++ "/embed/" ++ slug) ++ " title=" ++ q slug ++ " width=" ++ q "100%" ++ " height=" ++ q "420"
  ++ " loading=" ++ q "lazy" ++ " style=" ++ q "border:0" ++ "></iframe>".

(** ** The index *)

Definition feedURL (baseURL slug ext : string) : string := baseURL ++ "/feeds/" ++ slug ++ "." ++ ext.

Definition writeAlternate (baseURL : string) (f : Feed) (ext mimeType : string) : string :=
  "  <link rel=" ++ q "alternate" ++ " type=" ++ q mimeType ++ " title=" ++ q (EscapeText (fd_Title f))
  ++ " href=" ++ q (EscapeText (feedURL baseURL (fd_Slug f) ext)) ++ ">" ++ lf.

Definition writeSubscribeLink (baseURL : string) (f : Feed) (ext label : string) : string :=
  "        <a href=" ++ q (EscapeText (feedURL baseURL (fd_Slug f) ext)) ++ ">" ++ EscapeText label ++ "</a>" ++ lf.

Definition writeFeedEntry (baseURL : string) (f : Feed) : string :=
  "    <li>" ++ lf
  ++ "      <h2>" ++ EscapeText (fd_Title f) ++ "</h2>" ++ lf
  ++ "      <p>" ++ EscapeText (fd_Description f) ++ "</p>" ++ lf
  ++ "      <p>" ++ lf
  ++ writeSubscribeLink baseURL f "xml" "RSS"
  ++ writeSubscribeLink baseURL f "atom" "Atom"
  ++ writeSubscribeLink baseURL f "json" "JSON Feed"
  ++ "        <a href=" ++ q (EscapeText (baseURL ++ "/embed/" ++ fd_Slug f)) ++ ">Embed</a>" ++ lf
  ++ "      </p>" ++ lf
  ++ "      <pre><code>" ++ EscapeText (EmbedSnippet baseURL (fd_Slug f)) ++ "</code></pre>" ++ lf
  ++ "    </li>" ++ lf.

Definition index_feeds (feeds : list Feed) : list Feed :=
  SliceStable (fun a b => str_ltb (fd_Title a) (fd_Title b)) (List.filter fd_Enabled feeds).

Definition Index (feeds : list Feed) (baseURL generator : string) : string :=
  let sorted := index_feeds feeds in
  "<!doctype html>" ++ lf
  ++ "<html lang=" ++ q "en" ++ ">" ++ lf
  ++ "<head>" ++ lf
  ++ "  " ++ charset ++ "  " ++ viewport
  ++ "  <title>Feeds</title>" ++ lf
  ++ "  <meta name=" ++ q "generator" ++ " content=" ++ q (EscapeText generator) ++ ">" ++ lf
  ++ concat_map (fun f => writeAlternate baseURL f "xml" "application/rss+xml"
                          ++ writeAlternate baseURL f "atom" "application/atom+xml"
                          ++ writeAlternate baseURL f "json" "application/feed+json") sorted
  ++ "</head>" ++ lf ++ "<body>" ++ lf ++ "  <h1>Feeds</h1>" ++ lf
  ++ (if (List.length sorted =? 0)%nat then "  <p>No feeds are currently enabled.</p>" ++ lf
      else "  <ul>" ++ lf ++ concat_map (writeFeedEntry baseURL) sorted ++ "  </ul>" ++ lf)
  ++ "</body>" ++ lf ++ "</html>" ++ lf.

(** ** Dates and numbers need no escaping *)

Definition clean_byte (c : ascii) : bool := in_range 32 126 c && xml_plain_byte c.

Lemma clean_chars s : all_bytes clean_byte s = true -> xml_chars s = true.
Proof.
  induction s as [|c s IH]; [done|]. rewrite all_bytes_cons. intros [Hc Hs]%andb_true_iff.
  apply (xml_chars_app (String c "") s); [|by apply IH]. apply xml_chars_spec. unfold clean_byte in Hc.
  apply andb_true_iff in Hc as [Hc%in_range_spec _]. eexists. split; [apply Utf8_ascii; [apply Nat.ltb_lt; lia|constructor]|].
  cbn [forallb]. unfold xml_rune, isInvalidXMLRune. set (r := Z.of_nat (nat_of_ascii c)). assert (32 <= r <= 126) by lia.
  rewrite !(proj2 (Z.eqb_neq r _)) by lia. by rewrite (proj2 (Z.leb_le 32 r)), (proj2 (Z.leb_le r 55295)) by lia.
Qed.

Lemma clean_plain s : all_bytes clean_byte s = true -> all_bytes xml_plain_byte s = true.
Proof. apply all_bytes_weaken. unfold clean_byte. by intros c [_ ?]%andb_true_iff. Qed.

Lemma clean_sanitized s : all_bytes clean_byte s = true -> sanitizeXMLText s = s.
Proof. intros. by apply sanitized_id, clean_chars. Qed.

Lemma clean_digit n : clean_byte (digit_char (n mod 10)) = true.
Proof.
  assert (H : 0 <= n mod 10 < 10) by (apply Z.mod_pos_bound; lia). revert H. generalize (n mod 10). intros d Hd.
  assert (Hc : d = 0 \/ d = 1 \/ d = 2 \/ d = 3 \/ d = 4 \/ d = 5 \/ d = 6 \/ d = 7 \/ d = 8 \/ d = 9) by lia.
  repeat destruct Hc as [->|Hc]; [reflexivity..|subst; reflexivity].
Qed.

Lemma clean_pad k n r : all_bytes clean_byte r = true -> all_bytes clean_byte (pad k n r) = true.
Proof.
  revert n r. induction k as [|k IH]; intros n r Hr; [done|]. cbn [pad]. apply IH. by rewrite all_bytes_cons, clean_digit.
Qed.

Lemma clean_year y r : all_bytes clean_byte r = true -> all_bytes clean_byte (show_year y r) = true.
Proof. intros Hr. unfold show_year. destruct (y <? 0); [rewrite all_bytes_cons|]; by rewrite clean_pad. Qed.

Lemma clean_nth n l : forallb (all_bytes clean_byte) l = true -> all_bytes clean_byte (nth n l "") = true.
Proof. revert n. induction l as [|s l IH]; intros [|n]; try done; cbn [forallb nth]; intros [? ?]%andb_true_iff; [done|by apply IH]. Qed.

Lemma clean_app a b : all_bytes clean_byte a = true -> all_bytes clean_byte b = true -> all_bytes clean_byte (a ++ b) = true.
Proof. intros Ha Hb. by rewrite all_bytes_app, Ha, Hb. Qed.

Create HintDb clean.
#[export] Hint Resolve clean_pad clean_year clean_app clean_nth : clean.
#[export] Hint Extern 2 (all_bytes clean_byte _ = true) => reflexivity : clean.
#[export] Hint Extern 2 (forallb _ _ = true) => reflexivity : clean.

Lemma RFC822_clean t : all_bytes clean_byte (RFC822 t) = true.
Proof. unfold RFC822, short_weekday, month_name. auto 20 with clean. Qed.

Lemma RFC3339_clean t : all_bytes clean_byte (RFC3339 t) = true.
Proof. unfold RFC3339. auto 20 with clean. Qed.

Lemma show_int_clean n : all_bytes clean_byte (show_int n) = true.
Proof.
  assert (H : forall f n r, all_bytes clean_byte r = true -> all_bytes clean_byte (show_digits f n r) = true).
  { induction f as [|f IH]; intros m r Hr; [done|]. cbn [show_digits].
    assert (all_bytes clean_byte (String (digit_char (m mod 10)) r) = true) by (by rewrite all_bytes_cons, clean_digit).
    destruct (m <? 10); [done|by apply IH]. }
  unfold show_int. destruct (n <? 0); [rewrite all_bytes_cons|]; by rewrite H.
Qed.

(** ** What the reader sees of a line *)

Definition leaf (indent n : string) (a : list (string * string)) (v : string) (k : list xml_event) : list xml_event :=
  emit indent (EOpen n a :: emit v (EClose n :: emit lf k)).
Definition opening (indent n : string) (a : list (string * string)) (k : list xml_event) : list xml_event :=
  emit indent (EOpen n a :: emit lf k).
Definition closing (indent n : string) (k : list xml_event) : list xml_event := emit indent (EClose n :: emit lf k).

(** Read the pieces one after the other; what they add together is checked last. *)
Ltac read_pieces tac := eapply Reads_ext; cycle 1; [repeat (eapply Reads_app; [solve [tac]|]); solve [tac]|reflexivity].

Lemma leaf_reads indent n a v body :
  all_bytes xml_plain_byte indent = true -> good_tag n a = true -> Reads body (emit v) ->
  Reads (indent ++ tag n a false ++ body ++ "</" ++ n ++ ">" ++ lf) (leaf indent n a v).
Proof.
  intros Hi Ht Hb. replace ("</" ++ n ++ ">" ++ lf) with (("</" ++ n ++ ">") ++ lf) by (by rewrite !str_app_assoc).
  assert (good_name n = true) by (by apply andb_true_iff in Ht as [? _]).
  read_pieces ltac:(first [exact Hb | by apply Reads_open | by apply Reads_close | by apply Reads_plain]).
Qed.

Lemma void_reads indent n a :
  all_bytes xml_plain_byte indent = true -> good_tag n a = true -> Reads (indent ++ tag n a true ++ lf) (leaf indent n a "").
Proof. intros Hi Ht. read_pieces ltac:(first [by apply Reads_empty | by apply Reads_plain]). Qed.

Lemma opening_reads indent n a :
  all_bytes xml_plain_byte indent = true -> good_tag n a = true -> Reads (indent ++ tag n a false ++ lf) (opening indent n a).
Proof. intros Hi Ht. read_pieces ltac:(first [by apply Reads_open | by apply Reads_plain]). Qed.

Lemma closing_reads indent n :
  all_bytes xml_plain_byte indent = true -> good_name n = true -> Reads (indent ++ ("</" ++ n ++ ">") ++ lf) (closing indent n).
Proof. intros Hi Ht. read_pieces ltac:(first [by apply Reads_close | by apply Reads_plain]). Qed.

Lemma writeElem_reads indent n v :
  all_bytes xml_plain_byte indent = true -> good_name n = true -> Reads (writeElem indent n v) (leaf indent n [] (sanitizeXMLText v)).
Proof.
  intros Hi Hn. unfold writeElem. replace (indent ++ "<" ++ n ++ ">" ++ EscapeText v ++ "</" ++ n ++ ">" ++ lf)
    with (indent ++ tag n [] false ++ EscapeText v ++ "</" ++ n ++ ">" ++ lf) by (unfold tag; rewrite !str_app_assoc; done).
  apply leaf_reads; [done| |apply Reads_text]. unfold good_tag. by rewrite Hn.
Qed.

Lemma tokens_line indent n a v k : tokens (leaf indent n a v k) = TLeaf n a v :: tokens k.
Proof. unfold leaf. by rewrite tokens_emit, tokens_leaf, tokens_emit. Qed.
Lemma tokens_opening indent n a k : opens k = true -> tokens (opening indent n a k) = TOpen n a :: tokens k.
Proof. intros Hk. unfold opening. by rewrite tokens_emit, tokens_open, tokens_emit by (by apply opens_emit). Qed.
Lemma tokens_closing indent n k : tokens (closing indent n k) = TClose n :: tokens k.
Proof. unfold closing. rewrite tokens_emit. cbn [tokens]. by rewrite tokens_emit. Qed.
Lemma nested_line o indent n a v k : nested o (leaf indent n a v k) = nested o k.
Proof. unfold leaf. rewrite nested_emit. cbn [nested]. rewrite nested_emit. cbn [nested]. by rewrite String.eqb_refl, nested_emit. Qed.
Lemma nested_opening o indent n a k : nested o (opening indent n a k) = nested (n :: o) k.
Proof. unfold opening. rewrite nested_emit. cbn [nested]. by rewrite nested_emit. Qed.
Lemma nested_closing o indent n k : nested (n :: o) (closing indent n k) = nested o k.
Proof. unfold closing. rewrite nested_emit. cbn [nested]. by rewrite String.eqb_refl, nested_emit. Qed.
Lemma opens_line indent n a v k : opens (leaf indent n a v k) = true.
Proof. by apply opens_emit. Qed.
Lemma opens_opening indent n a k : opens (opening indent n a k) = true.
Proof. by apply opens_emit. Qed.
#[export] Hint Rewrite tokens_line tokens_closing nested_line nested_opening nested_closing opens_line opens_opening : reads.

Lemma tokens_if (b : bool) (f : list xml_event -> list xml_event) k l :
  tokens (f k) = (l ++ tokens k)%list -> tokens (if b then f k else k) = ((if b then l else []) ++ tokens k)%list.
Proof. by destruct b. Qed.
Lemma nested_if (b : bool) f o k : nested o (f k) = nested o k -> nested o (if b then f k else k) = nested o k.
Proof. by destruct b. Qed.

(** ** RSS read back *)

Definition item_events (c : Channel) (it : Item) (k : list xml_event) : list xml_event :=
  opening "    " "item" [] (leaf "      " "title" [] (sanitizeXMLText (Title it))
    ((fun k => if negb (is_empty (Link it)) then leaf "      " "link" [] (sanitizeXMLText (Link it)) k else k)
    (leaf "      " "description" [] (sanitizeXMLText (RenderCardText it))
    (leaf "      " "content:encoded" [] (sanitizeXMLText (itemBodyWithAnswer it))
    (leaf "      " "guid" [("isPermaLink", "false")] (sanitizeXMLText (item_uri c it))
    (leaf "      " "pubDate" [] (sanitizeXMLText (RFC822 (PublishedAt it))) (closing "    " "item" k))))))).

Lemma writeItem_reads c it : Reads (writeItem c it) (item_events c it).
Proof.
  replace (writeItem c it) with
    (("    " ++ tag "item" [] false ++ lf)
     ++ writeElem "      " "title" (Title it)
     ++ (if negb (is_empty (Link it)) then writeElem "      " "link" (Link it) else "")
     ++ writeElem "      " "description" (RenderCardText it)
     ++ ("      " ++ tag "content:encoded" [] false ++ CDATA (itemBodyWithAnswer it) ++ "</" ++ "content:encoded" ++ ">" ++ lf)
     ++ ("      " ++ tag "guid" [("isPermaLink", "false")] false ++ EscapeText (item_uri c it) ++ "</" ++ "guid" ++ ">" ++ lf)
     ++ writeElem "      " "pubDate" (RFC822 (PublishedAt it))
     ++ ("    " ++ ("</" ++ "item" ++ ">") ++ lf)) by (unfold writeItem; rewrite !str_app_assoc; reflexivity).
  read_pieces ltac:(first [by apply opening_reads | by apply writeElem_reads | by apply Reads_when; intros _; apply writeElem_reads
    | by apply leaf_reads; [| |apply Reads_cdata] | by apply leaf_reads; [| |apply Reads_text] | by apply closing_reads]).
Qed.

Definition rss_attrs : list (string * string) :=
  [("version", "2.0"); ("xmlns:atom", "http://www.w3.org/2005/Atom"); ("xmlns:content", "http://purl.org/rss/1.0/modules/content/")].
Definition self_attrs (c : Channel) : list (string * string) :=
  [("rel", "self"); ("type", "application/rss+xml"); ("href", sanitizeXMLText (SelfURL c))].

Definition rss_events (c : Channel) (k : list xml_event) : list xml_event :=
  opening lf "rss" rss_attrs (opening "  " "channel" []
    (leaf "    " "title" [] (sanitizeXMLText (fd_Title (ch_Feed c)))
    (leaf "    " "link" [] (sanitizeXMLText (HTMLURL c))
    (leaf "    " "description" [] (sanitizeXMLText (fd_Description (ch_Feed c)))
    (leaf "    " "language" [] (sanitizeXMLText (fd_Language (ch_Feed c)))
    (leaf "    " "pubDate" [] (sanitizeXMLText (RFC822 (Channel_NewestPublished c)))
    (leaf "    " "lastBuildDate" [] (sanitizeXMLText (RFC822 (BuildTime c)))
    (leaf "    " "generator" [] (sanitizeXMLText (Generator c))
    (leaf "    " "docs" [] (sanitizeXMLText (DocsURL c))
    (leaf "    " "ttl" [] (sanitizeXMLText (show_int (fd_TTLMinutes (ch_Feed c))))
    (leaf "    " "atom:link" (self_attrs c) ""
    (foldr (item_events c) (closing "  " "channel" (closing "" "rss" k)) (newestFirst (ch_Items c)))))))))))))).

Lemma RSS_reads c : exists body, RSS c = xml_declaration ++ body /\ Reads body (rss_events c).
Proof.
  eexists ((lf ++ tag "rss" rss_attrs false ++ lf)
    ++ ("  " ++ tag "channel" [] false ++ lf)
    ++ writeElem "    " "title" (fd_Title (ch_Feed c))
    ++ writeElem "    " "link" (HTMLURL c)
    ++ writeElem "    " "description" (fd_Description (ch_Feed c))
    ++ writeElem "    " "language" (fd_Language (ch_Feed c))
    ++ writeElem "    " "pubDate" (RFC822 (Channel_NewestPublished c))
    ++ writeElem "    " "lastBuildDate" (RFC822 (BuildTime c))
    ++ writeElem "    " "generator" (Generator c)
    ++ writeElem "    " "docs" (DocsURL c)
    ++ writeElem "    " "ttl" (show_int (fd_TTLMinutes (ch_Feed c)))
    ++ ("    " ++ tag "atom:link" (self_attrs c) true ++ lf)
    ++ concat_map (writeItem c) (newestFirst (ch_Items c))
    ++ ("  " ++ ("</" ++ "channel" ++ ">") ++ lf)
    ++ ("" ++ ("</" ++ "rss" ++ ">") ++ lf)). split.
  - unfold RSS, tag, self_attrs, q. unfold print_attrs, print_attr, quoted. cbn [foldr fst snd].
    rewrite !str_app_assoc. rewrite ?str_app_cons, ?str_app_nil_l, ?str_app_assoc. reflexivity.
  - read_pieces ltac:(first [by apply opening_reads | by apply writeElem_reads | by apply void_reads
      | by apply Reads_concat; intros; apply writeItem_reads | by apply closing_reads]).
Qed.

(** What a subscriber gets, tag by tag. *)
Definition item_tokens (c : Channel) (it : Item) : list xml_token :=
  ([TOpen "item" []; TLeaf "title" [] (sanitizeXMLText (Title it))]
  ++ (if is_empty (Link it) then [] else [TLeaf "link" [] (sanitizeXMLText (Link it))])
  ++ [TLeaf "description" [] (sanitizeXMLText (RenderCardText it));
      TLeaf "content:encoded" [] (sanitizeXMLText (itemBodyWithAnswer it));
      TLeaf "guid" [("isPermaLink", "false")] (sanitizeXMLText (item_uri c it));
      TLeaf "pubDate" [] (RFC822 (PublishedAt it)); TClose "item"])%list.

Definition rss_tokens (c : Channel) : list xml_token :=
  ([TOpen "rss" rss_attrs; TOpen "channel" [];
   TLeaf "title" [] (sanitizeXMLText (fd_Title (ch_Feed c))); TLeaf "link" [] (sanitizeXMLText (HTMLURL c));
   TLeaf "description" [] (sanitizeXMLText (fd_Description (ch_Feed c))); TLeaf "language" [] (sanitizeXMLText (fd_Language (ch_Feed c)));
   TLeaf "pubDate" [] (RFC822 (Channel_NewestPublished c)); TLeaf "lastBuildDate" [] (RFC822 (BuildTime c));
   TLeaf "generator" [] (sanitizeXMLText (Generator c)); TLeaf "docs" [] (sanitizeXMLText (DocsURL c));
   TLeaf "ttl" [] (show_int (fd_TTLMinutes (ch_Feed c))); TLeaf "atom:link" (self_attrs c) ""]
  ++ List.concat (List.map (item_tokens c) (newestFirst (ch_Items c)))
  ++ [TClose "channel"; TClose "rss"])%list.

(** Add the tokens of a balanced piece. *)
Lemma tokens_foldr {A} (f : A -> list xml_event -> list xml_event) (g : A -> list xml_token) l k :
  (forall x k, tokens (f x k) = (g x ++ tokens k)%list) -> tokens (foldr f k l) = (List.concat (List.map g l) ++ tokens k)%list.
Proof. intros H. induction l as [|x l IH]; [done|]. cbn [foldr List.map List.concat]. by rewrite H, IH, <- app_assoc. Qed.
Lemma nested_foldr {A} (f : A -> list xml_event -> list xml_event) l o k :
  (forall x k, nested o (f x k) = nested o k) -> nested o (foldr f k l) = nested o k.
Proof. intros H. induction l as [|x l IH]; [done|]. cbn [foldr]. by rewrite H. Qed.

Lemma item_tokens_ok c it k : tokens (item_events c it k) = (item_tokens c it ++ tokens k)%list.
Proof.
  unfold item_events, item_tokens. rewrite tokens_opening by apply opens_line. rewrite (clean_sanitized (RFC822 _)) by apply RFC822_clean.
  destruct (is_empty (Link it)); cbn [negb]; autorewrite with reads; done.
Qed.
Lemma item_nested c it o k : nested o (item_events c it k) = nested o k.
Proof. unfold item_events. destruct (is_empty (Link it)); cbn [negb]; by autorewrite with reads. Qed.

Lemma rss_tokens_ok c : tokens (rss_events c []) = rss_tokens c.
Proof.
  unfold rss_events, rss_tokens. rewrite !tokens_opening by (apply opens_opening || apply opens_line). autorewrite with reads.
  rewrite (tokens_foldr _ (item_tokens c)) by apply item_tokens_ok. autorewrite with reads.
  rewrite !(clean_sanitized (RFC822 _)) by apply RFC822_clean. rewrite (clean_sanitized (show_int _)) by apply show_int_clean. done.
Qed.
Lemma rss_nested c : nested [] (rss_events c []) = true.
Proof.
  unfold rss_events. autorewrite with reads. rewrite nested_foldr by (intros; apply item_nested). by autorewrite with reads.
Qed.

Lemma RSS_document c : tokens <$> read_document (RSS c) = Some (rss_tokens c).
Proof.
  destruct (RSS_reads c) as (body & -> & Hb). rewrite (Reads_document _ _ Hb) by apply rss_nested. by rewrite <- rss_tokens_ok.
Qed.

(** ** Atom read back *)

Lemma atom_line_reads indent n attrs a v body :
  attrs = print_attrs a -> all_bytes xml_plain_byte indent = true -> good_tag n a = true -> Reads body (emit v) ->
  Reads (atom_line indent n attrs body) (leaf indent n a v).
Proof.
  intros -> Hi Ht Hb. unfold atom_line. replace (indent ++ "<" ++ n ++ print_attrs a ++ ">" ++ body ++ "</" ++ n ++ ">" ++ lf)
    with (indent ++ tag n a false ++ body ++ "</" ++ n ++ ">" ++ lf) by (unfold tag; rewrite !str_app_assoc; done).
  by apply leaf_reads.
Qed.

Definition link_attrs (rel href : string) : list (string * string) := [("rel", rel); ("href", sanitizeXMLText href)].

Lemma atom_link_reads indent rel href :
  all_bytes xml_plain_byte indent = true -> all_bytes xml_plain_byte rel = true ->
  Reads (atom_link indent rel href) (leaf indent "link" (link_attrs rel href) "").
Proof.
  intros Hi Hr. replace (atom_link indent rel href) with (indent ++ tag "link" (link_attrs rel href) true ++ lf).
  { by apply void_reads. }
  unfold atom_link, tag, link_attrs, print_attrs, print_attr, quoted, q. cbn [foldr fst snd]. rewrite (textEscaper_plain rel) by done.
  unfold EscapeText. rewrite ?str_app_assoc, ?str_app_cons, ?str_app_nil_l, ?str_app_assoc. by f_equal.
Qed.

Lemma Reads_date t : Reads (RFC3339 t) (emit (RFC3339 t)).
Proof. apply Reads_plain, clean_plain, RFC3339_clean. Qed.

Definition type_attr (v : string) : list (string * string) := [("type", v)].

Definition entry_events (c : Channel) (it : Item) (k : list xml_event) : list xml_event :=
  opening "  " "entry" [] (leaf "    " "id" [] (sanitizeXMLText (item_uri c it))
    (leaf "    " "title" [] (sanitizeXMLText (Title it)) (leaf "    " "updated" [] (RFC3339 (PublishedAt it))
    ((fun k => if negb (is_empty (Link it)) then leaf "    " "link" (link_attrs "alternate" (Link it)) "" k else k)
    (leaf "    " "summary" (type_attr "text") (sanitizeXMLText (RenderCardText it))
    (leaf "    " "content" (type_attr "html") (sanitizeXMLText (itemBodyWithAnswer it)) (closing "  " "entry" k))))))).

Ltac atom_piece :=
  first [by apply opening_reads | by apply closing_reads | by apply Reads_when; intros _; apply atom_link_reads
        | by apply (atom_line_reads _ _ _ []); [| | |apply Reads_text] | by apply (atom_line_reads _ _ _ []); [| | |apply Reads_date]
        | by eapply (atom_line_reads _ _ _ (type_attr _)); [| | |apply Reads_text]
        | by apply Reads_when; intros _; apply (atom_line_reads _ _ _ []); [| | |apply Reads_text] ].

Lemma writeAtomEntry_reads c it : Reads (writeAtomEntry c it) (entry_events c it).
Proof.
  replace (writeAtomEntry c it) with
    (("  " ++ tag "entry" [] false ++ lf)
     ++ atom_line "    " "id" "" (EscapeText (item_uri c it))
     ++ atom_line "    " "title" "" (EscapeText (Title it))
     ++ atom_line "    " "updated" "" (RFC3339 (PublishedAt it))
     ++ (if negb (is_empty (Link it)) then atom_link "    " "alternate" (Link it) else "")
     ++ atom_line "    " "summary" (print_attrs (type_attr "text")) (EscapeText (RenderCardText it))
     ++ atom_line "    " "content" (print_attrs (type_attr "html")) (EscapeText (itemBodyWithAnswer it))
     ++ ("  " ++ ("</" ++ "entry" ++ ">") ++ lf)) by (unfold writeAtomEntry; rewrite !str_app_assoc; reflexivity).
  read_pieces ltac:(atom_piece).
Qed.

Definition author_of (c : Channel) : string := if is_empty (fd_Author (ch_Feed c)) then fd_Title (ch_Feed c) else fd_Author (ch_Feed c).
Definition feed_attrs : list (string * string) := [("xmlns", "http://www.w3.org/2005/Atom")].

Definition atom_events (c : Channel) (k : list xml_event) : list xml_event :=
  opening lf "feed" feed_attrs (leaf "  " "id" [] (sanitizeXMLText (feedID c))
    (leaf "  " "title" [] (sanitizeXMLText (fd_Title (ch_Feed c))) (leaf "  " "updated" [] (RFC3339 (BuildTime c))
    (opening "  " "author" [] (leaf "    " "name" [] (sanitizeXMLText (author_of c)) (closing "  " "author"
    ((fun k => if negb (is_empty (SelfURL c)) then leaf "  " "link" (link_attrs "self" (SelfURL c)) "" k else k)
    ((fun k => if negb (is_empty (HTMLURL c)) then leaf "  " "link" (link_attrs "alternate" (HTMLURL c)) "" k else k)
    ((fun k => if negb (is_empty (fd_Description (ch_Feed c))) then leaf "  " "subtitle" [] (sanitizeXMLText (fd_Description (ch_Feed c))) k else k)
    ((fun k => if negb (is_empty (fd_Copyright (ch_Feed c))) then leaf "  " "rights" [] (sanitizeXMLText (fd_Copyright (ch_Feed c))) k else k)
    ((fun k => if negb (is_empty (Generator c)) then leaf "  " "generator" [] (sanitizeXMLText (Generator c)) k else k)
    (foldr (entry_events c) (closing "" "feed" k) (newestFirst (ch_Items c)))))))))))))).

Lemma Atom_reads c : exists body, Atom c = xml_declaration ++ body /\ Reads body (atom_events c).
Proof.
  eexists ((lf ++ tag "feed" feed_attrs false ++ lf)
    ++ atom_line "  " "id" "" (EscapeText (feedID c))
    ++ atom_line "  " "title" "" (EscapeText (fd_Title (ch_Feed c)))
    ++ atom_line "  " "updated" "" (RFC3339 (BuildTime c))
    ++ ("  " ++ tag "author" [] false ++ lf)
    ++ atom_line "    " "name" "" (EscapeText (author_of c))
    ++ ("  " ++ ("</" ++ "author" ++ ">") ++ lf)
    ++ (if negb (is_empty (SelfURL c)) then atom_link "  " "self" (SelfURL c) else "")
    ++ (if negb (is_empty (HTMLURL c)) then atom_link "  " "alternate" (HTMLURL c) else "")
    ++ (if negb (is_empty (fd_Description (ch_Feed c))) then atom_line "  " "subtitle" "" (EscapeText (fd_Description (ch_Feed c))) else "")
    ++ (if negb (is_empty (fd_Copyright (ch_Feed c))) then atom_line "  " "rights" "" (EscapeText (fd_Copyright (ch_Feed c))) else "")
    ++ (if negb (is_empty (Generator c)) then atom_line "  " "generator" "" (EscapeText (Generator c)) else "")
    ++ concat_map (writeAtomEntry c) (newestFirst (ch_Items c))
    ++ ("" ++ ("</" ++ "feed" ++ ">") ++ lf)). split.
  - unfold Atom. rewrite !str_app_assoc. reflexivity.
  - read_pieces ltac:(first [atom_piece | by apply Reads_concat; intros; apply writeAtomEntry_reads]).
Qed.

Definition entry_tokens (c : Channel) (it : Item) : list xml_token :=
  ([TOpen "entry" []; TLeaf "id" [] (sanitizeXMLText (item_uri c it)); TLeaf "title" [] (sanitizeXMLText (Title it));
    TLeaf "updated" [] (RFC3339 (PublishedAt it))]
  ++ (if is_empty (Link it) then [] else [TLeaf "link" (link_attrs "alternate" (Link it)) ""])
  ++ [TLeaf "summary" (type_attr "text") (sanitizeXMLText (RenderCardText it));
      TLeaf "content" (type_attr "html") (sanitizeXMLText (itemBodyWithAnswer it)); TClose "entry"])%list.

(** An element that is written only when it has something to say. *)
Definition unless_empty (s : string) (t : xml_token) : list xml_token := if is_empty s then [] else [t].

Definition atom_tokens (c : Channel) : list xml_token :=
  ([TOpen "feed" feed_attrs; TLeaf "id" [] (sanitizeXMLText (feedID c)); TLeaf "title" [] (sanitizeXMLText (fd_Title (ch_Feed c)));
    TLeaf "updated" [] (RFC3339 (BuildTime c)); TOpen "author" []; TLeaf "name" [] (sanitizeXMLText (author_of c)); TClose "author"]
  ++ unless_empty (SelfURL c) (TLeaf "link" (link_attrs "self" (SelfURL c)) "")
  ++ unless_empty (HTMLURL c) (TLeaf "link" (link_attrs "alternate" (HTMLURL c)) "")
  ++ unless_empty (fd_Description (ch_Feed c)) (TLeaf "subtitle" [] (sanitizeXMLText (fd_Description (ch_Feed c))))
  ++ unless_empty (fd_Copyright (ch_Feed c)) (TLeaf "rights" [] (sanitizeXMLText (fd_Copyright (ch_Feed c))))
  ++ unless_empty (Generator c) (TLeaf "generator" [] (sanitizeXMLText (Generator c)))
  ++ List.concat (List.map (entry_tokens c) (newestFirst (ch_Items c)))
  ++ [TClose "feed"])%list.

Lemma tokens_unless s indent n a v k :
  tokens (if negb (is_empty s) then leaf indent n a v k else k) = (unless_empty s (TLeaf n a v) ++ tokens k)%list.
Proof. unfold unless_empty. destruct (is_empty s); cbn [negb]; [done|apply tokens_line]. Qed.
Lemma nested_unless s indent n a v o k : nested o (if negb (is_empty s) then leaf indent n a v k else k) = nested o k.
Proof. destruct (is_empty s); cbn [negb]; [done|apply nested_line]. Qed.
#[export] Hint Rewrite tokens_unless nested_unless : reads.

Lemma entry_tokens_ok c it k : tokens (entry_events c it k) = (entry_tokens c it ++ tokens k)%list.
Proof.
  unfold entry_events, entry_tokens. rewrite tokens_opening by apply opens_line. autorewrite with reads. cbn [app].
  by rewrite <- !app_assoc.
Qed.
Lemma entry_nested c it o k : nested o (entry_events c it k) = nested o k.
Proof. unfold entry_events. by autorewrite with reads. Qed.

Lemma Atom_document c : tokens <$> read_document (Atom c) = Some (atom_tokens c).
Proof.
  destruct (Atom_reads c) as (body & -> & Hb). rewrite (Reads_document _ _ Hb).
  - cbn [fmap option_fmap option_map]. f_equal. unfold atom_events, atom_tokens. rewrite tokens_opening by apply opens_line.
    autorewrite with reads. rewrite tokens_opening by apply opens_line. autorewrite with reads.
    rewrite (tokens_foldr _ (entry_tokens c)) by apply entry_tokens_ok. by autorewrite with reads.
  - unfold atom_events. autorewrite with reads. rewrite nested_foldr by (intros; apply entry_nested). by autorewrite with reads.
Qed.

(** ** The order of the items *)

Lemma insert_stable_perm {A} (less : A -> A -> bool) x l : insert_stable less x l ≡ₚ x :: l.
Proof. induction l as [|y l IH]; [done|]. cbn. destruct (less y x); [|done]. rewrite IH. apply Permutation_swap. Qed.

Lemma SliceStable_perm {A} (less : A -> A -> bool) l : SliceStable less l ≡ₚ l.
Proof. induction l as [|x l IH]; [done|]. cbn. rewrite insert_stable_perm. by f_equiv. Qed.

Definition newest_first (l : list Item) : Prop := StronglySorted (fun a b => PublishedAt b <= PublishedAt a) l.

Lemma newestFirst_sorted l : newest_first (newestFirst l).
Proof.
  induction l as [|x l IH]; [constructor|]. change (newestFirst (x :: l)) with (insert_stable newer x (newestFirst l)).
  induction IH as [|y r Hr IHr Hall]; [repeat constructor|]. cbn [insert_stable]. unfold newer at 1.
  destruct (Z.ltb_spec (PublishedAt x) (PublishedAt y)) as [H|H].
  - constructor; [done|]. rewrite insert_stable_perm. constructor; [lia|done].
  - constructor; [by constructor|]. constructor; [lia|]. eapply Forall_impl; [exact Hall|]. cbn. intros z Hz. lia.
Qed.

(** Items of one instant keep their order. *)
Lemma newestFirst_stable l k :
  List.filter (fun it => PublishedAt it =? k) (newestFirst l) = List.filter (fun it => PublishedAt it =? k) l.
Proof.
  induction l as [|x l IH]; [done|]. change (newestFirst (x :: l)) with (insert_stable newer x (newestFirst l)).
  cbn [List.filter]. rewrite <- IH. generalize (newestFirst l). intros r. induction r as [|y r IHr]; [done|].
  cbn [insert_stable]. unfold newer at 1. destruct (Z.ltb_spec (PublishedAt x) (PublishedAt y)) as [H|H]; [|done].
  cbn [List.filter]. rewrite IHr. destruct (Z.eqb_spec (PublishedAt y) k); destruct (Z.eqb_spec (PublishedAt x) k); try done. lia.
Qed.

(** ** The three formats agree *)

(** The text of the elements of a name, in document order. *)
Definition leaf_texts (name : string) (l : list xml_token) : list string :=
  omap (fun t => match t with TLeaf n _ v => if String.eqb n name then Some v else None | _ => None end) l.

Lemma leaf_texts_app n a b : leaf_texts n (a ++ b)%list = (leaf_texts n a ++ leaf_texts n b)%list.
Proof. apply omap_app. Qed.

Lemma leaf_texts_items {A} n (g : A -> list xml_token) (v : A -> string) l :
  (forall x, leaf_texts n (g x) = [v x]) -> leaf_texts n (List.concat (List.map g l)) = List.map v l.
Proof. intros H. induction l as [|x l IH]; [done|]. cbn [List.map List.concat]. by rewrite leaf_texts_app, H, IH. Qed.

Ltac leaf_items v := rewrite ?leaf_texts_app, (leaf_texts_items _ _ v) by (intros it; unfold item_tokens, entry_tokens; by destruct (is_empty (Link it)));
  cbn; rewrite ?app_nil_r; done.

Lemma rss_guids c : leaf_texts "guid" (rss_tokens c) = List.map (fun it => sanitizeXMLText (item_uri c it)) (newestFirst (ch_Items c)).
Proof. unfold rss_tokens. leaf_items (fun it => sanitizeXMLText (item_uri c it)). Qed.
Lemma rss_contents c :
  leaf_texts "content:encoded" (rss_tokens c) = List.map (fun it => sanitizeXMLText (itemBodyWithAnswer it)) (newestFirst (ch_Items c)).
Proof. unfold rss_tokens. leaf_items (fun it => sanitizeXMLText (itemBodyWithAnswer it)). Qed.
Lemma rss_descriptions c :
  leaf_texts "description" (rss_tokens c)
  = sanitizeXMLText (fd_Description (ch_Feed c)) :: List.map (fun it => sanitizeXMLText (RenderCardText it)) (newestFirst (ch_Items c)).
Proof. unfold rss_tokens. leaf_items (fun it => sanitizeXMLText (RenderCardText it)). Qed.

Lemma atom_entries n c (v : Item -> string) pre :
  (forall it, leaf_texts n (entry_tokens c it) = [v it]) ->
  forallb (fun m => negb (String.eqb m n)) ["link"; "subtitle"; "rights"; "generator"] = true ->
  leaf_texts n (firstn 7 (atom_tokens c)) = pre ->
  leaf_texts n (atom_tokens c) = (pre ++ List.map v (newestFirst (ch_Items c)))%list.
Proof.
  intros Hv Hn Hp. unfold atom_tokens. rewrite !leaf_texts_app, (leaf_texts_items _ _ v), <- Hp by done.
  cbn [forallb] in Hn. rewrite !andb_true_iff, !negb_true_iff in Hn. destruct Hn as (H1 & H2 & H3 & H4 & _).
  assert (Hu : forall s m a t, String.eqb m n = false -> leaf_texts n (unless_empty s (TLeaf m a t)) = []).
  { intros s m a t Hm. unfold unless_empty. destruct (is_empty s); [done|]. cbn. by rewrite Hm. }
  rewrite !Hu by done. rewrite !app_nil_l. f_equal. by rewrite app_nil_r.
Qed.

Ltac entry_field := intros it; unfold entry_tokens; by destruct (is_empty (Link it)).
Lemma atom_ids c : leaf_texts "id" (atom_tokens c)
  = sanitizeXMLText (feedID c) :: List.map (fun it => sanitizeXMLText (item_uri c it)) (newestFirst (ch_Items c)).
Proof. by apply (atom_entries "id" c _ [sanitizeXMLText (feedID c)]); [entry_field|..]. Qed.
Lemma atom_contents c : leaf_texts "content" (atom_tokens c) = List.map (fun it => sanitizeXMLText (itemBodyWithAnswer it)) (newestFirst (ch_Items c)).
Proof. by apply (atom_entries "content" c _ []); [entry_field|..]. Qed.
Lemma atom_summaries c : leaf_texts "summary" (atom_tokens c) = List.map (fun it => sanitizeXMLText (RenderCardText it)) (newestFirst (ch_Items c)).
Proof. by apply (atom_entries "summary" c _ []); [entry_field|..]. Qed.

(** ** The characters of the documents *)

Create HintDb chars.
#[export] Hint Resolve xml_chars_app EscapeText_chars CDATA_chars sanitized_chars : chars.
#[export] Hint Extern 1 (xml_chars (RFC3339 _) = true) => apply clean_chars, RFC3339_clean : chars.
#[export] Hint Extern 0 (xml_chars (String _ _) = true) => vm_compute; reflexivity : chars.
#[export] Hint Extern 0 (xml_chars EmptyString = true) => reflexivity : chars.
#[export] Hint Extern 0 (xml_chars lf = true) => reflexivity : chars.
#[export] Hint Extern 0 (xml_chars xml_declaration = true) => vm_compute; reflexivity : chars.

Lemma q_chars v : xml_chars v = true -> xml_chars (q v) = true.
Proof. intros Hv. apply (xml_chars_app (String dquote "")); [done|]. by apply xml_chars_app. Qed.
#[export] Hint Resolve q_chars : chars.

Lemma if_chars (b : bool) s : xml_chars s = true -> xml_chars (if b then s else "") = true.
Proof. by destruct b. Qed.

Lemma concat_chars {A} (f : A -> string) l : (forall x, xml_chars (f x) = true) -> xml_chars (concat_map f l) = true.
Proof. intros H. induction l as [|x l IH]; [done|]. cbn [concat_map foldr]. by apply xml_chars_app. Qed.
#[export] Hint Resolve if_chars concat_chars : chars.

Lemma writeElem_chars i n v : xml_chars i = true -> xml_chars n = true -> xml_chars (writeElem i n v) = true.
Proof. intros. unfold writeElem. auto 20 with chars. Qed.
Lemma atom_line_chars i n a v :
  xml_chars i = true -> xml_chars n = true -> xml_chars a = true -> xml_chars v = true -> xml_chars (atom_line i n a v) = true.
Proof. intros. unfold atom_line. auto 20 with chars. Qed.
Lemma atom_link_chars i r h : xml_chars i = true -> xml_chars r = true -> xml_chars (atom_link i r h) = true.
Proof. intros. unfold atom_link. auto 20 with chars. Qed.
#[export] Hint Resolve writeElem_chars atom_line_chars atom_link_chars : chars.

Ltac chars := repeat (apply xml_chars_app; [solve [auto 4 with chars]|]); solve [auto 4 with chars].

Lemma writeItem_chars c it : xml_chars (writeItem c it) = true.
Proof. unfold writeItem. chars. Qed.
Lemma writeAtomEntry_chars c it : xml_chars (writeAtomEntry c it) = true.
Proof. unfold writeAtomEntry. chars. Qed.
#[export] Hint Resolve writeItem_chars writeAtomEntry_chars : chars.

Lemma RSS_chars c : xml_chars (RSS c) = true.
Proof. unfold RSS. chars. Qed.
Lemma Atom_chars c : xml_chars (Atom c) = true.
Proof. unfold Atom. cbv zeta. chars. Qed.

(** ** Pages *)

(** The elements and attributes the pages are made of: none of them runs a
    script, loads anything or submits a form. *)
Definition page_tags : list string :=
  ["html"; "head"; "meta"; "title"; "link"; "style"; "body"; "section"; "article"; "h1"; "h2"; "p"; "a"; "ol"; "ul"; "li"; "time"; "span"; "pre"; "code"].
Definition page_attrs : list string :=
  ["lang"; "charset"; "name"; "property"; "content"; "class"; "datetime"; "rel"; "type"; "title"; "href"; "target"].

Definition safe_open (href_ok : string -> bool) (n : string) (a : list (string * string)) : bool :=
  existsb (String.eqb n) page_tags
  && forallb (fun kv => existsb (String.eqb kv.1) page_attrs
                        && (if String.eqb n "a" && String.eqb kv.1 "href" then href_ok kv.2 else true)) a.

Definition safe_event (href_ok : string -> bool) (e : xml_event) : bool :=
  match e with EOpen n a => safe_open href_ok n a | _ => true end.

(** [Safely a]: [a] reads, and adds nothing but text and those tags. *)
Definition Safely (href_ok : string -> bool) (a : string) : Prop :=
  exists f, Reads a f /\ forall k, forallb (safe_event href_ok) k = true -> forallb (safe_event href_ok) (f k) = true.

Lemma safe_emit h t k : forallb (safe_event h) k = true -> forallb (safe_event h) (emit t k) = true.
Proof. unfold emit. destruct (String.eqb t ""); [done|]. by destruct k as [|[]]. Qed.

Section safely.
Context (h : string -> bool).

Lemma Safely_app a b : Safely h a -> Safely h b -> Safely h (a ++ b).
Proof. intros (f & Hf & Sf) (g & Hg & Sg). exists (fun k => f (g k)). split; [by apply Reads_app|]. intros k Hk. by apply Sf, Sg. Qed.

Lemma Safely_emit a t : Reads a (emit t) -> Safely h a.
Proof. intros H. exists (emit t). split; [done|]. intros k. apply safe_emit. Qed.
Lemma Safely_text s : Safely h (EscapeText s).
Proof. eapply Safely_emit, Reads_text. Qed.
Lemma Safely_plain s : all_bytes xml_plain_byte s = true -> Safely h s.
Proof. intros Hs. by eapply Safely_emit, Reads_plain. Qed.

Lemma Safely_raw s : all_bytes raw_byte s = true -> Safely h s.
Proof. intros Hs. by eapply Safely_emit, Reads_raw. Qed.
Lemma Safely_doctype s : s = "<!doctype html>" \/ s = "<!DOCTYPE html>" -> Safely h s.
Proof.
  intros Hs. exists (fun k => k). split; [|done]. intros rest.
  destruct Hs as [-> | ->]; rewrite str_app_cons; rewrite (read_markup _ [] rest) by reflexivity; by destruct (read_content rest).
Qed.

Lemma Safely_open n a : good_tag n a = true -> safe_open h n a = true -> Safely h (tag n a false).
Proof. intros Ht Hs. exists (cons (EOpen n a)). split; [by apply Reads_open|]. intros k Hk. cbn [forallb safe_event]. by rewrite Hs. Qed.
Lemma Safely_close n : good_name n = true -> Safely h ("</" ++ n ++ ">").
Proof. intros Hn. exists (cons (EClose n)). split; [by apply Reads_close|]. done. Qed.

Lemma Safely_when (b : bool) a : (b = true -> Safely h a) -> Safely h (if b then a else "").
Proof. destruct b; intros H; [by apply H|]. by apply Safely_plain. Qed.
Lemma Safely_concat {A} (p : A -> string) l : (forall x, Safely h (p x)) -> Safely h (concat_map p l).
Proof. intros H. induction l as [|x l IH]; [by apply Safely_plain|]. by apply Safely_app. Qed.

Lemma Safely_reads a : Safely h a -> exists l, read_content a = Some l /\ forallb (safe_event h) l = true.
Proof. intros (f & Hf & Sf). exists (f []). split; [|by apply Sf]. rewrite <- (str_app_nil_r a), Hf. done. Qed.

End safely.

(** The tags with text in their attributes, as [tag] spells them. *)
Lemma writeMeta_tag attr key v :
  all_bytes xml_plain_byte key = true ->
  writeMeta attr key (textEscaper v) = tag "meta" [(attr, key); ("content", v)] false ++ lf.
Proof.
  intros Hk. unfold writeMeta, tag, print_attrs, print_attr, quoted, q. cbn [foldr fst snd]. rewrite (textEscaper_plain key) by done.
  rewrite !str_app_assoc. cbn [end_of_tag]. rewrite ?str_app_cons, ?str_app_nil_l, ?str_app_assoc. by repeat (rewrite ?str_app_cons, ?str_app_nil_l, ?str_app_assoc; f_equal).
Qed.

Lemma writeMeta_safe h attr key v :
  attr = "name" \/ attr = "property" -> all_bytes xml_plain_byte key = true -> Safely h (writeMeta attr key (textEscaper v)).
Proof.
  intros Ha Hk. rewrite writeMeta_tag by done. apply Safely_app; [|by apply Safely_plain]. by apply Safely_open; destruct Ha as [-> | ->].
Qed.

(** One piece of a page: text, a tag, a line of the head. *)
Ltac safe_piece :=
  lazymatch goal with
  | |- Safely _ (EscapeText _) => apply Safely_text
  | |- Safely _ (tag _ _ false) => apply Safely_open; reflexivity
  | |- Safely _ ("</" ++ _ ++ ">") => apply Safely_close; reflexivity
  | |- Safely _ lf => apply Safely_plain; reflexivity
  | |- Safely _ (String _ _) => first [apply Safely_plain; reflexivity | apply Safely_doctype; auto]
  | |- Safely _ (writeMeta _ _ (EscapeText _)) => apply writeMeta_safe; [auto|reflexivity]
  | |- _ => assumption
  end.
Ltac safe_pieces :=
  lazymatch goal with
  | |- Safely _ ("</" ++ _ ++ ">") => safe_piece
  | |- Safely _ (_ ++ _) => apply Safely_app; [safe_pieces|safe_pieces]
  | |- _ => safe_piece
  end.

Section pages.
Context (h : string -> bool).

Lemma charset_safe : Safely h charset.
Proof. change charset with (tag "meta" [("charset", "utf-8")] false ++ lf). safe_pieces. Qed.
Lemma viewport_safe : Safely h viewport.
Proof.
  change viewport with (tag "meta" [("name", "viewport"); ("content", "width=device-width, initial-scale=1")] false ++ lf). safe_pieces.
Qed.

(** An opening tag with one attribute of text. *)
Lemma open_text_tag n k v : "<" ++ n ++ " " ++ k ++ "=" ++ q (EscapeText v) ++ ">" = tag n [(k, sanitizeXMLText v)] false.
Proof.
  unfold tag, print_attrs, print_attr, quoted, q. cbn [foldr fst snd end_of_tag].
  rewrite ?str_app_assoc. rewrite ?str_app_cons, ?str_app_nil_l, ?str_app_assoc. reflexivity.
Qed.

Lemma permalink_head_safe c it : Safely h (permalink_head c it).
Proof.
  pose proof charset_safe. pose proof viewport_safe. set (pub := RFC3339 (PublishedAt it)).
  assert (Ep : textEscaper pub = pub) by apply textEscaper_plain, clean_plain, RFC3339_clean.
  assert (Hp : Safely h pub) by apply Safely_plain, clean_plain, RFC3339_clean.
  assert (Hm : Safely h (writeMeta "property" "article:published_time" pub)) by (rewrite <- Ep; apply writeMeta_safe; auto).
  assert (Ht : Safely h (writeMeta "property" "og:type" "article")) by (apply (writeMeta_safe _ _ _ "article"); auto).
  assert (Hc : Safely h (writeMeta "name" "twitter:card" "summary_large_image")) by (apply (writeMeta_safe _ _ _ "summary_large_image"); auto).
  assert (Hi : Safely h (if negb (is_empty (fd_OGImage (ch_Feed c))) then writeMeta "property" "og:image" (EscapeText (fd_OGImage (ch_Feed c))) else ""))
    by (apply Safely_when; intros _; apply writeMeta_safe; auto).
  replace (permalink_head c it) with
    ("<!DOCTYPE html>" ++ lf ++ tag "html" [("lang", sanitizeXMLText (lang_of c))] false ++ lf
     ++ tag "head" [] false ++ lf ++ charset ++ viewport
     ++ tag "title" [] false ++ EscapeText (Title it) ++ ("</" ++ "title" ++ ">") ++ lf
     ++ writeMeta "name" "description" (EscapeText (RenderCardText it))
     ++ writeMeta "property" "og:title" (EscapeText (Title it))
     ++ writeMeta "property" "og:description" (EscapeText (RenderCardText it))
     ++ (if negb (is_empty (fd_OGImage (ch_Feed c))) then writeMeta "property" "og:image" (EscapeText (fd_OGImage (ch_Feed c))) else "")
     ++ writeMeta "property" "og:type" "article"
     ++ writeMeta "property" "og:url" (EscapeText (Link it))
     ++ writeMeta "property" "article:published_time" pub
     ++ writeMeta "name" "twitter:card" "summary_large_image"
     ++ ("</" ++ "head" ++ ">") ++ lf ++ tag "body" [] false ++ lf ++ tag "article" [] false ++ lf
     ++ tag "h1" [] false ++ EscapeText (Title it) ++ ("</" ++ "h1" ++ ">") ++ lf
     ++ tag "time" [("datetime", pub)] false ++ pub ++ ("</" ++ "time" ++ ">") ++ lf).
  { safe_pieces. }
  unfold permalink_head. fold pub. cbv zeta. rewrite <- open_text_tag.
  unfold tag, print_attrs, print_attr, quoted. cbn [foldr fst snd]. rewrite Ep. unfold q. rewrite !str_app_assoc. reflexivity.
Qed.

(** The attributes of a link to a feed, in the head of the index. *)
Lemma writeAlternate_safe base f ext mime :
  all_bytes xml_plain_byte mime = true -> Safely h (writeAlternate base f ext mime).
Proof.
  intros Hm. replace (writeAlternate base f ext mime) with
    ("  " ++ tag "link" [("rel", "alternate"); ("type", mime); ("title", sanitizeXMLText (fd_Title f));
       ("href", sanitizeXMLText (feedURL base (fd_Slug f) ext))] false ++ lf).
  { safe_pieces. }
  unfold writeAlternate, tag, print_attrs, print_attr, quoted, q. cbn [foldr fst snd]. rewrite (textEscaper_plain mime) by done.
  rewrite !str_app_assoc. repeat (rewrite ?str_app_cons, ?str_app_nil_l, ?str_app_assoc). reflexivity.
Qed.

Context (any_href : forall v, h v = true).

Lemma anchor_safe v : Safely h ("<a href=" ++ q (EscapeText v) ++ ">").
Proof.
  change ("<a href=" ++ q (EscapeText v) ++ ">") with ("<" ++ "a" ++ " " ++ "href" ++ "=" ++ q (EscapeText v) ++ ">").
  rewrite open_text_tag. apply Safely_open; [reflexivity|]. cbn. by rewrite any_href.
Qed.

Lemma writeSubscribeLink_safe base f ext label : Safely h (writeSubscribeLink base f ext label).
Proof.
  replace (writeSubscribeLink base f ext label) with
    ("        " ++ ("<a href=" ++ q (EscapeText (feedURL base (fd_Slug f) ext)) ++ ">") ++ EscapeText label ++ ("</" ++ "a" ++ ">") ++ lf)
    by (unfold writeSubscribeLink; rewrite !str_app_assoc; reflexivity).
  apply Safely_app; [safe_piece|]. apply Safely_app; [apply anchor_safe|]. safe_pieces.
Qed.

Lemma writeFeedEntry_safe base f : Safely h (writeFeedEntry base f).
Proof.
  pose proof (writeSubscribeLink_safe base f "xml" "RSS"). pose proof (writeSubscribeLink_safe base f "atom" "Atom").
  pose proof (writeSubscribeLink_safe base f "json" "JSON Feed"). pose proof (anchor_safe (base ++ "/embed/" ++ fd_Slug f)) as Ha.
  set (anchor := "<a href=" ++ _) in Ha.
  replace (writeFeedEntry base f) with
    ("    " ++ tag "li" [] false ++ lf
     ++ "      " ++ tag "h2" [] false ++ EscapeText (fd_Title f) ++ ("</" ++ "h2" ++ ">") ++ lf
     ++ "      " ++ tag "p" [] false ++ EscapeText (fd_Description f) ++ ("</" ++ "p" ++ ">") ++ lf
     ++ "      " ++ tag "p" [] false ++ lf
     ++ writeSubscribeLink base f "xml" "RSS"
     ++ writeSubscribeLink base f "atom" "Atom"
     ++ writeSubscribeLink base f "json" "JSON Feed"
     ++ "        " ++ anchor ++ "Embed" ++ ("</" ++ "a" ++ ">") ++ lf
     ++ "      " ++ ("</" ++ "p" ++ ">") ++ lf
     ++ "      " ++ tag "pre" [] false ++ tag "code" [] false ++ EscapeText (EmbedSnippet base (fd_Slug f)) ++ ("</" ++ "code" ++ ">") ++ ("</" ++ "pre" ++ ">") ++ lf
     ++ "    " ++ ("</" ++ "li" ++ ">") ++ lf)
    by (unfold writeFeedEntry, anchor; rewrite !str_app_assoc; reflexivity).
  safe_pieces.
Qed.

Lemma Index_safe feeds base gen : Safely h (Index feeds base gen).
Proof.
  pose proof charset_safe. pose proof viewport_safe. unfold Index. cbv zeta. set (sorted := index_feeds feeds). clearbody sorted.
  set (alts := concat_map _ sorted). assert (Ha : Safely h alts).
  { apply Safely_concat. intros f. do 2 (apply Safely_app; [by apply writeAlternate_safe|]). by apply writeAlternate_safe. }
  set (body := if (_ =? 0)%nat then _ else _). assert (Hb : Safely h body).
  { unfold body. destruct (_ =? 0)%nat.
    - change ("  <p>No feeds are currently enabled.</p>" ++ lf)
        with ("  " ++ tag "p" [] false ++ "No feeds are currently enabled." ++ ("</" ++ "p" ++ ">") ++ lf). safe_pieces.
    - pose proof (Safely_concat h (writeFeedEntry base) sorted (writeFeedEntry_safe base)) as Hl.
      revert Hl. generalize (concat_map (writeFeedEntry base) sorted). intros l Hl.
      replace ("  <ul>" ++ lf ++ l ++ "  </ul>" ++ lf) with ("  " ++ tag "ul" [] false ++ lf ++ l ++ "  " ++ ("</" ++ "ul" ++ ">") ++ lf) by reflexivity.
      safe_pieces. }
  clearbody alts body.
  match goal with |- Safely _ ?x => replace x with
    ("<!doctype html>" ++ lf ++ tag "html" [("lang", "en")] false ++ lf ++ tag "head" [] false ++ lf
     ++ "  " ++ charset ++ "  " ++ viewport
     ++ "  " ++ tag "title" [] false ++ "Feeds" ++ ("</" ++ "title" ++ ">") ++ lf
     ++ "  " ++ tag "meta" [("name", "generator"); ("content", sanitizeXMLText gen)] false ++ lf
     ++ alts ++ ("</" ++ "head" ++ ">") ++ lf ++ tag "body" [] false ++ lf
     ++ "  " ++ tag "h1" [] false ++ "Feeds" ++ ("</" ++ "h1" ++ ">") ++ lf
     ++ body ++ ("</" ++ "body" ++ ">") ++ lf ++ ("</" ++ "html" ++ ">") ++ lf) end.
  { safe_pieces. }
  unfold tag at 4. unfold print_attrs, print_attr, quoted. cbn [foldr fst snd]. unfold q. rewrite !str_app_assoc. reflexivity.
Qed.

End pages.

(** ** Links *)

Lemma find_sub_skip c o p s :
  lacks c p -> find_sub (String c o) (p ++ s) = match find_sub (String c o) s with Some (x, y) => Some (p ++ x, y) | None => None end.
Proof.
  induction p as [|a p IH]; intros Hp.
  - rewrite str_app_nil_l. destruct (find_sub _ s) as [[x y]|]; [|done]. by rewrite str_app_nil_l.
  - apply lacks_cons in Hp as [Ha Hp]. rewrite str_app_cons. cbn [find_sub strip_prefix].
    rewrite (proj2 (Ascii.eqb_neq c a)) by congruence. rewrite IH by done. by destruct (find_sub _ s) as [[x y]|].
Qed.

Lemma replace_skip c o p s new : lacks c p -> exists t, replace_all (p ++ s) (String c o) new = p ++ t.
Proof.
  intros Hp. unfold replace_all. cbn [replace_from]. rewrite find_sub_skip by done.
  destruct (find_sub _ s) as [[x y]|]; eexists; [by rewrite str_app_assoc|done].
Qed.

Lemma clean_lacks_cr p : all_bytes clean_byte p = true -> lacks "013" p.
Proof. apply all_bytes_weaken. intros c Hc. apply negb_true_iff, Ascii.eqb_neq. intros ->. by vm_compute in Hc. Qed.

Lemma runes_cons c s : ascii_byte c = true -> runes (String c s) = Z.of_nat (nat_of_ascii c) :: runes s.
Proof. unfold runes, ascii_byte. intros Hc. cbn [String.length runes_from]. by rewrite Hc. Qed.

(** Sanitizing keeps a beginning of printable ASCII. *)
Lemma sanitize_keeps p s : all_bytes clean_byte p = true -> exists t, sanitizeXMLText (p ++ s) = p ++ t.
Proof.
  intros Hp. pose proof (clean_lacks_cr p Hp) as Hcr.
  assert (exists t, normalize_lines (p ++ s) = p ++ t) as [t Ht].
  { unfold normalize_lines. destruct (existsb _ _); [|by exists s]. unfold cr.
    destruct (replace_skip "013" lf p s lf Hcr) as [t1 E1]. rewrite str_app_cons, str_app_nil_l, E1. by apply replace_skip. }
  unfold sanitizeXMLText. rewrite Ht. cbv zeta. destruct (_ && _); [by exists t|]. clear Ht s Hcr. exists (encode_runes (List.filter (fun r => negb ((r =? 65533) || isInvalidXMLRune r)) (runes t))).
  induction p as [|c p IH]; [done|]. rewrite all_bytes_cons in Hp. apply andb_true_iff in Hp as [Hc Hp].
  unfold clean_byte in Hc. apply andb_true_iff in Hc as [Hc%in_range_spec _].
  rewrite str_app_cons, runes_cons by (apply Nat.ltb_lt; lia). cbn [List.filter].
  set (r := Z.of_nat (nat_of_ascii c)). assert (Hr : 32 <= r <= 126) by lia.
  assert (Hk : negb ((r =? 65533) || isInvalidXMLRune r) = true).
  { unfold isInvalidXMLRune. rewrite !(proj2 (Z.eqb_neq r _)) by lia. by rewrite (proj2 (Z.leb_le 32 r)), (proj2 (Z.leb_le r 55295)) by lia. }
  rewrite Hk. change (encode_runes (r :: ?l)) with (encode_rune r ++ encode_runes l). rewrite IH by done. unfold encode_rune.
  rewrite (proj2 (Z.ltb_ge r 0)), (proj2 (Z.ltb_ge 1114111 r)), (proj2 (Z.leb_gt 55296 r)), (proj2 (Z.ltb_lt r 128)) by lia.
  cbn [orb andb]. unfold byte, r. by rewrite Nat2Z.id, ascii_nat_embedding.
Qed.

(** A link the widget may write: its scheme is http or https, in any case of letters. *)
Definition http_link (v : string) : bool :=
  match cut v ":" with Some (sch, _) => String.eqb (ToLower sch) "http" || String.eqb (ToLower sch) "https" | None => false end.

Lemma span_split p s : s = (span p s).1 ++ (span p s).2 /\ all_bytes p (span p s).1 = true.
Proof. induction s as [|c s [IH1 IH2]]; [done|]. cbn [span]. destruct (p c) eqn:E; [|done]. cbn [fst snd]. split; [by rewrite str_app_cons, <- IH1|by rewrite all_bytes_cons, E, IH2]. Qed.

Lemma getScheme_split raw sch rest : getScheme raw = Some (sch, rest) -> sch <> "" -> raw = sch ++ String ":" rest /\ all_bytes scheme_byte sch = true.
Proof.
  unfold getScheme. destruct (span_split scheme_byte raw) as [E Hb]. destruct (span scheme_byte raw) as [a b]. cbn [fst snd] in *.
  destruct b as [|c b]; [by intros [= <- _]|]. destruct (Ascii.eqb_spec c ":") as [->|]; [|by intros [= <- _]].
  destruct a as [|x a]; [done|]. destruct (is_letter x); [|by intros [= <- _]]. intros [= <- <-] _. done.
Qed.

Lemma parse_scheme ip st raw u : parse ip st raw = Some u -> exists sch rest, getScheme raw = Some (sch, rest) /\ Scheme u = ToLower sch \/ Scheme u = "".
Proof.
  unfold parse. destruct (negb _); [done|]. destruct (String.eqb raw "*"); [intros [= <-]; exists "", ""; by right|].
  destruct (getScheme raw) as [[sch rest]|]; [|done]. cbn [mbind option_bind]. intros H. exists sch, rest. left. split; [done|]. revert H.
  destruct (match cut rest "?" with Some _ => _ | None => _ end) as [[force r] qr].
  destruct (negb _ && negb _); [by intros [= <-]|]. destruct (negb _ && _); [done|]. destruct (_ && HasPrefix r "//").
  - destruct (match cut _ "/" with Some _ => _ | None => _ end) as [a p]. destruct (parseAuthority _ _ _ _) as [[us ho]|]; [|done]. cbn.
    destruct (setPath p) as [[x y]|]; [|done]. by intros [= <-].
  - destruct (setPath r) as [[x y]|]; [|done]. by intros [= <-].
Qed.

Lemma scheme_clean s : all_bytes scheme_byte s = true -> all_bytes clean_byte s = true /\ lacks ":" s.
Proof.
  intros Hs. assert (Hb : forall c, scheme_byte c = true -> clean_byte c = true /\ c <> ":"%char).
  { intros [[] [] [] [] [] [] [] []] Hc; try (by vm_compute in Hc); split; done. }
  split; (eapply all_bytes_weaken; [|exact Hs]); intros c Hc; [by apply Hb|]. apply negb_true_iff, Ascii.eqb_neq. by apply Hb.
Qed.

Lemma linkable_http ip st raw : linkableURL ip st raw = true -> http_link (sanitizeXMLText raw) = true.
Proof.
  unfold linkableURL. destruct (String.eqb raw ""); [done|]. destruct (Parse ip st raw) as [u|] eqn:Eu; [|done]. intros Hu.
  assert (exists x tl, parse ip st x = Some u /\ raw = x ++ tl) as (x & tl & Ex & ->).
  { unfold Parse in Eu. destruct (cut raw "#") as [[a b]|] eqn:Ec; [|exists raw, ""; split; [done|by rewrite str_app_nil_r]].
    apply cut_Some in Ec as [-> _]. destruct (parse ip st a) as [v|] eqn:Ea; [|done]. cbn in Eu. destruct (unescape _ b); [|done].
    cbn in Eu. exists a, (String "#" b). split; [congruence|done]. }
  apply parse_scheme in Ex as (sch & rest & [[Eg Es]|Es]); [|by rewrite Es in Hu].
  assert (Hne : sch <> "") by (intros ->; by rewrite Es in Hu). apply getScheme_split in Eg as [-> Hb]; [|done].
  apply scheme_clean in Hb as [Hc Hl]. rewrite str_app_assoc, str_app_cons.
  replace (sch ++ String ":" (rest ++ tl)) with ((sch ++ ":") ++ rest ++ tl) by (by rewrite str_app_assoc).
  destruct (sanitize_keeps (sch ++ ":") (rest ++ tl)) as [t Ht]; [by rewrite all_bytes_app, Hc|]. rewrite Ht, str_app_assoc, str_app_cons, str_app_nil_l.
  unfold http_link. rewrite cut_app by done. by rewrite <- Es.
Qed.

(** ** The widget *)

Section widget.
Context (ip : string -> option string) (st : string -> bool).

Lemma writeEmbedLink_safe href label : Safely http_link label -> Safely http_link (writeEmbedLink ip st href label).
Proof.
  intros Hl. unfold writeEmbedLink. destruct (linkableURL ip st href) eqn:E; cbn [negb]; [|done].
  replace ("<a href=" ++ q (EscapeText href) ++ " target=" ++ q "_blank" ++ " rel=" ++ q "noopener noreferrer" ++ ">" ++ label ++ "</a>")
    with (tag "a" [("href", sanitizeXMLText href); ("target", "_blank"); ("rel", "noopener noreferrer")] false ++ label ++ ("</" ++ "a" ++ ">")).
  - apply Safely_app; [|by apply Safely_app; [|by apply Safely_close]]. apply Safely_open; [reflexivity|].
    unfold safe_open. cbn -[http_link sanitizeXMLText]. by rewrite (linkable_http _ _ _ E).
  - unfold tag, print_attrs, print_attr, quoted, q. cbn [foldr fst snd]. rewrite !str_app_assoc. reflexivity.
Qed.

Lemma embedStamp_raw t : all_bytes raw_byte (embedStamp t) = true.
Proof.
  assert (W : forall s, all_bytes clean_byte s = true -> all_bytes raw_byte s = true).
  { intros s. apply all_bytes_weaken. unfold clean_byte, xml_plain_byte, raw_byte. intros c [_ Hc]%andb_true_iff.
    rewrite negb_true_iff, !orb_false_iff in *. tauto. }
  unfold embedStamp, month_name. rewrite !all_bytes_app, (W (show_int _)) by apply show_int_clean.
  rewrite (W (nth _ _ _)), (W (show_year _ _)), (W (pad _ _ _)); [done|auto with clean..].
Qed.

Lemma writeEmbedItem_safe it : Safely http_link (writeEmbedItem ip st it).
Proof.
  pose proof (Safely_raw http_link _ (embedStamp_raw (PublishedAt it))) as Hs.
  pose proof (writeEmbedLink_safe (Link it) _ (Safely_text http_link (Title it))) as Hl.
  set (pub := RFC3339 (PublishedAt it)). assert (Ep : textEscaper pub = pub) by apply textEscaper_plain, clean_plain, RFC3339_clean.
  set (when := tag "time" [("class", "aff-when"); ("datetime", pub)] false ++ embedStamp (PublishedAt it) ++ ("</" ++ "time" ++ ">") ++ lf).
  set (sum := tag "p" [("class", "aff-summary")] false ++ EscapeText (RenderEmbedText it) ++ ("</" ++ "p" ++ ">") ++ lf).
  replace (writeEmbedItem ip st it) with
    (tag "li" [("class", "aff-item")] false ++ lf
     ++ (if negb (is_zero (PublishedAt it)) then when else "")
     ++ tag "span" [("class", "aff-title")] false ++ writeEmbedLink ip st (Link it) (EscapeText (Title it)) ++ ("</" ++ "span" ++ ">") ++ lf
     ++ (if negb (is_empty (RenderEmbedText it)) then sum else "")
     ++ ("</" ++ "li" ++ ">") ++ lf).
  - assert (Hw : Safely http_link (if negb (is_zero (PublishedAt it)) then when else "")) by (apply Safely_when; intros _; unfold when; safe_pieces).
    assert (Hm : Safely http_link (if negb (is_empty (RenderEmbedText it)) then sum else "")) by (apply Safely_when; intros _; unfold sum; safe_pieces).
    safe_pieces.
  - unfold writeEmbedItem, when, sum. fold pub. unfold tag, print_attrs, print_attr, quoted. cbn [foldr fst snd]. rewrite Ep. unfold q.
    rewrite !str_app_assoc. reflexivity.
Qed.

Lemma css_raw theme : all_bytes raw_byte (embedCSS theme) = true.
Proof. unfold embedCSS. destruct (String.eqb theme "light"); [|destruct (String.eqb theme "dark")]; vm_compute; reflexivity. Qed.

Lemma Embed_safe c opts : Safely http_link (Embed ip st c opts).
Proof.
  unfold Embed. cbv zeta. set (o := embed_resolve opts). set (its := embed_items c o). clearbody its.
  pose proof (charset_safe http_link). pose proof (viewport_safe http_link). pose proof (Safely_raw http_link _ (css_raw (Theme o))) as Hcss.
  pose proof (writeEmbedLink_safe (HTMLURL c) _ (Safely_text http_link (fd_Title (ch_Feed c)))) as Hh.
  pose proof (writeEmbedLink_safe (SelfURL c) "Subscribe by RSS" (Safely_plain http_link "Subscribe by RSS" eq_refl)) as Hsub.
  set (home := writeEmbedLink ip st (HTMLURL c) _) in *. set (sub := writeEmbedLink ip st (SelfURL c) _) in *.
  set (body := if (_ =? 0)%nat then _ else _). assert (Hb : Safely http_link body).
  { unfold body. destruct (_ =? 0)%nat.
    - replace ("<p class=" ++ q "aff-empty" ++ ">No items yet.</p>" ++ lf)
        with (tag "p" [("class", "aff-empty")] false ++ "No items yet." ++ ("</" ++ "p" ++ ">") ++ lf) by reflexivity. safe_pieces.
    - pose proof (Safely_concat http_link (writeEmbedItem ip st) its writeEmbedItem_safe) as Hl. revert Hl.
      generalize (concat_map (writeEmbedItem ip st) its). intros l Hl.
      replace ("<ol class=" ++ q "aff-items" ++ ">" ++ lf ++ l ++ "</ol>" ++ lf)
        with (tag "ol" [("class", "aff-items")] false ++ lf ++ l ++ ("</" ++ "ol" ++ ">") ++ lf) by reflexivity. safe_pieces. }
  clearbody body home sub. revert Hcss. generalize (embedCSS (Theme o)). intros css Hcss. clear o.
  match goal with |- Safely _ ?x => replace x with
    ("<!doctype html>" ++ lf ++ tag "html" [("lang", sanitizeXMLText (lang_of c))] false ++ lf
     ++ tag "head" [] false ++ lf ++ charset ++ viewport
     ++ tag "meta" [("name", "robots"); ("content", "noindex")] false ++ lf
     ++ tag "title" [] false ++ EscapeText (fd_Title (ch_Feed c)) ++ ("</" ++ "title" ++ ">") ++ lf
     ++ writeMeta "name" "generator" (EscapeText (Generator c))
     ++ tag "style" [] false ++ lf ++ css ++ ("</" ++ "style" ++ ">") ++ lf
     ++ ("</" ++ "head" ++ ">") ++ lf ++ tag "body" [] false ++ lf
     ++ tag "section" [("class", "aff")] false ++ lf
     ++ tag "h1" [("class", "aff-feed")] false ++ home ++ ("</" ++ "h1" ++ ">") ++ lf
     ++ body
     ++ tag "p" [("class", "aff-sub")] false ++ sub ++ ("</" ++ "p" ++ ">") ++ lf
     ++ ("</" ++ "section" ++ ">") ++ lf ++ ("</" ++ "body" ++ ">") ++ lf ++ ("</" ++ "html" ++ ">") ++ lf) end.
  { safe_pieces. }
  rewrite <- open_text_tag. unfold q. rewrite !str_app_assoc. reflexivity.
Qed.

End widget.

(** ** What previews may show *)

(** The item without what only a reader who opens it may see. *)
Definition redact (it : Item) : Item :=
  MkItem (ID it) (FeedID it) (ItemKey it) (ContentHash it) (Title it) (SummaryText it) "" ""
    (MkFormats "" (CardText (Formats it)) (EmbedText (Formats it)) "") (Link it) (SourceName it) (PublishedAt it) (Tags it)
    (Origin it) (CreatedAt it) (UpdatedAt it) (EditedAt it) (DeletedAt it) (Version it).

Definition with_items (l : list Item) (c : Channel) : Channel :=
  MkChannel (ch_Feed c) (SelfURL c) (HTMLURL c) (Host c) (TagYear c) l (BuildTime c) (Generator c) (DocsURL c).

Lemma newestFirst_redact l : newestFirst (List.map redact l) = List.map redact (newestFirst l).
Proof.
  induction l as [|x l IH]; [done|]. cbn [List.map].
  change (newestFirst (redact x :: List.map redact l)) with (insert_stable newer (redact x) (newestFirst (List.map redact l))).
  rewrite IH. change (newestFirst (x :: l)) with (insert_stable newer x (newestFirst l)). generalize (newestFirst l). intros r.
  induction r as [|y r IHr]; [done|]. cbn [List.map insert_stable]. change (newer (redact y) (redact x)) with (newer y x).
  destruct (newer y x); [|done]. cbn [List.map]. by rewrite IHr.
Qed.

Lemma concat_map_map {A B} (f : B -> string) (g : A -> B) l : concat_map f (List.map g l) = concat_map (fun x => f (g x)) l.
Proof. unfold concat_map. induction l as [|x l IH]; [done|]. cbn [List.map foldr]. by rewrite IH. Qed.

Lemma Embed_redact ip st c o : Embed ip st (with_items (List.map redact (ch_Items c)) c) o = Embed ip st c o.
Proof.
  unfold Embed. cbv zeta. unfold embed_items. cbn [ch_Items with_items]. rewrite newestFirst_redact, firstn_map, length_map, concat_map_map.
  reflexivity.
Qed.

Lemma rss_previews_redact c :
  leaf_texts "description" (rss_tokens (with_items (List.map redact (ch_Items c)) c)) = leaf_texts "description" (rss_tokens c).
Proof. rewrite !rss_descriptions. cbn [ch_Items with_items ch_Feed]. by rewrite newestFirst_redact, map_map. Qed.
Lemma atom_previews_redact c :
  leaf_texts "summary" (atom_tokens (with_items (List.map redact (ch_Items c)) c)) = leaf_texts "summary" (atom_tokens c).
Proof. rewrite !atom_summaries. cbn [ch_Items with_items]. by rewrite newestFirst_redact, map_map. Qed.

(** ** The properties *)


(** The three formats say the same of a channel.  Read back, the guids of the
    RSS document are the entry ids of the Atom document, in one order, which is
    a rearrangement of the channel's items with the newest first and items of one
    instant in the order they came; the bodies are the bodies of the Atom
    entries and of the JSON items, and the summaries agree likewise. *)
Theorem formats_agree (c : Channel) :
  exists rss atom,
    tokens <$> read_document (RSS c) = Some rss /\ tokens <$> read_document (Atom c) = Some atom
    /\ newestFirst (ch_Items c) ≡ₚ ch_Items c /\ newest_first (newestFirst (ch_Items c))
    /\ (forall k, List.filter (fun it => PublishedAt it =? k) (newestFirst (ch_Items c)) = List.filter (fun it => PublishedAt it =? k) (ch_Items c))
    /\ leaf_texts "guid" rss = List.map (fun it => sanitizeXMLText (item_uri c it)) (newestFirst (ch_Items c))
    /\ leaf_texts "id" atom = sanitizeXMLText (feedID c) :: leaf_texts "guid" rss
    /\ List.map (fun j => sanitizeXMLText (ji_ID j)) (jd_Items (jsonfeed_doc c)) = leaf_texts "guid" rss
    /\ leaf_texts "content:encoded" rss = leaf_texts "content" atom
    /\ List.map ji_ContentHTML (jd_Items (jsonfeed_doc c)) = leaf_texts "content" atom
    /\ leaf_texts "description" rss = sanitizeXMLText (fd_Description (ch_Feed c)) :: leaf_texts "summary" atom
    /\ List.map ji_Summary (jd_Items (jsonfeed_doc c)) = leaf_texts "summary" atom.
Proof.
  exists (rss_tokens c), (atom_tokens c). rewrite RSS_document, Atom_document, rss_guids, atom_ids, rss_contents, atom_contents, rss_descriptions, atom_summaries.
  cbn [jd_Items jsonfeed_doc]. rewrite !map_map.
  split_and!; try done; [apply SliceStable_perm|apply newestFirst_sorted|apply newestFirst_stable].
Qed.

(** C23: Whatever the feed, its items and the configured base URL hold, the widget
    that is framed in other sites, the index page, and the item page up to the
    item's own sanitized body consist of text and of tags from a fixed list that
    runs, loads and submits nothing: no field of the data can open a tag or add
    an attribute.  Every link of the widget is to http or https. *)
Theorem pages_carry_no_markup ip st (c : Channel) (o : EmbedOptions) (it : Item) (feeds : list Feed) (base generator : string) :
  (exists l, read_content (Embed ip st c o) = Some l /\ forallb (safe_event http_link) l = true)
  /\ (exists l, read_content (permalink_head c it) = Some l /\ forallb (safe_event http_link) l = true)
  /\ (exists l, read_content (Index feeds base generator) = Some l /\ forallb (safe_event (fun _ => true)) l = true).
Proof.
  split_and!; apply Safely_reads; [apply Embed_safe|apply permalink_head_safe|by apply Index_safe].
Qed.

(** What a reader sees of a trivia item before opening it says nothing of its
    answer: the widget, the tags an unfurler reads on the item page, and the
    descriptions of the RSS and Atom documents are the same, byte for byte, when
    the bodies and the answers of all items are erased. *)
Theorem previews_hide_answers ip st (c : Channel) (o : EmbedOptions) (it : Item) :
  let hidden := with_items (List.map redact (ch_Items c)) c in
  Embed ip st hidden o = Embed ip st c o
  /\ permalink_head hidden (redact it) = permalink_head c it
  /\ leaf_texts "description" (rss_tokens hidden) = leaf_texts "description" (rss_tokens c)
  /\ leaf_texts "summary" (atom_tokens hidden) = leaf_texts "summary" (atom_tokens c).
Proof. split_and!; [apply Embed_redact|reflexivity|apply rss_previews_redact|apply atom_previews_redact]. Qed.

(** A replacement character that was in the text is taken for a decoding error
    once anything else has to be removed. *)
Example replacement_character_lost :
  sanitizeXMLText rune_error = rune_error /\ sanitizeXMLText (rune_error ++ String "001" "") = "".
Proof. split; vm_compute; reflexivity. Qed.
