(* ===== verification/StoreItems.v ===== *)
(** * Feeds and items: internal/store/items.go

    Each operation takes the tables and the clock readings it makes ([now]) and
    returns the new tables, or an error and no change. *)

From S2P Require Import Prelude GoTime Timestamps Tables Schema.
From Stdlib Require Import String Ascii.
Local Abbreviation length := List.length.

(** ** Columns *)

Definition nullString (v : string) : option string := if is_empty v then None else Some v.
Definition of_null (v : option string) : string := default ""%string v.
(** [parseNullTime]: NULL reads as the zero time. *)
Definition of_null_time (v : option Z) : Z := default zero_time v.

Definition encodeFormats (f : ItemFormats) : option ItemFormats :=
  if Empty f then None else Some f.
Definition decodeFormats (raw : option ItemFormats) : ItemFormats := default no_formats raw.

(** [created_at] is not among the columns selected, so the field keeps its zero value. *)
Definition scanFeed (r : FeedRow) : Feed :=
  MkFeed (f_id r) (f_slug r) (f_title r) (f_description r) (f_language r) (f_kind r) (of_null (f_author r))
    (of_null (f_copyright r)) (of_null (f_og_image r)) (f_ttl_minutes r) (f_enabled r) (f_timezone r)
    (of_null_time (f_last_built_at r)) zero_time (f_version r).

(** Tags have no column, so a scanned item has none. *)
Definition scanItem (r : ItemRow) : Item :=
  MkItem (i_id r) (i_feed_id r) (i_item_key r) (i_content_hash r) (i_title r) (i_summary_text r)
    (i_body_html r) (of_null (i_answer_html r)) (decodeFormats (i_formats r)) (of_null (i_link r))
    (of_null (i_source_name r)) (i_published_at r) [] (i_origin r) (i_created_at r) (i_updated_at r)
    (of_null_time (i_edited_at r)) (of_null_time (i_deleted_at r)) (i_version r).

(** ** Feeds *)

(** The identity columns are written as given, the recipe is the default of its column. *)
Definition CreateFeed (now : Z) (f : Feed) (d : Content) : result store_error (Z * Content) :=
  let id := next_id (feeds d) in
  let row := MkFeedRow id (fd_Slug f) (fd_Title f) (fd_Description f) (fd_Language f) (fd_Kind f)
               (fd_Enabled f) (fd_Timezone f) (Some (fd_Author f)) (Some (fd_Copyright f)) (Some (fd_OGImage f))
               (fd_TTLMinutes f) None 1 None now now "{}" 0 0 in
  if negb (valid_kind (fd_Kind f)) then Err CheckViolation
  else if bool_decide (fd_Slug f ∈ f_slug <$> feeds d) then Err UniqueViolation
  else Ok (id, set_feeds (feeds d ++ [row]) d).

Definition GetFeedBySlug (slug : string) (d : Content) : result store_error Feed :=
  match List.find (fun r => bool_decide (f_slug r = slug)) (feeds d) with
  | Some r => Ok (scanFeed r)
  | None => Err NotFound
  end.

(** ** Items *)

(** The row an [INSERT INTO items] makes of an item. *)
Definition new_item_row (id now published : Z) (run : option Z) (it : Item) : ItemRow :=
  MkItemRow id (FeedID it) (ItemKey it) (ContentHash it) (Title it) (SummaryText it) (BodyHTML it)
    (nullString (AnswerHTML it)) (nullString (Link it)) (nullString (SourceName it))
    (encodeFormats (Formats it)) published run (Origin it) 1 now now None None.

Definition InsertItem (now : Z) (it : Item) (d : Content) : result store_error (Z * Content) :=
  let id := next_id (items d) in
  let? d' := insert_item d (new_item_row id now (truncatePublishedAt (PublishedAt it)) None it) in
  Ok (id, d').

Definition GetItem (key : string) (d : Content) : result store_error Item :=
  match List.find (fun r => bool_decide (i_item_key r = key)) (items d) with
  | Some r => Ok (scanItem r)
  | None => Err NotFound
  end.

Definition ListItems (feed n : Z) (includeDeleted : bool) (d : Content) : list Item :=
  scanItem <$> limit (cap n) (order_desc (fun r => formatTime (i_published_at r))
    (filter (fun r => (i_feed_id r =? feed) && (includeDeleted || bool_decide (i_deleted_at r = None)) = true)
            (items d))).

(** The [SET] list of [UpdateItem]: neither the key, the feed nor the hash is in it. *)
Definition edit_row (now published : Z) (it : Item) (r : ItemRow) : ItemRow :=
  MkItemRow (i_id r) (i_feed_id r) (i_item_key r) (i_content_hash r) (Title it) (SummaryText it)
    (BodyHTML it) (nullString (AnswerHTML it)) (nullString (Link it)) (nullString (SourceName it))
    None published (i_run_id r) (Origin it) (i_version r + 1) (i_created_at r) now (Some now)
    (i_deleted_at r).

Definition UpdateItem (now : Z) (it : Item) (expectedVersion : Z) (d : Content)
    : result store_error Content :=
  let published := truncatePublishedAt (PublishedAt it) in
  let hit r := (i_id r =? ID it) && (i_version r =? expectedVersion) in
  match List.find hit (items d) with
  | None => Err VersionConflict
  | Some r =>
      let r' := edit_row now published it r in
      if negb (valid_origin (Origin it)) then Err CheckViolation
      else if existsb (fun x => negb (i_id x =? i_id r) && bool_decide (key_published x = key_published r'))
                      (items d)
           then Err UniqueViolation
      else Ok (set_items (update_where hit (edit_row now published it) (items d)) d)
  end.

Definition delete_row (now : Z) (deleted : option Z) (r : ItemRow) : ItemRow :=
  MkItemRow (i_id r) (i_feed_id r) (i_item_key r) (i_content_hash r) (i_title r) (i_summary_text r)
    (i_body_html r) (i_answer_html r) (i_link r) (i_source_name r) (i_formats r) (i_published_at r)
    (i_run_id r) (i_origin r) (i_version r) (i_created_at r) now (i_edited_at r) deleted.

Definition has_key (key : string) (r : ItemRow) : bool := bool_decide (i_item_key r = key).

Definition SoftDeleteItem (now : Z) (key : string) (d : Content) : result store_error Content :=
  if (affected (has_key key) (items d) =? 0)%nat then Err NotFound
  else Ok (set_items (update_where (has_key key) (delete_row now (Some now)) (items d)) d).

Definition RestoreItem (now : Z) (key : string) (d : Content) : result store_error Content :=
  if (affected (has_key key) (items d) =? 0)%nat then Err NotFound
  else Ok (set_items (update_where (has_key key) (delete_row now None) (items d)) d).

(** The join on both feeds of each membership row. *)
Definition AggregateSlugsFor (memberSlug : string) (d : Content) : list string :=
  fm ← members d;
  match find_id (m_aggregate fm) (feeds d), find_id (m_member fm) (feeds d) with
  | Some a, Some m =>
      if bool_decide (f_slug m = memberSlug) && bool_decide (f_deleted_at a = None)
      then [f_slug a] else []
  | _, _ => []
  end.

(** ** The schema is kept *)

Lemma formats_roundtrip f : decodeFormats (encodeFormats f) = f.
Proof.
  unfold encodeFormats, Empty, is_empty. destruct f as [a b c e]. simpl.
  destruct (_ && _) eqn:E; [|done]. bools. by subst.
Qed.

Lemma nullString_roundtrip s : of_null (nullString s) = s.
Proof. unfold nullString, is_empty. by case_bool_decide; subst. Qed.

Lemma insert_feed_ok r d :
  content_ok d -> f_id r = next_id (feeds d) -> valid_kind (f_kind r) = true -> f_slug r ∉ f_slug <$> feeds d ->
  content_ok (set_feeds (feeds d ++ [r]) d).
Proof.
  intros Hd Hid Hk Hs.
  assert (Hsub : forall i, i ∈ ids (feeds d) -> i ∈ ids (feeds d ++ [r])) by (intros; rewrite ids_app; set_solver).
  content_inv Hd; try (by eapply refers_target).
  - by apply table_ok_insert.
  - by apply distinct_insert.
  - apply Forall_app. split; [done|]. by constructor.
Qed.

Lemma CreateFeed_ok now f d id d' :
  content_ok d -> CreateFeed now f d = Ok (id, d') -> content_ok d'.
Proof.
  intros Hd. unfold CreateFeed. destruct (valid_kind _) eqn:Ek; cbn [negb]; [|done].
  case_bool_decide as Hs; [done|]. intros [= <- <-]. by apply insert_feed_ok.
Qed.

Lemma InsertItem_ok now it d id d' :
  content_ok d -> InsertItem now it d = Ok (id, d') -> content_ok d'.
Proof.
  intros Hd H. unfold InsertItem in H. apply rbind_Ok in H as (x & Hx & [= <- <-]).
  by eapply insert_item_ok in Hx.
Qed.

(** An update of items that keeps ids, keys, feeds, hashes and runs. *)
Lemma update_items_ok p f d :
  content_ok d ->
  (forall r, i_id (f r) = i_id r /\ i_item_key (f r) = i_item_key r /\ i_feed_id (f r) = i_feed_id r /\
             i_content_hash (f r) = i_content_hash r /\ i_run_id (f r) = i_run_id r) ->
  (forall r, p r = true -> valid_origin (i_origin r) = true -> valid_origin (i_origin (f r)) = true) ->
  distinct key_published (update_where p f (items d)) ->
  content_ok (set_items (update_where p f (items d)) d).
Proof.
  intros Hd Hf Ho Hp. content_inv Hd.
  - apply table_ok_update; [|done]. intros r. apply Hf.
  - apply distinct_update; [|done]. intros r _. apply Hf.
  - apply distinct_update; [|done]. intros r _. unfold key_hash. by destruct (Hf r) as (_ & _ & -> & -> & _).
  - apply refers_update; [|done]. intros r _. f_equal. apply Hf.
  - apply refers_update; [|done]. intros r _. apply Hf.
  - eapply refers_target; [|eassumption]. intros i. rewrite ids_update; [done|]. intros r. apply Hf.
  - unfold update_where. apply Forall_fmap. eapply Forall_impl; [eassumption|]. intros r Hr. simpl.
    destruct (p r) eqn:E; [by apply Ho|done].
Qed.

Lemma find_hit {A} (p : A -> bool) t r : List.find p t = Some r -> r ∈ t /\ p r = true.
Proof. intros [H1 H2]%find_some. by rewrite list_elem_of_In. Qed.

Lemma UpdateItem_spec now it v d d' :
  content_ok d -> UpdateItem now it v d = Ok d' ->
  exists r, r ∈ items d /\ i_id r = ID it /\ i_version r = v /\ valid_origin (Origin it) = true /\
    (forall x, x ∈ items d -> i_id x <> ID it ->
       key_published x <> key_published (edit_row now (truncatePublishedAt (PublishedAt it)) it r)) /\
    d' = set_items (update_where (fun x => i_id x =? ID it)
                      (edit_row now (truncatePublishedAt (PublishedAt it)) it) (items d)) d.
Proof.
  intros Hd. unfold UpdateItem. destruct (List.find _ _) as [r|] eqn:Ef; [|done].
  apply find_hit in Ef as [Hr Hv]. bools.
  destruct (valid_origin _) eqn:Eo; cbn [negb]; [|done].
  destruct (existsb _ _) eqn:Ex; [done|]. intros [= <-].
  exists r. do 4 (split; [done|]). split.
  - intros x Hx Hne Hk. rewrite <- not_true_iff_false in Ex. apply Ex. apply existsb_exists.
    exists x. split; [by apply list_elem_of_In|]. apply andb_true_iff. split.
    + apply negb_true_iff, Z.eqb_neq. lia.
    + by apply bool_decide_eq_true.
  - f_equal. unfold update_where. apply list_fmap_ext. intros i x Hx%list_elem_of_lookup_2.
    destruct (i_id x =? ID it) eqn:E; [|done]. simpl. bools.
    assert (x = r) as -> by (eapply (ids_inj (items d)); [apply Hd|done..|]; cbv [row_id row_item]; congruence).
    by rewrite (proj2 (Z.eqb_eq _ _)).
Qed.

Lemma UpdateItem_ok now it v d d' :
  content_ok d -> UpdateItem now it v d = Ok d' -> content_ok d'.
Proof.
  intros Hd H. apply UpdateItem_spec in H as (r & Hr & Hid & _ & Ho & Hp & ->); [|done].
  apply update_items_ok; [done|done|done|].
  apply (distinct_update_one key_published (H := row_item)); [apply Hd|apply Hd|done| |].
  - intros r1 r2 H1 H2 E1 E2. bools. eapply (ids_inj (items d)); [apply Hd|done..|].
    cbv [row_id row_item]. congruence.
  - intros r1 r2 H1 H2 E1 E2. bools. specialize (Hp r2 H2 E2). intros He. apply Hp. rewrite <- He.
    replace r1 with r; [done|]. eapply (ids_inj (items d)); [apply Hd|done..|].
    cbv [row_id row_item]. congruence.
Qed.

Lemma delete_row_ok now del key d :
  content_ok d -> content_ok (set_items (update_where (has_key key) (delete_row now del) (items d)) d).
Proof.
  intros Hd. apply update_items_ok; [done|done|done|]. apply distinct_update; [done|apply Hd].
Qed.

Lemma SoftDeleteItem_ok now key d d' :
  content_ok d -> SoftDeleteItem now key d = Ok d' -> content_ok d'.
Proof. intros Hd. unfold SoftDeleteItem. split_if; [done|]. intros [= <-]. by apply delete_row_ok. Qed.

Lemma RestoreItem_ok now key d d' :
  content_ok d -> RestoreItem now key d = Ok d' -> content_ok d'.
Proof. intros Hd. unfold RestoreItem. split_if; [done|]. intros [= <-]. by apply delete_row_ok. Qed.
