(* ===== verification/StoreRuns.v ===== *)
(** * Runs: internal/store/runs.go, internal/store/embeddings.go

    The run lock and its heartbeat, the commit of a run's items, the ways a run
    is closed, and the spend queries. *)

From S2P Require Import Prelude GoTime GoStrings Timestamps Tables Schema StoreItems.
From Stdlib Require Import String Ascii.
Local Abbreviation length := List.length.

Definition runLockStaleAfter : Z := 3 * minute.

Record RunSummary := MkSummary {
  TokensIn : Z; TokensOut : Z; CostUSD : float64; ItemsRejected : Z; RejectReasons : gmap string Z }.

Definition zero_summary : RunSummary := MkSummary 0 0 f64_zero 0 ∅.

(** The counts of the reasons, added as [int]s. *)
Definition reasons_total (m : gmap string Z) : Z := wrap64 (map_fold (fun _ n acc => n + acc) 0 m).

(** [reasonsJSON]: the stored object is the map itself. *)
Definition reasonsJSON (rs : RunSummary) : result store_error (gmap string Z) :=
  if negb (reasons_total (RejectReasons rs) =? ItemsRejected rs)
  then Err (ReasonsMismatch (reasons_total (RejectReasons rs)) (ItemsRejected rs))
  else Ok (RejectReasons rs).

Definition is_running (r : RunRow) : bool := bool_decide (r_status r = Running).

(** ** The run lock *)

(** [ORDER BY started_at DESC LIMIT 1] over a feed's running rows. *)
Definition newest_running (feed : Z) (d : Content) : option RunRow :=
  head (order_desc (fun r => formatTime (r_started_at r))
          (filter (fun r => (r_feed_id r =? feed) && is_running r = true) (runs d))).

(** The lock is held: the heartbeat is set and younger than the limit. *)
Definition fresh (now : Z) (r : RunRow) : bool :=
  let hb := of_null_time (r_heartbeat_at r) in
  negb (is_zero hb) && (now - hb <? runLockStaleAfter).

(** [checked] is when the lock is read and [now] when the row is stamped. *)
Definition StartRun (checked now feed : Z) (trigger holder : string) (d : Content)
    : result store_error (Z * Content) :=
  let locked := match newest_running feed d with Some r => fresh checked r | None => false end in
  if locked then Err RunInProgress
  else
    let id := next_id (runs d) in
    let row := MkRunRow id feed now None Running None None 0 0 ∅ 0 0 f64_zero trigger (Some holder)
                 (Some now) in
    if negb (valid_trigger trigger) then Err CheckViolation
    else if negb (bool_decide (feed ∈ ids (feeds d))) then Err ForeignKeyViolation
    else Ok (id, set_runs (runs d ++ [row]) d).

(** [WHERE id = ? AND status = 'running']. *)
Definition open_run (id : Z) (r : RunRow) : bool := (r_id r =? id) && is_running r.

(** An [UPDATE] of the open run [id]; no row updated is [ErrNotFound]. *)
Definition update_run (id : Z) (f : RunRow -> RunRow) (d : Content) : result store_error Content :=
  if (affected (open_run id) (runs d) =? 0)%nat then Err NotFound
  else Ok (set_runs (update_where (open_run id) f (runs d)) d).

Definition beat (now : Z) (r : RunRow) : RunRow :=
  MkRunRow (r_id r) (r_feed_id r) (r_started_at r) (r_finished_at r) (r_status r) (r_error_kind r)
    (r_error r) (r_items_added r) (r_items_rejected r) (r_reject_reasons r) (r_tokens_in r)
    (r_tokens_out r) (r_est_cost_usd r) (r_trigger r) (r_lock_holder r) (Some now).

Definition Heartbeat (now runID : Z) (d : Content) : result store_error Content :=
  update_run runID (beat now) d.

(** ** Committing *)

Record Vector := MkVector { v_ID : string; v_Model : string; v_Dim : Z; v_Vec : list Z }.
Record ItemEmbedding := MkItemEmbedding { em_ItemKey : string; em_Vector : Vector }.

(** A later entry for the same key replaces an earlier one. *)
Definition by_key (embs : list ItemEmbedding) : gmap string Vector :=
  foldl (fun m e => <[em_ItemKey e := em_Vector e]> m) ∅ embs.

Definition insertItemEmbedding (itemID : Z) (v : Vector) (d : Content) : result store_error Content :=
  if bool_decide (itemID ∈ ids (embeddings d)) then Err PrimaryKeyViolation
  else if negb (bool_decide (itemID ∈ ids (items d))) then Err ForeignKeyViolation
  else Ok (set_embeddings (embeddings d ++ [MkEmbedding itemID (v_Model v) (v_Dim v) (v_Vec v)]) d).

(** The loop over the items: [published_at] is stored as given. *)
Fixpoint commit_items (now runID : Z) (its : list Item) (byKey : gmap string Vector) (d : Content)
    : result store_error (gmap string Vector * Content) :=
  match its with
  | [] => Ok (byKey, d)
  | it :: rest =>
      let id := next_id (items d) in
      let? d1 := insert_item d (new_item_row id now (PublishedAt it) (Some runID) it) in
      match byKey !! ItemKey it with
      | Some v =>
          let? d2 := insertItemEmbedding id v d1 in
          commit_items now runID rest (delete (ItemKey it) byKey) d2
      | None => commit_items now runID rest byKey d1
      end
  end.

Definition close_success (now added : Z) (reasons : gmap string Z) (s : RunSummary) (r : RunRow) : RunRow :=
  MkRunRow (r_id r) (r_feed_id r) (r_started_at r) (Some now) Success (r_error_kind r) (r_error r)
    added (ItemsRejected s) reasons (TokensIn s) (TokensOut s) (CostUSD s) (r_trigger r)
    (r_lock_holder r) (Some now).

Definition stamp_built (now : Z) (r : FeedRow) : FeedRow :=
  MkFeedRow (f_id r) (f_slug r) (f_title r) (f_description r) (f_language r) (f_kind r) (f_enabled r)
    (f_timezone r) (f_author r) (f_copyright r) (f_og_image r) (f_ttl_minutes r) (Some now)
    (f_version r) (f_deleted_at r) (f_created_at r) (f_updated_at r) (f_spec_json r) (f_jitter_offset r)
    (f_consecutive_failures r).

(** [preCommit] is the outcome of the hook run before the commit: [true] when
    it is unset or returns nil. *)
Definition CommitRun (preCommit : bool) (now runID : Z) (its : list Item) (summary : RunSummary)
    (embs : list ItemEmbedding) (d : Content) : result store_error Content :=
  let? reasons := reasonsJSON summary in
  let? (unused, d1) := commit_items now runID its (by_key embs) d in
  if negb (bool_decide (unused = ∅)) then Err (LeftoverEmbeddings (elements (dom unused))) else
  let? d2 := update_run runID (close_success now (Z.of_nat (length its)) reasons summary) d1 in
  let feed := r_feed_id <$> find_id runID (runs d2) in
  let d3 := set_feeds (update_where (fun f => bool_decide (Some (f_id f) = feed)) (stamp_built now)
                         (feeds d2)) d2 in
  if negb preCommit then Err PreCommitFailure else Ok d3.

(** ** Closing without items *)

Definition close_failed (now : Z) (kind msg : string) (reasons : gmap string Z) (s : RunSummary)
    (r : RunRow) : RunRow :=
  MkRunRow (r_id r) (r_feed_id r) (r_started_at r) (Some now) Failed (nullString kind) (nullString msg)
    0 (ItemsRejected s) reasons (TokensIn s) (TokensOut s) (CostUSD s) (r_trigger r)
    (r_lock_holder r) (Some now).

Definition FailRun (now runID : Z) (kind msg : string) (summary : RunSummary) (d : Content)
    : result store_error Content :=
  let? reasons := reasonsJSON summary in
  update_run runID (close_failed now kind msg reasons summary) d.

Definition close_skipped (now : Z) (reason : string) (reasons : gmap string Z) (s : RunSummary)
    (r : RunRow) : RunRow :=
  MkRunRow (r_id r) (r_feed_id r) (r_started_at r) (Some now) Skipped (r_error_kind r) (nullString reason)
    (r_items_added r) (ItemsRejected s) reasons (TokensIn s) (TokensOut s) (CostUSD s) (r_trigger r)
    (r_lock_holder r) (Some now).

Definition SkipRun (now runID : Z) (reason : string) (summary : list RunSummary) (d : Content)
    : result store_error Content :=
  let? rs := match summary with
             | [] => Ok zero_summary
             | [s] => Ok s
             | _ => Err (TooManySummaries (length summary))
             end in
  let? reasons := reasonsJSON rs in
  update_run runID (close_skipped now reason reasons rs) d.

(** ** The boot watchdog *)

Definition item_count (id : Z) (d : Content) : nat :=
  affected (fun r => bool_decide (i_run_id r = Some id)) (items d).

Definition close_stale (now : Z) (st : run_status) (r : RunRow) : RunRow :=
  MkRunRow (r_id r) (r_feed_id r) (r_started_at r) (Some now) st (r_error_kind r) (r_error r)
    (r_items_added r) (r_items_rejected r) (r_reject_reasons r) (r_tokens_in r) (r_tokens_out r)
    (r_est_cost_usd r) (r_trigger r) (r_lock_holder r) (Some now).

Definition stale (cutoff : Z) (r : RunRow) : bool :=
  is_running r && match r_heartbeat_at r with Some hb => text_lt hb cutoff | None => false end.

Fixpoint reclaim (now : Z) (l : list Z) (reclaimed unconfirmed : nat) (d : Content)
    : nat * nat * Content :=
  match l with
  | [] => (reclaimed, unconfirmed, d)
  | id :: rest =>
      let has_items := negb (item_count id d =? 0)%nat in
      let st := if has_items then CompletedUnconfirmed else Interrupted in
      let d' := set_runs (update_where (open_run id) (close_stale now st) (runs d)) d in
      if has_items then reclaim now rest reclaimed (S unconfirmed) d'
      else reclaim now rest (S reclaimed) unconfirmed d'
  end.

(** [checked] is the reading the cutoff is computed from. *)
Definition ReclaimStaleRuns (checked now olderThan : Z) (d : Content) : nat * nat * Content :=
  let l := r_id <$> filter (fun r => stale (checked - olderThan) r = true) (runs d) in
  reclaim now l 0 0 d.

(** ** Reading back *)

Record Run := MkRun {
  run_ID : Z; run_FeedID : Z; run_StartedAt : Z; run_FinishedAt : Z; run_Status : run_status;
  run_ErrorKind : string; run_Error : string; run_ItemsAdded : Z; run_ItemsRejected : Z;
  run_RejectReasons : gmap string Z; run_TokensIn : Z; run_TokensOut : Z; run_EstCostUSD : float64;
  run_Trigger : string; run_LockHolder : string; run_HeartbeatAt : Z }.

Definition scanRun (r : RunRow) : Run :=
  MkRun (r_id r) (r_feed_id r) (r_started_at r) (of_null_time (r_finished_at r)) (r_status r)
    (of_null (r_error_kind r)) (of_null (r_error r)) (r_items_added r) (r_items_rejected r)
    (r_reject_reasons r) (r_tokens_in r) (r_tokens_out r) (r_est_cost_usd r) (r_trigger r)
    (of_null (r_lock_holder r)) (of_null_time (r_heartbeat_at r)).

Definition ListRuns (feed n : Z) (d : Content) : list Run :=
  scanRun <$> limit (cap n) (order_desc (fun r => formatTime (r_started_at r))
    (filter (fun r => (r_feed_id r =? feed) = true) (runs d))).

Definition EmbeddingsForFeed (feed n : Z) (d : Content) : list Vector :=
  let joined :=
    e ← embeddings d;
    match find_id (e_item_id e) (items d) with
    | Some it => if i_feed_id it =? feed then [(it, e)] else []
    | None => []
    end in
  (fun p : ItemRow * EmbeddingRow => let '(it, e) := p in MkVector (i_item_key it) (e_model e) (e_dim e) (e_vec e)) <$>
  limit (cap n) (order_desc (fun p : ItemRow * EmbeddingRow => formatTime (i_published_at p.1)) joined).

(** ** Spend

    SQLite's [SUM] of a REAL column is a parameter: how it accumulates the
    rounding errors is its own. *)
Section spend.
Context (sql_sum : list float64 -> float64).

Definition sum_real {R} (col : R -> float64) (t : list R) : float64 :=
  match t with [] => f64_zero | _ => sql_sum (col <$> t) end.

Definition in_feed (feed : Z) (x : Z) : bool := (feed =? 0) || (x =? feed).

Definition SpendSince (feed since : Z) (d : Content) : Z * Z * float64 :=
  let rows := filter (fun r => text_le since (r_started_at r) && in_feed feed (r_feed_id r) = true) (runs d) in
  (sum_int r_tokens_in rows, sum_int r_tokens_out rows, sum_real r_est_cost_usd rows).
End spend.

(** ** The schema is kept *)

(** The columns of a run no update touches. *)
Definition same_run (r r' : RunRow) : Prop :=
  r_id r' = r_id r /\ r_feed_id r' = r_feed_id r /\ r_started_at r' = r_started_at r /\
  r_trigger r' = r_trigger r.

Lemma update_runs_ok p f d :
  content_ok d -> (forall r, same_run r (f r)) -> content_ok (set_runs (update_where p f (runs d)) d).
Proof.
  intros Hd Hf.
  assert (Hid : forall r, row_id (f r) = row_id r) by (intros r; apply (Hf r)).
  content_inv Hd.
  - by apply table_ok_update.
  - eapply refers_target; [|eassumption]. intros i. by rewrite ids_update.
  - apply refers_update; [|done]. intros r _. f_equal. apply (Hf r).
  - unfold update_where. apply Forall_fmap. eapply Forall_impl; [eassumption|]. intros r Hr. simpl.
    destruct (p r); [|done]. by destruct (Hf r) as (_ & _ & _ & ->).
Qed.

Lemma update_run_spec id f d d' :
  update_run id f d = Ok d' <->
  (exists r, r ∈ runs d /\ r_id r = id /\ r_status r = Running) /\
  d' = set_runs (update_where (open_run id) f (runs d)) d.
Proof.
  unfold update_run, open_run, is_running. destruct (affected _ _ =? 0)%nat eqn:E.
  - apply Nat.eqb_eq in E. rewrite affected_0 in E. split; [done|].
    intros ((r & Hr & Hid & Hst) & _). apply E in Hr. bools. destruct Hr; bools; done.
  - apply Nat.eqb_neq in E. split; [|intros [_ ->]; done].
    intros [= <-]. split; [|done].
    destruct (List.find (fun r => (r_id r =? id) && bool_decide (r_status r = Running)) (runs d))
      as [r|] eqn:Ef.
    + apply find_some in Ef as [Hr Hp]. bools. exists r. by rewrite list_elem_of_In.
    + destruct E. apply affected_0. intros r Hr. apply list_elem_of_In in Hr.
      by eapply find_none in Ef; [|exact Hr].
Qed.

Lemma update_run_ok id f d d' :
  content_ok d -> (forall r, same_run r (f r)) -> update_run id f d = Ok d' -> content_ok d'.
Proof. intros Hd Hf (_ & ->)%update_run_spec. by apply update_runs_ok. Qed.

Definition started_row (d : Content) (now feed : Z) (trigger holder : string) : RunRow :=
  MkRunRow (next_id (runs d)) feed now None Running None None 0 0 ∅ 0 0 f64_zero trigger (Some holder)
    (Some now).

Lemma StartRun_spec checked now feed trig holder d id d' :
  StartRun checked now feed trig holder d = Ok (id, d') <->
  (forall r, newest_running feed d = Some r -> fresh checked r = false) /\
  valid_trigger trig = true /\ feed ∈ ids (feeds d) /\ id = next_id (runs d) /\
  d' = set_runs (runs d ++ [started_row d now feed trig holder]) d.
Proof.
  unfold StartRun. destruct (newest_running feed d) as [r|]; [destruct (fresh checked r) eqn:E|].
  { split; [done|]. intros (Hf & _). specialize (Hf r eq_refl). congruence. }
  all: destruct (valid_trigger trig); cbn [negb]; [|naive_solver].
  all: case_bool_decide; cbn [negb]; naive_solver.
Qed.

Lemma StartRun_ok checked now feed trig holder d id d' :
  content_ok d -> StartRun checked now feed trig holder d = Ok (id, d') -> content_ok d'.
Proof.
  intros Hd (_ & Et & Hf & -> & ->)%StartRun_spec.
  content_inv Hd.
  - by apply table_ok_insert.
  - eapply refers_target; [|eassumption]. intros i Hi. rewrite ids_app. set_solver.
  - apply refers_insert; [done|]. by intros i [= <-].
  - apply Forall_app. split; [done|]. by constructor.
Qed.

Lemma insertItemEmbedding_ok id v d d' :
  content_ok d -> insertItemEmbedding id v d = Ok d' -> content_ok d'.
Proof.
  intros Hd. unfold insertItemEmbedding. case_bool_decide as Hn; [done|].
  case_bool_decide as Hi; cbn [negb]; [|done]. intros [= <-]. content_inv Hd.
  - apply distinct_insert; done.
  - apply refers_insert; [done|]. by intros i [= <-].
Qed.

(** What the loop leaves alone, and what it adds. *)
Lemma commit_items_spec now runID its m d m' d' :
  content_ok d -> commit_items now runID its m d = Ok (m', d') ->
  content_ok d' /\ feeds d' = feeds d /\ members d' = members d /\ runs d' = runs d /\
  samples d' = samples d /\ spend d' = spend d /\
  exists new newE, items d' = items d ++ new /\ embeddings d' = embeddings d ++ newE /\
    (its = [] \/ runID ∈ ids (runs d)) /\
    Forall2 (fun it r => exists id, r = new_item_row id now (PublishedAt it) (Some runID) it) its new /\
    Forall (fun e => exists it v, it ∈ its /\ m !! ItemKey it = Some v /\
              exists r, r ∈ new /\ i_item_key r = ItemKey it /\
                        e = MkEmbedding (i_id r) (v_Model v) (v_Dim v) (v_Vec v)) newE /\
    (forall k, m' !! k = None <-> m !! k = None \/ k ∈ ItemKey <$> its) /\
    (forall k v, m !! k = Some v -> m' !! k = None -> exists r, r ∈ new /\ i_item_key r = k /\
       MkEmbedding (i_id r) (v_Model v) (v_Dim v) (v_Vec v) ∈ newE).
Proof.
  revert m d. induction its as [|it its IH]; intros m d Hd; cbn [commit_items].
  { intros [= <- <-]. do 6 (split; [done|]). exists [], []. rewrite !app_nil_r.
    do 2 (split; [done|]). split; [by left|]. do 2 (split; [done|]).
    split; [|naive_solver].
    intros k. rewrite fmap_nil. split; [by left|]. by intros [?|?%elem_of_nil]. }
  intros H. apply rbind_Ok in H as (d1 & H1 & H).
  assert (Hd1 : content_ok d1) by
    (by eapply (insert_item_ok d); [done| |exact H1]).
  apply insert_item_spec in H1 as (-> & _ & _ & _ & Hrun).
  set (r := new_item_row _ _ _ _ _) in *. assert (Hr : runID ∈ ids (runs d)) by (by apply Hrun).
  destruct (m !! ItemKey it) as [v|] eqn:Ev.
  - apply rbind_Ok in H as (d2 & H2 & H).
    pose proof (insertItemEmbedding_ok _ _ _ _ Hd1 H2) as Hd2.
    unfold insertItemEmbedding in H2. case_bool_decide; [done|].
    case_bool_decide; cbn [negb] in H2; [|done]. injection H2 as <-.
    apply IH in H as (Hok & Hf & Hm & Hru & Hs & Hsp & new & newE & Hi & He & _ & Hn & HE & Hk & Hall); [|done].
    cbn in Hf, Hm, Hru, Hs, Hsp, Hi, He. do 6 (split; [done|]).
    exists (r :: new), (MkEmbedding (i_id r) (v_Model v) (v_Dim v) (v_Vec v) :: newE).
    split; [by rewrite Hi, <- app_assoc|]. split; [by rewrite He, <- app_assoc|].
    split; [by right|]. split; [constructor; [by eexists|done]|]. split.
    + constructor; [exists it, v; split; [by left|]; split; [done|]; exists r; split; [by left|done]|].
      eapply Forall_impl; [exact HE|]. intros e (it' & v' & Hin & Hl & r' & Hr' & Hk' & ->).
      exists it', v'. split; [by right|]. split; [by apply lookup_delete_Some in Hl as [_ ?]|].
      exists r'. split; [by right|done].
    + split; [intros k; rewrite Hk, lookup_delete_None, fmap_cons, elem_of_cons; naive_solver|].
      intros k v' Hv' Hm'. destruct (decide (k = ItemKey it)) as [->|Hne].
      * rewrite Ev in Hv'. injection Hv' as <-. exists r. split; [by left|]. split; [done|]. by left.
      * destruct (Hall k v') as (r' & ? & ? & ?); [by rewrite lookup_delete_ne|done|].
        exists r'. split; [by right|]. split; [done|]. by right.
  - apply IH in H as (Hok & Hf & Hm & Hru & Hs & Hsp & new & newE & Hi & He & _ & Hn & HE & Hk & Hall); [|done].
    cbn in Hf, Hm, Hru, Hs, Hsp, Hi, He. do 6 (split; [done|]).
    exists (r :: new), newE. split; [by rewrite Hi, <- app_assoc|]. split; [done|].
    split; [by right|]. split; [constructor; [by eexists|done]|]. split.
    + eapply Forall_impl; [exact HE|]. intros e (it' & v' & Hin & Hl & r' & Hr' & Hk' & ->).
      exists it', v'. split; [by right|]. split; [done|]. exists r'. split; [by right|done].
    + split; [intros k; rewrite Hk, fmap_cons, elem_of_cons; naive_solver|].
      intros k v' Hv' Hm'. destruct (Hall k v' Hv' Hm') as (r' & ? & ? & ?).
      exists r'. split; [by right|done].
Qed.

Lemma update_feeds_ok p f d :
  content_ok d -> (forall r, f_id (f r) = f_id r /\ f_slug (f r) = f_slug r /\ f_kind (f r) = f_kind r) ->
  content_ok (set_feeds (update_where p f (feeds d)) d).
Proof.
  intros Hd Hf.
  assert (Hid : forall r, row_id (f r) = row_id r) by (intros r; apply (Hf r)).
  assert (Hsub : forall i, i ∈ ids (feeds d) -> i ∈ ids (update_where p f (feeds d))) by
    (intros i; by rewrite ids_update).
  content_inv Hd; try (by eapply refers_target).
  - by apply table_ok_update.
  - apply distinct_update; [|done]. intros r _. apply (Hf r).
  - unfold update_where. apply Forall_fmap. eapply Forall_impl; [eassumption|]. intros r Hr. simpl.
    destruct (p r); [|done]. by destruct (Hf r) as (_ & _ & ->).
Qed.

Lemma reclaim_ok now l a b d : content_ok d -> content_ok (reclaim now l a b d).2.
Proof.
  revert a b d. induction l as [|id l IH]; intros a b d Hd; [done|]. cbn [reclaim].
  destruct (negb _); apply IH; by apply update_runs_ok.
Qed.
