(* ===== verification/StoreSamples.v ===== *)
(** * Samples: internal/store/samples.go

    The previews of a recipe, the ledger of what they cost, and the promotion
    of one into the feed. *)

From S2P Require Import Prelude GoTime Timestamps Tables Schema StoreItems StoreRuns.
From Stdlib Require Import String Ascii.
Local Abbreviation length := List.length.

Record Sample := MkSample {
  smp_ID : Z; smp_FeedID : Z; smp_Payload : string; smp_TokensIn : Z; smp_TokensOut : Z;
  smp_CostUSD : float64; smp_CreatedAt : Z; smp_ExpiresAt : Z }.

Definition scanSample (r : SampleRow) : Sample :=
  MkSample (s_id r) (s_feed_id r) (s_payload r) (s_tokens_in r) (s_tokens_out r) (s_cost_usd r)
    (s_created_at r) (s_expires_at r).

(** The sample and its spend, in one transaction. *)
Definition PutSample (now feed : Z) (payload : string) (tokensIn tokensOut : Z) (cost : float64)
    (ttl : Z) (d : Content) : result store_error (Z * Content) :=
  let id := next_id (samples d) in
  let row := MkSampleRow id feed now (now + ttl) payload tokensIn tokensOut cost in
  if negb (bool_decide (feed ∈ ids (feeds d))) then Err ForeignKeyViolation
  else
    let d1 := set_samples (samples d ++ [row]) d in
    let sp := MkSpendRow (next_id (spend d1)) feed now tokensIn tokensOut cost in
    Ok (id, set_spend (spend d1 ++ [sp]) d1).

Definition GetSample (now id : Z) (d : Content) : result store_error Sample :=
  match find_id id (samples d) with
  | None => Err NotFound
  | Some r => if negb (now <? s_expires_at r) then Err NotFound else Ok (scanSample r)
  end.

Definition ListSamples (now feed : Z) (d : Content) : list Sample :=
  scanSample <$> order_desc (fun r => formatTime (s_created_at r))
    (filter (fun r => (s_feed_id r =? feed) && text_lt now (s_expires_at r) = true) (samples d)).

Definition has_id (id : Z) (r : SampleRow) : bool := s_id r =? id.

Definition DiscardSample (id : Z) (d : Content) : result store_error Content :=
  if (affected (has_id id) (samples d) =? 0)%nat then Err NotFound
  else Ok (set_samples (delete_where (has_id id) (samples d)) d).

Definition expired (now : Z) (r : SampleRow) : bool := text_le (s_expires_at r) now.

Definition PruneExpiredSamples (now : Z) (d : Content) : nat * Content :=
  (affected (expired now) (samples d), set_samples (delete_where (expired now) (samples d)) d).

(** ** Spend *)

Section spend.
Context (sql_sum : list float64 -> float64).

Definition SampleSpendSince (feed since : Z) (d : Content) : Z * Z * float64 :=
  let rows := filter (fun r => text_le since (sp_at r) && in_feed feed (sp_feed_id r) = true) (spend d) in
  (sum_int sp_tokens_in rows, sum_int sp_tokens_out rows, sum_real sql_sum sp_cost_usd rows).

Definition TotalSpendSince (feed since : Z) (d : Content) : Z * Z * float64 :=
  let '(runIn, runOut, runUSD) := SpendSince sql_sum feed since d in
  let '(smpIn, smpOut, smpUSD) := SampleSpendSince feed since d in
  (runIn + smpIn, runOut + smpOut, f64_add runUSD smpUSD).
End spend.

(** ** Promotion *)

Definition promoteTimestampRetries : nat := 5.

Definition with_feed (feed : Z) (it : Item) : Item :=
  MkItem (ID it) feed (ItemKey it) (ContentHash it) (Title it) (SummaryText it) (BodyHTML it)
    (AnswerHTML it) (Formats it) (Link it) (SourceName it) (PublishedAt it) (Tags it) (Origin it)
    (CreatedAt it) (UpdatedAt it) (EditedAt it) (DeletedAt it) (Version it).

(** One attempt: the item at [stamp] and the end of the sample, or neither. *)
Definition promoteOnce (now sampleID : Z) (it : Item) (stamp : Z) (d : Content)
    : result store_error (Z * Content) :=
  let id := next_id (items d) in
  let? d1 := insert_item d (new_item_row id now stamp None it) in
  if (affected (has_id sampleID) (samples d1) =? 0)%nat then Err NotFound
  else Ok (id, set_samples (delete_where (has_id sampleID) (samples d1)) d1).

(** The result code of any UNIQUE constraint. *)
Definition isUniquePublishedAtViolation (e : store_error) : bool :=
  match e with UniqueViolation => true | _ => false end.

(** The retry loop, [left] attempts remaining after this one; [now] are the
    clock readings of the attempts. *)
Fixpoint promote_loop (left : nat) (now : nat -> Z) (sampleID : Z) (it : Item) (stamp : Z) (d : Content)
    : result store_error (Z * Content) :=
  match promoteOnce (now left) sampleID it stamp d with
  | Ok r => Ok r
  | Err e =>
      match left with
      | S n => if isUniquePublishedAtViolation e
               then promote_loop n now sampleID it (stamp + second) d else Err e
      | O => Err e
      end
  end.

(** [SELECT MAX(published_at)]: the greatest text. *)
Definition newest_published (feed : Z) (d : Content) : option Z :=
  i_published_at <$> head (order_desc (fun r => formatTime (i_published_at r))
    (filter (fun r => (i_feed_id r =? feed) = true) (items d))).

Definition promote_stamp (clock : Z) (newest : option Z) : Z :=
  let newest := default zero_time newest in
  let stamp := truncate clock second in
  if negb (newest <? stamp) then newest + second else stamp.

(** [d0] is the state the newest item is read from and [d] the state the
    insertions are made in: other writers may come between. *)
Definition promote_from (clock : Z) (now : nat -> Z) (id : Z) (it : Item) (d0 d : Content)
    : result store_error (Z * Content) :=
  match find_id id (samples d0) with
  | None => Err NotFound
  | Some s =>
      let it := with_feed (s_feed_id s) it in
      let stamp := promote_stamp clock (newest_published (s_feed_id s) d0) in
      promote_loop promoteTimestampRetries now id it stamp d
  end.

Definition PromoteSample (clock : Z) (now : nat -> Z) (id : Z) (it : Item) (d : Content)
    : result store_error (Z * Content) :=
  promote_from clock now id it d d.

(** ** The schema is kept *)

Lemma PutSample_ok now feed payload ti to cost ttl d id d' :
  content_ok d -> PutSample now feed payload ti to cost ttl d = Ok (id, d') -> content_ok d'.
Proof.
  intros Hd. unfold PutSample. case_bool_decide as Hf; cbn [negb]; [|done]. intros [= <- <-].
  content_inv Hd.
  - by apply table_ok_insert.
  - by apply table_ok_insert.
  - apply refers_insert; [done|]. by intros i [= <-].
  - apply refers_insert; [done|]. by intros i [= <-].
Qed.

Lemma delete_samples_ok p d : content_ok d -> content_ok (set_samples (delete_where p (samples d)) d).
Proof. intros Hd. content_inv Hd; auto with aff. Qed.

Lemma DiscardSample_ok id d d' : content_ok d -> DiscardSample id d = Ok d' -> content_ok d'.
Proof. intros Hd. unfold DiscardSample. split_if; [done|]. intros [= <-]. by apply delete_samples_ok. Qed.

Lemma promoteOnce_spec now sid it stamp d id d' :
  promoteOnce now sid it stamp d = Ok (id, d') <->
  exists d1, id = next_id (items d) /\ insert_item d (new_item_row id now stamp None it) = Ok d1 /\
    sid ∈ ids (samples d) /\ d' = set_samples (delete_where (has_id sid) (samples d1)) d1.
Proof.
  unfold promoteOnce. split.
  - intros H. apply rbind_Ok in H as (d1 & Hi & H).
    destruct (affected _ _ =? 0)%nat eqn:E; [done|]. injection H as <- <-.
    exists d1. do 2 (split; [done|]). split; [|done].
    apply insert_item_spec in Hi as (-> & _). cbn in E.
    apply Nat.eqb_neq in E. destruct (decide (sid ∈ ids (samples d))) as [|Hn]; [done|].
    destruct E. apply affected_0. intros r Hr. unfold has_id. apply Z.eqb_neq. intros <-.
    apply Hn. by apply list_elem_of_fmap_2.
  - intros (d1 & -> & Hi & Hs & ->). rewrite Hi. cbn [rbind].
    apply insert_item_spec in Hi as (-> & _). cbn [samples set_items].
    destruct (affected _ _ =? 0)%nat eqn:E; [|done]. apply Nat.eqb_eq in E. rewrite affected_0 in E.
    apply list_elem_of_fmap in Hs as (r & -> & Hr). apply E in Hr. unfold has_id in Hr. bools. done.
Qed.

Lemma promoteOnce_ok now sid it stamp d id d' :
  content_ok d -> promoteOnce now sid it stamp d = Ok (id, d') -> content_ok d'.
Proof.
  intros Hd (d1 & -> & Hi & _ & ->)%promoteOnce_spec. apply delete_samples_ok.
  by eapply (insert_item_ok d); [done| |exact Hi].
Qed.

(** The attempt that succeeded, and the stamps that collided before it. *)
Lemma promote_loop_spec n now sid it stamp d id d' :
  promote_loop n now sid it stamp d = Ok (id, d') ->
  exists k t, 0 <= k <= Z.of_nat n /\ promoteOnce t sid it (stamp + k * second) d = Ok (id, d').
Proof.
  revert stamp. induction n as [|n IH]; intros stamp; cbn [promote_loop].
  all: destruct (promoteOnce _ _ _ _ _) as [r|e] eqn:E.
  - intros [= ->]. exists 0. eexists. rewrite Z.mul_0_l, Z.add_0_r. split; [lia|exact E].
  - done.
  - intros [= ->]. exists 0. eexists. rewrite Z.mul_0_l, Z.add_0_r. split; [lia|exact E].
  - destruct (isUniquePublishedAtViolation e); [|done]. intros (k & t & Hk & Hp)%IH.
    exists (k + 1), t. split; [lia|]. by replace (stamp + (k + 1) * second) with (stamp + second + k * second) by lia.
Qed.

Lemma promote_from_ok clock now id it d0 d i d' :
  content_ok d -> promote_from clock now id it d0 d = Ok (i, d') -> content_ok d'.
Proof.
  intros Hd. unfold promote_from. destruct (find_id id (samples d0)); [|done].
  intros (k & t & _ & Hp)%promote_loop_spec. by eapply promoteOnce_ok.
Qed.
