(* ===== verification/StoreHistory.v ===== *)
(** * Histories of the content tables

    Every successful write of internal/store as a step, the invariants that
    hold after any sequence of them, and what no sequence can undo. *)

From S2P Require Import Prelude GoTime GoStrings Timestamps Tables Schema StoreItems StoreRuns StoreSamples.
From Stdlib Require Import String Ascii.
Local Abbreviation length := List.length.

Inductive content_step (d : Content) : Content -> Prop :=
| step_CreateFeed now f id d' : CreateFeed now f d = Ok (id, d') -> content_step d d'
| step_InsertItem now it id d' : InsertItem now it d = Ok (id, d') -> content_step d d'
| step_UpdateItem now it v d' : UpdateItem now it v d = Ok d' -> content_step d d'
| step_SoftDelete now key d' : SoftDeleteItem now key d = Ok d' -> content_step d d'
| step_Restore now key d' : RestoreItem now key d = Ok d' -> content_step d d'
| step_StartRun checked now feed trig holder id d' :
    StartRun checked now feed trig holder d = Ok (id, d') -> content_step d d'
| step_Heartbeat now run d' : Heartbeat now run d = Ok d' -> content_step d d'
| step_CommitRun pre now run its s embs d' :
    CommitRun pre now run its s embs d = Ok d' -> content_step d d'
| step_FailRun now run kind msg s d' : FailRun now run kind msg s d = Ok d' -> content_step d d'
| step_SkipRun now run reason s d' : SkipRun now run reason s d = Ok d' -> content_step d d'
| step_Reclaim checked now older a b d' :
    ReclaimStaleRuns checked now older d = (a, b, d') -> content_step d d'
| step_PutSample now feed payload ti to cost ttl id d' :
    PutSample now feed payload ti to cost ttl d = Ok (id, d') -> content_step d d'
| step_Discard id d' : DiscardSample id d = Ok d' -> content_step d d'
| step_Prune now n d' : PruneExpiredSamples now d = (n, d') -> content_step d d'
| step_Promote clock now id it d0 i d' :
    promote_from clock now id it d0 d = Ok (i, d') -> content_step d d'.

(** ** The changes a step can make

    Seen from the outside each step makes one of these changes; the invariants
    are proved of the changes. *)

(** Identity, content hash and run of an item never change; its version only grows. *)
Definition item_evolves (r r' : ItemRow) : Prop :=
  i_id r' = i_id r /\ i_item_key r' = i_item_key r /\ i_feed_id r' = i_feed_id r /\
  i_content_hash r' = i_content_hash r /\ i_created_at r' = i_created_at r /\
  i_run_id r' = i_run_id r /\ i_version r <= i_version r'.

(** A closed run is never touched again. *)
Definition run_evolves (r r' : RunRow) : Prop :=
  same_run r r' /\ (r_status r <> Running -> r' = r).

Record evolves (d d' : Content) : Prop := {
  ev_items : exists old new, items d' = old ++ new /\ Forall2 item_evolves (items d) old;
  ev_runs : exists old new, runs d' = old ++ new /\ Forall2 run_evolves (runs d) old;
  ev_spend : exists new, spend d' = spend d ++ new;
  ev_embeddings : exists new, embeddings d' = embeddings d ++ new }.

#[export] Instance item_evolves_preorder : PreOrder item_evolves.
Proof.
  split.
  - intros r. unfold item_evolves. repeat split; lia.
  - intros a b c (?&?&?&?&?&?&?) (?&?&?&?&?&?&?). unfold item_evolves. repeat split; congruence || lia.
Qed.

#[export] Instance run_evolves_preorder : PreOrder run_evolves.
Proof.
  split.
  - intros r. by repeat split.
  - intros a b c [(?&?&?&?) Hab] [(?&?&?&?) Hbc]. split; [repeat split; congruence|].
    intros Hc. rewrite (Hab Hc) in Hbc. by apply Hbc.
Qed.

Lemma prefix_trans_Forall2 {R} (P : relation R) `{!PreOrder P} (a b c o1 n1 o2 n2 : list R) :
  b = o1 ++ n1 -> Forall2 P a o1 -> c = o2 ++ n2 -> Forall2 P b o2 ->
  exists old new, c = old ++ new /\ Forall2 P a old.
Proof.
  intros -> H1 -> H2. apply Forall2_app_inv_l in H2 as (x & y & Hx & Hy & ->).
  exists x, (y ++ n2). rewrite app_assoc. split; [done|]. etrans; done.
Qed.

#[export] Instance evolves_preorder : PreOrder evolves.
Proof.
  split.
  - intros d. split.
    1: exists (items d), []. 2: exists (runs d), [].
    1-2: rewrite app_nil_r; split; [done|]; reflexivity.
    all: exists []; by rewrite app_nil_r.
  - intros a b c [(o1&n1&H1&F1) (o2&n2&H2&F2) [n3 H3] [n4 H4]]
      [(p1&m1&K1&G1) (p2&m2&K2&G2) [m3 K3] [m4 K4]]. split.
    + exact (prefix_trans_Forall2 _ _ _ _ _ _ _ _ H1 F1 K1 G1).
    + exact (prefix_trans_Forall2 _ _ _ _ _ _ _ _ H2 F2 K2 G2).
    + exists (n3 ++ m3). by rewrite K3, H3, app_assoc.
    + exists (n4 ++ m4). by rewrite K4, H4, app_assoc.
Qed.

(** Rows are only appended. *)
Lemma evolves_append d d' ni nr ns ne :
  items d' = items d ++ ni -> runs d' = runs d ++ nr -> spend d' = spend d ++ ns ->
  embeddings d' = embeddings d ++ ne -> evolves d d'.
Proof.
  intros Hi Hr Hs He. split; [exists (items d), ni|exists (runs d), nr|by exists ns|by exists ne].
  all: split; [done|]; reflexivity.
Qed.

Lemma Forall2_update {R} (P : relation R) `{!Reflexive P} p f (t : list R) :
  (forall r, p r = true -> P r (f r)) -> Forall2 P t (update_where p f t).
Proof.
  intros Hf. unfold update_where. induction t as [|r t IH]; simpl; constructor; [|done].
  destruct (p r) eqn:E; [by apply Hf|done].
Qed.

Lemma evolves_update_items p f d :
  (forall r, p r = true -> item_evolves r (f r)) ->
  evolves d (set_items (update_where p f (items d)) d).
Proof.
  intros Hf. split; cbn.
  - exists (update_where p f (items d)), []. rewrite app_nil_r. split; [done|].
    by apply Forall2_update; [apply _|].
  - exists (runs d), []. rewrite app_nil_r. split; [done|]. reflexivity.
  - exists []. by rewrite app_nil_r.
  - exists []. by rewrite app_nil_r.
Qed.

Lemma evolves_update_runs p f d :
  (forall r, p r = true -> run_evolves r (f r)) ->
  evolves d (set_runs (update_where p f (runs d)) d).
Proof.
  intros Hf. split; cbn.
  - exists (items d), []. rewrite app_nil_r. split; [done|]. reflexivity.
  - exists (update_where p f (runs d)), []. rewrite app_nil_r. split; [done|].
    by apply Forall2_update; [apply _|].
  - exists []. by rewrite app_nil_r.
  - exists []. by rewrite app_nil_r.
Qed.

(** Every update of runs is restricted to running rows. *)
Lemma evolves_open_run id f d :
  (forall r, same_run r (f r)) -> evolves d (set_runs (update_where (open_run id) f (runs d)) d).
Proof.
  intros Hf. apply evolves_update_runs. intros r Hr. split; [done|].
  unfold open_run, is_running in Hr. bools. done.
Qed.

Lemma evolves_update_run id f d d' :
  (forall r, same_run r (f r)) -> update_run id f d = Ok d' -> evolves d d'.
Proof. intros Hf (_ & ->)%update_run_spec. by apply evolves_open_run. Qed.

Ltac appended :=
  eapply evolves_append; cbn; first [symmetry; apply app_nil_r | reflexivity].

Lemma evolves_set_feeds x d : evolves d (set_feeds x d).
Proof. appended. Qed.

Lemma evolves_set_samples x d : evolves d (set_samples x d).
Proof. appended. Qed.

Lemma evolves_insert_item d r d' : insert_item d r = Ok d' -> evolves d d'.
Proof. intros (-> & _)%insert_item_spec. appended. Qed.

(** What a successful commit does, in one place. *)
Lemma CommitRun_spec pre now run its s embs d d' :
  content_ok d -> CommitRun pre now run its s embs d = Ok d' ->
  exists d1 reasons m, pre = true /\ reasonsJSON s = Ok reasons /\
    commit_items now run its (by_key embs) d = Ok (m, d1) /\ m = ∅ /\
    (exists r, r ∈ runs d /\ r_id r = run /\ r_status r = Running) /\
    d' = set_feeds
      (update_where (fun f => bool_decide (Some (f_id f) = r_feed_id <$> find_id run (runs d)))
                    (stamp_built now) (feeds d))
      (set_runs (update_where (open_run run)
                   (close_success now (Z.of_nat (length its)) reasons s) (runs d)) d1).
Proof.
  intros Hd H. unfold CommitRun in H. apply rbind_Ok in H as (reasons & Hr & H).
  apply rbind_Ok in H as ([m d1] & Hc & H). case_bool_decide as Hm; cbn [negb] in H; [|done].
  apply rbind_Ok in H as (d2 & Hu & H). destruct pre; cbn [negb] in H; [|done]. injection H as <-.
  pose proof (commit_items_spec _ _ _ _ _ _ _ Hd Hc) as (Hok & Hfe & _ & Hru & _).
  apply update_run_spec in Hu as (Hopen & ->). rewrite Hru in *.
  exists d1, reasons, m. do 5 (split; [done|]). cbn [runs set_runs feeds]. rewrite Hfe.
  replace (r_feed_id <$> find_id run (update_where _ _ (runs d)))
    with (r_feed_id <$> find_id run (runs d)); [done|].
  clear. unfold find_id, update_where.
  induction (runs d) as [|r t IH]; [done|]. cbn [List.find fmap list_fmap].
  destruct (open_run run r); cbn; destruct (_ =? run); done || apply IH.
Qed.

Lemma CommitRun_ok pre now run its s embs d d' :
  content_ok d -> CommitRun pre now run its s embs d = Ok d' -> content_ok d'.
Proof.
  intros Hd H. apply CommitRun_spec in H as (d1 & rs & m & _ & _ & Hc & _ & _ & ->); [|done].
  apply commit_items_spec in Hc as (Hok & Hfe & _ & Hru & _); [|done].
  rewrite <- Hfe, <- Hru.
  apply (update_feeds_ok _ _ (set_runs (update_where _ _ (runs d1)) d1)); [|done].
  by apply update_runs_ok.
Qed.

Lemma reclaim_evolves now l a b d : evolves d (reclaim now l a b d).2.
Proof.
  revert a b d. induction l as [|id l IH]; intros a b d; [reflexivity|]. cbn [reclaim].
  destruct (negb _); (etrans; [|apply IH]); by apply evolves_open_run.
Qed.

(** ** Every step *)

Lemma step_ok d d' : content_ok d -> content_step d d' -> content_ok d'.
Proof.
  intros Hd Hs. destruct Hs as
    [now f id d' H|now it id d' H|now it v d' H|now key d' H|now key d' H
    |checked now feed trig holder id d' H|now run d' H|pre now run its s embs d' H
    |now run kind msg s d' H|now run reason s d' H|checked now older a b d' H
    |now feed payload ti to cost ttl id d' H|id d' H|now n d' H|clock now id it d0 i d' H].
  - by eapply CreateFeed_ok.
  - by eapply InsertItem_ok.
  - by eapply UpdateItem_ok.
  - by eapply SoftDeleteItem_ok.
  - by eapply RestoreItem_ok.
  - by eapply StartRun_ok.
  - by eapply (update_run_ok run (beat now) d).
  - by eapply CommitRun_ok.
  - unfold FailRun in H. apply rbind_Ok in H as (rs & _ & H). by eapply update_run_ok in H.
  - unfold SkipRun in H. apply rbind_Ok in H as (rs & _ & H). apply rbind_Ok in H as (? & _ & H).
    by eapply update_run_ok in H.
  - unfold ReclaimStaleRuns in H.
    match type of H with reclaim ?n ?l ?x ?y ?z = _ => pose proof (reclaim_ok n l x y z Hd) as Hr end.
    by rewrite H in Hr.
  - by eapply PutSample_ok.
  - by eapply DiscardSample_ok.
  - injection H as _ <-. by apply delete_samples_ok.
  - by eapply promote_from_ok.
Qed.

Lemma step_evolves d d' : content_ok d -> content_step d d' -> evolves d d'.
Proof.
  intros Hd Hs. destruct Hs as
    [now f id d' H|now it id d' H|now it v d' H|now key d' H|now key d' H
    |checked now feed trig holder id d' H|now run d' H|pre now run its s embs d' H
    |now run kind msg s d' H|now run reason s d' H|checked now older a b d' H
    |now feed payload ti to cost ttl id d' H|id d' H|now n d' H|clock now id it d0 i d' H].
  - unfold CreateFeed in H. repeat (case_match; try done). injection H as _ <-. apply evolves_set_feeds.
  - unfold InsertItem in H. apply rbind_Ok in H as (x & Hx & [= _ <-]). by eapply evolves_insert_item.
  - apply UpdateItem_spec in H as (r & _ & _ & _ & _ & _ & ->); [|done].
    apply evolves_update_items. intros x _. repeat split. cbn. lia.
  - unfold SoftDeleteItem in H. case_match; [done|]. injection H as <-.
    apply evolves_update_items. intros x _. by repeat split.
  - unfold RestoreItem in H. case_match; [done|]. injection H as <-.
    apply evolves_update_items. intros x _. by repeat split.
  - apply StartRun_spec in H as (_ & _ & _ & _ & ->). appended.
  - by eapply (evolves_update_run run (beat now) d).
  - apply CommitRun_spec in H as (d1 & rs & m & _ & _ & Hc & _ & _ & ->); [|done].
    apply commit_items_spec in Hc as (_ & _ & _ & Hru & _ & Hsp & new & newE & Hi & He & _); [|done].
    rewrite <- Hru. etrans; [|apply evolves_set_feeds]. etrans; [|by apply evolves_open_run].
    eapply evolves_append; [exact Hi| |rewrite Hsp|exact He]; [|by rewrite app_nil_r].
    by rewrite Hru, app_nil_r.
  - unfold FailRun in H. apply rbind_Ok in H as (rs & _ & H). by eapply evolves_update_run in H.
  - unfold SkipRun in H. apply rbind_Ok in H as (rs & _ & H). apply rbind_Ok in H as (? & _ & H).
    by eapply evolves_update_run in H.
  - unfold ReclaimStaleRuns in H.
    match type of H with reclaim ?n ?l ?x ?y ?z = _ => pose proof (reclaim_evolves n l x y z) as Hr end.
    by rewrite H in Hr.
  - unfold PutSample in H. case_match; [done|]. injection H as _ <-. appended.
  - unfold DiscardSample in H. case_match; [done|]. injection H as <-. apply evolves_set_samples.
  - injection H as _ <-. apply evolves_set_samples.
  - unfold promote_from in H. case_match; [|done].
    apply promote_loop_spec in H as (k & t & _ & H).
    apply promoteOnce_spec in H as (d1 & _ & Hi & _ & ->).
    etrans; [by eapply evolves_insert_item|apply evolves_set_samples].
Qed.

Lemma history_ok d d' : content_ok d -> rtc content_step d d' -> content_ok d'.
Proof. intros Hd Hr. eapply (rtc_invariant content_step content_ok); eauto using step_ok. Qed.

Lemma history_evolves d d' : content_ok d -> rtc content_step d d' -> evolves d d'.
Proof.
  intros Hd Hr. revert Hd. induction Hr as [d|d e d' Hs Hr IH]; intros Hd; [reflexivity|].
  etrans; [by apply step_evolves|]. apply IH. by eapply step_ok.
Qed.

(** ** A run with items is never open *)

Definition linked_closed (d : Content) : Prop :=
  forall r ru, r ∈ items d -> ru ∈ runs d -> i_run_id r = Some (r_id ru) -> r_status ru <> Running.

(** No item gains a run and no run reopens. *)
Lemma linked_mono d d' :
  (forall r, r ∈ items d' -> i_run_id r = None \/ exists r0, r0 ∈ items d /\ i_run_id r0 = i_run_id r) ->
  (forall ru, ru ∈ runs d' -> r_status ru = Running ->
     exists ru0, ru0 ∈ runs d /\ r_id ru0 = r_id ru /\ r_status ru0 = Running) ->
  linked_closed d -> linked_closed d'.
Proof.
  intros Hi Hr Hl r ru Hrin Hru Hlink Hrun.
  destruct (Hi r Hrin) as [?|(r0 & Hr0 & He)]; [congruence|].
  destruct (Hr ru Hru Hrun) as (ru0 & Hru0 & Hid & Hst).
  apply (Hl r0 ru0 Hr0 Hru0); [congruence|done].
Qed.

Lemma linked_update_items p f d :
  (forall r, i_run_id (f r) = i_run_id r) -> linked_closed d ->
  linked_closed (set_items (update_where p f (items d)) d).
Proof.
  intros Hf. apply linked_mono; [|eauto]. intros r (r0 & Hr0 & ->)%elem_of_update.
  right. exists r0. split; [done|]. by destruct (p r0).
Qed.

Lemma linked_insert_item d r d' :
  i_run_id r = None -> insert_item d r = Ok d' -> linked_closed d -> linked_closed d'.
Proof.
  intros Hn (-> & _)%insert_item_spec. apply linked_mono; cbn; [|eauto].
  intros r' [H|H%list_elem_of_singleton]%elem_of_app; [right; eauto|left; by subst].
Qed.

Lemma linked_update_runs p f d :
  (forall r, r_id (f r) = r_id r) ->
  (forall r, p r = true -> r_status (f r) = Running -> r_status r = Running) ->
  linked_closed d -> linked_closed (set_runs (update_where p f (runs d)) d).
Proof.
  intros Hid Hst. apply linked_mono; cbn; [intros r Hr; right; eauto|].
  intros ru (ru0 & Hru0 & ->)%elem_of_update Hr. exists ru0.
  destruct (p ru0) eqn:E; [|done]. rewrite Hid. auto.
Qed.

Lemma linked_update_run id f d d' :
  (forall r, r_id (f r) = r_id r) ->
  (forall r, r_status (f r) = Running -> r_status r = Running) ->
  update_run id f d = Ok d' -> linked_closed d -> linked_closed d'.
Proof. intros Hid Hst (_ & ->)%update_run_spec. apply linked_update_runs; auto. Qed.

Lemma linked_reclaim now l a b d : linked_closed d -> linked_closed (reclaim now l a b d).2.
Proof.
  revert a b d. induction l as [|id l IH]; intros a b d Hd; [done|]. cbn [reclaim].
  destruct (negb _); apply IH; by apply linked_update_runs.
Qed.

Lemma linked_StartRun checked now feed trig holder d id d' :
  content_ok d -> StartRun checked now feed trig holder d = Ok (id, d') ->
  linked_closed d -> linked_closed d'.
Proof.
  intros Hd (_ & _ & _ & _ & ->)%StartRun_spec Hl r ru Hr Hru Hlink. cbn in Hr, Hru.
  apply elem_of_app in Hru as [Hru| ->%list_elem_of_singleton]; [by eapply Hl|].
  exfalso. pose proof (ok_item_run _ Hd) as Href. unfold refers in Href. rewrite Forall_forall in Href.
  apply (Href r Hr) in Hlink. by apply next_id_notin in Hlink.
Qed.

Lemma linked_CommitRun pre now run its s embs d d' :
  content_ok d -> CommitRun pre now run its s embs d = Ok d' -> linked_closed d -> linked_closed d'.
Proof.
  intros Hd H Hl. apply CommitRun_spec in H as (d1 & rs & m & _ & _ & Hc & _ & _ & ->); [|done].
  apply commit_items_spec in Hc as (_ & _ & _ & Hru & _ & _ & new & newE & Hi & _ & _ & Hn & _); [|done].
  intros r ru Hr Hrun Hlink Hst. cbn in Hr, Hrun. rewrite Hi in Hr.
  apply elem_of_update in Hrun as (ru0 & Hru0 & ->).
  destruct (open_run run ru0) eqn:Eo; [done|].
  apply elem_of_app in Hr as [Hr|Hr]; [by apply (Hl r ru0)|].
  apply list_elem_of_lookup in Hr as [i Hr].
  destruct (Forall2_lookup_r _ _ _ _ _ Hn Hr) as (it & _ & id & Hnew).
  rewrite Hnew in Hlink. injection Hlink as Hlink.
  unfold open_run, is_running in Eo. rewrite <- Hlink, Z.eqb_refl, Hst in Eo. done.
Qed.

Lemma step_linked d d' :
  content_ok d -> content_step d d' -> linked_closed d -> linked_closed d'.
Proof.
  intros Hd Hs Hl. destruct Hs as
    [now f id d' H|now it id d' H|now it v d' H|now key d' H|now key d' H
    |checked now feed trig holder id d' H|now run d' H|pre now run its s embs d' H
    |now run kind msg s d' H|now run reason s d' H|checked now older a b d' H
    |now feed payload ti to cost ttl id d' H|id d' H|now n d' H|clock now id it d0 i d' H].
  - unfold CreateFeed in H. repeat (case_match; try done). injection H as _ <-. exact Hl.
  - unfold InsertItem in H. apply rbind_Ok in H as (x & Hx & [= _ <-]). by eapply (linked_insert_item d); [|exact Hx|].
  - apply UpdateItem_spec in H as (r & _ & _ & _ & _ & _ & ->); [|done]. by apply linked_update_items.
  - unfold SoftDeleteItem in H. case_match; [done|]. injection H as <-. by apply linked_update_items.
  - unfold RestoreItem in H. case_match; [done|]. injection H as <-. by apply linked_update_items.
  - by eapply linked_StartRun.
  - by eapply (linked_update_run run (beat now) d).
  - by eapply linked_CommitRun.
  - unfold FailRun in H. apply rbind_Ok in H as (rs & _ & H). by eapply linked_update_run in H.
  - unfold SkipRun in H. apply rbind_Ok in H as (rs & _ & H). apply rbind_Ok in H as (? & _ & H).
    by eapply linked_update_run in H.
  - unfold ReclaimStaleRuns in H.
    match type of H with reclaim ?n ?l ?x ?y ?z = _ => pose proof (linked_reclaim n l x y z Hl) as Hr end.
    by rewrite H in Hr.
  - unfold PutSample in H. case_match; [done|]. injection H as _ <-. exact Hl.
  - unfold DiscardSample in H. case_match; [done|]. injection H as <-. exact Hl.
  - injection H as _ <-. exact Hl.
  - unfold promote_from in H. case_match; [|done].
    apply promote_loop_spec in H as (k & t & _ & H).
    apply promoteOnce_spec in H as (d1 & _ & Hi & _ & ->). change (linked_closed d1).
    by eapply (linked_insert_item d); [|exact Hi|].
Qed.

Lemma history_linked d : rtc content_step empty_content d -> content_ok d /\ linked_closed d.
Proof.
  intros Hr. eapply (rtc_invariant content_step (fun d => content_ok d /\ linked_closed d)); [| |exact Hr].
  - intros a b [Ha Hl] Hs. eauto using step_ok, step_linked.
  - split; [apply empty_content_ok|]. intros r ru Hin. by apply elem_of_nil in Hin.
Qed.

(** ** The watchdog's counts *)

Definition mark (st : Z -> run_status) (l : list Z) (now : Z) (r : RunRow) : RunRow :=
  if bool_decide (r_id r ∈ l) && is_running r then close_stale now (st (r_id r)) r else r.

Lemma item_count_0 id d :
  item_count id d = 0%nat <-> forall r, r ∈ items d -> i_run_id r <> Some id.
Proof.
  unfold item_count. rewrite affected_0. split; intros H r Hr.
  - specialize (H r Hr). by bools.
  - by apply bool_decide_eq_false, H.
Qed.

Lemma reclaim_all_empty now l a b d :
  (forall id, id ∈ l -> item_count id d = 0%nat) ->
  reclaim now l a b d =
  ((length l + a)%nat, b, set_runs (mark (fun _ => Interrupted) l now <$> runs d) d).
Proof.
  revert a b d. induction l as [|id l IH]; intros a b d Hc; cbn [reclaim].
  - assert (Hm : mark (fun _ => Interrupted) [] now <$> runs d = runs d).
    { rewrite <- (list_fmap_id (runs d)) at 2. apply list_fmap_ext. intros i r _.
      unfold mark. case_bool_decide as E; [by apply elem_of_nil in E|done]. }
    rewrite Hm. by destruct d.
  - rewrite (Hc id) by (by left). cbn [Nat.eqb negb].
    rewrite IH by (intros i Hi; apply (Hc i); by right).
    f_equal; [f_equal; cbn [length]; lia|].
    unfold set_runs. cbn [feeds members items embeddings samples spend runs]. f_equal.
    unfold update_where. rewrite <- list_fmap_compose. apply list_fmap_ext. intros i r _. cbn.
    unfold mark, open_run, is_running. destruct (r_id r =? id) eqn:E; bools.
    + subst id. rewrite (bool_decide_eq_true_2 (r_id r ∈ r_id r :: l)) by (by left).
      destruct (bool_decide (r_status r = Running)) eqn:Hst; cbn [andb].
      * change (r_status (close_stale now Interrupted r)) with Interrupted.
        rewrite (bool_decide_eq_false_2 (Interrupted = Running)) by done. by rewrite andb_false_r.
      * by rewrite Hst, andb_false_r.
    + cbn. replace (bool_decide (r_id r ∈ id :: l)) with (bool_decide (r_id r ∈ l)); [done|].
      apply bool_decide_ext. rewrite elem_of_cons. naive_solver.
Qed.

Lemma reclaim_linked checked now older d :
  linked_closed d ->
  let l := r_id <$> filter (fun r => stale (checked - older) r = true) (runs d) in
  ReclaimStaleRuns checked now older d =
  (length l, 0%nat, set_runs (mark (fun _ => Interrupted) l now <$> runs d) d).
Proof.
  intros Hl l. unfold ReclaimStaleRuns. fold l. rewrite reclaim_all_empty; [by rewrite Nat.add_0_r|].
  intros id (ru & -> & [Hst Hru]%list_elem_of_filter)%list_elem_of_fmap.
  apply item_count_0. intros r Hr He. apply (Hl r ru Hr Hru He).
  unfold stale, is_running in Hst. by bools.
Qed.

(** ** The run lock *)

Definition running_on (feed : Z) (r : RunRow) : Prop := r_feed_id r = feed /\ r_status r = Running.

(** A running row that started in a later second than the others is the newest. *)
Lemma newest_running_unique feed d x :
  table_ok (runs d) -> x ∈ runs d -> running_on feed x -> four_digit (r_started_at x) ->
  (forall y, y ∈ runs d -> running_on feed y -> r_id y <> r_id x ->
     unix (r_started_at y) < unix (r_started_at x) /\ four_digit (r_started_at y)) ->
  newest_running feed d = Some x.
Proof.
  intros Hok Hx [Hf Hs] H4 Hy. unfold newest_running.
  set (t := filter _ (runs d)). assert (Hin : x ∈ t).
  { apply list_elem_of_filter. split; [|done]. unfold is_running.
    by rewrite Hf, Z.eqb_refl, bool_decide_eq_true_2. }
  destruct (head (order_desc _ t)) as [h|] eqn:E.
  2:{ apply order_desc_nil in E. rewrite E in Hin. by apply elem_of_nil in Hin. }
  assert (Hh : h ∈ t).
  { rewrite <- (order_desc_perm (fun r => formatTime (r_started_at r)) t).
    destruct (order_desc _ t); [done|]. injection E as ->. by left. }
  pose proof (order_desc_head _ t h x E Hin) as Hle. cbv beta in Hle.
  apply list_elem_of_filter in Hh as [Hh1 Hh2]. unfold is_running in Hh1. bools.
  destruct (decide (r_id h = r_id x)) as [He|Hne].
  - f_equal. by apply (ids_inj (runs d)).
  - exfalso. destruct (Hy h Hh2) as [Hlt H4h]; [done|done|].
    unfold str_leb in Hle. rewrite text_compare in Hle by done.
    by rewrite (proj2 (Z.compare_gt_iff _ _) Hlt) in Hle.
Qed.

(** A lock whose row is the newest running one, and fresh, refuses a second start. *)
Lemma StartRun_blocked checked now feed trig holder d r :
  newest_running feed d = Some r -> fresh checked r = true ->
  StartRun checked now feed trig holder d = Err RunInProgress.
Proof. intros Hn Hf. unfold StartRun. by rewrite Hn, Hf. Qed.

(** ** Editing *)

Lemma UpdateItem_conflict now it v d :
  UpdateItem now it v d = Err VersionConflict <->
  forall r, r ∈ items d -> i_id r = ID it -> i_version r <> v.
Proof.
  unfold UpdateItem. destruct (List.find _ _) as [r|] eqn:Ef.
  - apply find_hit in Ef as [Hr Hv]. bools. split; [by repeat case_match|]. intros Hno. by destruct (Hno r).
  - split; [|done]. intros _ r Hr Hid Hv. apply list_elem_of_In in Hr.
    eapply find_none in Ef; [|exact Hr]. simpl in Ef. bools. destruct Ef; bools; done.
Qed.

(** ** Promotion *)

(** Every item of the feed is published on a whole second of a four-digit year. *)
Definition whole_seconds (feed : Z) (d : Content) : Prop :=
  forall r, r ∈ items d -> i_feed_id r = feed -> nsec (i_published_at r) = 0 /\ four_digit (i_published_at r).

Lemma newest_published_max feed d r :
  whole_seconds feed d -> r ∈ items d -> i_feed_id r = feed ->
  exists n, newest_published feed d = Some n /\ i_published_at r <= n /\ nsec n = 0.
Proof.
  intros Hw Hr Hf. unfold newest_published.
  set (t := filter _ (items d)). assert (Hin : r ∈ t) by
    (apply list_elem_of_filter; split; [by apply Z.eqb_eq|done]).
  assert (Hall : forall x, x ∈ t -> nsec (i_published_at x) = 0 /\ four_digit (i_published_at x)).
  { intros x [Hx1 Hx2]%list_elem_of_filter. bools. by apply Hw. }
  destruct (head (order_desc _ t)) as [m|] eqn:E.
  2:{ apply order_desc_nil in E. rewrite E in Hin. by apply elem_of_nil in Hin. }
  exists (i_published_at m).
  assert (Hm : m ∈ t).
  { rewrite <- (order_desc_perm (fun r => formatTime (i_published_at r)) t).
    destruct (order_desc _ t); [done|]. injection E as ->. by left. }
  split; [done|]. split; [|by apply Hall].
  assert (Hle : text_le (i_published_at r) (i_published_at m) = true).
  { by apply (order_desc_head (fun r => formatTime (i_published_at r)) t). }
  rewrite text_le_whole in Hle by (by apply Hall). by bools.
Qed.

(** ** A concrete history, for witnesses *)

Definition t0 : Z := 1767225600 * second.
Definition get {A} (dflt : A) (m : result store_error A) : A :=
  match m with Ok a => a | Err _ => dflt end.

Definition demo_feed : Feed :=
  MkFeed 0 "trivia" "Trivia" "" "en" "generative" "" "" "" 15 true "UTC" zero_time zero_time 0.
Definition demo_item (key hash : string) (published : Z) : Item :=
  MkItem 0 1 key hash "title" "summary" "body" "" no_formats "" "" published [] "generated"
    zero_time zero_time zero_time zero_time 0.
Definition demo_summary : RunSummary := MkSummary 120 30 f64_zero 1 {[ "duplicate"%string := 1 ]}.

Definition d_feed : Content := (get (0, empty_content) (CreateFeed t0 demo_feed empty_content)).2.
Definition d_run : Content := (get (0, d_feed) (StartRun t0 t0 1 "cron" "host" d_feed)).2.
Definition d_done : Content :=
  get d_run (CommitRun true (t0 + 10 * second) 1 [demo_item "k1" "h1" (t0 + 10 * second)] demo_summary [] d_run).
Definition d_sample : Content :=
  (get (0, d_done) (PutSample (t0 + 20 * second) 1 "{}" 50 7 f64_zero (24 * hour) d_done)).2.

Lemma d_run_reachable : rtc content_step empty_content d_run.
Proof.
  eapply rtc_l; [eapply (step_CreateFeed _ t0 demo_feed 1 d_feed); vm_compute; reflexivity|].
  apply rtc_once. eapply (step_StartRun _ t0 t0 1 "cron" "host" 1). vm_compute. reflexivity.
Qed.

Lemma d_done_reachable : rtc content_step empty_content d_done.
Proof.
  eapply rtc_r; [apply d_run_reachable|].
  apply (step_CommitRun _ true (t0 + 10 * second) 1 [demo_item "k1" "h1" (t0 + 10 * second)]
           demo_summary []). vm_compute. reflexivity.
Qed.

Lemma d_sample_reachable : rtc content_step empty_content d_sample.
Proof.
  eapply rtc_r; [apply d_done_reachable|].
  eapply (step_PutSample _ (t0 + 20 * second) 1 "{}" 50 7 f64_zero (24 * hour) 1).
  vm_compute. reflexivity.
Qed.

Lemma reachable_ok d : rtc content_step empty_content d -> content_ok d.
Proof. intros H. by apply history_linked in H as [? _]. Qed.

(** ** Theorems *)



(** whatever the store does later, an item is never removed and keeps its
    id, item key, feed, content hash, creation time and run, while its version
    never goes down; and the ledger of preview spend only ever grows at its end. *)
Theorem item_identity_forever d d' r :
  content_ok d -> rtc content_step d d' -> r ∈ items d ->
  (exists r', r' ∈ items d' /\ item_evolves r r') /\ (exists new, spend d' = spend d ++ new).
Proof.
  intros Hd Hs Hr. destruct (history_evolves d d' Hd Hs) as [(old & new & Hi & Hf) _ Hsp _].
  split; [|done]. apply list_elem_of_lookup in Hr as [i Hi'].
  destruct (Forall2_lookup_l _ _ _ _ _ Hf Hi') as (r' & Hr' & He).
  exists r'. split; [|done]. rewrite Hi. apply elem_of_app. left. by apply list_elem_of_lookup_2 with i.
Qed.

Definition first_item : ItemRow :=
  new_item_row 1 (t0 + 10 * second) (t0 + 10 * second) (Some 1) (demo_item "k1" "h1" (t0 + 10 * second)).

Lemma item_identity_forever_witness :
  (exists r', r' ∈ items d_sample /\ item_evolves first_item r') /\
  (exists new, spend d_sample = spend d_done ++ new).
Proof.
  apply (item_identity_forever d_done d_sample first_item).
  - apply reachable_ok, d_done_reachable.
  - apply rtc_once. eapply (step_PutSample _ (t0 + 20 * second) 1 "{}" 50 7 f64_zero (24 * hour) 1).
    vm_compute. reflexivity.
  - vm_compute. left.
Defined.

(** a run that has been closed, in whatever way, is never changed again by
    any sequence of writes; a running one keeps its id, feed, start and trigger. *)
Theorem closed_run_is_final d d' r :
  content_ok d -> rtc content_step d d' -> r ∈ runs d ->
  exists r', r' ∈ runs d' /\ same_run r r' /\ (r_status r <> Running -> r' = r).
Proof.
  intros Hd Hs Hr. destruct (history_evolves d d' Hd Hs) as [_ (old & new & Hi & Hf) _ _].
  apply list_elem_of_lookup in Hr as [i Hi'].
  destruct (Forall2_lookup_l _ _ _ _ _ Hf Hi') as (r' & Hr' & [He1 He2]).
  exists r'. split; [|done]. rewrite Hi. apply elem_of_app. left. by apply list_elem_of_lookup_2 with i.
Qed.

Lemma closed_run_is_final_witness :
  exists r, r ∈ runs d_done /\ r_status r = Success /\
  exists r', r' ∈ runs d_sample /\ same_run r r' /\ (r_status r <> Running -> r' = r).
Proof.
  destruct (runs d_done) as [|r l] eqn:E; [vm_compute in E; discriminate E|].
  exists r. split; [left|]. split; [vm_compute in E; by injection E as <- _|].
  apply (closed_run_is_final d_done d_sample r).
  - apply reachable_ok, d_done_reachable.
  - apply rtc_once. eapply (step_PutSample _ (t0 + 20 * second) 1 "{}" 50 7 f64_zero (24 * hour) 1).
    vm_compute. reflexivity.
  - rewrite E. left.
Defined.

(** [UpdateItem] conflicts exactly when no row has that id at that version;
    when it succeeds it edits that one row, leaves its identity alone, clears
    the formatted variants, stores a whole second, and moves the version on by
    one, so a second edit from the same version is refused. *)
Theorem update_item_optimistic now it v d :
  content_ok d ->
  (UpdateItem now it v d = Err VersionConflict <->
   forall r, r ∈ items d -> i_id r = ID it -> i_version r <> v) /\
  forall d', UpdateItem now it v d = Ok d' ->
    (exists r r', r ∈ items d /\ r' ∈ items d' /\ i_id r = ID it /\ i_version r = v /\
       item_evolves r r' /\ i_version r' = v + 1 /\ i_formats r' = None /\
       i_title r' = Title it /\ i_published_at r' = truncatePublishedAt (PublishedAt it) /\
       nsec (i_published_at r') = 0) /\
    (forall x, i_id x <> ID it -> x ∈ items d' <-> x ∈ items d) /\
    (forall now2 it2, ID it2 = ID it -> UpdateItem now2 it2 v d' = Err VersionConflict).
Proof.
  intros Hd. split; [apply UpdateItem_conflict|]. intros d' H.
  apply UpdateItem_spec in H as (r & Hr & Hid & Hv & _ & _ & ->); [|done].
  set (f := edit_row now (truncatePublishedAt (PublishedAt it)) it). cbn [items set_items]. split.
  - exists r, (f r). split; [done|]. split.
    { apply elem_of_update. exists r. by rewrite (proj2 (Z.eqb_eq _ _) Hid). }
    repeat split; try done; cbn; try lia. apply truncate_whole.
  - split.
    + intros x Hx. rewrite elem_of_update. split.
      * intros (x0 & Hx0 & Hxe). destruct (i_id x0 =? ID it) eqn:E; bools; [|congruence].
        exfalso. apply Hx. rewrite Hxe. exact E.
      * intros Hin. exists x. by rewrite (proj2 (Z.eqb_neq _ _) Hx).
    + intros now2 it2 H2. apply UpdateItem_conflict. intros x Hx Hxid. cbn in Hx.
      apply elem_of_update in Hx as (x0 & Hx0 & ->).
      destruct (i_id x0 =? ID it) eqn:E; bools.
      * assert (x0 = r) as -> by (eapply (ids_inj (items d)); [apply Hd|done..|]; cbv [row_id row_item]; congruence).
        cbn. lia.
      * congruence.
Qed.

(** The second of two edits from version 1 is refused. *)
Lemma update_item_optimistic_witness :
  exists d1, UpdateItem t0 (MkItem 1 1 "" "" "new title" "s" "b" "" no_formats "" "" t0 [] "manual"
               zero_time zero_time zero_time zero_time 0) 1 d_done = Ok d1 /\
    UpdateItem t0 (MkItem 1 1 "" "" "other title" "s" "b" "" no_formats "" "" t0 [] "manual"
               zero_time zero_time zero_time zero_time 0) 1 d1 = Err VersionConflict.
Proof.
  eexists. split; [vm_compute; reflexivity|].
  assert (Hd : content_ok d_done) by apply reachable_ok, d_done_reachable.
  eapply (update_item_optimistic t0 (MkItem 1 1 "" "" "new title" "s" "b" "" no_formats "" "" t0 [] "manual"
               zero_time zero_time zero_time zero_time 0) 1 d_done Hd); [vm_compute; reflexivity|reflexivity].
Defined.



(** in every state the store can reach, the boot watchdog closes exactly the
    running runs whose heartbeat is older than the limit, all of them as
    interrupted and none as completed-unconfirmed, and touches nothing else. *)
Theorem watchdog_truthful checked now older d :
  rtc content_step empty_content d ->
  let stale_ids := r_id <$> filter (fun r => stale (checked - older) r = true) (runs d) in
  exists d', ReclaimStaleRuns checked now older d = (length stale_ids, 0%nat, d') /\
    d' = set_runs (runs d') d /\
    forall r, r ∈ runs d ->
      (stale (checked - older) r = true -> close_stale now Interrupted r ∈ runs d') /\
      (stale (checked - older) r = false -> r ∈ runs d').
Proof.
  intros Hr l. destruct (history_linked d Hr) as [Hd Hl].
  rewrite (reclaim_linked checked now older d Hl). eexists. split; [reflexivity|]. split; [done|].
  intros r Hin. cbn [runs set_runs]. fold l. split; intros Hs.
  - apply list_elem_of_fmap. exists r. split; [|done]. unfold mark.
    rewrite bool_decide_eq_true_2 by (apply list_elem_of_fmap_2, list_elem_of_filter; done).
    unfold stale in Hs. bools. by rewrite H.
  - apply list_elem_of_fmap. exists r. split; [|done]. unfold mark.
    destruct (bool_decide (r_id r ∈ l)) eqn:E; [|done]. bools.
    apply list_elem_of_fmap in E as (r2 & Hid & [Hst2 Hr2]%list_elem_of_filter).
    assert (r = r2) as <- by (by apply (ids_inj (runs d)); [apply Hd|..]). congruence.
Qed.

(** Four minutes after its last heartbeat the run is stale. *)
Lemma watchdog_truthful_witness :
  (ReclaimStaleRuns (t0 + 4 * minute) (t0 + 4 * minute) (3 * minute) d_run).1 = (1, 0)%nat /\
  exists d', ReclaimStaleRuns (t0 + 4 * minute) (t0 + 4 * minute) (3 * minute) d_run =
    (length (r_id <$> filter (fun r => stale (t0 + 4 * minute - 3 * minute) r = true) (runs d_run)), 0%nat, d').
Proof.
  split; [vm_compute; reflexivity|].
  destruct (watchdog_truthful (t0 + 4 * minute) (t0 + 4 * minute) (3 * minute) d_run d_run_reachable)
    as (d' & H & _). by exists d'.
Defined.

(** once [StartRun] has opened a run, a second start for the same feed is
    refused for three minutes, and after a heartbeat for three minutes more,
    provided the feed's other running rows, abandoned ones, started in an
    earlier second. *)
Theorem start_run_single_flight checked now feed trig holder d id d1 :
  content_ok d -> StartRun checked now feed trig holder d = Ok (id, d1) ->
  0 < now -> four_digit now ->
  (forall r, r ∈ runs d -> running_on feed r ->
     unix (r_started_at r) < unix now /\ four_digit (r_started_at r)) ->
  (forall checked2 now2 trig2 holder2, checked2 - now < runLockStaleAfter ->
     StartRun checked2 now2 feed trig2 holder2 d1 = Err RunInProgress) /\
  (forall h d2 checked2 now2 trig2 holder2, 0 < h -> Heartbeat h id d1 = Ok d2 ->
     checked2 - h < runLockStaleAfter ->
     StartRun checked2 now2 feed trig2 holder2 d2 = Err RunInProgress).
Proof.
  intros Hd Hs Hnow H4 Hother. pose proof (StartRun_ok _ _ _ _ _ _ _ _ Hd Hs) as Hd1.
  apply StartRun_spec in Hs as (_ & _ & _ & -> & ->).
  set (row := started_row d now feed trig holder) in *.
  assert (Hfresh : forall c h r, 0 < h -> r_heartbeat_at r = Some h -> c - h < runLockStaleAfter ->
                                 fresh c r = true).
  { intros c h r Hh Hr Hc. unfold fresh. rewrite Hr. cbn. unfold is_zero, zero_time, second.
    apply andb_true_iff. split; [|by apply Z.ltb_lt]. apply negb_true_iff, Z.eqb_neq. lia. }
  split.
  - intros c n t h Hc. apply StartRun_blocked with row; [|by eapply Hfresh].
    apply newest_running_unique; [apply Hd1| |done|done|].
    + cbn. apply elem_of_app. right. by left.
    + intros y [Hy| ->%list_elem_of_singleton]%elem_of_app Hyr Hne; [by apply Hother|done].
  - intros h d2 c n t hd Hh Hb Hc. unfold Heartbeat in Hb.
    assert (Hd2 : content_ok d2) by (by eapply (update_run_ok _ (beat h))).
    apply update_run_spec in Hb as (_ & ->).
    apply StartRun_blocked with (beat h row); [|by eapply Hfresh].
    apply newest_running_unique; [apply Hd2| |done|done|].
    + cbn. apply elem_of_update. exists row. split; [apply elem_of_app; right; by left|].
      unfold open_run. by rewrite Z.eqb_refl.
    + intros y Hy Hyr Hne. cbn in Hy. apply elem_of_update in Hy as (y0 & Hy0 & ->).
      apply elem_of_app in Hy0 as [Hy0| ->%list_elem_of_singleton].
      * destruct (open_run (next_id (runs d)) y0) eqn:E; [|by apply Hother].
        unfold open_run in E. bools. exfalso. apply (next_id_notin (runs d)). rewrite <- H.
        by apply list_elem_of_fmap_2.
      * by destruct (open_run _ row).
Qed.

Lemma start_run_single_flight_witness :
  StartRun (t0 + 2 * minute) (t0 + 2 * minute) 1 "manual" "other" d_run = Err RunInProgress.
Proof.
  assert (H : StartRun t0 t0 1 "cron" "host" d_feed = Ok (1, d_run)) by (vm_compute; reflexivity).
  refine (proj1 (start_run_single_flight t0 t0 1 "cron" "host" d_feed 1 d_run _ _ _ _ _) _ _ _ _ _).
  - apply reachable_ok. eapply rtc_once, (step_CreateFeed _ t0 demo_feed 1 d_feed). vm_compute. reflexivity.
  - exact H.
  - vm_compute. reflexivity.
  - split; vm_compute; discriminate.
  - intros r Hr. vm_compute in Hr. by apply elem_of_nil in Hr.
  - vm_compute. reflexivity.
Defined.

(** The runs of feed 1 after: a start at 0:00, a second at 4:00 while the first
    stalls, and heartbeats of the first at 5:00 and 7:59. *)
Definition d_revived : Content :=
  let d1 := (get (0, d_run) (StartRun (t0 + 4 * minute) (t0 + 4 * minute) 1 "cron" "second" d_run)).2 in
  let d2 := get d1 (Heartbeat (t0 + 5 * minute) 1 d1) in
  get d2 (Heartbeat (t0 + 8 * minute - second) 1 d2).

(** the lock only looks at the newest running row.  A run that stalled past
    the limit and came back, with a heartbeat one second old, does not hold the
    feed's lock when a run started meanwhile has stalled in turn: a third run is
    started beside it. *)
Theorem revived_run_does_not_lock :
  rtc content_step empty_content d_revived /\
  (exists r, r ∈ runs d_revived /\ running_on 1 r /\ fresh (t0 + 8 * minute) r = true) /\
  is_ok (StartRun (t0 + 8 * minute) (t0 + 8 * minute) 1 "cron" "third" d_revived) = true.
Proof.
  split; [|split].
  - etrans; [apply d_run_reachable|].
    eapply rtc_l; [eapply (step_StartRun _ (t0 + 4 * minute) (t0 + 4 * minute) 1 "cron" "second" 2);
                   vm_compute; reflexivity|].
    eapply rtc_l; [apply (step_Heartbeat _ (t0 + 5 * minute) 1); vm_compute; reflexivity|].
    apply rtc_once, (step_Heartbeat _ (t0 + 8 * minute - second) 1). vm_compute. reflexivity.
  - eexists. split; [vm_compute; left|]. split; [done|vm_compute; reflexivity].
  - vm_compute. reflexivity.
Qed.

(** what previews cost cannot be erased: discarding, pruning or promoting a
    sample leaves every spend total as it was, and recording one adds its tokens
    to every total whose window and feed include it. *)
Theorem preview_spend_survives sql_sum feed since d d' :
  (forall id, DiscardSample id d = Ok d' ->
     TotalSpendSince sql_sum feed since d' = TotalSpendSince sql_sum feed since d) /\
  (forall now n, PruneExpiredSamples now d = (n, d') ->
     TotalSpendSince sql_sum feed since d' = TotalSpendSince sql_sum feed since d) /\
  (forall clock now id it i, PromoteSample clock now id it d = Ok (i, d') ->
     TotalSpendSince sql_sum feed since d' = TotalSpendSince sql_sum feed since d) /\
  (forall now fd payload ti to cost ttl id, PutSample now fd payload ti to cost ttl d = Ok (id, d') ->
     let counted := text_le since now && in_feed feed fd in
     (TotalSpendSince sql_sum feed since d').1 =
     ((TotalSpendSince sql_sum feed since d).1.1 + (if counted then ti else 0),
      (TotalSpendSince sql_sum feed since d).1.2 + (if counted then to else 0))).
Proof.
  split; [|split; [|split]].
  - intros id H. unfold DiscardSample in H. case_match; [done|]. by injection H as <-.
  - intros now n H. by injection H as _ <-.
  - intros clock now id it i H. unfold PromoteSample, promote_from in H. case_match; [|done].
    apply promote_loop_spec in H as (k & t & _ & (d1 & _ & Hi & _ & ->)%promoteOnce_spec).
    by apply insert_item_spec in Hi as (-> & _).
  - intros now fd payload ti to cost ttl id H counted. unfold PutSample in H. case_match; [done|].
    injection H as _ <-. unfold TotalSpendSince, SpendSince, SampleSpendSince. cbn [fst snd runs spend set_samples set_spend].
    rewrite filter_app, filter_cons, filter_nil. cbn [sp_at sp_feed_id]. fold counted.
    unfold sum_int. destruct counted; [rewrite decide_True by done|rewrite decide_False by done].
    + rewrite !fmap_app, !zsum_app. cbn. f_equal; lia.
    + rewrite app_nil_r. f_equal; lia.
Qed.

Definition d_discarded : Content := get d_sample (DiscardSample 1 d_sample).

Lemma preview_spend_survives_witness :
  DiscardSample 1 d_sample = Ok d_discarded /\ samples d_discarded = [] /\
  TotalSpendSince (fun _ => f64_zero) 0 t0 d_discarded = TotalSpendSince (fun _ => f64_zero) 0 t0 d_sample /\
  (TotalSpendSince (fun _ => f64_zero) 0 t0 d_discarded).1 = (170, 37).
Proof.
  assert (H : DiscardSample 1 d_sample = Ok d_discarded) by (vm_compute; reflexivity).
  split; [exact H|]. split; [vm_compute; reflexivity|]. split; [|vm_compute; reflexivity].
  exact (proj1 (preview_spend_survives (fun _ => f64_zero) 0 t0 d_sample d_discarded) 1 H).
Defined.

(** in a feed whose items are published on whole seconds, promoting a sample
    appends one item to the sample's own feed, on a whole second strictly after
    every item the feed already has, and removes the sample in the same step;
    nothing else changes. *)
Theorem promote_after_newest clock now id it d i d' s :
  content_ok d -> find_id id (samples d) = Some s -> whole_seconds (s_feed_id s) d ->
  PromoteSample clock now id it d = Ok (i, d') ->
  exists r, d' = set_samples (delete_where (has_id id) (samples d)) (set_items (items d ++ [r]) d) /\
    i_id r = i /\ i_feed_id r = s_feed_id s /\ i_item_key r = ItemKey it /\
    nsec (i_published_at r) = 0 /\ truncate clock second <= i_published_at r /\
    (forall x, x ∈ items d -> i_feed_id x = s_feed_id s -> i_published_at x < i_published_at r).
Proof.
  intros Hd Hs Hw H. unfold PromoteSample, promote_from in H. rewrite Hs in H.
  apply promote_loop_spec in H as (k & t & Hk & (d1 & Hid & Hi & _ & ->)%promoteOnce_spec).
  apply insert_item_spec in Hi as (-> & _).
  set (stamp := promote_stamp clock (newest_published (s_feed_id s) d)) in *.
  eexists. split; [reflexivity|]. split; [done|]. split; [done|]. split; [done|].
  cbn [i_published_at new_item_row].
  assert (Hst : nsec stamp = 0 /\ truncate clock second <= stamp /\
          forall x, x ∈ items d -> i_feed_id x = s_feed_id s -> i_published_at x < stamp).
  { unfold stamp, promote_stamp. pose proof (truncate_whole clock) as Ht.
    unfold truncatePublishedAt in Ht.
    assert (Hn : nsec (default zero_time (newest_published (s_feed_id s) d)) = 0).
    { destruct (newest_published (s_feed_id s) d) as [n|] eqn:En; [|done].
      unfold newest_published in En. apply fmap_Some in En as (m & Em & ->). cbn.
      assert (Hm : m ∈ items d /\ i_feed_id m = s_feed_id s).
      { set (tt := filter _ (items d)) in Em. assert (Hmt : m ∈ tt).
        { rewrite <- (order_desc_perm (fun r => formatTime (i_published_at r)) tt).
          destruct (order_desc _ tt); [done|]. injection Em as ->. by left. }
        apply list_elem_of_filter in Hmt as [Hm1 Hm2]. by bools. }
      apply (Hw m (proj1 Hm) (proj2 Hm)). }
    set (nw := default zero_time _) in *.
    assert (Hmax : forall x, x ∈ items d -> i_feed_id x = s_feed_id s -> i_published_at x <= nw).
    { intros x Hx Hxf. destruct (newest_published_max _ d x Hw Hx Hxf) as (n & Hn' & Hle & _).
      unfold nw. by rewrite Hn'. }
    destruct (nw <? truncate clock second) eqn:E; cbn [negb]; bools.
    - split; [done|]. split; [lia|]. intros x Hx Hxf. specialize (Hmax x Hx Hxf). lia.
    - unfold nsec, second in *. split; [dlia|]. split; [lia|].
      intros x Hx Hxf. specialize (Hmax x Hx Hxf). lia. }
  destruct Hst as (H1 & H2 & H3). split; [unfold nsec, second in *; dlia|].
  split; [unfold second in *; lia|]. intros x Hx Hxf. specialize (H3 x Hx Hxf). unfold second. lia.
Qed.

Definition d_promoted : Content :=
  (get (0, d_sample) (PromoteSample (t0 + 5 * second) (fun _ => t0) 1 (demo_item "k2" "h2" 0) d_sample)).2.

Lemma promote_after_newest_witness :
  exists s, find_id 1 (samples d_sample) = Some s /\
  exists r, d_promoted = set_samples (delete_where (has_id 1) (samples d_sample))
                     (set_items (items d_sample ++ [r]) d_sample) /\
      i_id r = 2 /\ i_feed_id r = s_feed_id s /\ i_item_key r = "k2"%string /\
      nsec (i_published_at r) = 0 /\ truncate (t0 + 5 * second) second <= i_published_at r /\
      (forall x, x ∈ items d_sample -> i_feed_id x = s_feed_id s -> i_published_at x < i_published_at r).
Proof.
  destruct (find_id 1 (samples d_sample)) as [s|] eqn:Es; [|vm_compute in Es; discriminate Es].
  exists s. split; [reflexivity|].
  apply (promote_after_newest (t0 + 5 * second) (fun _ => t0) 1 (demo_item "k2" "h2" 0) d_sample
           2 d_promoted s).
  - apply reachable_ok, d_sample_reachable.
  - exact Es.
  - intros r Hr _. vm_compute in Hr. apply list_elem_of_singleton in Hr as ->.
    split; [reflexivity|]. split; vm_compute; discriminate.
  - vm_compute. reflexivity.
Defined.

(** The only run of the day started half a second past midnight UTC. *)
Definition d_midnight : Content :=
  let d1 := (get (0, d_feed) (StartRun (t0 + 500000000) (t0 + 500000000) 1 "cron" "host" d_feed)).2 in
  get d1 (FailRun (t0 + 10 * second) 1 "provider" "timeout" demo_summary d1).

(** a spend window that opens at midnight does not count a run that started
    later in that first second: its start compares as text, and
    [00:00:00.5Z] sorts before [00:00:00Z]. *)
Theorem spend_window_misses_first_second sql_sum :
  rtc content_step empty_content d_midnight /\
  (exists r, r ∈ runs d_midnight /\ t0 <= r_started_at r /\ r_tokens_in r = 120) /\
  SpendSince sql_sum 0 t0 d_midnight = (0, 0, f64_zero) /\
  (SpendSince sql_sum 0 (t0 - second) d_midnight).1 = (120, 30).
Proof.
  split; [|split; [|split]].
  - eapply rtc_l; [apply (step_CreateFeed _ t0 demo_feed 1 d_feed); vm_compute; reflexivity|].
    eapply rtc_l; [eapply (step_StartRun _ (t0 + 500000000) (t0 + 500000000) 1 "cron" "host" 1);
                   vm_compute; reflexivity|].
    apply rtc_once, (step_FailRun _ (t0 + 10 * second) 1 "provider" "timeout" demo_summary).
    vm_compute. reflexivity.
  - eexists. split; [vm_compute; left|]. split; [vm_compute; discriminate|reflexivity].
  - vm_compute. reflexivity.
  - vm_compute. reflexivity.
Qed.
