(* ===== verification/StoreAuth.v ===== *)
(** * Authentication state: internal/store/auth.go, internal/auth

    The admin row, TOTP steps, recovery codes, sessions, reset tokens and audit
    events, and the pure checks of internal/auth made on them. *)

From S2P Require Import Prelude GoTime GoStrings Timestamps Tables Schema StoreItems.
From Stdlib Require Import String Ascii.
Local Abbreviation length := List.length.

(** ** Rows: migrations/0001, 0004, 0005 *)

Record Admin := MkAdmin {
  a_password_hash : string; a_kdf_params : string; a_totp_secret_enc : option string;
  a_created_at : Z; a_password_changed_at : option Z; a_pepper_version : Z }.

Record CodeRow := MkCode { c_id : Z; c_hash : string; c_used_at : option Z }.
Record StepRow := MkStep { st_step : Z; st_code_hash : string; st_at : Z }.
Record SessionRow := MkSession {
  se_id : Z; se_token_hash : string; se_created_at : Z; se_last_seen_at : Z; se_expires_at : Z;
  se_ip : option string; se_user_agent : option string; se_revoked_at : option Z; se_scope : string }.
Record TokenRow := MkToken { tk_id : Z; tk_hash : string; tk_expires_at : Z; tk_used_at : option Z }.
Record EventRow := MkEvent {
  ev_id : Z; ev_at : Z; ev_kind : string; ev_ip : option string; ev_ok : bool; ev_detail : option string }.

#[export] Instance row_code : Row CodeRow := c_id.
#[export] Instance row_step : Row StepRow := st_step.
#[export] Instance row_session : Row SessionRow := se_id.
#[export] Instance row_token : Row TokenRow := tk_id.
#[export] Instance row_event : Row EventRow := ev_id.

Record AuthDB := MkAuthDB {
  admin : option Admin; codes : list CodeRow; steps : list StepRow; sessions : list SessionRow;
  tokens : list TokenRow; events : list EventRow }.

Definition empty_auth : AuthDB := MkAuthDB None [] [] [] [] [].

Definition set_admin (x : option Admin) (d : AuthDB) :=
  MkAuthDB x (codes d) (steps d) (sessions d) (tokens d) (events d).
Definition set_codes (x : list CodeRow) (d : AuthDB) :=
  MkAuthDB (admin d) x (steps d) (sessions d) (tokens d) (events d).
Definition set_steps (x : list StepRow) (d : AuthDB) :=
  MkAuthDB (admin d) (codes d) x (sessions d) (tokens d) (events d).
Definition set_sessions (x : list SessionRow) (d : AuthDB) :=
  MkAuthDB (admin d) (codes d) (steps d) x (tokens d) (events d).
Definition set_tokens (x : list TokenRow) (d : AuthDB) :=
  MkAuthDB (admin d) (codes d) (steps d) (sessions d) x (events d).
Definition set_events (x : list EventRow) (d : AuthDB) :=
  MkAuthDB (admin d) (codes d) (steps d) (sessions d) (tokens d) x.

(** ** The admin *)

Definition InitAdmin (now : Z) (hash kdf : string) (d : AuthDB) : result store_error AuthDB :=
  match admin d with
  | Some _ => Err AdminExists
  | None => Ok (set_admin (Some (MkAdmin hash kdf None now None 0)) d)
  end.

Definition GetAdmin (d : AuthDB) : result store_error Admin :=
  match admin d with Some a => Ok a | None => Err NotFound end.

Definition write_password (now : Z) (hash kdf : string) (pepper : Z) (a : Admin) : Admin :=
  MkAdmin hash kdf (a_totp_secret_enc a) (a_created_at a) (Some now) pepper.

(** An [UPDATE admin ... WHERE id = 1]; no row is [ErrNotFound]. *)
Definition update_admin (f : Admin -> Admin) (d : AuthDB) : result store_error AuthDB :=
  match admin d with
  | Some a => Ok (set_admin (Some (f a)) d)
  | None => Err NotFound
  end.

Definition UpdatePasswordAndPepper (now : Z) (hash kdf : string) (pepper : Z) (d : AuthDB)
    : result store_error AuthDB := update_admin (write_password now hash kdf pepper) d.

Definition UpdatePassword (now : Z) (hash kdf : string) (d : AuthDB) : result store_error AuthDB :=
  update_admin (write_password now hash kdf 0) d.

Definition SetTOTPSecret (enc : option string) (d : AuthDB) : result store_error AuthDB :=
  update_admin (fun a => MkAdmin (a_password_hash a) (a_kdf_params a) enc (a_created_at a)
                           (a_password_changed_at a) (a_pepper_version a)) d.

Definition GetTOTPSecret (d : AuthDB) : result store_error (option string) :=
  match admin d with Some a => Ok (a_totp_secret_enc a) | None => Err NotFound end.

(** The primary key on [step] decides. *)
Definition MarkTOTPStepUsed (now step : Z) (codeHash : string) (d : AuthDB) : result store_error AuthDB :=
  if bool_decide (step ∈ ids (steps d)) then Err TOTPReplay
  else Ok (set_steps (steps d ++ [MkStep step codeHash now]) d).

(** ** Recovery codes *)

Fixpoint insert_codes (hashes : list string) (t : list CodeRow) : result store_error (list CodeRow) :=
  match hashes with
  | [] => Ok t
  | h :: rest =>
      if bool_decide (h ∈ c_hash <$> t) then Err UniqueViolation
      else insert_codes rest (t ++ [MkCode (next_id t) h None])
  end.

Definition StoreRecoveryCodes (hashes : list string) (d : AuthDB) : result store_error AuthDB :=
  let? t := insert_codes hashes [] in Ok (set_codes t d).

Definition use_code (now : Z) (r : CodeRow) : CodeRow := MkCode (c_id r) (c_hash r) (Some now).

Definition unused (id : Z) (r : CodeRow) : bool := (c_id r =? id) && bool_decide (c_used_at r = None).

(** [ORDER BY id ASC LIMIT 1 OFFSET index]: the table is in id order. *)
Definition UseRecoveryCode (now index : Z) (d : AuthDB) : result store_error AuthDB :=
  if index <? 0 then Err (NegativeIndex index) else
  match codes d !! Z.to_nat index with
  | None => Err NotFound
  | Some r =>
      if (affected (unused (c_id r)) (codes d) =? 0)%nat then Err RecoveryCodeUsed
      else Ok (set_codes (update_where (unused (c_id r)) (use_code now) (codes d)) d)
  end.

Definition CountUnusedRecoveryCodes (d : AuthDB) : nat :=
  affected (fun r => bool_decide (c_used_at r = None)) (codes d).

(** ** Sessions *)

Record Session := MkSess {
  TokenHash : string; ss_CreatedAt : Z; LastSeenAt : Z; ExpiresAt : Z; IP : string; UserAgent : string;
  RevokedAt : Z }.

Definition scanSession (r : SessionRow) : Z * Session :=
  (se_id r, MkSess (se_token_hash r) (se_created_at r) (se_last_seen_at r) (se_expires_at r)
              (of_null (se_ip r)) (of_null (se_user_agent r)) (of_null_time (se_revoked_at r))).

Definition SessionScopeFull : string := "full".
Definition SessionScopeElevated : string := "elevated".

Definition CreateSession (s : Session) (d : AuthDB) : result store_error (Z * AuthDB) :=
  let id := next_id (sessions d) in
  let revoked := if is_zero (RevokedAt s) then None else Some (RevokedAt s) in
  let row := MkSession id (TokenHash s) (ss_CreatedAt s) (LastSeenAt s) (ExpiresAt s)
               (nullString (IP s)) (nullString (UserAgent s)) revoked SessionScopeFull in
  if bool_decide (TokenHash s ∈ se_token_hash <$> sessions d) then Err UniqueViolation
  else Ok (id, set_sessions (sessions d ++ [row]) d).

Definition GetSessionByTokenHash (hash : string) (d : AuthDB) : result store_error Session :=
  match List.find (fun r => bool_decide (se_token_hash r = hash)) (sessions d) with
  | Some r => Ok (scanSession r).2
  | None => Err NotFound
  end.

(** An [UPDATE sessions ... WHERE id = ?]; no row is [ErrNotFound]. *)
Definition is_session (id : Z) (r : SessionRow) : bool := se_id r =? id.
Definition update_session (id : Z) (f : SessionRow -> SessionRow) (d : AuthDB) : result store_error AuthDB :=
  if (affected (is_session id) (sessions d) =? 0)%nat then Err NotFound
  else Ok (set_sessions (update_where (is_session id) f (sessions d)) d).

Definition TouchSession (id at_ : Z) (d : AuthDB) : result store_error AuthDB :=
  update_session id (fun r => MkSession (se_id r) (se_token_hash r) (se_created_at r) at_ (se_expires_at r)
                       (se_ip r) (se_user_agent r) (se_revoked_at r) (se_scope r)) d.

(** [revoked_at = COALESCE(revoked_at, now)]. *)
Definition revoke (now : Z) (r : SessionRow) : SessionRow :=
  MkSession (se_id r) (se_token_hash r) (se_created_at r) (se_last_seen_at r) (se_expires_at r)
    (se_ip r) (se_user_agent r)
    (Some (match se_revoked_at r with Some t => t | None => now end)) (se_scope r).

Definition RevokeSession (now id : Z) (d : AuthDB) : result store_error AuthDB :=
  update_session id (revoke now) d.

Definition active (r : SessionRow) : bool := bool_decide (se_revoked_at r = None).

Definition RevokeAllSessions (now : Z) (d : AuthDB) : AuthDB :=
  set_sessions (update_where active (revoke now) (sessions d)) d.

Definition ListSessions (d : AuthDB) : list Session :=
  (fun r => (scanSession r).2) <$> order_desc (fun r => formatTime (se_created_at r)) (sessions d).

(** The CHECK on the scope is evaluated for the rows the [WHERE] selects. *)
Definition SetSessionScope (id : Z) (scope : string) (d : AuthDB) : result store_error AuthDB :=
  if negb (affected (is_session id) (sessions d) =? 0)%nat &&
     negb (bool_decide (scope ∈ [SessionScopeFull; SessionScopeElevated]))
  then Err CheckViolation
  else update_session id (fun r => MkSession (se_id r) (se_token_hash r) (se_created_at r)
         (se_last_seen_at r) (se_expires_at r) (se_ip r) (se_user_agent r) (se_revoked_at r) scope) d.

Definition SessionScope (id : Z) (d : AuthDB) : result store_error string :=
  match find_id id (sessions d) with Some r => Ok (se_scope r) | None => Err NotFound end.

Definition PurgeExpiredSessions (now : Z) (d : AuthDB) : nat * AuthDB :=
  let p r := text_lt (se_expires_at r) now in
  (affected p (sessions d), set_sessions (delete_where p (sessions d)) d).

(** ** Reset tokens *)

Definition CreatePasswordResetToken (hash : string) (expires : Z) (d : AuthDB) : result store_error AuthDB :=
  if bool_decide (hash ∈ tk_hash <$> tokens d) then Err UniqueViolation
  else Ok (set_tokens (tokens d ++ [MkToken (next_id (tokens d)) hash expires None]) d).

Definition live (now : Z) (r : TokenRow) : bool :=
  bool_decide (tk_used_at r = None) && text_lt now (tk_expires_at r).

Definition ActiveResetTokenHashes (now : Z) (d : AuthDB) : list string :=
  tk_hash <$> filter (fun r => live now r = true) (tokens d).

Definition use_token (now : Z) (r : TokenRow) : TokenRow :=
  MkToken (tk_id r) (tk_hash r) (tk_expires_at r) (Some now).

(** The three updates of one transaction. *)
Definition CompletePasswordReset (hash : string) (now : Z) (newHash kdf : string) (pepper : Z) (d : AuthDB)
    : result store_error AuthDB :=
  let hit r := bool_decide (tk_hash r = hash) && live now r in
  if (affected hit (tokens d) =? 0)%nat then Err ResetTokenInvalid
  else
    let d1 := set_tokens (update_where hit (use_token now) (tokens d)) d in
    let d2 := set_admin (write_password now newHash kdf pepper <$> admin d1) d1 in
    Ok (RevokeAllSessions now d2).

(** ** Audit events *)

Definition RecordAuthEvent (now : Z) (kind ip : string) (ok : bool) (detail : string) (d : AuthDB) : AuthDB :=
  set_events (events d ++ [MkEvent (next_id (events d)) now kind (nullString ip) ok (nullString detail)]) d.

Definition ListAuthEvents (n : Z) (d : AuthDB) : list EventRow :=
  limit (cap n) (order_desc (fun r => formatTime (ev_at r)) (events d)).

(** A NULL address equals no [ip]. *)
Definition RecentFailures (ip : string) (since : Z) (d : AuthDB) : nat :=
  affected (fun r => bool_decide (ev_ip r = Some ip) && negb (ev_ok r) && text_le since (ev_at r)) (events d).

(** ** Checks: internal/auth *)

(** [Session.Valid]. *)
Definition Valid (now idle : Z) (s : Session) : bool :=
  if negb (is_zero (RevokedAt s)) && negb (now <? RevokedAt s) then false
  else if negb (now <? ExpiresAt s) then false
  else if idle <=? dur_sub now (LastSeenAt s) then false
  else true.

Definition totpPeriod : Z := 30.
Definition totpSkew : Z := 1.

Section totp.
(** [hotp.ValidateCustom] for six digits and SHA-1, of a third-party package:
    [None] when the code or the secret is malformed. *)
Context (hotp : string -> Z -> string -> option bool).

Fixpoint try_steps (secret code : string) (l : list Z) : option Z :=
  match l with
  | [] => None
  | c :: rest =>
      if c <? 0 then try_steps secret code rest
      else match hotp code c secret with
           | None => None
           | Some true => Some c
           | Some false => try_steps secret code rest
           end
  end.

(** The step the code belongs to: [None] is [ok = false].  Go's integer
    division truncates toward zero. *)
Definition ValidateCode (secret code : string) (now : Z) : option Z :=
  if is_empty code then None
  else
    let center := Z.quot (unix now) totpPeriod in
    try_steps secret code [center; center + 1; center - 1].
End totp.

(** ** Histories *)

Inductive auth_label := MintSession (hash : string) | NewCodes | ScopeWrite | OtherWrite.

(** Every successful write, labelled with what it creates. *)
Inductive auth_step (d : AuthDB) : auth_label -> AuthDB -> Prop :=
| au_Init now h k d' : InitAdmin now h k d = Ok d' -> auth_step d OtherWrite d'
| au_Password now h k d' : UpdatePassword now h k d = Ok d' -> auth_step d OtherWrite d'
| au_Pepper now h k p d' : UpdatePasswordAndPepper now h k p d = Ok d' -> auth_step d OtherWrite d'
| au_SetTOTP e d' : SetTOTPSecret e d = Ok d' -> auth_step d OtherWrite d'
| au_Mark now s h d' : MarkTOTPStepUsed now s h d = Ok d' -> auth_step d OtherWrite d'
| au_Codes hs d' : StoreRecoveryCodes hs d = Ok d' -> auth_step d NewCodes d'
| au_Use now i d' : UseRecoveryCode now i d = Ok d' -> auth_step d OtherWrite d'
| au_Create s id d' : CreateSession s d = Ok (id, d') -> auth_step d (MintSession (TokenHash s)) d'
| au_Touch id t d' : TouchSession id t d = Ok d' -> auth_step d OtherWrite d'
| au_Revoke now id d' : RevokeSession now id d = Ok d' -> auth_step d OtherWrite d'
| au_RevokeAll now : auth_step d OtherWrite (RevokeAllSessions now d)
| au_Scope id s d' : SetSessionScope id s d = Ok d' -> auth_step d ScopeWrite d'
| au_Purge now n d' : PurgeExpiredSessions now d = (n, d') -> auth_step d OtherWrite d'
| au_Token h e d' : CreatePasswordResetToken h e d = Ok d' -> auth_step d OtherWrite d'
| au_Reset h now nh k p d' : CompletePasswordReset h now nh k p d = Ok d' -> auth_step d OtherWrite d'
| au_Event now k ip ok det : auth_step d OtherWrite (RecordAuthEvent now k ip ok det d).

(** A history all of whose labels satisfy [P]. *)
Definition auth_history (P : auth_label -> Prop) : relation AuthDB :=
  rtc (fun d d' => exists l, P l /\ auth_step d l d').

(** What a step can do to each table. *)
Definition token_evolves (r r' : TokenRow) : Prop :=
  tk_id r' = tk_id r /\ tk_hash r' = tk_hash r /\ tk_expires_at r' = tk_expires_at r /\
  (tk_used_at r <> None -> tk_used_at r' = tk_used_at r).

Definition session_evolves (r r' : SessionRow) : Prop :=
  se_id r' = se_id r /\ se_token_hash r' = se_token_hash r /\ se_expires_at r' = se_expires_at r /\
  (se_revoked_at r <> None -> se_revoked_at r' = se_revoked_at r).

Definition code_evolves (r r' : CodeRow) : Prop :=
  c_id r' = c_id r /\ c_hash r' = c_hash r /\ (c_used_at r <> None -> c_used_at r' <> None).

Record auth_change (l : auth_label) (d d' : AuthDB) : Prop := {
  ac_steps : exists new, steps d' = steps d ++ new;
  ac_tokens : exists old new, tokens d' = old ++ new /\ Forall2 token_evolves (tokens d) old;
  ac_codes : l <> NewCodes -> Forall2 code_evolves (codes d) (codes d');
  ac_sessions : forall r', r' ∈ sessions d' ->
    l = MintSession (se_token_hash r') \/ exists r, r ∈ sessions d /\ session_evolves r r' }.

#[export] Instance token_evolves_refl : Reflexive token_evolves.
Proof. by intros r. Qed.
#[export] Instance session_evolves_refl : Reflexive session_evolves.
Proof. by intros r. Qed.
#[export] Instance code_evolves_refl : Reflexive code_evolves.
Proof. by intros r. Qed.

Lemma Forall2_update_where {R} (P : relation R) `{!Reflexive P} p f (t : list R) :
  (forall r, p r = true -> P r (f r)) -> Forall2 P t (update_where p f t).
Proof.
  intros Hf. unfold update_where. induction t as [|r t IH]; simpl; constructor; [|done].
  destruct (p r) eqn:E; [by apply Hf|done].
Qed.

(** A change that leaves all tables but the sessions alone. *)
Lemma change_sessions l d x :
  (forall r', r' ∈ x ->
    l = MintSession (se_token_hash r') \/ exists r, r ∈ sessions d /\ session_evolves r r') ->
  auth_change l d (set_sessions x d).
Proof.
  intros H. split; cbn; [exists []; by rewrite app_nil_r|exists (tokens d), []|by intros _|done].
  rewrite app_nil_r. by split.
Qed.

Lemma change_update_sessions l p f d :
  (forall r, session_evolves r (f r)) -> auth_change l d (set_sessions (update_where p f (sessions d)) d).
Proof.
  intros Hf. apply change_sessions. intros r' (r & Hr & ->)%elem_of_update. right. exists r.
  split; [done|]. by destruct (p r).
Qed.

(** A change of the other tables. *)
Lemma change_rest l d d' ns ot nt :
  steps d' = steps d ++ ns -> tokens d' = ot ++ nt -> Forall2 token_evolves (tokens d) ot ->
  (l <> NewCodes -> Forall2 code_evolves (codes d) (codes d')) -> sessions d' = sessions d ->
  auth_change l d d'.
Proof.
  intros Hs Ht Hf Hc Hse. split; [by exists ns|by exists ot, nt|done|].
  rewrite Hse. intros r Hr. right. by exists r.
Qed.

Lemma change_admin l x d : auth_change l d (set_admin x d).
Proof. apply (change_rest _ _ _ [] (tokens d) []); cbn; rewrite ?app_nil_r; by try intros _. Qed.

Lemma revoke_evolves now r : session_evolves r (revoke now r).
Proof. repeat split. cbn. by destruct (se_revoked_at r). Qed.

Lemma step_change d l d' : auth_step d l d' -> auth_change l d d'.
Proof.
  destruct 1 as [now h k d' H|now h k d' H|now h k p d' H|e d' H|now s h d' H|hs d' H|now i d' H|s id d' H
    |id t d' H|now id d' H|now|id s d' H|now n d' H|h e d' H|h now nh k p d' H|now k ip ok det].
  - unfold InitAdmin in H. case_match; [done|]. injection H as <-. apply change_admin.
  - unfold UpdatePassword, update_admin in H. case_match; [|done]. injection H as <-. apply change_admin.
  - unfold UpdatePasswordAndPepper, update_admin in H. case_match; [|done]. injection H as <-. apply change_admin.
  - unfold SetTOTPSecret, update_admin in H. case_match; [|done]. injection H as <-. apply change_admin.
  - unfold MarkTOTPStepUsed in H. case_match; [done|]. injection H as <-.
    apply (change_rest _ _ _ [MkStep s h now] (tokens d) []); cbn; rewrite ?app_nil_r; by try intros _.
  - unfold StoreRecoveryCodes in H. apply rbind_Ok in H as (t & _ & [= <-]).
    apply (change_rest _ _ _ [] (tokens d) []); cbn; rewrite ?app_nil_r; done.
  - unfold UseRecoveryCode in H. case_match; [done|]. case_match; [|done]. case_match; [done|].
    injection H as <-. apply (change_rest _ _ _ [] (tokens d) []); cbn; rewrite ?app_nil_r; try done.
    intros _. apply Forall2_update_where; [apply _|]. done.
  - unfold CreateSession in H. case_match; [done|]. injection H as _ <-. apply change_sessions.
    intros r' [Hr| ->%list_elem_of_singleton]%elem_of_app; [right; by exists r'|by left].
  - unfold TouchSession, update_session in H. case_match; [done|]. injection H as <-.
    by apply change_update_sessions.
  - unfold RevokeSession, update_session in H. case_match; [done|]. injection H as <-.
    apply change_update_sessions, revoke_evolves.
  - apply change_update_sessions, revoke_evolves.
  - unfold SetSessionScope, update_session in H. case_match; [done|]. case_match; [done|].
    injection H as <-. by apply change_update_sessions.
  - injection H as _ <-. apply change_sessions. intros r' [Hr _]%elem_of_delete. right. by exists r'.
  - unfold CreatePasswordResetToken in H. case_match; [done|]. injection H as <-.
    apply (change_rest _ _ _ [] (tokens d) [MkToken (next_id (tokens d)) h e None]); cbn;
      rewrite ?app_nil_r; by try intros _.
  - unfold CompletePasswordReset in H. case_match; [done|]. injection H as <-. split; cbn.
    + exists []. by rewrite app_nil_r.
    + eexists _, []. rewrite app_nil_r. split; [done|]. apply Forall2_update_where; [apply _|].
      intros r Hr. unfold live in Hr. bools. by repeat split.
    + by intros _.
    + intros r' (r & Hr & ->)%elem_of_update. right. exists r. split; [done|].
      destruct (active r); [apply revoke_evolves|done].
  - eapply (change_rest _ _ _ [] (tokens d) []); cbn; rewrite ?app_nil_r; by try intros _.
Qed.

(** ** Integrity *)

Record auth_ok (d : AuthDB) : Prop := {
  aok_codes : table_ok (codes d);
  aok_sessions : table_ok (sessions d);
  aok_token : distinct tk_hash (tokens d);
  aok_session : distinct se_token_hash (sessions d) }.

Lemma empty_auth_ok : auth_ok empty_auth.
Proof. split; cbn; try apply table_ok_nil; apply distinct_nil. Qed.

Lemma insert_codes_ok hs t t' : table_ok t -> insert_codes hs t = Ok t' -> table_ok t'.
Proof.
  revert t. induction hs as [|h hs IH]; intros t Ht; cbn [insert_codes]; [by intros [= <-]|].
  case_match; [done|]. apply IH. by apply table_ok_insert.
Qed.

Lemma auth_ok_sessions p f d :
  auth_ok d -> (forall r, session_evolves r (f r)) -> auth_ok (set_sessions (update_where p f (sessions d)) d).
Proof.
  intros [] Hf. split; cbn; try done.
  - apply table_ok_update; [|done]. intros r. apply (Hf r).
  - apply distinct_update; [|done]. intros r _. apply (Hf r).
Qed.

Lemma auth_step_ok d l d' : auth_ok d -> auth_step d l d' -> auth_ok d'.
Proof.
  intros Hd. destruct 1 as [now h k d' H|now h k d' H|now h k p d' H|e d' H|now s h d' H|hs d' H|now i d' H|s id d' H
    |id t d' H|now id d' H|now|id s d' H|now n d' H|h e d' H|h now nh k p d' H|now k ip ok det].
  - unfold InitAdmin in H. case_match; [done|]. injection H as <-. by destruct Hd.
  - unfold UpdatePassword, update_admin in H. case_match; [|done]. injection H as <-. by destruct Hd.
  - unfold UpdatePasswordAndPepper, update_admin in H. case_match; [|done]. injection H as <-. by destruct Hd.
  - unfold SetTOTPSecret, update_admin in H. case_match; [|done]. injection H as <-. by destruct Hd.
  - unfold MarkTOTPStepUsed in H. case_match; [done|]. injection H as <-. by destruct Hd.
  - unfold StoreRecoveryCodes in H. apply rbind_Ok in H as (t & Ht & [= <-]).
    destruct Hd. split; cbn; try done. by eapply insert_codes_ok, Ht; apply table_ok_nil.
  - unfold UseRecoveryCode in H. case_match; [done|]. case_match; [|done]. case_match; [done|].
    injection H as <-. destruct Hd. split; cbn; try done. by apply table_ok_update.
  - unfold CreateSession in H. case_match eqn:E; [done|]. injection H as _ <-. bools.
    destruct Hd. split; cbn; try done; [by apply table_ok_insert|by apply distinct_insert].
  - unfold TouchSession, update_session in H. case_match; [done|]. injection H as <-.
    by apply auth_ok_sessions.
  - unfold RevokeSession, update_session in H. case_match; [done|]. injection H as <-.
    apply auth_ok_sessions; [done|apply revoke_evolves].
  - apply auth_ok_sessions; [done|apply revoke_evolves].
  - unfold SetSessionScope, update_session in H. case_match; [done|]. case_match; [done|].
    injection H as <-. by apply auth_ok_sessions.
  - injection H as _ <-. destruct Hd. split; cbn; try done; [by apply table_ok_delete|by apply distinct_delete].
  - unfold CreatePasswordResetToken in H. case_match eqn:E; [done|]. injection H as <-. bools.
    destruct Hd. split; cbn; try done. by apply distinct_insert.
  - unfold CompletePasswordReset in H. case_match; [done|]. injection H as <-.
    apply (auth_ok_sessions _ _ (set_admin _ (set_tokens _ d))); [|apply revoke_evolves].
    destruct Hd. split; cbn; try done. by apply distinct_update.
  - by destruct Hd.
Qed.

Lemma auth_history_ok P d d' : auth_ok d -> auth_history P d d' -> auth_ok d'.
Proof.
  intros Hd Hr. eapply (rtc_invariant _ auth_ok); [|exact Hd|exact Hr].
  intros a b Ha (l & _ & Hs). by eapply auth_step_ok.
Qed.

Lemma Forall2_prefix_lookup {R} (P : relation R) (t t' : list R) r :
  (exists old new, t' = old ++ new /\ Forall2 P t old) -> r ∈ t -> exists r', r' ∈ t' /\ P r r'.
Proof.
  intros (old & new & -> & Hf) [i Hi]%list_elem_of_lookup.
  destruct (Forall2_lookup_l _ _ _ _ _ Hf Hi) as (r' & Hr' & He).
  exists r'. split; [|done]. apply elem_of_app. left. by apply list_elem_of_lookup_2 with i.
Qed.

(** ** What no history undoes *)

(** A step that was recorded stays recorded. *)
Lemma history_steps P d d' s : auth_history P d d' -> s ∈ ids (steps d) -> s ∈ ids (steps d').
Proof.
  intros Hr Hs. eapply (rtc_invariant _ (fun d => s ∈ ids (steps d))); [|exact Hs|exact Hr].
  intros a b Ha (l & _ & Hst). apply step_change in Hst as [[new ->] _ _ _].
  rewrite ids_app. apply elem_of_app. by left.
Qed.

(** A used token stays used. *)
Definition token_spent (h : string) (d : AuthDB) : Prop :=
  exists r, r ∈ tokens d /\ tk_hash r = h /\ tk_used_at r <> None.

Lemma history_token P d d' h : auth_history P d d' -> token_spent h d -> token_spent h d'.
Proof.
  intros Hr Hs. eapply (rtc_invariant _ (token_spent h)); [|exact Hs|exact Hr].
  intros a b (r & Hrin & Hh & Hu) (l & _ & Hst). apply step_change in Hst as [_ Ht _ _].
  destruct (Forall2_prefix_lookup _ _ _ r Ht Hrin) as (r' & Hr' & _ & Hh' & _ & Hu').
  exists r'. split; [done|]. rewrite Hu' by done. split; [congruence|done].
Qed.

(** The code at a position stays used until the set is replaced. *)
Definition code_spent (i : nat) (d : AuthDB) : Prop :=
  exists r, codes d !! i = Some r /\ c_used_at r <> None.

Lemma history_code d d' i :
  auth_history (fun l => l <> NewCodes) d d' -> code_spent i d -> code_spent i d'.
Proof.
  intros Hr Hs. eapply (rtc_invariant _ (code_spent i)); [|exact Hs|exact Hr].
  intros a b (r & Hi & Hu) (l & Hl & Hst). apply step_change in Hst as [_ _ Hc _].
  destruct (Forall2_lookup_l _ _ _ _ _ (Hc Hl) Hi) as (r' & Hr' & _ & _ & Hu').
  exists r'. split; [done|]. by apply Hu'.
Qed.

(** A revoked session stays revoked, for as long as it exists. *)
Definition revoked_at (h : string) (t : Z) (d : AuthDB) : Prop :=
  forall r, r ∈ sessions d -> se_token_hash r = h -> se_revoked_at r = Some t.

Lemma history_revoked d d' h t :
  auth_history (fun l => l <> MintSession h) d d' -> revoked_at h t d -> revoked_at h t d'.
Proof.
  intros Hr Hs. eapply (rtc_invariant _ (revoked_at h t)); [|exact Hs|exact Hr].
  intros a b Ha (l & Hl & Hst) r' Hr' Hh. apply step_change in Hst as [_ _ _ Hse].
  destruct (Hse r' Hr') as [->|(r & Hrin & _ & Hh' & _ & Hrv)]; [by rewrite Hh in Hl|].
  assert (Hrr : se_revoked_at r = Some t) by (apply Ha; [done|congruence]).
  rewrite Hrv by (by rewrite Hrr). done.
Qed.

(** ** Single operations *)

Lemma try_steps_sound hotp secret code l c :
  try_steps hotp secret code l = Some c -> c ∈ l /\ 0 <= c /\ hotp code c secret = Some true.
Proof.
  induction l as [|x l IH]; cbn [try_steps]; [done|]. split_if.
  - intros (H1 & H2)%IH. split; [by right|done].
  - destruct (hotp code x secret) as [[|]|] eqn:Eh; [|intros (H1 & H2)%IH; split; [by right|done]|done].
    intros [= <-]. split; [by left|]. split; [lia|done].
Qed.

Lemma reset_refused h now nh k p d :
  CompletePasswordReset h now nh k p d = Err ResetTokenInvalid <->
  forall r, r ∈ tokens d -> tk_hash r = h -> live now r = false.
Proof.
  unfold CompletePasswordReset. destruct (affected _ _ =? 0)%nat eqn:E.
  - apply Nat.eqb_eq in E. rewrite affected_0 in E. split; [|done]. intros _ r Hr Hh.
    specialize (E r Hr). rewrite bool_decide_eq_true_2 in E by done. done.
  - split; [done|]. intros H. exfalso. apply Nat.eqb_neq in E. apply E, affected_0.
    intros r Hr. case_bool_decide as Hh; [|done]. by rewrite (H r).
Qed.

Lemma spent_refused h now nh k p d :
  auth_ok d -> token_spent h d -> CompletePasswordReset h now nh k p d = Err ResetTokenInvalid.
Proof.
  intros Hd (r0 & Hr0 & Hh0 & Hu0). apply reset_refused. intros r Hr Hh.
  assert (r = r0) as -> by (eapply (distinct_inj tk_hash); [apply Hd|done|done|congruence]).
  unfold live. by rewrite bool_decide_eq_false_2.
Qed.

(** Changing the one row that counts to one that does not. *)
Lemma affected_insert {R} (q : R -> bool) (t : list R) i r r' :
  t !! i = Some r -> q r = true -> q r' = false -> affected q t = S (affected q (<[i := r']> t)).
Proof.
  revert i. induction t as [|x t IH]; intros [|i] Hi Hq Hq'; simplify_eq/=.
  - unfold affected. rewrite !filter_cons, decide_True, decide_False by congruence. done.
  - unfold affected in *. rewrite !filter_cons. destruct (decide (q x = true)); cbn; [f_equal|]; by eapply IH.
Qed.

Lemma update_code_insert now d i r :
  table_ok (codes d) -> codes d !! i = Some r -> c_used_at r = None ->
  update_where (unused (c_id r)) (use_code now) (codes d) = <[i := use_code now r]> (codes d).
Proof.
  intros Hok Hi Hu. apply list_eq. intros j. unfold update_where. rewrite list_lookup_fmap.
  destruct (decide (i = j)) as [->|Hne].
  - rewrite list_lookup_insert_eq by (by eapply lookup_lt_Some). rewrite Hi. cbn. unfold unused.
    by rewrite Z.eqb_refl, bool_decide_eq_true_2.
  - rewrite list_lookup_insert_ne by done. destruct (codes d !! j) as [x|] eqn:Ej; [|done]. cbn.
    unfold unused. destruct (c_id x =? c_id r) eqn:E; [|done]. bools. destruct Hne.
    apply table_ok_NoDup in Hok. eapply NoDup_lookup; [exact Hok| |];
      unfold ids; rewrite list_lookup_fmap; [by rewrite Hi|]. rewrite Ej. cbn. by f_equal.
Qed.

(** a recovery code works once: using the code at an index that is free
    leaves exactly one unused code fewer, and until the whole set is replaced
    every later use of that index is refused as already used. *)
Theorem recovery_code_single_use d now index d1 :
  auth_history (fun _ => True) empty_auth d -> UseRecoveryCode now index d = Ok d1 ->
  CountUnusedRecoveryCodes d = S (CountUnusedRecoveryCodes d1) /\
  (forall d2 now2, auth_history (fun l => l <> NewCodes) d1 d2 ->
     UseRecoveryCode now2 index d2 = Err RecoveryCodeUsed).
Proof.
  intros Hd H. pose proof (auth_history_ok _ _ _ empty_auth_ok Hd) as Hok.
  assert (Hok1 : auth_ok d1) by (by eapply auth_step_ok, au_Use).
  unfold UseRecoveryCode in H. destruct (index <? 0) eqn:Ei; [done|].
  destruct (codes d !! Z.to_nat index) as [r|] eqn:Er; [|done].
  destruct (affected _ _ =? 0)%nat eqn:E; [done|]. injection H as <-.
  assert (Hu : c_used_at r = None).
  { destruct (c_used_at r) eqn:Eu; [|done]. exfalso. apply Nat.eqb_neq in E. apply E, affected_0.
    intros x Hx. unfold unused. destruct (c_id x =? c_id r) eqn:Ex; [|done]. bools.
    assert (x = r) as -> by (apply (ids_inj (codes d)); [apply Hok|done|by apply list_elem_of_lookup_2 with (Z.to_nat index)|done]).
    cbn. by rewrite Eu. }
  split.
  - unfold CountUnusedRecoveryCodes. cbn. rewrite (update_code_insert now d _ r (aok_codes _ Hok) Er Hu).
    apply affected_insert with r; [done|by apply bool_decide_eq_true_2|done].
  - intros d2 now2 Hh. assert (Hsp : code_spent (Z.to_nat index) d2).
    { eapply history_code; [exact Hh|]. exists (use_code now r). split; [|done]. cbn.
      rewrite (update_code_insert now d _ r (aok_codes _ Hok) Er Hu).
      by rewrite list_lookup_insert_eq by (by eapply lookup_lt_Some). }
    assert (Hok2 : auth_ok d2) by (by eapply auth_history_ok).
    destruct Hsp as (r2 & Hr2 & Hu2). unfold UseRecoveryCode. rewrite Ei, Hr2.
    replace (affected _ _) with 0%nat; [done|]. symmetry. apply affected_0. intros x Hx. unfold unused.
    destruct (c_id x =? c_id r2) eqn:Ex; [|done]. bools.
    assert (x = r2) as -> by (apply (ids_inj (codes d2)); [apply Hok2|done|by apply list_elem_of_lookup_2 with (Z.to_nat index)|done]).
    cbn. by apply bool_decide_eq_false_2.
Qed.

Definition au_codes : AuthDB :=
  match StoreRecoveryCodes ["h0"; "h1"]%string empty_auth with Ok d => d | Err _ => empty_auth end.
Definition au_used : AuthDB := match UseRecoveryCode 7 1 au_codes with Ok d => d | Err _ => au_codes end.

Lemma recovery_code_single_use_witness :
  UseRecoveryCode 7 1 au_codes = Ok au_used /\ CountUnusedRecoveryCodes au_used = 1%nat /\
  UseRecoveryCode 8 1 au_used = Err RecoveryCodeUsed.
Proof.
  assert (H : UseRecoveryCode 7 1 au_codes = Ok au_used) by (vm_compute; reflexivity).
  split; [exact H|]. split; [vm_compute; reflexivity|].
  apply (recovery_code_single_use au_codes 7 1 au_used); [|exact H|apply rtc_refl].
  apply rtc_once. exists NewCodes. split; [done|]. apply (au_Codes _ ["h0"; "h1"]%string).
  vm_compute. reflexivity.
Defined.

(** an accepted TOTP code belongs to the current 30-second step or one of
    its neighbours and is valid for it; and once a step has been recorded, no
    later write makes recording it again anything but a replay. *)
Theorem totp_step_single_use hotp secret code now c d d1 d2 now1 now2 h1 h2 :
  ValidateCode hotp secret code now = Some c ->
  MarkTOTPStepUsed now1 c h1 d = Ok d1 -> auth_history (fun _ => True) d1 d2 ->
  Z.abs (c - Z.quot (unix now) totpPeriod) <= totpSkew /\ hotp code c secret = Some true /\
  MarkTOTPStepUsed now2 c h2 d2 = Err TOTPReplay.
Proof.
  intros Hv Hm Hh. unfold ValidateCode in Hv. case_match; [done|].
  apply try_steps_sound in Hv as (Hin & _ & Hok). split; [|split; [done|]].
  - unfold totpSkew. rewrite !elem_of_cons in Hin. destruct Hin as [->|[->|[->|Hn%elem_of_nil]]]; [lia..|done].
  - unfold MarkTOTPStepUsed in *. case_match; [done|]. injection Hm as <-.
    rewrite bool_decide_eq_true_2; [done|]. eapply history_steps; [exact Hh|].
    cbn [steps set_steps]. rewrite ids_app. apply elem_of_app. right. by left.
Qed.

Definition one_code (code : string) (c : Z) (secret : string) : option bool :=
  Some (bool_decide (code = "123456"%string) && (c =? 58907520)).
Definition au1 : AuthDB := MkAuthDB None [] [MkStep 58907520 "x" 0] [] [] [].

Lemma totp_step_single_use_witness :
  ValidateCode one_code "S" "123456" (1767225630 * second) = Some 58907520 /\
  MarkTOTPStepUsed 5 58907520 "y" au1 = Err TOTPReplay.
Proof.
  split; [vm_compute; reflexivity|].
  apply (totp_step_single_use one_code "S" "123456" (1767225630 * second) 58907520 empty_auth au1 au1 0 5 "x" "y");
    [vm_compute; reflexivity|vm_compute; reflexivity|apply rtc_refl].
Defined.

(** What a reset that is accepted leaves behind. *)
Lemma reset_ok d h now nh kdf pepper d1 :
  CompletePasswordReset h now nh kdf pepper d = Ok d1 ->
  (forall r, r ∈ sessions d1 -> se_revoked_at r <> None)
  /\ admin d1 = (write_password now nh kdf pepper <$> admin d) /\ token_spent h d1.
Proof.
  unfold CompletePasswordReset. set (hit := fun r => bool_decide (tk_hash r = h) && live now r).
  destruct (affected hit (tokens d) =? 0)%nat eqn:E; [done|]. intros [= <-]. split_and!; [|done|].
  - cbn. intros r (r0 & Hr0 & ->)%elem_of_update. destruct (active r0) eqn:Ea; [done|]. unfold active in Ea. by bools.
  - apply Nat.eqb_neq in E. destruct (List.find hit (tokens d)) as [r|] eqn:Ef.
    + apply find_some in Ef as [Hr Hp]. exists (use_token now r). split_and!; [|unfold hit in Hp; by bools|done].
      cbn. apply elem_of_update. exists r. rewrite list_elem_of_In. by rewrite Hp.
    + destruct E. apply affected_0. intros r Hr. apply list_elem_of_In in Hr. by eapply find_none in Ef; [|exact Hr].
Qed.

(** a reset token works at most once and only while unused and unexpired;
    using it writes the new password with its pepper version and revokes every
    session in the same step, and no later write makes the token work again. *)
Theorem password_reset_single_use d h now nh kdf pepper :
  auth_history (fun _ => True) empty_auth d ->
  (CompletePasswordReset h now nh kdf pepper d = Err ResetTokenInvalid <->
   forall r, r ∈ tokens d -> tk_hash r = h -> tk_used_at r <> None \/ text_lt now (tk_expires_at r) = false) /\
  forall d1, CompletePasswordReset h now nh kdf pepper d = Ok d1 ->
    (forall r, r ∈ sessions d1 -> se_revoked_at r <> None) /\
    admin d1 = (write_password now nh kdf pepper <$> admin d) /\
    (forall d2 now2 nh2 kdf2 pepper2, auth_history (fun _ => True) d1 d2 ->
       CompletePasswordReset h now2 nh2 kdf2 pepper2 d2 = Err ResetTokenInvalid).
Proof.
  intros Hd. pose proof (auth_history_ok _ _ _ empty_auth_ok Hd) as Hok. split.
  { rewrite reset_refused. unfold live. split; intros H r Hr Hh; specialize (H r Hr Hh).
    - bools. destruct H as [H|H]; bools; [by left|by right].
    - destruct H as [H|H]; [by rewrite bool_decide_eq_false_2|]. by rewrite H, andb_false_r. }
  intros d1 H. assert (Hok1 : auth_ok d1) by (by eapply auth_step_ok, au_Reset).
  destruct (reset_ok _ _ _ _ _ _ _ H) as (Hr & Ha & Ht). split_and!; [done..|].
  intros d2 now2 nh2 kdf2 pepper2 Hh2. apply spent_refused; [by eapply auth_history_ok|]. by eapply history_token.
Qed.

Definition au_reset0 : AuthDB :=
  MkAuthDB None [] [] [MkSession 1 "tok" 0 0 (100 * second) None None None "full"] [MkToken 1 "h" (50 * second) None] [].
Definition au_reset1 : AuthDB :=
  match CompletePasswordReset "h" (10 * second) "nh" "kdf" 0 au_reset0 with Ok d => d | Err _ => au_reset0 end.

Lemma au_reset0_reachable : auth_history (fun _ => True) empty_auth au_reset0.
Proof.
  eapply rtc_l; [exists (MintSession "tok"); split; [done|];
    apply (au_Create _ (MkSess "tok" 0 0 (100 * second) "" "" zero_time) 1); vm_compute; reflexivity|].
  apply rtc_once. exists OtherWrite. split; [done|].
  apply (au_Token _ "h" (50 * second)). vm_compute. reflexivity.
Qed.

Lemma password_reset_single_use_witness :
  CompletePasswordReset "h" (10 * second) "nh" "kdf" 0 au_reset0 = Ok au_reset1 /\
  (forall r, r ∈ sessions au_reset1 -> se_revoked_at r <> None) /\
  CompletePasswordReset "h" (11 * second) "nh2" "kdf" 0 au_reset1 = Err ResetTokenInvalid.
Proof.
  assert (H : CompletePasswordReset "h" (10 * second) "nh" "kdf" 0 au_reset0 = Ok au_reset1)
    by (vm_compute; reflexivity).
  split; [exact H|].
  destruct (proj2 (password_reset_single_use au_reset0 "h" (10 * second) "nh" "kdf" 0 au_reset0_reachable)
              au_reset1 H) as (H1 & _ & H3).
  split; [exact H1|]. apply H3, rtc_refl.
Defined.

(** once a session is revoked it is never valid again: after any writes
    that do not mint a session with the very same token hash, looking the hash
    up finds nothing or a session that fails [Valid] from the revocation on. *)
Theorem revoked_session_stays_dead d d' h t s' now idle :
  auth_history (fun _ => True) empty_auth d ->
  (exists r, r ∈ sessions d /\ se_token_hash r = h /\ se_revoked_at r = Some t) -> t <> zero_time ->
  auth_history (fun l => l <> MintSession h) d d' ->
  GetSessionByTokenHash h d' = Ok s' -> t <= now -> Valid now idle s' = false.
Proof.
  intros Hd (r & Hr & Hh & Ht) Hz Hh' Hg Hn.
  pose proof (auth_history_ok _ _ _ empty_auth_ok Hd) as Hok.
  assert (Hrev : revoked_at h t d).
  { intros x Hx Hxh. assert (x = r) as -> by (eapply (distinct_inj se_token_hash); [apply Hok|done|done|congruence]). done. }
  pose proof (history_revoked _ _ _ _ Hh' Hrev) as Hrev'.
  unfold GetSessionByTokenHash in Hg. case_match eqn:E; [|done]. injection Hg as <-.
  apply find_some in E as [Hin Hp]. apply list_elem_of_In in Hin. bools.
  unfold Valid. cbn [scanSession snd RevokedAt]. rewrite (Hrev' _ Hin Hp). cbn [of_null_time default].
  unfold of_null_time. cbn. unfold is_zero.
  rewrite (proj2 (Z.eqb_neq t zero_time) Hz). cbn.
  by rewrite (proj2 (Z.ltb_ge now t) Hn).
Qed.

Lemma revoked_session_stays_dead_witness :
  exists s', GetSessionByTokenHash "tok" au_reset1 = Ok s' /\ Valid (20 * second) (60 * minute) s' = false.
Proof.
  destruct (GetSessionByTokenHash "tok" au_reset1) as [s'|] eqn:E; [|vm_compute in E; discriminate E].
  exists s'. split; [reflexivity|].
  apply (revoked_session_stays_dead au_reset1 au_reset1 "tok" (10 * second) s').
  - eapply rtc_r; [apply au_reset0_reachable|]. exists OtherWrite. split; [done|].
    apply (au_Reset _ "h" (10 * second) "nh" "kdf" 0). vm_compute. reflexivity.
  - eexists. split; [vm_compute; left|]. split; vm_compute; reflexivity.
  - vm_compute. discriminate.
  - apply rtc_refl.
  - exact E.
  - vm_compute. discriminate.
Defined.
