(* ===== verification/Budget.v ===== *)
(** * Budgets and prices: internal/budget

    The caps checked before a call, the calendar month they are counted in, the
    price table with its file form, and the token estimates. Costs are binary64
    values; token counts are 64-bit integers, taken here as integers, which a
    count of what was ever spent does not exceed. *)

From S2P Require Import Prelude GoTime GoStrings Timestamps Tables Schema.
From Stdlib Require Import String Ascii.
Local Abbreviation length := List.length.

(** [a < b] on binary64; false when one is not a number. *)
Definition f64_lt (a b : float64) : bool := SFltb a b.
Definition f64_pos (a : float64) : bool := f64_lt f64_zero a.

(** ** Limits *)

Definition BudgetKind := string.
Definition KindScheduled : BudgetKind := "scheduled".
Definition KindSample : BudgetKind := "sample".

Record Limits := MkLimits {
  PerFeedDailyTokens : Z; PerFeedDailyRuns : Z; GlobalDailyTokens : Z; GlobalDailyUSD : float64;
  MonthlyUSDCeiling : float64; MonthlyWarnPct : float64 }.

Record Spend := MkSpend { sd_TokensIn : Z; sd_TokensOut : Z; sd_Runs : Z; sd_USD : float64 }.
Definition no_spend : Spend := MkSpend 0 0 0 f64_zero.

Definition Tokens (s : Spend) : Z := sd_TokensIn s + sd_TokensOut s.

Definition ReasonNone : string := "".
Definition ReasonFeedTokenCap : string := "feed_daily_token_cap".
Definition ReasonFeedRunCap : string := "feed_daily_run_cap".
Definition ReasonGlobalTokenCap : string := "global_daily_token_cap".
Definition ReasonGlobalUSDCap : string := "global_daily_usd_cap".
Definition ReasonMonthlyUSDCap : string := "monthly_usd_cap".
Definition ReasonMonthlyApproaching : string := "monthly_usd_approaching".

Record BudgetDecision := MkDecision { Allow : bool; de_Reason : string; Warn : bool; WarnReason : string }.
Definition deny (reason : string) : BudgetDecision := MkDecision false reason false "".

Record BudgetRequest := MkBudgetRequest {
  rqb_Kind : BudgetKind; Projected : Z; rqb_USD : float64; MonthlySpend : Spend }.

Definition MonthStart (t : Z) : Z := Date UTC (Year UTC t) (Month UTC t) 1 0 0 0 0.

Definition CheckRequest (l : Limits) (feedSpend globalSpend : Spend) (req : BudgetRequest) : BudgetDecision :=
  if (0 <? PerFeedDailyRuns l) && (PerFeedDailyRuns l <? sd_Runs feedSpend + 1) then deny ReasonFeedRunCap
  else if (0 <? PerFeedDailyTokens l) && (PerFeedDailyTokens l <? Tokens feedSpend + Projected req)
  then deny ReasonFeedTokenCap
  else if (0 <? GlobalDailyTokens l) && (GlobalDailyTokens l <? Tokens globalSpend + Projected req)
  then deny ReasonGlobalTokenCap
  else if f64_pos (GlobalDailyUSD l) && f64_lt (GlobalDailyUSD l) (f64_add (sd_USD globalSpend) (rqb_USD req))
  then deny ReasonGlobalUSDCap
  else if f64_pos (MonthlyUSDCeiling l) &&
          f64_lt (MonthlyUSDCeiling l) (f64_add (sd_USD (MonthlySpend req)) (rqb_USD req))
  then deny ReasonMonthlyUSDCap
  else
    let threshold := f64_mul (MonthlyWarnPct l) (MonthlyUSDCeiling l) in
    let before := sd_USD (MonthlySpend req) in
    let after := f64_add before (rqb_USD req) in
    if f64_pos (MonthlyUSDCeiling l) && f64_pos (MonthlyWarnPct l) && f64_lt before threshold && SFleb threshold after
    then MkDecision true ReasonNone true ReasonMonthlyApproaching
    else MkDecision true ReasonNone false "".

Definition Check (l : Limits) (feedSpend globalSpend : Spend) (projected : Z) : BudgetDecision :=
  CheckRequest l feedSpend globalSpend (MkBudgetRequest "" projected f64_zero no_spend).

(** ** Prices *)

Record Price := MkPrice { pr_Model : string; InputPerMTok : float64; OutputPerMTok : float64 }.
Record PriceTable := MkTable { prices : gmap string Price; tb_Default : option Price }.

Definition NewTable : PriceTable := MkTable ∅ None.
Definition Set_ (p : Price) (t : PriceTable) : PriceTable := MkTable (<[pr_Model p := p]> (prices t)) (tb_Default t).

Definition Table_Lookup (model : string) (t : PriceTable) : option Price :=
  match prices t !! model with Some p => Some p | None => tb_Default t end.

(** [None]: the price is not known. *)
Definition Cost (model : string) (tin tout : Z) (t : PriceTable) : option float64 :=
  match Table_Lookup model t with
  | None => None
  | Some p =>
      let per_m n := f64_div (f64_of_int n) (f64_of_int 1000000) in
      Some (f64_add (f64_mul (per_m tin) (InputPerMTok p)) (f64_mul (per_m tout) (OutputPerMTok p)))
  end.

(** The file form: a list by model name. *)
Record tableJSON := MkTableJSON { tj_Prices : list Price; tj_Default : option Price }.

Fixpoint insert_price (p : Price) (l : list Price) : list Price :=
  match l with
  | [] => [p]
  | q :: r => if str_leb (pr_Model p) (pr_Model q) then p :: l else q :: insert_price p r
  end.

(** [slices.SortFunc] by the model; [order] is the order in which the map is
    ranged over. *)
Definition MarshalJSON (order : list Price -> list Price) (t : PriceTable) : tableJSON :=
  MkTableJSON (fold_right insert_price [] (order (map_to_list (prices t)).*2)) (tb_Default t).

Definition UnmarshalJSON (j : tableJSON) : PriceTable :=
  MkTable (fold_left (fun m p => <[pr_Model p := p]> m) (tj_Prices j) ∅) (tj_Default j).

(** ** Estimates *)

Definition EstimateTokens (s : string) : Z :=
  let n := Z.of_nat (length (runes s)) in
  if n =? 0 then 0 else let tok := (n + 3) / 4 in if tok <? 1 then 1 else tok.

Definition EstimateRequest (prompt system : string) : Z := EstimateTokens prompt + EstimateTokens system.
Definition EstimateResponse (raw : string) : Z := EstimateTokens raw.

(** ** The table *)

(** Every price is filed under its own model. *)
Definition prices_ok (t : PriceTable) : Prop := forall m p, prices t !! m = Some p -> pr_Model p = m.

Lemma Set_ok p t : prices_ok t -> prices_ok (Set_ p t).
Proof.
  intros Ht m q. cbn. destruct (decide (pr_Model p = m)) as [<-|Hne].
  - rewrite lookup_insert_eq. by intros [= <-].
  - rewrite lookup_insert_ne by done. apply Ht.
Qed.

Lemma fold_Set_ok l (m : gmap string Price) :
  (forall k p, m !! k = Some p -> pr_Model p = k) ->
  forall k p, fold_left (fun m p => <[pr_Model p := p]> m) l m !! k = Some p -> pr_Model p = k.
Proof.
  revert m. induction l as [|q l IH]; intros m Hm; [done|]. cbn. apply IH. intros k p.
  destruct (decide (pr_Model q = k)) as [<-|]; [rewrite lookup_insert_eq; by intros [= <-]|].
  rewrite lookup_insert_ne by done. apply Hm.
Qed.

Lemma insert_price_perm p l : insert_price p l ≡ₚ p :: l.
Proof. induction l as [|q l IH]; [done|]. cbn. destruct (str_leb _ _); [done|]. rewrite IH. apply perm_swap. Qed.

Lemma sort_prices_perm l : fold_right insert_price [] l ≡ₚ l.
Proof. induction l as [|p l IH]; [done|]. cbn. by rewrite insert_price_perm, IH. Qed.

(** Reading a list of prices with distinct models. *)
Lemma fold_Set_lookup l (m : gmap string Price) k :
  NoDup (pr_Model <$> l) ->
  fold_left (fun m p => <[pr_Model p := p]> m) l m !! k =
  match List.find (fun p => bool_decide (pr_Model p = k)) l with Some p => Some p | None => m !! k end.
Proof.
  revert m. induction l as [|p l IH]; intros m Hnd; [done|]. apply NoDup_cons in Hnd as [Hp Hnd]. cbn.
  rewrite IH by done. case_bool_decide as Hk.
  - subst. destruct (List.find _ l) as [q|] eqn:E; [|by rewrite lookup_insert_eq].
    apply find_some in E as [Hin Hq]. apply bool_decide_eq_true in Hq. exfalso. apply Hp. rewrite <- Hq.
    apply list_elem_of_fmap. exists q. split; [done|]. by apply list_elem_of_In.
  - destruct (List.find _ l); [done|]. by rewrite lookup_insert_ne.
Qed.

Lemma models_NoDup t : prices_ok t -> NoDup (pr_Model <$> (map_to_list (prices t)).*2).
Proof.
  intros Ht. assert (E : pr_Model <$> (map_to_list (prices t)).*2 = (map_to_list (prices t)).*1).
  { rewrite <- list_fmap_compose. apply list_fmap_ext. intros i [m p] H. cbn.
    apply list_elem_of_lookup_2, elem_of_map_to_list in H. by apply Ht. }
  rewrite E. apply NoDup_fst_map_to_list.
Qed.

(** Two sorted lists of the same prices with distinct models are one list. *)
Definition price_le (p q : Price) : Prop := str_le (pr_Model p) (pr_Model q).

Lemma insert_price_sorted p l : StronglySorted price_le l -> StronglySorted price_le (insert_price p l).
Proof.
  induction 1 as [|q l Hl IH Hq]; cbn; [by repeat constructor|]. destruct (str_leb _ _) eqn:E.
  - constructor; [by constructor|]. constructor; [done|]. eapply Forall_impl; [exact Hq|].
    intros x Hx. unfold price_le in *. by trans (pr_Model q).
  - constructor; [done|]. rewrite insert_price_perm. constructor; [|done]. by apply str_leb_total.
Qed.

Lemma sort_prices_sorted l : StronglySorted price_le (fold_right insert_price [] l).
Proof. induction l as [|p l IH]; [constructor|]. by apply insert_price_sorted. Qed.

Lemma sorted_prices_unique l l' :
  StronglySorted price_le l -> StronglySorted price_le l' -> l ≡ₚ l' -> NoDup (pr_Model <$> l) -> l = l'.
Proof.
  intros Hl Hl' Hp Hnd. pose proof Hp as Hm. apply (fmap_Permutation pr_Model) in Hm.
  assert (Hs : forall l, StronglySorted price_le l -> StronglySorted str_le (pr_Model <$> l)).
  { intros l0. induction 1 as [|x l0 _ IH Hx]; cbn; constructor; [done|]. apply Forall_fmap. exact Hx. }
  assert (E : pr_Model <$> l = pr_Model <$> l') by (apply (StronglySorted_unique str_le); auto).
  apply list_eq. intros i. destruct (l !! i) as [p|] eqn:Ei.
  - assert (Hi : (pr_Model <$> l') !! i = Some (pr_Model p)) by (rewrite <- E, list_lookup_fmap, Ei; done).
    rewrite list_lookup_fmap in Hi. destruct (l' !! i) as [q|] eqn:Eq; [|done]. cbn in Hi. injection Hi as Hi.
    assert (Hq : q ∈ l) by (rewrite Hp; by eapply list_elem_of_lookup_2).
    apply list_elem_of_lookup_1 in Hq as (j & Hj).
    assert (i = j) as <-; [|congruence].
    eapply (NoDup_lookup (pr_Model <$> l)); [done|by rewrite list_lookup_fmap, Ei|rewrite list_lookup_fmap, Hj; cbn; by rewrite Hi].
  - assert (Hn : (pr_Model <$> l) !! i = None) by (by rewrite list_lookup_fmap, Ei).
    rewrite E, list_lookup_fmap in Hn. by destruct (l' !! i).
Qed.

(** ** Theorems *)

(** the price table survives its file: whatever order the map is ranged over
    when it is written, the file is the same list, sorted by model, and reading
    it gives the table back; and every table built by the runtime editor, or read
    from any file, is filed by model, as this needs. *)
Theorem price_table_roundtrip order order' t :
  (forall l, order l ≡ₚ l) -> (forall l, order' l ≡ₚ l) -> prices_ok t ->
  MarshalJSON order t = MarshalJSON order' t /\ UnmarshalJSON (MarshalJSON order t) = t /\
  (forall p, prices_ok (Set_ p t)) /\ (forall j, prices_ok (UnmarshalJSON j)).
Proof.
  intros Ho Ho' Ht. pose proof (models_NoDup t Ht) as Hnd. split.
  { unfold MarshalJSON. f_equal. apply sorted_prices_unique; [apply sort_prices_sorted..| |].
    - by rewrite !sort_prices_perm, Ho, Ho'.
    - by rewrite sort_prices_perm, Ho. }
  split; [|split; [intros p; by apply Set_ok|intros j m p; refine (fold_Set_ok (tj_Prices j) ∅ _ m p); intros k q; by rewrite lookup_empty]].
  unfold UnmarshalJSON, MarshalJSON. cbn. destruct t as [ps df]. cbn in *. f_equal. apply map_eq. intros k.
  set (l := fold_right insert_price [] (order (map_to_list ps).*2)).
  assert (Hperm : l ≡ₚ (map_to_list ps).*2) by (unfold l; by rewrite sort_prices_perm, Ho).
  rewrite fold_Set_lookup by (by rewrite Hperm).
  destruct (List.find _ l) as [p|] eqn:E.
  - apply find_some in E as [Hin Hk]. apply bool_decide_eq_true in Hk. apply list_elem_of_In in Hin.
    rewrite Hperm, list_elem_of_fmap in Hin. destruct Hin as ([m q] & -> & Hin). apply elem_of_map_to_list in Hin. cbn in Hk |- *.
    rewrite <- Hk, (Ht _ _ Hin). done.
  - rewrite lookup_empty. destruct (ps !! k) as [p|] eqn:Ek; [|done]. exfalso.
    eapply find_none in E; [|apply list_elem_of_In; rewrite Hperm; apply list_elem_of_fmap; exists (k, p);
      split; [reflexivity|by apply elem_of_map_to_list]].
    rewrite bool_decide_eq_false in E. apply E. by apply Ht.
Qed.

Lemma price_table_roundtrip_witness :
  let t := Set_ (MkPrice "m2" f64_zero f64_zero) (Set_ (MkPrice "m1" f64_zero (f64_of_int 2)) NewTable) in
  MarshalJSON (@rev Price) t = MarshalJSON id t /\ length (tj_Prices (MarshalJSON id t)) = 2%nat.
Proof.
  split; [|vm_compute; reflexivity].
  apply (price_table_roundtrip (@rev Price) id).
  - intros l. symmetry. apply Permutation_rev.
  - done.
  - apply Set_ok, Set_ok. intros m p H. discriminate H.
Defined.
