(* ===== verification/Scheduler.v ===== *)
(** * The scheduler loop: internal/schedule/runner.go

    The timing of the loop as functions, and the goroutines (the loop of [Run],
    the workers, the shutdown) as a labelled transition system whose steps are
    the atomic actions of the code, in any interleaving. *)

From S2P Require Import Prelude GoTime Cron.
From Stdlib Require Import String Ascii.
Local Abbreviation length := List.length.

(** ** When a job is due *)

Definition DefaultMaxConcurrent : Z := 3.
Definition DefaultProviderLimit : Z := 4.
Definition DefaultJitterWindow : Z := 10 * minute.
Definition DefaultMaxConsecutiveFailures : Z := 5.

(** A job is its slug and its [Next]; what the interface [Job] offers. *)
Record Job := MkJob { Slug : string; job_next : Z -> Z }.

Definition dueTime (nominal : Z) (slug : string) (window : Z) : Z := nominal + Offset slug window.

(** One entry of the loop of [earliest]. *)
Definition earliest_step (window : Z) (jobs : gmap Z Job) (acc : option (Z * Z)) (e : Z * Z)
    : option (Z * Z) :=
  let '(id, nominal) := e in
  if is_zero nominal then acc
  else match jobs !! id with
       | None => acc
       | Some j =>
           let candidate := dueTime nominal (Slug j) window in
           match acc with
           | None => Some (id, candidate)
           | Some (_, at_) => if candidate <? at_ then Some (id, candidate) else acc
           end
       end.

(** [next] in the order the map yields it; every key of [next] is a job. *)
Definition earliest (window : Z) (jobs : gmap Z Job) (next : list (Z * Z)) : option (Z * Z) :=
  foldl (earliest_step window jobs) None next.

(** How long [Run] waits. *)
Definition wait (at_ now : Z) : Z := Z.max 0 (dur_sub at_ now).

(** The pass over [next] when the timer fires: the feeds handed to
    [maybeDispatch], in order, and the advanced map. *)
Fixpoint tick (window : Z) (jobs : gmap Z Job) (now : Z) (next : list (Z * Z)) : list Z * list (Z * Z) :=
  match next with
  | [] => ([], [])
  | (id, nominal) :: rest =>
      let '(fired, rest') := tick window jobs now rest in
      match jobs !! id with
      | None => (fired, (id, nominal) :: rest')
      | Some j =>
          if is_zero nominal then (fired, (id, nominal) :: rest')
          else if now <? dueTime nominal (Slug j) window then (fired, (id, nominal) :: rest')
          else (id :: fired, (id, job_next j nominal) :: rest')
      end
  end.

(** ** Failure accounting *)

Inductive sink_op := OpReset (f : Z) | OpRecord (f : Z) | OpDisable (f : Z).

Record Accounts := MkAccounts { failures : gmap Z Z; disabled : gset Z; sink : list sink_op }.

Definition failure_count (a : Accounts) (f : Z) : Z := default 0 (failures a !! f).

(** [recordOutcome], with the calls it makes on the failure sink; a sink that
    is absent or fails changes nothing here. *)
Definition recordOutcome (maxFailures : Z) (f : Z) (ok : bool) (a : Accounts) : Accounts :=
  if ok then MkAccounts (<[f := 0]> (failures a)) (disabled a) (sink a ++ [OpReset f])
  else
    let n := failure_count a f + 1 in
    let a1 := MkAccounts (<[f := n]> (failures a)) (disabled a) (sink a ++ [OpRecord f]) in
    if (maxFailures <=? n) && negb (bool_decide (f ∈ disabled a1))
    then MkAccounts (failures a1) ({[f]} ∪ disabled a1) (sink a1 ++ [OpDisable f])
    else a1.

(** [seedFailures]: the stored counts of the scheduled feeds; [None] is no sink
    or a failed read. *)
Definition seedFailures (jobs : gmap Z Job) (loaded : option (gmap Z Z)) (a : Accounts) : Accounts :=
  match loaded with
  | None => a
  | Some counts =>
      MkAccounts (filter (fun p => is_Some (jobs !! p.1)) counts ∪ failures a) (disabled a) (sink a)
  end.

(** ** The goroutines *)

(** Where the loop of [Run] stands in [maybeDispatch], and then in [shutdown]. *)
Inductive lpc :=
| L_Idle
| L_Gate (f : Z)      (* past the first check, about to ask the gate *)
| L_Recheck (f : Z)   (* allowed, about to take the lock again *)
| L_Depth (f : Z)     (* marked running, before queueDepth + 1 *)
| L_Add (f : Z)       (* before inFlight.Add(1) *)
| L_Send (f : Z)      (* at the select *)
| L_Undo1 (f : Z) | L_Undo2 (f : Z) | L_Undo3 (f : Z)
| L_Wait              (* channel closed, waiting for inFlight or the timeout *)
| L_Cancelled         (* timeout over, the running contexts cancelled *)
| L_Join              (* wg.Wait *)
| L_Returned.

(** Where a worker stands in [worker] and [runOne]. *)
Inductive wpc :=
| W_Idle
| W_Got (f : Z)       (* received, before queueDepth - 1 *)
| W_Count (f : Z)     (* before inFlightN + 1 *)
| W_Acquire (f : Z)
| W_Register (f : Z)
| W_Exec (f : Z)
| W_Record (f : Z) (ok : bool)
| W_Unregister (f : Z)
| W_Release (f : Z)
| W_Done (f : Z)      (* before inFlight.Done *)
| W_Dec (f : Z)       (* before inFlightN - 1 *)
| W_Clear (f : Z)     (* before running[f] = false *)
| W_Exited.

#[export] Instance lpc_eq_dec : EqDecision lpc.
Proof. solve_decision. Defined.
#[export] Instance wpc_eq_dec : EqDecision wpc.
Proof. solve_decision. Defined.

Record Config := MkConfig {
  job_ids : gset Z; bufSize : nat; providerLimit : Z; maxConsecutiveFailures : Z }.

Record State := MkState {
  running : gset Z; acc : Accounts; queue : list Z; closed : bool;
  queueDepth : Z; inFlightN : Z; inFlight : Z; semUsed : Z; external : Z;
  runCancel : gset Z; cancelled : gset Z; ctxDone : bool; loop : lpc; workers : list wpc }.

Inductive label :=
| CtxCancel                     (* the caller cancels ctx *)
| Dispatch (f : Z)              (* the loop calls maybeDispatch(f) *)
| GateAnswer (ok : bool)        (* the gate's answer *)
| LoopStep                      (* the loop's next action *)
| LoopAbort                     (* the ctx.Done arm of the select *)
| LoopTimeout                   (* the shutdown timeout fires *)
| Receive (i : nat)             (* worker i receives from the channel *)
| Finish (i : nat) (ok : bool)  (* worker i's Execute returns *)
| WorkerStep (i : nat)          (* worker i's next action *)
| SampleAcquire | SampleRelease. (* sampling, on the same semaphore *)

Definition set_loop (p : lpc) (s : State) : State :=
  MkState (running s) (acc s) (queue s) (closed s) (queueDepth s) (inFlightN s) (inFlight s)
    (semUsed s) (external s) (runCancel s) (cancelled s) (ctxDone s) p (workers s).
Definition set_worker (i : nat) (p : wpc) (s : State) : State :=
  MkState (running s) (acc s) (queue s) (closed s) (queueDepth s) (inFlightN s) (inFlight s)
    (semUsed s) (external s) (runCancel s) (cancelled s) (ctxDone s) (loop s) (<[i := p]> (workers s)).
Definition set_running (x : gset Z) (s : State) : State :=
  MkState x (acc s) (queue s) (closed s) (queueDepth s) (inFlightN s) (inFlight s)
    (semUsed s) (external s) (runCancel s) (cancelled s) (ctxDone s) (loop s) (workers s).
Definition set_acc (x : Accounts) (s : State) : State :=
  MkState (running s) x (queue s) (closed s) (queueDepth s) (inFlightN s) (inFlight s)
    (semUsed s) (external s) (runCancel s) (cancelled s) (ctxDone s) (loop s) (workers s).
Definition set_queue (x : list Z) (c : bool) (s : State) : State :=
  MkState (running s) (acc s) x c (queueDepth s) (inFlightN s) (inFlight s)
    (semUsed s) (external s) (runCancel s) (cancelled s) (ctxDone s) (loop s) (workers s).
(** Add to the three counters. *)
Definition add_counters (qd n wg : Z) (s : State) : State :=
  MkState (running s) (acc s) (queue s) (closed s) (queueDepth s + qd) (inFlightN s + n) (inFlight s + wg)
    (semUsed s) (external s) (runCancel s) (cancelled s) (ctxDone s) (loop s) (workers s).
Definition add_sem (own ext : Z) (s : State) : State :=
  MkState (running s) (acc s) (queue s) (closed s) (queueDepth s) (inFlightN s) (inFlight s)
    (semUsed s + own + ext) (external s + ext) (runCancel s) (cancelled s) (ctxDone s) (loop s) (workers s).
Definition set_cancels (reg can : gset Z) (s : State) : State :=
  MkState (running s) (acc s) (queue s) (closed s) (queueDepth s) (inFlightN s) (inFlight s)
    (semUsed s) (external s) reg can (ctxDone s) (loop s) (workers s).
Definition set_ctx (s : State) : State :=
  MkState (running s) (acc s) (queue s) (closed s) (queueDepth s) (inFlightN s) (inFlight s)
    (semUsed s) (external s) (runCancel s) (cancelled s) true (loop s) (workers s).

(** [maybeDispatch] up to the gate. *)
Definition first_check (f : Z) (s : State) : State :=
  if bool_decide (f ∈ disabled (acc s)) then s
  else if bool_decide (f ∈ running s) then s
  else set_loop (L_Gate f) s.

(** The loop's actions after the gate, and the shutdown. *)
Definition loop_step (c : Config) (s : State) : option State :=
  match loop s with
  | L_Idle => if ctxDone s then Some (set_loop L_Wait (set_queue (queue s) true s)) else None
  | L_Recheck f =>
      if bool_decide (f ∈ running s) then Some (set_loop L_Idle s)
      else Some (set_loop (L_Depth f) (set_running ({[f]} ∪ running s) s))
  | L_Depth f => Some (set_loop (L_Add f) (add_counters 1 0 0 s))
  | L_Add f => Some (set_loop (L_Send f) (add_counters 0 0 1 s))
  | L_Send f =>
      if (length (queue s) <? bufSize c)%nat
      then Some (set_loop L_Idle (set_queue (queue s ++ [f]) (closed s) s)) else None
  | L_Undo1 f => Some (set_loop (L_Undo2 f) (add_counters 0 0 (-1) s))
  | L_Undo2 f => Some (set_loop (L_Undo3 f) (add_counters (-1) 0 0 s))
  | L_Undo3 f => Some (set_loop L_Idle (set_running (running s ∖ {[f]}) s))
  | L_Wait | L_Cancelled => if inFlight s =? 0 then Some (set_loop L_Join s) else None
  | L_Join => if forallb (fun p => match p with W_Exited => true | _ => false end) (workers s)
              then Some (set_loop L_Returned s) else None
  | L_Gate _ | L_Returned => None
  end.

Definition worker_step (c : Config) (i : nat) (s : State) : option State :=
  match workers s !! i with
  | Some W_Idle =>
      if closed s && bool_decide (queue s = []) then Some (set_worker i W_Exited s) else None
  | Some (W_Got f) => Some (set_worker i (W_Count f) (add_counters (-1) 0 0 s))
  | Some (W_Count f) => Some (set_worker i (W_Acquire f) (add_counters 0 1 0 s))
  | Some (W_Acquire f) =>
      if semUsed s <? providerLimit c then Some (set_worker i (W_Register f) (add_sem 1 0 s)) else None
  | Some (W_Register f) =>
      Some (set_worker i (W_Exec f) (set_cancels ({[f]} ∪ runCancel s) (cancelled s) s))
  | Some (W_Record f ok) =>
      Some (set_worker i (W_Unregister f)
              (set_acc (recordOutcome (maxConsecutiveFailures c) f ok (acc s)) s))
  | Some (W_Unregister f) =>
      Some (set_worker i (W_Release f) (set_cancels (runCancel s ∖ {[f]}) (cancelled s) s))
  | Some (W_Release f) => Some (set_worker i (W_Done f) (add_sem (-1) 0 s))
  | Some (W_Done f) => Some (set_worker i (W_Dec f) (add_counters 0 0 (-1) s))
  | Some (W_Dec f) => Some (set_worker i (W_Clear f) (add_counters 0 (-1) 0 s))
  | Some (W_Clear f) => Some (set_worker i W_Idle (set_running (running s ∖ {[f]}) s))
  | _ => None
  end.

Definition do_step (c : Config) (l : label) (s : State) : option State :=
  match l with
  | CtxCancel => Some (set_ctx s)
  | Dispatch f =>
      match loop s with
      | L_Idle => if bool_decide (f ∈ job_ids c) then Some (first_check f s) else None
      | _ => None
      end
  | GateAnswer ok =>
      match loop s with
      | L_Gate f => Some (set_loop (if ok then L_Recheck f else L_Idle) s)
      | _ => None
      end
  | LoopStep => loop_step c s
  | LoopAbort =>
      match loop s with
      | L_Send f => if ctxDone s then Some (set_loop (L_Undo1 f) s) else None
      | _ => None
      end
  | LoopTimeout =>
      match loop s with
      | L_Wait => Some (set_loop L_Cancelled (set_cancels (runCancel s) (cancelled s ∪ runCancel s) s))
      | _ => None
      end
  | Receive i =>
      match workers s !! i, queue s with
      | Some W_Idle, f :: rest => Some (set_worker i (W_Got f) (set_queue rest (closed s) s))
      | _, _ => None
      end
  | Finish i ok =>
      match workers s !! i with
      | Some (W_Exec f) => Some (set_worker i (W_Record f ok) s)
      | _ => None
      end
  | WorkerStep i => worker_step c i s
  | SampleAcquire => if semUsed s <? providerLimit c then Some (add_sem 0 1 s) else None
  | SampleRelease => if 0 <? external s then Some (add_sem 0 (-1) s) else None
  end.

Inductive step (c : Config) (s : State) : State -> Prop :=
| step_by l s' : do_step c l s = Some s' -> step c s s'.

(** [New] and the start of [Run]. *)
Definition initial (maxConcurrent : nat) (a : Accounts) : State :=
  MkState ∅ a [] false 0 0 0 0 0 ∅ ∅ false L_Idle (replicate maxConcurrent W_Idle).

(** [NewSemaphore] raises the limit to 1, and the buffer holds every job. *)
Definition config_ok (c : Config) : Prop :=
  1 <= providerLimit c /\ (size (job_ids c) <= bufSize c)%nat.

Fixpoint run_labels (c : Config) (ls : list label) (s : State) : option State :=
  match ls with
  | [] => Some s
  | l :: rest => match do_step c l s with Some s' => run_labels c rest s' | None => None end
  end.

(** ** Who holds what *)

Definition b2z (b : bool) : Z := if b then 1 else 0.
Definition is_feed (f g : Z) : Z := b2z (f =? g).

(** Feed [f]'s dispatch in the hands of the loop, or of a worker. *)
Definition ltok (f : Z) (p : lpc) : Z :=
  match p with
  | L_Depth g | L_Add g | L_Send g | L_Undo1 g | L_Undo2 g | L_Undo3 g => is_feed f g
  | _ => 0
  end.
Definition wtok (f : Z) (p : wpc) : Z :=
  match p with
  | W_Idle | W_Exited => 0
  | W_Got g | W_Count g | W_Acquire g | W_Register g | W_Exec g | W_Record g _ | W_Unregister g
  | W_Release g | W_Done g | W_Dec g | W_Clear g => is_feed f g
  end.
(** Counted in [inFlight], in [queueDepth], in [inFlightN], in the semaphore. *)
Definition lwg (p : lpc) : Z := match p with L_Send _ | L_Undo1 _ => 1 | _ => 0 end.
Definition wwg (p : wpc) : Z :=
  match p with W_Idle | W_Exited | W_Dec _ | W_Clear _ => 0 | _ => 1 end.
Definition lqd (p : lpc) : Z :=
  match p with L_Add _ | L_Send _ | L_Undo1 _ | L_Undo2 _ => 1 | _ => 0 end.
Definition wqd (p : wpc) : Z := match p with W_Got _ => 1 | _ => 0 end.
Definition wifn (p : wpc) : Z :=
  match p with W_Idle | W_Exited | W_Got _ | W_Count _ | W_Clear _ => 0 | _ => 1 end.
Definition wsem (p : wpc) : Z :=
  match p with W_Register _ | W_Exec _ | W_Record _ _ | W_Unregister _ | W_Release _ => 1 | _ => 0 end.
(** The context of [f] is registered for cancellation. *)
Definition wreg (f : Z) (p : wpc) : Z :=
  match p with W_Exec g | W_Record g _ | W_Unregister g => is_feed f g | _ => 0 end.

Definition total (g : wpc -> Z) (s : State) : Z := zsum (g <$> workers s).
Definition queued (f : Z) (q : list Z) : Z := zsum (is_feed f <$> q).

(** The dispatches of [f] under way. *)
Definition holds (f : Z) (s : State) : Z := ltok f (loop s) + queued f (queue s) + total (wtok f) s.

Definition loop_feed (p : lpc) : option Z :=
  match p with
  | L_Gate f | L_Recheck f | L_Depth f | L_Add f | L_Send f | L_Undo1 f | L_Undo2 f | L_Undo3 f => Some f
  | _ => None
  end.
Definition in_shutdown (p : lpc) : bool :=
  match p with L_Wait | L_Cancelled | L_Join | L_Returned => true | _ => false end.

Record inv (c : Config) (s : State) : Prop := {
  inv_holds : forall f, holds f s = b2z (bool_decide (f ∈ running s));
  inv_wg : inFlight s = lwg (loop s) + Z.of_nat (length (queue s)) + total wwg s;
  inv_qd : queueDepth s = lqd (loop s) + Z.of_nat (length (queue s)) + total wqd s;
  inv_ifn : inFlightN s = total wifn s;
  inv_sem : semUsed s = total wsem s + external s;
  inv_limit : semUsed s <= providerLimit c;
  inv_ext : 0 <= external s;
  inv_reg : forall f, total (wreg f) s = b2z (bool_decide (f ∈ runCancel s));
  inv_queue : forall f, f ∈ queue s -> f ∈ job_ids c;
  inv_loop : forall f, loop_feed (loop s) = Some f -> f ∈ job_ids c;
  inv_gate : forall f, loop s = L_Gate f \/ loop s = L_Recheck f ->
               (f ∉ running s) /\ f ∉ disabled (acc s);
  inv_closed : closed s = in_shutdown (loop s);
  inv_exited : W_Exited ∈ workers s -> closed s = true /\ queue s = [];
  inv_joined : loop s = L_Join \/ loop s = L_Returned -> inFlight s = 0 }.

(** Sums over the workers when one moves. *)
Lemma zsum_insert {A} (g : A -> Z) (l : list A) i x y :
  l !! i = Some x -> zsum (g <$> <[i := y]> l) = zsum (g <$> l) - g x + g y.
Proof.
  revert i. induction l as [|a l IH]; intros [|i] Hi; simplify_eq/=; [lia|].
  rewrite (IH i) by done. lia.
Qed.

Lemma total_set_worker g i p x s :
  workers s !! i = Some x -> total g (set_worker i p s) = total g s - g x + g p.
Proof. intros H. unfold total. cbn. by apply zsum_insert. Qed.

Lemma zsum_elem {A} (g : A -> Z) (l : list A) x :
  (forall y, 0 <= g y) -> x ∈ l -> g x <= zsum (g <$> l).
Proof.
  intros Hg. induction 1 as [x l|x y l _ IH]; rewrite fmap_cons, zsum_cons.
  - assert (0 <= zsum (g <$> l)) by (apply zsum_nonneg, Forall_fmap, Forall_true; apply Hg). lia.
  - specialize (Hg y). lia.
Qed.

Lemma is_feed_nonneg f g : 0 <= is_feed f g.
Proof. unfold is_feed, b2z. split_if; lia. Qed.
Lemma is_feed_refl f : is_feed f f = 1.
Proof. unfold is_feed. by rewrite Z.eqb_refl. Qed.
Lemma is_feed_ne f g : f <> g -> is_feed f g = 0.
Proof. intros H. unfold is_feed. by rewrite (proj2 (Z.eqb_neq f g)). Qed.
Lemma wtok_nonneg f p : 0 <= wtok f p.
Proof. destruct p; cbn; try lia; apply is_feed_nonneg. Qed.
Lemma ltok_nonneg f p : 0 <= ltok f p.
Proof. destruct p; cbn; try lia; apply is_feed_nonneg. Qed.
Lemma queued_nonneg f q : 0 <= queued f q.
Proof. apply zsum_nonneg, Forall_fmap, Forall_true. intros; apply is_feed_nonneg. Qed.
Lemma total_nonneg g s : (forall p, 0 <= g p) -> 0 <= total g s.
Proof. intros H. apply zsum_nonneg, Forall_fmap, Forall_true. apply H. Qed.

(** A feed some worker holds is marked running. *)
Lemma worker_running c s i p f :
  inv c s -> workers s !! i = Some p -> wtok f p = 1 -> f ∈ running s.
Proof.
  intros Hs Hi Hp. pose proof (inv_holds _ _ Hs f) as Hh. unfold holds in Hh.
  assert (1 <= total (wtok f) s).
  { rewrite <- Hp. apply zsum_elem; [apply wtok_nonneg|by apply list_elem_of_lookup_2 with i]. }
  pose proof (ltok_nonneg f (loop s)). pose proof (queued_nonneg f (queue s)).
  case_bool_decide; [done|]. cbn in Hh. lia.
Qed.

Lemma b2z_insert f g (x : gset Z) :
  g ∉ x -> b2z (bool_decide (f ∈ {[g]} ∪ x)) = b2z (bool_decide (f ∈ x)) + is_feed f g.
Proof.
  intros Hg. destruct (decide (f = g)) as [->|Hne].
  - rewrite is_feed_refl, bool_decide_eq_true_2, bool_decide_eq_false_2 by set_solver. done.
  - rewrite is_feed_ne by done. rewrite (bool_decide_ext (f ∈ {[g]} ∪ x) (f ∈ x)) by set_solver. lia.
Qed.

Lemma b2z_remove f g (x : gset Z) :
  g ∈ x -> b2z (bool_decide (f ∈ x ∖ {[g]})) = b2z (bool_decide (f ∈ x)) - is_feed f g.
Proof.
  intros Hg. destruct (decide (f = g)) as [->|Hne].
  - rewrite is_feed_refl, bool_decide_eq_false_2, bool_decide_eq_true_2 by set_solver. done.
  - rewrite is_feed_ne by done. rewrite (bool_decide_ext (f ∈ x ∖ {[g]}) (f ∈ x)) by set_solver. lia.
Qed.

Lemma elem_insert {A} (l : list A) i (x y : A) : x ∈ <[i := y]> l -> x ∈ l \/ x = y.
Proof.
  intros [j Hj]%list_elem_of_lookup. destruct (decide (i = j)) as [->|Hne].
  - destruct (decide (j < length l)%nat).
    + rewrite list_lookup_insert_eq in Hj by done. right. congruence.
    + rewrite list_insert_ge in Hj by lia. left. by apply list_elem_of_lookup_2 with j.
  - rewrite list_lookup_insert_ne in Hj by done. left. by apply list_elem_of_lookup_2 with j.
Qed.

(** An exited worker does not come back. *)
Lemma exited_set_worker i p s :
  p <> W_Exited -> W_Exited ∈ workers (set_worker i p s) -> W_Exited ∈ workers s.
Proof. intros Hp [?|?]%elem_insert; congruence. Qed.

(** Compute the fields of an explicit state. *)
Ltac proj :=
  cbn [running acc queue closed queueDepth inFlightN inFlight semUsed external runCancel cancelled
       ctxDone loop workers set_loop set_worker set_running set_acc set_queue add_counters add_sem
       set_cancels set_ctx length lwg lqd wqd wwg wifn wsem wreg ltok wtok in_shutdown].

Lemma wwg_nonneg p : 0 <= wwg p.
Proof. destruct p; cbn; lia. Qed.

(** A worker moves from [x] to [y] and changes the counters accordingly. *)
Lemma worker_move c s i x y R' a' reg' can' dq dn dw ds :
  inv c s -> workers s !! i = Some x -> y <> W_Exited ->
  (forall f, b2z (bool_decide (f ∈ R')) = b2z (bool_decide (f ∈ running s)) - wtok f x + wtok f y) ->
  (forall f, b2z (bool_decide (f ∈ reg')) = b2z (bool_decide (f ∈ runCancel s)) - wreg f x + wreg f y) ->
  dq = wqd y - wqd x -> dn = wifn y - wifn x -> dw = wwg y - wwg x -> wwg y <= wwg x ->
  ds = wsem y - wsem x -> semUsed s + ds <= providerLimit c ->
  (forall f, f ∈ R' -> f ∈ running s) ->
  (forall f, f ∉ running s -> f ∉ disabled (acc s) -> f ∉ disabled a') ->
  inv c (MkState R' a' (queue s) (closed s) (queueDepth s + dq) (inFlightN s + dn) (inFlight s + dw)
           (semUsed s + ds) (external s) reg' can' (ctxDone s) (loop s) (<[i := y]> (workers s))).
Proof.
  intros Hs Hi Hy HR Hreg -> -> -> Hwg -> Hlim Hsub Hdis.
  destruct Hs as [I1 I2 I3 I4 I5 I6 I7 I8 I9 I10 I11 I12 I13 I14].
  unfold holds, total in *. split; unfold holds, total; proj; rewrite ?(zsum_insert _ _ _ x y Hi); try lia; try done.
  - intros f. rewrite (zsum_insert _ _ _ x y Hi), HR, <- I1. lia.
  - intros f. rewrite (zsum_insert _ _ _ x y Hi), Hreg, <- I8. lia.
  - intros f Hf. destruct (I11 f Hf) as [Hr Hd]. split; [by intros ?%Hsub|by apply Hdis].
  - intros [?|?]%elem_insert; [by apply I13|congruence].
  - intros Hj. specialize (I14 Hj). assert (Hx : wwg x <= zsum (wwg <$> workers s)) by
      (apply zsum_elem; [apply wwg_nonneg|by apply list_elem_of_lookup_2 with i]).
    assert (Hl : lwg (loop s) = 0) by (by destruct Hj as [-> | ->]).
    pose proof (wwg_nonneg x). pose proof (wwg_nonneg y). lia.
Qed.

(** The loop moves from its place to [p] and changes its counters. *)
Lemma loop_move c s p R' q' cl dq dw can' :
  inv c s ->
  (forall f, b2z (bool_decide (f ∈ R')) =
     b2z (bool_decide (f ∈ running s)) - ltok f (loop s) + ltok f p - queued f (queue s) + queued f q') ->
  dq = lqd p - lqd (loop s) + Z.of_nat (length q') - Z.of_nat (length (queue s)) ->
  dw = lwg p - lwg (loop s) + Z.of_nat (length q') - Z.of_nat (length (queue s)) ->
  (forall f, f ∈ q' -> f ∈ job_ids c) ->
  (forall f, loop_feed p = Some f -> f ∈ job_ids c) ->
  (forall f, p = L_Gate f \/ p = L_Recheck f -> (f ∉ R') /\ f ∉ disabled (acc s)) ->
  cl = in_shutdown p -> (closed s = true -> cl = true /\ q' = queue s) ->
  (p = L_Join \/ p = L_Returned -> inFlight s + dw = 0) ->
  inv c (MkState R' (acc s) q' cl (queueDepth s + dq) (inFlightN s) (inFlight s + dw)
           (semUsed s) (external s) (runCancel s) can' (ctxDone s) p (workers s)).
Proof.
  intros Hs HR -> -> Hq Hl Hg -> Hcl Hj.
  destruct Hs as [I1 I2 I3 I4 I5 I6 I7 I8 I9 I10 I11 I12 I13 I14].
  unfold holds, total in *. split; unfold holds, total; proj; try lia; try done.
  - intros f. rewrite HR, <- I1. lia.
  - intros Hex. destruct (I13 Hex) as [Hc Hq0]. destruct (Hcl Hc) as [-> ->]. done.
Qed.

Lemma inv_set_ctx c s : inv c s -> inv c (set_ctx s).
Proof. by intros []; split. Qed.

Lemma inv_receive c s i f rest :
  inv c s -> workers s !! i = Some W_Idle -> queue s = f :: rest ->
  inv c (set_worker i (W_Got f) (set_queue rest (closed s) s)).
Proof.
  intros Hs Hi Hq. destruct Hs as [I1 I2 I3 I4 I5 I6 I7 I8 I9 I10 I11 I12 I13 I14].
  rewrite Hq in *. unfold holds, total in *. cbn [length] in *.
  split; unfold holds, total; proj; rewrite ?(zsum_insert _ _ _ W_Idle (W_Got f) Hi); proj; try lia; try done.
  - intros g. rewrite (zsum_insert _ _ _ W_Idle (W_Got f) Hi), <- I1. unfold queued.
    rewrite Hq, fmap_cons, zsum_cons. proj. lia.
  - intros g. rewrite (zsum_insert _ _ _ W_Idle (W_Got f) Hi), <- I8. proj. lia.
  - intros g Hg. apply I9. by right.
  - intros [Hex|?]%elem_insert; [|done]. destruct (I13 Hex) as [_ ?]. congruence.
Qed.

Lemma inv_exit c s i :
  inv c s -> workers s !! i = Some W_Idle -> closed s = true -> queue s = [] ->
  inv c (set_worker i W_Exited s).
Proof.
  intros Hs Hi Hc Hq. destruct Hs as [I1 I2 I3 I4 I5 I6 I7 I8 I9 I10 I11 I12 I13 I14].
  unfold holds, total in *.
  split; unfold holds, total; proj; rewrite ?(zsum_insert _ _ _ W_Idle W_Exited Hi); proj; try lia; try done.
  - intros g. rewrite (zsum_insert _ _ _ W_Idle W_Exited Hi), <- I1. proj. lia.
  - intros g. rewrite (zsum_insert _ _ _ W_Idle W_Exited Hi), <- I8. proj. lia.
Qed.

Lemma inv_sample c s e :
  inv c s -> 0 <= external s + e -> semUsed s + e <= providerLimit c -> inv c (add_sem 0 e s).
Proof. intros [] He Hl. split; unfold total in *; proj; try done; lia. Qed.

(** ** Every step keeps the invariant *)

Lemma recordOutcome_disabled m f ok a g :
  g <> f -> g ∉ disabled a -> g ∉ disabled (recordOutcome m f ok a).
Proof.
  intros Hne Hd. unfold recordOutcome. destruct ok; [done|]. cbn. split_if; cbn; set_solver.
Qed.

(** The state after a move, whatever form it is written in. *)
Lemma worker_moved c s i x y R' a' reg' can' dq dn dw ds s' :
  s' = MkState R' a' (queue s) (closed s) (queueDepth s + dq) (inFlightN s + dn) (inFlight s + dw)
         (semUsed s + ds) (external s) reg' can' (ctxDone s) (loop s) (<[i := y]> (workers s)) ->
  inv c s -> workers s !! i = Some x -> y <> W_Exited ->
  (forall f, b2z (bool_decide (f ∈ R')) = b2z (bool_decide (f ∈ running s)) - wtok f x + wtok f y) ->
  (forall f, b2z (bool_decide (f ∈ reg')) = b2z (bool_decide (f ∈ runCancel s)) - wreg f x + wreg f y) ->
  dq = wqd y - wqd x -> dn = wifn y - wifn x -> dw = wwg y - wwg x -> wwg y <= wwg x ->
  ds = wsem y - wsem x -> semUsed s + ds <= providerLimit c ->
  (forall f, f ∈ R' -> f ∈ running s) ->
  (forall f, f ∉ running s -> f ∉ disabled (acc s) -> f ∉ disabled a') ->
  inv c s'.
Proof. intros ->. apply worker_move. Qed.

Ltac wmove y R a reg dq dn dw ds :=
  eapply (worker_moved _ _ _ _ y R a reg _ dq dn dw ds);
    [ unfold set_worker, set_running, set_acc, add_counters, add_sem, set_cancels; proj; f_equal; lia
    | eassumption | eassumption | proj; first [done | lia | intros; lia | idtac] .. ].

Lemma zsum_sub {A} (g h : A -> Z) (l : list A) :
  zsum ((fun x => g x - h x) <$> l) = zsum (g <$> l) - zsum (h <$> l).
Proof. induction l as [|x l IH]; [done|]. rewrite !fmap_cons, !zsum_cons, IH. lia. Qed.

(** A worker that holds [f] without a registered context is the only one that holds it. *)
Lemma not_registered c s i x f :
  inv c s -> workers s !! i = Some x -> wtok f x = 1 -> wreg f x = 0 -> f ∉ runCancel s.
Proof.
  intros Hs Hi Ht Hr. pose proof (inv_holds _ _ Hs f) as Hh. pose proof (inv_reg _ _ Hs f) as Hc.
  unfold holds, total in *.
  pose proof (ltok_nonneg f (loop s)). pose proof (queued_nonneg f (queue s)).
  assert (1 <= zsum ((fun p => wtok f p - wreg f p) <$> workers s)) as H1.
  { transitivity (wtok f x - wreg f x); [lia|].
    apply (zsum_elem (fun p => wtok f p - wreg f p)); [|by apply list_elem_of_lookup_2 with i].
    intros p. destruct p; cbn; try lia; unfold is_feed, b2z; split_if; lia. }
  rewrite zsum_sub in H1. intros Hin. rewrite bool_decide_eq_true_2 in Hc by done. cbn in Hc.
  destruct (bool_decide (f ∈ running s)); cbn in Hh; lia.
Qed.

Lemma worker_step_inv c i s s' : inv c s -> worker_step c i s = Some s' -> inv c s'.
Proof.
  intros Hs H. unfold worker_step in H. destruct (workers s !! i) as [x|] eqn:Hi; [|done].
  pose proof (inv_limit _ _ Hs) as Hlim.
  assert (Hrun : forall f, wtok f x = 1 -> f ∈ running s) by (intros f; by eapply worker_running).
  assert (Hcon : forall f, b2z (bool_decide (f ∈ runCancel s)) >= wreg f x).
  { intros f. rewrite <- (inv_reg _ _ Hs f). apply Z.le_ge, zsum_elem;
      [|by apply list_elem_of_lookup_2 with i].
    intros p. destruct p; cbn; try lia; apply is_feed_nonneg. }
  destruct x as [|f|f|f|f|f|f ok|f|f|f|f|f|]; try done.
  - case_match eqn:E; [|done]. injection H as <-. bools. by apply inv_exit.
  - injection H as <-. wmove (W_Count f) (running s) (acc s) (runCancel s) (-1) 0 0 0.
  - injection H as <-. wmove (W_Acquire f) (running s) (acc s) (runCancel s) 0 1 0 0.
  - case_match eqn:E; [|done]. injection H as <-. bools.
    wmove (W_Register f) (running s) (acc s) (runCancel s) 0 0 0 1.
  - injection H as <-. wmove (W_Exec f) (running s) (acc s) ({[f]} ∪ runCancel s) 0 0 0 0.
    intros g. rewrite b2z_insert; [lia|].
    eapply not_registered; [exact Hs|exact Hi|apply is_feed_refl|done].
  - injection H as <-.
    wmove (W_Unregister f) (running s) (recordOutcome (maxConsecutiveFailures c) f ok (acc s)) (runCancel s) 0 0 0 0.
    intros g Hg Hd. apply recordOutcome_disabled; [|done]. intros ->. apply Hg, Hrun. cbn. apply is_feed_refl.
  - injection H as <-. wmove (W_Release f) (running s) (acc s) (runCancel s ∖ {[f]}) 0 0 0 0.
    intros g. rewrite b2z_remove; [lia|]. specialize (Hcon f). cbn in Hcon. rewrite is_feed_refl in Hcon.
    case_bool_decide; [done|]. cbn in Hcon. lia.
  - injection H as <-. wmove (W_Done f) (running s) (acc s) (runCancel s) 0 0 0 (-1).
  - injection H as <-. wmove (W_Dec f) (running s) (acc s) (runCancel s) 0 0 (-1) 0.
  - injection H as <-. wmove (W_Clear f) (running s) (acc s) (runCancel s) 0 (-1) 0 0.
  - injection H as <-. wmove W_Idle (running s ∖ {[f]}) (acc s) (runCancel s) 0 0 0 0.
    + intros g. rewrite b2z_remove; [lia|]. apply Hrun. cbn. apply is_feed_refl.
    + set_solver.
Qed.

Lemma loop_moved c s p R' q' cl dq dw can' s' :
  s' = MkState R' (acc s) q' cl (queueDepth s + dq) (inFlightN s) (inFlight s + dw)
         (semUsed s) (external s) (runCancel s) can' (ctxDone s) p (workers s) ->
  inv c s ->
  (forall f, b2z (bool_decide (f ∈ R')) =
     b2z (bool_decide (f ∈ running s)) - ltok f (loop s) + ltok f p - queued f (queue s) + queued f q') ->
  dq = lqd p - lqd (loop s) + Z.of_nat (length q') - Z.of_nat (length (queue s)) ->
  dw = lwg p - lwg (loop s) + Z.of_nat (length q') - Z.of_nat (length (queue s)) ->
  (forall f, f ∈ q' -> f ∈ job_ids c) ->
  (forall f, loop_feed p = Some f -> f ∈ job_ids c) ->
  (forall f, p = L_Gate f \/ p = L_Recheck f -> (f ∉ R') /\ f ∉ disabled (acc s)) ->
  cl = in_shutdown p -> (closed s = true -> cl = true /\ q' = queue s) ->
  (p = L_Join \/ p = L_Returned -> inFlight s + dw = 0) ->
  inv c s'.
Proof. intros ->. apply loop_move. Qed.

Ltac lmove p R q cl dq dw :=
  eapply (loop_moved _ _ p R q cl dq dw);
    [ unfold set_loop, set_running, set_queue, add_counters, set_cancels; proj; f_equal; lia
    | eassumption
    | match goal with El : loop _ = _ |- _ => rewrite ?El end; proj;
      first [done | lia | intros; lia | by intros ? [?|?] | by intros [?|?] | idtac] .. ].

(** A feed the loop holds is running. *)
Lemma loop_running c s f : inv c s -> ltok f (loop s) = 1 -> f ∈ running s.
Proof.
  intros Hs Hl. pose proof (inv_holds _ _ Hs f) as Hh. unfold holds in Hh.
  pose proof (queued_nonneg f (queue s)). pose proof (total_nonneg (wtok f) s (wtok_nonneg f)).
  case_bool_decide; [done|]. cbn in Hh. lia.
Qed.

Lemma loop_step_inv c s s' : inv c s -> loop_step c s = Some s' -> inv c s'.
Proof.
  intros Hs H. unfold loop_step in H.
  pose proof (inv_queue _ _ Hs) as Hq. pose proof (inv_loop _ _ Hs) as Hl.
  pose proof (inv_closed _ _ Hs) as Hc. pose proof (inv_gate _ _ Hs) as Hg.
  pose proof (inv_joined _ _ Hs) as Hj. pose proof (fun f => loop_running c s f Hs) as Hr.
  destruct (loop s) as [|f|f|f|f|f|f|f|f| | | |] eqn:El; try done; cbn in Hc.
  - case_match; [|done]. injection H as <-. lmove L_Wait (running s) (queue s) true 0 0.
  - case_bool_decide as Hf; injection H as <-.
    + lmove L_Idle (running s) (queue s) (closed s) 0 0.
    + lmove (L_Depth f) ({[f]} ∪ running s) (queue s) (closed s) 0 0. intros g. rewrite b2z_insert by done. lia.
  - injection H as <-. lmove (L_Add f) (running s) (queue s) (closed s) 1 0.
  - injection H as <-. lmove (L_Send f) (running s) (queue s) (closed s) 0 1.
  - case_match; [|done]. injection H as <-.
    lmove L_Idle (running s) (queue s ++ [f]) (closed s) 0 0.
    + intros g. unfold queued. rewrite fmap_app, zsum_app. cbn. lia.
    + rewrite length_app. cbn. lia.
    + rewrite length_app. cbn. lia.
    + intros g [?| ->%list_elem_of_singleton]%elem_of_app; [by apply Hq|by apply Hl].
    + rewrite Hc. done.
  - injection H as <-. lmove (L_Undo2 f) (running s) (queue s) (closed s) 0 (-1).
  - injection H as <-. lmove (L_Undo3 f) (running s) (queue s) (closed s) (-1) 0.
  - injection H as <-. lmove L_Idle (running s ∖ {[f]}) (queue s) (closed s) 0 0.
    intros g. rewrite b2z_remove; [lia|]. apply Hr. cbn. apply is_feed_refl.
  - case_match; [|done]. bools. injection H as <-. lmove L_Join (running s) (queue s) (closed s) 0 0.
  - case_match; [|done]. bools. injection H as <-. lmove L_Join (running s) (queue s) (closed s) 0 0.
  - case_match; [|done]. injection H as <-. lmove L_Returned (running s) (queue s) (closed s) 0 0.
    intros _. rewrite Hj; [lia|by left].
Qed.

Lemma step_inv c s s' : inv c s -> step c s s' -> inv c s'.
Proof.
  intros Hs [l s1 H]. pose proof (inv_queue _ _ Hs) as Hq. pose proof (inv_loop _ _ Hs) as Hl.
  pose proof (inv_closed _ _ Hs) as Hc. pose proof (inv_gate _ _ Hs) as Hg.
  pose proof (inv_limit _ _ Hs) as Hlim. pose proof (inv_ext _ _ Hs) as Hext.
  destruct l as [|f|ok| | | |i|i ok|i| |]; cbn [do_step] in H.
  - injection H as <-. by apply inv_set_ctx.
  - destruct (loop s) eqn:El; try done. cbn in Hc. case_bool_decide as Hj; [|done]. injection H as <-.
    unfold first_check. case_bool_decide; [done|]. case_bool_decide; [done|].
    lmove (L_Gate f) (running s) (queue s) (closed s) 0 0.
    + by intros g [= <-].
    + intros g [[= <-]|?]; done.
  - destruct (loop s) as [|f| | | | | | | | | | |] eqn:El; try done. cbn in Hc. injection H as <-. destruct ok.
    + lmove (L_Recheck f) (running s) (queue s) (closed s) 0 0.
      intros g [?|[= <-]]; [done|]. apply Hg. by left.
    + lmove L_Idle (running s) (queue s) (closed s) 0 0.
  - by eapply loop_step_inv.
  - destruct (loop s) as [| | | | |f| | | | | | |] eqn:El; try done. cbn in Hc. case_match; [|done].
    injection H as <-. lmove (L_Undo1 f) (running s) (queue s) (closed s) 0 0.
  - destruct (loop s) eqn:El; try done. cbn in Hc. injection H as <-.
    lmove L_Cancelled (running s) (queue s) (closed s) 0 0.
  - destruct (workers s !! i) as [[]|] eqn:Hi; try done. destruct (queue s) as [|f rest] eqn:Eq; [done|].
    injection H as <-. by apply inv_receive.
  - destruct (workers s !! i) as [[]|] eqn:Hi; try done. injection H as <-.
    wmove (W_Record f ok) (running s) (acc s) (runCancel s) 0 0 0 0.
  - by eapply worker_step_inv.
  - case_match; [|done]. bools. injection H as <-. apply inv_sample; [done|lia|lia].
  - case_match; [|done]. bools. injection H as <-. apply inv_sample; [done|lia|lia].
Qed.

Lemma initial_inv c n a : config_ok c -> inv c (initial n a).
Proof.
  intros [H1 H2]. assert (Hz : forall g, g W_Idle = 0 -> total g (initial n a) = 0).
  { intros g Hg. unfold total, initial. proj. induction n as [|n IH]; [done|].
    cbn [replicate]. rewrite fmap_cons, zsum_cons, IH, Hg. done. }
  split; unfold holds, initial; proj.
  - intros f. fold (initial n a). rewrite Hz by done. done.
  - fold (initial n a). rewrite Hz by done. done.
  - fold (initial n a). rewrite Hz by done. done.
  - fold (initial n a). by rewrite Hz.
  - fold (initial n a). by rewrite Hz.
  - lia.
  - done.
  - intros f. fold (initial n a). rewrite Hz by done. done.
  - intros f Hf. by apply elem_of_nil in Hf.
  - done.
  - intros f [?|?]; done.
  - done.
  - intros [_ Hf]%elem_of_replicate_inv || (intros Hf; apply elem_of_replicate in Hf as [? _]; done).
  - intros [?|?]; done.
Qed.

Lemma reachable_inv c n a s : config_ok c -> rtc (step c) (initial n a) s -> inv c s.
Proof.
  intros Hc Hr. eapply (rtc_invariant (step c) (inv c)); [apply step_inv|by apply initial_inv|exact Hr].
Qed.

(** ** Consequences *)

Lemma queued_elem f q : f ∈ q -> 1 <= queued f q.
Proof.
  intros Hf. unfold queued. rewrite <- (is_feed_refl f) at 1.
  apply (zsum_elem (is_feed f)); [apply is_feed_nonneg|done].
Qed.

Lemma queued_NoDup q : (forall f, queued f q <= 1) -> NoDup q.
Proof.
  induction q as [|f q IH]; intros H; constructor.
  - intros Hf%queued_elem. specialize (H f). unfold queued in *.
    rewrite fmap_cons, zsum_cons, is_feed_refl in H. lia.
  - apply IH. intros g. specialize (H g). unfold queued in *. rewrite fmap_cons, zsum_cons in H.
    pose proof (is_feed_nonneg g f). lia.
Qed.

Lemma holds_le_1 c s f : inv c s -> holds f s <= 1.
Proof. intros Hs. rewrite (inv_holds _ _ Hs). destruct (bool_decide _); cbn; lia. Qed.

Lemma b2z_le_1 b : b2z b <= 1.
Proof. destruct b; cbn; lia. Qed.

(** Two workers never hold the same feed. *)
Lemma workers_distinct c s i j p q f :
  inv c s -> workers s !! i = Some p -> workers s !! j = Some q -> wtok f p = 1 -> wtok f q = 1 -> i = j.
Proof.
  intros Hs Hi Hj Hp Hq. destruct (decide (i = j)) as [|Hne]; [done|]. exfalso.
  pose proof (holds_le_1 _ _ f Hs) as Hh. unfold holds, total in Hh.
  pose proof (ltok_nonneg f (loop s)). pose proof (queued_nonneg f (queue s)).
  pose proof (zsum_insert (wtok f) (workers s) i p W_Idle Hi) as He. cbn [wtok] in He.
  assert (wtok f q <= zsum (wtok f <$> <[i := W_Idle]> (workers s))).
  { apply zsum_elem; [apply wtok_nonneg|]. apply list_elem_of_lookup_2 with j.
    by rewrite list_lookup_insert_ne. }
  lia.
Qed.

(** The queue, and what the loop is sending, are distinct scheduled feeds. *)
Lemma queue_room c s f :
  config_ok c -> inv c s -> loop s = L_Send f -> (length (queue s) < bufSize c)%nat.
Proof.
  intros [_ Hb] Hs Hl.
  assert (Hnd : NoDup (f :: queue s)).
  { apply queued_NoDup. intros g. pose proof (holds_le_1 _ _ g Hs) as Hh. unfold holds in Hh.
    rewrite Hl in Hh. cbn [ltok] in Hh. pose proof (total_nonneg (wtok g) s (wtok_nonneg g)).
    unfold queued in *. rewrite fmap_cons, zsum_cons. lia. }
  assert (Hsub : list_to_set (f :: queue s) ⊆ job_ids c).
  { intros g Hg. apply elem_of_list_to_set, elem_of_cons in Hg as [->|Hg].
    - apply (inv_loop _ _ Hs). by rewrite Hl.
    - by apply (inv_queue _ _ Hs). }
  apply subseteq_size in Hsub. rewrite size_list_to_set in Hsub by done. cbn in Hsub. lia.
Qed.

Lemma total_zero_all g s :
  (forall p, 0 <= g p) -> total g s = 0 -> forall p, p ∈ workers s -> g p = 0.
Proof.
  intros Hg Ht p Hp. pose proof (zsum_elem g (workers s) p Hg Hp). unfold total in Ht.
  specialize (Hg p). lia.
Qed.

(** ** The shutdown ends *)

(** Weights that every internal action of the shutdown lowers. *)
Definition wrank (p : wpc) : Z :=
  match p with
  | W_Exited => 0 | W_Idle => 1 | W_Clear _ => 2 | W_Dec _ => 3 | W_Done _ => 4 | W_Release _ => 5
  | W_Unregister _ => 6 | W_Record _ _ => 7 | W_Exec _ => 8 | W_Register _ => 9 | W_Acquire _ => 10
  | W_Count _ => 11 | W_Got _ => 12
  end.
Definition lrank (p : lpc) : Z :=
  match p with L_Wait => 3 | L_Cancelled => 2 | L_Join => 1 | _ => 0 end.
Definition rank (s : State) : Z := 12 * Z.of_nat (length (queue s)) + zsum (wrank <$> workers s) + lrank (loop s).

(** Actions of the runner itself, an [Execute] returning included. *)
Definition internal (l : label) : Prop :=
  match l with
  | LoopStep | LoopTimeout | Receive _ | Finish _ _ | WorkerStep _ => True
  | _ => False
  end.

Lemma shutdown_rank c l s s' :
  internal l -> in_shutdown (loop s) = true -> do_step c l s = Some s' ->
  rank s' < rank s /\ in_shutdown (loop s') = true.
Proof.
  intros Hin Hsh H. unfold rank. destruct l as [|f|ok| | | |i|i ok|i| |]; try done; cbn [do_step] in H.
  - unfold loop_step in H. destruct (loop s) eqn:El; try done; case_match; try done; injection H as <-; proj; cbn; lia.
  - destruct (loop s) eqn:El; try done. injection H as <-. proj. cbn. lia.
  - destruct (workers s !! i) as [[]|] eqn:Hi; try done. destruct (queue s) as [|f rest] eqn:Eq; [done|].
    injection H as <-. proj. rewrite (zsum_insert _ _ _ _ _ Hi). cbn [wrank length]. split; [lia|done].
  - destruct (workers s !! i) as [[]|] eqn:Hi; try done. injection H as <-. proj.
    rewrite (zsum_insert _ _ _ _ _ Hi). cbn [wrank]. split; [lia|done].
  - unfold worker_step in H. destruct (workers s !! i) as [x|] eqn:Hi; [|done].
    destruct x; try done; try (case_match; [|done]); injection H as <-; proj;
      rewrite (zsum_insert _ _ _ _ _ Hi); cbn [wrank]; (split; [lia|done]).
Qed.

(** A worker that is not at rest can always move when sampling holds no slot it needs. *)
Lemma worker_can_move c s i p :
  inv c s -> workers s !! i = Some p -> p <> W_Idle -> p <> W_Exited ->
  (forall f, p = W_Acquire f -> semUsed s < providerLimit c) ->
  exists l s', internal l /\ do_step c l s = Some s'.
Proof.
  intros Hs Hi H1 H2 Hacq.
  assert (Hx : (exists f, p = W_Exec f) \/ ~ exists f, p = W_Exec f)
    by (destruct p; eauto; right; intros [? ?]; done).
  destruct Hx as [[f ->]|Hne].
  { exists (Finish i true). cbn [do_step internal]. rewrite Hi. eauto. }
  exists (WorkerStep i). cbn [do_step internal]. unfold worker_step. rewrite Hi.
  destruct p; try done; try (by eexists); try (by destruct Hne; eauto).
  rewrite (proj2 (Z.ltb_lt _ _)) by (by eapply Hacq). eauto.
Qed.

Lemma zsum_pos_elem {A} (g : A -> Z) (l : list A) :
  (forall y, 0 <= g y) -> 0 < zsum (g <$> l) -> exists i x, l !! i = Some x /\ 0 < g x.
Proof.
  intros Hg. induction l as [|x l IH]; [done|]. rewrite fmap_cons, zsum_cons. intros H.
  destruct (decide (0 < g x)); [by exists 0%nat, x|]. destruct IH as (i & y & Hi & Hy); [lia|].
  by exists (S i), y.
Qed.

Definition executing (p : wpc) : Z := match p with W_Exec _ => 1 | _ => 0 end.

Lemma total_le g h s : (forall p, g p <= h p) -> total g s <= total h s.
Proof.
  intros Hgh. unfold total. induction (workers s) as [|p l IH]; [done|].
  rewrite !fmap_cons, !zsum_cons. specialize (Hgh p). lia.
Qed.

Lemma total_le_length g s : (forall p, g p <= 1) -> total g s <= Z.of_nat (length (workers s)).
Proof.
  intros Hg. unfold total. induction (workers s) as [|p l IH]; [done|].
  rewrite fmap_cons, zsum_cons. cbn [length]. specialize (Hg p). lia.
Qed.

Lemma worker_not_queued c s i f : inv c s -> workers s !! i = Some (W_Exec f) -> f ∉ queue s.
Proof.
  intros Hs Hi Hq%queued_elem. pose proof (holds_le_1 _ _ f Hs) as Hh. unfold holds in Hh.
  assert (1 <= total (wtok f) s).
  { rewrite <- (is_feed_refl f) at 1. apply (zsum_elem (wtok f) (workers s) (W_Exec f)); [apply wtok_nonneg|].
    by apply list_elem_of_lookup_2 with i. }
  pose proof (ltok_nonneg f (loop s)). lia.
Qed.

Lemma do_step_workers c l s s' : do_step c l s = Some s' -> length (workers s') = length (workers s).
Proof.
  destruct l as [|f|ok| | | |i|i ok|i| |]; cbn [do_step]; unfold first_check, loop_step, worker_step;
    intros H; repeat case_match; simplify_eq/=; rewrite ?length_insert; done.
Qed.

Lemma reachable_workers c n a s : rtc (step c) (initial n a) s -> length (workers s) = n.
Proof.
  intros H. remember (initial n a) as s0 eqn:E.
  assert (H0 : length (workers s0) = n) by (subst; apply length_replicate). clear E.
  induction H as [|s0 s1 s2 [l ? Hl] _ IH]; [done|]. apply IH. by rewrite (do_step_workers _ _ _ _ Hl).
Qed.

(** C27: in every interleaving, no feed executes on two workers at once, a feed
    that executes is not also queued and is queued at most once, no more than
    [min(maxConcurrent, providerLimit)] runs execute, and none of the counters
    is ever negative, so [inFlight.Done] never panics. *)
Theorem scheduler_single_flight c n a s :
  config_ok c -> rtc (step c) (initial n a) s ->
  (forall i j f, workers s !! i = Some (W_Exec f) -> workers s !! j = Some (W_Exec f) -> i = j)
  /\ (forall i f, workers s !! i = Some (W_Exec f) -> f ∉ queue s)
  /\ NoDup (queue s)
  /\ total executing s <= Z.min (Z.of_nat n) (providerLimit c)
  /\ 0 <= inFlight s /\ 0 <= inFlightN s /\ 0 <= queueDepth s.
Proof.
  intros Hc Hr. pose proof (reachable_inv _ _ _ _ Hc Hr) as Hs. split_and!.
  - intros i j f Hi Hj. by eapply (workers_distinct c s i j _ _ f); eauto; cbn; rewrite is_feed_refl.
  - intros i f. by apply worker_not_queued with c.
  - apply queued_NoDup. intros f. pose proof (holds_le_1 _ _ f Hs) as Hh. unfold holds in Hh.
    pose proof (ltok_nonneg f (loop s)). pose proof (total_nonneg (wtok f) s (wtok_nonneg f)). lia.
  - pose proof (inv_sem _ _ Hs). pose proof (inv_limit _ _ Hs). pose proof (inv_ext _ _ Hs).
    assert (total executing s <= total wsem s) by (apply total_le; intros []; cbn; lia).
    assert (total executing s <= Z.of_nat (length (workers s)))
      by (apply total_le_length; intros []; cbn; lia).
    rewrite (reachable_workers _ _ _ _ Hr) in *. lia.
  - rewrite (inv_wg _ _ Hs). pose proof (total_nonneg wwg s wwg_nonneg). destruct (loop s); cbn; lia.
  - rewrite (inv_ifn _ _ Hs). apply total_nonneg. intros []; cbn; lia.
  - rewrite (inv_qd _ _ Hs). assert (0 <= total wqd s) by (apply total_nonneg; intros []; cbn; lia).
    destruct (loop s); cbn; lia.
Qed.

Definition no_accounts : Accounts := MkAccounts ∅ ∅ [].

(** Two feeds, one worker, one provider slot. *)
Definition demo_config : Config := MkConfig {[1; 2]} 2 1 5.
(** One feed executing, the other queued. *)
Definition demo_labels : list label :=
  [Dispatch 1; GateAnswer true; LoopStep; LoopStep; LoopStep; LoopStep; Receive 0; WorkerStep 0;
   WorkerStep 0; WorkerStep 0; WorkerStep 0; Dispatch 2; GateAnswer true; LoopStep; LoopStep; LoopStep; LoopStep].
Definition demo_busy : State :=
  MkState {[1; 2]} no_accounts [2] false 1 1 2 1 0 {[1]} ∅ false L_Idle [W_Exec 1].

Lemma run_labels_rtc c ls s s' : run_labels c ls s = Some s' -> rtc (step c) s s'.
Proof.
  revert s. induction ls as [|l ls IH]; intros s H; cbn in H; [by simplify_eq|].
  destruct (do_step c l s) as [s1|] eqn:E; [|done]. eapply rtc_l; [by econstructor|by apply IH].
Qed.

Lemma demo_busy_reachable : rtc (step demo_config) (initial 1 no_accounts) demo_busy.
Proof. apply (run_labels_rtc _ demo_labels). vm_compute. reflexivity. Qed.

Lemma demo_config_ok : config_ok demo_config.
Proof. split; [done|]. vm_compute. lia. Qed.

Lemma scheduler_single_flight_witness :
  total executing demo_busy = 1 /\ total executing demo_busy <= Z.min 1 1.
Proof.
  split; [reflexivity|].
  exact (proj1 (proj2 (proj2 (proj2 (scheduler_single_flight _ _ _ _ demo_config_ok demo_busy_reachable))))).
Defined.

(** the send of [maybeDispatch] never blocks: whenever the loop stands at
    the [select], the channel has room, so the send can be taken. *)
Theorem dispatch_never_blocks c n a s f :
  config_ok c -> rtc (step c) (initial n a) s -> loop s = L_Send f ->
  do_step c LoopStep s = Some (set_loop L_Idle (set_queue (queue s ++ [f]) (closed s) s)).
Proof.
  intros Hc Hr Hl. pose proof (queue_room _ _ _ Hc (reachable_inv _ _ _ _ Hc Hr) Hl) as Hq.
  cbn [do_step]. unfold loop_step. rewrite Hl. by rewrite (proj2 (Nat.ltb_lt _ _) Hq).
Qed.

Definition demo_sending : State :=
  MkState {[1; 2]} no_accounts [] false 1 1 2 1 0 {[1]} ∅ false (L_Send 2) [W_Exec 1].

Lemma dispatch_never_blocks_witness : do_step demo_config LoopStep demo_sending = Some demo_busy.
Proof.
  refine (dispatch_never_blocks demo_config 1 no_accounts demo_sending 2 demo_config_ok _ eq_refl).
  apply (run_labels_rtc _ (take 16 demo_labels)). vm_compute. reflexivity.
Defined.

(** ** The shutdown *)

Definition all_exited (s : State) : bool :=
  forallb (fun p => match p with W_Exited => true | _ => false end) (workers s).

Lemma all_exited_lookup s i p : all_exited s = true -> workers s !! i = Some p -> p = W_Exited.
Proof.
  intros H Hi. unfold all_exited in H. rewrite forallb_forall in H.
  specialize (H p). rewrite <- list_elem_of_In in H.
  destruct p; try (by discriminate H; apply list_elem_of_lookup_2 with i); done.
Qed.

Lemma returned_step c l s s' :
  (loop s = L_Returned -> all_exited s = true) -> do_step c l s = Some s' ->
  loop s' = L_Returned -> all_exited s' = true.
Proof.
  intros Hs H Hl. destruct (decide (loop s = L_Returned)) as [Hr|Hr].
  - specialize (Hs Hr). destruct l as [|f|ok| | | |i|i ok|i| |]; cbn [do_step] in H.
    1-6,10-11: unfold loop_step in H; rewrite ?Hr in H; repeat case_match; by simplify_eq/=.
    1-3: unfold worker_step in H; destruct (workers s !! i) as [p|] eqn:Hi; [|done];
      rewrite (all_exited_lookup _ _ _ Hs Hi) in H; done.
  - destruct l as [|f|ok| | | |i|i ok|i| |]; cbn [do_step] in H; unfold first_check, loop_step, worker_step in H;
      repeat case_match; simplify_eq/=; try done; try congruence.
Qed.

Lemma reachable_returned c n a s :
  rtc (step c) (initial n a) s -> loop s = L_Returned -> all_exited s = true.
Proof.
  intros H. assert (H0 : loop (initial n a) = L_Returned -> all_exited (initial n a) = true) by done.
  induction H as [|s0 s1 s2 [l ? Hl] _ IH]; [done|]. apply IH. by eapply returned_step.
Qed.

Lemma total_all_exited g s : g W_Exited = 0 -> all_exited s = true -> total g s = 0.
Proof.
  intros Hg H. unfold total, all_exited in *. induction (workers s) as [|p l IH]; [done|].
  cbn in H. bools. rewrite fmap_cons, zsum_cons, IH by done. destruct p; try done. lia.
Qed.

Lemma indicator_empty (x : gset Z) : (forall f, 0 = b2z (bool_decide (f ∈ x))) -> x = ∅.
Proof.
  intros H. apply set_eq. intros f. specialize (H f). case_bool_decide; [by cbn in H|].
  split; [done|]. intros Hf. by apply not_elem_of_empty in Hf.
Qed.

(** when [Run] has returned nothing is left behind: every worker goroutine
    has exited, the queue is drained, no feed is marked running, no context is
    registered for cancellation, every counter is zero, and the runs hold no
    provider slot. *)
Theorem shutdown_leaves_nothing c n a s :
  config_ok c -> rtc (step c) (initial n a) s -> loop s = L_Returned ->
  all_exited s = true /\ queue s = [] /\ running s = ∅ /\ runCancel s = ∅
  /\ inFlight s = 0 /\ inFlightN s = 0 /\ queueDepth s = 0 /\ semUsed s = external s.
Proof.
  intros Hc Hr Hl. pose proof (reachable_inv _ _ _ _ Hc Hr) as Hs.
  pose proof (reachable_returned _ _ _ _ Hr Hl) as He.
  pose proof (inv_joined _ _ Hs (or_intror Hl)) as H0. pose proof (inv_wg _ _ Hs) as Hw.
  rewrite (total_all_exited wwg s) in Hw by done. rewrite Hl in Hw. cbn [lwg] in Hw.
  assert (Hq : queue s = []) by (apply length_zero_iff_nil; lia).
  split_and!; [done|done| | |done| | |].
  - apply indicator_empty. intros f. rewrite <- (inv_holds _ _ Hs f). unfold holds.
    by rewrite Hl, Hq, total_all_exited by done.
  - apply indicator_empty. intros f. rewrite <- (inv_reg _ _ Hs f). by rewrite total_all_exited by done.
  - by rewrite (inv_ifn _ _ Hs), total_all_exited by done.
  - rewrite (inv_qd _ _ Hs), total_all_exited, Hl, Hq by done. done.
  - rewrite (inv_sem _ _ Hs), total_all_exited by done. done.
Qed.

(** The worker finishes its feed: seven actions after [Execute] returns. *)
Definition finish_labels : list label :=
  Finish 0 true :: replicate 6 (WorkerStep 0).
Definition serve_labels : list label := Receive 0 :: replicate 4 (WorkerStep 0).

Definition drain_labels : list label :=
  demo_labels ++ [CtxCancel; LoopStep] ++ finish_labels ++ serve_labels ++ finish_labels
    ++ [WorkerStep 0; LoopStep; LoopStep].
Definition demo_returned : State :=
  MkState ∅ (MkAccounts {[1 := 0; 2 := 0]} ∅ [OpReset 1; OpReset 2]) [] true 0 0 0 0 0 ∅ ∅ true
    L_Returned [W_Exited].

Lemma shutdown_leaves_nothing_witness : loop demo_returned = L_Returned /\ running demo_returned = ∅.
Proof.
  split; [reflexivity|].
  refine (proj1 (proj2 (proj2 (shutdown_leaves_nothing demo_config 1 no_accounts demo_returned demo_config_ok _ eq_refl)))).
  apply (run_labels_rtc _ drain_labels). vm_compute. reflexivity.
Defined.

(** Some action is enabled in a shutdown that has not ended. *)
Lemma shutdown_progress c s :
  inv c s -> in_shutdown (loop s) = true -> loop s <> L_Returned ->
  (1 <= length (workers s))%nat -> external s < providerLimit c ->
  exists l s', internal l /\ do_step c l s = Some s'.
Proof.
  intros Hs Hsh Hl Hn Hext.
  assert (Hcl : closed s = true) by (by rewrite (inv_closed _ _ Hs)).
  destruct (decide (0 < total wsem s)) as [Hsem|Hsem].
  { apply zsum_pos_elem in Hsem as (i & p & Hi & Hp); [|intros []; cbn; lia].
    apply (worker_can_move _ _ i p); try done; try (by intros ->); by intros f ->. }
  assert (Hmove : forall i p, workers s !! i = Some p -> p <> W_Idle -> p <> W_Exited ->
    exists l s', internal l /\ do_step c l s = Some s').
  { intros i p Hi H1 H2. apply (worker_can_move _ _ i p); try done. intros f _.
    rewrite (inv_sem _ _ Hs). lia. }
  destruct (queue s) as [|f rest] eqn:Hq.
  - destruct (all_exited s) eqn:He.
    + exists LoopStep. cbn [do_step]. unfold loop_step.
      assert (Hw : inFlight s = 0).
      { rewrite (inv_wg _ _ Hs), total_all_exited, Hq by done. by destruct (loop s). }
      unfold all_exited in He. destruct (loop s); try done; rewrite ?Hw, ?He; cbn [internal Z.eqb]; eauto.
    + assert (exists i p, workers s !! i = Some p /\ p <> W_Exited) as (i & p & Hi & Hp).
      { unfold all_exited in He. clear -He. induction (workers s) as [|p l IH]; [done|]. cbn in He.
        destruct p; try (by exists 0%nat; eexists). destruct IH as (i & q & ? & ?); [done|]. by exists (S i), q. }
      destruct (decide (p = W_Idle)) as [->|Hne]; [|by eapply Hmove].
      exists (WorkerStep i). cbn [do_step internal]. unfold worker_step. rewrite Hi, Hcl, Hq. cbn. eauto.
  - destruct (workers s !! 0%nat) as [p|] eqn:Hi; [|apply lookup_ge_None in Hi; lia].
    destruct (decide (p = W_Idle)) as [->|Hne].
    + exists (Receive 0). cbn [do_step internal]. rewrite Hi, Hq. eauto.
    + apply (Hmove 0%nat p); try done. intros ->. apply list_elem_of_lookup_2 in Hi.
      apply (inv_exited _ _ Hs) in Hi as [_ ?]. congruence.
Qed.

Lemma internal_external c l s s' :
  internal l -> do_step c l s = Some s' -> external s' = external s.
Proof.
  destruct l as [|f|ok| | | |i|i ok|i| |]; try done; intros _; cbn [do_step]; unfold loop_step, worker_step;
    intros H; repeat case_match; simplify_eq/=; lia.
Qed.

Lemma rank_nonneg s : 0 <= rank s.
Proof.
  unfold rank. assert (0 <= total wrank s) by (apply total_nonneg; intros []; cbn; lia).
  unfold total in *. destruct (loop s); cbn; lia.
Qed.

(** Along internal actions of a shutdown the invariants stay and [rank] falls. *)
Lemma internal_run c ls s s' :
  Forall internal ls -> inv c s -> in_shutdown (loop s) = true -> run_labels c ls s = Some s' ->
  inv c s' /\ in_shutdown (loop s') = true /\ external s' = external s
  /\ length (workers s') = length (workers s) /\ Z.of_nat (length ls) + rank s' <= rank s.
Proof.
  intros Hls. revert s. induction Hls as [|l ls Hl _ IH]; intros s Hs Hsh H; cbn in H.
  - simplify_eq. cbn. split_and!; done || lia.
  - destruct (do_step c l s) as [s1|] eqn:E; [|done].
    destruct (shutdown_rank _ _ _ _ Hl Hsh E) as [Hrk Hsh1].
    assert (Hs1 : inv c s1) by (eapply step_inv; [done|by econstructor]).
    destruct (IH s1 Hs1 Hsh1 H) as (Hi & Hi2 & Hi3 & Hi4 & Hi5).
    rewrite (internal_external _ _ _ _ Hl E) in Hi3. rewrite (do_step_workers _ _ _ _ E) in Hi4.
    split_and!; try done. cbn [length]. lia.
Qed.

(** C39: once the channel is closed the shutdown always ends: whatever order the
    goroutines move in, at most [rank s] more actions can happen, and until
    [Run] has returned one of them is possible. There is at least one worker,
    and sampling must leave the runs a provider slot. *)
Theorem shutdown_terminates c n a s ls s' :
  config_ok c -> rtc (step c) (initial n a) s -> (1 <= n)%nat ->
  in_shutdown (loop s) = true -> external s < providerLimit c ->
  Forall internal ls -> run_labels c ls s = Some s' ->
  Z.of_nat (length ls) <= rank s
  /\ (loop s' = L_Returned \/ exists l s'', internal l /\ do_step c l s' = Some s'').
Proof.
  intros Hc Hr Hn Hsh Hext Hls H. pose proof (reachable_inv _ _ _ _ Hc Hr) as Hs.
  destruct (internal_run _ _ _ _ Hls Hs Hsh H) as (Hs' & Hsh' & He & Hw & Hrk).
  pose proof (rank_nonneg s'). split; [lia|].
  destruct (decide (loop s' = L_Returned)) as [|Hne]; [by left|right].
  apply shutdown_progress; try done; [|lia]. rewrite Hw, (reachable_workers _ _ _ _ Hr). done.
Qed.

(** Shutting down with one feed executing and one queued. *)
Definition demo_closing : State :=
  MkState {[1; 2]} no_accounts [2] true 1 1 2 1 0 {[1]} ∅ true L_Wait [W_Exec 1].

Lemma demo_closing_reachable : rtc (step demo_config) (initial 1 no_accounts) demo_closing.
Proof. apply (run_labels_rtc _ (demo_labels ++ [CtxCancel; LoopStep])). vm_compute. reflexivity. Qed.

Lemma shutdown_terminates_witness :
  exists l s'', internal l /\ do_step demo_config l demo_closing = Some s''.
Proof.
  destruct (shutdown_terminates demo_config 1 no_accounts demo_closing [] demo_closing
    demo_config_ok demo_closing_reachable (le_n 1) eq_refl eq_refl (Forall_nil_2 _) eq_refl)
    as [_ [H|H]]; [discriminate H|exact H].
Defined.

(** ** Automatic disabling *)

(** The feed is disabled, and the last run that was under way has ended. *)
Definition retired (f : Z) (s : State) : Prop := (f ∈ disabled (acc s)) /\ f ∉ running s.

Lemma recordOutcome_grows m f ok a g : g ∈ disabled a -> g ∈ disabled (recordOutcome m f ok a).
Proof. intros H. unfold recordOutcome. destruct ok; [done|]. case_match; cbn; set_solver. Qed.

Lemma retired_step c f s s' : inv c s -> retired f s -> step c s s' -> retired f s'.
Proof.
  intros Hs [Hd Hr] [l s1 H].
  assert (Hg : loop s <> L_Recheck f)
    by (intros E; destruct (inv_gate _ _ Hs f (or_intror E)) as [_ ?]; done).
  unfold retired. destruct l as [|g|ok| | | |i|i ok|i| |]; cbn [do_step] in H.
  - simplify_eq. done.
  - unfold first_check in H. repeat case_match; simplify_eq; done.
  - repeat case_match; simplify_eq; done.
  - unfold loop_step in H. destruct (loop s) as [|g|g|g|g|g|g|g|g| | | |] eqn:E; repeat case_match; simplify_eq/=; try done;
      split; try done; set_solver.
  - repeat case_match; simplify_eq; done.
  - repeat case_match; simplify_eq; done.
  - repeat case_match; simplify_eq; done.
  - repeat case_match; simplify_eq; done.
  - unfold worker_step in H. repeat case_match; simplify_eq/=; try done.
    + split; [by apply recordOutcome_grows|done].
    + split; [done|set_solver].
  - repeat case_match; simplify_eq; done.
  - repeat case_match; simplify_eq; done.
Qed.

(** a feed that was disabled automatically never runs again in this
    process: once the run that tripped the threshold is over, no later state,
    in any interleaving, has the feed queued or on a worker. *)
Theorem disabled_feed_never_runs c n a s s' f :
  config_ok c -> rtc (step c) (initial n a) s -> f ∈ disabled (acc s) -> f ∉ running s ->
  rtc (step c) s s' ->
  (f ∉ queue s') /\ forall i p, workers s' !! i = Some p -> wtok f p = 0.
Proof.
  intros Hc Hr Hd Hrun Hrest. pose proof (reachable_inv _ _ _ _ Hc Hr) as Hs.
  assert (Hret : retired f s' /\ inv c s').
  { assert (Hret : retired f s) by done. clear Hr Hd Hrun.
    induction Hrest as [|s0 s1 s2 H01 _ IH]; [done|]. apply IH; [by eapply step_inv|by eapply retired_step]. }
  destruct Hret as [[_ Hrun'] Hs']. pose proof (inv_holds _ _ Hs' f) as Hh. unfold holds in Hh.
  rewrite bool_decide_eq_false_2 in Hh by done. cbn in Hh.
  pose proof (ltok_nonneg f (loop s')). pose proof (queued_nonneg f (queue s')).
  pose proof (total_nonneg (wtok f) s' (wtok_nonneg f)). split.
  - intros Hq%queued_elem. lia.
  - intros i p Hi. apply (total_zero_all (wtok f) s'); [apply wtok_nonneg|lia|].
    by apply list_elem_of_lookup_2 with i.
Qed.

(** One failure disables. *)
Definition strict_config : Config := MkConfig {[1; 2]} 2 1 1.
Definition demo_disabled : State :=
  MkState ∅ (MkAccounts {[1 := 1]} {[1]} [OpRecord 1; OpDisable 1]) [] false 0 0 0 0 0 ∅ ∅ false
    L_Idle [W_Idle].

Lemma disabled_feed_never_runs_witness :
  (1 ∈ disabled (acc demo_disabled)) /\ 1 ∉ queue demo_disabled.
Proof.
  split; [reflexivity|].
  refine (proj1 (disabled_feed_never_runs strict_config 1 no_accounts demo_disabled demo_disabled 1 _ _ _ _ _)).
  - split; [done|]. vm_compute. lia.
  - apply (run_labels_rtc _ (take 11 demo_labels ++ Finish 0 false :: replicate 6 (WorkerStep 0))).
    vm_compute. reflexivity.
  - reflexivity.
  - apply not_elem_of_empty.
  - constructor.
Defined.

(** past the shutdown timeout a run can still start, on a context nobody
    cancels: [shutdown] cancels the contexts registered at that moment, and a
    feed that is queued then gets its own context later. Here feed 2 begins to
    execute after the cancellation of feed 1, and is never cancelled. *)
Theorem late_run_not_cancelled :
  exists s s', rtc (step demo_config) (initial 1 no_accounts) s
    /\ loop s = L_Cancelled /\ cancelled s = {[1]} /\ rtc (step demo_config) s s'
    /\ workers s' !! 0%nat = Some (W_Exec 2) /\ loop s' = L_Cancelled /\ 2 ∉ cancelled s'.
Proof.
  exists (MkState {[1; 2]} no_accounts [2] true 1 1 2 1 0 {[1]} {[1]} true L_Cancelled [W_Exec 1]).
  exists (MkState {[2]} (MkAccounts {[1 := 1]} ∅ [OpRecord 1]) [] true 0 1 1 1 0 {[2]} {[1]} true L_Cancelled
            [W_Exec 2]).
  split_and!; try done.
  - apply (run_labels_rtc _ (demo_labels ++ [CtxCancel; LoopStep; LoopTimeout])). vm_compute. reflexivity.
  - apply (run_labels_rtc _ (Finish 0 false :: replicate 6 (WorkerStep 0) ++ serve_labels)).
    vm_compute. reflexivity.
Qed.

(** ** Failure streaks *)

(** The consecutive failures of [f] after the outcomes, from [n] before them. *)
Definition streak (f n : Z) (outcomes : list (Z * bool)) : Z :=
  foldl (fun n (o : Z * bool) => let '(g, ok) := o in if g =? f then (if ok then 0 else n + 1) else n) n outcomes.

Definition record_all (maxFailures : Z) (outcomes : list (Z * bool)) (a : Accounts) : Accounts :=
  foldl (fun a o => recordOutcome maxFailures o.1 o.2 a) a outcomes.

Lemma recordOutcome_count m f ok a g :
  failure_count (recordOutcome m f ok a) g
  = if f =? g then (if ok then 0 else failure_count a f + 1) else failure_count a g.
Proof.
  unfold recordOutcome, failure_count. destruct (Z.eqb_spec f g) as [->|Hne]; destruct ok;
    repeat case_match; cbn; by rewrite ?lookup_insert_eq, ?lookup_insert_ne by done.
Qed.

Lemma recordOutcome_disables m f ok a g :
  g ∈ disabled (recordOutcome m f ok a) <->
  g ∈ disabled a \/ f = g /\ ok = false /\ m <= failure_count a f + 1.
Proof.
  unfold recordOutcome. destruct ok; cbn; [naive_solver|].
  destruct (m <=? failure_count a f + 1) eqn:Em; bools; cbn.
  - case_bool_decide; cbn; set_solver.
  - split; [tauto|]. intros [?|(? & _ & ?)]; [done|lia].
Qed.

(** Disabled by one of the outcomes: a failure that made the streak long enough. *)
Lemma record_all_disabled m ocs a f :
  f ∈ disabled (record_all m ocs a) <->
  f ∈ disabled a \/ exists before rest, ocs = before ++ (f, false) :: rest
                      /\ m <= streak f (failure_count a f) before + 1.
Proof.
  revert a. induction ocs as [|[g ok] ocs IH]; intros a; cbn.
  - split; [tauto|]. intros [?|([|? ?] & ? & ? & _)]; [done|by simplify_eq/=..].
  - unfold record_all in IH. rewrite IH, recordOutcome_disables, recordOutcome_count. clear IH. split.
    + intros [[?|(-> & -> & ?)]|(before & rest & -> & Hle)]; [by left| |].
      * right. exists [], ocs. done.
      * right. exists ((g, ok) :: before), rest. split; [done|]. cbn.
        destruct (Z.eqb_spec g f) as [->|]; done.
    + intros [?|([|[g' ok'] before] & rest & E & Hle)]; simplify_eq/=; [tauto|left; right; split_and!; done || lia|].
      right. exists before, rest. split; [done|]. destruct (Z.eqb_spec g' f) as [->|]; done.
Qed.

Lemma record_all_count m ocs a f :
  failure_count (record_all m ocs a) f = streak f (failure_count a f) ocs.
Proof.
  revert a. induction ocs as [|[g ok] ocs IH]; intros a; cbn; [done|].
  unfold record_all in IH. rewrite IH, recordOutcome_count.
  destruct (Z.eqb_spec g f) as [->|]; done.
Qed.

(** The stored count of a scheduled feed, 0 otherwise. *)
Definition seeded (jobs : gmap Z Job) (loaded : option (gmap Z Z)) (f : Z) : Z :=
  match loaded with
  | Some counts => if bool_decide (is_Some (jobs !! f)) then default 0 (counts !! f) else 0
  | None => 0
  end.

Lemma seedFailures_count jobs loaded f :
  failure_count (seedFailures jobs loaded no_accounts) f = seeded jobs loaded f.
Proof.
  unfold seedFailures, seeded, failure_count. destruct loaded as [counts|]; cbn; [|done].
  rewrite (right_id_L ∅ (∪)). case_bool_decide as Hj.
  - destruct (counts !! f) as [n|] eqn:E; cbn.
    + by rewrite (map_lookup_filter_Some_2 _ counts f n) by done.
    + by rewrite map_lookup_filter_None_2 by (by left).
  - rewrite map_lookup_filter_None_2; [done|]. right. by intros n _.
Qed.

(** after any outcomes of any feeds, from the counts stored before the
    restart, the count of a feed is its streak of consecutive failures, a
    success resetting it; and the feed is disabled exactly when some failure
    brought the streak to the threshold. *)
Theorem auto_disable_exact m jobs loaded ocs f :
  let a := record_all m ocs (seedFailures jobs loaded no_accounts) in
  failure_count a f = streak f (seeded jobs loaded f) ocs
  /\ (f ∈ disabled a <-> exists before rest, ocs = before ++ (f, false) :: rest
                           /\ m <= streak f (seeded jobs loaded f) (before ++ [(f, false)])).
Proof.
  cbn zeta. rewrite record_all_count, record_all_disabled, seedFailures_count. split; [done|].
  assert (H0 : f ∉ disabled (seedFailures jobs loaded no_accounts)) by (destruct loaded; done).
  assert (Hs : forall n before, streak f n (before ++ [(f, false)]) = streak f n before + 1).
  { intros n before. unfold streak. rewrite foldl_app. cbn. by rewrite Z.eqb_refl. }
  split.
  - intros [?|(before & rest & ? & ?)]; [done|]. exists before, rest. rewrite Hs. done.
  - intros (before & rest & ? & H). rewrite Hs in H. right. by exists before, rest.
Qed.

(** ** Firing on time *)

Lemma earliest_step_None window jobs acc e :
  earliest_step window jobs acc e = None -> acc = None.
Proof. destruct e as [id nominal]. unfold earliest_step. repeat case_match; by intros ?. Qed.

(** Entry [e] can fire at time [at_]. *)
Definition fires_at (window : Z) (jobs : gmap Z Job) (e : Z * Z) (at_ : Z) : Prop :=
  is_zero e.2 = false /\ exists j, jobs !! e.1 = Some j /\ at_ = dueTime e.2 (Slug j) window.

Lemma earliest_foldl window jobs next acc :
  match foldl (earliest_step window jobs) acc next with
  | None => acc = None /\ forall e at_, e ∈ next -> ~ fires_at window jobs e at_
  | Some (id, at_) =>
      (acc = Some (id, at_) \/ exists nominal, (id, nominal) ∈ next /\ fires_at window jobs (id, nominal) at_)
      /\ (forall i t, acc = Some (i, t) -> at_ <= t)
      /\ (forall e t, e ∈ next -> fires_at window jobs e t -> at_ <= t)
  end.
Proof.
  revert acc. induction next as [|e next IH]; intros acc; cbn.
  - destruct acc as [[id at_]|]; [|split; [done|]; intros ? ? Hin; by apply not_elem_of_nil in Hin].
    split_and!; [by left|intros; simplify_eq; lia|intros ? ? Hin; by apply not_elem_of_nil in Hin].
  - specialize (IH (earliest_step window jobs acc e)).
    assert (Hfire : forall t, fires_at window jobs e t ->
              exists i t', earliest_step window jobs acc e = Some (i, t') /\ t' <= t).
    { intros t [Hz (j & Hj & ->)]. destruct e as [id nominal]. cbn in *. rewrite Hz, Hj.
      destruct acc as [[i t']|]; [|by eexists _, _]. split_if; eexists _, _; split; reflexivity || bools; lia. }
    assert (Hacc : forall i t, acc = Some (i, t) ->
              exists i' t', earliest_step window jobs acc e = Some (i', t') /\ t' <= t).
    { intros i t ->. destruct e as [id nominal]. cbn. repeat case_match; bools; eexists _, _;
        split; try reflexivity; lia. }
    destruct (foldl _ _ next) as [[id at_]|].
    + destruct IH as (Hex & Hle & Hall). split_and!.
      * destruct Hex as [Hst|(nominal & ? & ?)]; [|right; exists nominal; split; [by right|done]].
        destruct e as [i nominal]. unfold earliest_step in Hst. unfold fires_at. cbn.
        repeat case_match; simplify_eq/=; try (by left); right; exists nominal; eauto using list_elem_of_here.
      * intros i t Ha. destruct (Hacc _ _ Ha) as (i' & t' & E & ?). apply Hle in E. lia.
      * intros e' t [->|Hin]%elem_of_cons Hf; [|by eapply Hall].
        destruct (Hfire _ Hf) as (i' & t' & E & ?). apply Hle in E. lia.
    + destruct IH as [Hn Hall]. split; [by eapply earliest_step_None|].
      intros e' t [->|Hin]%elem_of_cons Hf; [|by eapply Hall].
      destruct (Hfire _ Hf) as (i' & t' & E & ?). congruence.
Qed.

Lemma earliest_spec window jobs next id at_ :
  earliest window jobs next = Some (id, at_) ->
  (exists nominal, (id, nominal) ∈ next /\ fires_at window jobs (id, nominal) at_)
  /\ forall e t, e ∈ next -> fires_at window jobs e t -> at_ <= t.
Proof.
  intros H. pose proof (earliest_foldl window jobs next None) as Hs. unfold earliest in H. rewrite H in Hs.
  destruct Hs as ([?|?] & _ & ?); done.
Qed.

Lemma tick_fired window jobs now next f :
  f ∈ (tick window jobs now next).1 <->
  exists nominal t, ((f, nominal) ∈ next) /\ fires_at window jobs (f, nominal) t /\ t <= now.
Proof.
  unfold fires_at. induction next as [|[id nominal] next IH]; cbn [tick].
  - split; [intros H; by apply not_elem_of_nil in H|]. intros (? & ? & H & _). by apply not_elem_of_nil in H.
  - destruct (tick window jobs now next) as [fired rest]. cbn [fst] in IH. cbn [fst snd].
    assert (Hcons : (exists n t, ((f, n) ∈ (id, nominal) :: next) /\ (is_zero n = false /\ exists j, jobs !! f = Some j /\ t = dueTime n (Slug j) window) /\ t <= now)
      <-> (f = id /\ is_zero nominal = false /\ exists j, jobs !! id = Some j /\ dueTime nominal (Slug j) window <= now)
          \/ f ∈ fired).
    { rewrite IH. split.
      - intros (n & t & [E|Hin]%elem_of_cons & (Hz & j & Hj & ->) & Ht); [|right; eauto 10].
        injection E as -> ->. left. eauto.
      - intros [(-> & Hz & j & Hj & Ht)|(n & t & Hin & Hrest)].
        + exists nominal, (dueTime nominal (Slug j) window). split_and!; eauto. apply list_elem_of_here.
        + exists n, t. split; [by apply list_elem_of_further|done]. }
    rewrite Hcons. clear Hcons IH.
    destruct (jobs !! id) as [j|]; [|cbn; naive_solver].
    destruct (is_zero nominal); [cbn; naive_solver|].
    destruct (now <? dueTime nominal (Slug j) window) eqn:E; bools; cbn.
    + split; [tauto|]. intros [(_ & _ & ? & ? & ?)|]; simplify_eq; [lia|done].
    + rewrite elem_of_cons. naive_solver.
Qed.

Lemma tick_next window jobs now next :
  (tick window jobs now next).2
  = (fun e => match jobs !! e.1 with
              | Some j => if is_zero e.2 then e
                          else if now <? dueTime e.2 (Slug j) window then e else (e.1, job_next j e.2)
              | None => e
              end) <$> next.
Proof.
  induction next as [|[id nominal] next IH]; cbn; [done|].
  destruct (tick window jobs now next) as [fired rest]. cbn in IH. subst rest. by repeat case_match.
Qed.

(** the loop sleeps until the earliest due time of all jobs and no longer,
    and on waking dispatches exactly the feeds whose due time has come, the
    one it slept for among them, each advanced from its nominal time and not
    from the clock. The wait must fit a [time.Duration] (292 years). *)
Theorem loop_fires_on_time window jobs next now id at_ :
  earliest window jobs next = Some (id, at_) -> at_ - now < 2 ^ 63 ->
  (forall e t, e ∈ next -> fires_at window jobs e t -> t <= now \/ now + wait at_ now <= t)
  /\ (forall now', now + wait at_ now <= now' -> id ∈ (tick window jobs now' next).1)
  /\ (forall now' f, f ∈ (tick window jobs now' next).1 <->
        exists nominal t, ((f, nominal) ∈ next) /\ fires_at window jobs (f, nominal) t /\ t <= now')
  /\ (forall now' f nominal j, (f, nominal) ∈ next -> jobs !! f = Some j -> is_zero nominal = false ->
        (f, if dueTime nominal (Slug j) window <=? now' then job_next j nominal else nominal)
          ∈ (tick window jobs now' next).2).
Proof.
  intros He Hd. destruct (earliest_spec _ _ _ _ _ He) as [(nominal & Hin & Hf) Hmin].
  assert (Hw : wait at_ now = Z.max 0 (at_ - now)) by (unfold wait, dur_sub; lia).
  split_and!.
  - intros e t Hin' Hf'. specialize (Hmin e t Hin' Hf'). lia.
  - intros now' Hnow. apply tick_fired. exists nominal, at_. split_and!; [done|done|lia].
  - intros now' f. apply tick_fired.
  - intros now' f n j Hin' Hj Hz. rewrite tick_next. apply list_elem_of_fmap. exists (f, n). split; [|done].
    cbn. rewrite Hj, Hz, (Z.leb_antisym now' (dueTime _ _ _)). by destruct (now' <? _).
Qed.

Definition demo_jobs : gmap Z Job :=
  {[ 1 := MkJob "anime"%string (fun t => t + 24 * hour); 2 := MkJob "manga"%string (fun t => t + hour) ]}.

Lemma loop_fires_on_time_witness :
  earliest 1 demo_jobs [(1, 2 * hour); (2, hour)] = Some (2, hour)
  /\ 2 ∈ (tick 1 demo_jobs (hour + 5) [(1, 2 * hour); (2, hour)]).1.
Proof.
  assert (H : earliest 1 demo_jobs [(1, 2 * hour); (2, hour)] = Some (2, hour)) by (vm_compute; reflexivity).
  split; [exact H|].
  refine (proj1 (proj2 (loop_fires_on_time 1 demo_jobs _ 0 _ _ H _)) _ _); [reflexivity|].
  vm_compute. discriminate.
Defined.
