(* ===== verification/PubCache.v ===== *)
(** * The render cache: internal/publish/cache.go

    The LRU cache of rendered responses that stands in front of the store on
    the public plane, with its byte ceiling, its paired permalink keys and its
    invalidation by feed slug. *)

From S2P Require Import Prelude GoStrings.
From Stdlib Require Import String Ascii.
Local Abbreviation length := List.length.

Record Entry := MkEntry {
  Body : string; GzipBody : string; ETag : string; LastModified : string; ContentType : string }.

(** The digest in hexadecimal and the compressor are library code; writing to a
    [bytes.Buffer] does not fail. *)
Definition NewEntry (sha256hex gzip : string -> string) (body contentType lastModified : string) : Entry :=
  let quote := String (ascii_of_nat 34) EmptyString in
  MkEntry body (gzip body) (quote ++ sha256hex body ++ quote) lastModified contentType.

Definition slen (s : string) : Z := Z.of_nat (String.length s).
Definition entrySize (e : Entry) : Z := slen (Body e) + slen (GzipBody e).

(** The key of an item is the key of the map. *)
Record cacheItem := MkCacheItem { entry : Entry; size : Z; pair : string }.

(** [order] holds the keys of the elements, the most recently used first. *)
Record Cache := MkCache {
  entries : gmap string cacheItem; order : list string;
  bytes : Z; max : Z; bodyBytes : Z; gzipBytes : Z }.

Definition NewCacheWithLimit (maxBytes : Z) : Cache := MkCache ∅ [] 0 maxBytes 0 0.

(** [order.Remove] and [order.MoveToFront] of the element of [key]. *)
Definition without (key : string) (l : list string) : list string := filter (fun k => k <> key) l.
#[local] Arguments without : simpl never.
Definition MoveToFront (key : string) (l : list string) : list string := key :: without key l.

Definition set_order (l : list string) (c : Cache) : Cache :=
  MkCache (entries c) l (bytes c) (max c) (bodyBytes c) (gzipBytes c).
Definition set_entries (m : gmap string cacheItem) (c : Cache) : Cache :=
  MkCache m (order c) (bytes c) (max c) (bodyBytes c) (gzipBytes c).

Definition addLocked (it : cacheItem) (c : Cache) : Cache :=
  MkCache (entries c) (order c) (bytes c + size it) (max c)
    (bodyBytes c + slen (Body (entry it))) (gzipBytes c + slen (GzipBody (entry it))).
Definition subLocked (it : cacheItem) (c : Cache) : Cache :=
  MkCache (entries c) (order c) (bytes c - size it) (max c)
    (bodyBytes c - slen (Body (entry it))) (gzipBytes c - slen (GzipBody (entry it))).

Definition Get (key : string) (c : Cache) : option Entry * Cache :=
  match entries c !! key with
  | None => (None, c)
  | Some it =>
      let c1 := set_order (MoveToFront key (order c)) c in
      let c2 := if bool_decide (pair it = ""%string) then c1
                else match entries c1 !! pair it with
                     | Some _ => set_order (MoveToFront (pair it) (order c1)) c1
                     | None => c1
                     end in
      (Some (entry it), c2)
  end.

(** An existing key keeps its pair. *)
Definition putLocked (key : string) (e : Entry) (c : Cache) : Cache :=
  match entries c !! key with
  | Some it =>
      let c1 := subLocked it c in
      let it' := MkCacheItem e (entrySize e) (pair it) in
      let c2 := addLocked it' (set_entries (<[key := it']> (entries c1)) c1) in
      set_order (MoveToFront key (order c2)) c2
  | None =>
      let it := MkCacheItem e (entrySize e) "" in
      addLocked it (set_order (key :: order c) (set_entries (<[key := it]> (entries c)) c))
  end.

Definition dropLocked (key : string) (c : Cache) : Cache :=
  match entries c !! key with
  | Some it => subLocked it (set_entries (delete key (entries c)) (set_order (without key (order c)) c))
  | None => c
  end.

Definition removeLocked (key : string) (c : Cache) : Cache :=
  match entries c !! key with
  | None => c
  | Some it =>
      let c1 := dropLocked key c in
      if bool_decide (pair it = ""%string) then c1
      else match entries c1 !! pair it with
           | Some _ => dropLocked (pair it) c1
           | None => c1
           end
  end.

(** Each round removes an element: as many rounds as elements are enough. *)
Fixpoint evict (fuel : nat) (c : Cache) : Cache :=
  match fuel with
  | O => c
  | S n =>
      if max c <? bytes c then
        match last (order c) with
        | None => c
        | Some back => evict n (removeLocked back c)
        end
      else c
  end.
Definition evictLocked (c : Cache) : Cache :=
  if max c <=? 0 then c else evict (length (order c)) c.

Definition Put (key : string) (e : Entry) (c : Cache) : Cache := evictLocked (putLocked key e c).

Definition set_pair (key twin : string) (c : Cache) : Cache :=
  match entries c !! key with
  | Some it => set_entries (<[key := MkCacheItem (entry it) (size it) twin]> (entries c)) c
  | None => c
  end.

Definition PutPair (primary alias : string) (e : Entry) (c : Cache) : Cache :=
  evictLocked (set_pair alias primary (set_pair primary alias (putLocked alias e (putLocked primary e c)))).

(** The item key of ["slug:item:<key>"], not empty. *)
Definition item_suffix (slug k : string) : option string :=
  match strip_prefix (slug ++ ":item:") k with
  | Some ""%string => None
  | r => r
  end.

Definition of_slug (slug k : string) : bool :=
  bool_decide (k = slug) || HasPrefix k (slug ++ ":").

(** The loop over the map, [ks] being the order its keys come in; a key that an
    earlier round removed is not produced. *)
Fixpoint invalidate_keys (slug : string) (ks : list string) (c : Cache) : Cache :=
  match ks with
  | [] => c
  | k :: rest =>
      let c' :=
        match entries c !! k with
        | None => c
        | Some _ =>
            if of_slug slug k
            then removeLocked k (match item_suffix slug k with
                                 | Some key => removeLocked ("item:" ++ key) c
                                 | None => c
                                 end)
            else c
        end in
      invalidate_keys slug rest c'
  end.

Definition invalidate_in (ks : list string) (slug : string) (c : Cache) : Cache :=
  removeLocked "index" (invalidate_keys slug ks c).
Definition Invalidate (slug : string) (c : Cache) : Cache :=
  invalidate_in (elements (dom (entries c))) slug c.

Definition InvalidateAll (c : Cache) : Cache := MkCache ∅ [] 0 (max c) 0 0.

Record Stats := MkStats { st_Entries : Z; st_BodyBytes : Z; st_GzipBodyBytes : Z }.
Definition cache_stats (c : Cache) : Stats :=
  MkStats (Z.of_nat (base.size (entries c))) (bodyBytes c) (gzipBytes c).

(** ** Accounting *)

(** A measure summed over the elements. *)
Definition csum (f : cacheItem -> Z) (m : gmap string cacheItem) (l : list string) : Z :=
  zsum ((fun k => match m !! k with Some it => f it | None => 0 end) <$> l).

#[local] Arguments csum : simpl never.

Record cache_ok (c : Cache) : Prop := {
  ok_nodup : NoDup (order c);
  ok_dom : forall k, k ∈ order c <-> is_Some (entries c !! k);
  ok_size : forall k it, entries c !! k = Some it -> size it = entrySize (entry it);
  ok_bytes : bytes c = csum size (entries c) (order c);
  ok_body : bodyBytes c = csum (fun it => slen (Body (entry it))) (entries c) (order c);
  ok_gzip : gzipBytes c = csum (fun it => slen (GzipBody (entry it))) (entries c) (order c) }.

Lemma without_notin k l : k ∉ without k l.
Proof. unfold without. rewrite list_elem_of_filter. tauto. Qed.
Lemma elem_of_without k x l : x ∈ without k l <-> x <> k /\ x ∈ l.
Proof. unfold without. by rewrite list_elem_of_filter. Qed.
Lemma without_NoDup k l : NoDup l -> NoDup (without k l).
Proof. apply NoDup_filter. Qed.

Lemma without_Permutation k l : NoDup l -> k ∈ l -> l ≡ₚ k :: without k l.
Proof.
  intros Hnd Hk. apply NoDup_Permutation; [done| |].
  - constructor; [apply without_notin|by apply without_NoDup].
  - intros x. rewrite elem_of_cons, elem_of_without. destruct (decide (x = k)); naive_solver.
Qed.

Lemma csum_cons f m k l :
  csum f m (k :: l) = (match m !! k with Some it => f it | None => 0 end) + csum f m l.
Proof. unfold csum. by rewrite fmap_cons, zsum_cons. Qed.

Lemma csum_split f m k it l :
  NoDup l -> k ∈ l -> m !! k = Some it -> csum f m l = f it + csum f m (without k l).
Proof.
  intros Hnd Hk Hm. unfold csum. rewrite (without_Permutation k l) at 1 by done.
  by rewrite fmap_cons, zsum_cons, Hm.
Qed.

Lemma csum_ext f m m' l : (forall k, k ∈ l -> m !! k = m' !! k) -> csum f m l = csum f m' l.
Proof.
  intros H. unfold csum. f_equal. apply list_fmap_ext. intros i k Hk%list_elem_of_lookup_2. by rewrite H.
Qed.

Lemma csum_insert f m k it l : csum f (<[k := it]> m) (without k l) = csum f m (without k l).
Proof.
  apply csum_ext. intros x Hx%elem_of_without. destruct Hx as [Hx _]. by rewrite lookup_insert_ne.
Qed.
Lemma csum_delete f m k l : csum f (delete k m) (without k l) = csum f m (without k l).
Proof.
  apply csum_ext. intros x Hx%elem_of_without. destruct Hx as [Hx _]. by rewrite lookup_delete_ne.
Qed.

Lemma csum_nonneg f m l : (forall it, 0 <= f it) -> 0 <= csum f m l.
Proof.
  intros Hf. apply zsum_nonneg, Forall_fmap, Forall_true. intros k. cbn. by destruct (m !! k).
Qed.

Lemma new_ok m : cache_ok (NewCacheWithLimit m).
Proof.
  split; try done; cbn.
  - constructor.
  - intros k. rewrite lookup_empty. split; [by intros ?%elem_of_nil|by intros [? ?]].
Qed.

(** Reordering the elements changes no sum. *)
Lemma set_order_ok l c : cache_ok c -> l ≡ₚ order c -> cache_ok (set_order l c).
Proof.
  intros [] Hl. split; cbn; try done.
  - by rewrite Hl.
  - intros k. by rewrite Hl.
  - unfold csum. by rewrite Hl.
  - unfold csum. by rewrite Hl.
  - unfold csum. by rewrite Hl.
Qed.

Lemma MoveToFront_Permutation k l : NoDup l -> k ∈ l -> MoveToFront k l ≡ₚ l.
Proof. intros ? ?. symmetry. by apply without_Permutation. Qed.

Lemma dropLocked_ok k c : cache_ok c -> cache_ok (dropLocked k c).
Proof.
  intros Hc. unfold dropLocked. destruct (entries c !! k) as [it|] eqn:E; [|done].
  destruct Hc as [Hnd Hdom Hsz Hb Hbb Hg]. assert (Hk : k ∈ order c) by (apply Hdom; eauto).
  split; cbn.
  - by apply without_NoDup.
  - intros x. rewrite elem_of_without, Hdom. destruct (decide (x = k)) as [->|].
    + rewrite lookup_delete_eq. split; [naive_solver|by intros [? ?]].
    + rewrite lookup_delete_ne by done. naive_solver.
  - intros x it' [_ H]%lookup_delete_Some. eauto.
  - rewrite csum_delete, Hb, (csum_split size _ k it) by done. lia.
  - rewrite csum_delete, Hbb, (csum_split _ _ k it) by done. lia.
  - rewrite csum_delete, Hg, (csum_split _ _ k it) by done. lia.
Qed.

Lemma removeLocked_ok k c : cache_ok c -> cache_ok (removeLocked k c).
Proof.
  intros Hc. unfold removeLocked. destruct (entries c !! k) as [it|]; [|done].
  repeat case_match; auto using dropLocked_ok.
Qed.

Lemma putLocked_ok k e c : cache_ok c -> cache_ok (putLocked k e c).
Proof.
  intros Hc. unfold putLocked, MoveToFront. destruct Hc as [Hnd Hdom Hsz Hb Hbb Hg].
  destruct (entries c !! k) as [it|] eqn:E.
  - assert (Hk : k ∈ order c) by (apply Hdom; eauto). split; cbn.
    + constructor; [apply without_notin|by apply without_NoDup].
    + intros x. rewrite elem_of_cons, elem_of_without, Hdom. destruct (decide (x = k)) as [->|].
      * rewrite lookup_insert_eq. naive_solver.
      * rewrite lookup_insert_ne by done. naive_solver.
    + intros x it' [[<- <-]|[_ H]]%lookup_insert_Some; [done|eauto].
    + rewrite csum_cons, lookup_insert_eq, csum_insert, Hb, (csum_split size _ k it) by done. cbn. lia.
    + rewrite csum_cons, lookup_insert_eq, csum_insert, Hbb, (csum_split _ _ k it) by done. cbn. lia.
    + rewrite csum_cons, lookup_insert_eq, csum_insert, Hg, (csum_split _ _ k it) by done. cbn. lia.
  - assert (Hk : k ∉ order c) by (rewrite Hdom, E; by intros [? ?]).
    assert (Hext : forall f it, csum f (<[k := it]> (entries c)) (order c) = csum f (entries c) (order c)).
    { intros f it. apply csum_ext. intros x Hx. rewrite lookup_insert_ne; [done|]. by intros ->. }
    split; cbn.
    + by constructor.
    + intros x. rewrite elem_of_cons, Hdom. destruct (decide (x = k)) as [->|].
      * rewrite lookup_insert_eq. naive_solver.
      * rewrite lookup_insert_ne by done. naive_solver.
    + intros x it' [[<- <-]|[_ H]]%lookup_insert_Some; [done|eauto].
    + rewrite csum_cons, lookup_insert_eq, Hext, Hb. cbn. lia.
    + rewrite csum_cons, lookup_insert_eq, Hext, Hbb. cbn. lia.
    + rewrite csum_cons, lookup_insert_eq, Hext, Hg. cbn. lia.
Qed.

Lemma set_pair_ok k t c : cache_ok c -> cache_ok (set_pair k t c).
Proof.
  intros Hc. unfold set_pair. destruct (entries c !! k) as [it|] eqn:E; [|done].
  destruct Hc as [Hnd Hdom Hsz Hb Hbb Hg].
  assert (Hsum : forall f, (forall it t, f (MkCacheItem (entry it) (size it) t) = f it) ->
    csum f (<[k := MkCacheItem (entry it) (size it) t]> (entries c)) (order c) = csum f (entries c) (order c)).
  { intros f Hf. unfold csum. f_equal. apply list_fmap_ext. intros i x _.
    destruct (decide (x = k)) as [->|]; [by rewrite lookup_insert_eq, E, Hf|by rewrite lookup_insert_ne]. }
  split; cbn; try done.
  - intros x. rewrite Hdom. destruct (decide (x = k)) as [->|].
    + rewrite lookup_insert_eq, E. naive_solver.
    + by rewrite lookup_insert_ne.
  - intros x it' [[<- <-]|[_ H]]%lookup_insert_Some; [cbn|]; eauto.
  - by rewrite Hsum.
  - by rewrite Hsum.
  - by rewrite Hsum.
Qed.

Lemma Get_ok k c : cache_ok c -> cache_ok (Get k c).2.
Proof.
  intros Hc. unfold Get. destruct (entries c !! k) as [it|] eqn:E; [|done]. cbn [snd].
  assert (Hc1 : cache_ok (set_order (MoveToFront k (order c)) c)).
  { apply set_order_ok; [done|]. apply MoveToFront_Permutation; [apply Hc|]. apply Hc. eauto. }
  case_bool_decide; [done|]. case_match eqn:E2; [|done].
  apply set_order_ok; [done|]. apply MoveToFront_Permutation; [apply Hc1|]. apply Hc1. eauto.
Qed.

Lemma evict_ok n c : cache_ok c -> cache_ok (evict n c).
Proof.
  revert c. induction n as [|n IH]; intros c Hc; [done|]. cbn [evict].
  case_match; [|done]. case_match; [|done]. by apply IH, removeLocked_ok.
Qed.

Lemma evictLocked_ok c : cache_ok c -> cache_ok (evictLocked c).
Proof. unfold evictLocked. case_match; [done|]. apply evict_ok. Qed.

Lemma dropLocked_max k c : max (dropLocked k c) = max c.
Proof. unfold dropLocked. by case_match. Qed.
Lemma removeLocked_max k c : max (removeLocked k c) = max c.
Proof. unfold removeLocked. repeat case_match; by rewrite ?dropLocked_max. Qed.

Lemma dropLocked_order k c : (length (order (dropLocked k c)) <= length (order c))%nat.
Proof. unfold dropLocked. case_match; cbn; [|lia]. unfold without. pose proof (length_filter (fun x => x <> k) (order c)). lia. Qed.

Lemma without_length k l : k ∈ l -> (length (without k l) < length l)%nat.
Proof.
  intros Hk. unfold without. apply list_elem_of_split in Hk as (l1 & l2 & ->).
  rewrite filter_app, filter_cons_False by naive_solver. rewrite !length_app. cbn.
  pose proof (length_filter (fun x => x <> k) l1). pose proof (length_filter (fun x => x <> k) l2). lia.
Qed.

Lemma removeLocked_shrinks k c :
  cache_ok c -> k ∈ order c -> (length (order (removeLocked k c)) < length (order c))%nat.
Proof.
  intros Hc Hk. pose proof Hk as [it E]%(ok_dom _ Hc). unfold removeLocked. rewrite E.
  assert (H1 : (length (order (dropLocked k c)) < length (order c))%nat).
  { unfold dropLocked. rewrite E. cbn. by apply without_length. }
  case_bool_decide; [done|]. case_match; [|done].
  pose proof (dropLocked_order (pair it) (dropLocked k c)). lia.
Qed.

Lemma size_nonneg c k it : cache_ok c -> entries c !! k = Some it -> 0 <= size it.
Proof. intros Hc H. rewrite (ok_size _ Hc _ _ H). unfold entrySize, slen. lia. Qed.

Lemma evict_below n c :
  cache_ok c -> 0 <= max c -> (length (order c) <= n)%nat -> bytes (evict n c) <= max c.
Proof.
  revert c. induction n as [|n IH]; intros c Hc Hm Hn.
  - cbn. rewrite (ok_bytes _ Hc). destruct (order c); cbn in *; [done|lia].
  - cbn [evict]. destruct (max c <? bytes c) eqn:E; bools; [|lia].
    destruct (last (order c)) as [back|] eqn:El.
    + rewrite <- (removeLocked_max back c). apply IH.
      * by apply removeLocked_ok.
      * by rewrite removeLocked_max.
      * apply last_Some_elem_of in El. pose proof (removeLocked_shrinks _ _ Hc El). lia.
    + apply last_None in El. rewrite (ok_bytes _ Hc), El. done.
Qed.

Lemma evictLocked_below c :
  cache_ok c -> 0 < max c -> bytes (evictLocked c) <= max c.
Proof.
  intros Hc Hm. unfold evictLocked. rewrite (proj2 (Z.leb_gt _ _) Hm). apply evict_below; [done|lia|done].
Qed.

(** ** Keys *)

Definition no_colon (s : string) : Prop := cut s ":" = None.

Lemma cut_colon a b : no_colon a -> cut (a ++ ":" ++ b) ":" = Some (a, b).
Proof.
  unfold no_colon. induction a as [|x a IH]; [done|]. simpl. destruct (Ascii.eqb x ":"); [done|].
  destruct (cut a ":") as [[? ?]|]; [done|]. intros _. simpl in IH. by rewrite IH.
Qed.

Lemma colon_inj a b a' b' :
  no_colon a -> no_colon a' -> (a ++ ":" ++ b = a' ++ ":" ++ b')%string -> a = a' /\ b = b'.
Proof. intros H H' E. apply (cut_colon a b) in H. apply (cut_colon a' b') in H'. rewrite E in H. by simplify_eq. Qed.

(** The second part of the key of a feed document or an embed. *)
Definition document (rest : string) : Prop :=
  rest ∈ ["xml"; "atom"; "json"]%string \/ exists r, rest = ("embed:" ++ r)%string.

(** An item key: what a ULID satisfies. *)
Definition item_key (K : string) : Prop := no_colon K /\ K ∉ ["xml"; "atom"; "json"]%string.
#[export] Instance item_key_dec K : Decision (item_key K).
Proof. unfold item_key, no_colon. apply _. Defined.

Lemma item_key_not_document K : item_key K -> ~ document K.
Proof. intros [H1 H2] [H|[r ->]]; [done|]. unfold no_colon in H1. done. Qed.

Section keys.
(** The slug of the feed an item belongs to. *)
Context (owner : string -> string).

Definition primary (K : string) : string := owner K ++ ":item:" ++ K.
Definition alias (K : string) : string := "item:" ++ K.

(** The keys the server uses, with the twin each has, "" for none. *)
Inductive key_twin : string -> string -> Prop :=
| key_index : key_twin "index" ""
| key_document slug rest : no_colon slug -> document rest -> key_twin (slug ++ ":" ++ rest) ""
| key_primary K : no_colon (owner K) -> item_key K -> key_twin (primary K) (alias K)
| key_alias K : no_colon (owner K) -> item_key K -> key_twin (alias K) (primary K).

Lemma primary_colon K : primary K = (owner K ++ ":" ++ ("item:" ++ K))%string.
Proof. done. Qed.

Lemma index_no_colon a b : ("index" = a ++ ":" ++ b)%string -> no_colon a -> False.
Proof. intros E Ha. apply (cut_colon a b) in Ha. rewrite <- E in Ha. done. Qed.

Lemma document_not_item K : ~ document ("item:" ++ K).
Proof.
  intros [H|[r H]]; [|done]. apply list_elem_of_In in H. cbn in H. naive_solver.
Qed.

Lemma item_key_not_item K K' : item_key K -> K <> ("item:" ++ K')%string.
Proof. intros [H _] ->. done. Qed.

Lemma primary_inj K K' :
  no_colon (owner K) -> no_colon (owner K') -> primary K = primary K' -> K = K'.
Proof. rewrite !primary_colon. intros H H' [_ E]%colon_inj; [|done..]. by injection E. Qed.

Lemma alias_inj K K' : alias K = alias K' -> K = K'.
Proof. intros E. by injection E. Qed.

Lemma primary_not_alias K K' : no_colon (owner K) -> item_key K' -> primary K <> alias K'.
Proof.
  intros H H' E. apply (colon_inj (owner K) ("item:" ++ K) "item" K') in E as [_ E]; [|done..].
  by apply (item_key_not_item K' K).
Qed.

(** The twin is determined, and being twins is symmetric. *)
Lemma key_twin_fun k t t' : key_twin k t -> key_twin k t' -> t = t'.
Proof.
  intros H1. destruct H1 as [|slug rest Hs Hr|K Ho HK|K Ho HK]; intros H2;
    inversion H2 as [E E'|slug' rest' Hs' Hr' E E'|K' Ho' HK' E E'|K' Ho' HK' E E']; subst; try done.
  - exfalso. by apply (index_no_colon (owner K') ("item:" ++ K')).
  - exfalso. apply (colon_inj (owner K') ("item:" ++ K')) in E as [_ <-]; try done. by eapply document_not_item.
  - exfalso. apply (colon_inj "item" K') in E as [_ <-]; try done. by apply (item_key_not_document _ HK').
  - exfalso. by apply (index_no_colon (owner K) ("item:" ++ K)).
  - exfalso. apply (colon_inj slug' rest' (owner K) ("item:" ++ K)) in E as [_ ->]; try done. by eapply document_not_item.
  - by apply primary_inj in E as ->.
  - exfalso. by apply (primary_not_alias K K').
  - exfalso. apply (colon_inj slug' rest' "item" K) in E as [_ ->]; try done. by apply (item_key_not_document _ HK).
  - exfalso. by apply (primary_not_alias K' K).
  - change (K' = K) in E. by subst.
Qed.

Lemma primary_nonempty K : primary K <> ""%string.
Proof. unfold primary. by destruct (owner K). Qed.

Lemma key_twin_sym k t : key_twin k t -> t <> ""%string -> key_twin t k.
Proof. intros []; [done..| |]; intros _; by constructor. Qed.

Lemma key_twin_nonempty t : ~ key_twin "" t.
Proof.
  intros H. inversion H as [|slug rest ? ? E| K ? ? E|].
  - by destruct slug.
  - by apply (primary_nonempty K).
Qed.

(** Every element has the twin of its key, and the twin is there. *)
Definition linked (c : Cache) : Prop :=
  forall k it, entries c !! k = Some it ->
    key_twin k (pair it) /\ (pair it <> ""%string -> is_Some (entries c !! pair it)).
Lemma dropLocked_entries k c : entries (dropLocked k c) = delete k (entries c).
Proof. unfold dropLocked. case_match eqn:E; [done|]. by rewrite delete_id. Qed.

Lemma removeLocked_entries k c :
  entries (removeLocked k c)
  = match entries c !! k with
    | None => entries c
    | Some it => if bool_decide (pair it = ""%string) then delete k (entries c)
                 else delete (pair it) (delete k (entries c))
    end.
Proof.
  unfold removeLocked. destruct (entries c !! k) as [it|]; [|done].
  case_bool_decide; [by rewrite dropLocked_entries|]. rewrite dropLocked_entries.
  case_match eqn:E; rewrite !dropLocked_entries; [done|]. by rewrite (delete_id _ (pair it)).
Qed.

Lemma removeLocked_sub k c : entries (removeLocked k c) ⊆ entries c.
Proof.
  rewrite removeLocked_entries. case_match; [|done]. case_bool_decide; [apply delete_subseteq|].
  etrans; apply delete_subseteq.
Qed.

Lemma removeLocked_gone k c : entries (removeLocked k c) !! k = None.
Proof.
  rewrite removeLocked_entries. case_match eqn:E; [|done]. case_bool_decide; [apply lookup_delete_eq|].
  apply lookup_delete_None. right. apply lookup_delete_eq.
Qed.

(** Only the key and its twin go. *)
Lemma removeLocked_other k c x :
  linked c -> x <> k -> (key_twin k x -> x = ""%string) ->
  entries (removeLocked k c) !! x = entries c !! x.
Proof.
  intros Hl Hx Ht. rewrite removeLocked_entries. destruct (entries c !! k) as [it|] eqn:E; [|done].
  destruct (Hl _ _ E) as [Hk _]. case_bool_decide; [by rewrite lookup_delete_ne|].
  rewrite !lookup_delete_ne; [done|done|]. intros <-. auto.
Qed.

Lemma removeLocked_linked k c : linked c -> linked (removeLocked k c).
Proof.
  intros Hl. destruct (entries c !! k) as [itk|] eqn:Ek.
  2:{ intros x it. rewrite removeLocked_entries, Ek. apply Hl. }
  destruct (Hl _ _ Ek) as [Hk _]. intros x it Hx.
  pose proof (lookup_weaken _ _ _ _ Hx (removeLocked_sub k c)) as Hx0. destruct (Hl _ _ Hx0) as [Hxt Hpres].
  split; [done|]. intros Hp. specialize (Hpres Hp). pose proof (key_twin_sym _ _ Hxt Hp) as Hsym.
  rewrite removeLocked_other; [done|done| |].
  - intros E. rewrite E in Hsym. pose proof (key_twin_fun _ _ _ Hk Hsym) as Ex.
    rewrite removeLocked_entries, Ek in Hx. case_bool_decide as Hb.
    + rewrite <- Ex, Hb in Hxt. by apply key_twin_nonempty in Hxt.
    + rewrite Ex, lookup_delete_eq in Hx. done.
  - intros Hkp. exfalso. pose proof (key_twin_sym _ _ Hkp Hp) as Hpk.
    rewrite (key_twin_fun _ _ _ Hsym Hpk) in Hx. by rewrite removeLocked_gone in Hx.
Qed.

Lemma putLocked_entries k e c :
  entries (putLocked k e c)
  = <[k := MkCacheItem e (entrySize e) (default ""%string (pair <$> entries c !! k))]> (entries c).
Proof. unfold putLocked. by destruct (entries c !! k). Qed.

Lemma putLocked_linked k e c : key_twin k "" -> linked c -> linked (putLocked k e c).
Proof.
  intros Hk Hl x it. rewrite putLocked_entries. intros [[<- <-]|[Hne Hx]]%lookup_insert_Some; cbn.
  - destruct (entries c !! k) as [it|] eqn:E; cbn; [|done].
    destruct (Hl _ _ E) as [Ht _]. by rewrite (key_twin_fun _ _ _ Ht Hk).
  - destruct (Hl _ _ Hx) as [Ht Hp]. split; [done|]. intros Hne'. destruct (Hp Hne') as [y Hy].
    apply lookup_insert_is_Some. destruct (decide (k = pair it)); eauto.
Qed.

Lemma set_pair_entries k t c :
  entries (set_pair k t c)
  = match entries c !! k with
    | Some it => <[k := MkCacheItem (entry it) (size it) t]> (entries c)
    | None => entries c
    end.
Proof. unfold set_pair. by case_match. Qed.

(** [PutPair] before any eviction. *)
Definition paired (K : string) (e : Entry) (c : Cache) : Cache :=
  set_pair (alias K) (primary K)
    (set_pair (primary K) (alias K) (putLocked (alias K) e (putLocked (primary K) e c))).

Lemma paired_entries K e c :
  no_colon (owner K) -> item_key K ->
  entries (paired K e c)
  = <[alias K := MkCacheItem e (entrySize e) (primary K)]>
      (<[primary K := MkCacheItem e (entrySize e) (alias K)]> (entries c)).
Proof.
  intros Ho HK. assert (Hne : primary K <> alias K) by (by apply primary_not_alias).
  unfold paired. rewrite !set_pair_entries, !putLocked_entries.
  rewrite (lookup_insert_ne _ (alias K) (primary K)), lookup_insert_eq by done.
  rewrite (lookup_insert_ne _ (primary K) (alias K)), lookup_insert_eq by done.
  cbn [entry size]. apply map_eq. intros x. destruct (decide (x = alias K)) as [->|].
  - by rewrite !lookup_insert_eq.
  - rewrite !(lookup_insert_ne _ (alias K) x) by done. destruct (decide (x = primary K)) as [->|].
    + by rewrite !lookup_insert_eq.
    + by rewrite !lookup_insert_ne by done.
Qed.

Lemma paired_linked K e c :
  no_colon (owner K) -> item_key K -> linked c -> linked (paired K e c).
Proof.
  intros Ho HK Hl x it. rewrite paired_entries by done.
  assert (Hne : primary K <> alias K) by (by apply primary_not_alias).
  intros [[<- <-]|[Hx1 [[<- <-]|[Hx2 Hx]]%lookup_insert_Some]]%lookup_insert_Some; cbn [pair].
  - split; [by constructor|]. intros _. rewrite lookup_insert_ne, lookup_insert_eq by done. eauto.
  - split; [by constructor|]. intros _. rewrite lookup_insert_eq. eauto.
  - destruct (Hl _ _ Hx) as [Ht Hp]. split; [done|]. intros Hn. destruct (Hp Hn) as [y Hy].
    rewrite !lookup_insert_is_Some. destruct (decide (alias K = pair it)), (decide (primary K = pair it)); eauto.
Qed.

Lemma evict_sub n c : entries (evict n c) ⊆ entries c.
Proof.
  revert c. induction n as [|n IH]; intros c; [done|]. cbn [evict]. case_match; [|done].
  case_match; [|done]. etrans; [apply IH|apply removeLocked_sub].
Qed.
Lemma evictLocked_sub c : entries (evictLocked c) ⊆ entries c.
Proof. unfold evictLocked. case_match; [done|]. apply evict_sub. Qed.

Lemma evict_linked n c : linked c -> linked (evict n c).
Proof.
  revert c. induction n as [|n IH]; intros c Hc; [done|]. cbn [evict]. case_match; [|done].
  case_match; [|done]. by apply IH, removeLocked_linked.
Qed.
Lemma evictLocked_linked c : linked c -> linked (evictLocked c).
Proof. unfold evictLocked. case_match; [done|]. apply evict_linked. Qed.

(** ** Invalidation *)

(** What the feed of [slug] owns: its documents and permalinks, under both
    their keys, and the index. *)
Definition covered (slug k : string) : bool :=
  of_slug slug k || bool_decide (k = "index"%string)
  || match strip_prefix "item:" k with
     | Some K => bool_decide (item_key K) && bool_decide (owner K = slug)
     | None => false
     end.

(** One round of the loop. *)
Definition round (slug k : string) (c : Cache) : Cache :=
  match entries c !! k with
  | None => c
  | Some _ => if of_slug slug k
              then removeLocked k (match item_suffix slug k with
                                   | Some key => removeLocked ("item:" ++ key) c
                                   | None => c
                                   end)
              else c
  end.

Lemma invalidate_keys_cons slug k ks c :
  invalidate_keys slug (k :: ks) c = invalidate_keys slug ks (round slug k c).
Proof. done. Qed.

Lemma round_sub slug k c : entries (round slug k c) ⊆ entries c.
Proof.
  unfold round. repeat case_match; try done; [|apply removeLocked_sub].
  etrans; apply removeLocked_sub.
Qed.
Lemma round_linked slug k c : linked c -> linked (round slug k c).
Proof. intros Hl. unfold round. repeat case_match; auto using removeLocked_linked. Qed.
Lemma round_ok slug k c : cache_ok c -> cache_ok (round slug k c).
Proof. intros Hl. unfold round. repeat case_match; auto using removeLocked_ok. Qed.
Lemma round_gone slug k c : of_slug slug k = true -> entries (round slug k c) !! k = None.
Proof. intros Hs. unfold round. rewrite Hs. case_match; [apply removeLocked_gone|done]. Qed.

Lemma invalidate_keys_sub slug ks c : entries (invalidate_keys slug ks c) ⊆ entries c.
Proof.
  revert c. induction ks as [|k ks IH]; intros c; [done|]. rewrite invalidate_keys_cons.
  etrans; [apply IH|apply round_sub].
Qed.
Lemma invalidate_keys_linked slug ks c : linked c -> linked (invalidate_keys slug ks c).
Proof.
  revert c. induction ks as [|k ks IH]; intros c Hl; [done|]. rewrite invalidate_keys_cons.
  by apply IH, round_linked.
Qed.
Lemma invalidate_keys_ok slug ks c : cache_ok c -> cache_ok (invalidate_keys slug ks c).
Proof.
  revert c. induction ks as [|k ks IH]; intros c Hl; [done|]. rewrite invalidate_keys_cons.
  by apply IH, round_ok.
Qed.
Lemma invalidate_keys_gone slug ks k c :
  k ∈ ks -> of_slug slug k = true -> entries (invalidate_keys slug ks c) !! k = None.
Proof.
  intros Hk Hs. revert c. induction ks as [|x ks IH]; intros c; [by apply elem_of_nil in Hk|].
  rewrite invalidate_keys_cons. apply elem_of_cons in Hk as [->|Hk]; [|by apply IH].
  eapply lookup_weaken_None; [by apply round_gone|apply invalidate_keys_sub].
Qed.

Lemma primary_of_slug K : of_slug (owner K) (primary K) = true.
Proof.
  unfold of_slug. apply orb_true_iff. right. apply HasPrefix_app. exists ("item:" ++ K)%string.
  unfold primary. by rewrite str_app_assoc.
Qed.

Lemma alias_twin K t : item_key K -> key_twin (alias K) t -> t = primary K /\ no_colon (owner K).
Proof.
  intros HK H. inversion H as [E|slug rest Hs Hr E|K' Ho HK' E|K' Ho HK' E].
  - apply (colon_inj slug rest "item" K) in E as [_ ->]; try done. by apply item_key_not_document in HK.
  - by apply primary_not_alias in E.
  - change (K' = K) in E. by subst.
Qed.

(** After the invalidation nothing the feed owns is left, in whichever order
    the map was walked. *)
Lemma invalidate_covers ks slug c k :
  linked c -> ks ≡ₚ elements (dom (entries c)) -> covered slug k = true ->
  entries (invalidate_in ks slug c) !! k = None.
Proof.
  intros Hl Hks Hcov. unfold invalidate_in.
  assert (Hslug : forall x, of_slug slug x = true -> entries (invalidate_keys slug ks c) !! x = None).
  { intros x Hx. destruct (entries c !! x) as [it|] eqn:E.
    - apply invalidate_keys_gone; [|done]. rewrite Hks, elem_of_elements, elem_of_dom. eauto.
    - eapply lookup_weaken_None; [done|apply invalidate_keys_sub]. }
  unfold covered in Hcov. apply orb_true_iff in Hcov as [[Hk| ->%bool_decide_eq_true]%orb_true_iff|Hk].
  - eapply lookup_weaken_None; [by apply Hslug|apply removeLocked_sub].
  - apply removeLocked_gone.
  - destruct (strip_prefix "item:" k) as [K|] eqn:EK; [|done]. apply strip_prefix_Some in EK as ->. bools.
    subst slug. eapply lookup_weaken_None; [|apply removeLocked_sub].
    destruct (entries (invalidate_keys (owner K) ks c) !! ("item:" ++ K)%string) as [it|] eqn:E; [|done].
    destruct (invalidate_keys_linked _ ks c Hl _ _ E) as [Ht Hp].
    apply alias_twin in Ht as [Ht _]; [|done]. rewrite Ht, (Hslug _ (primary_of_slug K)) in Hp.
    destruct Hp as [? ?]; [apply primary_nonempty|done].
Qed.

(** The item key of an element with the item prefix is that of its twin. *)
Lemma suffix_owner slug k K t :
  no_colon slug -> item_suffix slug k = Some K -> key_twin k t -> k = primary K /\ owner K = slug /\ item_key K.
Proof.
  intros Hs Hk Ht. unfold item_suffix in Hk.
  destruct (strip_prefix (slug ++ ":item:") k) as [r|] eqn:E; [|done].
  assert (r = K) as -> by (destruct r; by simplify_eq). clear Hk.
  apply strip_prefix_Some in E as ->. rewrite str_app_assoc in *.
  inversion Ht as [E|slug' rest' Hs' Hr' E|K' Ho HK' E|K' Ho HK' E].
  - exfalso. by apply (index_no_colon slug ("item:" ++ K)).
  - apply (colon_inj slug' rest' slug ("item:" ++ K)) in E as [_ ->]; try done.
    by apply document_not_item in Hr'.
  - apply (colon_inj (owner K') ("item:" ++ K') slug ("item:" ++ K)) in E as [<- E]; try done.
    apply (alias_inj K' K) in E. by subst.
  - apply (colon_inj "item" K' slug ("item:" ++ K)) in E as [_ E]; try done.
    by apply item_key_not_item in E.
Qed.

Lemma covered_alias slug K : item_key K -> owner K = slug -> covered slug (alias K) = true.
Proof.
  intros HK <-. unfold covered. rewrite (strip_prefix_app "item:" K : strip_prefix "item:" (alias K) = _).
  rewrite (bool_decide_eq_true_2 (item_key K)), (bool_decide_eq_true_2 (owner K = owner K)) by done.
  cbn. by rewrite !orb_true_r.
Qed.

(** A key of the slug is covered, and so is its twin, for a slug other than "item". *)
Lemma of_slug_twin slug k t :
  no_colon slug -> slug <> "item"%string -> of_slug slug k = true -> key_twin k t -> t <> ""%string ->
  covered slug t = true.
Proof.
  intros Hs Hne Hk Ht Ht0. unfold of_slug in Hk.
  assert (Hpre : forall a b, no_colon a -> k = (a ++ ":" ++ b)%string -> a = slug).
  { intros a b Ha ->. apply orb_true_iff in Hk as [E%bool_decide_eq_true|[r E]%HasPrefix_app].
    - exfalso. unfold no_colon in Hs. rewrite <- E, cut_colon in Hs; done.
    - rewrite str_app_assoc in E. by apply colon_inj in E as [-> _]. }
  inversion Ht as [|? ? ? ? E|K Ho HK E|K Ho HK E]; subst; try done.
  - apply covered_alias; [done|]. by apply (Hpre (owner K) ("item:" ++ K)%string).
  - exfalso. apply Hne. symmetry. by apply (Hpre "item"%string K).
Qed.

Lemma round_other slug k c x :
  linked c -> no_colon slug -> slug <> "item"%string -> covered slug x = false ->
  entries (round slug k c) !! x = entries c !! x.
Proof.
  intros Hl Hs Hne Hx. unfold round. destruct (entries c !! k) as [it|] eqn:E; [|done].
  destruct (of_slug slug k) eqn:Ek; [|done]. destruct (Hl _ _ E) as [Ht _].
  assert (Hxk : x <> k) by (intros ->; unfold covered in Hx; by rewrite Ek in Hx).
  assert (Hnt : key_twin k x -> x = ""%string).
  { intros Hkx. destruct (decide (x = ""%string)) as [|Hn]; [done|].
    by rewrite (of_slug_twin slug k x) in Hx. }
  destruct (item_suffix slug k) as [K|] eqn:EK; [|by apply removeLocked_other].
  destruct (suffix_owner _ _ _ _ Hs EK Ht) as (-> & Ho & HK).
  rewrite removeLocked_other; [|by apply removeLocked_linked|done|done].
  apply removeLocked_other; [done| |].
  - intros ->. by rewrite (covered_alias slug K HK Ho : covered slug ("item:" ++ K) = true) in Hx.
  - intros [-> _]%(alias_twin K); done.
Qed.

Lemma index_covered slug : covered slug "index" = true.
Proof. unfold covered. rewrite (bool_decide_eq_true_2 _ (eq_refl "index"%string)). by rewrite orb_true_r. Qed.

Lemma invalidate_spares ks slug c k :
  linked c -> no_colon slug -> slug <> "item"%string -> covered slug k = false ->
  entries (invalidate_in ks slug c) !! k = entries c !! k.
Proof.
  intros Hl Hs Hne Hk. unfold invalidate_in. rewrite removeLocked_other.
  - revert c Hl. induction ks as [|x ks IH]; intros c Hl; [done|]. rewrite invalidate_keys_cons.
    rewrite IH by (by apply round_linked). by apply round_other.
  - by apply invalidate_keys_linked.
  - intros ->. by rewrite index_covered in Hk.
  - intros H. by apply (key_twin_fun "index"%string k ""%string H), key_index.
Qed.

(** ** Eviction keeps what was used last *)

Definition twin_closed (F : list string) : Prop :=
  forall k t, k ∈ F -> key_twin k t -> t <> ""%string -> t ∈ F.

Lemma without_app_notin k F l : k ∉ F -> without k (F ++ l) = F ++ without k l.
Proof.
  intros Hk. unfold without. rewrite filter_app. f_equal.
  induction F as [|x F IH]; [done|]. apply not_elem_of_cons in Hk as [Hx Hk].
  by rewrite filter_cons_True, IH by congruence.
Qed.

Lemma dropLocked_prefix k F l c :
  k ∉ F -> order c = F ++ l -> exists l', order (dropLocked k c) = F ++ l'.
Proof.
  intros Hk Ho. unfold dropLocked. case_match; cbn; rewrite Ho; [|by eexists].
  exists (without k l). by apply without_app_notin.
Qed.

(** Removing an element outside [F] leaves [F] alone. *)
Lemma removeLocked_keeps back F l c :
  linked c -> twin_closed F -> back ∉ F -> order c = F ++ l ->
  (forall k, k ∈ F -> is_Some (entries c !! k)) ->
  (exists l', order (removeLocked back c) = F ++ l')
  /\ forall k, k ∈ F -> entries (removeLocked back c) !! k = entries c !! k.
Proof.
  intros Hl HF Hb Ho Hin.
  assert (Htw : forall k, k ∈ F -> ~ key_twin back k).
  { intros k Hk Ht. destruct (decide (k = ""%string)) as [->|Hn].
    - destruct (Hin _ Hk) as [it E]. apply Hl in E as [E _]. by apply key_twin_nonempty in E.
    - apply Hb. eapply HF; [exact Hk|by apply key_twin_sym|]. intros ->.
      by apply key_twin_nonempty in Ht. }
  split.
  - unfold removeLocked. destruct (entries c !! back) as [it|] eqn:E; [|by eexists].
    destruct (dropLocked_prefix back F l c Hb Ho) as [l1 H1].
    case_bool_decide; [by eexists|]. case_match; [|by eexists].
    eapply dropLocked_prefix; [|exact H1]. intros Hp. apply (Htw _ Hp), (Hl _ _ E).
  - intros k Hk. apply removeLocked_other; [done|by intros ->|]. intros Ht. by destruct (Htw k Hk).
Qed.

Lemma evict_keeps F l n c :
  cache_ok c -> linked c -> twin_closed F -> order c = F ++ l -> csum size (entries c) F <= max c ->
  forall k, k ∈ F -> entries (evict n c) !! k = entries c !! k.
Proof.
  revert c l. induction n as [|n IH]; intros c l Hc Hl HF Ho Hsz k Hk; [done|]. cbn [evict].
  destruct (max c <? bytes c) eqn:Eb; bools; [|done].
  destruct (last (order c)) as [back|] eqn:El; [|done].
  assert (Hin : forall k, k ∈ F -> is_Some (entries c !! k)).
  { intros x Hx. apply (ok_dom _ Hc). rewrite Ho. set_solver. }
  assert (Hback : back ∉ F).
  { destruct l as [|y l0].
    - rewrite (ok_bytes _ Hc), Ho, app_nil_r in Eb. lia.
    - rewrite Ho, last_app_cons in El. apply last_Some_elem_of in El. pose proof (ok_nodup _ Hc) as Hnd.
      rewrite Ho in Hnd. apply NoDup_app in Hnd as (_ & Hdis & _). intros HbF. by apply (Hdis back). }
  destruct (removeLocked_keeps back F l c Hl HF Hback Ho Hin) as [[l' Ho'] Hsame].
  rewrite (IH _ l'); [by apply Hsame|by apply removeLocked_ok|by apply removeLocked_linked|done|done| |done].
  rewrite removeLocked_max. by rewrite (csum_ext _ _ (entries c)).
Qed.

(** ** Histories *)

Inductive op :=
| OGet (k : string) | OPut (k : string) (e : Entry) | OPutItem (K : string) (e : Entry)
| OInvalidate (slug : string) | OInvalidateAll.

(** The server's uses of the cache; the map is walked in any order. *)
Inductive cache_step (c : Cache) : op -> Cache -> Prop :=
| step_Get k : cache_step c (OGet k) (Get k c).2
| step_Put k e : key_twin k "" -> cache_step c (OPut k e) (Put k e c)
| step_PutPair K e : no_colon (owner K) -> item_key K ->
    cache_step c (OPutItem K e) (PutPair (primary K) (alias K) e c)
| step_Invalidate slug ks : no_colon slug -> ks ≡ₚ elements (dom (entries c)) ->
    cache_step c (OInvalidate slug) (invalidate_in ks slug c)
| step_InvalidateAll : cache_step c OInvalidateAll (InvalidateAll c).

Inductive history (m : Z) : list op -> Cache -> Prop :=
| history_new : history m [] (NewCacheWithLimit m)
| history_step ops c o c' : history m ops c -> cache_step c o c' -> history m (ops ++ [o]) c'.

(** What a cache without a ceiling would hold: the last render of every key
    since the feed that owns it was last invalidated. *)
Definition spec_op (s : gmap string Entry) (o : op) : gmap string Entry :=
  match o with
  | OGet _ => s
  | OPut k e => <[k := e]> s
  | OPutItem K e => <[alias K := e]> (<[primary K := e]> s)
  | OInvalidate slug => filter (fun p => covered slug p.1 = false) s
  | OInvalidateAll => ∅
  end.
Definition latest (ops : list op) : gmap string Entry := foldl spec_op ∅ ops.

Lemma latest_app ops o : latest (ops ++ [o]) = spec_op (latest ops) o.
Proof. unfold latest. by rewrite foldl_app. Qed.

Lemma Get_entries k c : entries (Get k c).2 = entries c.
Proof. unfold Get. repeat case_match; done. Qed.
Lemma Get_answer k c : (Get k c).1 = entry <$> entries c !! k.
Proof. unfold Get. by destruct (entries c !! k). Qed.
Lemma PutPair_paired K e c : PutPair (primary K) (alias K) e c = evictLocked (paired K e c).
Proof. done. Qed.

Lemma paired_ok K e c : cache_ok c -> cache_ok (paired K e c).
Proof. intros Hc. by apply set_pair_ok, set_pair_ok, putLocked_ok, putLocked_ok. Qed.

Lemma step_cache_ok c o c' : cache_step c o c' -> cache_ok c -> cache_ok c'.
Proof.
  intros [] Hc.
  - by apply Get_ok.
  - by apply evictLocked_ok, putLocked_ok.
  - rewrite PutPair_paired. by apply evictLocked_ok, paired_ok.
  - by apply removeLocked_ok, invalidate_keys_ok.
  - split; try done; cbn; [constructor|]. intros k. rewrite lookup_empty.
    split; [by intros ?%elem_of_nil|by intros [? ?]].
Qed.

Lemma op_linked c o c' : cache_step c o c' -> linked c -> linked c'.
Proof.
  intros [] Hl.
  - intros x it. rewrite Get_entries. apply Hl.
  - by apply evictLocked_linked, putLocked_linked.
  - rewrite PutPair_paired. by apply evictLocked_linked, paired_linked.
  - by apply removeLocked_linked, invalidate_keys_linked.
  - intros x it. cbn. by rewrite lookup_empty.
Qed.

Lemma history_inv m ops c : history m ops c -> cache_ok c /\ linked c.
Proof.
  induction 1 as [|ops c o c' _ [Hc Hl] Hs].
  - split; [apply new_ok|]. intros k it. cbn. by rewrite lookup_empty.
  - split; [by eapply step_cache_ok|by eapply op_linked].
Qed.

Lemma dropLocked_bytes k c : cache_ok c -> bytes (dropLocked k c) <= bytes c.
Proof.
  intros Hc. unfold dropLocked. destruct (entries c !! k) as [it|] eqn:E; [|lia].
  pose proof (size_nonneg _ _ _ Hc E). cbn. lia.
Qed.

Lemma removeLocked_bytes k c : cache_ok c -> bytes (removeLocked k c) <= bytes c.
Proof.
  intros Hc. unfold removeLocked. pose proof (dropLocked_bytes k c Hc).
  repeat case_match; try lia. etrans; [|done]. by apply dropLocked_bytes, dropLocked_ok.
Qed.

Lemma round_bytes slug k c : cache_ok c -> bytes (round slug k c) <= bytes c.
Proof.
  intros Hc. unfold round. destruct (entries c !! k); [|lia]. destruct (of_slug slug k); [|lia].
  destruct (item_suffix slug k); [|by apply removeLocked_bytes].
  etrans; [by apply removeLocked_bytes, removeLocked_ok|by apply removeLocked_bytes].
Qed.

Lemma invalidate_keys_bytes slug ks c : cache_ok c -> bytes (invalidate_keys slug ks c) <= bytes c.
Proof.
  revert c. induction ks as [|k ks IH]; intros c Hc; [done|]. rewrite invalidate_keys_cons.
  etrans; [by apply IH, round_ok|by apply round_bytes].
Qed.

Lemma round_max slug k c : max (round slug k c) = max c.
Proof. unfold round. repeat case_match; by rewrite ?removeLocked_max. Qed.
Lemma invalidate_keys_max slug ks c : max (invalidate_keys slug ks c) = max c.
Proof.
  revert c. induction ks as [|k ks IH]; intros c; [done|]. by rewrite invalidate_keys_cons, IH, round_max.
Qed.
Lemma evict_max n c : max (evict n c) = max c.
Proof.
  revert c. induction n as [|n IH]; intros c; [done|]. cbn [evict]. repeat case_match; try done.
  by rewrite IH, removeLocked_max.
Qed.
Lemma evictLocked_max c : max (evictLocked c) = max c.
Proof. unfold evictLocked. case_match; [done|]. apply evict_max. Qed.
Lemma putLocked_max k e c : max (putLocked k e c) = max c.
Proof. unfold putLocked. by case_match. Qed.
Lemma set_pair_max k t c : max (set_pair k t c) = max c.
Proof. unfold set_pair. by case_match. Qed.
Lemma Get_max k c : max (Get k c).2 = max c.
Proof. unfold Get. repeat case_match; done. Qed.
Lemma Get_bytes k c : bytes (Get k c).2 = bytes c.
Proof. unfold Get. repeat case_match; done. Qed.

Lemma step_max c o c' : cache_step c o c' -> max c' = max c.
Proof.
  intros []; unfold Put, PutPair, invalidate_in;
    by rewrite ?Get_max, ?removeLocked_max, ?invalidate_keys_max, ?evictLocked_max, ?set_pair_max, ?putLocked_max.
Qed.

Lemma history_max m ops c : history m ops c -> max c = m.
Proof. induction 1 as [|ops c o c' _ IH Hs]; [done|]. by rewrite (step_max _ _ _ Hs). Qed.

Lemma step_below c o c' :
  cache_step c o c' -> cache_ok c -> 0 < max c -> bytes c <= max c -> bytes c' <= max c'.
Proof.
  intros Hs Hc Hm Hb. rewrite (step_max _ _ _ Hs). destruct Hs.
  - by rewrite Get_bytes.
  - rewrite <- (putLocked_max k e c). apply evictLocked_below; [by apply putLocked_ok|by rewrite putLocked_max].
  - rewrite PutPair_paired. assert (Hmax : max (paired K e c) = max c)
      by (unfold paired; by rewrite !set_pair_max, !putLocked_max).
    rewrite <- Hmax. apply evictLocked_below; [by apply paired_ok|lia].
  - etrans; [by apply removeLocked_bytes, invalidate_keys_ok|]. etrans; [by apply invalidate_keys_bytes|done].
  - cbn. lia.
Qed.

(** after any sequence of uses of the cache, its counters are exact (they
    are the byte totals of the entries held, each counted once, and [Stats]
    reports them), and with a ceiling configured the entries held never
    exceed it. *)
Theorem cache_accounting_exact m ops c :
  history m ops c ->
  cache_stats c = MkStats (Z.of_nat (length (order c)))
                    (csum (fun it => slen (Body (entry it))) (entries c) (order c))
                    (csum (fun it => slen (GzipBody (entry it))) (entries c) (order c))
  /\ NoDup (order c) /\ (forall k, k ∈ order c <-> is_Some (entries c !! k))
  /\ bytes c = csum (fun it => entrySize (entry it)) (entries c) (order c)
  /\ (0 < m -> bytes c <= m).
Proof.
  intros H. destruct (history_inv _ _ _ H) as [Hc _]. split_and!.
  - unfold cache_stats. rewrite (ok_body _ Hc), (ok_gzip _ Hc). f_equal. f_equal.
    rewrite <- size_dom, <- (size_list_to_set (C := gset string) (order c)) by apply Hc.
    f_equal. apply set_eq. intros k. by rewrite elem_of_dom, elem_of_list_to_set, (ok_dom _ Hc).
  - apply Hc.
  - apply Hc.
  - rewrite (ok_bytes _ Hc). unfold csum. f_equal. apply list_fmap_ext. intros i k _.
    destruct (entries c !! k) as [it|] eqn:E; [|done]. by apply (ok_size _ Hc) in E.
  - intros Hm. rewrite <- (history_max _ _ _ H). rewrite <- (history_max _ _ _ H) in Hm. revert Hm.
    induction H as [|ops c o c' H IH Hs]; [cbn; lia|]. intros Hm. destruct (history_inv _ _ _ H) as [Hc' _].
    rewrite (step_max _ _ _ Hs) in Hm. eapply step_below; eauto.
Qed.

Lemma step_refines c o c' s :
  cache_step c o c' -> linked c -> (forall k it, entries c !! k = Some it -> s !! k = Some (entry it)) ->
  forall k it, entries c' !! k = Some it -> spec_op s o !! k = Some (entry it).
Proof.
  intros Hs Hl HR. destruct Hs; intros x it Hx; cbn [spec_op].
  - rewrite Get_entries in Hx. eauto.
  - eapply lookup_weaken in Hx; [|apply evictLocked_sub]. rewrite putLocked_entries in Hx.
    apply lookup_insert_Some in Hx as [[<- <-]|[? ?]]; [by rewrite lookup_insert_eq|].
    rewrite lookup_insert_ne by done. eauto.
  - rewrite PutPair_paired in Hx. eapply lookup_weaken in Hx; [|apply evictLocked_sub].
    rewrite paired_entries in Hx by done.
    apply lookup_insert_Some in Hx as [[<- <-]|[? [[<- <-]|[? ?]]%lookup_insert_Some]].
    + by rewrite lookup_insert_eq.
    + by rewrite lookup_insert_ne, lookup_insert_eq by done.
    + rewrite !lookup_insert_ne by done. eauto.
  - apply map_lookup_filter_Some. cbn. split.
    + apply HR. eapply lookup_weaken; [exact Hx|].
      etrans; [apply removeLocked_sub|apply invalidate_keys_sub].
    + destruct (covered slug x) eqn:E; [|done]. by rewrite invalidate_covers in Hx.
  - cbn in Hx. by rewrite lookup_empty in Hx.
Qed.

Lemma step_complete c o c' s :
  cache_step c o c' -> max c <= 0 -> o <> OInvalidate "item" -> linked c ->
  (forall k, entry <$> entries c !! k = s !! k) -> forall k, entry <$> entries c' !! k = spec_op s o !! k.
Proof.
  intros Hs Hm Ho Hl HR.
  assert (Hev : forall c0, max c0 = max c -> evictLocked c0 = c0)
    by (intros c0 E; unfold evictLocked; by rewrite E, (proj2 (Z.leb_le _ _) Hm)).
  destruct Hs; intros x; cbn [spec_op].
  - by rewrite Get_entries.
  - unfold Put. rewrite Hev by apply putLocked_max. rewrite putLocked_entries.
    destruct (decide (x = k)) as [->|]; [by rewrite !lookup_insert_eq|by rewrite !lookup_insert_ne].
  - rewrite PutPair_paired, Hev by (unfold paired; by rewrite !set_pair_max, !putLocked_max).
    rewrite paired_entries by done.
    destruct (decide (x = alias K)) as [->|]; [by rewrite !lookup_insert_eq|].
    rewrite !(lookup_insert_ne _ (alias K)) by done.
    destruct (decide (x = primary K)) as [->|]; [by rewrite !lookup_insert_eq|by rewrite !lookup_insert_ne].
  - destruct (covered slug x) eqn:E.
    + rewrite invalidate_covers by done. symmetry. apply map_lookup_filter_None. right. intros e _. cbn. by rewrite E.
    + rewrite invalidate_spares; [|done|done|by intros ->|done]. rewrite HR.
      destruct (s !! x) as [e|] eqn:Es; symmetry.
      * by apply map_lookup_filter_Some.
      * apply map_lookup_filter_None. by left.
  - by rewrite lookup_empty.
Qed.

(** the cache implements its contract. Whatever the sequence of renders,
    reads and invalidations, in whichever order the map is walked, a hit
    returns the last body stored under that key, and only if the feed that
    owns it (under its slug, under the bare item key of its permalinks, or
    through the index) has not been invalidated since; without a ceiling,
    every such body is a hit. A feed with the slug "item" is excluded from the
    second part: its prefix is the one of the bare item keys. *)
Theorem cache_refines_latest m ops c k :
  history m ops c ->
  (forall e, (Get k c).1 = Some e -> latest ops !! k = Some e)
  /\ (m <= 0 -> OInvalidate "item" ∉ ops -> (Get k c).1 = latest ops !! k).
Proof.
  intros H. rewrite Get_answer. split.
  - assert (HR : forall k it, entries c !! k = Some it -> latest ops !! k = Some (entry it)).
    { clear k. induction H as [|ops c o c' H IH Hs]; [intros k it; cbn; by rewrite lookup_empty|].
      rewrite latest_app. eapply step_refines; [done|by eapply history_inv|done]. }
    intros e. destruct (entries c !! k) as [it|] eqn:E; [|done]. intros [= <-]. by apply HR.
  - intros Hm Hit. revert k. induction H as [|ops c o c' H IH Hs]; intros k; [cbn; by rewrite !lookup_empty|].
    rewrite latest_app. rewrite elem_of_app, list_elem_of_singleton in Hit.
    eapply step_complete; [done|by rewrite (history_max _ _ _ H)|naive_solver|by eapply history_inv|naive_solver].
Qed.

(** eviction is least recently used: when an entry is stored, every key in
    the most recently used part of the order that fits the ceiling (twins
    counted together) is still held afterwards, with its body; in particular
    the entry just stored, when it fits. *)
Theorem cache_keeps_recent m ops c k e F l :
  history m ops c -> key_twin k "" -> order (putLocked k e c) = F ++ l -> twin_closed F ->
  csum size (entries (putLocked k e c)) F <= m ->
  forall x, x ∈ F -> (Get x (Put k e c)).1 = entry <$> entries (putLocked k e c) !! x.
Proof.
  intros H Hk Ho HF Hsz x Hx. destruct (history_inv _ _ _ H) as [Hc Hl]. rewrite Get_answer. f_equal.
  unfold Put, evictLocked. case_match; [done|]. eapply evict_keeps; try done.
  - by apply putLocked_ok.
  - by apply putLocked_linked.
  - by rewrite putLocked_max, (history_max _ _ _ H).
Qed.
End keys.

(** ** The cache between the store and the readers

    A request that misses reads the store and renders (two store queries and a
    renderer, [render]), and only then stores the entry; a write commits and
    then invalidates the slugs it touched.  Other requests and writes run in
    between. *)
Section coherence.
Context (owner : string -> string) {D : Type} (render : D -> string -> option Entry).

Record World := MkWorld { data : D; cache : Cache; pending : list op; dirty : list string }.

(** What a request that missed will store. *)
Inductive rendered (d : D) : op -> Prop :=
| rendered_document k e : key_twin owner k "" -> render d k = Some e -> rendered d (OPut k e)
| rendered_item K e : render d (alias K) = Some e -> render d (primary owner K) = Some e ->
    rendered d (OPutItem K e).

(** [quiet] asks that no request be between its read and its store when a
    write commits. *)
Inductive world_step (quiet : bool) (w : World) : World -> Prop :=
| w_hit k : world_step quiet w (MkWorld (data w) (Get k (cache w)).2 (pending w) (dirty w))
| w_miss o : rendered (data w) o ->
    world_step quiet w (MkWorld (data w) (cache w) (o :: pending w) (dirty w))
| w_fill l1 o l2 c' : pending w = l1 ++ o :: l2 -> cache_step owner (cache w) o c' ->
    world_step quiet w (MkWorld (data w) c' (l1 ++ l2) (dirty w))
| w_commit d' slugs : (quiet = true -> pending w = []) ->
    (forall k, Forall (fun slug => covered owner slug k = false) slugs -> render d' k = render (data w) k) ->
    world_step quiet w (MkWorld d' (cache w) (pending w) (slugs ++ dirty w))
| w_invalidate l1 slug l2 c' : dirty w = l1 ++ slug :: l2 ->
    cache_step owner (cache w) (OInvalidate slug) c' ->
    world_step quiet w (MkWorld (data w) c' (pending w) (l1 ++ l2)).

Definition start (m : Z) (d : D) : World := MkWorld d (NewCacheWithLimit m) [] [].

Definition coherent (w : World) : Prop :=
  forall k e, (Get k (cache w)).1 = Some e ->
    Exists (fun slug => covered owner slug k = true) (dirty w) \/ render (data w) k = Some e.

Record world_inv (w : World) : Prop := {
  wi_linked : linked owner (cache w);
  wi_pending : Forall (rendered (data w)) (pending w);
  wi_coherent : coherent w }.

Lemma not_Exists_covered slugs k :
  Exists (fun slug => covered owner slug k = true) slugs \/
  Forall (fun slug => covered owner slug k = false) slugs.
Proof.
  induction slugs as [|slug slugs IH]; [by right; constructor|].
  destruct (covered owner slug k) eqn:E; [by left; constructor|].
  destruct IH; [left; by apply Exists_cons_tl|right; by constructor].
Qed.

Lemma fill_coherent w l1 o l2 c' :
  world_inv w -> pending w = l1 ++ o :: l2 -> cache_step owner (cache w) o c' ->
  coherent (MkWorld (data w) c' (l1 ++ l2) (dirty w)).
Proof.
  intros [Hl Hp Hco] Hw Hs k e. cbn [cache dirty data].
  rewrite Hw in Hp. apply Forall_app in Hp as [_ [Ho _]%Forall_cons].
  intros Hk. rewrite Get_answer in Hk.
  assert (Hold : forall it, entries (cache w) !! k = Some it -> entry it = e ->
    Exists (fun slug => covered owner slug k = true) (dirty w) \/ render (data w) k = Some e).
  { intros it Hit He. apply Hco. rewrite Get_answer, Hit. by rewrite <- He. }
  destruct Ho as [k0 e0 Hk0 Hr|K e0 Hr1 Hr2].
  - inversion Hs as [|k1 e1 Hk1 E1 E2| | |]. subst. unfold Put in Hk.
    destruct (entries (evictLocked _) !! k) as [it|] eqn:E; [|done]. injection Hk as Hk.
    eapply lookup_weaken in E; [|apply evictLocked_sub]. rewrite putLocked_entries in E.
    apply lookup_insert_Some in E as [[-> <-]|[_ E]]; [right; cbn in Hk; by subst|by eapply Hold].
  - inversion Hs as [| |K1 e1 Ho1 HK1 E1 E2| |]. subst. rewrite PutPair_paired in Hk.
    destruct (entries (evictLocked _) !! k) as [it|] eqn:E; [|done]. injection Hk as Hk.
    eapply lookup_weaken in E; [|apply evictLocked_sub]. rewrite paired_entries in E by done.
    apply lookup_insert_Some in E as [[<- <-]|[_ [[<- <-]|[_ E]]%lookup_insert_Some]];
      [right; cbn in Hk; by subst|right; cbn in Hk; by subst|by eapply Hold].
Qed.

Lemma world_step_inv w w' : world_inv w -> world_step true w w' -> world_inv w'.
Proof.
  intros Hw Hs. pose proof Hw as [Hl Hp Hco].
  destruct Hs as [k|o Ho|l1 o l2 c' Epend Hcs|d' slugs Hq Hr|l1 slug l2 c' Edirty Hcs]; split; cbn; try done.
  - eapply op_linked; [apply (step_Get owner)|done].
  - intros x e. cbn. rewrite Get_answer, Get_entries, <- Get_answer. apply Hco.
  - by constructor.
  - by eapply op_linked.
  - rewrite Epend in Hp. apply Forall_app in Hp as [? [_ ?]%Forall_cons]. by apply Forall_app.
  - by eapply fill_coherent.
  - rewrite (Hq eq_refl). constructor.
  - intros k e Hk. cbn in *. destruct (not_Exists_covered slugs k) as [Hx|Hx].
    + left. apply Exists_app. by left.
    + destruct (Hco k e Hk) as [Hd|Hd]; [left; apply Exists_app; by right|]. right. by rewrite Hr.
  - by eapply op_linked.
  - intros k e. cbn. rewrite Get_answer. intros Hk.
    destruct (entries c' !! k) as [it|] eqn:E; [|done]. injection Hk as Hk.
    inversion Hcs as [| | |slug' ks Hslug Hks E1 E2|]. subst slug' c'.
    assert (Hnc : covered owner slug k = false).
    { destruct (covered owner slug k) eqn:Ec; [|done]. by rewrite (invalidate_covers owner) in E. }
    destruct (Hco k e) as [Hd|Hd]; [|left|by right].
    + rewrite Get_answer. eapply lookup_weaken in E; [by rewrite E, <- Hk|].
      etrans; [apply removeLocked_sub|apply invalidate_keys_sub].
    + rewrite Edirty in Hd. apply Exists_app in Hd as [Hd|Hd]; [apply Exists_app; by left|].
      apply Exists_cons in Hd as [Hd|Hd]; [congruence|]. apply Exists_app. by right.
Qed.

(** if no request stands between reading the store and filling the cache
    when a write commits, every hit is a render of the store as it is now,
    unless the key belongs to a slug whose invalidation has not been made
    yet. A write changes only renders under keys of the slugs it invalidates. *)
Theorem cache_coherent_when_quiet m d w :
  rtc (world_step true) (start m d) w -> coherent w.
Proof.
  intros H. assert (H0 : world_inv (start m d)).
  { split; cbn; [|constructor|].
    - intros k it. cbn. by rewrite lookup_empty.
    - intros k e. cbn. rewrite Get_answer. cbn. by rewrite lookup_empty. }
  revert H0. induction H as [|w0 w1 w2 Hs _ IH]; intros H0; [apply H0|].
  apply IH. by eapply world_step_inv.
Qed.
End coherence.

(** ** Instances *)

Definition news (_ : string) : string := "news".
Definition text_entry (s : string) : Entry := MkEntry s "" "" "" "text/html".
Definition doc_key : string := "news:xml".

Lemma doc_key_twin : key_twin news doc_key "".
Proof. apply (key_document news "news" "xml"); [done|]. left. set_solver. Qed.

Definition demo_key : string := "01J8Z".
Lemma demo_key_ok : item_key demo_key.
Proof. apply (bool_decide_eq_true_1 (item_key demo_key)). vm_compute. reflexivity. Qed.

(** A permalink and a document, with a ceiling of ten bytes. *)
Definition demo_cache : Cache :=
  Put doc_key (text_entry "feed") (PutPair (primary news demo_key) (alias demo_key) (text_entry "it")
    (NewCacheWithLimit 10)).
Definition demo_ops : list op := [OPutItem demo_key (text_entry "it"); OPut doc_key (text_entry "feed")].

Lemma demo_history : history news 10 demo_ops demo_cache.
Proof.
  apply (history_step news 10 [OPutItem demo_key (text_entry "it")]
           (PutPair (primary news demo_key) (alias demo_key) (text_entry "it") (NewCacheWithLimit 10))).
  - apply (history_step news 10 [] (NewCacheWithLimit 10)); [constructor|].
    apply step_PutPair; [done|apply demo_key_ok].
  - apply step_Put, doc_key_twin.
Qed.

Lemma cache_accounting_exact_witness : bytes demo_cache = 8 /\ bytes demo_cache <= 10.
Proof.
  split; [vm_compute; reflexivity|].
  exact (proj2 (proj2 (proj2 (proj2 (cache_accounting_exact news 10 demo_ops demo_cache demo_history)))) eq_refl).
Defined.

Lemma cache_refines_latest_witness :
  (Get (alias demo_key) demo_cache).1 = Some (text_entry "it")
  /\ latest news demo_ops !! alias demo_key = Some (text_entry "it").
Proof.
  assert (H : (Get (alias demo_key) demo_cache).1 = Some (text_entry "it")) by (vm_compute; reflexivity).
  split; [exact H|].
  exact (proj1 (cache_refines_latest news 10 demo_ops demo_cache (alias demo_key) demo_history) _ H).
Defined.

(** Storing nine more bytes pushes the rest out and keeps the new entry. *)
Lemma cache_keeps_recent_witness :
  (Get "index" (Put "index" (text_entry "123456789") demo_cache)).1 = Some (text_entry "123456789").
Proof.
  refine (cache_keeps_recent news 10 demo_ops demo_cache "index" (text_entry "123456789") ["index"%string]
            (order demo_cache) demo_history _ _ _ _ _ _).
  - constructor.
  - vm_compute. reflexivity.
  - intros k t ->%list_elem_of_singleton Ht Hn. destruct Hn.
    exact (key_twin_fun news "index" t "" Ht (key_index news)).
  - vm_compute. discriminate.
  - apply list_elem_of_singleton. reflexivity.
Defined.

(** A store with two versions of one feed. *)
Definition version_render (v : bool) (k : string) : option Entry :=
  if bool_decide (k = doc_key) then Some (text_entry (if v then "corrected" else "original")) else None.

Definition served (k : string) (w : World (D := bool)) : option Entry := (Get k (cache w)).1.

Lemma version_local k : Forall (fun slug => covered news slug k = false) ["news"%string] ->
  version_render true k = version_render false k.
Proof.
  intros [Hk _]%Forall_cons. unfold version_render. case_bool_decide as E; [|done].
  subst k. vm_compute in Hk. discriminate Hk.
Qed.

Lemma cache_coherent_when_quiet_witness :
  version_render false doc_key = Some (text_entry "original").
Proof.
  pose (w := MkWorld (D := bool) false (Put doc_key (text_entry "original") (NewCacheWithLimit 0)) [] []).
  assert (Hw : rtc (world_step news version_render true) (start 0 false) w).
  { eapply rtc_l; [|apply rtc_once].
    - apply w_miss. apply (rendered_document news version_render false doc_key (text_entry "original")).
      + apply doc_key_twin.
      + reflexivity.
    - apply (w_fill news version_render true
               (MkWorld false (NewCacheWithLimit 0) [OPut doc_key (text_entry "original")] [])
               [] (OPut doc_key (text_entry "original")) []
               (Put doc_key (text_entry "original") (NewCacheWithLimit 0))); [reflexivity|].
      apply step_Put, doc_key_twin. }
  destruct (cache_coherent_when_quiet news version_render 0 false w Hw doc_key (text_entry "original")) as [H|H].
  - vm_compute. reflexivity.
  - exfalso. inversion H.
  - exact H.
Defined.

(** without that condition the cache can serve a retracted body with no
    invalidation outstanding: a request that missed and rendered before the
    write stores its entry after the write's invalidation, and nothing removes
    it until the next write to the feed. *)
Theorem late_fill_is_stale :
  exists w, rtc (world_step news version_render false) (start 0 false) w
    /\ data w = true /\ pending w = [] /\ dirty w = []
    /\ served doc_key w = Some (text_entry "original")
    /\ version_render (data w) doc_key = Some (text_entry "corrected").
Proof.
  exists (MkWorld true (Put doc_key (text_entry "original") (NewCacheWithLimit 0)) [] []).
  split; [|vm_compute; done].
  eapply rtc_l; [apply w_miss; apply (rendered_document news version_render false doc_key (text_entry "original"));
                 [apply doc_key_twin|reflexivity]|].
  eapply rtc_l; [apply (w_commit news version_render false _ true ["news"%string]); [done|apply version_local]|].
  eapply rtc_l; [apply (w_invalidate news version_render false _ [] "news" []
                          (invalidate_in [] "news" (NewCacheWithLimit 0))); [reflexivity|]|].
  { apply step_Invalidate; [reflexivity|]. vm_compute. constructor. }
  apply rtc_once.
  apply (w_fill news version_render false
           (MkWorld true (NewCacheWithLimit 0) [OPut doc_key (text_entry "original")] [])
           [] (OPut doc_key (text_entry "original")) []
           (Put doc_key (text_entry "original") (NewCacheWithLimit 0))); [reflexivity|].
  apply step_Put, doc_key_twin.
Qed.
