(* ===== verification/Publish.v ===== *)
(** * The public HTTP server: internal/publish/server.go, embed.go, invalidate.go

    The read-only plane that answers feed readers: the route table, the request
    handlers with their conditional requests, compression and caching headers,
    on top of the renderers (Render.v) and the render cache (PubCache.v).

    A handler takes the answers the store gives at the moment of the request
    ([Deps]), the request and the cache, and returns the response and the cache.
    The digest, the compressor and the parsers of net/url's IP literals and of
    dates that are not in HTTP's own format are arguments; spans, logs and
    metrics are not modelled, nor are the headers net/http adds by itself. *)

From S2P Require Import Prelude GoTime GoStrings Utf8 GoURL Xml Timestamps TimeRead Schema Render PubCache.
From Stdlib Require Import String Ascii.
Local Open Scope string_scope.
Local Open Scope Z_scope.

(** ** Requests and responses *)

(** A request's method, its path and query, and the headers the handlers look at;
    [Header.Get] gives the empty text for one that is absent. *)
Record Request := MkRequest {
  Method : string; ReqPath : string; ReqQuery : string; AcceptEncoding : string; IfNoneMatch : string; IfModifiedSince : string }.

Record Response := MkResponse { Status : Z; Header : gmap string string; RespBody : string }.

Definition is_head (r : Request) : bool := String.eqb (Method r) "HEAD".
Definition is_get (r : Request) : bool := String.eqb (Method r) "GET".

(** ** What the handlers ask for *)

(** [None] is a failure of the backend; a lookup that succeeds may find nothing. *)
Record Deps := MkDeps {
  GetFeed : string -> option (option Feed);
  ListItems : Z -> option (list Item);
  ListFeeds : option (list Feed);
  GetItem : string -> option (option (Feed * Item));
  BaseURL : string; BaseURLFn : option string; CacheControlFn : option string;
  d_Generator : string; d_DocsURL : string; d_TagYear : Z; Now : Z;
  (** the text of [/healthz], given the cache's statistics *)
  Healthz : Stats -> option string }.

Definition at_time (t : Z) (d : Deps) : Deps :=
  MkDeps (GetFeed d) (ListItems d) (ListFeeds d) (GetItem d) (BaseURL d) (BaseURLFn d) (CacheControlFn d)
    (d_Generator d) (d_DocsURL d) (d_TagYear d) t (Healthz d).

Definition TrimRight_slash (s : string) : string := srev (span (Ascii.eqb "/") (srev s)).2.

Definition baseURL (d : Deps) : string :=
  match BaseURLFn d with
  | Some v => if is_empty (TrimRight_slash v) then TrimRight_slash (BaseURL d) else TrimRight_slash v
  | None => TrimRight_slash (BaseURL d)
  end.

Definition defaultCacheControl : string := "max-age=900".
Definition cacheControl (d : Deps) : string :=
  match CacheControlFn d with
  | None => defaultCacheControl
  | Some v => if is_empty (TrimSpace v) then defaultCacheControl else TrimSpace v
  end.

Definition tagYearFor (d : Deps) (f : Feed) : Z :=
  if negb (is_zero (fd_CreatedAt f)) then Year UTC (fd_CreatedAt f) else d_TagYear d.

(** ** Dates *)

(** [http.TimeFormat]. *)
Definition httpTime (t : Z) : string :=
  short_weekday (Weekday UTC t) ++ ", " ++ pad 2 (Day UTC t) (" " ++ month_name (Month UTC t) ++ " "
  ++ show_year (Year UTC t) (" " ++ pad 2 (Hour UTC t) (":" ++ pad 2 (Minute UTC t) (":" ++ pad 2 (Second UTC t) " GMT")))).

Fixpoint index_from (i : Z) (x : string) (l : list string) : option Z :=
  match l with [] => None | y :: r => if String.eqb x y then Some i else index_from (i + 1) x r end.
Definition month_number (s : string) : option Z :=
  index_from 1 s ["Jan"; "Feb"; "Mar"; "Apr"; "May"; "Jun"; "Jul"; "Aug"; "Sep"; "Oct"; "Nov"; "Dec"].

(** The instant of a text in exactly that format. *)
Definition read_http_time (s : string) : option Z :=
  match s with
  | String _ (String _ (String _ (String _ (String _ (String d1 (String d2 (String _
      (String n1 (String n2 (String n3 (String _ (String y1 (String y2 (String y3 (String y4 (String _
      (String h1 (String h2 (String _ (String i1 (String i2 (String _ (String s1 (String s2 _)))))))))))))))))))))))) =>
      d ← two d1 d2; m ← month_number (String n1 (String n2 (String n3 ""))); y ← four y1 y2 y3 y4;
      h ← two h1 h2; i ← two i1 i2; sec ← two s1 s2;
      let t := (days_of_civil y m d * 86400 + h * 3600 + i * 60 + sec) * second in
      if String.eqb (httpTime t) s then Some t else None
  | _ => None
  end.

(** *** Reading a date back *)

Lemma month_text m : 1 <= m <= 12 -> exists a b c, month_name m = String a (String b (String c "")) /\ month_number (month_name m) = Some m.
Proof.
  intros Hm. assert (H : m = 1 \/ m = 2 \/ m = 3 \/ m = 4 \/ m = 5 \/ m = 6 \/ m = 7 \/ m = 8 \/ m = 9 \/ m = 10 \/ m = 11 \/ m = 12) by lia.
  repeat destruct H as [->|H]; [eexists _, _, _; split; reflexivity..|subst; eexists _, _, _; split; reflexivity].
Qed.

Lemma weekday_text w : 0 <= w <= 6 -> exists a b c, short_weekday w = String a (String b (String c "")).
Proof.
  intros Hw. assert (H : w = 0 \/ w = 1 \/ w = 2 \/ w = 3 \/ w = 4 \/ w = 5 \/ w = 6) by lia.
  repeat destruct H as [->|H]; [eexists _, _, _; reflexivity..|subst; eexists _, _, _; reflexivity].
Qed.

Lemma httpTime_second t : httpTime (unix t * second) = httpTime t.
Proof.
  assert (E : unix (unix t * second) = unix t) by (unfold unix; rewrite Z.div_mul; [done|by vm_compute]).
  assert (Ew : forall l, wall l (unix t * second) = wall l t) by (intros l; unfold wall; by rewrite E).
  unfold httpTime, Weekday, Year, Month, Day, Hour, Minute, Second, local_day. by rewrite !Ew.
Qed.

Lemma read_own_time t : four_digit t -> read_http_time (httpTime t) = Some (unix t * second).
Proof.
  intros Hy. destruct (civil_of_day_valid (local_day UTC t)) as [Hm Hd]. fold (Month UTC t) in Hm.
  assert (Hday : 1 <= Day UTC t <= 31).
  { unfold Day. unfold days_in_month in Hd. split; [apply Hd|]. destruct Hd as [_ Hd]. etransitivity; [exact Hd|].
    unfold days_before_month. repeat case_match; lia. }
  destruct (weekday_text (Weekday UTC t)) as (w1 & w2 & w3 & Ew); [unfold Weekday, weekday_of_day; dlia|].
  destruct (month_text (Month UTC t) Hm) as (n1 & n2 & n3 & En & Emn).
  pose proof (httpTime_second t) as Hs. unfold httpTime at 2 in Hs. unfold httpTime at 1.
  rewrite Ew, En, show_year_pad in * by exact Hy.
  assert (Hh : 0 <= Hour UTC t <= 99) by (unfold Hour; dlia). assert (Hmi : 0 <= Minute UTC t <= 99) by (unfold Minute; dlia).
  assert (Hse : 0 <= Second UTC t <= 99) by (unfold Second; dlia).
  set (gmt := " GMT") in *.
  destruct (two_pad (Second UTC t) gmt Hse) as (s1 & s2 & E1 & F1). rewrite E1 in *.
  destruct (two_pad (Minute UTC t) (":" ++ String s1 (String s2 gmt)) Hmi) as (i1 & i2 & E2 & F2). rewrite E2 in *.
  destruct (two_pad (Hour UTC t) (":" ++ String i1 (String i2 (":" ++ String s1 (String s2 gmt)))) Hh) as (h1 & h2 & E3 & F3). rewrite E3 in *.
  destruct (four_pad (Year UTC t) (" " ++ String h1 (String h2 (":" ++ String i1 (String i2 (":" ++ String s1 (String s2 gmt)))))) Hy)
    as (y1 & y2 & y3 & y4 & E4 & F4). rewrite E4 in *.
  match type of Hs with context [pad 2 (Day UTC t) ?r] => destruct (two_pad (Day UTC t) r) as (d1 & d2 & E5 & F5); [lia|]; rewrite E5 in * end.
  clear E1 E2 E3 E4 E5 Ew En. unfold gmt in *. rewrite ?str_app_cons, ?str_app_nil_l in Hs. rewrite ?str_app_cons, ?str_app_nil_l.
  cbn [read_http_time]. rewrite F5, Emn, F4, F3, F2, F1. cbn [mbind option_bind]. cbv zeta. by rewrite instant_of_fields, Hs, String.eqb_refl.
Qed.

Section server.
Context (sha256hex gzip : string -> string) (ip : string -> option string) (st : string -> bool).
(** What [http.ParseTime] makes of a text that is not in [http.TimeFormat] to the
    letter, and the icon that is built into the binary. *)
Context (lenient_time : string -> option Z) (FaviconICO : string).

Definition ParseTime (s : string) : option Z :=
  match read_http_time s with Some t => Some t | None => lenient_time s end.

(** ** Shared helpers *)

(** [allowMethod]: the response when the method is not allowed. *)
Definition allowMethod (r : Request) : option Response :=
  if is_get r || is_head r then None
  else Some (MkResponse 405 {[ "Allow" := "GET, HEAD" ]} "").

Definition lower_text (s : string) : string := string_of_list_ascii (List.map lower_ascii (list_ascii_of_string s)).

Definition wantsGzip (r : Request) : bool :=
  existsb (fun enc => String.eqb (lower_text (TrimSpace enc)) "gzip") (Split (AcceptEncoding r) ",").

Definition etagMatch (header etag : string) : bool :=
  existsb (fun tok =>
    let tok := TrimSpace tok in
    String.eqb tok "*" || String.eqb (match strip_prefix "W/" tok with Some t => t | None => tok end) etag) (Split header ",").

Definition notModified (r : Request) (e : Entry) : bool :=
  if negb (is_empty (IfNoneMatch r)) then etagMatch (IfNoneMatch r) (ETag e)
  else if negb (is_empty (IfModifiedSince r)) then
    match ParseTime (IfModifiedSince r), ParseTime (LastModified e) with
    | Some since, Some lastMod => negb (since <? truncate lastMod second)
    | _, _ => false
    end
  else false.

Definition defaultCSP : string := "frame-ancestors 'none'".
Definition applyDefaultCSP (h : gmap string string) : gmap string string :=
  if is_empty (default "" (h !! "Content-Security-Policy")) then <["Content-Security-Policy" := defaultCSP]> h else h.

Definition writeStatus (h : gmap string string) (r : Request) (msg : string) (code : Z) : Response :=
  let h := applyDefaultCSP (<["X-Content-Type-Options" := "nosniff"]> (<["Content-Type" := "text/plain; charset=utf-8"]> h)) in
  MkResponse code h (if is_head r then "" else msg ++ lf).

Definition writeEntry (h : gmap string string) (r : Request) (e : Entry) (cacheControl : string) : Response :=
  let cacheControl := if is_empty cacheControl then defaultCacheControl else cacheControl in
  let h := <["Vary" := "Accept-Encoding"]> (<["Cache-Control" := cacheControl]> (<["Last-Modified" := LastModified e]>
             (<["ETag" := ETag e]> (<["Content-Type" := ContentType e]> (applyDefaultCSP h))))) in
  if notModified r e then MkResponse 304 h ""
  else
    let zipped := wantsGzip r && negb (is_empty (GzipBody e)) in
    let h := if zipped then <["Content-Encoding" := "gzip"]> h else h in
    MkResponse 200 h (if is_head r then "" else if zipped then GzipBody e else Body e).

Definition not_found (r : Request) : Response := writeStatus ∅ r "404 page not found" 404.
Definition internal_error (r : Request) : Response := writeStatus ∅ r "internal error" 500.

(** ** Routes *)

(** What a render that is not in the cache comes to: an entry, nothing to show, or
    a failure of the backend. *)
Inductive outcome := Rendered (e : Entry) | Missing | Gone | Failing.

Definition html_type : string := "text/html; charset=utf-8".

Definition render_index (d : Deps) : outcome :=
  match ListFeeds d with
  | None => Failing
  | Some feeds => Rendered (NewEntry sha256hex gzip (Index feeds (baseURL d) (d_Generator d)) html_type (httpTime (Now d)))
  end.

Definition handleRoot (d : Deps) (r : Request) (c : Cache) : Response * Cache :=
  if negb (String.eqb (ReqPath r) "/") then (not_found r, c) else
  match allowMethod r with
  | Some resp => (resp, c)
  | None =>
      match Get "index" c with
      | (Some e, c) => (writeEntry ∅ r e (cacheControl d), c)
      | (None, c) =>
          match render_index d with
          | Rendered e => (writeEntry ∅ r e (cacheControl d), Put "index" e c)
          | _ => (internal_error r, c)
          end
      end
  end.

Definition TrimPrefix (s p : string) : string := match strip_prefix p s with Some r => r | None => s end.
Definition CutSuffix (s p : string) : option string := match strip_prefix (srev p) (srev s) with Some r => Some (srev r) | None => None end.

Definition feed_formats : list (string * string * string) :=
  [(".xml", "xml", "application/rss+xml; charset=utf-8"); (".atom", "atom", "application/atom+xml; charset=utf-8");
   (".json", "json", "application/feed+json")].

Definition feedFormat (path : string) : option (string * string * string) :=
  let rest := TrimPrefix path "/feeds/" in
  match List.find (fun f => match CutSuffix rest f.1.1 with Some _ => true | None => false end) feed_formats with
  | Some (ext, format, contentType) =>
      match CutSuffix rest ext with
      | Some slug => if is_empty slug then None else Some (slug, format, contentType)
      | None => None
      end
  | None => None
  end.

(** The channel [renderFeed] and [renderEmbed] build. *)
Definition feed_channel (d : Deps) (feed : Feed) (items : list Item) (slug format : string) : Channel :=
  MkChannel feed (baseURL d ++ "/feeds/" ++ slug ++ "." ++ format) (baseURL d ++ "/") (baseURL d) (tagYearFor d feed)
    items (Now d) (d_Generator d) (d_DocsURL d).

Definition renderFeed (d : Deps) (slug format contentType : string) : outcome :=
  match GetFeed d slug with
  | None => Failing
  | Some None => Missing
  | Some (Some feed) =>
      match ListItems d (fd_ID feed) with
      | None => Failing
      | Some items =>
          let ch := feed_channel d feed items slug format in
          let body := if String.eqb format "xml" then Some (RSS ch)
                      else if String.eqb format "atom" then Some (Atom ch)
                      else if String.eqb format "json" then Some (JSONFeed ch) else None in
          match body with
          | None => Failing
          | Some body => Rendered (NewEntry sha256hex gzip body contentType (httpTime (Channel_NewestPublished ch)))
          end
      end
  end.

(** The answer to a render: what could not be rendered is not cached. *)
Definition answer (d : Deps) (r : Request) (h : gmap string string) (x : outcome) (put : Entry -> Cache -> Cache) (c : Cache) : Response * Cache :=
  match x with
  | Rendered e => (writeEntry h r e (cacheControl d), put e c)
  | Missing => (not_found r, c)
  | Gone => (writeStatus ∅ r "Gone" 410, c)
  | Failing => (internal_error r, c)
  end.

Definition handleFeed (d : Deps) (r : Request) (c : Cache) : Response * Cache :=
  match feedFormat (ReqPath r) with
  | None => (not_found r, c)
  | Some (slug, format, contentType) =>
      match allowMethod r with
      | Some resp => (resp, c)
      | None =>
          let key := slug ++ ":" ++ format in
          match Get key c with
          | (Some e, c) => (writeEntry ∅ r e (cacheControl d), c)
          | (None, c) => answer d r ∅ (renderFeed d slug format contentType) (Put key) c
          end
      end
  end.

Definition has_slash (s : string) : bool := existsb (Ascii.eqb "/") (list_ascii_of_string s).

Definition item_channel (d : Deps) (feed : Feed) : Channel :=
  MkChannel feed "" (baseURL d ++ "/") (baseURL d) (tagYearFor d feed) [] zero_time (d_Generator d) "".

Definition item_last_modified (item : Item) : Z :=
  let lastMod := EditedAt item in
  let lastMod := if is_zero lastMod then UpdatedAt item else lastMod in
  if is_zero lastMod then PublishedAt item else lastMod.

Definition render_item (d : Deps) (feed : Feed) (item : Item) : outcome :=
  if IsDeleted item then Gone
  else Rendered (NewEntry sha256hex gzip (Permalink (item_channel d feed) item) html_type (httpTime (item_last_modified item))).

Definition handleItem (d : Deps) (r : Request) (c : Cache) : Response * Cache :=
  let itemKey := TrimPrefix (ReqPath r) "/items/" in
  if is_empty itemKey || has_slash itemKey then (not_found r, c) else
  match allowMethod r with
  | Some resp => (resp, c)
  | None =>
      let cacheKey := "item:" ++ itemKey in
      match Get cacheKey c with
      | (Some e, c) => (writeEntry ∅ r e (cacheControl d), c)
      | (None, c) =>
          match GetItem d itemKey with
          | None => (internal_error r, c)
          | Some None => (not_found r, c)
          | Some (Some (feed, item)) =>
              answer d r ∅ (render_item d feed item) (PutPair (fd_Slug feed ++ ":item:" ++ itemKey) cacheKey) c
          end
      end
  end.

(** *** The widget *)

Definition embedCSP : string :=
  "default-src 'none'; style-src 'unsafe-inline'; frame-ancestors https: http:; base-uri 'none'; form-action 'none'".

Definition query_get (query key : string) : string :=
  match Query (MkURL "" "" None "" "" "" false false query) !! key with Some (v :: _) => v | _ => "" end.

Definition embedOptions (r : Request) : option EmbedOptions :=
  let count := query_get (ReqQuery r) "count" in
  let theme := query_get (ReqQuery r) "theme" in
  n ← (if is_empty count then Some DefaultEmbedCount
       else match Atoi count with Some n => if ValidEmbedCount n then Some n else None | None => None end);
  t ← (if is_empty theme then Some DefaultEmbedTheme else if ValidEmbedTheme theme then Some theme else None);
  Some (MkEmbedOptions n t).

Definition renderEmbed (d : Deps) (slug : string) (o : EmbedOptions) : outcome :=
  match GetFeed d slug with
  | None => Failing
  | Some None => Missing
  | Some (Some feed) =>
      match ListItems d (fd_ID feed) with
      | None => Failing
      | Some items =>
          let ch := feed_channel d feed items slug "xml" in
          Rendered (NewEntry sha256hex gzip (Embed ip st ch o) html_type (httpTime (Channel_NewestPublished ch)))
      end
  end.

Definition embed_key (slug : string) (o : EmbedOptions) : string := slug ++ ":embed:" ++ show_int (Count o) ++ ":" ++ Theme o.

(** The headers [writeEmbedEntry] sets before [writeEntry]. *)
Definition embed_header : gmap string string := {[ "Content-Security-Policy" := embedCSP ]}.

Definition handleEmbed (d : Deps) (r : Request) (c : Cache) : Response * Cache :=
  let slug := TrimPrefix (ReqPath r) "/embed/" in
  if is_empty slug || has_slash slug then (not_found r, c) else
  match allowMethod r with
  | Some resp => (resp, c)
  | None =>
      match embedOptions r with
      | None => (not_found r, c)
      | Some o =>
          match Get (embed_key slug o) c with
          | (Some e, c) => (writeEntry embed_header r e (cacheControl d), c)
          | (None, c) => answer d r embed_header (renderEmbed d slug o) (Put (embed_key slug o)) c
          end
      end
  end.

(** *** The others *)

Definition handleHealthz (d : Deps) (r : Request) (c : Cache) : Response * Cache :=
  match allowMethod r with
  | Some resp => (resp, c)
  | None =>
      match Healthz d (cache_stats c) with
      | None => (internal_error r, c)
      | Some body => (MkResponse 200 {[ "Content-Type" := "application/json; charset=utf-8" ]} (if is_head r then "" else body ++ lf), c)
      end
  end.

Definition handleRobots (d : Deps) (r : Request) (c : Cache) : Response * Cache :=
  match allowMethod r with
  | Some resp => (resp, c)
  | None => (MkResponse 200 {[ "Content-Type" := "text/plain; charset=utf-8" ]}
               (if is_head r then "" else "User-agent: *" ++ lf ++ "Allow: /" ++ lf), c)
  end.

Definition faviconETag : string := q (sha256hex FaviconICO).

Definition handleFavicon (d : Deps) (r : Request) (c : Cache) : Response * Cache :=
  match allowMethod r with
  | Some resp => (resp, c)
  | None =>
      let h : gmap string string :=
        <["ETag" := faviconETag]> (<["Cache-Control" := "public, max-age=604800"]> {[ "Content-Type" := "image/x-icon" ]}) in
      if negb (is_empty (IfNoneMatch r)) && etagMatch (IfNoneMatch r) faviconETag then (MkResponse 304 h "", c)
      else (MkResponse 200 (<["Content-Length" := show_int (slen FaviconICO)]> h) (if is_head r then "" else FaviconICO), c)
  end.

(** *** The route table *)

Inductive route := RIndex | RHealthz | RRobots | RFavicon | RFeed | RItem | REmbed.
#[export] Instance route_eq_dec : EqDecision route.
Proof. solve_decision. Defined.

(** The longest pattern that is the path or, when it ends in a slash, a prefix of
    it; for a path [http.ServeMux] does not redirect first. *)
Definition mux (path : string) : route :=
  if String.eqb path "/healthz" then RHealthz
  else if String.eqb path "/robots.txt" then RRobots
  else if String.eqb path "/favicon.ico" then RFavicon
  else if HasPrefix path "/feeds/" then RFeed
  else if HasPrefix path "/items/" then RItem
  else if HasPrefix path "/embed/" then REmbed
  else RIndex.

Definition serve (d : Deps) (r : Request) (c : Cache) : Response * Cache :=
  match mux (ReqPath r) with
  | RIndex => handleRoot d r c
  | RHealthz => handleHealthz d r c
  | RRobots => handleRobots d r c
  | RFavicon => handleFavicon d r c
  | RFeed => handleFeed d r c
  | RItem => handleItem d r c
  | REmbed => handleEmbed d r c
  end.

(** ** HEAD mirrors GET *)

Definition with_method (m : string) (r : Request) : Request :=
  MkRequest m (ReqPath r) (ReqQuery r) (AcceptEncoding r) (IfNoneMatch r) (IfModifiedSince r).

(** A HEAD response: the same but for the body. *)
Definition mirrors (head get : Response * Cache) : Prop :=
  Status head.1 = Status get.1 /\ Header head.1 = Header get.1 /\ RespBody head.1 = "" /\ head.2 = get.2.

Lemma writeEntry_head h r e cc c : mirrors (writeEntry h (with_method "HEAD" r) e cc, c) (writeEntry h (with_method "GET" r) e cc, c).
Proof.
  unfold mirrors, writeEntry. cbv zeta. change (notModified (with_method "HEAD" r) e) with (notModified (with_method "GET" r) e).
  change (wantsGzip (with_method "HEAD" r)) with (wantsGzip (with_method "GET" r)). by destruct (notModified _ _).
Qed.
Lemma writeStatus_head h r msg code c : mirrors (writeStatus h (with_method "HEAD" r) msg code, c) (writeStatus h (with_method "GET" r) msg code, c).
Proof. done. Qed.

Lemma answer_head d r h x put c : mirrors (answer d (with_method "HEAD" r) h x put c) (answer d (with_method "GET" r) h x put c).
Proof. destruct x; cbn [answer]; [apply writeEntry_head|done..]. Qed.

Lemma head_mirrors d r c : mirrors (serve d (with_method "HEAD" r) c) (serve d (with_method "GET" r) c).
Proof.
  unfold serve. cbn [ReqPath with_method]. destruct (mux (ReqPath r)).
  - unfold handleRoot. cbn [ReqPath with_method]. destruct (negb _); [done|]. cbn.
    destruct (Get "index" c) as [[e|] c1]; [apply writeEntry_head|]. destruct (render_index d); [apply writeEntry_head|done..].
  - unfold handleHealthz. cbn. by destruct (Healthz d _).
  - done.
  - unfold handleFavicon. cbn. by destruct (negb _ && _).
  - unfold handleFeed. cbn [ReqPath with_method]. destruct (feedFormat _) as [[[slug fm] ct]|]; [|done]. cbn [allowMethod is_get is_head Method with_method].
    change (allowMethod (with_method "HEAD" r)) with (@None Response). change (allowMethod (with_method "GET" r)) with (@None Response). cbv iota.
    destruct (Get _ c) as [[e|] c1]; [apply writeEntry_head|apply answer_head].
  - unfold handleItem. cbn [ReqPath with_method]. cbv zeta. destruct (_ || _); [done|].
    change (allowMethod (with_method "HEAD" r)) with (@None Response). change (allowMethod (with_method "GET" r)) with (@None Response). cbv iota.
    destruct (Get _ c) as [[e|] c1]; [apply writeEntry_head|]. destruct (GetItem d _) as [[[f i]|]|]; [apply answer_head|done..].
  - unfold handleEmbed. cbn [ReqPath with_method]. cbv zeta. destruct (_ || _); [done|].
    change (allowMethod (with_method "HEAD" r)) with (@None Response). change (allowMethod (with_method "GET" r)) with (@None Response). cbv iota.
    change (embedOptions (with_method "HEAD" r)) with (embedOptions (with_method "GET" r)). destruct (embedOptions _) as [o|]; [|done].
    destruct (Get _ c) as [[e|] c1]; [apply writeEntry_head|apply answer_head].
Qed.

(** ** The cache is transparent *)

(** The documents there are, and the cache keys of each. *)
Inductive doc := DIndex | DFeed (slug format : string) | DItem (key : string) | DItemOf (slug key : string) | DEmbed (slug : string) (o : EmbedOptions).

Definition cache_key (x : doc) : string :=
  match x with
  | DIndex => "index"
  | DFeed slug format => slug ++ ":" ++ format
  | DItem key => "item:" ++ key
  | DItemOf slug key => slug ++ ":item:" ++ key
  | DEmbed slug o => embed_key slug o
  end.

Definition content_type (format : string) : string :=
  match List.find (fun f => String.eqb f.1.2 format) feed_formats with Some f => f.2 | None => "" end.

(** Rendering one, without the cache. *)
Definition render_doc (d : Deps) (x : doc) : outcome :=
  match x with
  | DIndex => render_index d
  | DFeed slug format => renderFeed d slug format (content_type format)
  | DItem key => match GetItem d key with None => Failing | Some None => Missing | Some (Some (f, i)) => render_item d f i end
  | DItemOf slug key =>
      match GetItem d key with
      | None => Failing
      | Some None => Missing
      | Some (Some (f, i)) => if String.eqb (fd_Slug f) slug then render_item d f i else Missing
      end
  | DEmbed slug o => renderEmbed d slug o
  end.

(** The names the store holds: slugs without a colon that are not the word the keys
    of permalinks begin with, and item keys that look like no format or theme. *)
Definition slug_ok (slug : string) : Prop := lacks ":" slug /\ slug <> "item".
Definition item_key_ok (key : string) : Prop := lacks ":" key /\ key ∉ ["xml"; "atom"; "json"; "light"; "dark"; "auto"].

Record names_ok (d : Deps) : Prop := {
  ok_slugs : forall slug f, GetFeed d slug = Some (Some f) -> slug_ok slug;
  ok_keys : forall key f i, GetItem d key = Some (Some (f, i)) -> item_key_ok key /\ slug_ok (fd_Slug f) }.

Definition valid_options (o : EmbedOptions) : Prop := Count o ∈ EmbedCounts /\ Theme o ∈ EmbedThemes.

Definition doc_ok (x : doc) : Prop :=
  match x with
  | DIndex => True
  | DFeed slug format => slug_ok slug /\ format ∈ ["xml"; "atom"; "json"]
  | DItem key => item_key_ok key
  | DItemOf slug key => slug_ok slug /\ item_key_ok key
  | DEmbed slug o => slug_ok slug /\ valid_options o
  end.

(** Of the documents a request can name. *)
Definition asked (x : doc) : Prop :=
  match x with
  | DIndex | DItem _ => True
  | DFeed _ format => format ∈ ["xml"; "atom"; "json"]
  | DItemOf _ _ => False
  | DEmbed _ o => valid_options o
  end.

Lemma last_colon a b a' b' : lacks ":" b -> lacks ":" b' -> a ++ String ":" b = a' ++ String ":" b' -> a = a' /\ b = b'.
Proof.
  intros Hb Hb' E. apply app_eq_split in E as [(m & -> & E)|(m & Hm & -> & E)].
  - destruct m as [|x m]; [rewrite str_app_nil_l in E; injection E as ->; by rewrite str_app_nil_r|].
    rewrite str_app_cons in E. injection E as <- ->. apply lacks_app in Hb as [_ Hb]. apply lacks_cons in Hb as [Hb _]. by destruct Hb.
  - destruct m as [|x m]; [done|]. rewrite str_app_cons in E. injection E as <- E. rewrite E in Hb'.
    apply lacks_app in Hb' as [_ Hb']. apply lacks_cons in Hb' as [Hb' _]. by destruct Hb'.
Qed.

Lemma first_colon a b a' b' : lacks ":" a -> lacks ":" a' -> a ++ String ":" b = a' ++ String ":" b' -> a = a' /\ b = b'.
Proof. intros Ha Ha' E. pose proof (cut_app a b ":" Ha) as H. rewrite E, (cut_app a' b' ":" Ha') in H. by injection H as -> ->. Qed.

Lemma listed_lacks x l : x ∈ l -> forallb (all_bytes (fun c => negb (Ascii.eqb c ":"))) l = true -> lacks ":" x.
Proof. intros Hx H. apply (proj1 (forallb_forall _ _) H). by apply list_elem_of_In. Qed.

Lemma format_lacks f : f ∈ ["xml"; "atom"; "json"] -> lacks ":" f.
Proof. intros H. by apply (listed_lacks _ _ H). Qed.
Lemma theme_lacks t : t ∈ EmbedThemes -> lacks ":" t.
Proof. intros H. by apply (listed_lacks _ _ H). Qed.

Lemma embed_key_split slug o : embed_key slug o = (slug ++ ":embed:" ++ show_int (Count o)) ++ String ":" (Theme o).
Proof. unfold embed_key. by rewrite !str_app_assoc. Qed.

Lemma count_shown n m : n ∈ EmbedCounts -> m ∈ EmbedCounts -> show_int n = show_int m -> n = m.
Proof.
  unfold EmbedCounts. rewrite !elem_of_cons, !elem_of_nil. intros [->|[->|[->|[]]]] [->|[->|[->|[]]]] E; by vm_compute in E.
Qed.
Lemma count_lacks n : n ∈ EmbedCounts -> lacks ":" (show_int n).
Proof. unfold EmbedCounts. rewrite !elem_of_cons, !elem_of_nil. by intros [->|[->|[->|[]]]]. Qed.

Lemma not_listed (f t : string) l l' : f ∈ l -> t ∈ l' -> forallb (fun x => negb (existsb (String.eqb x) l')) l = true -> f <> t.
Proof.
  intros Hf Ht H ->. apply list_elem_of_In in Hf. apply (proj1 (forallb_forall _ _) H) in Hf. apply negb_true_iff in Hf.
  apply not_true_iff_false in Hf. apply Hf. apply existsb_exists. exists t. rewrite String.eqb_refl. split; [|done]. by apply list_elem_of_In.
Qed.

Lemma embed_key_inj slug o slug' o' : valid_options o -> valid_options o' -> embed_key slug o = embed_key slug' o' -> slug = slug' /\ o = o'.
Proof.
  intros [Hc Ht] [Hc' Ht'] E. rewrite !embed_key_split in E. apply last_colon in E as [E Et]; [|by apply theme_lacks..].
  change (":embed:" ++ show_int (Count o)) with (":embed" ++ String ":" (show_int (Count o))) in E.
  change (":embed:" ++ show_int (Count o')) with (":embed" ++ String ":" (show_int (Count o'))) in E.
  rewrite <- !str_app_assoc in E. apply last_colon in E as [E En]; [|by apply count_lacks..]. apply count_shown in En; [|done..].
  change ":embed" with (String ":" "embed") in E. apply last_colon in E as [-> _]; [|done..]. split; [done|]. destruct o, o'. cbn in *. by subst.
Qed.

Lemma cache_key_inj x y : doc_ok x -> asked y -> cache_key x = cache_key y -> x = y.
Proof.
  assert (Hnc : forall a b, "index" = a ++ String ":" b -> False).
  { intros a b E. assert (lacks ":" "index") as H by done. rewrite E in H. apply lacks_app in H as [_ H]. apply lacks_cons in H as [H _]. by destruct H. }
  assert (Hof : forall s key, s ++ ":item:" ++ key = (s ++ ":item") ++ String ":" key) by (intros; by rewrite str_app_assoc).
  assert (Hemb : forall s o, embed_key s o = s ++ String ":" ("embed:" ++ show_int (Count o) ++ ":" ++ Theme o)) by done.
  assert (Hk : forall k f, item_key_ok k -> f ∈ ["xml"; "atom"; "json"] -> f <> k).
  { intros k f [_ Hn] Hf ->. apply Hn. rewrite !elem_of_cons in *. tauto. }
  assert (Hk' : forall k t, item_key_ok k -> t ∈ EmbedThemes -> t <> k).
  { intros k t [_ Hn] Ht ->. apply Hn. unfold EmbedThemes in Ht. rewrite !elem_of_cons in *. tauto. }
  destruct x as [|s f|k|s k|s o], y as [|s' f'|k'|s' k'|s' o']; cbn [doc_ok asked cache_key]; intros Hx Hy E.
  - done.
  - by apply Hnc in E.
  - done.
  - done.
  - rewrite Hemb in E. by apply Hnc in E.
  - symmetry in E. by apply Hnc in E.
  - destruct Hx as [[Hs _] Hf]. apply last_colon in E as [-> ->]; [done|by apply format_lacks..].
  - destruct Hx as [[Hs Hn] Hf]. apply (first_colon s f "item" k') in E as [-> _]; done.
  - done.
  - destruct Hx as [[Hs Hn] Hf]. rewrite embed_key_split in E. apply last_colon in E as [_ E]; [|by apply format_lacks|by apply theme_lacks, Hy].
    by apply (not_listed f (Theme o') _ _ Hf (proj2 Hy)) in E.
  - done.
  - apply (last_colon "item" k s' f') in E as [_ E]; [|apply Hx|by apply format_lacks]. exfalso. by apply (Hk k f' Hx Hy).
  - rewrite !str_app_cons, !str_app_nil_l in E. by injection E as ->.
  - done.
  - rewrite embed_key_split in E. apply (last_colon "item" k) in E as [_ E]; [|apply Hx|by apply theme_lacks, Hy]. exfalso. by apply (Hk' k _ Hx (proj2 Hy)).
  - symmetry in E. by apply Hnc in E.
  - rewrite Hof in E. apply (last_colon _ k s' f') in E as [_ E]; [|apply Hx|by apply format_lacks]. exfalso. by apply (Hk k f' (proj2 Hx) Hy).
  - destruct Hx as [[Hs Hn] _]. apply (first_colon s ("item:" ++ k) "item" k') in E as [-> _]; done.
  - done.
  - rewrite Hof, embed_key_split in E. apply last_colon in E as [_ E]; [|apply Hx|by apply theme_lacks, Hy]. exfalso. by apply (Hk' k _ (proj2 Hx) (proj2 Hy)).
  - symmetry in E. rewrite Hemb in E. by apply Hnc in E.
  - destruct Hx as [_ Ho]. rewrite embed_key_split in E. apply last_colon in E as [_ E]; [|by apply theme_lacks, Ho|by apply format_lacks].
    exfalso. by apply (not_listed f' (Theme o) _ _ Hy (proj2 Ho)).
  - destruct Hx as [[Hs Hn] _]. apply (first_colon s _ "item" k') in E as [-> _]; done.
  - done.
  - destruct Hx as [_ Ho]. by apply embed_key_inj in E as [-> ->].
Qed.

(** Every entry of the cache is a render of what the store holds, made at some
    instant since [t0]. *)
Definition filled (t0 : Z) (d : Deps) (c : Cache) : Prop :=
  forall k it, entries c !! k = Some it ->
    exists x t, cache_key x = k /\ doc_ok x /\ t0 <= t <= Now d /\ render_doc (at_time t d) x = Rendered (entry it).

Lemma rendered_ok d x e : names_ok d -> asked x -> render_doc d x = Rendered e -> doc_ok x.
Proof.
  intros [Hs Hk] Ha E. destruct x as [|s f|k|s k|s o]; cbn [doc_ok asked render_doc] in *; try done.
  - split; [|done]. unfold renderFeed in E. destruct (GetFeed d s) as [[feed|]|] eqn:Ef; [by eapply Hs|done..].
  - destruct (GetItem d k) as [[[f i]|]|] eqn:Ei; [by eapply Hk|done..].
  - split; [|done]. unfold renderEmbed in E. destruct (GetFeed d s) as [[feed|]|] eqn:Ef; [by eapply Hs|done..].
Qed.

Lemma at_now d : at_time (Now d) d = d.
Proof. by destruct d. Qed.

Lemma filled_sub t0 d c c' : entries c' ⊆ entries c -> filled t0 d c -> filled t0 d c'.
Proof. intros Hsub Hf k it Hk. apply (Hf k). by eapply lookup_weaken. Qed.

Lemma filled_insert t0 d c c' k it :
  entries c' = <[k := it]> (entries c) -> filled t0 d c ->
  (exists x, cache_key x = k /\ doc_ok x /\ t0 <= Now d /\ render_doc d x = Rendered (entry it)) -> filled t0 d c'.
Proof.
  intros E Hf (x & Hx & Hok & Ht & Hr) k' it'. rewrite E. intros [[<- <-]|[_ Hk]]%lookup_insert_Some; [|by apply Hf].
  exists x, (Now d). rewrite at_now. split_and!; [done|done|lia|lia|done].
Qed.

Lemma filled_put t0 d c x e :
  t0 <= Now d -> doc_ok x -> render_doc d x = Rendered e -> filled t0 d c -> filled t0 d (Put (cache_key x) e c).
Proof.
  intros Ht Hok Hr Hf. unfold Put. eapply filled_sub; [apply evictLocked_sub|].
  eapply filled_insert; [apply putLocked_entries|done|]. exists x. by split_and!.
Qed.

Lemma filled_pair t0 d c k f i e :
  t0 <= Now d -> names_ok d -> GetItem d k = Some (Some (f, i)) -> render_item d f i = Rendered e -> filled t0 d c ->
  filled t0 d (PutPair (fd_Slug f ++ ":item:" ++ k) ("item:" ++ k) e c).
Proof.
  intros Ht Hn Hi Hr Hf. destruct (ok_keys d Hn _ _ _ Hi) as [Hk Hs].
  assert (H1 : exists x, cache_key x = fd_Slug f ++ ":item:" ++ k /\ doc_ok x /\ t0 <= Now d /\ render_doc d x = Rendered e).
  { exists (DItemOf (fd_Slug f) k). split_and!; [done|done|done|]. cbn [render_doc]. by rewrite Hi, String.eqb_refl. }
  assert (H2 : exists x, cache_key x = "item:" ++ k /\ doc_ok x /\ t0 <= Now d /\ render_doc d x = Rendered e).
  { exists (DItem k). split_and!; [done|done|done|]. cbn [render_doc]. by rewrite Hi. }
  unfold PutPair. eapply filled_sub; [apply evictLocked_sub|].
  assert (Hsp : forall a b c, filled t0 d c -> filled t0 d (set_pair a b c)).
  { intros a b c0 Hf0 k0 it0. rewrite set_pair_entries. destruct (entries c0 !! a) as [it1|] eqn:E; [|by apply Hf0].
    intros [[<- <-]|[_ H0]]%lookup_insert_Some; [|by apply Hf0]. apply (Hf0 a it1 E). }
  apply Hsp, Hsp. eapply filled_insert; [apply putLocked_entries| |exact H2]. eapply filled_insert; [apply putLocked_entries|done|exact H1].
Qed.

Lemma filled_get t0 d c k : filled t0 d c -> filled t0 d (Get k c).2.
Proof. intros Hf. eapply filled_sub; [|exact Hf]. by rewrite Get_entries. Qed.

(** A handler that looks a document up and renders it when it is not there. *)
Definition look_up (d : Deps) (r : Request) (h : gmap string string) (x : doc) (put : Entry -> Cache -> Cache) (c : Cache) : Response * Cache :=
  match Get (cache_key x) c with
  | (Some e, c) => (writeEntry h r e (cacheControl d), c)
  | (None, c) => answer d r h (render_doc d x) put c
  end.

(** The answer without a cache. *)
Definition direct (d : Deps) (r : Request) (h : gmap string string) (x : doc) : Response := (answer d r h (render_doc d x) (fun _ c => c) (NewCacheWithLimit 0)).1.

Lemma look_up_transparent t0 d r h x put c :
  names_ok d -> t0 <= Now d -> asked x -> filled t0 d c ->
  (forall e c, render_doc d x = Rendered e -> filled t0 d c -> filled t0 d (put e c)) ->
  (exists t, t0 <= t <= Now d /\ (look_up d r h x put c).1 = direct (at_time t d) r h x) /\ filled t0 d (look_up d r h x put c).2.
Proof.
  intros Hn Ht Ha Hf Hput. unfold look_up. pose proof (Get_answer (cache_key x) c) as Hg. pose proof (filled_get t0 d c (cache_key x) Hf) as Hf'.
  destruct (Get (cache_key x) c) as [[e|] c1]; cbn [fst snd] in *.
  - split; [|done]. symmetry in Hg. apply fmap_Some in Hg as (it & Hk & ->). destruct (Hf _ _ Hk) as (y & t & Hy & Hok & Htt & Hr).
    apply cache_key_inj in Hy as ->; [|done..]. exists t. split; [done|]. unfold direct. rewrite Hr. done.
  - assert (Hd : (answer d r h (render_doc d x) put c1).1 = direct d r h x) by (unfold direct; by destruct (render_doc d x)).
    split; [exists (Now d); rewrite at_now; split; [lia|done]|]. destruct (render_doc d x) eqn:E; cbn [answer snd]; [|done..]. by apply Hput.
Qed.

Lemma feedFormat_known path slug format ct :
  feedFormat path = Some (slug, format, ct) -> format ∈ ["xml"; "atom"; "json"] /\ ct = content_type format.
Proof.
  unfold feedFormat. cbv zeta. destruct (List.find _ _) as [[[ext fm] t]|] eqn:E; [|done]. apply find_some in E as [Hin _].
  destruct (CutSuffix _ ext) as [sl|]; [|done]. destruct (is_empty sl); [done|]. intros [= -> -> ->].
  unfold feed_formats in Hin. cbn in Hin. rewrite !elem_of_cons. destruct Hin as [[= <- <- <-]|[[= <- <- <-]|[[= <- <- <-]|[]]]]; split; tauto || done.
Qed.

Lemma embedOptions_valid r o : embedOptions r = Some o -> valid_options o.
Proof.
  assert (Hin : forall n, ValidEmbedCount n = true -> n ∈ EmbedCounts).
  { intros n [x [Hx ->%Z.eqb_eq]]%existsb_exists. by apply list_elem_of_In. }
  assert (Hit : forall n, ValidEmbedTheme n = true -> n ∈ EmbedThemes).
  { intros n [x [Hx ->%String.eqb_eq]]%existsb_exists. by apply list_elem_of_In. }
  unfold embedOptions. cbv zeta. generalize (query_get (ReqQuery r) "count") (query_get (ReqQuery r) "theme"). intros count theme.
  destruct (if is_empty count then _ else _) as [n|] eqn:Ea; [|done]. cbn. destruct (if is_empty theme then _ else _) as [t|] eqn:Eb; [|done].
  cbn. intros [= <-]. split; cbn.
  - repeat case_match; simplify_eq; by apply Hin.
  - repeat case_match; simplify_eq; by apply Hit.
Qed.

Lemma Put_serves k e c it : entries (Put k e c) !! k = Some it -> entry it = e.
Proof.
  intros H. eapply lookup_weaken in H; [|apply evictLocked_sub]. rewrite putLocked_entries, lookup_insert_eq in H. by injection H as <-.
Qed.

Lemma PutPair_serves a k e c it : entries (PutPair a k e c) !! k = Some it -> entry it = e.
Proof.
  intros H. eapply lookup_weaken in H; [|apply evictLocked_sub]. revert H.
  assert (Hs : forall x y c it, entries (set_pair x y c) !! k = Some it -> exists it', entries c !! k = Some it' /\ entry it' = entry it).
  { intros x y c0 it0. rewrite set_pair_entries. destruct (entries c0 !! x) as [it1|] eqn:E; [|eauto].
    intros [[-> <-]|[_ H0]]%lookup_insert_Some; eauto. }
  intros (it1 & (it2 & H & E2)%Hs & E1)%Hs. rewrite putLocked_entries, lookup_insert_eq in H. injection H as <-. by rewrite <- E1, <- E2.
Qed.

(** A cache without a ceiling keeps what is put into it. *)
Lemma evict_unbounded c : PubCache.max c <= 0 -> evictLocked c = c.
Proof. intros H. unfold evictLocked. by apply Z.leb_le in H as ->. Qed.
Lemma Put_kept k e c : PubCache.max c <= 0 -> is_Some (entries (Put k e c) !! k).
Proof.
  intros H. unfold Put. rewrite evict_unbounded by (by rewrite putLocked_max). rewrite putLocked_entries, lookup_insert_eq. done.
Qed.
Lemma PutPair_kept a k e c : PubCache.max c <= 0 -> is_Some (entries (PutPair a k e c) !! k).
Proof.
  intros H. unfold PutPair. rewrite evict_unbounded by (by rewrite !set_pair_max, !putLocked_max).
  assert (Hs : forall x y c, is_Some (entries c !! k) -> is_Some (entries (set_pair x y c) !! k)).
  { intros x y c0 H0. rewrite set_pair_entries. destruct (entries c0 !! x); [|done]. apply lookup_insert_is_Some'. by right. }
  apply Hs, Hs. rewrite putLocked_entries, lookup_insert_eq. done.
Qed.

(** Two requests that differ in their headers only. *)
Definition same_target (r r' : Request) : Prop := Method r' = Method r /\ ReqPath r' = ReqPath r /\ ReqQuery r' = ReqQuery r.

Lemma same_target_allow r r' : same_target r r' -> allowMethod r' = allowMethod r.
Proof. intros (E & _ & _). unfold allowMethod, is_get, is_head. by rewrite E. Qed.
Lemma same_target_options r r' : same_target r r' -> embedOptions r' = embedOptions r.
Proof. intros (_ & _ & E). unfold embedOptions. by rewrite E. Qed.

Definition page_route (x : route) : bool := match x with RIndex | RFeed | RItem | REmbed => true | _ => false end.

(** What a handler puts in the cache for a document. *)
Record puts (d : Deps) (x : doc) (put : Entry -> Cache -> Cache) : Prop := {
  puts_filled : forall t0 e c, names_ok d -> t0 <= Now d -> render_doc d x = Rendered e -> filled t0 d c -> filled t0 d (put e c);
  puts_serves : forall e c it, render_doc d x = Rendered e -> entries (put e c) !! cache_key x = Some it -> entry it = e;
  puts_max : forall e c, PubCache.max (put e c) = PubCache.max c;
  puts_kept : forall e c, render_doc d x = Rendered e -> PubCache.max c <= 0 -> is_Some (entries (put e c) !! cache_key x) }.

Lemma puts_Put d x : asked x -> puts d x (Put (cache_key x)).
Proof.
  intros Ha. constructor.
  - intros t0 e c Hn Ht Hr Hf. apply filled_put; [done| |done..]. by eapply rendered_ok.
  - intros e c it _ Hk. by eapply Put_serves.
  - intros e c. unfold Put. by rewrite evictLocked_max, putLocked_max.
  - intros e c _ Hm. by apply Put_kept.
Qed.

Lemma puts_PutPair d k f i : GetItem d k = Some (Some (f, i)) -> puts d (DItem k) (PutPair (fd_Slug f ++ ":item:" ++ k) ("item:" ++ k)).
Proof.
  intros Hi. constructor; cbn [render_doc]; rewrite ?Hi.
  - intros t0 e c Hn Ht Hr Hf. by eapply filled_pair.
  - intros e c it _ Hk. by eapply PutPair_serves.
  - intros e c. unfold PutPair. by rewrite evictLocked_max, !set_pair_max, !putLocked_max.
  - intros e c _ Hm. by apply PutPair_kept.
Qed.

Lemma puts_nothing d x : (forall e, render_doc d x <> Rendered e) -> puts d x (fun _ c => c).
Proof. intros H. constructor; intros; try done; exfalso; by eapply H. Qed.

(** A request is answered without the store and the cache, or looks one document up. *)
Definition constant_answer (r : Request) : Prop :=
  exists resp, (forall d c, serve d r c = (resp, c)) /\ (page_route (mux (ReqPath r)) = true -> Status resp ∈ [404; 405]).
Definition document_answer (r : Request) : Prop :=
  exists h x (put : Deps -> Entry -> Cache -> Cache), asked x /\ (forall r' d c, same_target r r' -> serve d r' c = look_up d r' h x (put d) c)
    /\ (forall d, puts d x (put d)) /\ h = (if bool_decide (mux (ReqPath r) = REmbed) then embed_header else ∅).

Lemma constant_405 r (H : allowMethod r <> None) : (forall d c, serve d r c = (default (not_found r) (allowMethod r), c)) -> constant_answer r.
Proof.
  intros Hs. exists (default (not_found r) (allowMethod r)). split; [done|]. intros _. revert H. unfold allowMethod. destruct (_ || _); [done|]. intros _.
  cbn. right. left.
Qed.
Lemma constant_404 r : (forall d c, serve d r c = (not_found r, c)) -> constant_answer r.
Proof. intros Hs. exists (not_found r). split; [done|]. intros _. left. Qed.

Lemma document_of r h x put :
  asked x -> (forall r' d c, same_target r r' -> serve d r' c = look_up d r' h x (put d) c) -> (forall d, puts d x (put d)) ->
  h = (if bool_decide (mux (ReqPath r) = REmbed) then embed_header else ∅) -> document_answer r.
Proof. intros. by exists h, x, put. Qed.

Lemma root_cases r : mux (ReqPath r) = RIndex -> constant_answer r \/ document_answer r.
Proof.
  intros Em. assert (Es : forall r' d c, same_target r r' -> serve d r' c = handleRoot d r' c).
  { intros r' d c (_ & E & _). unfold serve. by rewrite E, Em. }
  assert (Es0 : forall d c, serve d r c = handleRoot d r c) by (intros; by apply Es).
  destruct (negb (String.eqb (ReqPath r) "/")) eqn:Ep.
  { left. apply constant_404. intros d c. rewrite Es0. unfold handleRoot. by rewrite Ep. }
  destruct (allowMethod r) eqn:Ea.
  { left. apply constant_405; [by rewrite Ea|]. intros d c. rewrite Es0. unfold handleRoot. by rewrite Ep, Ea. }
  right. apply (document_of r ∅ DIndex (fun _ => Put "index")); [done| |intros d; by apply (puts_Put d DIndex)|by rewrite Em].
  intros r' d c Hr. rewrite Es by done. unfold handleRoot, look_up. rewrite (same_target_allow r r' Hr), Ea. destruct Hr as (_ & -> & _). rewrite Ep.
  cbn [cache_key render_doc]. destruct (Get "index" c) as [[e|] c1]; [done|]. unfold render_index. by destruct (ListFeeds d).
Qed.

Lemma feed_cases r : mux (ReqPath r) = RFeed -> constant_answer r \/ document_answer r.
Proof.
  intros Em. assert (Es : forall r' d c, same_target r r' -> serve d r' c = handleFeed d r' c).
  { intros r' d c (_ & E & _). unfold serve. by rewrite E, Em. }
  assert (Es0 : forall d c, serve d r c = handleFeed d r c) by (intros; by apply Es).
  destruct (feedFormat (ReqPath r)) as [[[slug fm] ct]|] eqn:E.
  2:{ left. apply constant_404. intros d c. rewrite Es0. unfold handleFeed. by rewrite E. }
  destruct (allowMethod r) eqn:Ea.
  { left. apply constant_405; [by rewrite Ea|]. intros d c. rewrite Es0. unfold handleFeed. by rewrite E, Ea. }
  right. destruct (feedFormat_known _ _ _ _ E) as [Hf Hct].
  apply (document_of r ∅ (DFeed slug fm) (fun _ => Put (slug ++ ":" ++ fm))); [done| |intros d; by apply (puts_Put d (DFeed slug fm))|by rewrite Em].
  intros r' d c Hr. rewrite Es by done. unfold handleFeed, look_up. rewrite (same_target_allow r r' Hr), Ea. destruct Hr as (_ & -> & _). rewrite E.
  cbn [cache_key render_doc]. by rewrite Hct.
Qed.

Lemma item_cases r : mux (ReqPath r) = RItem -> constant_answer r \/ document_answer r.
Proof.
  intros Em. assert (Es : forall r' d c, same_target r r' -> serve d r' c = handleItem d r' c).
  { intros r' d c (_ & E & _). unfold serve. by rewrite E, Em. }
  assert (Es0 : forall d c, serve d r c = handleItem d r c) by (intros; by apply Es).
  set (k := TrimPrefix (ReqPath r) "/items/"). destruct (is_empty k || has_slash k) eqn:Ek.
  { left. apply constant_404. intros d c. rewrite Es0. unfold handleItem. cbv zeta. fold k. by rewrite Ek. }
  destruct (allowMethod r) eqn:Ea.
  { left. apply constant_405; [by rewrite Ea|]. intros d c. rewrite Es0. unfold handleItem. cbv zeta. fold k. by rewrite Ek, Ea. }
  right. apply (document_of r ∅ (DItem k)
    (fun d => match GetItem d k with Some (Some (f, _)) => PutPair (fd_Slug f ++ ":item:" ++ k) ("item:" ++ k) | _ => fun _ c => c end));
    [done| | |by rewrite Em].
  - intros r' d c Hr. rewrite Es by done. unfold handleItem, look_up. cbv zeta. rewrite (same_target_allow r r' Hr), Ea. destruct Hr as (_ & -> & _).
    fold k. rewrite Ek. cbn [cache_key render_doc]. destruct (Get _ c) as [[e|] c1]; [done|]. by destruct (GetItem d k) as [[[f i]|]|].
  - intros d. destruct (GetItem d k) as [[[f i]|]|] eqn:Ei; [by eapply puts_PutPair|apply puts_nothing; cbn [render_doc]; rewrite Ei; done..].
Qed.

Lemma embed_cases r : mux (ReqPath r) = REmbed -> constant_answer r \/ document_answer r.
Proof.
  intros Em. assert (Es : forall r' d c, same_target r r' -> serve d r' c = handleEmbed d r' c).
  { intros r' d c (_ & E & _). unfold serve. by rewrite E, Em. }
  assert (Es0 : forall d c, serve d r c = handleEmbed d r c) by (intros; by apply Es).
  set (slug := TrimPrefix (ReqPath r) "/embed/"). destruct (is_empty slug || has_slash slug) eqn:Ek.
  { left. apply constant_404. intros d c. rewrite Es0. unfold handleEmbed. cbv zeta. fold slug. by rewrite Ek. }
  destruct (allowMethod r) eqn:Ea.
  { left. apply constant_405; [by rewrite Ea|]. intros d c. rewrite Es0. unfold handleEmbed. cbv zeta. fold slug. by rewrite Ek, Ea. }
  destruct (embedOptions r) as [o|] eqn:E.
  2:{ left. apply constant_404. intros d c. rewrite Es0. unfold handleEmbed. cbv zeta. fold slug. by rewrite Ek, Ea, E. }
  right. apply (document_of r embed_header (DEmbed slug o) (fun _ => Put (embed_key slug o)));
    [by apply embedOptions_valid in E| |intros d; apply (puts_Put d (DEmbed slug o)); by apply embedOptions_valid in E|by rewrite Em].
  intros r' d c Hr. rewrite Es by done. unfold handleEmbed, look_up. cbv zeta. rewrite (same_target_allow r r' Hr), (same_target_options r r' Hr), Ea, E.
  destruct Hr as (_ & -> & _). fold slug. by rewrite Ek.
Qed.

Lemma serve_cases r : mux (ReqPath r) <> RHealthz -> constant_answer r \/ document_answer r.
Proof.
  intros Hm. destruct (mux (ReqPath r)) eqn:E; [by apply root_cases|done| | |by apply feed_cases|by apply item_cases|by apply embed_cases]; left.
  - unfold constant_answer, serve. rewrite E. unfold handleRobots. destruct (allowMethod r); eexists; split; done.
  - unfold constant_answer, serve. rewrite E. unfold handleFavicon. destruct (allowMethod r); [eexists; split; done|]. cbv zeta.
    destruct (_ && _); eexists; split; done.
Qed.

(** A request does not change the ceiling. *)
Lemma serve_max d r c : mux (ReqPath r) <> RHealthz -> PubCache.max (serve d r c).2 = PubCache.max c.
Proof.
  intros Hm. destruct (serve_cases r Hm) as [(resp & E & _)|(h & x & put & Ha & E & Hput & _)]; rewrite E by done; [done|].
  unfold look_up. pose proof (Get_max (cache_key x) c) as Hg. destruct (Get _ c) as [[e|] c1]; cbn [snd] in *; [done|].
  destruct (render_doc d x); cbn [answer snd]; [|done..]. by rewrite (puts_max _ _ _ (Hput d)).
Qed.

Lemma look_up_empty d r h x put m : (look_up d r h x put (NewCacheWithLimit m)).1 = direct d r h x.
Proof.
  unfold look_up, direct. pose proof (Get_answer (cache_key x) (NewCacheWithLimit m)) as Hg. cbn [entries NewCacheWithLimit] in Hg.
  rewrite lookup_empty in Hg. destruct (Get _ _) as [[e|] c1]; [done|]. by destruct (render_doc d x).
Qed.

(** One request. *)
Lemma serve_transparent t0 d r c :
  mux (ReqPath r) <> RHealthz -> names_ok d -> t0 <= Now d -> filled t0 d c ->
  (exists t, t0 <= t <= Now d /\ (serve d r c).1 = (serve (at_time t d) r (NewCacheWithLimit 0)).1) /\ filled t0 d (serve d r c).2.
Proof.
  intros Hm Hn Ht Hf. destruct (serve_cases r Hm) as [(resp & E & _)|(h & x & put & Ha & E & Hput & _)].
  - rewrite E. split; [|done]. exists t0. rewrite E. split; [lia|done].
  - rewrite E by done. destruct (look_up_transparent t0 d r h x (put d) c) as [(t & Htt & Hr) Hfl]; [done..|intros; by eapply Hput|].
    split; [|done]. exists t. rewrite E, look_up_empty; done.
Qed.

Lemma filled_later t0 d t c : Now d <= t -> filled t0 d c -> filled t0 (at_time t d) c.
Proof.
  intros Ht Hf k it Hk. destruct (Hf k it Hk) as (x & t' & H1 & H2 & H3 & H4). exists x, t'. cbn [Now at_time]. split_and!; [done|done|lia|lia|].
  exact H4.
Qed.

(** A series of requests, each at its instant. *)
Fixpoint serve_all (d : Deps) (l : list (Z * Request)) (c : Cache) : list Response :=
  match l with
  | [] => []
  | (t, r) :: l => let p := serve (at_time t d) r c in p.1 :: serve_all d l p.2
  end.

Lemma serve_all_transparent t0 d l c :
  names_ok d -> t0 <= Now d -> filled t0 d c -> StronglySorted Z.le (Now d :: List.map fst l) ->
  Forall (fun x => mux (ReqPath x.2) <> RHealthz) l ->
  Forall2 (fun x resp => exists t, t0 <= t <= x.1 /\ resp = (serve (at_time t d) x.2 (NewCacheWithLimit 0)).1) l (serve_all d l c).
Proof.
  intros Hn. revert d c Hn. induction l as [|[t r] l IH]; intros d c Hn Ht Hf Hs Hl; [constructor|]. cbn [serve_all List.map fst] in *.
  apply StronglySorted_inv in Hs as [Hs Hall]. apply Forall_cons_1 in Hall as [Hnow _]. apply Forall_cons_1 in Hl as [Hm Hl]. cbn [snd] in Hm.
  destruct (serve_transparent t0 (at_time t d) r c Hm) as [(t' & Htt & Hr) Hf']; [by destruct Hn|cbn; lia|by apply filled_later|].
  constructor; [exists t'; split; [done|]; rewrite Hr; by destruct d|].
  specialize (IH (at_time t d) (serve (at_time t d) r c).2).
  replace (serve_all d l (serve (at_time t d) r c).2) with (serve_all (at_time t d) l (serve (at_time t d) r c).2).
  { apply IH; [by destruct Hn|cbn; lia|done|done|done]. }
  clear. generalize (serve (at_time t d) r c).2. induction l as [|[t1 r1] l IH]; intros c0; [done|]. cbn [serve_all].
  change (at_time t1 (at_time t d)) with (at_time t1 d). by rewrite IH.
Qed.

(** ** Validators *)

Definition hex_byte (c : ascii) : bool := in_range 48 57 c || in_range 97 102 c.

(** A quoted text is its own token. *)
Lemma TrimSpace_quoted v : TrimSpace (q v) = q v.
Proof.
  unfold TrimSpace. assert (Hl : forall n, trim_left_fuel n (q v) = q v) by (intros [|n]; reflexivity). rewrite Hl.
  assert (Hr : strip_space_right (q v) = None).
  { unfold strip_space_right. cbv zeta. assert (exists w, srev (q v) = String dquote w) as [w ->]; [|reflexivity].
    exists (srev (String dquote v)). unfold q. change (String dquote (v ++ String dquote "")) with (String dquote v ++ String dquote "").
    by rewrite srev_app. }
  destruct (String.length (q v)); [done|]. cbn [trim_right_fuel]. by rewrite Hr.
Qed.

Lemma etagMatch_own h : all_bytes hex_byte h = true -> etagMatch (q h) (q h) = true.
Proof.
  intros Hh. unfold etagMatch. rewrite Split_lacks.
  - cbn [existsb]. cbv zeta. rewrite TrimSpace_quoted. change (strip_prefix "W/" (q h)) with (@None string). cbv iota.
    by rewrite String.eqb_refl, orb_true_r.
  - unfold q. apply lacks_cons. split; [done|]. apply lacks_app. split; [|done]. revert Hh. apply all_bytes_weaken.
    intros [[] [] [] [] [] [] [] []]; by vm_compute.
Qed.

Definition with_etag (tag : string) (r : Request) : Request :=
  MkRequest (Method r) (ReqPath r) (ReqQuery r) (AcceptEncoding r) tag (IfModifiedSince r).
Definition with_date (date : string) (r : Request) : Request :=
  MkRequest (Method r) (ReqPath r) (ReqQuery r) (AcceptEncoding r) "" date.

(** The entry made of a body has the digest of it for a tag. *)
Lemma ETag_entry body ct lm : ETag (NewEntry sha256hex gzip body ct lm) = q (sha256hex body).
Proof. reflexivity. Qed.

Lemma writeEntry_etag h r e cc : Header (writeEntry h r e cc) !! "ETag" = Some (ETag e).
Proof.
  unfold writeEntry. cbv zeta. set (h1 := <["Vary" := _]> _).
  assert (H1 : h1 !! "ETag" = Some (ETag e)).
  { unfold h1. rewrite 3!lookup_insert_ne by done. apply lookup_insert_eq. }
  destruct (notModified r e); [done|]. cbn [Header]. destruct (_ && _); [rewrite lookup_insert_ne by done|]; done.
Qed.

Lemma writeEntry_matching h r e cc hex :
  ETag e = q hex -> all_bytes hex_byte hex = true ->
  Status (writeEntry h (with_etag (ETag e) r) e cc) = 304 /\ RespBody (writeEntry h (with_etag (ETag e) r) e cc) = "".
Proof.
  intros He Hh. unfold writeEntry. cbv zeta. assert (E : notModified (with_etag (ETag e) r) e = true); [|by rewrite E].
  unfold notModified. cbn [IfNoneMatch with_etag]. rewrite He. change (negb (is_empty (q hex))) with true. cbv iota. by apply etagMatch_own.
Qed.

Lemma doc_etag d x e : render_doc d x = Rendered e -> exists body, ETag e = q (sha256hex body).
Proof.
  destruct x as [|s f|k|s k|s o]; cbn [render_doc].
  - unfold render_index. destruct (ListFeeds d); [|done]. intros [= <-]. eexists. apply ETag_entry.
  - unfold renderFeed. repeat case_match; try done; intros [= <-]; eexists; apply ETag_entry.
  - unfold render_item. repeat case_match; try done; intros [= <-]; eexists; apply ETag_entry.
  - unfold render_item. repeat case_match; try done; intros [= <-]; eexists; apply ETag_entry.
  - unfold renderEmbed. repeat case_match; try done; intros [= <-]; eexists; apply ETag_entry.
Qed.

(** What a document request answers: the entry it serves, and serves again. *)
Lemma look_up_serves t0 d r h x put c :
  filled t0 d c -> puts d x put ->
  let p := look_up d r h x put c in
  (exists e, p.1 = writeEntry h r e (cacheControl d) /\ (exists body, ETag e = q (sha256hex body))
     /\ forall d' r' put', d' = d \/ PubCache.max c <= 0 -> (look_up d' r' h x put' p.2).1 = writeEntry h r' e (cacheControl d'))
  \/ Status p.1 ∈ [404; 410; 500].
Proof.
  intros Hf Hput. cbv zeta. unfold look_up at 1 3 4. pose proof (Get_answer (cache_key x) c) as Hg. pose proof (Get_entries (cache_key x) c) as He.
  pose proof (Get_max (cache_key x) c) as Hmax.
  destruct (Get (cache_key x) c) as [[e|] c1]; cbn [fst snd] in *.
  - left. exists e. split_and!; [done| |].
    + symmetry in Hg. apply fmap_Some in Hg as (it & Hk & ->). destruct (Hf _ _ Hk) as (y & t & _ & _ & _ & Hr). by eapply doc_etag.
    + intros d' r' put' _. unfold look_up. pose proof (Get_answer (cache_key x) c1) as Hg'. rewrite He, <- Hg in Hg'.
      destruct (Get (cache_key x) c1) as [[e'|] c2]; cbn in Hg'; [|done]. by injection Hg' as ->.
  - destruct (render_doc d x) as [e| | |] eqn:E; cbn [answer fst snd];
      [left|right; unfold not_found, internal_error, writeStatus; cbv zeta; cbn [Status]; rewrite !elem_of_cons; first [by left | by right; left | by right; right; left]..].
    exists e. split_and!; [done|by eapply doc_etag|]. intros d' r' put' Hd. unfold look_up.
    pose proof (Get_answer (cache_key x) (put e c1)) as Hg'. destruct (Get (cache_key x) (put e c1)) as [[e'|] c2]; cbn in Hg'.
    + symmetry in Hg'. apply fmap_Some in Hg' as (it & Hk & ->). by rewrite (puts_serves _ _ _ Hput e c1 it E Hk).
    + destruct Hd as [-> |Hm]; [by rewrite E|]. exfalso. rewrite <- Hmax in Hm. destruct (puts_kept _ _ _ Hput e c1 E Hm) as [it Hit].
      rewrite Hit in Hg'. done.
Qed.

(** ** The contract of a response *)

Definition csp (resp : Response) : option string := Header resp !! "Content-Security-Policy".
Definition reads (r : Request) : bool := is_get r || is_head r.

Record response_ok (r : Request) (c : Cache) (p : Response * Cache) : Prop := {
  ok_status : Status p.1 ∈ [200; 304; 404; 405; 410; 500];
  ok_method : reads r = false -> Status p.1 ∈ [404; 405] /\ p.2 = c;
  ok_304 : Status p.1 = 304 -> RespBody p.1 = "";
  ok_frame : csp p.1 = Some embedCSP -> mux (ReqPath r) = REmbed /\ Status p.1 ∈ [200; 304];
  ok_csp : page_route (mux (ReqPath r)) = true -> reads r = true -> csp p.1 = Some defaultCSP \/ csp p.1 = Some embedCSP;
  ok_error : Status p.1 ∈ [404; 405; 410; 500] -> entries p.2 = entries c }.

Ltac listed := rewrite ?elem_of_cons; tauto || (repeat first [by left | right]).

Lemma allowMethod_reads r : allowMethod r = if reads r then None else Some (MkResponse 405 {[ "Allow" := "GET, HEAD" ]} "").
Proof. done. Qed.

Lemma refused_ok r c : reads r = false -> response_ok r c (MkResponse 405 {[ "Allow" := "GET, HEAD" ]} "", c).
Proof.
  intros Hr. constructor; cbn [fst snd Status]; try done; [listed|intros _; split; [listed|done]|by rewrite Hr].
Qed.

Lemma writeStatus_csp r msg code : csp (writeStatus ∅ r msg code) = Some defaultCSP.
Proof. reflexivity. Qed.

Lemma writeStatus_ok r c c' msg code :
  code ∈ [404; 410; 500] -> (reads r = false -> code = 404 /\ c' = c) -> entries c' = entries c -> response_ok r c (writeStatus ∅ r msg code, c').
Proof.
  intros Hc Hm He. pose proof (writeStatus_csp r msg code) as Hcsp. constructor; cbn [fst snd].
  - change (Status (writeStatus ∅ r msg code)) with code. rewrite !elem_of_cons in *. tauto.
  - change (Status (writeStatus ∅ r msg code)) with code. intros Hr. destruct (Hm Hr) as [-> ->]. split; [listed|done].
  - change (Status (writeStatus ∅ r msg code)) with code. intros ->. rewrite !elem_of_cons, elem_of_nil in Hc. lia.
  - by rewrite Hcsp.
  - intros _ _. by left.
  - done.
Qed.

Lemma writeEntry_csp h r e cc :
  h = ∅ \/ h = embed_header -> csp (writeEntry h r e cc) = Some (if bool_decide (h = embed_header) then embedCSP else defaultCSP).
Proof.
  assert (Hcsp : forall h0 : gmap string string, csp (MkResponse 0 (<["Vary" := "Accept-Encoding"]> (<["Cache-Control" := if is_empty cc then defaultCacheControl else cc]>
      (<["Last-Modified" := LastModified e]> (<["ETag" := ETag e]> (<["Content-Type" := ContentType e]> h0))))) "") = h0 !! "Content-Security-Policy").
  { intros h0. unfold csp. cbn [Header]. by rewrite !lookup_insert_ne by done. }
  intros Hh. unfold writeEntry. cbv zeta. unfold csp in *. cbn [Header] in Hcsp.
  destruct (notModified r e); cbn [Header]; [|destruct (wantsGzip r && _); cbn [Header]; [rewrite lookup_insert_ne by done|]];
    rewrite Hcsp; by destruct Hh as [-> | ->].
Qed.

Lemma writeEntry_ok h r e cc c c' :
  reads r = true -> h = (if bool_decide (mux (ReqPath r) = REmbed) then embed_header else ∅) -> response_ok r c (writeEntry h r e cc, c').
Proof.
  intros Hr Hh. assert (Hs : Status (writeEntry h r e cc) = 304 /\ RespBody (writeEntry h r e cc) = "" \/ Status (writeEntry h r e cc) = 200).
  { unfold writeEntry. cbv zeta. destruct (notModified r e); [by left|by right]. }
  assert (Hc : csp (writeEntry h r e cc) = Some (if bool_decide (mux (ReqPath r) = REmbed) then embedCSP else defaultCSP)).
  { rewrite writeEntry_csp by (rewrite Hh; case_bool_decide; auto). rewrite Hh. by case_bool_decide. }
  constructor; cbn [fst snd].
  - destruct Hs as [[-> _]| ->]; listed.
  - by rewrite Hr.
  - destruct Hs as [[_ ->]| ->]; done.
  - rewrite Hc. case_bool_decide as Hm; [|done]. intros _. split; [done|]. destruct Hs as [[-> _]| ->]; listed.
  - intros _ _. rewrite Hc. case_bool_decide; auto.
  - destruct Hs as [[-> _]| ->]; rewrite !elem_of_cons, elem_of_nil; lia.
Qed.

Lemma answer_ok d r h x put c c1 :
  reads r = true -> h = (if bool_decide (mux (ReqPath r) = REmbed) then embed_header else ∅) -> entries c1 = entries c ->
  response_ok r c (answer d r h x put c1).
Proof.
  intros Hr Hh He. destruct x; cbn [answer]; [by apply writeEntry_ok|apply writeStatus_ok; [listed|by rewrite Hr|done]..].
Qed.

Lemma serve_ok d r c : response_ok r c (serve d r c).
Proof.
  assert (Hplain : forall hd body, page_route (mux (ReqPath r)) = false -> reads r = true -> hd !! "Content-Security-Policy" = None ->
     response_ok r c (MkResponse 200 hd body, c)).
  { intros hd body Hp Hr Hn. constructor; unfold csp; cbn [fst snd Status Header]; try done;
      [listed|by rewrite Hr|by rewrite Hn|by rewrite Hp]. }
  unfold serve. destruct (mux (ReqPath r)) eqn:Em; unfold handleRoot, handleHealthz, handleRobots, handleFavicon, handleFeed, handleItem, handleEmbed; cbv zeta;
    rewrite ?allowMethod_reads.
  - destruct (negb _); [by apply writeStatus_ok; [listed|..]|]. destruct (reads r) eqn:Hr; [|by apply refused_ok].
    pose proof (Get_entries "index" c) as He. destruct (Get "index" c) as [[e|] c1]; [by apply writeEntry_ok; rewrite ?Em|].
    destruct (render_index d); [by apply writeEntry_ok; rewrite ?Em|apply writeStatus_ok; [listed|by rewrite Hr|done]..].
  - destruct (reads r) eqn:Hr; [|by apply refused_ok]. destruct (Healthz d _); [by apply Hplain|].
    apply writeStatus_ok; [listed|by rewrite Hr|done].
  - destruct (reads r) eqn:Hr; [|by apply refused_ok]. by apply Hplain.
  - destruct (reads r) eqn:Hr; [|by apply refused_ok]. destruct (_ && _); [|by apply Hplain].
    constructor; unfold csp; cbn [fst snd Status Header]; try done; [listed|by rewrite Hr|by rewrite Em].
  - destruct (feedFormat _) as [[[slug fm] ct]|]; [|by apply writeStatus_ok; [listed|..]]. destruct (reads r) eqn:Hr; [|by apply refused_ok].
    pose proof (Get_entries (slug ++ ":" ++ fm) c) as He. destruct (Get _ c) as [[e|] c1]; [by apply writeEntry_ok; rewrite ?Em|].
    by apply answer_ok; rewrite ?Em.
  - destruct (_ || _); [by apply writeStatus_ok; [listed|..]|]. destruct (reads r) eqn:Hr; [|by apply refused_ok].
    set (k := "item:" ++ _). pose proof (Get_entries k c) as He. destruct (Get k c) as [[e|] c1]; [by apply writeEntry_ok; rewrite ?Em|].
    destruct (GetItem d _) as [[[f i]|]|]; [by apply answer_ok; rewrite ?Em|apply writeStatus_ok; [listed|by rewrite Hr|done]..].
  - destruct (_ || _); [by apply writeStatus_ok; [listed|..]|]. destruct (reads r) eqn:Hr; [|by apply refused_ok].
    destruct (embedOptions r) as [o|]; [|apply writeStatus_ok; [listed|by rewrite Hr|done]].
    set (k := embed_key _ _). pose proof (Get_entries k c) as He. destruct (Get k c) as [[e|] c1]; [by apply writeEntry_ok; rewrite ?Em|].
    by apply answer_ok; rewrite ?Em.
Qed.

(** ** Asking again *)

Lemma httpTime_nonempty t : is_empty (httpTime t) = false.
Proof. apply bool_decide_eq_false. unfold httpTime. by destruct (short_weekday (Weekday UTC t)). Qed.

Lemma writeEntry_last_modified h r e cc : Header (writeEntry h r e cc) !! "Last-Modified" = Some (LastModified e).
Proof.
  unfold writeEntry. cbv zeta. set (h1 := <["Vary" := _]> _).
  assert (H1 : h1 !! "Last-Modified" = Some (LastModified e)).
  { unfold h1. rewrite 2!lookup_insert_ne by done. apply lookup_insert_eq. }
  destruct (notModified r e); [done|]. cbn [Header]. destruct (_ && _); [rewrite lookup_insert_ne by done|]; done.
Qed.

Lemma writeEntry_dated h r e cc t :
  LastModified e = httpTime t -> four_digit t ->
  Status (writeEntry h (with_date (LastModified e) r) e cc) = 304 /\ RespBody (writeEntry h (with_date (LastModified e) r) e cc) = "".
Proof.
  intros He Ht. unfold writeEntry. cbv zeta. assert (E : notModified (with_date (LastModified e) r) e = true); [|by rewrite E].
  unfold notModified. cbn [IfNoneMatch IfModifiedSince with_date]. rewrite He, httpTime_nonempty. cbn [is_empty negb].
  unfold ParseTime. rewrite read_own_time by done. change (negb (is_empty "")) with false. cbv iota beta. cbn [negb].
  apply negb_true_iff, Z.ltb_ge. unfold truncate.
  match goal with |- context [?a mod second] => pose proof (Z.mod_pos_bound a second eq_refl) end. lia.
Qed.

(** A page that has been answered is answered as unchanged when its validators are
    sent back. *)
Lemma serve_revalidates t0 d d' r c :
  (forall body, all_bytes hex_byte (sha256hex body) = true) -> page_route (mux (ReqPath r)) = true -> filled t0 d c ->
  d' = d \/ PubCache.max c <= 0 -> Status (serve d r c).1 ∈ [200; 304] ->
  exists tag date, Header (serve d r c).1 !! "ETag" = Some tag /\ Header (serve d r c).1 !! "Last-Modified" = Some date
    /\ (let again := (serve d' (with_etag tag r) (serve d r c).2).1 in Status again = 304 /\ RespBody again = "")
    /\ (forall t, date = httpTime t -> four_digit t ->
         let again := (serve d' (with_date date r) (serve d r c).2).1 in Status again = 304 /\ RespBody again = "").
Proof.
  intros Hh Hp Hf Hd Hst. destruct (serve_cases r) as [(resp & E & Hs)|(h & x & put & Ha & E & Hput & _)].
  - by destruct (mux (ReqPath r)).
  - rewrite E in Hst. cbn [fst] in Hst. specialize (Hs Hp). rewrite !elem_of_cons, elem_of_nil in *. lia.
  - rewrite E in Hst |- * by done. destruct (look_up_serves t0 d r h x (put d) c Hf (Hput d)) as [(e & E1 & (body & Eb) & Hagain)|Hbad].
    2:{ rewrite !elem_of_cons, elem_of_nil in *. lia. }
    cbv zeta in *. rewrite E1. exists (ETag e), (LastModified e). rewrite writeEntry_etag, writeEntry_last_modified. split; [done|]. split; [done|]. split.
    + rewrite E, Hagain by done. eapply writeEntry_matching; [exact Eb|]. apply Hh.
    + intros t Et Ht. rewrite E, Hagain by done. by eapply writeEntry_dated.
Qed.

End server.
