(* ===== verification/PublicSite.v ===== *)
(** * The public site: cmd/animefeedflux/server.go and buildPublishHandlerWithInvalidator

    The read-only queries the public server is wired to, over the content tables,
    and what the server then promises of the site: the feed documents, the life of
    a permalink, and its answers to caches.

    A column of times holds an instant (Schema.v), so reading one cannot fail; a
    query that the database refuses is outside the model. *)

From S2P Require Import Prelude GoTime GoStrings Utf8 Xml Timestamps Tables Schema StoreItems StoreRuns StoreSamples StoreHistory Render PubCache Publish.
From Stdlib Require Import String Ascii.
Local Open Scope string_scope.
Local Open Scope Z_scope.
Local Abbreviation length := List.length.

(** ** Queries *)

Definition defaultFeedWindow : Z := 50.
Definition docsURL : string := "https://www.rssboard.org/rss-specification".
Definition preFirstFeedTagYear : Z := 2026.

(** [created_at] is not among [feedSelectColumns]. *)
Definition scanFeedRow (r : FeedRow) : Feed :=
  MkFeed (f_id r) (f_slug r) (f_title r) (f_description r) (f_language r) (f_kind r) (of_null (f_author r))
    (of_null (f_copyright r)) (of_null (f_og_image r)) (f_ttl_minutes r) (f_enabled r) (f_timezone r)
    (of_null_time (f_last_built_at r)) zero_time (f_version r).

(** Neither [formats_json] nor the tags are among [itemSelectColumns]. *)
Definition scanItemRow (r : ItemRow) : Item :=
  MkItem (i_id r) (i_feed_id r) (i_item_key r) (i_content_hash r) (i_title r) (i_summary_text r)
    (i_body_html r) (of_null (i_answer_html r)) no_formats (of_null (i_link r)) (of_null (i_source_name r))
    (i_published_at r) [] (i_origin r) (i_created_at r) (i_updated_at r)
    (of_null_time (i_edited_at r)) (of_null_time (i_deleted_at r)) (i_version r).

Definition getFeedBySlug (slug : string) (d : Content) : option Feed :=
  scanFeedRow <$> List.find (fun r => bool_decide (f_slug r = slug)) (feeds d).

Definition listFeeds (d : Content) : list Feed := order_asc fd_Slug (scanFeedRow <$> order_asc f_slug (feeds d)).

Definition live_of (feed : Z) (r : ItemRow) : bool := (i_feed_id r =? feed) && bool_decide (i_deleted_at r = None).

Definition listItems (feed : Z) (d : Content) : list Item :=
  scanItemRow <$> limit defaultFeedWindow
    (order_desc (fun r => formatTime (i_published_at r)) (filter (fun r => live_of feed r = true) (items d))).

(** The join finds the feed of the row. *)
Definition getItem (key : string) (d : Content) : option (Feed * Item) :=
  match List.find (has_key key) (items d) with
  | None => None
  | Some r => match find_id (i_feed_id r) (feeds d) with Some f => Some (scanFeedRow f, scanItemRow r) | None => None end
  end.

(** [MIN(created_at)], over the texts of the column. *)
Definition earliest_created (d : Content) : option Z :=
  foldr (fun r m => match m with None => Some (f_created_at r)
                    | Some t => if text_le (f_created_at r) t then Some (f_created_at r) else m end) None (feeds d).

Definition bootTagYear (d : Content) : Z :=
  match earliest_created d with None => preFirstFeedTagYear | Some t => Year UTC t end.

(** ** The handler's dependencies *)

(** What boot and the settings give: the configured origin, the current values of
    the two settings, the version, and the text of the health report. *)
Record Site := MkSite {
  PublicBaseURL : string; LiveBaseURL : option string; LiveCacheControl : option string; BinaryVersion : string;
  HealthReport : Stats -> option string }.

(** [boot] is the store when the process started, [d] the store at the request. *)
Definition buildPublishHandlerWithInvalidator (s : Site) (boot d : Content) (now : Z) : Deps :=
  MkDeps (fun slug => Some (getFeedBySlug slug d)) (fun feed => Some (listItems feed d)) (Some (listFeeds d))
    (fun key => Some (getItem key d)) (PublicBaseURL s) (LiveBaseURL s) (LiveCacheControl s)
    ("AnimeFeedFlux " ++ BinaryVersion s) docsURL (bootTagYear boot) now (HealthReport s).

(** ** The window *)

Lemma take_sorted_split {A} (R : A -> A -> Prop) n (l : list A) x y :
  StronglySorted R l -> x ∈ take n l -> y ∈ drop n l -> R x y.
Proof.
  revert n. induction l as [|a l IH]; intros [|n] Hs Hx Hy; cbn in *; try (by apply elem_of_nil in Hx).
  apply StronglySorted_inv in Hs as [Hs Hall]. apply elem_of_cons in Hx as [->|Hx].
  - rewrite Forall_forall in Hall. apply Hall. rewrite <- (take_drop n l). apply elem_of_app. by right.
  - by apply (IH n).
Qed.

Lemma StronglySorted_take {A} (R : A -> A -> Prop) n (l : list A) : StronglySorted R l -> StronglySorted R (take n l).
Proof.
  revert n. induction l as [|a l IH]; intros [|n] Hs; cbn; try constructor.
  - apply StronglySorted_inv in Hs as [Hs _]. by apply IH.
  - apply StronglySorted_inv in Hs as [_ Hall]. by apply Forall_take.
Qed.

Lemma StronglySorted_impl_in {A} (R S : A -> A -> Prop) (l : list A) :
  (forall x y, x ∈ l -> y ∈ l -> R x y -> S x y) -> StronglySorted R l -> StronglySorted S l.
Proof.
  intros H Hs. induction Hs as [|a l Hs IH Hall]; constructor.
  - apply IH. intros x y Hx Hy. apply H; by right.
  - rewrite Forall_forall in Hall |- *. intros x Hx. apply H; [by left|by right|by apply Hall].
Qed.

Lemma order_desc_strong {R} (key : R -> string) t : StronglySorted (fun a b => str_leb (key b) (key a) = true) (order_desc key t).
Proof. apply Sorted_StronglySorted; [intros a b c Hab Hbc; by eapply str_leb_trans|apply order_desc_sorted]. Qed.

(** The rows a window is chosen from. *)
Definition live_rows (feed : Z) (d : Content) : list ItemRow := filter (fun r => i_feed_id r = feed /\ i_deleted_at r = None) (items d).
Lemma live_row feed d r : r ∈ live_rows feed d <-> r ∈ items d /\ i_feed_id r = feed /\ i_deleted_at r = None.
Proof.
  unfold live_rows. rewrite list_elem_of_filter. tauto.
Qed.

Lemma live_rows_select feed d : filter (fun r => live_of feed r = true) (items d) = live_rows feed d.
Proof. apply list_filter_iff. intros r. unfold live_of. by rewrite andb_true_iff, Z.eqb_eq, bool_decide_eq_true. Qed.

(** Newest first, no more than the window, and nothing newer left out. *)
Record newest_window (feed : Z) (d : Content) (w : list Item) : Prop := {
  win_length : length w = Nat.min 50 (length (live_rows feed d));
  win_rows : forall it, it ∈ w -> exists r, r ∈ live_rows feed d /\ it = scanItemRow r;
  win_order : StronglySorted (fun a b => PublishedAt b <= PublishedAt a) w;
  win_newest : forall r it, r ∈ live_rows feed d -> scanItemRow r ∉ w -> it ∈ w -> i_published_at r < PublishedAt it }.

Lemma listItems_newest feed d : content_ok d -> whole_seconds feed d -> newest_window feed d (listItems feed d).
Proof.
  intros Hd Hw. set (key := fun r => formatTime (i_published_at r)). set (l := live_rows feed d). set (o := order_desc key l).
  assert (El : listItems feed d = scanItemRow <$> take 50 o) by (unfold listItems; by rewrite live_rows_select).
  assert (Ho : forall r, r ∈ o <-> r ∈ l) by (intros r; unfold o; by rewrite order_desc_perm).
  assert (Hall : forall r, r ∈ o -> nsec (i_published_at r) = 0 /\ four_digit (i_published_at r)).
  { intros r Hr. apply Ho, live_row in Hr as (Hi & Hf & _). by apply Hw. }
  assert (Hs : StronglySorted (fun a b => i_published_at b <= i_published_at a) o).
  { eapply StronglySorted_impl_in; [|apply (order_desc_strong key)]. intros x y Hx Hy H. cbv beta in H. unfold key in H.
    change (text_le (i_published_at y) (i_published_at x) = true) in H. rewrite text_le_whole in H by (by apply Hall). by apply Z.leb_le. }
  assert (Hin : forall r, r ∈ take 50 o -> r ∈ o) by (intros r (i & Hi & _)%elem_of_take; by apply list_elem_of_lookup_2 with i).
  rewrite El. constructor.
  - rewrite length_fmap, length_take. unfold o. by rewrite order_desc_perm.
  - intros it (r & -> & Hr)%list_elem_of_fmap. exists r. split; [|done]. by apply Ho, Hin.
  - apply (StronglySorted_take _ 50) in Hs. revert Hs. generalize (take 50 o). clear. intros o Hs.
    induction Hs as [|a l Hs IH Hall]; cbn; constructor; [done|]. by apply Forall_fmap.
  - intros r it Hr Hn (r2 & -> & Hr2)%list_elem_of_fmap. cbn [PublishedAt scanItemRow].
    assert (Hd1 : r ∈ drop 50 o).
    { assert (H : r ∈ (take 50 o ++ drop 50 o)%list) by (rewrite take_drop; by apply Ho). apply elem_of_app in H as [H|H]; [|done].
      destruct Hn. by apply list_elem_of_fmap_2. }
    pose proof (take_sorted_split _ 50 o r2 r Hs Hr2 Hd1) as Hle. cbv beta in Hle.
    apply Z.le_neq. split; [done|]. intros E. destruct Hn. apply live_row in Hr as (Hri & Hrf & _).
    pose proof (Hin _ Hr2) as Hr2o. apply Ho, live_row in Hr2o as (Hi2 & Hf2 & _).
    assert (r = r2) as ->; [|by apply list_elem_of_fmap_2]. apply (distinct_inj key_published (items d)); [by apply ok_published|done..|].
    unfold key_published. by rewrite E, Hrf, Hf2.
Qed.

(** ** The queries *)

Lemma getFeedBySlug_row slug d r : content_ok d -> r ∈ feeds d -> f_slug r = slug -> getFeedBySlug slug d = Some (scanFeedRow r).
Proof.
  intros Hd Hr Hs. unfold getFeedBySlug. destruct (List.find _ _) as [r'|] eqn:E.
  - apply find_some in E as [Hin Hk]. bools. cbn. do 2 f_equal. apply (distinct_inj f_slug (feeds d)); [by apply ok_slug|by apply list_elem_of_In|done|congruence].
  - exfalso. eapply find_none in E; [|by apply list_elem_of_In]. cbv beta in E. bools. done.
Qed.

(** A permalink is found exactly when a row has its key, deleted or not. *)
Lemma getItem_row key d r : content_ok d -> r ∈ items d -> i_item_key r = key -> exists f, f ∈ feeds d /\ f_id f = i_feed_id r /\ getItem key d = Some (scanFeedRow f, scanItemRow r).
Proof.
  intros Hd Hr Hk. unfold getItem. destruct (List.find _ _) as [r'|] eqn:E.
  - apply find_some in E as [Hin Hk']. unfold has_key in Hk'. bools.
    assert (r' = r) as -> by (apply (distinct_inj i_item_key (items d)); [by apply ok_item_key|by apply list_elem_of_In|done|congruence]).
    destruct (find_id (i_feed_id r) (feeds d)) as [f|] eqn:Ef; [apply find_id_elem in Ef as [Hf Hi]; by exists f|].
    exfalso. apply find_id_None in Ef. apply Ef. pose proof (ok_item_feed d Hd) as Hall. unfold refers in Hall. rewrite Forall_forall in Hall. by apply (Hall r Hr).
  - exfalso. eapply find_none in E; [|by apply list_elem_of_In]. unfold has_key in E. bools. done.
Qed.

Lemma getItem_none key d : key ∉ i_item_key <$> items d -> getItem key d = None.
Proof.
  intros Hn. unfold getItem. destruct (List.find _ _) as [r'|] eqn:E; [|done]. apply find_some in E as [Hin Hk]. unfold has_key in Hk. bools.
  destruct Hn. rewrite <- Hk. apply list_elem_of_fmap_2. by apply list_elem_of_In.
Qed.

(** ** Paths *)

Lemma CutSuffix_app a b : CutSuffix (a ++ b) b = Some a.
Proof. unfold CutSuffix. rewrite srev_app, strip_prefix_app. by rewrite srev_involutive. Qed.

Lemma CutSuffix_other a b b' : strip_prefix (srev b') (srev b) = None -> (String.length b' <= String.length b)%nat -> CutSuffix (a ++ b) b' = None.
Proof.
  intros H Hl. unfold CutSuffix. rewrite srev_app. destruct (strip_prefix (srev b') (srev b ++ srev a)) as [t|] eqn:E; [|done].
  exfalso. apply strip_prefix_Some in E. apply app_eq_split in E as [(m & E & _)|(m & Hm & E & _)]; [|by rewrite E, strip_prefix_app in H].
  pose proof (srev_length b') as H2. rewrite E, str_app_length, srev_length in H2. destruct m as [|x m]; [|cbn in H2; lia].
  rewrite str_app_nil_r in E. rewrite E in H. pose proof (strip_prefix_app (srev b) "") as Hc. rewrite str_app_nil_r in Hc. congruence.
Qed.

(** A slug's path in a format is read as that slug and format. *)
Lemma feedFormat_path slug ext fm ct : slug <> "" -> (ext, fm, ct) ∈ feed_formats -> feedFormat ("/feeds/" ++ slug ++ ext) = Some (slug, fm, ct).
Proof.
  intros Hs Hin. unfold feedFormat. cbv zeta. unfold TrimPrefix. rewrite strip_prefix_app.
  assert (Hne : is_empty slug = false) by (by apply bool_decide_eq_false).
  unfold feed_formats in Hin. rewrite !elem_of_cons, elem_of_nil in Hin. destruct Hin as [[= -> -> ->]|[[= -> -> ->]|[[= -> -> ->]|[]]]];
    unfold feed_formats; cbn [List.find fst snd].
  - by rewrite CutSuffix_app, CutSuffix_app, Hne.
  - rewrite (CutSuffix_other slug ".atom" ".xml") by (vm_compute; done || lia). by rewrite CutSuffix_app, CutSuffix_app, Hne.
  - rewrite (CutSuffix_other slug ".json" ".xml") by (vm_compute; done || lia).
    rewrite (CutSuffix_other slug ".json" ".atom") by (vm_compute; done || lia). by rewrite CutSuffix_app, CutSuffix_app, Hne.
Qed.

Section site.
Context (sha256hex gzip : string -> string) (ip : string -> option string) (st : string -> bool) (lenient_time : string -> option Z) (FaviconICO : string).
Context (s : Site).

(** One request, with the store as it was at boot and as it is now. *)
Definition site_serve (boot d : Content) (now : Z) : Request -> Cache -> Response * Cache :=
  serve sha256hex gzip ip st lenient_time FaviconICO (buildPublishHandlerWithInvalidator s boot d now).

Definition document_text (format : string) (ch : Channel) : string :=
  if String.eqb format "xml" then RSS ch else if String.eqb format "atom" then Atom ch else JSONFeed ch.

(** A reader's first request. *)
Definition plain_get (path : string) : Request := MkRequest "GET" path "" "" "" "".

Lemma mux_feeds p : mux ("/feeds/" ++ p) = RFeed.
Proof. reflexivity. Qed.
Lemma mux_items p : mux ("/items/" ++ p) = RItem.
Proof. reflexivity. Qed.

Lemma writeEntry_plain path e cc : let r := writeEntry lenient_time ∅ (plain_get path) e cc in Status r = 200 /\ RespBody r = Body e.
Proof. done. Qed.

Lemma feed_served boot d now m row ext fm ct :
  content_ok d -> row ∈ feeds d -> f_slug row <> "" -> (ext, fm, ct) ∈ feed_formats ->
  let deps := buildPublishHandlerWithInvalidator s boot d now in
  let ch := feed_channel deps (scanFeedRow row) (listItems (f_id row) d) (f_slug row) fm in
  let resp := (site_serve boot d now (plain_get ("/feeds/" ++ f_slug row ++ ext)) (NewCacheWithLimit m)).1 in
  Status resp = 200 /\ RespBody resp = document_text fm ch /\ Header resp !! "Content-Type" = Some ct
  /\ Header resp !! "Last-Modified" = Some (httpTime (Channel_NewestPublished ch)).
Proof.
  intros Hd Hr Hs Hin. cbv zeta. unfold site_serve, serve. cbn [ReqPath plain_get]. rewrite mux_feeds. unfold handleFeed. cbn [ReqPath plain_get].
  rewrite (feedFormat_path _ _ _ _ Hs Hin). change (allowMethod (plain_get _)) with (@None Response). cbv iota zeta.
  pose proof (Get_answer (f_slug row ++ ":" ++ fm) (NewCacheWithLimit m)) as Hg. cbn [entries NewCacheWithLimit] in Hg.
  rewrite lookup_empty in Hg. destruct (Get _ _) as [[e|] c1]; [done|]. unfold renderFeed. cbn [GetFeed buildPublishHandlerWithInvalidator].
  rewrite (getFeedBySlug_row _ d row) by done. cbn [ListItems buildPublishHandlerWithInvalidator]. cbv zeta.
  unfold feed_formats in Hin. rewrite !elem_of_cons, elem_of_nil in Hin.
  destruct Hin as [[= -> -> ->]|[[= -> -> ->]|[[= -> -> ->]|[]]]]; cbn [String.eqb Ascii.eqb Bool.eqb answer fst]; split_and!; reflexivity.
Qed.

(** *** Permalinks *)

Definition permalink (r : Request) (key : string) : Prop :=
  reads r = true /\ ReqPath r = "/items/" ++ key /\ key <> "" /\ has_slash key = false.

(** No deletion is stamped with the zero time, the one that stands for "not deleted". *)
Definition stamped_deletions (d : Content) : Prop := Forall (fun r => i_deleted_at r <> Some zero_time) (items d).

Lemma permalink_served boot d now m r key :
  permalink r key ->
  (site_serve boot d now r (NewCacheWithLimit m)).1 =
  match getItem key d with
  | None => not_found r
  | Some (f, i) => direct sha256hex gzip ip st lenient_time (buildPublishHandlerWithInvalidator s boot d now) r ∅ (DItem key)
  end.
Proof.
  intros (Hr & Hp & Hne & Hsl). unfold site_serve, serve. rewrite Hp, mux_items. unfold handleItem. rewrite Hp. cbv zeta. unfold TrimPrefix.
  rewrite strip_prefix_app. assert (is_empty key = false) as -> by (by apply bool_decide_eq_false). rewrite Hsl. cbn [orb].
  rewrite allowMethod_reads, Hr. pose proof (Get_answer ("item:" ++ key) (NewCacheWithLimit m)) as Hg. cbn [entries NewCacheWithLimit] in Hg.
  rewrite lookup_empty in Hg. destruct (Get _ _) as [[e|] c1]; [done|]. cbn [GetItem buildPublishHandlerWithInvalidator].
  destruct (getItem key d) as [[f i]|] eqn:E; [|done]. unfold direct. cbn [render_doc GetItem buildPublishHandlerWithInvalidator]. rewrite E.
  by destruct (render_item _ _ _ _ _).
Qed.

Lemma permalink_status boot d now m r key :
  content_ok d -> stamped_deletions d -> permalink r key ->
  let code := Status (site_serve boot d now r (NewCacheWithLimit m)).1 in
  (code = 404 <-> key ∉ i_item_key <$> items d)
  /\ (code = 410 <-> exists row, row ∈ items d /\ i_item_key row = key /\ i_deleted_at row <> None)
  /\ (code ∈ [200; 304] <-> exists row, row ∈ items d /\ i_item_key row = key /\ i_deleted_at row = None).
Proof.
  intros Hd Hst Hp. cbv zeta. rewrite permalink_served with (key := key) by done. destruct (decide (key ∈ i_item_key <$> items d)) as [Hin|Hn].
  - apply list_elem_of_fmap in Hin as (row & Hk & Hrow). destruct (getItem_row key d row Hd Hrow (eq_sym Hk)) as (f & _ & _ & E). rewrite E.
    assert (Huniq : forall row', row' ∈ items d -> i_item_key row' = key -> row' = row).
    { intros row' Hr' Hk'. apply (distinct_inj i_item_key (items d)); [by apply ok_item_key|done|done|congruence]. }
    assert (Hyes : key ∈ i_item_key <$> items d) by (rewrite Hk; by apply list_elem_of_fmap_2).
    unfold direct. cbn [render_doc GetItem buildPublishHandlerWithInvalidator]. rewrite E. unfold render_item.
    unfold stamped_deletions in Hst. rewrite Forall_forall in Hst. specialize (Hst row Hrow). unfold IsDeleted. cbn [DeletedAt scanItemRow].
    destruct (i_deleted_at row) as [t|] eqn:Edel.
    + change (of_null_time (Some t)) with t. assert (is_zero t = false) as -> by (apply Z.eqb_neq; congruence). cbn [negb answer fst]. unfold writeStatus. cbn [Status].
      split_and!; split; try done; try (rewrite !elem_of_cons, elem_of_nil; lia).
      * intros _. exists row. by rewrite Edel.
      * intros (row' & Hr' & Hk' & Hdel). rewrite (Huniq row' Hr' Hk') in Hdel. congruence.
    + change (negb (is_zero (of_null_time None))) with false. cbn [answer fst].
      match goal with |- context [writeEntry ?a ?b ?c ?e ?g] => set (w := writeEntry a b c e g) end.
      assert (Hw : Status w ∈ [200; 304]) by (unfold w, writeEntry; cbv zeta; destruct (notModified _ _ _); cbn [Status]; rewrite !elem_of_cons; tauto).
      split_and!; split; try done; try (intros Hc; rewrite Hc, !elem_of_cons, elem_of_nil in Hw; lia).
      * intros (row' & Hr' & Hk' & Hdel). rewrite (Huniq row' Hr' Hk') in Hdel. congruence.
      * intros _. by exists row.
  - rewrite getItem_none by done. unfold not_found, writeStatus. cbn [Status]. split_and!; split; try done; try (rewrite !elem_of_cons, elem_of_nil; lia);
      intros (row & Hr & Hk & _); destruct Hn; rewrite <- Hk; by apply list_elem_of_fmap_2.
Qed.

Lemma keys_remain d d' key : content_ok d -> rtc content_step d d' -> key ∈ i_item_key <$> items d -> key ∈ i_item_key <$> items d'.
Proof.
  intros Hd Hs (r & -> & Hr)%list_elem_of_fmap. destruct (history_evolves d d' Hd Hs) as [(old & new & Hi & Hf) _ _ _].
  apply list_elem_of_lookup in Hr as [i Hi']. destruct (Forall2_lookup_l _ _ _ _ _ Hf Hi') as (r' & Hr' & He).
  destruct He as (_ & <- & _). apply list_elem_of_fmap_2. rewrite Hi. apply elem_of_app. left. by apply list_elem_of_lookup_2 with i.
Qed.

(** *** Names *)

Definition names_fit (d : Content) : Prop := Forall (fun f => slug_ok (f_slug f)) (feeds d) /\ Forall (fun r => item_key_ok (i_item_key r)) (items d).

Lemma site_names boot d now : names_fit d -> names_ok (buildPublishHandlerWithInvalidator s boot d now).
Proof.
  intros [Hf Hi]. rewrite Forall_forall in Hf. rewrite Forall_forall in Hi. constructor; cbn [GetFeed GetItem buildPublishHandlerWithInvalidator].
  - intros slug f. unfold getFeedBySlug. destruct (List.find _ _) as [r|] eqn:E; [|done]. intros _. apply find_some in E as [Hin Hk]. bools.
    rewrite <- Hk. apply Hf. by apply list_elem_of_In.
  - intros key f i. unfold getItem. destruct (List.find _ _) as [r|] eqn:E; [|done]. apply find_some in E as [Hin Hk]. unfold has_key in Hk. bools.
    destruct (find_id _ _) as [f'|] eqn:Ef; [|done]. apply find_id_elem in Ef as [Hf' _]. intros [= <- <-].
    split; [rewrite <- Hk; apply Hi; by apply list_elem_of_In|by apply Hf].
Qed.

(** ** What the site promises *)



(** a page that was answered is answered again as unchanged, with an empty
    304, when the reader sends back the tag or the date it was given, as long as
    the cache has no ceiling, and at the same instant whatever the ceiling: the
    server recognises its own validators. The digest is taken to be written in
    lower-case hexadecimal and the date to lie in a year of four digits. *)
Theorem pages_revalidate boot d now now' m l r :
  (forall body, all_bytes hex_byte (sha256hex body) = true) -> names_fit d -> now <= now' ->
  Forall (fun x => mux (ReqPath x) <> RHealthz) l -> page_route (mux (ReqPath r)) = true ->
  let c := fold_left (fun c x => (site_serve boot d now x c).2) l (NewCacheWithLimit m) in
  let p := site_serve boot d now r c in
  Status p.1 ∈ [200; 304] -> now' = now \/ m <= 0 ->
  exists tag date, Header p.1 !! "ETag" = Some tag /\ Header p.1 !! "Last-Modified" = Some date
    /\ (let again := (site_serve boot d now' (with_etag tag r) p.2).1 in Status again = 304 /\ RespBody again = "")
    /\ (forall t, date = httpTime t -> four_digit t ->
         let again := (site_serve boot d now' (with_date date r) p.2).1 in Status again = 304 /\ RespBody again = "").
Proof.
  intros Hh Hn Ht Hl Hp c p Hst Hm. set (deps := buildPublishHandlerWithInvalidator s boot d now).
  assert (H : filled sha256hex gzip ip st now deps c /\ PubCache.max c = m).
  { unfold c. clear - Hl Hn. assert (H0 : filled sha256hex gzip ip st now deps (NewCacheWithLimit m) /\ PubCache.max (NewCacheWithLimit m) = m).
    { split; [|done]. intros k it. cbn [entries NewCacheWithLimit]. by rewrite lookup_empty. }
    revert H0. generalize (NewCacheWithLimit m). induction l as [|x l IH]; intros c0 [Hf0 Hm0]; [done|]. cbn [fold_left].
    apply Forall_cons_1 in Hl as [Hx Hl]. apply IH; [done|]. unfold site_serve. fold deps. split.
    - apply (serve_transparent sha256hex gzip ip st lenient_time FaviconICO now deps x c0 Hx (site_names boot d now Hn) (Z.le_refl now) Hf0).
    - rewrite <- Hm0. by apply serve_max. }
  destruct H as [Hf Hmax]. unfold p, site_serve. fold deps.
  apply (serve_revalidates sha256hex gzip ip st lenient_time FaviconICO now deps _ r c Hh Hp Hf); [|done].
  rewrite Hmax. destruct Hm as [-> |Hm]; [by left|by right].
Qed.


(** the life of a permalink. It is not found exactly as long as no item has
    its key, it is gone exactly while the item is deleted, and otherwise it is
    served; and once an item has been published, no later write ever makes its
    permalink not found again. *)
Theorem permalink_lifecycle boot d now m r key :
  content_ok d -> stamped_deletions d -> permalink r key ->
  (let code := Status (site_serve boot d now r (NewCacheWithLimit m)).1 in
   (code = 404 <-> key ∉ i_item_key <$> items d)
   /\ (code = 410 <-> exists row, row ∈ items d /\ i_item_key row = key /\ i_deleted_at row <> None)
   /\ (code ∈ [200; 304] <-> exists row, row ∈ items d /\ i_item_key row = key /\ i_deleted_at row = None))
  /\ forall d' now', rtc content_step d d' -> stamped_deletions d' -> key ∈ i_item_key <$> items d ->
     Status (site_serve boot d' now' r (NewCacheWithLimit m)).1 <> 404.
Proof.
  intros Hd Hst Hp. split; [by apply permalink_status|]. intros d' now' Hs Hst' Hk.
  assert (Hd' : content_ok d') by (by eapply history_ok).
  destruct (permalink_status boot d' now' m r key Hd' Hst' Hp) as [[H4 _] _]. intros Hc. apply (H4 Hc). exact (keys_remain d d' key Hd Hs Hk).
Qed.

End site.

(** ** A concrete site, for witnesses *)

Definition demo_site : Site := MkSite "https://feeds.example/" None None "1.0" (fun _ => Some "{}").
Definition demo_digest (_ : string) : string := "00ff".
Definition demo_gzip (s : string) : string := "z" ++ s.
Definition demo_serve (d : Content) (now : Z) : Request -> Cache -> Response * Cache :=
  site_serve demo_digest demo_gzip (fun _ => None) (fun _ => false) (fun _ => None) "ico" demo_site d d now.
Definition demo_now : Z := t0 + 60 * second.
Definition trivia_row : FeedRow := default (MkFeedRow 0 "" "" "" "" "" false "" None None None 0 None 0 None 0 0 "" 0 0) (head (feeds d_done)).

Lemma d_done_names : names_fit d_done.
Proof.
  split; apply Forall_forall; intros r Hr; vm_compute in Hr; apply elem_of_cons in Hr as [->|Hr]; try (by apply elem_of_nil in Hr).
  - split; [reflexivity|done].
  - split; [reflexivity|]. intros H. vm_compute in H. by repeat (apply elem_of_cons in H as [H|H]; [discriminate H|]); apply elem_of_nil in H.
Qed.

Lemma d_done_stamped : stamped_deletions d_done.
Proof. apply Forall_forall. intros r Hr. vm_compute in Hr. apply elem_of_cons in Hr as [->|Hr]; [done|by apply elem_of_nil in Hr]. Qed.

Lemma d_sample_stamped : stamped_deletions d_sample.
Proof. apply Forall_forall. intros r Hr. vm_compute in Hr. apply elem_of_cons in Hr as [->|Hr]; [done|by apply elem_of_nil in Hr]. Qed.

Lemma d_done_whole : whole_seconds 1 d_done.
Proof.
  intros r Hr _. vm_compute in Hr. apply elem_of_cons in Hr as [->|Hr]; [|by apply elem_of_nil in Hr]. split; [reflexivity|].
  unfold four_digit. vm_compute. split; discriminate.
Qed.


Lemma pages_revalidate_witness :
  exists tag date,
    Header (demo_serve d_done demo_now (plain_get "/items/k1") (NewCacheWithLimit 0)).1 !! "ETag" = Some tag
    /\ Header (demo_serve d_done demo_now (plain_get "/items/k1") (NewCacheWithLimit 0)).1 !! "Last-Modified" = Some date
    /\ Status (demo_serve d_done (demo_now + hour) (with_etag tag (plain_get "/items/k1")) (demo_serve d_done demo_now (plain_get "/items/k1") (NewCacheWithLimit 0)).2).1 = 304.
Proof.
  destruct (pages_revalidate demo_digest demo_gzip (fun _ => None) (fun _ => false) (fun _ => None) "ico" demo_site d_done d_done demo_now (demo_now + hour) 0
              [] (plain_get "/items/k1")) as (tag & date & H1 & H2 & H3 & _).
  - reflexivity.
  - apply d_done_names.
  - vm_compute. discriminate.
  - constructor.
  - reflexivity.
  - vm_compute. left.
  - right. reflexivity.
  - exists tag, date. split; [exact H1|]. split; [exact H2|]. exact (proj1 H3).
Defined.


Lemma permalink_lifecycle_witness :
  Status (demo_serve d_done demo_now (plain_get "/items/k1") (NewCacheWithLimit 0)).1 <> 404
  /\ Status (site_serve demo_digest demo_gzip (fun _ => None) (fun _ => false) (fun _ => None) "ico" demo_site d_done d_sample (demo_now + hour)
               (plain_get "/items/k1") (NewCacheWithLimit 0)).1 <> 404.
Proof.
  destruct (permalink_lifecycle demo_digest demo_gzip (fun _ => None) (fun _ => false) (fun _ => None) "ico" demo_site d_done d_done demo_now 0
              (plain_get "/items/k1") "k1") as [[H4 _] Hlater].
  - apply reachable_ok, d_done_reachable.
  - exact d_done_stamped.
  - repeat split; [discriminate].
  - split.
    + intros Hc. apply (proj1 H4 Hc). vm_compute. left.
    + apply Hlater.
      * apply rtc_once. eapply (step_PutSample _ (t0 + 20 * second) 1 "{}" 50 7 f64_zero (24 * hour) 1). vm_compute. reflexivity.
      * exact d_sample_stamped.
      * vm_compute. left.
Defined.

(** Started with an empty store, the server mints tags of 2026; after a first feed
    is created in a later year and the server starts again, of that year. *)
Example tag_year_moves_on_restart :
  bootTagYear empty_content = 2026
  /\ bootTagYear (StoreHistory.get (0, empty_content) (CreateFeed (1830297600 * second) demo_feed empty_content)).2 = 2028.
Proof. split; vm_compute; reflexivity. Qed.
