(* ===== verification/Generate.v ===== *)
(** * The end of a generation run: internal/generate/runner.go and the store
    adapter of cmd/animefeedflux/wire.go

    Stamping the items a run is about to publish, pairing them with their
    embeddings, and the choice of the store call that closes the run. *)

From S2P Require Import Prelude GoTime GoStrings Timestamps Tables Schema StoreItems StoreRuns StoreSamples StoreHistory.
From Stdlib Require Import String Ascii.
Local Abbreviation length := List.length.
Local Abbreviation get := StoreHistory.get.

(** ** Stamping *)

(** [ts.Format("2006-01-02")] in the location the time carries. *)
Definition format_date (loc : Location) (ts : Z) : string :=
  show_year (Year loc ts) (String "-" (pad 2 (Month loc ts) (String "-" (pad 2 (Day loc ts) "")))).

Section stamping.
(** [strings.ToLower], the hexadecimal SHA-256, and the [i]-th key the id
    source mints, for a time. *)
Context (ToLower sha256hex : string -> string) (NewItemKey : nat -> Z -> string) (loc : Location).

Definition contentHash (slug title : string) (ts : Z) : string :=
  sha256hex (slug ++ "|" ++ ToLower (TrimSpace title) ++ "|" ++ format_date loc ts).

Definition stamp_base (newest now : Z) : Z :=
  if negb (is_zero newest) && negb (newest <? now) then newest + second else now.

Definition stamp_item (feed : Feed) (base now : Z) (i : nat) (it : Item) : Item :=
  let ts := base + Z.of_nat i * second in
  MkItem (ID it) (fd_ID feed) (NewItemKey i ts) (contentHash (fd_Slug feed) (Title it) ts) (Title it)
    (SummaryText it) (BodyHTML it) (AnswerHTML it) (Formats it) (Link it) (SourceName it) ts
    (Tags it) "generated" now now (EditedAt it) (DeletedAt it) (Version it).

Definition stampItems (feed : Feed) (valid : list Item) (newest now : Z) : list Item :=
  imap (stamp_item feed (stamp_base newest now) now) valid.
End stamping.

(** The items with their vectors, by position, or nothing when they do not match. *)
Definition zipEmbeddings (its : list Item) (vecs : list Vector) : list ItemEmbedding :=
  if (length vecs =? 0)%nat || negb (length vecs =? length its)%nat then []
  else zip_with (fun it v => MkItemEmbedding (ItemKey it) v) its vecs.

(** ** The store adapter *)

Definition NewestPublished (feed : Z) (d : Content) : Z := default zero_time (newest_published feed d).

Definition StatusCompleted : string := "completed".
Definition StatusSkipped : string := "skipped".
Definition StatusFailed : string := "failed".

Record RunRecord := MkRunRecord {
  rr_FeedID : Z; rr_StartedAt : Z; rr_FinishedAt : Z;
  rr_Status : string; rr_ErrorKind : string; rr_Error : string; rr_AccountScoped : bool;
  rr_ItemsAdded : Z; rr_ItemsRejected : Z; rr_RejectReasons : gmap string Z;
  rr_Embeddings : list ItemEmbedding; rr_TokensIn : Z; rr_TokensOut : Z; rr_EstCostUSD : float64;
  rr_Trigger : string }.

Definition record_summary (run : RunRecord) : RunSummary :=
  MkSummary (rr_TokensIn run) (rr_TokensOut run) (rr_EstCostUSD run) (rr_ItemsRejected run)
    (rr_RejectReasons run).

Definition adapter_CommitRun (preCommit : bool) (now runID : Z) (run : RunRecord) (its : list Item) (d : Content)
    : result store_error Content :=
  if bool_decide (rr_Status run = StatusCompleted)
  then CommitRun preCommit now runID its (record_summary run) (rr_Embeddings run) d
  else if bool_decide (rr_Status run = StatusSkipped)
  then SkipRun now runID (rr_ErrorKind run) [record_summary run] d
  else FailRun now runID (rr_ErrorKind run) (rr_Error run) (record_summary run) d.

(** ** Theorems *)

Lemma stamp_base_after newest now : newest < stamp_base newest now \/ is_zero newest = true.
Proof.
  unfold stamp_base. destruct (is_zero newest); [by right|left]. cbn.
  destruct (newest <? now) eqn:E; bools; cbn; [done|]. unfold second. lia.
Qed.

Lemma NewestPublished_max feed d r :
  whole_seconds feed d -> r ∈ items d -> i_feed_id r = feed ->
  i_published_at r <= NewestPublished feed d.
Proof.
  intros Hw Hr Hf. destruct (newest_published_max feed d r Hw Hr Hf) as (n & Hn & Hle & _).
  unfold NewestPublished. by rewrite Hn.
Qed.

(** the items a run stamps follow the feed: as many as were given, in their
    order, each exactly one second after the one before, and, when the feed's
    items are published on whole seconds and none of them in the first instant
    of time, every one strictly later than everything the feed has. *)
Theorem stamped_items_follow_feed lower sha key loc feed valid now d :
  whole_seconds (fd_ID feed) d ->
  (forall r, r ∈ items d -> i_feed_id r = fd_ID feed -> zero_time < i_published_at r) ->
  let its := stampItems lower sha key loc feed valid (NewestPublished (fd_ID feed) d) now in
  length its = length valid
  /\ (forall i it it', its !! i = Some it -> its !! S i = Some it' -> PublishedAt it' = PublishedAt it + second)
  /\ (forall i it r, its !! i = Some it -> r ∈ items d -> i_feed_id r = fd_ID feed ->
        FeedID it = fd_ID feed /\ Origin it = "generated"%string /\ i_published_at r < PublishedAt it).
Proof.
  intros Hw Hz its. unfold its, stampItems. split_and!.
  - by rewrite length_imap.
  - intros i it it'. rewrite !list_lookup_imap.
    destruct (valid !! i) as [v|]; [|done]. destruct (valid !! S i) as [v'|]; [|done].
    cbn. intros [= <-] [= <-]. unfold stamp_item. cbn [PublishedAt]. unfold second. lia.
  - intros i it r. rewrite list_lookup_imap. destruct (valid !! i) as [v|]; [|done]. cbn.
    intros [= <-] Hr Hf. split; [done|]. split; [done|]. unfold stamp_item. cbn [PublishedAt].
    pose proof (NewestPublished_max _ _ _ Hw Hr Hf) as Hle. specialize (Hz r Hr Hf).
    destruct (stamp_base_after (NewestPublished (fd_ID feed) d) now) as [Hb|Hb].
    + unfold second. lia.
    + unfold is_zero in Hb. bools. lia.
Qed.

Definition demo_key_source (i : nat) (ts : Z) : string :=
  if (i =? 0)%nat then "g1"%string else "g2"%string.
Definition stored_feed : Feed := scanFeed (default (MkFeedRow 0 "" "" "" "" "" false "" None None None 0 None 0 None 0 0 "" 0 0) (head (feeds d_done))).

Lemma stamped_items_follow_feed_witness :
  exists it it' r, stampItems id id demo_key_source UTC stored_feed [demo_item "" "" 0; demo_item "" "" 0]
                     (NewestPublished 1 d_done) t0 = [it; it']
    /\ r ∈ items d_done /\ i_published_at r < PublishedAt it /\ PublishedAt it' = PublishedAt it + second.
Proof.
  destruct (stamped_items_follow_feed id id demo_key_source UTC stored_feed
              [demo_item "" "" 0; demo_item "" "" 0] t0 d_done) as (_ & H1 & H2).
  - intros r Hr _. vm_compute in Hr. apply list_elem_of_singleton in Hr as ->.
    split; [reflexivity|]. split; vm_compute; discriminate.
  - intros r Hr _. vm_compute in Hr. apply list_elem_of_singleton in Hr as ->. vm_compute. reflexivity.
  - eexists _, _, _. split; [reflexivity|]. split; [apply list_elem_of_here|].
    split; [|exact (H1 0%nat _ _ eq_refl eq_refl)].
    apply (H2 0%nat _ _ eq_refl); [apply list_elem_of_here|reflexivity].
Defined.

(** A sample promoted a tenth of a second into second 30, and a run that
    publishes in the same second. *)
Definition late (tenths : Z) : Z := t0 + 30 * second + tenths * (second / 10).
Definition d_promoted30 : Content :=
  (get (0, d_sample) (PromoteSample (late 1) (fun _ => late 1) 1 (demo_item "k2" "h2" 0) d_sample)).2.
Definition d_started30 : Content :=
  (get (0, d_promoted30) (StartRun (late 2) (late 2) 1 "cron" "host" d_promoted30)).2.
Definition stamped30 : list Item :=
  stampItems id id demo_key_source UTC stored_feed [demo_item "" "" 0] (NewestPublished 1 d_started30) (late 9).
Definition completed_record : RunRecord :=
  MkRunRecord 1 (late 0) (late 9) StatusCompleted "" "" false 1 1 {[ "duplicate"%string := 1 ]} []
    10 5 f64_zero "cron".
Definition d_collided : Content :=
  get d_started30 (adapter_CommitRun true (late 9) 2 completed_record stamped30 d_started30).

Lemma d_collided_reachable : rtc content_step d_sample d_collided.
Proof.
  eapply rtc_l; [apply (step_Promote _ (late 1) (fun _ => late 1) 1 (demo_item "k2" "h2" 0) d_sample 2 d_promoted30);
                 vm_compute; reflexivity|].
  eapply rtc_l; [apply (step_StartRun _ (late 2) (late 2) 1 "cron" "host" 2 d_started30); vm_compute; reflexivity|].
  apply rtc_once, (step_CommitRun _ true (late 9) 2 stamped30 (record_summary completed_record) []).
  vm_compute. reflexivity.
Qed.

(** a run's items are stored with the fraction of a second they are stamped
    with, so a promoted item and a generated one of the same feed can be
    published in the same second (one [pubDate] in RSS) without the unique key
    refusing it; and the later of the two is listed as the older, because the
    fraction sorts before the whole second. *)
Theorem generated_item_shares_a_second :
  rtc content_step d_sample d_collided
  /\ exists a b, (a ∈ items d_collided) /\ (b ∈ items d_collided) /\ i_id a <> i_id b
      /\ i_feed_id a = i_feed_id b /\ i_published_at a < i_published_at b
      /\ truncatePublishedAt (i_published_at a) = truncatePublishedAt (i_published_at b)
      /\ take 2 (ItemKey <$> ListItems 1 0 false d_collided) = [i_item_key a; i_item_key b].
Proof.
  split; [apply d_collided_reachable|].
  eexists _, _. split; [vm_compute; right; left|]. split; [vm_compute; right; right; left|].
  repeat split; vm_compute; try reflexivity. discriminate.
Qed.
