(* ===== verification/Pipeline.v ===== *)
(** * The generation pipeline: internal/generate/runner.go, formats.go

    [Run] and [Sample]: acquiring the context, the model calls with one repair,
    the novelty gate and its retries, stamping, formatting, and the one commit.
    The model provider, the novelty gate, the source fetcher, the clock and the
    time zone database are what a run is given ([Deps]): operations on an
    arbitrary world.  The store is an interface ([RunStore]) with the adapter of
    cmd/animefeedflux/wire.go as its instance; the content rules of contract.go
    and the prompt template are the interface [Rules], so what is proved of a
    run holds whatever they accept. *)

From S2P Require Import Prelude GoTime GoStrings Timestamps Tables Schema StoreItems StoreRuns.
From S2P Require Import StoreSamples StoreHistory Generate.
From Stdlib Require Import String Ascii.
Local Abbreviation length := List.length.

(** ** Errors: internal/llm/errors.go *)

Inductive Kind := KindUnclassified | Transient | Invalid | Fatal.
Inductive Scope := ScopeNone | ScopeAccount | ScopeRecipe.
#[export] Instance Kind_eq_dec : EqDecision Kind.
Proof. solve_decision. Defined.
#[export] Instance Scope_eq_dec : EqDecision Scope.
Proof. solve_decision. Defined.

Definition Kind_String (k : Kind) : string :=
  match k with
  | Transient => "transient" | Invalid => "invalid" | Fatal => "fatal" | KindUnclassified => "unclassified"
  end.

(** [le_Error] is what [Error()] prints. *)
Record llm_Error := MkLLMError { le_Kind : Kind; le_Scope : Scope; le_Error : string }.

(** The errors the pipeline sees: a classified provider failure, its own
    sentinel, any other error, and an error wrapped with a message ([%w]). *)
Inductive gen_error :=
| LLMError (e : llm_Error)
| ErrMalformedOutput
| PlainError (msg : string)
| Wrapped (msg : string) (e : gen_error).

Fixpoint error_text (e : gen_error) : string :=
  match e with
  | LLMError e => le_Error e
  | ErrMalformedOutput => "generate: model output failed validation twice (one repair attempt used)"
  | PlainError m => m
  | Wrapped m e => m ++ ": " ++ error_text e
  end.

(** [errors.As] for [*llm.Error], and [errors.Is] for the sentinel. *)
Fixpoint as_llm (e : gen_error) : option llm_Error :=
  match e with LLMError e => Some e | Wrapped _ e => as_llm e | _ => None end.
Fixpoint is_malformed (e : gen_error) : bool :=
  match e with ErrMalformedOutput => true | Wrapped _ e => is_malformed e | _ => false end.

Definition IsAccountScoped (e : option gen_error) : bool :=
  match mbind as_llm e with
  | Some l => bool_decide (le_Kind l = Fatal) && bool_decide (le_Scope l = ScopeAccount)
  | None => false
  end.

Definition errorKindFromProvider (e : gen_error) : string :=
  match as_llm e with Some l => Kind_String (le_Kind l) | None => "provider_error" end.

(** ** Inputs and outputs *)

Definition KindGenerative : string := "generative".
Definition KindGrounded : string := "grounded".
Definition KindAggregate : string := "aggregate".

Record Spec := MkSpec {
  SystemPrompt : string; UserPromptTemplate : string; sp_Model : string; Temperature : float64;
  Effort : string; ItemsPerRun : Z; RecentTitlesN : Z; MaxCandidates : Z; MaxNoveltyRetries : Z;
  PriceInputPerMToken : float64; PriceOutputPerMToken : float64; sp_Trigger : string; WatchMode : bool;
  WebSearch : bool }.

Definition defaultRecentTitles : Z := 50.
Definition defaultMaxCandidates : Z := 40.

Definition ReasonNoveltyDuplicate : string := "novelty_duplicate".
Definition ReasonNoveltyCheckFailed : string := "novelty_check_failed".

(** internal/llm: one generated item, a request and its result.  The pipeline
    never sets a temperature, and reads no other field of a result. *)
Record GeneratedItem := MkGenerated {
  gi_Title : string; gi_SummaryText : string; gi_BodyHTML : string; gi_Link : string;
  gi_SourceName : string; gi_Tags : list string; gi_AnswerHTML : string }.
Record Request := MkRequest {
  rq_Prompt : string; rq_System : string; rq_Model : string; rq_MaxItems : Z; rq_RequestID : string;
  rq_Effort : string; rq_WebSearch : bool }.
Record Result := MkResult { res_Items : list GeneratedItem; res_Raw : string }.
Record FormatRequest := MkFormatRequest {
  fr_Prompt : string; fr_System : string; fr_Model : string; fr_Effort : string; fr_RequestID : string }.
Record FormatResult := MkFormatResult { fres_Formats : ItemFormats; fres_Raw : string }.

(** contract.go: what is validated, against what, and a broken rule. *)
Record Candidate := MkCandidate {
  cd_Title : string; cd_SummaryText : string; cd_BodyHTML : string; cd_AnswerHTML : string;
  cd_Link : string; cd_SourceName : string; cd_Tags : list string }.
Record Options := MkOptions { opt_Kind : string; CandidateURLs : list string }.
Record Rejection := MkRejection { rej_Field : string; Reason : string }.

Definition toCandidate (gi : GeneratedItem) : Candidate :=
  MkCandidate (gi_Title gi) (gi_SummaryText gi) (gi_BodyHTML gi) (gi_AnswerHTML gi) (gi_Link gi)
    (gi_SourceName gi) (gi_Tags gi).

(** prompttmpl: what a template sees. *)
Record SourceArticle := MkArticle {
  sa_Title : string; sa_URL : string; sa_Published : string; sa_Excerpt : string }.
Record Data := MkData {
  Today : string; dt_Weekday : string; dt_Season : string; FeedTitle : string; dt_ItemsPerRun : Z;
  dt_RecentTitles : list string; dt_Candidates : list SourceArticle }.

(** sources.Candidate; [sc_Zone] is the location its time carries. *)
Record SourceCandidate := MkSource {
  sc_Title : string; sc_URL : string; sc_Excerpt : string; sc_Published : Z; sc_Zone : Location;
  sc_SourceName : string }.

Record RunResult := MkRunResult { Run_ : RunRecord; Items : list Item }.
Record SampleResult := MkSampleResult {
  sr_Items : list Item; sr_RejectReasons : gmap string Z; sr_TokensIn : Z; sr_TokensOut : Z;
  sr_EstCostUSD : float64 }.

(** ** Interfaces *)

(** [generate.Store].  Only the commit changes the store. *)
Class RunStore (St : Type) := {
  RecentTitles : Z -> Z -> St -> result gen_error (list string);
  StoreNewest : Z -> St -> result gen_error Z;
  StoreCommit : RunRecord -> list Item -> St -> result gen_error St }.

(** [Novelty], absent, plain or [VectorNovelty]: the verdict for a text. *)
Inductive Gate (W : Type) :=
| NoGate
| PlainGate (check : Z -> string -> W -> result gen_error bool * W)
| VectorGate (check : Z -> string -> W -> result gen_error (bool * Vector) * W).
Arguments NoGate {W}.
Arguments PlainGate {W} check.
Arguments VectorGate {W} check.

Record Deps (W : Type) := MkDeps {
  Now : W -> Z * W;
  Generate : Request -> W -> result gen_error Result * W;
  Format : option (FormatRequest -> W -> result gen_error FormatResult * W);
  Novelty : Gate W;
  Candidates : Z -> W -> result gen_error (list SourceCandidate) * W;
  LoadLocation : string -> option Location;
  Local : Location;
  NewItemKey : nat -> Z -> string;
  ToLower : string -> string;
  sha256hex : string -> string }.
Arguments Now {W}. Arguments Generate {W}. Arguments Format {W}. Arguments Novelty {W}.
Arguments Candidates {W}. Arguments LoadLocation {W}. Arguments Local {W}. Arguments NewItemKey {W}.
Arguments ToLower {W}. Arguments sha256hex {W}.

Record Rules := MkRules {
  Validate : Candidate -> Options -> result gen_error (Item * list Rejection);
  validateFormats : ItemFormats -> Item -> ItemFormats;
  formatItemPrompt : Item -> string;
  Render : string -> Data -> result gen_error string }.

(** ** Estimates *)

Definition estimateTokens (s : string) : Z :=
  let n := RuneCountInString s in if n =? 0 then 0 else (n + 3) / 4.

Definition estimateCostUSD (tokensIn tokensOut : Z) (spec : Spec) : float64 :=
  let per_m t := f64_div (f64_of_int t) (f64_of_int 1000000) in
  f64_add (f64_mul (per_m tokensIn) (PriceInputPerMToken spec))
          (f64_mul (per_m tokensOut) (PriceOutputPerMToken spec)).

Definition sumReasons (m : gmap string Z) : Z := reasons_total m.

(** [m[k] += v]. *)
Definition bump (k : string) (v : Z) (m : gmap string Z) : gmap string Z := <[k := default 0 (m !! k) + v]> m.

Definition add_all (src m : gmap string Z) : gmap string Z := map_fold bump m src.

Definition repairNote (reasons : gmap string Z) : string :=
  if bool_decide (reasons = ∅)
  then "Your previous response was empty or unusable. Respond again, following the schema exactly."
  else "Your previous response was invalid: " ++ Join (sort_strings (map_to_list reasons).*1) ", "
       ++ ". Fix these issues and respond again, following the schema exactly.".

Definition watchSystemNote : string :=
  "You are checking for noteworthy events, not filling a quota. "
  ++ "If nothing genuinely meets the brief right now, return an empty " ++ String (ascii_of_nat 34) "items"
  ++ String (ascii_of_nat 34) " array " ++ bytes [226; 128; 148]%nat ++ " "
  ++ "an empty answer is correct and expected most of the time. Never invent or pad. "
  ++ "When candidate articles are provided, they are a LIVE check of the outside world: release an "
  ++ "item only for a candidate that is a genuine, new development meeting the brief " ++ bytes [226; 128; 148]%nat
  ++ " never " ++ "re-report an old story, a minor update, or something merely related.".

Definition newlines2 : string := bytes [10; 10]%nat.

Definition effectiveSystem (spec : Spec) : string :=
  if negb (WatchMode spec) then SystemPrompt spec
  else if is_empty (SystemPrompt spec) then watchSystemNote
  else SystemPrompt spec ++ newlines2 ++ watchSystemNote.

Definition Season (loc : Location) (t : Z) : string :=
  nth (Z.to_nat ((Month loc t - 1) / 3)) ["Winter"; "Spring"; "Summer"; "Fall"] "" ++ " "
  ++ show_int (Year loc t).

Definition weekday_name (d : Z) : string :=
  nth (Z.to_nat d) ["Sunday"; "Monday"; "Tuesday"; "Wednesday"; "Thursday"; "Friday"; "Saturday"] "".

Definition formatSystemPrompt : string :=
  "You reformat one finished feed item for four output surfaces. "
  ++ "Never change facts, never add information, never contradict the original. "
  ++ "feed_html: the item body as clean rich HTML for RSS reader apps — simple markup only "
  ++ "(p, em, strong, a, ul, ol, li, blockquote, h3), every link absolute, no scripts or styles or images. "
  ++ "card_text: PLAIN TEXT, no markup, at most 280 characters — one tight, scannable teaser for a chat-app card; "
  ++ "it must read complete on its own and make someone want to open the item. "
  ++ "embed_text: PLAIN TEXT, no markup, at most 180 characters — one self-contained line for a tiny embedded widget; "
  ++ "no teaser phrasing, just the essence. "
  ++ "page_html: the item as a standalone reading page body — same HTML rules as feed_html but structured for "
  ++ "comfortable reading (short paragraphs, subheadings where they help). "
  ++ "If a quiz answer is provided it may appear in feed_html and page_html exactly as the original placed it, "
  ++ "but card_text and embed_text must NEVER reveal or hint at it.".

(** ** The steps *)

Section pipeline.
Context {W St : Type} `{RunStore St} (deps : Deps W) (rules : Rules) (feed : Feed) (spec : Spec).

(** A step acts on the world and the store. *)
Definition M (A : Type) : Type := W * St -> A * (W * St).
Definition ret {A} (a : A) : M A := fun s => (a, s).
Definition bind {A B} (m : M A) (k : A -> M B) : M B := fun s => let (a, s') := m s in k a s'.
Definition lift {A} (f : W -> A * W) : M A := fun s => let (a, w) := f s.1 in (a, (w, s.2)).
Definition gets {A} (f : St -> A) : M A := fun s => (f s.2, s).

Notation "'do' x <- m ; k" := (bind m (fun x => k)) (at level 10, x pattern, m at level 100, k at level 200).

Definition acquireContext (now : Z) : M (result gen_error (Data * Options)) :=
  let loc := if is_empty (TrimSpace (fd_Timezone feed)) then UTC
             else default UTC (LoadLocation deps (TrimSpace (fd_Timezone feed))) in
  let data titles cands :=
    MkData (format_date loc now) (weekday_name (Weekday loc now)) (Season loc now) (fd_Title feed)
      (ItemsPerRun spec) titles cands in
  if bool_decide (fd_Kind feed = KindGenerative) then
    let n := if RecentTitlesN spec <=? 0 then defaultRecentTitles else RecentTitlesN spec in
    do r <- gets (RecentTitles (fd_ID feed) n);
    match r with
    | Err e => ret (Err (Wrapped "generate: acquiring recent titles" e))
    | Ok titles => ret (Ok (data titles [], MkOptions (fd_Kind feed) []))
    end
  else if bool_decide (fd_Kind feed = KindGrounded) then
    do r <- lift (Candidates deps (fd_ID feed));
    match r with
    | Err e => ret (Err (Wrapped "generate: fetching candidates" e))
    | Ok cands =>
        let max := if MaxCandidates spec <=? 0 then defaultMaxCandidates else MaxCandidates spec in
        let cands := if max <? Z.of_nat (length cands) then take (Z.to_nat max) cands else cands in
        let articles := (fun c => MkArticle (sc_Title c) (sc_URL c)
                                    (format_date (sc_Zone c) (sc_Published c)) (sc_Excerpt c)) <$> cands in
        ret (Ok (data [] articles, MkOptions (fd_Kind feed) (sc_URL <$> cands)))
    end
  else ret (Err (PlainError ("generate: unsupported feed kind " ++ String (ascii_of_nat 34) (fd_Kind feed)
                             ++ String (ascii_of_nat 34) " for generation"))).

(** The validation loop over a batch: the items that pass, the counts of the
    broken rules, and the error that stops it. *)
Fixpoint validate_batch (opts : Options) (l : list GeneratedItem) (valid : list Item) (reasons : gmap string Z)
    : result gen_error (list Item) * gmap string Z :=
  match l with
  | [] => (Ok valid, reasons)
  | gi :: rest =>
      match Validate rules (toCandidate gi) opts with
      | Err e => (Err e, reasons)
      | Ok (item, rej) =>
          if (0 <? length rej)%nat
          then validate_batch opts rest valid (foldl (fun m r => bump (Reason r) 1 m) reasons rej)
          else validate_batch opts rest (valid ++ [item]) reasons
      end
  end.

(** One model call of an attempt: the valid items or the error, the estimated
    tokens in and out, the counts so far and the size of the batch returned. *)
Record call_result := MkCall {
  c_valid : result gen_error (list Item); c_in : Z; c_out : Z; c_reasons : gmap string Z; c_raw : nat }.

Definition call (opts : Options) (system promptText requestID : string) (reasons : gmap string Z)
    : M call_result :=
  let req := MkRequest promptText system (sp_Model spec) (ItemsPerRun spec) requestID (Effort spec)
               (WebSearch spec) in
  do res <- lift (Generate deps req);
  let tokensIn := estimateTokens system + estimateTokens promptText in
  match res with
  | Err e => ret (MkCall (Err e) tokensIn 0 reasons 0)
  | Ok r =>
      let (v, reasons') := validate_batch opts (res_Items r) [] reasons in
      ret (MkCall v tokensIn (estimateTokens (res_Raw r)) reasons' (length (res_Items r)))
  end.

Record attemptResult := MkAttempt {
  valid : list Item; rejectedReasons : gmap string Z; a_tokensIn : Z; a_tokensOut : Z; watchEmpty : bool }.

Definition runAttempt (opts : Options) (system basePrompt requestID : string)
    : M (attemptResult * option gen_error) :=
  do c <- call opts system basePrompt requestID ∅;
  match c_valid c with
  | Err e => ret (MkAttempt [] (c_reasons c) (c_in c) (c_out c) false, Some e)
  | Ok v =>
      if (0 <? length v)%nat then ret (MkAttempt v (c_reasons c) (c_in c) (c_out c) false, None)
      else if WatchMode spec && (c_raw c =? 0)%nat
      then ret (MkAttempt [] (c_reasons c) (c_in c) (c_out c) true, None)
      else
        do c2 <- call opts system (basePrompt ++ newlines2 ++ repairNote (c_reasons c))%string requestID
                  (c_reasons c);
        let tin := c_in c + c_in c2 in
        let tout := c_out c + c_out c2 in
        match c_valid c2 with
        | Err e => ret (MkAttempt [] (c_reasons c2) tin tout false, Some e)
        | Ok v2 =>
            if (length v2 =? 0)%nat
            then ret (MkAttempt [] (c_reasons c2) tin tout false, Some ErrMalformedOutput)
            else ret (MkAttempt v2 (c_reasons c2) tin tout false, None)
        end
  end.

(** The verdict of the gate on one item: an error, a duplicate, or the vectors
    to keep with it (none from a plain gate). *)
Definition check_item (it : Item) : M (result gen_error (bool * list Vector)) :=
  let text := (Title it ++ " " ++ SummaryText it)%string in
  match Novelty deps with
  | NoGate => ret (Ok (false, []))
  | PlainGate check =>
      do r <- lift (check (fd_ID feed) text);
      ret (match r with Ok dup => Ok (dup, []) | Err e => Err e end)
  | VectorGate check =>
      do r <- lift (check (fd_ID feed) text);
      ret (match r with Ok (dup, v) => Ok (dup, [v]) | Err e => Err e end)
  end.

Fixpoint filter_items (its : list Item) (out : list Item) (vecs : list Vector) (totals : gmap string Z)
    : M (list Item * list Vector * gmap string Z) :=
  match its with
  | [] => ret (out, vecs, totals)
  | it :: rest =>
      do r <- check_item it;
      match r with
      | Err _ => filter_items rest out vecs (bump ReasonNoveltyCheckFailed 1 totals)
      | Ok (true, _) => filter_items rest out vecs (bump ReasonNoveltyDuplicate 1 totals)
      | Ok (false, v) => filter_items rest (out ++ [it]) (vecs ++ v) totals
      end
  end.

Definition filterNovel (its : list Item) (totals : gmap string Z)
    : M (list Item * list Vector * gmap string Z) :=
  match Novelty deps with
  | NoGate => ret (its, [], totals)
  | _ => filter_items its [] [] totals
  end.

(** Stage 2: the surface variants of each item; a failed call leaves it as it is. *)
Fixpoint format_each (fmt : FormatRequest -> W -> result gen_error FormatResult * W) (requestID : string)
    (i : nat) (its : list Item) : M (list Item * Z * Z) :=
  match its with
  | [] => ret ([], 0, 0)
  | it :: rest =>
      let prompt := formatItemPrompt rules it in
      let req := MkFormatRequest prompt formatSystemPrompt (sp_Model spec) (Effort spec)
                   (requestID ++ "-fmt-" ++ show_int (Z.of_nat i)) in
      do r <- lift (fmt req);
      do (out, tin, tout) <- format_each fmt requestID (S i) rest;
      let tin := estimateTokens formatSystemPrompt + estimateTokens prompt + tin in
      match r with
      | Err _ => ret (it :: out, tin, tout)
      | Ok res =>
          let it' := MkItem (ID it) (FeedID it) (ItemKey it) (ContentHash it) (Title it) (SummaryText it)
                       (BodyHTML it) (AnswerHTML it) (validateFormats rules (fres_Formats res) it) (Link it)
                       (SourceName it) (PublishedAt it) (Tags it) (Origin it) (CreatedAt it) (UpdatedAt it)
                       (EditedAt it) (DeletedAt it) (Version it) in
          ret (it' :: out, tin, estimateTokens (fres_Raw res) + tout)
      end
  end.

Definition formatItems (its : list Item) (requestID : string) : M (list Item * Z * Z) :=
  match Format deps with
  | Some fmt => if (length its =? 0)%nat then ret (its, 0, 0) else format_each fmt requestID 0 its
  | None => ret (its, 0, 0)
  end.

(** ** Run *)

(** What a run has counted so far. *)
Record tally := MkTally { t_reasons : gmap string Z; t_in : Z; t_out : Z }.

Definition generative : bool := bool_decide (fd_Kind feed = KindGenerative).

(** The single exit: the closed record, and the one commit. *)
Definition commit (started : Z) (t : tally) (status errorKind : string) (runErr : option gen_error)
    (its : list Item) (embs : list ItemEmbedding) : M (RunResult * option gen_error) :=
  do finished <- lift (Now deps);
  let run := MkRunRecord (fd_ID feed) started finished status errorKind
               (match runErr with Some e => error_text e | None => "" end) (IsAccountScoped runErr)
               (Z.of_nat (length its)) (sumReasons (t_reasons t)) (t_reasons t) embs (t_in t) (t_out t)
               (estimateCostUSD (t_in t) (t_out t) spec) (sp_Trigger spec) in
  fun s =>
    match StoreCommit run its s.2 with
    | Ok st => ((MkRunResult run its, runErr), (s.1, st))
    | Err cerr =>
        let msg := match runErr with
                   | Some e => ("generate: run failed (" ++ error_text e ++ ") and committing it also failed")%string
                   | None => "generate: committing run"
                   end in
        ((MkRunResult run [], Some (Wrapped msg cerr)), s)
    end.

Inductive attempts_end :=
| Aborted (kind : string) (e : gen_error)
| Finished (novelItems : list Item) (novelVecs : list Vector) (watchQuiet : bool).

(** The loop over the attempts; [n] is how many are left. *)
Fixpoint attempts (n : nat) (opts : Options) (promptText requestID : string) (its : list Item)
    (vecs : list Vector) (t : tally) : M (attempts_end * tally) :=
  match n with
  | O => ret (Finished its vecs false, t)
  | S n' =>
      do (ar, aerr) <- runAttempt opts (effectiveSystem spec) promptText requestID;
      let t := MkTally (add_all (rejectedReasons ar) (t_reasons t)) (t_in t + a_tokensIn ar)
                 (t_out t + a_tokensOut ar) in
      match aerr with
      | Some e =>
          ret (Aborted (if is_malformed e then "malformed_output" else errorKindFromProvider e) e, t)
      | None =>
          if watchEmpty ar then ret (Finished its vecs true, t)
          else
            do (batch, batchVecs, totals) <-
              (if generative then filterNovel (valid ar) (t_reasons t) else ret (valid ar, [], t_reasons t));
            let t := MkTally totals (t_in t) (t_out t) in
            if (0 <? length (its ++ batch))%nat || negb generative
            then ret (Finished (its ++ batch) (vecs ++ batchVecs) false, t)
            else attempts n' opts promptText requestID (its ++ batch) (vecs ++ batchVecs) t
      end
  end.

Definition maxAttempts : nat :=
  if generative && (0 <? MaxNoveltyRetries spec) then Z.to_nat (1 + MaxNoveltyRetries spec) else 1.

(** [l[:n]] when it is longer than a positive [n]. *)
Definition cap_items {A} (n : Z) (l : list A) : list A :=
  if (0 <? n) && (n <? Z.of_nat (length l)) then take (Z.to_nat n) l else l.

Definition request_id (tag : string) (t : Z) : string :=
  fd_Slug feed ++ tag ++ show_int (wrap64 t).

Definition aggregate_error (verb : string) : gen_error :=
  PlainError ("generate: aggregate feeds have no generator to " ++ verb ++ " (PLAN.md §14.2)").

Definition empty_record : RunRecord :=
  MkRunRecord 0 zero_time zero_time "" "" "" false 0 0 ∅ [] 0 0 f64_zero "".

Definition Run : M (RunResult * option gen_error) :=
  if bool_decide (fd_Kind feed = KindAggregate)
  then ret (MkRunResult empty_record [], Some (aggregate_error "run"))
  else
    do started <- lift (Now deps);
    let t0 := MkTally ∅ 0 0 in
    do ctx <- acquireContext started;
    match ctx with
    | Err e => commit started t0 StatusFailed "context_acquire_failed" (Some e) [] []
    | Ok (data, opts) =>
        if WatchMode spec && bool_decide (fd_Kind feed = KindGrounded) && (length (CandidateURLs opts) =? 0)%nat
        then commit started t0 StatusSkipped "nothing_noteworthy" None [] []
        else
          match Render rules (UserPromptTemplate spec) data with
          | Err e => commit started t0 StatusFailed "prompt_render_failed" (Some e) [] []
          | Ok promptText =>
              let requestID := request_id "-run-" started in
              do (fin, t) <- attempts maxAttempts opts promptText requestID [] [] t0;
              match fin with
              | Aborted kind e => commit started t StatusFailed kind (Some e) [] []
              | Finished novelItems novelVecs watchQuiet =>
                  if (length novelItems =? 0)%nat then
                    let errKind := if watchQuiet : bool then "nothing_noteworthy"
                                   else if generative then "novelty_exhausted" else "no_valid_items" in
                    commit started t StatusSkipped errKind None [] []
                  else
                    let novelVecs :=
                      if (0 <? ItemsPerRun spec) && (ItemsPerRun spec <? Z.of_nat (length novelItems))
                      then cap_items (ItemsPerRun spec) novelVecs else novelVecs in
                    let novelItems := cap_items (ItemsPerRun spec) novelItems in
                    do newest <- gets (StoreNewest (fd_ID feed));
                    match newest with
                    | Err e => commit started t StatusFailed "store_error" (Some e) [] []
                    | Ok newest =>
                        do now <- lift (Now deps);
                        let its := stampItems (ToLower deps) (sha256hex deps) (NewItemKey deps) (Local deps)
                                     feed novelItems newest now in
                        do (its, fin_, fout) <- formatItems its requestID;
                        let t := MkTally (t_reasons t) (t_in t + fin_) (t_out t + fout) in
                        commit started t StatusCompleted "" None its (zipEmbeddings its novelVecs)
                    end
              end
          end
    end.

(** ** Sample *)

Definition no_sample : SampleResult := MkSampleResult [] ∅ 0 0 f64_zero.

Definition Sample : M (SampleResult * option gen_error) :=
  if bool_decide (fd_Kind feed = KindAggregate) then ret (no_sample, Some (aggregate_error "sample"))
  else
    do now <- lift (Now deps);
    do ctx <- acquireContext now;
    match ctx with
    | Err e => ret (no_sample, Some e)
    | Ok (data, opts) =>
        if WatchMode spec && bool_decide (fd_Kind feed = KindGrounded) && (length (CandidateURLs opts) =? 0)%nat
        then ret (no_sample, None)
        else
          match Render rules (UserPromptTemplate spec) data with
          | Err e => ret (no_sample, Some e)
          | Ok promptText =>
              let requestID := request_id "-sample-" now in
              do (ar, aerr) <- runAttempt opts (effectiveSystem spec) promptText requestID;
              let totals := add_all (rejectedReasons ar) ∅ in
              let cost := estimateCostUSD (a_tokensIn ar) (a_tokensOut ar) spec in
              match aerr with
              | Some e => ret (MkSampleResult [] totals (a_tokensIn ar) (a_tokensOut ar) cost, Some e)
              | None =>
                  do (its, _, totals) <-
                    (if generative then filterNovel (valid ar) totals else ret (valid ar, [], totals));
                  do (its, fin_, fout) <- formatItems (cap_items (ItemsPerRun spec) its) requestID;
                  ret (MkSampleResult its totals (a_tokensIn ar + fin_) (a_tokensOut ar + fout)
                         (f64_add cost (estimateCostUSD fin_ fout spec)), None)
              end
          end
    end.

(** ** What a step can do

    [gives Q m]: [m] leaves the store alone and its answer satisfies [Q]. *)
Definition gives {A} (Q : A -> Prop) (m : M A) : Prop := forall s, (m s).2.2 = s.2 /\ Q (m s).1.

Lemma gives_ret {A} (Q : A -> Prop) a : Q a -> gives Q (ret a).
Proof. by intros Ha s. Qed.

Lemma gives_lift {A} (Q : A -> Prop) f : (forall w, Q (f w).1) -> gives Q (lift f).
Proof. intros Hf s. unfold lift. specialize (Hf s.1). by destruct (f s.1). Qed.

Lemma gives_any {A} (m : M A) Q : gives Q m -> gives (fun _ => True) m.
Proof. intros Hm s. by destruct (Hm s). Qed.

Lemma gives_weaken {A} (m : M A) (Q Q' : A -> Prop) : (forall a, Q a -> Q' a) -> gives Q m -> gives Q' m.
Proof. intros HQ Hm s. destruct (Hm s) as [? ?]. auto. Qed.

Lemma gives_bind {A B} (Q : A -> Prop) (R : B -> Prop) m k :
  gives Q m -> (forall a, Q a -> gives R (k a)) -> gives R (bind m k).
Proof.
  intros Hm Hk s. unfold bind. destruct (Hm s) as [Hs Ha]. destruct (m s) as [a s']. cbn in *.
  destruct (Hk a Ha s') as [Hs' Hr]. by rewrite Hs', Hs.
Qed.

Lemma gives_lift_any {A} (f : W -> A * W) : gives (fun _ => True) (lift f).
Proof. by apply gives_lift. Qed.

Lemma gives_gets_any {A} (f : St -> A) : gives (fun _ => True) (gets f).
Proof. done. Qed.

(** ** What an attempt accepts *)

Definition novel (it : Item) : Prop :=
  let text := (Title it ++ " " ++ SummaryText it)%string in
  match Novelty deps with
  | NoGate => True
  | PlainGate check => exists w w', check (fd_ID feed) text w = (Ok false, w')
  | VectorGate check => exists w w' v, check (fd_ID feed) text w = (Ok (false, v), w')
  end.

Definition validated (opts : Options) (it : Item) : Prop :=
  exists gi, Validate rules (toCandidate gi) opts = Ok (it, []).

Definition accepted (opts : Options) (it : Item) : Prop :=
  validated opts it /\ (generative = true -> novel it).

Lemma validate_batch_valid opts l acc reasons v :
  Forall (validated opts) acc -> (validate_batch opts l acc reasons).1 = Ok v -> Forall (validated opts) v.
Proof.
  revert acc reasons. induction l as [|gi l IH]; intros acc reasons Hacc; cbn [validate_batch].
  { by intros [= <-]. }
  destruct (Validate rules (toCandidate gi) opts) as [[it rej]|e] eqn:E; [|done].
  destruct (0 <? length rej)%nat eqn:El; [by apply IH|]. apply IH, Forall_app. split; [done|].
  constructor; [|constructor]. exists gi. rewrite E. destruct rej; [done|]. by apply Nat.ltb_ge in El; cbn in El; lia.
Qed.

Lemma call_gives opts system prompt rid reasons :
  gives (fun c => forall v, c_valid c = Ok v -> Forall (validated opts) v) (call opts system prompt rid reasons).
Proof.
  unfold call. eapply gives_bind; [apply gives_lift_any|]. intros [r|e] _; [|by apply gives_ret].
  destruct (validate_batch opts (res_Items r) [] reasons) as [v rs] eqn:E. apply gives_ret.
  intros v' Hv. apply (validate_batch_valid opts (res_Items r) [] reasons); [constructor|]. by rewrite E.
Qed.

Lemma runAttempt_gives opts system prompt rid :
  gives (fun p => Forall (validated opts) (valid p.1)) (runAttempt opts system prompt rid).
Proof.
  unfold runAttempt. eapply gives_bind; [apply call_gives|]. intros c Hc. cbn beta in Hc.
  destruct (c_valid c) as [v|e]; [|by apply gives_ret; constructor]. destruct (0 <? length v)%nat.
  { apply gives_ret. cbn. by apply Hc. }
  destruct (_ && _); [by apply gives_ret; constructor|].
  eapply gives_bind; [apply call_gives|]. intros c2 Hc2. cbn beta in Hc2.
  destruct (c_valid c2) as [v2|e]; [|by apply gives_ret; constructor].
  destruct (length v2 =? 0)%nat; apply gives_ret; [constructor|]. cbn. by apply Hc2.
Qed.

Lemma check_item_gives it :
  gives (fun r => forall vs, r = Ok (false, vs) -> novel it) (check_item it).
Proof.
  unfold check_item, novel. set (text := (Title it ++ _)%string). destruct (Novelty deps) as [|check|check].
  - by apply gives_ret.
  - eapply (gives_bind (fun r => r = Ok false -> exists w w', check (fd_ID feed) text w = (Ok false, w'))).
    { apply gives_lift. intros w Hw. exists w. destruct (check (fd_ID feed) text w) as [r w']. cbn in Hw. subst. by exists w'. }
    intros [dup|e] Hr; apply gives_ret; cbn; [|done]. intros vs [= -> _]. by apply Hr.
  - eapply (gives_bind (fun r => forall v, r = Ok (false, v) -> exists w w' v, check (fd_ID feed) text w = (Ok (false, v), w'))).
    { apply gives_lift. intros w v Hw. exists w. destruct (check (fd_ID feed) text w) as [r w']. cbn in Hw. subst. by exists w', v. }
    intros [[dup v]|e] Hr; apply gives_ret; cbn; [|done]. intros vs [= -> _]. by eapply Hr.
Qed.

Lemma filter_items_gives its out vecs totals :
  Forall novel out -> gives (fun p => Forall novel p.1.1 /\ forall it, it ∈ p.1.1 -> it ∈ out \/ it ∈ its)
                        (filter_items its out vecs totals).
Proof.
  revert out vecs totals. induction its as [|it its IH]; intros out vecs totals Hout; cbn [filter_items].
  { apply gives_ret. cbn. auto. }
  eapply gives_bind; [apply check_item_gives|].
  assert (Hskip : forall vs ts, gives (fun p => Forall novel p.1.1 /\ forall x, x ∈ p.1.1 -> x ∈ out \/ x ∈ it :: its)
                               (filter_items its out vs ts)).
  { intros vs ts. eapply gives_weaken; [|by apply IH]. intros p [H1 H2]. split; [done|].
    intros x [?|?]%H2; [by left|right; by right]. }
  intros [[[] v]|e] Hr; [apply Hskip| |apply Hskip].
  eapply gives_weaken; [|apply IH]; [|by apply Forall_app; split; [|constructor; [by eapply Hr|constructor]]].
  intros p [H1 H2]. split; [done|]. intros x [Hx|?]%H2; [|right; by right].
  apply elem_of_app in Hx as [?|Hx%list_elem_of_singleton]; [by left|right; subst; by left].
Qed.

Lemma filterNovel_gives its totals :
  gives (fun p => Forall novel p.1.1 /\ forall it, it ∈ p.1.1 -> it ∈ its) (filterNovel its totals).
Proof.
  assert (H0 : gives (fun p => Forall novel p.1.1 /\ forall it, it ∈ p.1.1 -> it ∈ its) (filter_items its [] [] totals)).
  { eapply gives_weaken; [|by apply filter_items_gives; constructor]. intros p [H1 H2]. split; [done|].
    intros x [?%elem_of_nil|?]%H2; done. }
  unfold filterNovel. destruct (Novelty deps) eqn:E; [|done..]. apply gives_ret. split; [|done].
  apply Forall_forall. intros it _. unfold novel. by rewrite E.
Qed.

Lemma attempts_gives n opts prompt rid its vecs t :
  Forall (accepted opts) its ->
  gives (fun p => match p.1 with Finished l _ _ => Forall (accepted opts) l | Aborted _ _ => True end)
    (attempts n opts prompt rid its vecs t).
Proof.
  revert its vecs t. induction n as [|n IH]; intros its vecs t Hits; cbn [attempts]; [by apply gives_ret|].
  eapply gives_bind; [apply runAttempt_gives|]. intros [ar aerr] Hv. cbn [fst] in Hv.
  destruct aerr as [e|]; [by apply gives_ret|]. destruct (watchEmpty ar); [by apply gives_ret|].
  eapply (gives_bind (fun p => Forall (accepted opts) p.1.1)).
  { unfold accepted. destruct generative.
    - eapply gives_weaken; [|apply filterNovel_gives]. intros p [H1 H2]. rewrite Forall_forall in Hv, H1 |- *.
      intros it Hit. split; [by apply Hv, H2|]. intros _. by apply H1.
    - apply gives_ret. eapply Forall_impl; [exact Hv|]. by intros it Hit. }
  intros [[batch bv] totals] Hb. cbn [fst] in Hb.
  assert (Hall : Forall (accepted opts) (its ++ batch)) by (by apply Forall_app).
  destruct (_ || _); [by apply gives_ret|]. by apply IH.
Qed.

(** Formatting only touches the variants, and stores them as they are checked. *)
Definition same_content (it it' : Item) : Prop :=
  exists f, (f = Formats it \/ exists f0, f = validateFormats rules f0 it) /\ it' = MkItem (ID it) (FeedID it) (ItemKey it) (ContentHash it) (Title it) (SummaryText it)
    (BodyHTML it) (AnswerHTML it) f (Link it) (SourceName it) (PublishedAt it) (Tags it) (Origin it)
    (CreatedAt it) (UpdatedAt it) (EditedAt it) (DeletedAt it) (Version it).

Lemma same_content_refl it : same_content it it.
Proof. exists (Formats it). split; [by left|]. by destruct it. Qed.

Lemma format_each_gives fmt rid i its :
  gives (fun p => Forall2 same_content its p.1.1) (format_each fmt rid i its).
Proof.
  revert i. induction its as [|it its IH]; intros i; cbn [format_each]; [by apply gives_ret; constructor|].
  eapply gives_bind; [apply gives_lift_any|]. intros r _.
  eapply gives_bind; [apply IH|]. intros [[out tin] tout] Hout. cbn in Hout.
  destruct r as [res|e]; apply gives_ret; cbn; constructor; try done; [|apply same_content_refl].
  eexists. split; [right; by eexists|done].
Qed.

Lemma formatItems_gives its rid : gives (fun p => Forall2 same_content its p.1.1) (formatItems its rid).
Proof.
  assert (Hid : gives (fun p => Forall2 same_content its p.1.1) (ret (its, 0, 0))).
  { apply gives_ret. cbn. induction its; constructor; [apply same_content_refl|done]. }
  unfold formatItems. destruct (Format deps); [|done]. destruct (length its =? 0)%nat; [done|].
  apply format_each_gives.
Qed.

(** The options of the feed's own kind; in a grounded feed the URLs are of
    candidates the fetcher returned. *)
Definition from_context (o : Options) : Prop :=
  opt_Kind o = fd_Kind feed /\
  (fd_Kind feed = KindGrounded -> exists w w' cands, Candidates deps (fd_ID feed) w = (Ok cands, w') /\
     forall u, u ∈ CandidateURLs o -> u ∈ sc_URL <$> cands).

Lemma acquireContext_gives now :
  gives (fun r => forall d o, r = Ok (d, o) -> from_context o) (acquireContext now).
Proof.
  unfold acquireContext. destruct (bool_decide (fd_Kind feed = KindGenerative)) eqn:Eg.
  - apply bool_decide_eq_true in Eg.
    eapply gives_bind; [apply gives_gets_any|]. intros [titles|e] _; apply gives_ret; [|done].
    intros d o [= _ <-]. split; [done|]. by rewrite Eg.
  - clear Eg. destruct (bool_decide (fd_Kind feed = KindGrounded)); [|by apply gives_ret].
    apply (gives_bind (fun r => forall c, r = Ok c -> exists w w', Candidates deps (fd_ID feed) w = (Ok c, w'))).
    { apply gives_lift. intros w c Hc. exists w. destruct (Candidates deps _ w) as [r w'] eqn:E. cbn in Hc. subst.
      by exists w'. }
    intros [cands|e] Hc; apply gives_ret; [|done].
    intros d o [= _ <-]. split; [done|]. intros _. destruct (Hc cands eq_refl) as (w & w' & E). exists w, w', cands.
    split; [done|]. cbn [CandidateURLs]. intros u. destruct (_ <? _)%Z; [|done]. rewrite fmap_take. by intros (i & ? & _)%elem_of_take; apply (list_elem_of_lookup_2 _ i).
Qed.

(** ** The one commit *)

(** What the model wrote, as far as an item carries it. *)
Definition contents (it : Item) : string * string * string * string * string * string * list string :=
  (Title it, SummaryText it, BodyHTML it, AnswerHTML it, Link it, SourceName it, Tags it).

(** [it] publishes [it0]: its content, with its variants or checked new ones. *)
Definition publishes (it0 it : Item) : Prop :=
  contents it = contents it0 /\
  (Formats it = Formats it0 \/
   exists f it1, contents it1 = contents it0 /\ Formats it = validateFormats rules f it1).

(** What a record says of its run: [its] are the items handed to the store with
    it, [e] the error of the run. *)
Record truthful (opts_ok : Item -> Prop) (r : RunRecord) (its : list Item) (e : option gen_error) : Prop := {
  tr_feed : rr_FeedID r = fd_ID feed;
  tr_added : rr_ItemsAdded r = Z.of_nat (length its);
  tr_rejected : rr_ItemsRejected r = reasons_total (rr_RejectReasons r);
  tr_cost : rr_EstCostUSD r = estimateCostUSD (rr_TokensIn r) (rr_TokensOut r) spec;
  tr_status :
    (rr_Status r = StatusCompleted /\ its <> [] /\ e = None /\ rr_ErrorKind r = ""%string) \/
    (rr_Status r = StatusSkipped /\ its = [] /\ e = None /\ rr_Embeddings r = []) \/
    (rr_Status r = StatusFailed /\ its = [] /\ e <> None /\ rr_Embeddings r = []);
  tr_cap : 0 < ItemsPerRun spec -> Z.of_nat (length its) <= ItemsPerRun spec;
  tr_items : Forall (fun it => FeedID it = fd_ID feed /\ Origin it = "generated"%string /\
                               exists it0, opts_ok it0 /\ publishes it0 it) its;
  tr_embeddings : rr_Embeddings r = [] \/ em_ItemKey <$> rr_Embeddings r = ItemKey <$> its }.

(** [m] ends in one commit of a truthful record. *)
Definition commits {A} (Post : RunRecord -> list Item -> option gen_error -> Prop)
    (m : M (RunResult * A)) (err : option gen_error -> A) : Prop :=
  forall s, exists its e, Post (Run_ (m s).1.1) its e /\
    ((StoreCommit (Run_ (m s).1.1) its s.2 = Ok (m s).2.2 /\ Items (m s).1.1 = its /\ (m s).1.2 = err e) \/
     exists cerr msg, StoreCommit (Run_ (m s).1.1) its s.2 = Err cerr /\ (m s).2.2 = s.2 /\
       Items (m s).1.1 = [] /\ (m s).1.2 = err (Some (Wrapped msg cerr))).

Lemma commits_bind {A B} (Q : B -> Prop) Post (m : M B) (k : B -> M (RunResult * A)) err :
  gives Q m -> (forall b, Q b -> commits Post (k b) err) -> commits Post (bind m k) err.
Proof.
  intros Hm Hk s. unfold bind. destruct (Hm s) as [Hs Hb]. destruct (m s) as [b s']. cbn in *.
  destruct (Hk b Hb s') as (its & e & HP & Hc). exists its, e. rewrite <- Hs. auto.
Qed.

Lemma commit_commits Post started t status kind e its embs :
  (forall finished,
     Post (MkRunRecord (fd_ID feed) started finished status kind
             (match e with Some e => error_text e | None => "" end) (IsAccountScoped e)
             (Z.of_nat (length its)) (sumReasons (t_reasons t)) (t_reasons t) embs (t_in t) (t_out t)
             (estimateCostUSD (t_in t) (t_out t) spec) (sp_Trigger spec)) its e) ->
  commits Post (commit started t status kind e its embs) id.
Proof.
  intros HP. unfold commit. eapply commits_bind; [apply gives_lift_any|]. intros finished _ s.
  exists its, e. destruct (StoreCommit _ its s.2) as [st|cerr] eqn:E; cbn; (split; [apply HP|]).
  - by left.
  - right. by eexists _, _.
Qed.

Lemma commit_empty ok started t status kind e :
  (status = StatusSkipped /\ e = None) \/ (status = StatusFailed /\ e <> None) ->
  commits (truthful ok) (commit started t status kind e [] []) id.
Proof.
  intros Hs. apply commit_commits. intros finished.
  split; cbn; try done; [|lia|by left]. right. destruct Hs as [[-> ->] | [-> He]]; [by left|by right].
Qed.

Lemma cap_items_length {A} n (l : list A) : 0 < n -> Z.of_nat (length (cap_items n l)) <= n.
Proof.
  intros Hn. unfold cap_items. destruct (n <? Z.of_nat (length l)) eqn:E; bools.
  - rewrite (proj2 (Z.ltb_lt 0 n) Hn). cbn. rewrite length_take. lia.
  - by rewrite andb_false_r.
Qed.

Lemma cap_items_elem {A} n (l : list A) x : x ∈ cap_items n l -> x ∈ l.
Proof. unfold cap_items. destruct (_ && _); [|done]. apply subseteq_take. Qed.

Lemma cap_items_nonempty {A} n (l : list A) : l <> [] -> cap_items n l <> [].
Proof.
  intros Hl. unfold cap_items. destruct (_ && _) eqn:E; [|done]. bools.
  destruct l as [|x l]; [done|]. by destruct (Z.to_nat n) eqn:En; [lia|].
Qed.

Lemma zip_keys its vecs :
  zipEmbeddings its vecs = [] \/ em_ItemKey <$> zipEmbeddings its vecs = ItemKey <$> its.
Proof.
  unfold zipEmbeddings. destruct (length vecs =? 0)%nat; [by left|].
  destruct (length vecs =? length its)%nat eqn:E; cbn [orb negb]; [right|by left].
  apply Nat.eqb_eq in E. revert vecs E. induction its as [|it its IH]; intros [|v vecs]; try done.
  cbn. intros [= E]. by rewrite IH.
Qed.

(** The items of a completed run. *)
Lemma commit_completed opts started t novelItems newest now its embs :
  Forall (accepted opts) novelItems -> novelItems <> [] ->
  Forall2 same_content (stampItems (ToLower deps) (sha256hex deps) (NewItemKey deps) (Local deps) feed
                          (cap_items (ItemsPerRun spec) novelItems) newest now) its ->
  commits (truthful (accepted opts)) (commit started t StatusCompleted "" None its (zipEmbeddings its embs)) id.
Proof.
  intros Hn Hne Hsame. pose proof (Forall2_length _ _ _ Hsame) as Hlen.
  unfold stampItems in Hlen. rewrite length_imap in Hlen.
  apply commit_commits. intros finished. split; cbn; try done.
  - left. split; [done|]. split; [|done]. intros ->. cbn in Hlen.
    apply (cap_items_nonempty (ItemsPerRun spec)) in Hne. by destruct (cap_items _ _).
  - intros Hc. rewrite <- Hlen. by apply cap_items_length.
  - apply Forall_forall. intros it (i & Hi)%list_elem_of_lookup_1.
    destruct (Forall2_lookup_r _ _ _ _ _ Hsame Hi) as (it1 & H1 & f & Hf & ->).
    unfold stampItems in H1. rewrite list_lookup_imap in H1.
    destruct (cap_items (ItemsPerRun spec) novelItems !! i) as [it0|] eqn:E0; [|done]. injection H1 as <-.
    split; [done|]. split; [done|]. exists it0. split.
    { apply list_elem_of_lookup_2, cap_items_elem in E0. by eapply Forall_forall in Hn. }
    split; [done|]. destruct Hf as [->|(f0 & ->)]; [by left|]. right. eexists f0, _. split; [|reflexivity]. done.
  - apply zip_keys.
Qed.

(** Accepted under the options of the feed. *)
Definition publishable (it : Item) : Prop := exists o, from_context o /\ accepted o it.

Lemma Run_commits : fd_Kind feed <> KindAggregate -> commits (truthful publishable) Run id.
Proof.
  intros Hk. unfold Run. rewrite bool_decide_eq_false_2 by done.
  eapply commits_bind; [apply gives_lift_any|]. intros started _.
  eapply commits_bind; [apply acquireContext_gives|].
  intros [[data opts]|e] Hopts; [|apply commit_empty; by right].
  destruct (_ && _ && _); [apply commit_empty; by left|].
  destruct (Render rules _ data) as [prompt|e]; [|apply commit_empty; by right].
  eapply commits_bind; [by apply attempts_gives; constructor|]. intros [[kind e|its vecs quiet] t] Hits.
  { apply commit_empty. by right. }
  cbn in Hits. destruct (length its =? 0)%nat eqn:El; [apply commit_empty; by left|].
  eapply commits_bind; [apply gives_gets_any|]. intros [newest|e] _; [|apply commit_empty; by right].
  eapply commits_bind; [apply gives_lift_any|]. intros now _.
  eapply commits_bind; [apply formatItems_gives|]. intros [[out fin] fout] Hout. cbn [fst] in Hout.
  intros s. edestruct (commit_completed opts) as (its' & e & HP & Hc); [exact Hits| |exact Hout|].
  { intros ->. done. }
  exists its', e. split; [|exact Hc]. destruct HP. split; try done.
  eapply Forall_impl; [eassumption|]. intros it (? & ? & it0 & ? & ?). do 2 (split; [done|]).
  exists it0. split; [|done]. exists opts. split; [by eapply Hopts|done].
Qed.

End pipeline.

(** ** The store adapter *)

(** [genStoreAdapter] on a run [ad_run]; [ad_now] is the clock at its commit and
    [ad_pre] the outcome of the store's commit hook. *)
Record Adapter := MkAdapter { ad_db : Content; ad_run : Z; ad_now : Z; ad_pre : bool }.

Definition adapter_RecentTitles (feed n : Z) (d : Content) : list string :=
  i_title <$> limit n (order_desc (fun r => formatTime (i_published_at r))
    (filter (fun r => (i_feed_id r =? feed) && bool_decide (i_deleted_at r = None) = true) (items d))).

#[export] Instance adapter_store : RunStore Adapter := {|
  RecentTitles feed n a := Ok (adapter_RecentTitles feed n (ad_db a));
  StoreNewest feed a := Ok (NewestPublished feed (ad_db a));
  StoreCommit run its a :=
    match adapter_CommitRun (ad_pre a) (ad_now a) (ad_run a) run its (ad_db a) with
    | Ok d => Ok (MkAdapter d (ad_run a) (ad_now a) (ad_pre a))
    | Err _ => Err (PlainError "store: the commit was refused")
    end |}.

(** ** How many model calls *)

(** [calls] counts the calls of [Generate]: it adds one, nothing else does. *)
Record counts {W} (deps : Deps W) (calls : W -> Z) : Prop := {
  ct_now : forall w, calls (Now deps w).2 = calls w;
  ct_generate : forall rq w, calls (Generate deps rq w).2 = calls w + 1;
  ct_format : forall f rq w, Format deps = Some f -> calls (f rq w).2 = calls w;
  ct_plain : forall check i t w, Novelty deps = PlainGate check -> calls (check i t w).2 = calls w;
  ct_vector : forall check i t w, Novelty deps = VectorGate check -> calls (check i t w).2 = calls w;
  ct_candidates : forall i w, calls (Candidates deps i w).2 = calls w }.

Section calls.
Context {W St : Type} `{RunStore St} (deps : Deps W) (rules : Rules) (feed : Feed) (spec : Spec).
Context (calls : W -> Z) (Hcalls : counts deps calls).

Definition costs {A} (n : Z) (m : W * St -> A * (W * St)) : Prop :=
  forall s, calls (m s).2.1 <= calls s.1 + n.

Lemma costs_ret {A} n (a : A) : 0 <= n -> costs n (ret a).
Proof. intros Hn s. cbn. lia. Qed.

Lemma costs_gets {A} (f : St -> A) : costs 0 (gets (W := W) f).
Proof. intros s. cbn. lia. Qed.

Lemma costs_lift {A} n (f : W -> A * W) : (forall w, calls (f w).2 <= calls w + n) -> costs n (lift f).
Proof. intros Hf s. unfold lift. specialize (Hf s.1). by destruct (f s.1). Qed.

Lemma costs_bind {A B} n k (m : W * St -> A * (W * St)) (g : A -> W * St -> B * (W * St)) :
  costs n m -> (forall a, costs k (g a)) -> costs (n + k) (bind m g).
Proof.
  intros Hm Hg s. unfold bind. specialize (Hm s). destruct (m s) as [a s']. cbn in Hm.
  specialize (Hg a s'). lia.
Qed.

Lemma costs_free {A B} n (m : W * St -> A * (W * St)) (g : A -> W * St -> B * (W * St)) :
  costs 0 m -> (forall a, costs n (g a)) -> costs n (bind m g).
Proof. intros Hm Hg. change n with (0 + n). by apply costs_bind. Qed.

Lemma costs_now : costs 0 (lift (St := St) (Now deps)).
Proof. apply costs_lift. intros w. rewrite (ct_now _ _ Hcalls). lia. Qed.

Lemma call_costs opts system prompt rid reasons : costs 1 (call (St := St) deps rules spec opts system prompt rid reasons).
Proof.
  unfold call. change 1 with (1 + 0). apply costs_bind.
  - apply costs_lift. intros w. rewrite (ct_generate _ _ Hcalls). lia.
  - intros [r|e]; [|by apply costs_ret]. destruct (validate_batch _ _ _ _ _). by apply costs_ret.
Qed.

Lemma runAttempt_costs opts system prompt rid : costs 2 (runAttempt (St := St) deps rules spec opts system prompt rid).
Proof.
  unfold runAttempt. change 2 with (1 + 1). apply costs_bind; [apply call_costs|]. intros c.
  destruct (c_valid c) as [v|e]; [|by apply costs_ret]. destruct (0 <? _)%nat; [by apply costs_ret|].
  destruct (_ && _); [by apply costs_ret|]. change 1 with (1 + 0). apply costs_bind; [apply call_costs|].
  intros c2. destruct (c_valid c2) as [v2|e]; [|by apply costs_ret]. destruct (_ =? _)%nat; by apply costs_ret.
Qed.

Lemma check_item_costs it : costs 0 (check_item (St := St) deps feed it).
Proof.
  unfold check_item. destruct (Novelty deps) as [|check|check] eqn:E; [by apply costs_ret|..];
    (apply costs_free; [apply costs_lift; intros w|intros; by apply costs_ret]).
  - rewrite (ct_plain _ _ Hcalls _ _ _ _ E). lia.
  - rewrite (ct_vector _ _ Hcalls _ _ _ _ E). lia.
Qed.

Lemma filterNovel_costs its totals : costs 0 (filterNovel (St := St) deps feed its totals).
Proof.
  assert (Hf : forall its out vecs ts, costs 0 (filter_items (St := St) deps feed its out vecs ts)).
  { clear its totals. intros its. induction its as [|it its IH]; intros out vecs ts; cbn [filter_items];
      [by apply costs_ret|].
    apply costs_free; [apply check_item_costs|]. intros [[[] v]|e]; apply IH. }
  unfold filterNovel. destruct (Novelty deps); [by apply costs_ret|apply Hf..].
Qed.

Lemma formatItems_costs its rid : costs 0 (formatItems (St := St) deps rules spec its rid).
Proof.
  unfold formatItems. destruct (Format deps) as [fmt|] eqn:E; [|by apply costs_ret].
  destruct (_ =? _)%nat; [by apply costs_ret|]. generalize 0%nat as i.
  induction its as [|it its IH]; intros i; cbn [format_each]; [by apply costs_ret|].
  apply costs_free; [apply costs_lift; intros w; rewrite (ct_format _ _ Hcalls _ _ _ E); lia|]. intros r.
  apply costs_free; [apply IH|]. intros [[out tin] tout]. destruct r; by apply costs_ret.
Qed.

Lemma acquireContext_costs now : costs 0 (acquireContext (St := St) deps feed spec now).
Proof.
  unfold acquireContext. destruct (bool_decide _).
  - apply costs_free; [apply costs_gets|]. intros [l|e]; by apply costs_ret.
  - destruct (bool_decide _); [|by apply costs_ret].
    apply costs_free; [apply costs_lift; intros w; rewrite (ct_candidates _ _ Hcalls); lia|].
    intros [l|e]; by apply costs_ret.
Qed.

Lemma attempts_costs n opts prompt rid its vecs t :
  costs (2 * Z.of_nat n) (attempts (St := St) deps rules feed spec n opts prompt rid its vecs t).
Proof.
  revert its vecs t. induction n as [|n IH]; intros its vecs t; cbn [attempts]; [by apply costs_ret|].
  replace (2 * Z.of_nat (S n)) with (2 + 2 * Z.of_nat n) by lia. apply costs_bind; [apply runAttempt_costs|].
  intros [ar aerr]. destruct aerr; [apply costs_ret; lia|]. destruct (watchEmpty ar); [apply costs_ret; lia|].
  apply costs_free; [destruct (generative feed); [apply filterNovel_costs|by apply costs_ret]|].
  intros [[batch bv] totals]. destruct (_ || _); [apply costs_ret; lia|apply IH].
Qed.

Lemma commit_costs started t status kind e its embs :
  costs 0 (commit (St := St) deps feed spec started t status kind e its embs).
Proof.
  unfold commit. apply costs_free; [apply costs_now|]. intros finished s.
  destruct (StoreCommit _ its s.2); cbn; lia.
Qed.

Lemma Run_costs : costs (2 * Z.of_nat (maxAttempts feed spec)) (Run (St := St) deps rules feed spec).
Proof.
  assert (Hc : forall started t status kind e its embs,
             costs (2 * Z.of_nat (maxAttempts feed spec)) (commit (St := St) deps feed spec started t status kind e its embs)).
  { intros. intros s. pose proof (commit_costs started t status kind e its embs s). lia. }
  unfold Run. destruct (bool_decide _); [apply costs_ret; lia|]. apply costs_free; [apply costs_now|]. intros started.
  apply costs_free; [apply acquireContext_costs|]. intros [[data opts]|e]; [|apply Hc].
  destruct (_ && _ && _); [apply Hc|]. destruct (Render rules _ data) as [prompt|e]; [|apply Hc].
  replace (2 * Z.of_nat (maxAttempts feed spec)) with (2 * Z.of_nat (maxAttempts feed spec) + 0) by lia.
  apply costs_bind; [apply attempts_costs|]. intros [[kind e|its vecs quiet] t]; [apply commit_costs|].
  destruct (_ =? _)%nat; [apply commit_costs|]. apply costs_free; [apply costs_gets|].
  intros [newest|e]; [|apply commit_costs]. apply costs_free; [apply costs_now|]. intros now.
  apply costs_free; [apply formatItems_costs|]. intros [[out fin] fout]. apply commit_costs.
Qed.

End calls.

(** ** Closing the row *)

Lemma open_update r id f d :
  r ∈ runs d -> r_id r = id -> r_status r = Running ->
  update_run id f d = Ok (set_runs (update_where (open_run id) f (runs d)) d) /\
  f r ∈ update_where (open_run id) f (runs d).
Proof.
  intros Hr Hid Hst.
  assert (Ho : open_run id r = true) by (unfold open_run, is_running; rewrite Hid, Z.eqb_refl, Hst; done).
  split; [|apply elem_of_update; exists r; by rewrite Ho].
  unfold update_run. destruct (affected (open_run id) (runs d) =? 0)%nat eqn:E; [|done].
  apply Nat.eqb_eq in E. rewrite affected_0 in E. by rewrite (E r Hr) in Ho.
Qed.

(** The status the store gives a run. *)
Definition row_status (status : string) : run_status :=
  if bool_decide (status = StatusCompleted) then Success
  else if bool_decide (status = StatusSkipped) then Skipped else Failed.

(** The row of a closed run agrees with its record. *)
Definition row_agrees (rec : RunRecord) (r r' : RunRow) : Prop :=
  same_run r r' /\ r_status r' = row_status (rr_Status rec) /\ r_tokens_in r' = rr_TokensIn rec /\
  r_tokens_out r' = rr_TokensOut rec /\ r_est_cost_usd r' = rr_EstCostUSD rec /\
  r_items_rejected r' = rr_ItemsRejected rec /\ r_reject_reasons r' = rr_RejectReasons rec.

Lemma record_reasons rec :
  rr_ItemsRejected rec = reasons_total (rr_RejectReasons rec) ->
  reasonsJSON (record_summary rec) = Ok (rr_RejectReasons rec).
Proof. intros E. unfold reasonsJSON. cbn. by rewrite E, Z.eqb_refl. Qed.

Lemma adapter_unpublished now run rec d pre r its :
  r ∈ runs d -> r_id r = run -> r_status r = Running ->
  rr_ItemsRejected rec = reasons_total (rr_RejectReasons rec) -> rr_Status rec <> StatusCompleted ->
  exists d' r', adapter_CommitRun pre now run rec its d = Ok d' /\ r' ∈ runs d' /\ row_agrees rec r r' /\
    items d' = items d.
Proof.
  intros Hr Hid Hst Hrej Hne. unfold adapter_CommitRun, row_agrees, row_status.
  rewrite bool_decide_eq_false_2 by done. case_bool_decide as Hs.
  - unfold SkipRun. cbn [rbind]. rewrite record_reasons by done. cbn [rbind].
    destruct (open_update r run (close_skipped now (rr_ErrorKind rec) (rr_RejectReasons rec) (record_summary rec)) d)
      as [-> Hin]; [done..|]. by eexists _, _.
  - unfold FailRun. rewrite record_reasons by done. cbn [rbind].
    destruct (open_update r run (close_failed now (rr_ErrorKind rec) (rr_Error rec) (rr_RejectReasons rec)
                (record_summary rec)) d) as [-> Hin]; [done..|]. by eexists _, _.
Qed.

Lemma adapter_published now run rec d pre r its d' :
  content_ok d -> r ∈ runs d -> r_id r = run -> r_status r = Running ->
  rr_ItemsRejected rec = reasons_total (rr_RejectReasons rec) -> rr_Status rec = StatusCompleted ->
  adapter_CommitRun pre now run rec its d = Ok d' ->
  exists r' new, r' ∈ runs d' /\ row_agrees rec r r' /\ items d' = items d ++ new /\ length new = length its.
Proof.
  intros Hd Hr Hid Hst Hrej Hs. unfold adapter_CommitRun. rewrite bool_decide_eq_true_2 by done. intros Hc.
  apply CommitRun_spec in Hc as (d1 & rs & m & _ & Hrs & Hc & _ & _ & ->); [|done].
  rewrite record_reasons in Hrs by done. injection Hrs as <-.
  apply commit_items_spec in Hc as (_ & _ & _ & _ & _ & _ & new & newE & Hi & _ & _ & Hn & _); [|done].
  destruct (open_update r run (close_success now (Z.of_nat (length its)) (rr_RejectReasons rec) (record_summary rec)) d)
    as [_ Hin]; [done..|].
  eexists _, new. split; [exact Hin|]. split.
  - unfold row_agrees, row_status. by rewrite bool_decide_eq_true_2.
  - split; [done|]. symmetry. by eapply Forall2_length.
Qed.

Lemma SkipRun_items now run reason s d d' : SkipRun now run reason [s] d = Ok d' -> items d' = items d.
Proof. unfold SkipRun. cbn [rbind]. destruct (reasonsJSON s); [|done]. cbn [rbind]. by intros [_ ->]%update_run_spec. Qed.

Lemma FailRun_items now run kind msg s d d' : FailRun now run kind msg s d = Ok d' -> items d' = items d.
Proof. unfold FailRun. destruct (reasonsJSON s); [|done]. cbn [rbind]. by intros [_ ->]%update_run_spec. Qed.

(** The rows a run adds are those of publishable items. *)
Lemma run_adds {W} (deps : Deps W) rules feed spec w a row :
  fd_Kind feed <> KindAggregate -> content_ok (ad_db a) ->
  row ∈ items (ad_db (Run deps rules feed spec (w, a)).2.2) ->
  row ∈ items (ad_db a) \/
  exists it0 it id, publishable deps rules feed it0 /\ publishes rules it0 it /\
    row = new_item_row id (ad_now a) (PublishedAt it) (Some (ad_run a)) it.
Proof.
  intros Hk Hd. destruct (Run_commits deps rules feed spec Hk (w, a)) as (its & e & [_ _ _ _ _ _ Hits _] & Hout).
  set (out := Run deps rules feed spec (w, a)) in *.
  set (rec := Run_ _) in *. destruct Hout as [(Hc & _)|(? & ? & _ & E2 & _)]; [|left; by rewrite E2 in *].
  cbn [snd] in Hc. unfold StoreCommit, adapter_store in Hc.
  destruct (adapter_CommitRun _ _ _ rec its (ad_db a)) as [d1|] eqn:E; [|done].
  assert (Ed : ad_db out.2.2 = d1) by (injection Hc as Hc; by rewrite <- Hc).
  rewrite Ed. clear Hc Ed. unfold adapter_CommitRun in E.
  destruct (bool_decide (rr_Status rec = StatusCompleted)).
  - apply CommitRun_spec in E as (d2 & rs & m & _ & _ & Hc & _ & _ & ->); [|done].
    apply commit_items_spec in Hc as (_ & _ & _ & _ & _ & _ & new & newE & Hi & _ & _ & Hn & _); [|done].
    cbn. rewrite Hi. intros [?|Hrow]%elem_of_app; [by left|right].
    apply list_elem_of_lookup_1 in Hrow as (i & Hrow).
    destruct (Forall2_lookup_r _ _ _ _ _ Hn Hrow) as (it & Hit & id & ->).
    apply list_elem_of_lookup_2 in Hit. rewrite Forall_forall in Hits. destruct (Hits it Hit) as (_ & _ & it0 & H1 & H2).
    by exists it0, it, id.
  - left. destruct (bool_decide _).
    + by apply SkipRun_items in E as <-.
    + by apply FailRun_items in E as <-.
Qed.

(** ** A concrete world *)

(** The world is the number of model calls made; each returns [batch]. *)
Definition demo_deps (batch : list GeneratedItem) : Deps nat :=
  MkDeps nat (fun w => (t0 + 40 * second, w))
    (fun _ w => (Ok (MkResult batch "0123456789"), S w)) None NoGate (fun _ w => (Ok [], w))
    (fun _ => None) UTC demo_key_source id id.

(** Rules that want a title. *)
Definition demo_rules : Rules :=
  MkRules (fun c o =>
             Ok (MkItem 0 0 "" "" (cd_Title c) (cd_SummaryText c) (cd_BodyHTML c) (cd_AnswerHTML c) no_formats
                   (cd_Link c) (cd_SourceName c) zero_time (cd_Tags c) "" zero_time zero_time zero_time zero_time 0,
                 if is_empty (cd_Title c) then [MkRejection "title" "title_required"] else []))
    (fun f _ => f) (fun it => Title it) (fun t _ => Ok t).

Definition demo_spec : Spec :=
  MkSpec "system" "prompt" "model" f64_zero "" 3 0 0 2 f64_zero f64_zero "cron" false false.

Definition titled (t : string) : GeneratedItem := MkGenerated t "summary" "body" "" "" [] "".

(** A run opened on the store of [d_done]. *)
Definition d_open : Content :=
  (StoreHistory.get (0, d_done) (StartRun (t0 + 30 * second) (t0 + 30 * second) 1 "cron" "host" d_done)).2.
Definition demo_adapter : Adapter := MkAdapter d_open 2 (t0 + 41 * second) true.
Definition open_row : RunRow :=
  MkRunRow 2 1 (t0 + 30 * second) None Running None None 0 0 ∅ 0 0 f64_zero "cron" (Some "host"%string)
    (Some (t0 + 30 * second)).

Lemma d_open_reachable : rtc content_step empty_content d_open.
Proof.
  eapply rtc_r; [apply d_done_reachable|].
  eapply (step_StartRun _ (t0 + 30 * second) (t0 + 30 * second) 1 "cron" "host" 2). vm_compute. reflexivity.
Qed.

Lemma open_row_in : open_row ∈ runs d_open.
Proof. right. left. Qed.

(** ** Theorems *)

(** C5: whatever happens in it, a run hands exactly one record to the store, once,
    and the record is true of the run: completed with at least one item and no
    error, skipped with neither, or failed with an error; the counts of the items
    and of the rejections are right; no more items than the limit; every item
    belongs to the feed and was accepted by the content rules and, in a
    generative feed, by the novelty gate; and the embeddings are those of the
    items in order. What [Run] returns is that record, with the items when the
    store took it, and otherwise the store's error and a store left as it was. *)
Theorem run_commits_once {W St} `{RunStore St} (deps : Deps W) rules feed spec s :
  fd_Kind feed <> KindAggregate ->
  let out := Run deps rules feed spec s in
  exists its e, truthful rules feed spec (publishable deps rules feed) (Run_ out.1.1) its e /\
    ((StoreCommit (Run_ out.1.1) its s.2 = Ok out.2.2 /\ Items out.1.1 = its /\ out.1.2 = e) \/
     exists cerr msg, StoreCommit (Run_ out.1.1) its s.2 = Err cerr /\ out.2.2 = s.2 /\
       Items out.1.1 = [] /\ out.1.2 = Some (Wrapped msg cerr)).
Proof. intros Hk out. exact (Run_commits deps rules feed spec Hk s). Qed.

Lemma run_commits_once_witness :
  let out := Run (demo_deps [titled ""; titled "A new question"]) demo_rules stored_feed demo_spec (0%nat, demo_adapter) in
  rr_Status (Run_ out.1.1) = StatusCompleted /\ rr_ItemsRejected (Run_ out.1.1) = 1 /\
  exists its e, truthful demo_rules stored_feed demo_spec (publishable (demo_deps [titled ""; titled "A new question"]) demo_rules stored_feed)
                  (Run_ out.1.1) its e.
Proof.
  split; [vm_compute; reflexivity|]. split; [vm_compute; reflexivity|].
  destruct (run_commits_once (demo_deps [titled ""; titled "A new question"]) demo_rules stored_feed demo_spec
              (0%nat, demo_adapter)) as (its & e & Ht & _); [vm_compute; discriminate|].
  exists its, e. exact Ht.
Defined.

(** C6: on the store itself, a run always closes its row in agreement with the
    record (status, tokens, cost, rejections), adding its items exactly when it
    is a success; the one exception is a completed run whose items the store
    refuses, which returns an error and changes nothing. *)
Theorem run_row_is_closed {W} (deps : Deps W) rules feed spec w a r :
  fd_Kind feed <> KindAggregate -> content_ok (ad_db a) -> r ∈ runs (ad_db a) -> r_id r = ad_run a ->
  r_status r = Running ->
  let out := Run deps rules feed spec (w, a) in
  let rec := Run_ out.1.1 in
  let d' := ad_db out.2.2 in
  (exists r' new, r' ∈ runs d' /\ row_agrees rec r r' /\ items d' = items (ad_db a) ++ new /\
     Z.of_nat (length new) = rr_ItemsAdded rec /\ (r_status r' = Success <-> new <> [])) \/
  (rr_Status rec = StatusCompleted /\ d' = ad_db a /\ out.1.2 <> None).
Proof.
  intros Hk Hd Hr Hid Hst out rec d'.
  destruct (Run_commits deps rules feed spec Hk (w, a)) as (its & e & Ht & Hout).
  fold out in Ht, Hout. fold rec in Ht, Hout. destruct Ht as [_ Hadd Hrej _ Hstatus _ _ _].
  cbn [snd] in Hout. unfold StoreCommit, adapter_store in Hout.
  destruct (decide (rr_Status rec = StatusCompleted)) as [Ec|Ec].
  - destruct (adapter_CommitRun _ _ _ rec its (ad_db a)) as [d1|err] eqn:E.
    + left. destruct Hout as [(E1 & _)|(? & ? & ? & _)]; [|done]. injection E1 as E1.
      destruct (adapter_published _ _ _ _ _ r _ _ Hd Hr Hid Hst Hrej Ec E) as (r' & new & H1 & H2 & H3 & H4).
      exists r', new. unfold d'. rewrite <- E1. cbn [ad_db]. split; [done|]. split; [done|]. split; [done|].
      split; [by rewrite H4|]. destruct H2 as (_ & -> & _). unfold row_status. rewrite bool_decide_eq_true_2 by done.
      split; [intros _ ->|done].
      destruct Hstatus as [(_ & Hne & _)|[(Hx & _)|(Hx & _)]]; [by destruct its|rewrite Ec in Hx; discriminate..].
    + right. split; [done|]. destruct Hout as [(? & _)|(cerr & msg & _ & E2 & _ & E4)]; [done|].
      unfold d'. rewrite E2, E4. done.
  - left. destruct (adapter_unpublished (ad_now a) (ad_run a) rec (ad_db a) (ad_pre a) r its)
      as (d1 & r' & E & H1 & H2 & H3); [done..|]. rewrite E in Hout.
    destruct Hout as [(E1 & _)|(? & ? & ? & _)]; [|done]. injection E1 as E1.
    exists r', []. unfold d'. rewrite <- E1. cbn [ad_db]. split; [done|]. split; [done|].
    rewrite app_nil_r. split; [done|]. split.
    + destruct Hstatus as [(? & _)|[(_ & -> & _)|(_ & -> & _)]]; [done|by rewrite Hadd..].
    + destruct H2 as (_ & -> & _). unfold row_status. rewrite bool_decide_eq_false_2 by done.
      split; [|done]. by case_bool_decide.
Qed.

(** A run whose model only returns a batch the rules reject. *)
Lemma run_row_is_closed_witness :
  let out := Run (demo_deps [titled ""]) demo_rules stored_feed demo_spec (0%nat, demo_adapter) in
  exists r', r' ∈ runs (ad_db out.2.2) /\ r_status r' = Failed /\ r_tokens_out r' = 6.
Proof.
  destruct (run_row_is_closed (demo_deps [titled ""]) demo_rules stored_feed demo_spec 0%nat demo_adapter open_row)
    as [(r' & new & H1 & H2 & _)|(H & _)].
  - vm_compute. discriminate.
  - apply reachable_ok, d_open_reachable.
  - apply open_row_in.
  - reflexivity.
  - reflexivity.
  - exists r'. split; [exact H1|]. destruct H2 as (_ & Hs & _ & Ho & _). rewrite Hs, Ho. split; vm_compute; reflexivity.
  - exfalso. vm_compute in H. discriminate H.
Defined.

(** a run makes at most two model calls per attempt, and only a generative
    feed has more than one attempt: one more for each configured retry. *)
Theorem run_model_calls_bounded {W St} `{RunStore St} (deps : Deps W) rules feed spec calls s :
  counts deps calls ->
  calls (Run deps rules feed spec s).2.1
  <= calls s.1 + 2 * (1 + (if generative feed then Z.max 0 (MaxNoveltyRetries spec) else 0)).
Proof.
  intros Hc. pose proof (Run_costs deps rules feed spec calls Hc s) as Hr. unfold maxAttempts in Hr.
  destruct (generative feed), (0 <? MaxNoveltyRetries spec) eqn:E; cbn [andb] in Hr; bools; lia.
Qed.

Lemma run_model_calls_bounded_witness :
  (Run (demo_deps [titled ""]) demo_rules stored_feed demo_spec (0%nat, demo_adapter)).2.1 = 2%nat /\
  Z.of_nat (Run (demo_deps [titled ""]) demo_rules stored_feed demo_spec (0%nat, demo_adapter)).2.1 <= 0 + 6.
Proof.
  split; [vm_compute; reflexivity|].
  apply (run_model_calls_bounded (demo_deps [titled ""]) demo_rules stored_feed demo_spec Z.of_nat (0%nat, demo_adapter)).
  split; intros; try discriminate; cbn; lia.
Defined.

(** two items with one title make a completed run that the store refuses:
    their content hashes collide. The run's row stays open with nothing
    recorded, though the run cost tokens. *)
Theorem refused_commit_loses_the_spend :
  let out := Run (demo_deps [titled "One question"; titled "One question"]) demo_rules stored_feed demo_spec
               (0%nat, demo_adapter) in
  rr_Status (Run_ out.1.1) = StatusCompleted /\ 0 < rr_TokensOut (Run_ out.1.1) /\ out.1.2 <> None /\
  open_row ∈ runs (ad_db out.2.2) /\ r_status open_row = Running /\ r_tokens_out open_row = 0.
Proof.
  split; [vm_compute; reflexivity|]. split; [vm_compute; reflexivity|]. split; [vm_compute; discriminate|].
  split; [|done]. assert (E : (Run (demo_deps [titled "One question"; titled "One question"]) demo_rules stored_feed
    demo_spec (0%nat, demo_adapter)).2.2 = demo_adapter) by (vm_compute; reflexivity).
  rewrite E. apply open_row_in.
Qed.
