(* ===== verification/Contract.v ===== *)
(** * The content contract: internal/generate/contract.go and the variants of
    formats.go

    What a model's candidate must satisfy to become an item, the checks of the
    variants, and the pipeline with these rules in the place of its interface:
    that every item a run stores is on the contract. *)

From S2P Require Import Prelude GoTime GoStrings Regexp GoURL Urlnorm Sanitize Timestamps Tables Schema StoreItems.
From S2P Require Import StoreRuns StoreSamples StoreHistory Generate Pipeline.
From Stdlib Require Import String Ascii.
Local Open Scope string_scope.
Local Open Scope Z_scope.
Local Abbreviation length := List.length.

Definition ReasonInvalidUTF8 : string := "invalid_utf8".
Definition ReasonControlChars : string := "control_chars".
Definition ReasonTitleRequired : string := "title_required".
Definition ReasonTitleTooShort : string := "title_too_short".
Definition ReasonTitleTooLong : string := "title_too_long".
Definition ReasonTitleTrailingPunct : string := "title_trailing_punctuation".
Definition ReasonSummaryRequired : string := "summary_required".
Definition ReasonSummaryHardCap : string := "summary_exceeds_hard_cap".
Definition ReasonSummaryContainsHTML : string := "summary_contains_html".
Definition ReasonBodyRequired : string := "body_html_required".
Definition ReasonBodyRelativeLink : string := "body_html_relative_link".
Definition ReasonAnswerLeaked : string := "answer_leaked_into_summary".
Definition ReasonTagsTooMany : string := "tags_too_many".
Definition ReasonTagsNotLowercase : string := "tags_not_lowercase".
Definition ReasonLinkRequiredGrounded : string := "link_required_grounded".
Definition ReasonLinkInvalid : string := "link_invalid".
Definition ReasonLinkNotCandidate : string := "link_not_in_candidate_set".

Inductive link_error := ErrLinkEmpty | ErrLinkInvalid | ErrLinkNotInCandidates.

Definition titleMinLen : Z := 10.
Definition titleMaxLen : Z := 200.
Definition summaryHardCap : Z := 500.
Definition maxTags : Z := 6.

(** The runes [. , ! ? ; :]. *)
Definition trailingPunct (r : Z) : bool := bool_decide (r ∈ [46; 44; 33; 63; 59; 58]).

(** [<\s*/?\s*[a-zA-Z]]. *)
Definition htmlTagRe : re :=
  lit "<" then_ Many true re_space then_ opt (lit "/") then_ Many true re_space then_ Class is_letter.

(** [(?is)<a\b[^>]*?\bhref\s*=\s*] and then a quoted or a bare value. *)
Definition anchorHrefRe : re :=
  lit "<" then_ Class (either_case "a") then_ Boundary then_ Many false (none_of [">"%char]) then_ Boundary then_
  Class (either_case "h") then_ Class (either_case "r") then_ Class (either_case "e") then_ Class (either_case "f") then_
  Many true re_space then_ lit "=" then_ Many true re_space then_
  Alt (lit dquote then_ Group 1 (Many true (none_of [dquote])) then_ lit dquote)
      (Alt (lit "'" then_ Group 2 (Many true (none_of ["'"%char])) then_ lit "'")
           (Group 3 (plus (fun c => negb (re_space c) && negb (Ascii.eqb c ">"))))).

(** [(?s)<[^>]*>]. *)
Definition stripTagsRe : re := lit "<" then_ Many true (none_of [">"%char]) then_ lit ">".

Definition firstNonEmpty (vals : list string) : string :=
  default "" (List.find (fun v => negb (is_empty v)) vals).

Definition plainText (html : string) : string := TrimSpace (delete_all stripTagsRe html).

Definition isForbiddenControl (r : Z) : bool :=
  if (r =? 9) || (r =? 10) || (r =? 13) then false
  else (r <? 32) || ((127 <=? r) && (r <=? 159)) || (r =? 65534) || (r =? 65535).

Definition utf8ValidNoControls (v : string) : bool := ValidString v && forallb (fun r => negb (isForbiddenControl r)) (runes v).

(** [strings.Contains]. *)
Definition Contains (s p : string) : bool := match find_sub p s with Some _ => true | None => false end.

Definition linkErrorReason (e : link_error) : string :=
  match e with
  | ErrLinkEmpty => ReasonLinkRequiredGrounded
  | ErrLinkNotInCandidates => ReasonLinkNotCandidate
  | ErrLinkInvalid => ReasonLinkInvalid
  end.

(** The links of the anchors of a text. *)
Definition hrefs (html : string) : list string :=
  (fun m => firstNonEmpty [submatch m 1; submatch m 2; submatch m 3]) <$> FindAllStringSubmatch anchorHrefRe html.

Definition when (b : bool) (field reason : string) : list Rejection := if b then [MkRejection field reason] else [].

Section contract.
(** [strings.ToLower] on Unicode, and what [net/url] leaves open. *)
Context (lower : string -> string) (parseIPLiteral : string -> option string) (strictColons : string -> bool).

Definition isAbsoluteURL (raw : string) : bool :=
  match Parse parseIPLiteral strictColons (TrimSpace raw) with
  | Some u => negb (is_empty (Scheme u)) && negb (is_empty (Host u))
  | None => false
  end.

Definition CheckLink (link : string) (candidates : list string) : option link_error :=
  if is_empty link then Some ErrLinkEmpty
  else match Normalize lower parseIPLiteral strictColons link with
       | Err _ => Some ErrLinkInvalid
       | Ok n => if existsb (fun c => match Normalize lower parseIPLiteral strictColons c with
                                      | Ok m => String.eqb n m
                                      | Err _ => false
                                      end) candidates
                 then None else Some ErrLinkNotInCandidates
       end.

(** The encoding of one field. *)
Definition check_encoding (field v : string) : list Rejection :=
  if negb (ValidString v) then [MkRejection field ReasonInvalidUTF8]
  else when (existsb isForbiddenControl (runes v)) field ReasonControlChars.

Definition check_title (title : string) : list Rejection :=
  if is_empty title then [MkRejection "title" ReasonTitleRequired]
  else
    let n := RuneCountInString title in
    when (n <? titleMinLen) "title" ReasonTitleTooShort ++
    when (titleMaxLen <? n) "title" ReasonTitleTooLong ++
    when (match last (runes title) with Some r => trailingPunct r | None => false end) "title" ReasonTitleTrailingPunct.

Definition check_summary (summary : string) : list Rejection :=
  if is_empty summary then [MkRejection "summary_text" ReasonSummaryRequired]
  else
    when (summaryHardCap <? RuneCountInString summary) "summary_text" ReasonSummaryHardCap ++
    when (MatchString htmlTagRe summary) "summary_text" ReasonSummaryContainsHTML.

(** One rejection for any number of relative links. *)
Definition check_links (field html : string) : list Rejection :=
  when (existsb (fun h => negb (isAbsoluteURL h)) (hrefs html)) field ReasonBodyRelativeLink.

Definition check_body (raw : string) : list Rejection :=
  if is_empty (TrimSpace raw) then [MkRejection "body_html" ReasonBodyRequired] else check_links "body_html" raw.

Definition check_leak (answer summary : string) : list Rejection :=
  let answerText := plainText answer in
  when (negb (is_empty answerText) && negb (is_empty summary) && Contains (lower summary) (lower answerText))
    "summary_text" ReasonAnswerLeaked.

Definition check_tags (tags : list string) : list Rejection :=
  when (maxTags <? Z.of_nat (length tags)) "tags" ReasonTagsTooMany ++
  when (existsb (fun t => negb (String.eqb t (lower t))) tags) "tags" ReasonTagsNotLowercase.

Definition check_link (link : string) (opts : Options) : list Rejection :=
  if bool_decide (opt_Kind opts = KindGrounded) then
    match CheckLink link (CandidateURLs opts) with
    | Some e => [MkRejection "link" (linkErrorReason e)]
    | None => []
    end
  else when (negb (is_empty link) && negb (isAbsoluteURL link)) "link" ReasonLinkInvalid.

Definition no_item : Item :=
  MkItem 0 0 "" "" "" "" "" "" no_formats "" "" zero_time [] "" zero_time zero_time zero_time zero_time 0.

Definition Validate (c : Candidate) (opts : Options) : result gen_error (Item * list Rejection) :=
  if negb (bool_decide (opt_Kind opts ∈ [KindGenerative; KindGrounded; KindAggregate]))
  then Err (PlainError ("generate: unknown feed kind " ++ String dquote (opt_Kind opts) ++ String dquote ""))
  else
    let title := TrimSpace (cd_Title c) in
    let summary := TrimSpace (cd_SummaryText c) in
    let link := TrimSpace (cd_Link c) in
    let sanitizedBody := if is_empty (TrimSpace (cd_BodyHTML c)) then "" else HTML (cd_BodyHTML c) in
    let rejections := (check_encoding "title" (cd_Title c) ++ check_encoding "summary_text" (cd_SummaryText c) ++
      check_encoding "body_html" (cd_BodyHTML c) ++ check_encoding "answer_html" (cd_AnswerHTML c) ++
      check_title title ++ check_summary summary ++ check_body (cd_BodyHTML c) ++
      check_leak (cd_AnswerHTML c) summary ++ check_links "answer_html" (cd_AnswerHTML c) ++
      check_tags (cd_Tags c) ++ check_link link opts)%list in
    if (0 <? length rejections)%nat then Ok (no_item, rejections)
    else Ok (MkItem 0 0 "" "" title summary sanitizedBody (HTML (cd_AnswerHTML c)) no_formats link
               (TrimSpace (cd_SourceName c)) zero_time (cd_Tags c) "" zero_time zero_time zero_time zero_time 0, []).

(** ** The variants *)

Definition cleanHTML (v : string) : string :=
  let v := TrimSpace v in
  if is_empty v then ""
  else if existsb (fun h => negb (isAbsoluteURL h)) (hrefs v) then ""
  else HTML v.

(** The cap is on bytes, and half as much again. *)
Definition cleanText (answerText v : string) (max : Z) : string :=
  let v := TrimSpace v in
  if is_empty v || MatchString htmlTagRe v || negb (utf8ValidNoControls v) then ""
  else if (0 <? max) && (max * 3 / 2 <? Z.of_nat (String.length v)) then ""
  else if negb (is_empty answerText) && Contains (lower v) answerText then ""
  else v.

Definition dropIfSame (v raw : string) : string := if String.eqb v raw then "" else v.

Definition validateFormats (f : ItemFormats) (it : Item) : ItemFormats :=
  let answerText := lower (plainText (AnswerHTML it)) in
  let encoded v := if utf8ValidNoControls v then v else "" in
  MkFormats (dropIfSame (encoded (cleanHTML (FeedHTML f))) (BodyHTML it))
            (dropIfSame (cleanText answerText (CardText f) 280) (SummaryText it))
            (dropIfSame (cleanText answerText (EmbedText f) 180) (SummaryText it))
            (dropIfSame (encoded (cleanHTML (PageHTML f))) (BodyHTML it)).

End contract.

Example hrefs_ex : hrefs "<A class=x HREF = 'https://a/b'>x</a> <abbr href=q> <a href=/rel>" = ["https://a/b"; "/rel"].
Proof. vm_compute. reflexivity. Qed.
Example tag_ex : MatchString htmlTagRe "a < b" = true /\ MatchString htmlTagRe "1 <3 ok" = false /\
  plainText " <p>Yes<br/> no</p>" = "Yes no".
Proof. vm_compute. done. Qed.

(** ** What the checks decide *)

Lemma when_nil b field reason : when b field reason = [] <-> b = false.
Proof. by destruct b. Qed.

Lemma existsb_false {A} (f : A -> bool) l : existsb f l = false <-> Forall (fun x => f x = false) l.
Proof. induction l as [|x l IH]; cbn; [done|]. by rewrite orb_false_iff, IH, Forall_cons. Qed.

Lemma existsb_negb {A} (f : A -> bool) l : existsb f l = negb (forallb (fun x => negb (f x)) l).
Proof. induction l as [|x l IH]; cbn; [done|]. by rewrite IH, negb_andb, negb_involutive. Qed.

Lemma Contains_spec s p : Contains s p = true <-> exists a b, s = a ++ p ++ b.
Proof.
  unfold Contains. pose proof (find_sub_spec p s) as H. destruct (find_sub p s) as [[x y]|].
  - split; [|done]. intros _. by exists x, y.
  - split; [done|]. intros (a & b & Hs). by destruct (H a b).
Qed.

(** No tag: no [<] followed by a letter, but for white space and a slash. *)
Definition no_tag (s : string) : Prop :=
  forall a w1 slash w2 l b, s = a ++ "<" ++ w1 ++ slash ++ w2 ++ String l b ->
    all_bytes re_space w1 = true -> slash = "" \/ slash = "/" -> all_bytes re_space w2 = true ->
    is_letter l = false.

Ltac lang_inv := repeat match goal with
  | H : lang (Seq _ _) _ _ _ |- _ => inversion H; subst; clear H
  | H : lang (Class _) _ _ _ |- _ => inversion H; subst; clear H
  | H : lang (Many _ _) _ _ _ |- _ => inversion H; subst; clear H
  | H : lang Eps _ _ _ |- _ => inversion H; subst; clear H
  | H : lang (lit _) _ _ _ |- _ => unfold lit in H
  end.

Lemma lang_htmlTagRe prev m next :
  lang htmlTagRe prev m next <->
  exists w1 slash w2 l, m = "<" ++ w1 ++ slash ++ w2 ++ String l "" /\ all_bytes re_space w1 = true /\
    (slash = "" \/ slash = "/") /\ all_bytes re_space w2 = true /\ is_letter l = true.
Proof.
  unfold htmlTagRe, opt. split.
  - intros H. lang_inv.
    match goal with H : lang (Alt _ _) _ _ _ |- _ => inversion H; subst; clear H end; lang_inv;
      repeat match goal with H : is_byte _ _ = true |- _ => apply Ascii.eqb_eq in H; subst end.
    + eexists _, "/", _, _. split; [reflexivity|]. repeat (split; [done||by right|]). done.
    + eexists _, "", _, _. split; [reflexivity|]. repeat (split; [done||by left|]). done.
  - intros (w1 & slash & w2 & l & -> & H1 & Hs & H2 & Hl).
    apply lang_seq; [by apply lang_class|]. apply lang_seq; [by apply lang_many|].
    apply lang_seq; [|apply lang_seq; [by apply lang_many|by apply lang_class]].
    destruct Hs as [->| ->]; [apply lang_alt_r, lang_eps|apply lang_alt_l; by apply lang_class].
Qed.

Lemma no_tag_spec s : MatchString htmlTagRe s = false <-> no_tag s.
Proof.
  rewrite <- not_true_iff_false, MatchString_spec. split.
  - intros Hn a w1 slash w2 l b -> H1 Hs H2. destruct (is_letter l) eqn:El; [|done]. exfalso. apply Hn.
    exists a, ("<" ++ w1 ++ slash ++ w2 ++ String l ""), b. split.
    { rewrite !str_app_assoc. done. }
    apply lang_htmlTagRe. exists w1, slash, w2, l. auto.
  - intros Hn (a & m & b & -> & Hm). apply lang_htmlTagRe in Hm as (w1 & slash & w2 & l & -> & H1 & Hs & H2 & Hl).
    rewrite (Hn a w1 slash w2 l b) in Hl; [done| |done..]. by rewrite !str_app_assoc.
Qed.

Lemma check_encoding_nil field v : check_encoding field v = [] <-> utf8ValidNoControls v = true.
Proof.
  unfold check_encoding, utf8ValidNoControls. destruct (ValidString v); [|done]. cbn [negb andb].
  rewrite when_nil, existsb_negb. by destruct (forallb _ _).
Qed.

Section contract_spec.
Context (lower : string -> string) (parseIPLiteral : string -> option string) (strictColons : string -> bool).
Local Abbreviation absolute := (isAbsoluteURL parseIPLiteral strictColons).
Local Abbreviation normal := (Normalize lower parseIPLiteral strictColons).

(** What the rules ask of a candidate. *)
Record contract (c : Candidate) (o : Options) : Prop := {
  ct_encoding : Forall (fun v => utf8ValidNoControls v = true)
                  [cd_Title c; cd_SummaryText c; cd_BodyHTML c; cd_AnswerHTML c];
  ct_title : titleMinLen <= RuneCountInString (TrimSpace (cd_Title c)) <= titleMaxLen;
  ct_title_end : forall l r, runes (TrimSpace (cd_Title c)) = (l ++ [r])%list -> trailingPunct r = false;
  ct_summary : TrimSpace (cd_SummaryText c) <> "" /\ RuneCountInString (TrimSpace (cd_SummaryText c)) <= summaryHardCap;
  ct_summary_plain : no_tag (TrimSpace (cd_SummaryText c));
  ct_body : TrimSpace (cd_BodyHTML c) <> "";
  ct_links : Forall (fun h => absolute h = true) (hrefs (cd_BodyHTML c) ++ hrefs (cd_AnswerHTML c));
  ct_leak : plainText (cd_AnswerHTML c) <> "" ->
    forall a b, lower (TrimSpace (cd_SummaryText c)) <> a ++ lower (plainText (cd_AnswerHTML c)) ++ b;
  ct_tags : Z.of_nat (length (cd_Tags c)) <= maxTags /\ Forall (fun t => t = lower t) (cd_Tags c);
  ct_link : if bool_decide (opt_Kind o = KindGrounded)
            then TrimSpace (cd_Link c) <> "" /\
                 exists cand n, cand ∈ CandidateURLs o /\ normal (TrimSpace (cd_Link c)) = Ok n /\ normal cand = Ok n
            else TrimSpace (cd_Link c) = "" \/ absolute (TrimSpace (cd_Link c)) = true }.

(** The item of a candidate. *)
Definition item_of (c : Candidate) : Item :=
  MkItem 0 0 "" "" (TrimSpace (cd_Title c)) (TrimSpace (cd_SummaryText c)) (HTML (cd_BodyHTML c))
    (HTML (cd_AnswerHTML c)) no_formats (TrimSpace (cd_Link c)) (TrimSpace (cd_SourceName c)) zero_time (cd_Tags c) ""
    zero_time zero_time zero_time zero_time 0.

Lemma check_title_nil t :
  check_title t = [] <->
  titleMinLen <= RuneCountInString t <= titleMaxLen /\ (forall l r, runes t = (l ++ [r])%list -> trailingPunct r = false).
Proof.
  unfold check_title. destruct (is_empty t) eqn:E.
  { apply bool_decide_eq_true in E as ->. split; [done|]. intros [[H _] _]. by cbv in H. }
  rewrite !app_nil, !when_nil, !Z.ltb_ge. split.
  - intros (H1 & H2 & H3). split; [done|]. intros l r Hr. by rewrite Hr, last_snoc in H3.
  - intros ([H1 H2] & H3). split; [done|]. split; [done|].
    destruct (last (runes t)) as [r|] eqn:El; [|done]. apply last_Some in El as (l & El). by eapply H3.
Qed.

Lemma check_summary_nil s :
  check_summary s = [] <-> (s <> "" /\ RuneCountInString s <= summaryHardCap) /\ no_tag s.
Proof.
  unfold check_summary. destruct (is_empty s) eqn:E.
  { apply bool_decide_eq_true in E as ->. split; [done|]. by intros [[H _] _]. }
  apply is_empty_false in E. rewrite app_nil, !when_nil, Z.ltb_ge, no_tag_spec. naive_solver.
Qed.

Lemma check_links_nil field html :
  check_links parseIPLiteral strictColons field html = [] <-> Forall (fun h => absolute h = true) (hrefs html).
Proof.
  unfold check_links. rewrite when_nil, existsb_false. apply Forall_iff. intros h. by rewrite negb_false_iff.
Qed.

Lemma check_body_nil raw :
  check_body parseIPLiteral strictColons raw = [] <->
  TrimSpace raw <> "" /\ Forall (fun h => absolute h = true) (hrefs raw).
Proof.
  unfold check_body. destruct (is_empty (TrimSpace raw)) eqn:E.
  - apply bool_decide_eq_true in E. split; [done|]. by intros [? _].
  - apply is_empty_false in E. rewrite check_links_nil. naive_solver.
Qed.

Lemma check_leak_nil answer summary :
  summary <> "" ->
  check_leak lower answer summary = [] <->
  (plainText answer <> "" -> forall a b, lower summary <> a ++ lower (plainText answer) ++ b).
Proof.
  intros Hs%is_empty_false. unfold check_leak. rewrite when_nil, Hs, <- is_empty_false.
  destruct (is_empty (plainText answer)); [done|]. cbn [negb andb].
  rewrite <- not_true_iff_false, Contains_spec. naive_solver.
Qed.

Lemma check_tags_nil tags :
  check_tags lower tags = [] <-> Z.of_nat (length tags) <= maxTags /\ Forall (fun t => t = lower t) tags.
Proof.
  unfold check_tags. rewrite app_nil, !when_nil, Z.ltb_ge, existsb_false.
  setoid_rewrite negb_false_iff. by setoid_rewrite String.eqb_eq.
Qed.

Lemma CheckLink_None link cands :
  CheckLink lower parseIPLiteral strictColons link cands = None <->
  link <> "" /\ exists cand n, cand ∈ cands /\ normal link = Ok n /\ normal cand = Ok n.
Proof.
  unfold CheckLink. destruct (is_empty link) eqn:E.
  { apply bool_decide_eq_true in E. split; [done|]. by intros [? _]. }
  apply is_empty_false in E. destruct (normal link) as [n|e] eqn:En; [|naive_solver].
  destruct (existsb _ cands) eqn:Ex.
  - split; [|done]. intros _. split; [done|]. apply existsb_exists in Ex as (cand & Hin & Hc).
    apply list_elem_of_In in Hin. destruct (normal cand) as [m|] eqn:Em; [|done]. apply String.eqb_eq in Hc as ->.
    by exists cand, m.
  - split; [done|]. intros (_ & cand & m & Hin & [= ->] & Hm). rewrite existsb_false, Forall_forall in Ex.
    specialize (Ex cand Hin). rewrite Hm in Ex. by rewrite String.eqb_refl in Ex.
Qed.

Lemma check_link_nil link o :
  check_link lower parseIPLiteral strictColons link o = [] <->
  if bool_decide (opt_Kind o = KindGrounded)
  then link <> "" /\ exists cand n, cand ∈ CandidateURLs o /\ normal link = Ok n /\ normal cand = Ok n
  else link = "" \/ absolute link = true.
Proof.
  unfold check_link. destruct (bool_decide _).
  - rewrite <- CheckLink_None. by destruct (CheckLink _ _ _ _ _).
  - rewrite when_nil, andb_false_iff, !negb_false_iff. unfold is_empty. by rewrite bool_decide_eq_true.
Qed.

Definition known_kind (o : Options) : Prop := opt_Kind o ∈ [KindGenerative; KindGrounded; KindAggregate].

Lemma Validate_spec c o :
  match Validate lower parseIPLiteral strictColons c o with
  | Err _ => ~ known_kind o
  | Ok (it, []) => known_kind o /\ contract c o /\ it = item_of c
  | Ok (it, _ :: _) => known_kind o /\ ~ contract c o /\ it = no_item
  end.
Proof.
  unfold Validate. case_bool_decide as Hk; cbn [negb]; [|done].
  assert (Hct : forall s1 s2 s3 s4, (check_encoding s1 (cd_Title c) ++ check_encoding s2 (cd_SummaryText c) ++
      check_encoding s3 (cd_BodyHTML c) ++ check_encoding s4 (cd_AnswerHTML c) ++
      check_title (TrimSpace (cd_Title c)) ++ check_summary (TrimSpace (cd_SummaryText c)) ++
      check_body parseIPLiteral strictColons (cd_BodyHTML c) ++
      check_leak lower (cd_AnswerHTML c) (TrimSpace (cd_SummaryText c)) ++
      check_links parseIPLiteral strictColons "answer_html" (cd_AnswerHTML c) ++
      check_tags lower (cd_Tags c) ++ check_link lower parseIPLiteral strictColons (TrimSpace (cd_Link c)) o)%list = []
      <-> contract c o).
  { intros s1 s2 s3 s4. rewrite !app_nil, !check_encoding_nil, check_title_nil, check_summary_nil, check_body_nil,
      check_links_nil, check_tags_nil, check_link_nil. split.
    - intros (H1 & H2 & H3 & H4 & (H5 & H6) & (H7 & H8) & (H9 & H10) & H11 & H12 & H13 & H14).
      rewrite check_leak_nil in H11 by apply H7. split; try done; [|by apply Forall_app]. by repeat constructor.
    - intros [H1 H2 H3 H4 H5 H6 H7 H8 H9 H10]. rewrite !Forall_cons in H1. apply Forall_app in H7 as [H7 H7'].
      destruct H1 as (? & ? & ? & ? & _). rewrite check_leak_nil by apply H4. done. }
  match goal with |- context [(0 <? length ?l)%nat] => set (rej := l) in * end.
  specialize (Hct "title" "summary_text" "body_html" "answer_html"). fold rej in Hct.
  destruct rej as [|r rej]; cbn [length Nat.ltb Nat.leb].
  - assert (contract c o) as Hc by (by apply Hct). split; [done|]. split; [done|].
    pose proof (ct_body _ _ Hc) as Hb. apply is_empty_false in Hb. by rewrite Hb.
  - split; [done|]. split; [|done]. intros Hc%Hct. done.
Qed.

(** ** The variants *)

(** What a variant that is shown as markup, or as a line of text, satisfies. *)
Definition html_variant (v : string) : Prop := markup safe_link [] v [] /\ utf8ValidNoControls v = true.
Definition text_variant (answer : string) (max : Z) (v : string) : Prop :=
  no_tag v /\ utf8ValidNoControls v = true /\ Z.of_nat (String.length v) <= max * 3 / 2 /\
  (lower (plainText answer) <> "" -> v = "" \/ forall a b, lower v <> a ++ lower (plainText answer) ++ b).

Lemma html_variant_checked v raw :
  html_variant (dropIfSame (let h := cleanHTML parseIPLiteral strictColons v in
                            if utf8ValidNoControls h then h else "") raw).
Proof.
  assert (H0 : html_variant "") by (split; [constructor|reflexivity]).
  unfold dropIfSame. destruct (String.eqb _ _); [done|]. cbn zeta.
  destruct (utf8ValidNoControls (cleanHTML _ _ v)) eqn:E; [|done]. split; [|done].
  unfold cleanHTML. destruct (is_empty _); [constructor|]. destruct (existsb _ _); [constructor|]. apply HTML_markup.
Qed.

Lemma text_variant_checked answer v max raw :
  0 < max -> text_variant answer max (dropIfSame (cleanText lower (lower (plainText answer)) v max) raw).
Proof.
  intros Hm. assert (H0 : text_variant answer max "").
  { split; [apply no_tag_spec; reflexivity|]. split; [done|]. split; [cbn; apply Z.div_pos; lia|]. by left. }
  unfold dropIfSame. destruct (String.eqb _ _); [done|]. unfold cleanText.
  destruct (is_empty (TrimSpace v)); [done|]. destruct (MatchString htmlTagRe (TrimSpace v)) eqn:Et; [done|].
  destruct (utf8ValidNoControls (TrimSpace v)) eqn:Eu; [|done]. cbn [orb negb].
  rewrite (proj2 (Z.ltb_lt 0 max) Hm). cbn [andb]. destruct (_ <? _) eqn:El; [done|]. apply Z.ltb_ge in El.
  destruct (is_empty (lower (plainText answer))) eqn:Ea; cbn [negb andb].
  { apply bool_decide_eq_true in Ea. split; [by apply no_tag_spec|]. by rewrite Ea. }
  destruct (Contains _ _) eqn:Ec; [done|]. split; [by apply no_tag_spec|]. do 2 (split; [done|]).
  intros _. right. intros a b Hab. rewrite <- not_true_iff_false, Contains_spec in Ec. apply Ec. by exists a, b.
Qed.

Definition formats_ok (answer : string) (f : ItemFormats) : Prop :=
  html_variant (FeedHTML f) /\ html_variant (PageHTML f) /\
  text_variant answer 280 (CardText f) /\ text_variant answer 180 (EmbedText f).

Lemma validateFormats_ok f it : formats_ok (AnswerHTML it) (validateFormats lower parseIPLiteral strictColons f it).
Proof. repeat split; apply html_variant_checked || apply text_variant_checked; lia. Qed.

Lemma no_formats_ok answer : formats_ok answer no_formats.
Proof. apply (validateFormats_ok no_formats (MkItem 0 0 "" "" "" "" "" answer no_formats "" "" 0 [] "" 0 0 0 0 0)). Qed.

End contract_spec.

(** ** The prompt of stage 2 *)

(** A string as [encoding/json] writes it: [<], [>], [&], control characters and
    the two line separators escaped, U+FFFD for what is not UTF-8. *)
Definition json_byte (c : ascii) : string :=
  let n := code c in
  if Ascii.eqb c dquote then String "\" (String dquote "")
  else if Ascii.eqb c "\" then "\\"
  else if n =? 8 then "\b" else if n =? 12 then "\f" else if n =? 10 then "\n" else if n =? 13 then "\r"
  else if n =? 9 then "\t"
  else if (n <? 32) || one_of "<>&" c
  then "\u00" ++ String (digit_char (n / 16)) (String (lower_ascii (upperhex (n mod 16))) "")
  else String c "".

Fixpoint json_from (fuel : nat) (s : string) : string :=
  match fuel, s with
  | S fuel', String c r =>
      if code c <? 128 then json_byte c ++ json_from fuel' r
      else match rune_len s with
           | Some k =>
               let v := rune_value k s in
               (if v =? 8232 then "\u2028" else if v =? 8233 then "\u2029" else substring 0 k s)
               ++ json_from fuel' (substring k (String.length s - k) s)
           | None => "\ufffd" ++ json_from fuel' r
           end
  | _, _ => ""
  end.
Definition json_string (s : string) : string := String dquote (json_from (String.length s) s) ++ String dquote "".

(** The keys of a map are written in order. *)
Definition formatItemPrompt (it : Item) : string :=
  let field k v := (json_string k ++ ":" ++ json_string v)%string in
  let fields := ((if is_empty (AnswerHTML it) then [] else [field "answer_html" (AnswerHTML it)]) ++
                [field "body_html" (BodyHTML it)] ++
                (if is_empty (Link it) then [] else [field "link" (Link it)]) ++
                [field "summary_text" (SummaryText it); field "title" (Title it)])%list in
  "Reformat this item for the four surfaces:" ++ String "010" ("{" ++ Join fields "," ++ "}").

(** ** The pipeline on the contract *)

Section published.
Context (lower : string -> string) (parseIPLiteral : string -> option string) (strictColons : string -> bool).
Context (Render : string -> Data -> result gen_error string).

Definition contract_rules : Rules :=
  MkRules (Validate lower parseIPLiteral strictColons) (validateFormats lower parseIPLiteral strictColons)
    formatItemPrompt Render.

(** The row shows a candidate that keeps the contract, with safe markup and
    checked variants. *)
Record row_on_contract (c : Candidate) (row : ItemRow) : Prop := {
  rc_title : i_title row = TrimSpace (cd_Title c);
  rc_summary : i_summary_text row = TrimSpace (cd_SummaryText c);
  rc_link : of_null (i_link row) = TrimSpace (cd_Link c);
  rc_body : i_body_html row = HTML (cd_BodyHTML c) /\ markup safe_link [] (i_body_html row) [];
  rc_answer : of_null (i_answer_html row) = HTML (cd_AnswerHTML c) /\ markup safe_link [] (of_null (i_answer_html row)) [];
  rc_formats : forall f, i_formats row = Some f -> formats_ok lower (of_null (i_answer_html row)) f }.

Lemma published_row c it it0 id now published run :
  it0 = item_of c -> publishes contract_rules it0 it ->
  row_on_contract c (new_item_row id now published run it).
Proof.
  intros -> [Hc Hf]. unfold contents, item_of in Hc. cbn in Hc. injection Hc as Ht Hs Hb Ha Hl _ _.
  split; cbn; rewrite ?nullString_roundtrip; try done.
  - rewrite Hb. split; [done|apply HTML_markup].
  - rewrite Ha. split; [done|apply HTML_markup].
  - intros f. unfold encodeFormats. destruct (Empty (Formats it)); [done|]. intros [= <-].
    destruct Hf as [->|(f0 & it1 & Hc1 & ->)]; [exact (no_formats_ok lower parseIPLiteral strictColons _)|].
    unfold contents in Hc1. cbn in Hc1. injection Hc1 as _ _ _ Ha1 _ _ _. rewrite Ha, <- Ha1. apply validateFormats_ok.
Qed.

End published.

(** C25: [Validate] accepts exactly the candidates that keep the contract (the
    encoding of every field, the length and the end of the title, a plain summary
    within its cap that does not give the answer away, only absolute links in the
    markup, few lower-case tags, and a link that is a fetched candidate's in a
    grounded feed or empty or absolute elsewhere), and returns their item with
    the markup sanitized; any other candidate is returned with a rejection and no
    item, and an unknown kind of feed is an error. *)
Theorem validate_exact lower parseIPLiteral strictColons c o :
  match Validate lower parseIPLiteral strictColons c o with
  | Err _ => ~ known_kind o
  | Ok (it, []) => known_kind o /\ contract lower parseIPLiteral strictColons c o /\ it = item_of c
  | Ok (it, _ :: _) => known_kind o /\ ~ contract lower parseIPLiteral strictColons c o /\ it = no_item
  end.
Proof. apply Validate_spec. Qed.

(** C7: end to end, from the model's answer to the database: every item row there
    after a run was there before, or shows a candidate that keeps the contract
    under the options of this run (in a grounded feed, a link of an article the
    fetcher returned), with its body and its answer sanitized to well-nested
    markup of the allowlist, and variants that are sanitized markup, or plain
    text within their caps that do not give the answer away. *)
Theorem stored_items_on_contract {W} lower parseIPLiteral strictColons Render (deps : Deps W) feed spec w a row :
  fd_Kind feed <> KindAggregate -> content_ok (ad_db a) ->
  row ∈ items (ad_db (Run deps (contract_rules lower parseIPLiteral strictColons Render) feed spec (w, a)).2.2) ->
  row ∈ items (ad_db a) \/
  exists c o, from_context deps feed o /\ contract lower parseIPLiteral strictColons c o /\
    row_on_contract lower c row.
Proof.
  intros Hk Hd [?|(it0 & it & id & (o & Ho & (gi & Hv) & _) & Hp & ->)]%run_adds; [by left| |done..].
  right. pose proof (Validate_spec lower parseIPLiteral strictColons (toCandidate gi) o) as Hs.
  cbn in Hv. rewrite Hv in Hs. destruct Hs as (_ & Hc & Hit). exists (toCandidate gi), o.
  split; [done|]. split; [done|]. by eapply published_row.
Qed.

Definition demo_contract : Rules :=
  contract_rules GoStrings.ToLower (fun _ => None) http_only (fun t _ => Ok t).
Definition demo_candidate (body : string) : GeneratedItem :=
  MkGenerated "Which studio made it?" "A question about an opening" body "" "" ["anime"] "<p>Gainax</p>".
Definition demo_batch : list GeneratedItem :=
  [demo_candidate "<p>Short</p>";
   MkGenerated "Which studio drew the film" "A question about an opening" "<p>See <a href='https://example.org/a'>this</a></p><script>x</script>"
     "" "" ["anime"] "<p>Gainax</p>"].

(** A run over a batch of which one candidate ends its title with a question
    mark and one keeps the contract. *)
Lemma stored_items_on_contract_witness :
  let out := Run (demo_deps demo_batch) demo_contract stored_feed demo_spec (0%nat, demo_adapter) in
  exists row, row ∈ items (ad_db out.2.2) /\ row ∉ items (ad_db demo_adapter) /\
    exists c o, contract GoStrings.ToLower (fun _ => None) http_only c o /\ row_on_contract GoStrings.ToLower c row.
Proof.
  eexists. split; [vm_compute; right; left|]. split.
  { intros H. vm_compute in H. inversion H as [|? ? ? H1]; subst. inversion H1. }
  edestruct (stored_items_on_contract (W := nat) GoStrings.ToLower (fun _ => None) http_only (fun t _ => Ok t)
               (demo_deps demo_batch) stored_feed demo_spec 0%nat demo_adapter) as [Hin|(c & o & _ & Hc & Hr)].
  - vm_compute. discriminate.
  - apply reachable_ok, d_open_reachable.
  - vm_compute. right. left.
  - exfalso. vm_compute in Hin. inversion Hin as [|? ? ? H1]; subst. inversion H1.
  - exists c, o. split; [exact Hc|exact Hr].
Defined.

(** the check of the encoding is made before the entities of a link are
    decoded: an item whose link spells U+FFFF as an entity is accepted, and its
    body holds that character, which XML cannot carry. *)
Theorem forbidden_character_is_accepted :
  exists it, Validate GoStrings.ToLower (fun _ => None) http_only
    (toCandidate (MkGenerated "Which studio drew the film" "A question about an opening"
       "<p>See <a href='https://example.org/a&#65535;'>this</a></p>" "" "" ["anime"] ""))
    (MkOptions KindGenerative []) = Ok (it, []) /\
  ValidString (BodyHTML it) = true /\ utf8ValidNoControls (BodyHTML it) = false.
Proof. eexists. split; [vm_compute; reflexivity|]. vm_compute. done. Qed.
