(* ===== verification/FeedSpec.v ===== *)
(** * Recipes: internal/feedspec, internal/modelclass

    The recipe of a feed, its written schedule and the schedule it resolves to,
    and [Validate] with every problem it reports.

    [LoadLocation] is time.LoadLocation over the platform's zone table and
    [template_ok] tells which prompts text/template executes on the sample data
    ([prompttmpl.ValidateTemplate]). *)

From S2P Require Import Prelude GoTime GoStrings Cron Recurrence Timestamps TimeRead Tables Schema Budget Pipeline.
From Stdlib Require Import String Ascii.
Local Open Scope string_scope.
Local Open Scope Z_scope.
Local Abbreviation length := List.length.
Local Abbreviation ToLower := GoStrings.ToLower.

(** ** The recipe: spec.go *)

Record ModelParams := MkModelParams {
  mp_Model : string; mp_Temperature : float64; mp_Mode : string; mp_Speed : string; mp_WebSearch : bool }.
Record NoveltyParams := MkNoveltyParams { ExcludeLast : Z; Threshold : float64; MaxRetries : Z }.
Record Budgets := MkBudgets { DailyTokens : Z; DailyRuns : Z }.
Record SourceSpec := MkSource { src_URL : string; src_Kind : string }.

(** The written form of a structured schedule: recurrence.go. *)
Record WrittenRecurrence := MkWritten {
  wr_Frequency : string; wr_Interval : Z; wr_Weekdays : list string; wr_MonthDay : Z; wr_SetPosition : Z;
  wr_Hour : Z; wr_Minute : Z; wr_Anchor : string }.

Record FeedSpec := MkFeedSpec {
  fs_Slug : string; fs_Title : string; fs_Description : string; fs_Language : string; fs_Kind : string;
  fs_Cron : string; fs_Timezone : string; fs_Recurrence : option WrittenRecurrence; ScheduleMode : string;
  fs_ItemsPerRun : Z; fs_FeedWindow : Z; fs_Model : ModelParams; fs_SystemPrompt : string; fs_UserPrompt : string;
  fs_Novelty : NoveltyParams; fs_Budgets : Budgets; fs_Sources : list SourceSpec; fs_Members : list string }.

Definition ScheduleModeScheduled : string := "scheduled".
Definition ScheduleModeWatch : string := "watch".
Definition ScheduleModeAdhoc : string := "adhoc".
Definition IsWatch (s : FeedSpec) : bool := bool_decide (ScheduleMode s = ScheduleModeWatch).
Definition IsAdhoc (s : FeedSpec) : bool := bool_decide (ScheduleMode s = ScheduleModeAdhoc).
Definition IsScheduled (s : FeedSpec) : bool := negb (IsAdhoc s).

(** 0.92 in binary64. *)
Definition default_threshold : float64 := S754_finite false 8286623314361713 (-53).

Definition Defaults : FeedSpec :=
  MkFeedSpec "" "" "" "en" KindGenerative "0 12 * * *" "UTC" None "" 1 50 (MkModelParams "" f64_zero "balanced" "" false) "" ""
    (MkNoveltyParams 50 default_threshold 3) (MkBudgets 200000 24) [] [].

Definition JitterOffset (s : FeedSpec) (window : Z) : Z := Offset (fs_Slug s) window.

(** ** Which models are not for text: modelclass.go *)

Definition Contains (s sub : string) : bool := match find_sub sub s with Some _ => true | None => false end.

Definition not_text_models : list string :=
  ["whisper"; "tts"; "dall-e"; "moderation"; "transcribe"; "realtime"; "audio"; "image"; "search"; "similarity"; "edit";
   "davinci-002"; "babbage-002"].
Definition chat_models : list string := ["gpt"; "o1"; "o3"; "o4"; "chatgpt"].

Definition ClassifyModel (id : string) : bool * bool :=
  let lower := ToLower id in
  if Contains lower "embedding" then (false, true)
  else if existsb (Contains lower) not_text_models then (false, false)
  else (existsb (HasPrefix lower) chat_models, false).

(** ** Schedules *)

(** [time.ParseInLocation] of a plain date. *)
Definition parse_date (l : Location) (s : string) : option Z :=
  match s with
  | String y1 (String y2 (String y3 (String y4 (String h1 (String m1 (String m2 (String h2 (String d1 (String d2 EmptyString))))))))) =>
      if negb (Ascii.eqb h1 "-" && Ascii.eqb h2 "-") then None else
      y ← four y1 y2 y3 y4; m ← two m1 m2; d ← two d1 d2;
      if (m <? 1) || (12 <? m) then None
      else if (d <? 1) || (days_in_month y m <? d) then None
      else Some (Date l y m d 0 0 0 0)
  | _ => None
  end.

Definition weekdayNames : list (string * Z) :=
  [("sunday", 0); ("monday", 1); ("tuesday", 2); ("wednesday", 3); ("thursday", 4); ("friday", 5); ("saturday", 6)].
Definition frequencyNames : list (string * Frequency) := [("daily", FreqDaily); ("weekly", FreqWeekly); ("monthly", FreqMonthly)].

Definition assoc {V} (k : string) (l : list (string * V)) : option V :=
  match List.find (fun p => String.eqb p.1 k) l with Some p => Some p.2 | None => None end.

Definition WeekdayName (d : Z) : string := ToLower (weekday_name d).

Inductive spec_error :=
| BadZone (tz : string) | UnknownFrequencyName (f : string) | UnknownWeekdayName (d : string) | BadAnchor (a : string)
| BadRecurrence (e : rec_error) | BadCron (e : parse_error).

Definition folded (s : string) : string := ToLower (TrimSpace s).

Fixpoint resolve_days (l : list string) : result spec_error (list Z) :=
  match l with
  | [] => Ok []
  | name :: rest =>
      match assoc (folded name) weekdayNames with
      | None => Err (UnknownWeekdayName name)
      | Some d => let? ds := resolve_days rest in Ok (d :: ds)
      end
  end.

(** The schedule a feed runs on. *)
Inductive Firing := FiresByRule (r : Recurrence) | FiresByCron (s : Schedule).

Record Problem := MkProblem { pb_Field : string; pb_Reason : string }.

(** ** Bounds and names: validate.go *)

Definition slugPattern (s : string) : bool :=
  (3 <=? Z.of_nat (String.length s)) && (Z.of_nat (String.length s) <=? 48) && all_bytes (fun a => in_range 97 122 a || in_range 48 57 a || Ascii.eqb a "-") s.
Definition reservedSlugs : list string := ["all"; "index"; "healthz"; "robots"; "favicon"; "items"; "feeds"].

Definition itemsPerRunMin : Z := 1.
Definition itemsPerRunMax : Z := 50.
Definition feedWindowMin : Z := 1.
Definition feedWindowMax : Z := 200.
Definition noveltyMaxRetriesMin : Z := 0.
Definition noveltyMaxRetriesMax : Z := 10.
Definition noveltyExcludeLastMin : Z := 0.
Definition noveltyExcludeLastMax : Z := 500.
Definition noveltyThresholdMin : float64 := f64_zero.
Definition noveltyThresholdMax : float64 := f64_of_int 1.

(** The call returned an error. *)
Definition failed {E A} (r : result E A) : bool := match r with Ok _ => false | Err _ => true end.

(** A problem, when the condition of its rule holds. *)
Definition when_bad (b : bool) (field reason : string) : list Problem := if b then [MkProblem field reason] else [].

Definition outside (lo hi n : Z) : bool := (n <? lo) || (hi <? n).

Definition validateSlug (slug : string) : list Problem :=
  (when_bad (negb (slugPattern slug)) "slug" "slug_shape"
   ++ when_bad (bool_decide (slug ∈ reservedSlugs)) "slug" "slug_reserved")%list.

Definition validateModel (m : ModelParams) : list Problem :=
  if is_empty (mp_Model m) then [] else when_bad (ClassifyModel (mp_Model m)).2 "model" "model_not_chat".

Definition validateBudgets (b : Budgets) : list Problem :=
  (when_bad (DailyTokens b <=? 0) "budgets.daily_tokens" "budget_daily_tokens_zero"
   ++ when_bad (DailyRuns b <=? 0) "budgets.daily_runs" "budget_daily_runs_zero")%list.

Definition bad_threshold (t : float64) : bool :=
  negb (SFeqb t f64_zero) && (f64_lt t noveltyThresholdMin || f64_lt noveltyThresholdMax t).

Definition validateRanges (s : FeedSpec) : list Problem :=
  (when_bad (outside itemsPerRunMin itemsPerRunMax (fs_ItemsPerRun s)) "items_per_run" "items_per_run_out_of_range"
   ++ when_bad (outside feedWindowMin feedWindowMax (fs_FeedWindow s)) "feed_window" "feed_window_out_of_range"
   ++ when_bad (outside noveltyMaxRetriesMin noveltyMaxRetriesMax (MaxRetries (fs_Novelty s))) "novelty.max_retries"
        "novelty_max_retries_out_of_range"
   ++ when_bad (outside noveltyExcludeLastMin noveltyExcludeLastMax (ExcludeLast (fs_Novelty s))) "novelty.exclude_last"
        "novelty_exclude_last_out_of_range"
   ++ when_bad (bad_threshold (Threshold (fs_Novelty s))) "novelty.threshold" "novelty_threshold_out_of_range")%list.

Section validate.
Context (LoadLocation : string -> option Location) (template_ok : string -> bool).

Definition Resolve (r : WrittenRecurrence) (tz : string) : result spec_error Recurrence :=
  match LoadLocation tz with
  | None => Err (BadZone tz)
  | Some loc =>
      match assoc (folded (wr_Frequency r)) frequencyNames with
      | None => Err (UnknownFrequencyName (wr_Frequency r))
      | Some freq =>
          let? days := resolve_days (wr_Weekdays r) in
          let s := TrimSpace (wr_Anchor r) in
          let? anchor := if is_empty s then Ok zero_time
                         else match parse_date loc s with Some t => Ok t | None => Err (BadAnchor (wr_Anchor r)) end in
          rmap_err BadRecurrence (NewRecurrence
            (MkRecurrence freq (wr_Interval r) days (wr_MonthDay r) (wr_SetPosition r) (wr_Hour r) (wr_Minute r) anchor
               (Some loc) None))
      end
  end.

Definition Spec_Firing (s : FeedSpec) : result spec_error Firing :=
  match fs_Recurrence s with
  | Some r => let? e := Resolve r (fs_Timezone s) in Ok (FiresByRule e)
  | None =>
      match LoadLocation (fs_Timezone s) with
      | None => Err (BadZone (fs_Timezone s))
      | Some loc => let? c := rmap_err BadCron (Parse (fs_Cron s) (Some loc)) in Ok (FiresByCron c)
      end
  end.

Definition validateRecurrence (r : WrittenRecurrence) (tz : string) : list Problem :=
  let '(problems, tz) := match LoadLocation tz with
                         | Some _ => ([], tz)
                         | None => ([MkProblem "timezone" "timezone_invalid"], "UTC")
                         end in
  (problems ++ when_bad (failed (Resolve r tz)) "recurrence" "recurrence_invalid")%list.

Definition validateCron (cron tz : string) : list Problem :=
  match LoadLocation tz with
  | Some loc => when_bad (failed (Parse cron (Some loc))) "cron" "cron_invalid"
  | None => MkProblem "timezone" "timezone_invalid" :: when_bad (failed (Parse cron (Some UTC))) "cron" "cron_invalid"
  end.

Definition validateSchedule (s : FeedSpec) : list Problem :=
  let mode := ScheduleMode s in
  if String.eqb mode "" || String.eqb mode ScheduleModeScheduled || String.eqb mode ScheduleModeWatch then
    match fs_Recurrence s with
    | Some r => validateRecurrence r (fs_Timezone s)
    | None => validateCron (fs_Cron s) (fs_Timezone s)
    end
  else if String.eqb mode ScheduleModeAdhoc then []
  else [MkProblem "schedule_mode" "schedule_mode_unknown"].

Definition validatePrompts (s : FeedSpec) : list Problem :=
  (when_bad (negb (template_ok (fs_SystemPrompt s))) "system_prompt" "template_invalid"
   ++ when_bad (negb (template_ok (fs_UserPrompt s))) "user_prompt" "template_invalid")%list.

Definition no_elem {A} (l : list A) : bool := match l with [] => true | _ => false end.

Definition validateKind (s : FeedSpec) : list Problem :=
  (if String.eqb (fs_Kind s) KindGenerative then
     when_bad (negb (no_elem (fs_Sources s))) "sources" "generative_forbids_source" ++ validatePrompts s
   else if String.eqb (fs_Kind s) KindGrounded then
     when_bad (no_elem (fs_Sources s)) "sources" "grounded_requires_source"
     ++ when_bad (mp_WebSearch (fs_Model s)) "model" "grounded_forbids_web_search" ++ validatePrompts s
   else if String.eqb (fs_Kind s) KindAggregate then
     when_bad (no_elem (fs_Members s)) "members" "aggregate_requires_member"
     ++ (m ← fs_Members s; when_bad (String.eqb m (fs_Slug s) && negb (is_empty (fs_Slug s))) "members" "aggregate_self_member")
     ++ when_bad (negb (no_elem (fs_Sources s))) "sources" "aggregate_forbids_source"
     ++ when_bad (negb (is_empty (fs_SystemPrompt s)) || negb (is_empty (fs_UserPrompt s))) "prompts" "aggregate_forbids_prompt"
     ++ when_bad (mp_WebSearch (fs_Model s)) "model" "aggregate_forbids_web_search"
   else [MkProblem "kind" "kind_invalid"])%list.

Definition Spec_Validate (s : FeedSpec) : list Problem :=
  (validateSlug (fs_Slug s) ++ validateSchedule s ++ validateKind s ++ validateBudgets (fs_Budgets s) ++ validateRanges s
   ++ validateModel (fs_Model s))%list.

(** ** What the rules are

    One constructor for each rule of the recipe, with the condition that breaks it. *)

Definition firing_mode (s : FeedSpec) : Prop := ScheduleMode s ∈ [""; ScheduleModeScheduled; ScheduleModeWatch].

Definition zone_or_utc (tz : string) : Location := default UTC (LoadLocation tz).

(** The zone a rule is checked in. *)
Definition known_zone (tz : string) : string := match LoadLocation tz with Some _ => tz | None => "UTC" end.

(** The prompts are those of a feed with a generator. *)
Definition generator (s : FeedSpec) : Prop := fs_Kind s = KindGenerative \/ fs_Kind s = KindGrounded.

Inductive violation (s : FeedSpec) : string -> string -> Prop :=
| BadSlugShape : slugPattern (fs_Slug s) = false -> violation s "slug" "slug_shape"
| ReservedSlug : fs_Slug s ∈ reservedSlugs -> violation s "slug" "slug_reserved"
| UnknownMode : ~ firing_mode s -> IsAdhoc s = false -> violation s "schedule_mode" "schedule_mode_unknown"
| BadTimezone : firing_mode s -> LoadLocation (fs_Timezone s) = None -> violation s "timezone" "timezone_invalid"
| BadCronText e : firing_mode s -> fs_Recurrence s = None ->
    Parse (fs_Cron s) (Some (zone_or_utc (fs_Timezone s))) = Err e -> violation s "cron" "cron_invalid"
| BadRule r e : firing_mode s -> fs_Recurrence s = Some r ->
    Resolve r (known_zone (fs_Timezone s)) = Err e -> violation s "recurrence" "recurrence_invalid"
| UnknownKind : fs_Kind s ∉ [KindGenerative; KindGrounded; KindAggregate] -> violation s "kind" "kind_invalid"
| SourcesOfGenerative : fs_Kind s = KindGenerative -> fs_Sources s <> [] -> violation s "sources" "generative_forbids_source"
| NoSources : fs_Kind s = KindGrounded -> fs_Sources s = [] -> violation s "sources" "grounded_requires_source"
| SearchOfGrounded : fs_Kind s = KindGrounded -> mp_WebSearch (fs_Model s) = true -> violation s "model" "grounded_forbids_web_search"
| BadSystemPrompt : generator s -> template_ok (fs_SystemPrompt s) = false -> violation s "system_prompt" "template_invalid"
| BadUserPrompt : generator s -> template_ok (fs_UserPrompt s) = false -> violation s "user_prompt" "template_invalid"
| NoMembers : fs_Kind s = KindAggregate -> fs_Members s = [] -> violation s "members" "aggregate_requires_member"
| SelfMember : fs_Kind s = KindAggregate -> fs_Slug s <> "" -> fs_Slug s ∈ fs_Members s -> violation s "members" "aggregate_self_member"
| SourcesOfAggregate : fs_Kind s = KindAggregate -> fs_Sources s <> [] -> violation s "sources" "aggregate_forbids_source"
| PromptsOfAggregate : fs_Kind s = KindAggregate -> ~ (fs_SystemPrompt s = "" /\ fs_UserPrompt s = "") ->
    violation s "prompts" "aggregate_forbids_prompt"
| SearchOfAggregate : fs_Kind s = KindAggregate -> mp_WebSearch (fs_Model s) = true -> violation s "model" "aggregate_forbids_web_search"
| NoTokens : DailyTokens (fs_Budgets s) <= 0 -> violation s "budgets.daily_tokens" "budget_daily_tokens_zero"
| NoRuns : DailyRuns (fs_Budgets s) <= 0 -> violation s "budgets.daily_runs" "budget_daily_runs_zero"
| ItemsOutside : ~ (1 <= fs_ItemsPerRun s <= 50) -> violation s "items_per_run" "items_per_run_out_of_range"
| WindowOutside : ~ (1 <= fs_FeedWindow s <= 200) -> violation s "feed_window" "feed_window_out_of_range"
| RetriesOutside : ~ (0 <= MaxRetries (fs_Novelty s) <= 10) -> violation s "novelty.max_retries" "novelty_max_retries_out_of_range"
| ExcludeOutside : ~ (0 <= ExcludeLast (fs_Novelty s) <= 500) -> violation s "novelty.exclude_last" "novelty_exclude_last_out_of_range"
| ThresholdOutside : f64_lt (Threshold (fs_Novelty s)) f64_zero = true \/ f64_lt (f64_of_int 1) (Threshold (fs_Novelty s)) = true ->
    violation s "novelty.threshold" "novelty_threshold_out_of_range"
| NotText : mp_Model (fs_Model s) <> "" -> (ClassifyModel (mp_Model (fs_Model s))).2 = true -> violation s "model" "model_not_chat".

End validate.

(** ** Proofs *)

Lemma elem_when_bad p b f r : p ∈ when_bad b f r <-> b = true /\ p = MkProblem f r.
Proof. unfold when_bad. destruct b; set_solver. Qed.

Lemma outside_true lo hi n : outside lo hi n = true <-> ~ (lo <= n <= hi).
Proof. unfold outside. rewrite orb_true_iff, !Z.ltb_lt. lia. Qed.

Lemma failed_true {E A} (r : result E A) : failed r = true <-> exists e, r = Err e.
Proof. destruct r; cbn; naive_solver. Qed.

Lemma no_elem_true {A} (l : list A) : no_elem l = true <-> l = [].
Proof. by destruct l. Qed.

Lemma no_elem_false {A} (l : list A) : no_elem l = false <-> l <> [].
Proof. destruct l; naive_solver. Qed.

(** A zero threshold is neither negative nor above one. *)
Lemma bad_threshold_true t : bad_threshold t = true <-> f64_lt t f64_zero = true \/ f64_lt (f64_of_int 1) t = true.
Proof.
  unfold bad_threshold, noveltyThresholdMin, noveltyThresholdMax. rewrite andb_true_iff, orb_true_iff, negb_true_iff.
  split; [tauto|]. intros H. split; [|done]. destruct (SFeqb t f64_zero) eqn:E; [|done]. exfalso.
  destruct t as [[]|[]| |[]]; vm_compute in E; try discriminate E; destruct H as [H|H]; vm_compute in H; discriminate H.
Qed.

Create Rewrite HintDb spec.
#[export] Hint Rewrite @elem_of_app elem_when_bad outside_true @failed_true @no_elem_true negb_true_iff @no_elem_false is_empty_false
  bad_threshold_true orb_true_iff Z.leb_le @elem_of_nil @list_elem_of_singleton @bool_decide_eq_true @bool_decide_eq_false : spec.

Section rules.
Context (LoadLocation : string -> option Location) (template_ok : string -> bool).

Abbreviation broken := (violation LoadLocation template_ok).

#[local] Hint Constructors violation : core.
#[local] Hint Unfold generator : core.

(** Read the membership in a list of problems. *)
Ltac problems :=
  autorewrite with spec;
  repeat match goal with
  | |- _ /\ _ -> _ => intros [??]
  | |- _ \/ _ -> _ => intros [?|?]
  | H : MkProblem _ _ = MkProblem _ _ |- _ => injection H as -> ->
  | H : _ \/ _ |- _ => destruct H
  | H : _ /\ _ |- _ => destruct H
  | H : exists _, _ |- _ => destruct H
  | H : False |- _ => destruct H
  | |- False -> _ => intros []
  | |- MkProblem _ _ = MkProblem _ _ -> _ => injection 1 as -> ->
  end.

(** Membership of a given name in a list of names. *)
Ltac listed := refine (bool_decide_unpack _ _); vm_compute; exact I.
Ltac not_listed H := let Hl := fresh in pose proof (bool_decide_pack _ H) as Hl; vm_compute in Hl; destruct Hl.

(** The disjunct that a hypothesis proves. *)
Ltac pick := first [split; [assumption|reflexivity] | left; pick | right; pick].

Lemma firing_mode_spec s :
  String.eqb (ScheduleMode s) "" || String.eqb (ScheduleMode s) ScheduleModeScheduled || String.eqb (ScheduleMode s) ScheduleModeWatch
  = bool_decide (firing_mode s).
Proof.
  symmetry. unfold firing_mode.
  destruct (String.eqb_spec (ScheduleMode s) ""), (String.eqb_spec (ScheduleMode s) ScheduleModeScheduled),
    (String.eqb_spec (ScheduleMode s) ScheduleModeWatch); cbn [orb];
    (apply bool_decide_eq_true || apply bool_decide_eq_false); set_solver.
Qed.

Lemma schedule_sound s f r : MkProblem f r ∈ validateSchedule LoadLocation s -> broken s f r.
Proof.
  unfold validateSchedule. rewrite firing_mode_spec. case_bool_decide as Hm.
  - destruct (fs_Recurrence s) as [w|] eqn:Ew; unfold validateRecurrence, validateCron;
      destruct (LoadLocation (fs_Timezone s)) as [loc|] eqn:El; rewrite ?elem_of_cons; problems; eauto.
    + eapply BadRule; eauto. unfold known_zone. by rewrite El.
    + eapply BadRule; eauto. unfold known_zone. by rewrite El.
    + eapply BadCronText; eauto. unfold zone_or_utc. by rewrite El.
    + eapply BadCronText; eauto. unfold zone_or_utc. by rewrite El.
  - destruct (String.eqb_spec (ScheduleMode s) ScheduleModeAdhoc) as [|Ha]; problems. eapply UnknownMode; [done|].
    by apply bool_decide_eq_false.
Qed.

Lemma self_member s p :
  p ∈ (m ← fs_Members s; when_bad (String.eqb m (fs_Slug s) && negb (is_empty (fs_Slug s))) "members" "aggregate_self_member")%list <->
  (fs_Slug s <> "" /\ fs_Slug s ∈ fs_Members s) /\ p = MkProblem "members" "aggregate_self_member".
Proof.
  rewrite list_elem_of_bind. setoid_rewrite elem_when_bad. setoid_rewrite andb_true_iff. setoid_rewrite String.eqb_eq.
  setoid_rewrite negb_true_iff. setoid_rewrite is_empty_false. naive_solver.
Qed.

Lemma kind_sound s f r : MkProblem f r ∈ validateKind template_ok s -> broken s f r.
Proof.
  unfold validateKind, validatePrompts.
  destruct (String.eqb_spec (fs_Kind s) KindGenerative) as [Hk|Hg]; [|destruct (String.eqb_spec (fs_Kind s) KindGrounded) as [Hk|Hd];
    [|destruct (String.eqb_spec (fs_Kind s) KindAggregate) as [Hk|Ha]]]; rewrite ?elem_of_app, ?self_member; problems; eauto.
  - apply PromptsOfAggregate; tauto.
  - apply PromptsOfAggregate; tauto.
  - apply UnknownKind. set_solver.
Qed.

Lemma problems_sound s f r : MkProblem f r ∈ Spec_Validate LoadLocation template_ok s -> broken s f r.
Proof.
  unfold Spec_Validate. rewrite !elem_of_app. intros [H|[H|[H|[H|[H|H]]]]]; [|by apply schedule_sound|by apply kind_sound|..].
  all: revert H; unfold validateSlug, validateBudgets, validateRanges, validateModel; try (destruct (is_empty _) eqn:E); problems;
    try (constructor; by auto). apply is_empty_false in E. by constructor.
Qed.

(** What the schedule rules report in a mode that fires. *)
Lemma firing_problems s :
  firing_mode s ->
  validateSchedule LoadLocation s =
  match fs_Recurrence s with
  | Some r => validateRecurrence LoadLocation r (fs_Timezone s)
  | None => validateCron LoadLocation (fs_Cron s) (fs_Timezone s)
  end.
Proof. intros H. unfold validateSchedule. by rewrite firing_mode_spec, bool_decide_eq_true_2. Qed.

Lemma schedule_complete s f r :
  broken s f r -> f ∈ ["schedule_mode"; "timezone"; "cron"; "recurrence"] -> MkProblem f r ∈ validateSchedule LoadLocation s.
Proof.
  intros H Hf. destruct H; try (by not_listed Hf); try (rewrite firing_problems by done).
  - apply bool_decide_eq_false in H0. unfold validateSchedule. rewrite firing_mode_spec, bool_decide_eq_false_2 by done.
    destruct (String.eqb_spec (ScheduleMode s) ScheduleModeAdhoc); [done|]. by left.
  - unfold validateRecurrence, validateCron. rewrite H0. destruct (fs_Recurrence s); by left.
  - rewrite H0. unfold validateCron, zone_or_utc in *. destruct (LoadLocation _); rewrite ?elem_of_cons; autorewrite with spec; eauto.
  - rewrite H0. unfold validateRecurrence, known_zone in *. destruct (LoadLocation _); rewrite ?elem_of_cons; autorewrite with spec; eauto.
Qed.

Lemma kind_complete s f r :
  broken s f r -> f ∈ ["kind"; "sources"; "system_prompt"; "user_prompt"; "members"; "prompts"; "model"] -> r <> "model_not_chat" ->
  MkProblem f r ∈ validateKind template_ok s.
Proof.
  unfold validateKind, validatePrompts. intros H Hf Hr.
  destruct H; try (by not_listed Hf); try done; repeat match goal with H : generator _ |- _ => destruct H as [H|H] end;
    try match goal with H : fs_Kind s = _ |- _ => rewrite H; cbn [String.eqb] end.
  all: try (rewrite ?elem_of_app, ?self_member; cbn; autorewrite with spec; tauto).
  - destruct (String.eqb_spec (fs_Kind s) KindGenerative), (String.eqb_spec (fs_Kind s) KindGrounded),
      (String.eqb_spec (fs_Kind s) KindAggregate); set_solver.
  - change (String.eqb KindAggregate KindGenerative) with false. change (String.eqb KindAggregate KindGrounded) with false. cbv iota.
    rewrite String.eqb_refl, !elem_of_app, self_member. tauto.
  - change (String.eqb KindAggregate KindGenerative) with false. change (String.eqb KindAggregate KindGrounded) with false. cbv iota.
    rewrite String.eqb_refl, !elem_of_app, elem_when_bad. autorewrite with spec.
    do 3 right. left. split; [|done]. destruct (decide (fs_SystemPrompt s = "")); tauto.
Qed.

Lemma problems_complete s f r : broken s f r -> MkProblem f r ∈ Spec_Validate LoadLocation template_ok s.
Proof.
  intros H. pose proof (schedule_complete s f r H) as Hs. pose proof (kind_complete s f r H) as Hk.
  unfold Spec_Validate. rewrite !elem_of_app.
  destruct H; try (right; left; apply Hs; listed); try (right; right; left; apply Hk; [listed|done]).
  1,2: left; unfold validateSlug; autorewrite with spec; pick.
  1,2: do 3 right; left; unfold validateBudgets; autorewrite with spec; pick.
  1-5: do 4 right; left; unfold validateRanges; autorewrite with spec; pick.
  do 5 right. unfold validateModel. rewrite (proj2 (is_empty_false _)) by done. by autorewrite with spec.
Qed.

(** A recipe accepted for a schedule has one. *)
Lemma accepted_fires s : Spec_Validate LoadLocation template_ok s = [] -> IsScheduled s = true -> exists fi, Spec_Firing LoadLocation s = Ok fi.
Proof.
  intros Hv Hm. assert (Hno : forall f r, ~ broken s f r).
  { intros f r Hb%problems_complete. rewrite Hv in Hb. by apply elem_of_nil in Hb. }
  assert (Hf : firing_mode s).
  { destruct (decide (firing_mode s)); [done|]. destruct (Hno _ _ (UnknownMode _ _ s ltac:(done) ltac:(by apply negb_true_iff in Hm))). }
  unfold Spec_Firing. destruct (LoadLocation (fs_Timezone s)) as [loc|] eqn:El.
  2:{ destruct (Hno _ _ (BadTimezone _ _ s Hf El)). }
  destruct (fs_Recurrence s) as [w|] eqn:Ew.
  - destruct (Resolve LoadLocation w (fs_Timezone s)) as [r|e] eqn:Er; [by eexists|].
    destruct (Hno _ _ (BadRule _ _ s w e Hf Ew ltac:(unfold known_zone; by rewrite El))).
  - destruct (Parse (fs_Cron s) (Some loc)) as [c|e] eqn:Ep; [by eexists|].
    destruct (Hno _ _ (BadCronText _ _ s e Hf Ew ltac:(unfold zone_or_utc; by rewrite El))).
Qed.

End rules.

(** ** The claims *)

(** C14: [Spec_Validate] reports exactly the rules a recipe breaks: a problem with this
    field and reason is in its answer if and only if the rule with that name is
    broken, whatever else is wrong with the recipe. *)
Theorem validate_reports_violations LoadLocation template_ok s f r :
  MkProblem f r ∈ Spec_Validate LoadLocation template_ok s <-> violation LoadLocation template_ok s f r.
Proof. split; [apply problems_sound|apply problems_complete]. Qed.
