(* ===== verification/Wire.v ===== *)
(** * The composition root: cmd/animefeedflux/wire.go

    The gate the scheduler asks before a run (kill switch, the feed's own switch,
    the budgets over the spend totals of the store), the check before a preview,
    and the executor that opens the run's row, runs the pipeline on the store and
    invalidates the render cache.

    A recipe is JSON in the feed's row; [recipe] is what it decodes to.  The
    settings are those [loadGenerationSettings] reads, [None] when it fails.  The
    heartbeats of a run in flight only touch the heartbeat column and are left
    out.  A read of SQLite that fails is left out too. *)

From S2P Require Import Prelude GoTime GoStrings Timestamps Tables Schema StoreItems StoreRuns StoreSamples StoreHistory.
From S2P Require Import Budget Generate Pipeline FeedSpec.
From Stdlib Require Import String Ascii.
Local Abbreviation length := List.length.

(** ** Settings, and the recipe as a run takes it *)

(** [settings.generation] and [settings.provider]. *)
Record GenSettings := MkGenSettings {
  gs_Enabled : bool; GlobalDailyTokenCeiling : Z; GlobalDailySpendCeilingUsd : float64 }.
Record providerDefaults := MkDefaults { pd_Model : string; pd_Effort : string }.

Definition generateSpecFrom (fs : FeedSpec) (trigger : string) (prices : PriceTable) (defaults : providerDefaults) : Spec :=
  let resolvedModel := let m := TrimSpace (mp_Model (fs_Model fs)) in if is_empty m then pd_Model defaults else m in
  let '(priceIn, priceOut) := match Table_Lookup resolvedModel prices with
                              | Some p => (InputPerMTok p, OutputPerMTok p)
                              | None => (f64_zero, f64_zero)
                              end in
  MkSpec (fs_SystemPrompt fs) (fs_UserPrompt fs) resolvedModel (mp_Temperature (fs_Model fs)) (pd_Effort defaults)
    (fs_ItemsPerRun fs) (ExcludeLast (fs_Novelty fs)) 0 (MaxRetries (fs_Novelty fs)) priceIn priceOut trigger
    (IsWatch fs) (mp_WebSearch (fs_Model fs) && bool_decide (fs_Kind fs = KindGenerative)).

(** One entry of the price table of the settings, per thousand tokens. *)
Record PriceEntry := MkPriceEntry { pe_Model : string; UsdPer1KTokensIn : float64; UsdPer1KTokensOut : float64 }.

Definition applyPriceTable (entries : list PriceEntry) (t : PriceTable) : PriceTable :=
  fold_left (fun t e =>
    let model := TrimSpace (pe_Model e) in
    if is_empty model then t
    else Set_ (MkPrice model (f64_mul (UsdPer1KTokensIn e) (f64_of_int 1000))
                 (f64_mul (UsdPer1KTokensOut e) (f64_of_int 1000))) t) entries t.

(** ** Reading feeds and totals *)

(** [WHERE id = ? AND deleted_at IS NULL]. *)
Definition loadFeedRow (feed : Z) (d : Content) : option FeedRow :=
  match find_id feed (feeds d) with
  | Some r => if bool_decide (f_deleted_at r = None) then Some r else None
  | None => None
  end.

Fixpoint insert_slug (r : FeedRow) (l : list FeedRow) : list FeedRow :=
  match l with
  | [] => [r]
  | q :: rest => if str_leb (f_slug r) (f_slug q) then r :: l else q :: insert_slug r rest
  end.

Definition loadSchedulableFeedRows (d : Content) : list FeedRow :=
  fold_right insert_slug [] (filter (fun r =>
    f_enabled r && bool_decide (f_deleted_at r = None) && negb (bool_decide (f_kind r = KindAggregate)) = true) (feeds d)).

Definition midnightUTC (t : Z) : Z := Date UTC (Year UTC t) (Month UTC t) (Day UTC t) 0 0 0 0.

Definition countRunsSince (feed since : Z) (d : Content) : Z :=
  Z.of_nat (affected (fun r => (r_feed_id r =? feed) && text_le since (r_started_at r)) (runs d)).

Section wire.
Context (sql_sum : list float64 -> float64) (recipe : FeedRow -> option FeedSpec).

Definition spend_of (t : Z * Z * float64) (runs : Z) : Budget.Spend := MkSpend t.1.1 t.1.2 runs t.2.

(** ** The gate *)

(** [now] and [now2] are the two readings of the clock. *)
Definition Allowed (settings : option GenSettings) (monthlyCeilingUSD : float64) (now now2 feedID : Z) (d : Content)
    : bool * string :=
  match settings with
  | None => (false, "settings_lookup_failed"%string)
  | Some st =>
    if negb (gs_Enabled st) then (false, "generation_disabled"%string) else
    match loadFeedRow feedID d with
    | None => (false, "feed_lookup_failed"%string)
    | Some row =>
      if negb (f_enabled row) then (false, "feed_disabled"%string) else
      match recipe row with
      | None => (false, "spec_parse_failed"%string)
      | Some fs =>
        let since := midnightUTC now2 in
        let feedSpend := spend_of (TotalSpendSince sql_sum feedID since d) (countRunsSince feedID since d) in
        let globalSpend := spend_of (TotalSpendSince sql_sum 0 since d) 0 in
        let limits := MkLimits (DailyTokens (fs_Budgets fs)) (DailyRuns (fs_Budgets fs)) (GlobalDailyTokenCeiling st)
                        (GlobalDailySpendCeilingUsd st) monthlyCeilingUSD f64_zero in
        let monthSpend := if f64_pos monthlyCeilingUSD
                          then spend_of (TotalSpendSince sql_sum 0 (MonthStart now) d) 0 else no_spend in
        let decision := CheckRequest limits feedSpend globalSpend (MkBudgetRequest "" 0 f64_zero monthSpend) in
        if Allow decision then (true, ""%string) else (false, de_Reason decision)
      end
    end
  end.

(** ** Previews *)

Definition CheckSample (settings : option GenSettings) (now feedID projected : Z) (d : Content) : BudgetDecision :=
  match settings with
  | None => deny "settings_lookup_failed"
  | Some st =>
    if negb (gs_Enabled st) then deny "generation_disabled" else
    match loadFeedRow feedID d with
    | None => deny "feed_lookup_failed"
    | Some row =>
      match recipe row with
      | None => deny "spec_parse_failed"
      | Some fs =>
        let since := midnightUTC now in
        let feedSpend := spend_of (TotalSpendSince sql_sum feedID since d) (countRunsSince feedID since d) in
        let globalSpend := spend_of (TotalSpendSince sql_sum 0 since d) 0 in
        CheckRequest (MkLimits (DailyTokens (fs_Budgets fs)) (DailyRuns (fs_Budgets fs)) (GlobalDailyTokenCeiling st)
                        (GlobalDailySpendCeilingUsd st) f64_zero f64_zero) feedSpend globalSpend
          (MkBudgetRequest KindSample projected f64_zero no_spend)
      end
    end
  end.

(** ** The executor *)

(** The slugs whose cached documents are dropped, in order. *)
Definition invalidateFeedAndAggregates (slug : string) (d : Content) : list string :=
  if is_empty slug then [] else slug :: AggregateSlugsFor slug d.

Inductive exec_error := FeedLookup | SpecParse | StartFailed (e : store_error) | RunFailed (e : gen_error).

(** The clock readings of a run: the staleness check and the start, and the
    commit; [pre] is the outcome of the store's commit hook. *)
Record RunClock := MkRunClock { ck_checked : Z; ck_start : Z; ck_commit : Z; ck_pre : bool }.

Section executor.
Context {W : Type} (deps : Deps W) (rules : Rules) (prices : PriceTable) (defaults : providerDefaults) (holder : string).

(** The pipeline on an open run, and the invalidation that follows a success. *)
Definition run_open (ck : RunClock) (runID : Z) (row : FeedRow) (fs : FeedSpec) (trigger : string) (w : W) (d : Content)
    : RunResult * option gen_error * (W * Content) * list string :=
  let out := Run deps rules (scanFeed row) (generateSpecFrom fs trigger prices defaults)
               (w, MkAdapter d runID (ck_commit ck) (ck_pre ck)) in
  let d' := ad_db out.2.2 in
  let completed := bool_decide (out.1.2 = None) && bool_decide (rr_Status (Run_ out.1.1) = StatusCompleted) in
  (out.1, (out.2.1, d'), if completed then invalidateFeedAndAggregates (f_slug row) d' else []).

Definition Execute (ck : RunClock) (feedID : Z) (trigger : string) (w : W) (d : Content)
    : option exec_error * (W * Content) * list string :=
  match loadFeedRow feedID d with
  | None => (Some FeedLookup, (w, d), [])
  | Some row =>
    match recipe row with
    | None => (Some SpecParse, (w, d), [])
    | Some fs =>
      match StartRun (ck_checked ck) (ck_start ck) feedID trigger holder d with
      | Err RunInProgress => (None, (w, d), [])
      | Err e => (Some (StartFailed e), (w, d), [])
      | Ok (runID, d1) =>
          let out := run_open ck runID row fs trigger w d1 in
          (option_map RunFailed out.1.1.2, out.1.2, out.2)
      end
    end
  end.

(** A manual run, whose row is open already; [acquired] is false when there was
    no provider slot in time.  Its failures to close the row are ignored. *)
Definition ExecuteRun (ck : RunClock) (acquired : bool) (feedID runID : Z) (w : W) (d : Content) : W * Content * list string :=
  let fail_ kind msg := (w, match FailRun (ck_commit ck) runID kind msg zero_summary d with Ok d' => d' | Err _ => d end, []) in
  if negb acquired then fail_ "provider_semaphore_timeout"%string "context deadline exceeded"%string
  else match loadFeedRow feedID d with
       | None => fail_ "feed_lookup_failed"%string "wire: feed not found"%string
       | Some row =>
         match recipe row with
         | None => fail_ "spec_parse_failed"%string "wire: parsing spec"%string
         | Some fs => let out := run_open ck runID row fs "manual" w d in (out.1.2, out.2)
         end
       end.

End executor.
End wire.

(** ** What a run leaves in the store *)

Lemma adapter_shape pre now run rec its d d' :
  content_ok d -> adapter_CommitRun pre now run rec its d = Ok d' ->
  spend d' = spend d /\
  (exists f, runs d' = update_where (open_run run) f (runs d) /\
     forall r, same_run r (f r) /\ r_status (f r) = row_status (rr_Status rec) /\
       r_tokens_in (f r) = rr_TokensIn rec /\ r_tokens_out (f r) = rr_TokensOut rec) /\
  exists new, items d' = items d ++ new /\
    if bool_decide (rr_Status rec = StatusCompleted)
    then Forall2 (fun it r => exists id, r = new_item_row id now (PublishedAt it) (Some run) it) its new
    else new = [].
Proof.
  intros Hd. unfold adapter_CommitRun, row_status. destruct (bool_decide (rr_Status rec = StatusCompleted)).
  - intros Hc. apply CommitRun_spec in Hc as (d1 & rs & m & _ & _ & Hc & _ & _ & ->); [|done].
    apply commit_items_spec in Hc as (_ & _ & _ & _ & _ & Hsp & new & newE & Hi & _ & _ & Hn & _); [|done].
    split; [done|]. split; [by eexists|]. by exists new.
  - destruct (bool_decide (rr_Status rec = StatusSkipped)).
    + unfold SkipRun. cbn [rbind]. destruct (reasonsJSON _) as [rs|]; [|done]. cbn [rbind].
      intros [_ ->]%update_run_spec. split; [done|]. split; [by eexists|]. exists []. by rewrite app_nil_r.
    + unfold FailRun. destruct (reasonsJSON _) as [rs|]; [|done]. cbn [rbind].
      intros [_ ->]%update_run_spec. split; [done|]. split; [by eexists|]. exists []. by rewrite app_nil_r.
Qed.

Lemma update_last id f l r :
  id ∉ ids l -> r_id r = id -> r_status r = Running ->
  update_where (open_run id) f (l ++ [r]) = l ++ [f r].
Proof.
  intros Hid Hr Hst. unfold update_where. rewrite fmap_app. cbn.
  assert (Ho : open_run id r = true) by (unfold open_run, is_running; by rewrite Hr, Z.eqb_refl, Hst).
  rewrite Ho. f_equal. rewrite <- (list_fmap_id l) at 2. apply list_fmap_ext. intros i x Hx. cbn.
  destruct (open_run id x) eqn:E; [|done]. exfalso. apply Hid. unfold open_run in E. bools. subst.
  apply list_elem_of_fmap. exists x. split; [done|]. by eapply list_elem_of_lookup_2.
Qed.

(** How a started run ends: published, closed without items, or left open by a
    refused commit. *)
Inductive run_end (feedID : Z) (err : bool) (inv : list string) (slug : string) (d d' : Content) (r : RunRow) : Prop :=
| end_published new : r_status r = Success -> err = false -> new <> [] -> items d' = items d ++ new ->
    Forall (fun x => i_feed_id x = feedID /\ i_run_id x = Some (r_id r)) new ->
    inv = invalidateFeedAndAggregates slug d' -> run_end feedID err inv slug d d' r
| end_closed : r_status r = Failed /\ err = true \/ r_status r = Skipped /\ err = false ->
    items d' = items d -> inv = [] -> run_end feedID err inv slug d d' r
| end_open : r_status r = Running -> r_tokens_in r = 0 -> r_tokens_out r = 0 -> err = true ->
    items d' = items d -> inv = [] -> run_end feedID err inv slug d d' r.

Definition is_err {A} (o : option A) : bool := match o with Some _ => true | None => false end.

Section executor_facts.
Context {W : Type} (deps : Deps W) (rules : Rules) (prices : PriceTable) (defaults : providerDefaults).

Lemma run_open_ends ck row fs trigger w d r0 :
  let d1 := set_runs (runs d ++ [r0]) d in
  content_ok d1 -> r_id r0 = next_id (runs d) -> r_status r0 = Running -> r_tokens_in r0 = 0 -> r_tokens_out r0 = 0 ->
  let out := run_open deps rules prices defaults ck (next_id (runs d)) row fs trigger w d1 in
  let d' := out.1.2.2 in
  spend d' = spend d /\ exists r', runs d' = runs d ++ [r'] /\ same_run r0 r' /\
    run_end (f_id row) (is_err out.1.1.2) out.2 (f_slug row) d d' r'.
Proof.
  intros d1 Hd Hid Hst Hin Hout out d'. unfold d', out, run_open. cbn [fst snd]. clear d' out.
  set (spec := generateSpecFrom fs trigger prices defaults). set (a := MkAdapter d1 _ _ _).
  set (out := Run deps rules (scanFeed row) spec (w, a)).
  assert (Hopen : forall e, out.2.2 = a -> out.1.2 = Some e ->
    spend (ad_db out.2.2) = spend d /\ exists r', runs (ad_db out.2.2) = runs d ++ [r'] /\ same_run r0 r' /\
    run_end (f_id row) (is_err out.1.2)
      (if bool_decide (out.1.2 = None) && bool_decide (rr_Status (Run_ out.1.1) = StatusCompleted)
       then invalidateFeedAndAggregates (f_slug row) (ad_db out.2.2) else []) (f_slug row) d (ad_db out.2.2) r').
  { intros e -> ->. cbn. split; [done|]. exists r0. split; [done|]. split; [done|]. by apply end_open. }
  destruct (decide (fd_Kind (scanFeed row) = KindAggregate)) as [Hk|Hk].
  { assert (Eo : out = ((MkRunResult empty_record [], Some (aggregate_error "run")), (w, a))).
    { unfold out, Run. by rewrite bool_decide_eq_true_2. }
    apply (Hopen (aggregate_error "run")); by rewrite Eo. }
  destruct (Run_commits deps rules (scanFeed row) spec Hk (w, a)) as (its & e & Ht & Hc). fold out in Ht, Hc.
  destruct Hc as [(Hc & _ & He)|(cerr & msg & _ & Es & _ & He)]; [|by eapply Hopen].
  clear Hopen. cbn [snd] in Hc. unfold StoreCommit, adapter_store in Hc.
  destruct (adapter_CommitRun _ _ _ _ its (ad_db a)) as [d2|] eqn:E; [|done].
  assert (Ed : ad_db out.2.2 = d2) by (injection Hc as Hc; by rewrite <- Hc). rewrite Ed, He. clear Hc Ed He.
  destruct Ht as [_ _ _ _ Hstatus _ Hits _]. unfold id in *. cbn [fst] in *.
  apply adapter_shape in E as (Hsp & (f & Hf & Hfr) & new & Hi & Hnew); [|done]. cbn [ad_db a] in *.
  split; [by rewrite Hsp|]. exists (f r0). cbn [runs d1 set_runs] in Hf.
  rewrite update_last in Hf by (done || apply next_id_notin). split; [done|].
  destruct (Hfr r0) as (Hsame & Hrs & _). split; [done|]. unfold row_status in Hrs.
  destruct Hstatus as [(Hs & Hne & -> & _)|[(Hs & -> & -> & _)|(Hs & -> & He & _)]]; rewrite Hs in *; cbn in Hrs, Hnew.
  - apply (end_published _ _ _ _ _ _ _ new); try done.
    + intros ->. by apply Forall2_nil_inv_r in Hnew.
    + apply Forall_forall. intros x (i & Hx)%list_elem_of_lookup_1.
      destruct (Forall2_lookup_r _ _ _ _ _ Hnew Hx) as (it & Hit & id & ->). cbn.
      rewrite Forall_forall in Hits. destruct (Hits it) as [Hfeed _]; [by eapply list_elem_of_lookup_2|].
      destruct Hsame as (-> & _). by rewrite Hid, Hfeed.
  - apply end_closed; [by right|by rewrite Hi, Hnew, app_nil_r|done].
  - destruct e as [e|]; [|done]. apply end_closed; [by left|by rewrite Hi, Hnew, app_nil_r|done].
Qed.

End executor_facts.

(** ** Totals *)

Definition total_tokens (sql_sum : list float64 -> float64) (since : Z) (d : Content) : Z :=
  (TotalSpendSince sql_sum 0 since d).1.1 + (TotalSpendSince sql_sum 0 since d).1.2.

Lemma sum_int_snoc {R} (col : R -> Z) (p : R -> Prop) `{forall x, Decision (p x)} t r :
  sum_int col (filter p (t ++ [r])) = sum_int col (filter p t) + (if decide (p r) then col r else 0).
Proof.
  unfold sum_int. rewrite filter_app, fmap_app. cbn. unfold zsum. rewrite foldr_app. destruct (decide (p r)); cbn.
  - induction (filter p t) as [|x l IH]; cbn; lia.
  - induction (filter p t) as [|x l IH]; cbn; lia.
Qed.

Lemma total_tokens_snoc sql_sum since d d' r m :
  runs d' = runs d ++ [r] -> spend d' = spend d -> 0 <= m -> r_tokens_in r + r_tokens_out r <= m ->
  total_tokens sql_sum since d' <= total_tokens sql_sum since d + m.
Proof.
  intros Hr Hs Hm Ht. unfold total_tokens, TotalSpendSince, SpendSince, SampleSpendSince. rewrite Hr, Hs. cbn [fst snd].
  rewrite !sum_int_snoc. destruct (decide _); lia.
Qed.

Lemma countRuns_snoc feed since d d' r :
  runs d' = runs d ++ [r] ->
  countRunsSince feed since d' =
  countRunsSince feed since d + (if (r_feed_id r =? feed) && text_le since (r_started_at r) then 1 else 0).
Proof.
  intros Hr. unfold countRunsSince, affected. rewrite Hr, filter_app, length_app, filter_cons, filter_nil.
  destruct ((r_feed_id r =? feed) && text_le since (r_started_at r));
    [rewrite decide_True by done|rewrite decide_False by done]; cbn [length]; lia.
Qed.

(** A day of gated runs, one after the other: before each the gate lets the feed
    through, and each run that is recorded costs at most [m] tokens. *)
Section day.
Context {W : Type} (sql_sum : list float64 -> float64) (recipe : FeedRow -> option FeedSpec) (deps : Deps W) (rules : Rules)
  (prices : PriceTable) (defaults : providerDefaults) (holder : string) (st : GenSettings) (monthly : float64).

Inductive gated_runs (since m : Z) : W * Content -> W * Content -> Prop :=
| day_over s : gated_runs since m s s
| day_run now now2 ck feedID trigger w d s' out :
    midnightUTC now2 = since -> Allowed sql_sum recipe (Some st) monthly now now2 feedID d = (true, ""%string) ->
    out = Execute recipe deps rules prices defaults holder ck feedID trigger w d ->
    Forall (fun r => r_tokens_in r + r_tokens_out r <= m) (runs out.1.2.2) ->
    gated_runs since m out.1.2 s' -> gated_runs since m (w, d) s'.
End day.

Lemma StartRun_opens checked now feed trigger holder d id d1 :
  content_ok d -> StartRun checked now feed trigger holder d = Ok (id, d1) ->
  id = next_id (runs d) /\ content_ok d1 /\
  exists r0, d1 = set_runs (runs d ++ [r0]) d /\ r_id r0 = id /\ r_status r0 = Running /\ r_tokens_in r0 = 0 /\
    r_tokens_out r0 = 0 /\ r_feed_id r0 = feed /\ r_started_at r0 = now.
Proof.
  intros Hd Hs. assert (Hok : content_ok d1) by (eapply step_ok; [exact Hd|]; by eapply step_StartRun).
  unfold StartRun in Hs. destruct (match newest_running feed d with Some r => _ | None => _ end); [done|].
  destruct (negb (valid_trigger trigger)); [done|]. destruct (negb _); [done|]. injection Hs as <- <-.
  split; [done|]. split; [done|]. by eexists.
Qed.

Lemma loadFeedRow_spec feed d row : loadFeedRow feed d = Some row -> f_id row = feed.
Proof.
  unfold loadFeedRow, find_id. destruct (List.find _ _) as [r|] eqn:E; [|done]. case_bool_decide; [|done]. intros [= <-].
  apply find_some in E as [_ E]. by apply Z.eqb_eq in E.
Qed.

(** Every run [Execute] starts is one new row, and the rest of the table stays. *)
Lemma Execute_ends {W} recipe (deps : Deps W) rules prices defaults holder ck feedID trigger w d :
  content_ok d ->
  let out := Execute recipe deps rules prices defaults holder ck feedID trigger w d in
  let d' := out.1.2.2 in
  (out.1.2 = (w, d) /\ out.2 = []) \/
  (spend d' = spend d /\ exists row r', loadFeedRow feedID d = Some row /\ runs d' = runs d ++ [r'] /\
     r_feed_id r' = feedID /\ r_started_at r' = ck_start ck /\
     run_end feedID (is_err out.1.1) out.2 (f_slug row) d d' r').
Proof.
  intros Hd out d'. unfold d', out, Execute. clear d' out.
  destruct (loadFeedRow feedID d) as [row|] eqn:Er; [|by left]. destruct (recipe row) as [fs|]; [|by left].
  destruct (StartRun _ _ feedID trigger holder d) as [[id d1]|e] eqn:Es; [|left; by destruct e].
  apply StartRun_opens in Es as (-> & Hd1 & r0 & -> & Hid & Hst & Hin & Hout & Hf & Hstart); [|done].
  right. cbn [fst snd]. destruct (run_open_ends deps rules prices defaults ck row fs trigger w d r0) as (Hsp & r' & Hr & Hsame & He); [done..|].
  split; [done|]. exists row, r'. split; [done|]. split; [done|]. destruct Hsame as (_ & Hf' & Hs' & _).
  split; [by rewrite Hf'|]. split; [by rewrite Hs'|]. rewrite (loadFeedRow_spec _ _ _ Er) in He.
  by destruct (run_open _ _ _ _ _ _ _ _ _ _ _).1.1.2.
Qed.

Lemma adapter_step pre now run rec its d d' : adapter_CommitRun pre now run rec its d = Ok d' -> content_step d d'.
Proof.
  unfold adapter_CommitRun. destruct (bool_decide _); [by eapply step_CommitRun|].
  destruct (bool_decide _); [by eapply step_SkipRun|by eapply step_FailRun].
Qed.

Lemma Run_history {W} (deps : Deps W) rules feed spec w a :
  rtc content_step (ad_db a) (ad_db (Run deps rules feed spec (w, a)).2.2).
Proof.
  destruct (decide (fd_Kind feed = KindAggregate)) as [Hk|Hk].
  { unfold Run. by rewrite bool_decide_eq_true_2. }
  destruct (Run_commits deps rules feed spec Hk (w, a)) as (its & e & _ & Hc). set (out := Run deps rules feed spec (w, a)) in *.
  destruct Hc as [(Hc & _)|(? & ? & _ & -> & _)]; [|done]. cbn [snd] in Hc. unfold StoreCommit, adapter_store in Hc.
  destruct (adapter_CommitRun _ _ _ _ its (ad_db a)) as [d2|] eqn:E; [|done]. injection Hc as Hc. rewrite <- Hc.
  by eapply rtc_once, adapter_step.
Qed.

Lemma Execute_history {W} recipe (deps : Deps W) rules prices defaults holder ck feedID trigger w d :
  rtc content_step d (Execute recipe deps rules prices defaults holder ck feedID trigger w d).1.2.2.
Proof.
  unfold Execute. destruct (loadFeedRow feedID d) as [row|]; [|done]. destruct (recipe row) as [fs|]; [|done].
  destruct (StartRun _ _ feedID trigger holder d) as [[id d1]|e] eqn:Es; [|by destruct e]. cbn [fst snd].
  eapply rtc_l; [by eapply step_StartRun|]. unfold run_open. cbn [fst snd]. exact (Run_history deps rules (scanFeed row) _ w (MkAdapter d1 id _ _)).
Qed.

(** ** Theorems *)


(** C11: the daily ceilings hold over a day of gated runs, one after the other: the
    tokens recorded since midnight stay within the global ceiling but for one
    run's worth, the one the gate let through last, unless they were over it to
    begin with; and a feed never has more runs than its daily cap. *)
Theorem daily_ceilings_hold {W} sql_sum recipe (deps : Deps W) rules prices defaults holder st monthly since m s s' :
  content_ok s.2 -> 0 <= m ->
  gated_runs sql_sum recipe deps rules prices defaults holder st monthly since m s s' ->
  (0 < GlobalDailyTokenCeiling st ->
   total_tokens sql_sum since s'.2 <= Z.max (total_tokens sql_sum since s.2) (GlobalDailyTokenCeiling st + m)) /\
  (forall feed cap, 0 < cap -> (forall row fs, f_id row = feed -> recipe row = Some fs -> DailyRuns (fs_Budgets fs) = cap) ->
   countRunsSince feed since s'.2 <= Z.max (countRunsSince feed since s.2) cap).
Proof.
  intros Hd Hm Hg. induction Hg as [s|now now2 ck feedID trigger w d s' out Hsince Hall -> Hcost Hg IH].
  { split; intros; lia. }
  cbn [snd] in *. set (out := Execute _ _ _ _ _ _ _ _ _ _ _) in *.
  destruct IH as [IH1 IH2]; [by eapply history_ok, Execute_history|].
  unfold Allowed in Hall. destruct (negb (gs_Enabled st)); [done|].
  destruct (loadFeedRow feedID d) as [row|] eqn:Er; [|done]. destruct (negb (f_enabled row)); [done|].
  destruct (recipe row) as [fs|] eqn:Ef; [|done]. rewrite Hsince in Hall. unfold CheckRequest in Hall.
  cbn [PerFeedDailyRuns PerFeedDailyTokens GlobalDailyTokens sd_Runs spend_of Projected] in Hall.
  destruct ((0 <? DailyRuns (fs_Budgets fs)) && _) eqn:Eruns; [done|].
  destruct ((0 <? DailyTokens (fs_Budgets fs)) && _); [done|].
  destruct ((0 <? GlobalDailyTokenCeiling st) && _) eqn:Etok; [done|]. clear Hall.
  destruct (Execute_ends recipe deps rules prices defaults holder ck feedID trigger w d Hd) as [[E1 E2]|(Hsp & row' & r & _ & Hr & Hfeed & _)].
  - fold out in E1. rewrite E1 in IH1, IH2. split; [intros Hc; specialize (IH1 Hc)|intros feed cap Hcap Hr; specialize (IH2 feed cap Hcap Hr)]; cbn in *; lia.
  - fold out in Hr, Hsp. split.
    + intros Hc. specialize (IH1 Hc). apply Z.ltb_lt in Hc. rewrite Hc in Etok. cbn [andb] in Etok. apply Z.ltb_ge in Etok.
      change (total_tokens sql_sum since d + 0 <= GlobalDailyTokenCeiling st) in Etok.
      pose proof (total_tokens_snoc sql_sum since d out.1.2.2 r m Hr Hsp Hm) as Hsn.
      rewrite Hr, Forall_app, Forall_cons in Hcost. destruct Hcost as (_ & Hcost & _). specialize (Hsn Hcost). lia.
    + intros feed cap Hcap Hrec. specialize (IH2 feed cap Hcap Hrec).
      rewrite (countRuns_snoc feed since d out.1.2.2 r Hr) in IH2. destruct ((r_feed_id r =? feed) && text_le since (r_started_at r)) eqn:Ec; [|lia].
      apply andb_true_iff in Ec as [Ec%Z.eqb_eq _]. rewrite Hfeed in Ec. subst feedID.
      rewrite (Hrec row fs (loadFeedRow_spec _ _ _ Er) Ef) in Eruns.
      apply Z.ltb_lt in Hcap. rewrite Hcap in Eruns. cbn [andb] in Eruns. apply Z.ltb_ge in Eruns. apply Z.ltb_lt in Hcap. lia.
Qed.

(** ** A concrete day *)

Definition demo_fs : FeedSpec :=
  MkFeedSpec "trivia" "Trivia" "" "en" "generative" "0 12 * * *" "UTC" None "" 3 50
    (MkModelParams "model" f64_zero "balanced" "" false) "system" "prompt" (MkNoveltyParams 50 default_threshold 2)
    (MkBudgets 200000 24) [] [].
Definition demo_recipe (r : FeedRow) : option FeedSpec := Some demo_fs.
Definition demo_settings : GenSettings := MkGenSettings true 2000000 (f64_of_int 5).
Definition demo_clock : RunClock := MkRunClock (t0 + 30 * second) (t0 + 30 * second) (t0 + 41 * second) true.
Definition demo_execute := Execute demo_recipe (demo_deps [titled "A new question"]) demo_rules NewTable
  (MkDefaults "model" "low") "host" demo_clock 1 "cron" 0%nat d_done.
Definition first_cost (l : list float64) : float64 := default f64_zero (head l).

Lemma d_done_ok : content_ok d_done.
Proof. apply reachable_ok, d_done_reachable. Qed.


Lemma daily_ceilings_hold_witness :
  countRunsSince 1 (midnightUTC t0) demo_execute.1.2.2 <= Z.max (countRunsSince 1 (midnightUTC t0) d_done) 24.
Proof.
  refine (proj2 (daily_ceilings_hold first_cost demo_recipe (demo_deps [titled "A new question"]) demo_rules NewTable
    (MkDefaults "model" "low") "host" demo_settings f64_zero (midnightUTC t0) 1000 (0%nat, d_done) demo_execute.1.2 _ _ _) 1 24 _ _).
  - exact d_done_ok.
  - lia.
  - apply (day_run _ _ _ _ _ _ _ _ _ _ _ t0 t0 demo_clock 1 "cron" 0%nat d_done _ demo_execute).
    + reflexivity.
    + vm_compute. reflexivity.
    + reflexivity.
    + apply Forall_forall. intros r Hr. vm_compute in Hr.
      repeat (apply elem_of_cons in Hr as [->|Hr]; [vm_compute; discriminate|]). by apply elem_of_nil in Hr.
    + apply day_over.
  - lia.
  - intros row fs _ [= <-]. reflexivity.
Defined.

(** [d_done] and a failed run of four dollars. *)
Definition d_spent : Content :=
  StoreHistory.get d_done
    (let? p := StartRun (t0 + 30 * second) (t0 + 30 * second) 1 "cron" "host" d_done in
     FailRun (t0 + 40 * second) p.1 "transient" "timeout" (MkSummary 10 10 (f64_of_int 4) 0 ∅) p.2).

(** previews are not held to the monthly ceiling: with three dollars allowed a
    month and four spent, the gate refuses a run of the feed, and the check of a
    preview still allows it. *)
Theorem preview_ignores_monthly_ceiling :
  let sum := fun l => fold_left f64_add l f64_zero in
  (TotalSpendSince sum 0 (MonthStart t0) d_spent).2 = f64_of_int 4 /\
  Allowed sum demo_recipe (Some demo_settings) (f64_of_int 3) t0 t0 1 d_spent = (false, ReasonMonthlyUSDCap) /\
  Allow (CheckSample sum demo_recipe (Some demo_settings) t0 1 500 d_spent) = true.
Proof. vm_compute. done. Qed.

(** The gate projects nothing: a feed whose tokens of the day have reached the
    ceiling exactly still runs. *)
Lemma gate_allows_at_the_ceiling :
  let st := MkGenSettings true (total_tokens first_cost (midnightUTC t0) d_done) f64_zero in
  0 < GlobalDailyTokenCeiling st /\
  Allowed first_cost demo_recipe (Some st) f64_zero t0 t0 1 d_done = (true, ""%string).
Proof. vm_compute. done. Qed.
