(* ===== verification/Password.v ===== *)
(** * Passwords: internal/auth/password.go, pepper.go, breached.go

    The policy, the blocklist, the PHC encoding of a derived key and its
    decoding, and the two pairs of functions that make and check a hash.

    Taken as arguments: [NFKC] (golang.org/x/text), [IDKey]
    (golang.org/x/crypto/argon2), the SHA-256 HMAC, the hexadecimal SHA-1 and
    Unicode's two case tables.  A byte slice is a [string]. *)

From S2P Require Import Prelude GoStrings.
From Stdlib Require Import String Ascii.
Local Open Scope string_scope.
Local Open Scope Z_scope.

(** ** base64.RawStdEncoding *)

Definition b64_alphabet : list ascii :=
  Eval vm_compute in list_ascii_of_string "ABCDEFGHIJKLMNOPQRSTUVWXYZabcdefghijklmnopqrstuvwxyz0123456789+/".

Definition b64_char (n : Z) : ascii := List.nth (Z.to_nat (n mod 64)) b64_alphabet zero.

Definition b64_value (a : ascii) : option Z :=
  let n := Z.of_nat (nat_of_ascii a) in
  if (65 <=? n) && (n <=? 90) then Some (n - 65)
  else if (97 <=? n) && (n <=? 122) then Some (n - 71)
  else if (48 <=? n) && (n <=? 57) then Some (n + 4)
  else if n =? 43 then Some 62 else if n =? 47 then Some 63 else None.

Definition code_of (a : ascii) : Z := Z.of_nat (nat_of_ascii a).

Fixpoint b64_encode (s : string) : string :=
  match s with
  | EmptyString => EmptyString
  | String a EmptyString =>
      let v := code_of a * 65536 in
      String (b64_char (v / 262144)) (String (b64_char (v / 4096)) EmptyString)
  | String a (String b EmptyString) =>
      let v := code_of a * 65536 + code_of b * 256 in
      String (b64_char (v / 262144)) (String (b64_char (v / 4096)) (String (b64_char (v / 64)) EmptyString))
  | String a (String b (String c r)) =>
      let v := code_of a * 65536 + code_of b * 256 + code_of c in
      String (b64_char (v / 262144)) (String (b64_char (v / 4096))
        (String (b64_char (v / 64)) (String (b64_char v) (b64_encode r))))
  end.

(** Line ends are skipped; the spare bits of a short last group are ignored. *)
Fixpoint strip_newlines (s : string) : string :=
  match s with
  | EmptyString => EmptyString
  | String a r => if Ascii.eqb a "010" || Ascii.eqb a "013" then strip_newlines r else String a (strip_newlines r)
  end.

Fixpoint b64_groups (s : string) : option string :=
  match s with
  | EmptyString => Some EmptyString
  | String _ EmptyString => None
  | String a (String b EmptyString) =>
      x ← b64_value a; y ← b64_value b;
      Some (String (byte (x * 4 + y / 16)) EmptyString)
  | String a (String b (String c EmptyString)) =>
      x ← b64_value a; y ← b64_value b; z ← b64_value c;
      Some (String (byte (x * 4 + y / 16)) (String (byte (y mod 16 * 16 + z / 4)) EmptyString))
  | String a (String b (String c (String d r))) =>
      x ← b64_value a; y ← b64_value b; z ← b64_value c; w ← b64_value d; rest ← b64_groups r;
      Some (String (byte (x * 4 + y / 16))
             (String (byte (y mod 16 * 16 + z / 4)) (String (byte (z mod 4 * 64 + w)) rest)))
  end.

Definition b64_decode (s : string) : option string := b64_groups (strip_newlines s).

(** ** Parameters *)

Record Params := MkParams { Time : Z; Memory : Z; Threads : Z; SaltLen : Z; KeyLen : Z }.

Definition DefaultParams : Params := MkParams 3 (64 * 1024) 1 16 32.
Definition argon2Variant : string := "argon2id".
Definition argon2Version : Z := 19.
Definition u32 (n : Z) : Z := n mod 2 ^ 32.
Definition len (s : string) : Z := Z.of_nat (String.length s).

Inductive weakness := TooShort | TooLong | Breached.

Inductive hash_error :=
| MalformedEncoding | MalformedVersion | MalformedParams | ParamsOutOfRange | ParamsExceedCeiling
| MalformedSaltOrKey | EmptySaltOrKey
| UnsupportedVariant (v : string) | UnsupportedVersion (n : Z).

(** ** The PHC string *)

Definition encode_hash (p : Params) (salt key : string) : string :=
  "$" ++ argon2Variant ++ "$v=" ++ show_int argon2Version ++ "$m=" ++ show_int (Memory p)
  ++ ",t=" ++ show_int (Time p) ++ ",p=" ++ show_int (Threads p)
  ++ "$" ++ b64_encode salt ++ "$" ++ b64_encode key.

(** The loop over the three fields; a repeated name overwrites. *)
Fixpoint read_params (fields : list string) (m t threads : Z) : result hash_error (Z * Z * Z) :=
  match fields with
  | [] => Ok (m, t, threads)
  | f :: rest =>
      match cut f "=" with
      | None => Err MalformedParams
      | Some (k, val) =>
          match Atoi val with
          | None => Err MalformedParams
          | Some v =>
              if String.eqb k "m" then read_params rest v t threads
              else if String.eqb k "t" then read_params rest m v threads
              else if String.eqb k "p" then read_params rest m t v
              else Err MalformedParams
          end
      end
  end.

Definition paramCeilingMultiple : Z := 4.

Definition decode (encoded : string) : result hash_error (string * Z * Params * string * string) :=
  match Split encoded "$" with
  | [e0; variant; vfield; pfield; saltb; keyb] =>
      if negb (String.eqb e0 "") then Err MalformedEncoding else
      match strip_prefix "v=" vfield with
      | None => Err MalformedVersion
      | Some vtext =>
        match Atoi vtext with
        | None => Err MalformedVersion
        | Some version =>
          let fields := Split pfield "," in
          if negb (Nat.eqb (List.length fields) 3) then Err MalformedParams else
          let? (m, t, threads) := read_params fields 0 0 0 in
          if (m <=? 0) || (t <=? 0) || (threads <=? 0) || (2 ^ 32 - 1 <? m) || (2 ^ 32 - 1 <? t) || (2 ^ 8 - 1 <? threads)
          then Err ParamsOutOfRange else
          let def := DefaultParams in
          if (Memory def * paramCeilingMultiple <? m) || (Time def * paramCeilingMultiple <? t)
             || (Threads def * paramCeilingMultiple <? threads)
          then Err ParamsExceedCeiling else
          match b64_decode saltb, b64_decode keyb with
          | Some salt, Some key =>
              if (len salt =? 0) || (len key =? 0) then Err EmptySaltOrKey
              else Ok (variant, version, MkParams (u32 t) (u32 m) (threads mod 2 ^ 8) (u32 (len salt)) (u32 (len key)), salt, key)
          | _, _ => Err MalformedSaltOrKey
          end
        end
      end
  | _ => Err MalformedEncoding
  end.

(** ** Shapes of a password, on its runes *)

(** [r[i] == r[i%unit]] for every [i] from [unit] on. *)
Definition cycles (unit_ : nat) (r : list Z) : bool :=
  forallb (fun i => bool_decide (r !! i = r !! (i mod unit_)%nat)) (seq unit_ (List.length r - unit_)).

(** The loop over the units, while two of them fit. *)
Fixpoint cycle_units (units : list nat) (r : list Z) : bool :=
  match units with
  | [] => false
  | u :: rest =>
      if (u * 2 <=? List.length r)%nat then
        if (List.length r mod u =? 0)%nat && cycles u r then true else cycle_units rest r
      else false
  end.

Definition isShortCycle (s : string) : bool := cycle_units [1; 2; 3; 4]%nat (runes s).

Fixpoint sequential_from (prev : Z) (up down : bool) (r : list Z) : bool :=
  match r with
  | [] => true
  | x :: rest =>
      let up := up && (x =? prev + 1) in
      let down := down && (x =? prev - 1) in
      if negb up && negb down then false else sequential_from x up down rest
  end.

Definition isSequential (s : string) : bool :=
  match runes s with
  | x :: rest => (4 <=? List.length (x :: rest))%nat && sequential_from x true true rest
  | [] => false
  end.

Definition isSingleRuneRepeat (s : string) : bool :=
  match runes s with
  | first :: rest => forallb (fun r => r =? first) rest
  | [] => false
  end.

(** ** Case *)

(** [strings.Map] with a table that keeps runes valid; a byte that is not part
    of a rune becomes U+FFFD. *)
Definition map_runes (f : Z -> Z) (s : string) : string :=
  foldr (fun r acc => encode_rune (f r) ++ acc) "" (runes s).

(** [strings.TrimRight] with a cutset of ASCII bytes. *)
Fixpoint trim_cutset_left (cutset s : string) : string :=
  match s with
  | EmptyString => EmptyString
  | String a r => if existsb (Ascii.eqb a) (list_ascii_of_string cutset) then trim_cutset_left cutset r else s
  end.
Definition TrimRight (s cutset : string) : string := srev (trim_cutset_left cutset (srev s)).

Definition commonPasswords : list string :=
  ["password"; "password1"; "password123"; "passw0rd"; "p@ssw0rd"; "p@ssword";
   "123456"; "12345678"; "123456789"; "1234567890"; "qwerty"; "qwertyuiop";
   "letmein"; "welcome"; "admin"; "administrator"; "root"; "iloveyou";
   "monkey"; "dragon"; "sunshine"; "princess"; "football"; "baseball";
   "abc123"; "111111"; "000000"; "trustno1"; "changeme"; "secret";
   "correcthorsebatterystaple";
   "passwordpassword"; "adminadmin"; "letmeinplease"; "thisisapassword";
   "qwertyuiopasdfgh"; "1234567890123456"; "aaaaaaaaaaaaaaaa"].

Definition breachedCommon (p : string) : bool := existsb (String.eqb p) commonPasswords.

Definition minPasswordLen : Z := 15.
Definition maxPasswordLen : Z := 128.

(** The message of [IsWeak]'s error. *)
Definition weakness_text (w : weakness) : string :=
  match w with
  | TooShort => "auth: password must be at least " ++ show_int minPasswordLen ++ " characters"
  | TooLong => "auth: password must be at most " ++ show_int maxPasswordLen ++ " characters"
  | Breached => "auth: password appears in a compromised-password list; choose another"
  end.

(** What the functions below are given. *)
Record primitives := MkPrimitives {
  NFKC : string -> string;
  lower_rune : Z -> Z;
  upper_rune : Z -> Z;
  sha1hex : string -> string;
  IDKey : string -> string -> Z -> Z -> Z -> Z -> string;
  hmac_sha256 : string -> string -> string;
  breachedSHA1 : option (gset string) }.

Section password.
Context (P : primitives).

Definition Normalize (password : string) : string := NFKC P password.

Definition IsBreached (password : string) : bool :=
  let p := map_runes (lower_rune P) (TrimSpace (Normalize password)) in
  if String.eqb p "" then false
  else if match breachedSHA1 P with
          | Some loaded => bool_decide (map_runes (upper_rune P) (sha1hex P password) ∈ loaded)
          | None => false
          end then true
  else if breachedCommon p then true
  else
    let stripped := TrimRight p "0123456789!@#$" in
    if negb (String.eqb stripped p) && negb (String.eqb stripped "") && breachedCommon stripped then true
    else isSingleRuneRepeat p || isShortCycle p || isSequential p.

Definition IsWeak (password : string) : option weakness :=
  let p := Normalize password in
  let n := RuneCountInString p in
  if n <? minPasswordLen then Some TooShort
  else if maxPasswordLen <? n then Some TooLong
  else if IsBreached p then Some Breached else None.

(** ** Hashing; [salt] are the bytes drawn *)

Definition derive_key (p : Params) (keyLen : Z) (salt pw : string) : string :=
  IDKey P pw salt (Time p) (Memory p) (Threads p) keyLen.

Definition Hash (password : string) (p : Params) (salt : string) : result weakness string :=
  match IsWeak password with
  | Some e => Err e
  | None => Ok (encode_hash p salt (derive_key p (KeyLen p) salt (Normalize password)))
  end.

Definition Pepper (argonOutput pepper : string) : string :=
  if len pepper =? 0 then argonOutput else hmac_sha256 P pepper argonOutput.

Definition VerifyPeppered (candidate stored pepper : string) : bool := String.eqb (Pepper candidate pepper) stored.

Definition HashPeppered (password : string) (p : Params) (pepper salt : string) : result weakness string :=
  match IsWeak password with
  | Some e => Err e
  | None => Ok (encode_hash p salt (Pepper (derive_key p (KeyLen p) salt (Normalize password)) pepper))
  end.

Definition weaker_than_default (p : Params) (keyLen : Z) : bool :=
  let def := DefaultParams in
  (Time p <? Time def) || (Memory p <? Memory def) || (Threads p <? Threads def) || (keyLen <? KeyLen def).

(** The pair is [(ok, needsRehash)]; a raw match is the fallback for a hash made
    before passwords were normalised. *)
Definition Verify (password encoded : string) : result hash_error (bool * bool) :=
  let? (variant, version, p, salt, key) := decode encoded in
  if negb (String.eqb variant argon2Variant) then Err (UnsupportedVariant variant) else
  if negb (version =? argon2Version) then Err (UnsupportedVersion version) else
  let derive := derive_key p (u32 (len key)) salt in
  let normalized := Normalize password in
  let first := String.eqb (derive normalized) key in
  let legacy := negb first && negb (String.eqb normalized password) && String.eqb (derive password) key in
  let match_ := first || legacy in
  Ok (match_, match_ && (weaker_than_default p (u32 (len key)) || legacy)).

Definition VerifyPasswordPeppered (password encoded pepper : string) : result hash_error (bool * bool) :=
  let? (variant, version, p, salt, key) := decode encoded in
  if negb (String.eqb variant argon2Variant) then Err (UnsupportedVariant variant) else
  if negb (version =? argon2Version) then Err (UnsupportedVersion version) else
  let derive := derive_key p (u32 (len key)) salt in
  let normalized := Normalize password in
  let first := VerifyPeppered (derive normalized) key pepper in
  let legacy := negb first && negb (String.eqb normalized password) && VerifyPeppered (derive password) key pepper in
  let match_ := first || legacy in
  Ok (match_, match_ && (weaker_than_default p (u32 (len key)) || legacy)).
End password.

(** ** Loading a corpus *)

(** [bufio.ScanLines]: without the line end and a carriage return before it;
    a last empty line is not a token. *)
Definition drop_cr (s : string) : string :=
  match srev s with String a r => if Ascii.eqb a "013" then srev r else s | EmptyString => s end.

Fixpoint scan_lines (l : list string) : list string :=
  match l with
  | [] => []
  | [x] => if String.eqb x "" then [] else [drop_cr x]
  | x :: rest => drop_cr x :: scan_lines rest
  end.

(** A line of a megabyte does not fit the scanner's buffer. *)
Definition LoadBreachedSHA1 (upper_rune : Z -> Z) (content : string) : option (nat * gset string) :=
  let raw := Split content "010" in
  if existsb (fun l => 2 ^ 20 <=? len l) raw then None
  else
    let set_ := foldl (fun (acc : gset string) text =>
                  let line := TrimSpace text in
                  if String.eqb line "" then acc
                  else let line := match cut line ":" with Some (x, _) => x | None => line end in
                       {[ map_runes upper_rune line ]} ∪ acc) ∅ (scan_lines raw) in
    Some (size set_, set_).

(** ** base64 *)

Definition b64_byte (a : ascii) : bool := existsb (Ascii.eqb a) b64_alphabet.

Lemma b64_chars :
  Forall (fun n => b64_value (b64_char (Z.of_nat n)) = Some (Z.of_nat n) /\ b64_byte (b64_char (Z.of_nat n)) = true) (seq 0 64).
Proof. apply (bool_decide_eq_true_1 (Forall _ _)). vm_compute. reflexivity. Qed.

Lemma b64_char_spec n : b64_value (b64_char n) = Some (n mod 64) /\ b64_byte (b64_char n) = true.
Proof.
  pose proof (Z.mod_pos_bound n 64 ltac:(lia)) as Hn.
  pose proof (proj1 (Forall_forall _ _) b64_chars (Z.to_nat (n mod 64)) ltac:(apply elem_of_seq; lia)) as H.
  cbv beta in H. rewrite Z2Nat.id in H by lia.
  assert (E : b64_char n = b64_char (n mod 64)) by (unfold b64_char; by rewrite Z.mod_mod by lia).
  by rewrite E.
Qed.

Lemma code_of_range a : 0 <= code_of a < 256.
Proof. unfold code_of. pose proof (nat_ascii_bounded a). lia. Qed.

Lemma byte_of_code x a : x = code_of a -> byte x = a.
Proof. intros ->. unfold byte, code_of. by rewrite Nat2Z.id, ascii_nat_embedding. Qed.

Lemma b64_groups_encode : forall s, b64_groups (b64_encode s) = Some s.
Proof.
  fix IH 1. intros [|a [|b [|c r]]]; [done|..]; cbn [b64_encode b64_groups]; rewrite ?IH;
    rewrite ?(proj1 (b64_char_spec _)); cbn [mbind option_bind]; repeat f_equal; apply byte_of_code;
    pose proof (code_of_range a); try pose proof (code_of_range b); try pose proof (code_of_range c); dlia.
Qed.

Lemma b64_encode_bytes : forall s, all_bytes b64_byte (b64_encode s) = true.
Proof.
  fix IH 1. intros [|a [|b [|c r]]]; [done|..]; cbn [b64_encode]; rewrite ?all_bytes_cons, ?(proj2 (b64_char_spec _)); try done.
  exact (IH r).
Qed.

Lemma strip_newlines_id s : all_bytes b64_byte s = true -> strip_newlines s = s.
Proof.
  induction s as [|a s IH]; [done|]. rewrite all_bytes_cons. intros [Ha Hs]%andb_true_iff. cbn [strip_newlines].
  rewrite IH by done. destruct (Ascii.eqb_spec a "010") as [->|]; [done|]. by destruct (Ascii.eqb_spec a "013") as [->|].
Qed.

Lemma b64_roundtrip s : b64_decode (b64_encode s) = Some s.
Proof. unfold b64_decode. rewrite strip_newlines_id by apply b64_encode_bytes. apply b64_groups_encode. Qed.

(** A byte that no byte of [s] is. *)
Lemma lacks_bytes (p : ascii -> bool) c s : p c = false -> all_bytes p s = true -> lacks c s.
Proof.
  intros Hc. apply all_bytes_weaken. intros a Ha. apply negb_true_iff, Ascii.eqb_neq. intros ->. congruence.
Qed.

Lemma b64_lacks c s : b64_byte c = false -> lacks c (b64_encode s).
Proof. intros Hc. by apply (lacks_bytes b64_byte), b64_encode_bytes. Qed.

Lemma show_lacks c n : digit_byte c = false -> 0 <= n -> lacks c (show_int n).
Proof. intros Hc Hn. by apply (lacks_bytes digit_byte), show_int_bytes. Qed.

(** ** The PHC string *)

Record in_ceiling (p : Params) : Prop := {
  ic_memory : 0 < Memory p <= 262144; ic_time : 0 < Time p <= 12; ic_threads : 0 < Threads p <= 4 }.

Definition param_text (p : Params) : string :=
  ("m=" ++ show_int (Memory p)) ++ String "," (("t=" ++ show_int (Time p)) ++ String "," ("p=" ++ show_int (Threads p))).

Lemma encode_hash_parts p salt key :
  encode_hash p salt key =
  "" ++ String "$" (argon2Variant ++ String "$" ("v=19" ++ String "$" (param_text p ++ String "$"
    (b64_encode salt ++ String "$" (b64_encode key))))).
Proof.
  unfold encode_hash, param_text. change (show_int argon2Version) with "19".
  repeat (rewrite ?str_app_assoc, ?str_app_cons, ?str_app_nil_l). done.
Qed.

Lemma Split_params p :
  in_ceiling p -> Split (param_text p) "," = ["m=" ++ show_int (Memory p); "t=" ++ show_int (Time p); "p=" ++ show_int (Threads p)].
Proof.
  intros []. unfold param_text.
  rewrite !Split_cons, Split_lacks; [done|..]; apply lacks_app; (split; [done|]); apply show_lacks; solve [done|lia].
Qed.

Lemma param_text_lacks p : in_ceiling p -> lacks "$" (param_text p).
Proof.
  intros []. unfold param_text.
  repeat (rewrite lacks_app || rewrite lacks_cons || (split_and!; [done..|])); split_and!; try done; apply show_lacks; solve [done|lia].
Qed.

Lemma read_field k n rest m t th :
  0 <= n < 2 ^ 63 -> lacks "=" k ->
  read_params ((k ++ String "=" (show_int n)) :: rest) m t th =
  (if String.eqb k "m" then read_params rest n t th
   else if String.eqb k "t" then read_params rest m n th
   else if String.eqb k "p" then read_params rest m t n else Err MalformedParams).
Proof. intros Hn Hk. cbn [read_params]. by rewrite cut_app, Atoi_show. Qed.

Lemma read_param_text p :
  in_ceiling p ->
  read_params ["m=" ++ show_int (Memory p); "t=" ++ show_int (Time p); "p=" ++ show_int (Threads p)] 0 0 0
  = Ok (Memory p, Time p, Threads p).
Proof.
  intros []. change ("m=" ++ ?x) with ("m" ++ String "=" x). change ("t=" ++ ?x) with ("t" ++ String "=" x).
  change ("p=" ++ ?x) with ("p" ++ String "=" x).
  rewrite (read_field "m"); [|lia|done]. change (String.eqb "m" "m") with true. cbv iota.
  rewrite (read_field "t"); [|lia|done]. change (String.eqb "t" "m") with false. change (String.eqb "t" "t") with true. cbv iota.
  rewrite (read_field "p"); [|lia|done]. reflexivity.
Qed.

Lemma decode_encode p salt key :
  in_ceiling p -> salt <> "" -> key <> "" ->
  decode (encode_hash p salt key)
  = Ok (argon2Variant, argon2Version, MkParams (Time p) (Memory p) (Threads p) (u32 (len salt)) (u32 (len key)), salt, key).
Proof.
  intros Hp Hs Hk. rewrite encode_hash_parts. unfold decode.
  rewrite !Split_cons, Split_lacks by solve [done | by apply param_text_lacks | by apply b64_lacks].
  cbn [String.eqb negb strip_prefix]. cbn -[Split read_params b64_decode b64_encode u32 len Atoi].
  change (Atoi "19") with (Some argon2Version). cbv iota.
  rewrite Split_params, read_param_text by done. destruct Hp. cbn -[b64_decode b64_encode u32 len].
  rewrite !b64_roundtrip.
  rewrite (proj2 (Z.leb_gt (Memory p) 0)), (proj2 (Z.leb_gt (Time p) 0)), (proj2 (Z.leb_gt (Threads p) 0)) by lia.
  unfold paramCeilingMultiple. repeat (rewrite (proj2 (Z.ltb_ge _ _)); [|lia]). cbn [orb].
  assert (Hl : forall s, s <> "" -> (len s =? 0) = false) by (intros []; [done|]; intros _; apply Z.eqb_neq; unfold len; cbn; lia).
  rewrite !Hl by done. cbn [orb]. unfold u32. rewrite (Z.mod_small (Time p)), (Z.mod_small (Memory p)), (Z.mod_small (Threads p)) by lia. done.
Qed.

(** whatever string is stored as a hash, the parameters argon2 is run with
    are bounded: at most 256 MiB, twelve passes and four lanes, and never zero;
    salt and key are not empty, their lengths are recorded, and writing the
    parts again gives a string that decodes to the same parts. *)
Theorem decoded_cost_is_bounded encoded variant version p salt key :
  decode encoded = Ok (variant, version, p, salt, key) ->
  0 < Memory p <= 256 * 1024 /\ 0 < Time p <= 12 /\ 0 < Threads p <= 4
  /\ salt <> "" /\ key <> "" /\ SaltLen p = len salt mod 2 ^ 32 /\ KeyLen p = len key mod 2 ^ 32
  /\ decode (encode_hash p salt key) = Ok (argon2Variant, argon2Version, p, salt, key).
Proof.
  intros H. unfold decode in H. destruct (Split encoded "$") as [|e0 [|v [|vf [|pf [|sb [|kb [|]]]]]]]; try done.
  destruct (negb _) in H; [done|]. destruct (strip_prefix _ _) as [vt|]; [|done]. destruct (Atoi _) as [n|]; [|done]. destruct (negb _); [done|].
  apply rbind_Ok in H as ([[m t] th] & _ & H). destruct (_ || _) eqn:E1 in H; [done|].
  destruct (_ || _) eqn:E2 in H; [done|]. destruct (b64_decode sb) as [s|]; [|done]. destruct (b64_decode kb) as [k|]; [|done].
  destruct (_ || _) eqn:E3 in H; [done|]. injection H as <- <- <- <- <-. bools. cbn in *.
  unfold u32. rewrite !(Z.mod_small m), !(Z.mod_small t), !(Z.mod_small th) by lia.
  assert (Hs : s <> "" /\ k <> "") by (split; by intros ->). destruct Hs as [Hs Hk].
  assert (Hc : in_ceiling (MkParams t m th (len s mod 2 ^ 32) (len k mod 2 ^ 32))) by (split; cbn; unfold paramCeilingMultiple in *; lia).
  split_and!; try apply Hc; try done. by rewrite decode_encode.
Qed.

Section roundtrip.
Context (P : primitives).
(** The lengths the two packages document. *)
Context (IDKey_len : forall pw salt t m th n, 0 < n -> len (IDKey P pw salt t m th n) = n).
Context (hmac_len : forall k x, len (hmac_sha256 P k x) = 32).

Lemma peppered_len p pepper salt pw :
  0 < KeyLen p -> len pepper = 0 \/ KeyLen p = 32 -> len (Pepper P (derive_key P p (KeyLen p) salt pw) pepper) = KeyLen p.
Proof.
  intros Hk Hp. unfold Pepper. destruct (Z.eqb_spec (len pepper) 0); [by apply IDKey_len|]. rewrite hmac_len. lia.
Qed.

(** Checking against a hash that was just written. *)
Lemma verify_encoded p pepper salt stored pw :
  in_ceiling p -> salt <> "" -> len stored = KeyLen p -> 0 < KeyLen p < 2 ^ 32 ->
  let key s := Pepper P (derive_key P p (KeyLen p) salt s) pepper in
  let first := String.eqb (key (Normalize P pw)) stored in
  let legacy := negb first && negb (String.eqb (Normalize P pw) pw) && String.eqb (key pw) stored in
  VerifyPasswordPeppered P pw (encode_hash p salt stored) pepper
  = Ok (first || legacy, (first || legacy) && (weaker_than_default p (KeyLen p) || legacy)).
Proof.
  intros Hc Hs Hl Hk key first legacy. unfold VerifyPasswordPeppered.
  assert (Hne : stored <> "") by (intros ->; change (0 = KeyLen p) in Hl; lia).
  rewrite decode_encode by done. cbn [rbind].
  rewrite String.eqb_refl. cbn [negb]. rewrite Hl. unfold u32. rewrite (Z.mod_small (KeyLen p)) by lia. rewrite Z.eqb_refl. cbn [negb]. done.
Qed.

Lemma hashed_verifies p pepper salt pw encoded :
  in_ceiling p -> 0 < KeyLen p < 2 ^ 32 -> salt <> "" -> len pepper = 0 \/ KeyLen p = 32 ->
  HashPeppered P pw p pepper salt = Ok encoded ->
  VerifyPasswordPeppered P pw encoded pepper = Ok (true, weaker_than_default p (KeyLen p)).
Proof.
  intros Hc Hk Hs Hp Hh. unfold HashPeppered in Hh. destruct (IsWeak P pw); [done|]. injection Hh as <-.
  rewrite verify_encoded by (try done; by apply peppered_len; [lia|]). rewrite String.eqb_refl. cbn. by rewrite orb_false_r.
Qed.

(** a password verifies against the hash made of it, under the pepper it
    was made with, and asks for a new hash exactly when its parameters are below
    today's; another password is accepted exactly when it, or its NFKC form,
    derives the stored key.  Without a pepper the plain pair of functions gives
    the same hashes and the same answers. *)
Theorem password_roundtrip p pepper salt pw encoded :
  in_ceiling p -> 0 < KeyLen p < 2 ^ 32 -> salt <> "" -> len pepper = 0 \/ KeyLen p = 32 ->
  HashPeppered P pw p pepper salt = Ok encoded ->
  let key s := Pepper P (derive_key P p (KeyLen p) salt s) pepper in
  VerifyPasswordPeppered P pw encoded pepper = Ok (true, weaker_than_default p (KeyLen p))
  /\ (forall pw', (exists rehash, VerifyPasswordPeppered P pw' encoded pepper = Ok (true, rehash))
        <-> key (Normalize P pw') = key (Normalize P pw) \/ key pw' = key (Normalize P pw))
  /\ (pepper = "" -> Hash P pw p salt = Ok encoded
        /\ forall pw', Verify P pw' encoded = VerifyPasswordPeppered P pw' encoded pepper).
Proof.
  intros Hc Hk Hs Hp Hh key. pose proof (hashed_verifies _ _ _ _ _ Hc Hk Hs Hp Hh) as Hself.
  unfold HashPeppered in Hh. destruct (IsWeak P pw) eqn:Ew; [done|]. injection Hh as <-.
  pose proof (fun pw' => verify_encoded p pepper salt (key (Normalize P pw)) pw' Hc Hs (peppered_len p pepper salt _ ltac:(lia) Hp) Hk) as Hv.
  fold (key (Normalize P pw)) in Hself |- *. split_and!; [exact Hself|..].
  - intros pw'. rewrite Hv. fold (key (Normalize P pw')) (key pw').
    destruct (String.eqb_spec (key (Normalize P pw')) (key (Normalize P pw))) as [E|E]; cbn.
    { split; [by left|intros _; by eexists]. }
    destruct (String.eqb_spec (Normalize P pw') pw') as [E2|E2]; cbn.
    { rewrite E2 in E |- *. split; [by intros [? ?]|by intros [?|?]]. }
    destruct (String.eqb_spec (key pw') (key (Normalize P pw))).
    + split; [by right|intros _; by eexists].
    + split; [by intros [? ?]|by intros [?|?]].
  - intros ->. split; [unfold Hash; by rewrite Ew|]. done.
Qed.
End roundtrip.

(** ** Shapes *)

Lemma cycles_spec u r :
  cycles u r = true <-> forall i, (u <= i < List.length r)%nat -> r !! i = r !! (i mod u)%nat.
Proof.
  unfold cycles. rewrite forallb_forall. split; intros H i Hi.
  - specialize (H i ltac:(apply in_seq; lia)). by bools.
  - apply in_seq in Hi. apply bool_decide_eq_true_2, H. lia.
Qed.

Lemma lookup_repeated (u : list Z) n i :
  u <> [] -> (i < n * List.length u)%nat -> mjoin (replicate n u) !! i = u !! (i mod List.length u)%nat.
Proof.
  intros Hu. revert i. induction n as [|n IH]; intros i Hi; [lia|]. change (mjoin (replicate (S n) u)) with (u ++ mjoin (replicate n u))%list.
  assert (Hl : List.length u <> 0%nat) by (by destruct u).
  destruct (decide (i < List.length u)%nat) as [Hlt|Hge].
  - by rewrite lookup_app_l, Nat.mod_small.
  - rewrite lookup_app_r by lia. rewrite (IH (i - List.length u)%nat) by lia. f_equal.
    rewrite <- (Nat.Div0.mod_add (i - List.length u) 1 (List.length u)). f_equal. lia.
Qed.

Lemma length_repeated (u : list Z) n : List.length (mjoin (replicate n u)) = (n * List.length u)%nat.
Proof. induction n as [|n IH]; [done|]. change (mjoin (replicate (S n) u)) with (u ++ mjoin (replicate n u))%list. rewrite length_app, IH. lia. Qed.

Lemma cycle_exact k r :
  (1 <= k)%nat ->
  (List.length r mod k = 0)%nat /\ cycles k r = true
  <-> (exists u n, List.length u = k /\ r = mjoin (replicate n u)).
Proof.
  intros Hk. rewrite cycles_spec. split.
  - intros [Hm Hc]. apply Nat.Div0.mod_divides in Hm as [n Hn].
    destruct (decide (n = 0)%nat) as [->|Hn0].
    { exists (replicate k 0), 0%nat. rewrite length_replicate. split; [done|]. apply nil_length_inv. lia. }
    exists (take k r), n. assert (Hl : List.length (take k r) = k) by (rewrite length_take; nia). split; [done|].
    apply list_eq_same_length with (n := List.length r); [by rewrite length_repeated, Hl; lia|done|].
    intros i x y Hi Hx Hy. rewrite lookup_repeated, Hl in Hy; [|by intros E; rewrite E in Hl; cbn in Hl; lia|rewrite Hl; lia].
    rewrite lookup_take in Hy. rewrite decide_True in Hy by (apply Nat.mod_upper_bound; lia).
    destruct (decide (i < k)%nat); [rewrite Nat.mod_small in Hy by done; congruence|].
    rewrite <- Hc in Hy by lia. congruence.
  - intros (u & n & Hu & ->). rewrite length_repeated, Hu. split; [apply Nat.Div0.mod_mul|]. intros i Hi.
    assert (u <> []) by (intros ->; cbn in Hu; lia).
    pose proof (Nat.mod_upper_bound i k ltac:(lia)).
    rewrite !lookup_repeated by (done || rewrite Hu; nia). by rewrite Hu, Nat.Div0.mod_mod.
Qed.

Lemma cycle_units_spec units r :
  StronglySorted le units ->
  cycle_units units r = true <->
  exists k, k ∈ units /\ (k * 2 <= List.length r)%nat /\ (List.length r mod k = 0)%nat /\ cycles k r = true.
Proof.
  induction 1 as [|u units _ IH Hu]; cbn [cycle_units]; [split; [done|intros (k & Hk & _); set_solver]|].
  destruct (Nat.leb_spec (u * 2) (List.length r)) as [Hl|Hl].
  - destruct (_ && _) eqn:E.
    + apply andb_true_iff in E as [E1 E2]. apply Nat.eqb_eq in E1. split; [|done]. intros _. exists u. set_solver.
    + rewrite IH. split; [intros (k & Hk & H); exists k; set_solver|]. intros (k & [->|Hk]%elem_of_cons & Hk2 & H1 & H2); [|by exists k].
      apply Nat.eqb_eq in H1. by rewrite H1, H2 in E.
  - split; [done|]. intros (k & [->|Hk]%elem_of_cons & H & _); [lia|]. rewrite Forall_forall in Hu. specialize (Hu k Hk). lia.
Qed.

(** [n] runes from [a], each [d] more than the one before. *)
Fixpoint run (a d : Z) (n : nat) : list Z := match n with O => [] | S n' => a :: run (a + d) d n' end.

Lemma sequential_from_spec prev up down r :
  sequential_from prev up down r = true <->
  r = [] \/ (up = true /\ r = run (prev + 1) 1 (List.length r)) \/ (down = true /\ r = run (prev + -1) (-1) (List.length r)).
Proof.
  revert prev up down. induction r as [|x r IH]; intros prev up down; [cbn; naive_solver|].
  cbn [sequential_from List.length run]. replace (prev - 1) with (prev + -1) by lia.
  assert (Hne : prev + 1 <> prev + -1) by lia.
  destruct up, down, (Z.eqb_spec x (prev + 1)) as [E1|E1], (Z.eqb_spec x (prev + -1)) as [E2|E2]; cbn [andb negb];
    try (exfalso; lia); rewrite ?IH; try rewrite !E1; try rewrite !E2; destruct r; cbn [List.length run]; intuition congruence.
Qed.

(** the two shape tests refuse what their names say and nothing else: a
    short cycle is a block of one to four runes written at least twice, a
    sequence at least four runes each one more, or each one less, than the one
    before. *)
Theorem password_shapes_exact s :
  (isShortCycle s = true <->
   exists u n, (1 <= List.length u <= 4)%nat /\ (2 <= n)%nat /\ runes s = mjoin (replicate n u))
  /\ (isSequential s = true <->
      (4 <= List.length (runes s))%nat /\ exists a d, (d = 1 \/ d = -1) /\ runes s = run a d (List.length (runes s))).
Proof.
  split.
  - unfold isShortCycle. rewrite cycle_units_spec by (repeat constructor). split.
    + intros (k & Hk & Hl & Hc). assert (1 <= k <= 4)%nat by (set_unfold; lia).
      apply cycle_exact in Hc as (u & n & Hu & E); [|lia]. exists u, n. split_and!; [lia..| |done].
      rewrite E, length_repeated, Hu in Hl. nia.
    + intros (u & n & Hu & Hn & E). exists (List.length u). split_and!; [set_unfold; lia|rewrite E, length_repeated; nia|..];
        apply (cycle_exact (List.length u)); eauto; lia.
  - unfold isSequential. destruct (runes s) as [|x r]; [cbn; split; [done|lia]|].
    rewrite andb_true_iff, Nat.leb_le, sequential_from_spec. cbn [List.length run]. split.
    + intros [Hl [->|[[_ E]|[_ E]]]]; (split; [done|]).
      * cbn in Hl. lia.
      * exists x, 1. split; [by left|congruence].
      * exists x, (-1). split; [by right|congruence].
    + intros [Hl (a & d & Hd & [= -> E])]. split; [done|]. destruct Hd as [->| ->]; auto.
Qed.

(** ** Instances *)

Fixpoint stretch (n : nat) (s : string) : string :=
  match n with
  | O => ""
  | S n' => match s with "" => String "x" (stretch n' "") | String a r => String a (stretch n' r) end
  end.

Lemma stretch_len n s : String.length (stretch n s) = n.
Proof. revert s. induction n as [|n IH]; intros [|a r]; cbn; by rewrite ?IH. Qed.

Definition demo_primitives : primitives :=
  MkPrimitives id id id id (fun pw salt _ _ _ n => stretch (Z.to_nat n) (pw ++ salt)) (fun k x => stretch 32 (k ++ x)) None.

Lemma demo_IDKey_len pw salt t m th n : 0 < n -> len (IDKey demo_primitives pw salt t m th n) = n.
Proof. intros Hn. unfold len. cbn. rewrite stretch_len. lia. Qed.
Lemma demo_hmac_len k x : len (hmac_sha256 demo_primitives k x) = 32.
Proof. unfold len. cbn -[stretch]. by rewrite stretch_len. Qed.

Definition demo_passphrase : string := "correct battery dinosaur tennis".
Definition demo_hash : string :=
  Eval vm_compute in encode_hash DefaultParams "0123456789abcdef"
    (Pepper demo_primitives (derive_key demo_primitives DefaultParams 32 "0123456789abcdef" demo_passphrase) "pepper").

Lemma decoded_cost_is_bounded_witness : 0 < Memory DefaultParams <= 256 * 1024.
Proof.
  refine (proj1 (decoded_cost_is_bounded demo_hash argon2Variant argon2Version DefaultParams "0123456789abcdef"
    (Pepper demo_primitives (derive_key demo_primitives DefaultParams 32 "0123456789abcdef" demo_passphrase) "pepper") _)).
  vm_compute. reflexivity.
Defined.

Lemma password_roundtrip_witness : VerifyPasswordPeppered demo_primitives demo_passphrase demo_hash "pepper" = Ok (true, false).
Proof.
  refine (proj1 (password_roundtrip demo_primitives demo_IDKey_len demo_hmac_len DefaultParams "pepper" "0123456789abcdef"
                   demo_passphrase demo_hash _ _ _ _ _)).
  - split; vm_compute; split; (reflexivity || discriminate).
  - split; reflexivity.
  - discriminate.
  - right. reflexivity.
  - vm_compute. reflexivity.
Defined.

Example weak_ex :
  IsWeak demo_primitives "short" = Some TooShort /\ IsWeak demo_primitives "abababababababab" = Some Breached
  /\ IsWeak demo_primitives "password2026!!!" = Some Breached /\ IsWeak demo_primitives "abcdefghijklmnopq" = Some Breached
  /\ IsWeak demo_primitives demo_passphrase = None.
Proof. vm_compute. done. Qed.
Example load_ex :
  LoadBreachedSHA1 id ("AB:3" ++ String "010" (" CD " ++ String "013" (String "010" (String "010" "AB:9"))))
  = Some (2%nat, {[ "AB"; "CD" ]}).
Proof. vm_compute. reflexivity. Qed.
