(* ===== verification/Access.v ===== *)
(** * Reaching an RPC: internal/rpc/interceptor.go and the login state of
    internal/rpc/auth.go, internal/auth/recovery.go, internal/bridge/ticket.go

    The gate every call passes ([authorize]), the recovery path that opens a
    session confined to two methods, the per-address backoff, and the single-use
    login tickets. *)

From S2P Require Import Prelude GoTime GoStrings Timestamps Tables Schema StoreItems StoreAuth.
From Stdlib Require Import String Ascii.
Local Abbreviation length := List.length.

(** ** Backoff *)

Record backoffState := MkBackoff { bo_failures : Z; bo_until : Z }.

Definition backoffRetention : Z := 15 * minute.

(** [1 << n] of a small [n]. *)
Definition backoffDelay (failures : Z) : Z :=
  let grace := 2 in
  if failures <=? grace then 0
  else
    let n := failures - grace in
    let n := if 6 <? n then 6 else n in
    let d := second * 2 ^ n in
    if 60 * second <? d then 60 * second else d.

Definition blocked (ip : string) (now : Z) (t : gmap string backoffState) : bool :=
  match t !! ip with None => false | Some st => now <? bo_until st end.

Definition sweepLocked (now : Z) (t : gmap string backoffState) : gmap string backoffState :=
  filter (fun p => negb (bo_until p.2 <? now - backoffRetention) = true) t.

Definition recordFailure (ip : string) (now : Z) (t : gmap string backoffState) : gmap string backoffState :=
  let t := sweepLocked now t in
  let n := match t !! ip with Some st => bo_failures st | None => 0 end + 1 in
  <[ip := MkBackoff n (now + backoffDelay n)]> t.

Definition recordSuccess (ip : string) (t : gmap string backoffState) : gmap string backoffState := delete ip t.

(** ** Elevated sessions *)

Definition mark (tokenHash : string) (until : Z) (t : gmap string Z) : gmap string Z := <[tokenHash := until]> t.

Definition isElevated (tokenHash : string) (now : Z) (t : gmap string Z) : bool * gmap string Z :=
  match t !! tokenHash with
  | None => (false, t)
  | Some until => if negb (now <? until) then (false, delete tokenHash t) else (true, t)
  end.

Definition clear (tokenHash : string) (t : gmap string Z) : gmap string Z := delete tokenHash t.

(** ** Tickets *)

Definition DefaultTicketTTL : Z := 20 * second.
Record ticketEntry := MkTicket { rawSessionToken : string; tk_expiresAt : Z }.

Section tickets.
Context (hashTicket : string -> string).

(** [raw] is the value drawn from the system's random source. *)
Definition Issue (now : Z) (session raw : string) (m : gmap string ticketEntry)
    : option (string * Z * gmap string ticketEntry) :=
  if is_empty session then None
  else
    let expiresAt := now + DefaultTicketTTL in
    Some (raw, expiresAt, <[hashTicket raw := MkTicket session expiresAt]> m).

Definition Redeem (now : Z) (ticket : string) (m : gmap string ticketEntry)
    : option string * gmap string ticketEntry :=
  if is_empty ticket then (None, m)
  else
    let hash := hashTicket ticket in
    match m !! hash with
    | None => (None, m)
    | Some e =>
        let m' := delete hash m in
        if negb (now <? tk_expiresAt e) then (None, m') else (Some (rawSessionToken e), m')
    end.
End tickets.

(** ** Recovery codes

    A code is the list of its runes. *)

Definition recoveryAlphabet : list Z :=
  Eval vm_compute in
    map (fun a => Z.of_nat (nat_of_ascii a)) (list_ascii_of_string "23456789ABCDEFGHJKMNPQRSTVWXYZ").
Definition recoveryGroupLen : nat := 5.
Definition recoveryCodeRunes : nat := 20.

Definition separator (r : Z) : bool := bool_decide (r ∈ [45; 95; 32; 9; 10; 13]).

Definition upper (r : Z) : Z := if (97 <=? r) && (r <=? 122) then r - 32 else r.

Fixpoint normalizeCode (code : list Z) : list Z :=
  match code with
  | [] => []
  | r :: rest => if separator r then normalizeCode rest else upper r :: normalizeCode rest
  end.

(** The symbol of the random byte [v], with the dash before each new group. *)
Definition code_symbol (i : nat) (v : Z) : list Z :=
  let sym := default 0 (recoveryAlphabet !! Z.to_nat (v mod Z.of_nat (length recoveryAlphabet))) in
  if (0 <? i)%nat && (i mod recoveryGroupLen =? 0)%nat then [45; sym] else [sym].

(** [raw] are the bytes drawn. *)
Definition generateOneCode (raw : list Z) : list Z := mjoin (imap code_symbol raw).

Section recovery.
(** The hexadecimal SHA-256 of the encoded runes. *)
Context (sha256hex : list Z -> string).

Definition hashRecoveryCode (code : list Z) : string := sha256hex (normalizeCode code).

(** The last match wins; [None] is [ok = false]. *)
Definition VerifyCode (code : list Z) (hashes : list string) : option nat :=
  let target := hashRecoveryCode code in
  foldl (fun found p => if bool_decide (p.2 = target) then Some p.1 else found) None
    (imap (fun i h => (i, h)) hashes).
End recovery.

(** ** The server *)

Definition SessionIdleTimeout : Z := 60 * minute.
Definition elevatedSessionTTL : Z := 10 * minute.

Record Server := MkServer {
  db : AuthDB; elevated : gmap string Z; backoff : gmap string backoffState;
  tickets : gmap string ticketEntry; devInsecureAuth : bool }.

Definition set_db (d : AuthDB) (s : Server) : Server :=
  MkServer d (elevated s) (backoff s) (tickets s) (devInsecureAuth s).
Definition set_elevated (e : gmap string Z) (s : Server) : Server :=
  MkServer (db s) e (backoff s) (tickets s) (devInsecureAuth s).
Definition set_backoff (b : gmap string backoffState) (s : Server) : Server :=
  MkServer (db s) (elevated s) b (tickets s) (devInsecureAuth s).
Definition set_tickets (t : gmap string ticketEntry) (s : Server) : Server :=
  MkServer (db s) (elevated s) (backoff s) t (devInsecureAuth s).

(** A process restart keeps the database only. *)
Definition restart (s : Server) : Server := MkServer (db s) ∅ ∅ ∅ (devInsecureAuth s).

Inductive rpc_error :=
| AuthFailed | Unauthenticated | PermissionDenied | Internal
| SetupUnavailable | InvalidArgument (message : string) | SessionNotFound.

Inductive method := Setup | Login | RecoverWithCodeMethod | ChangePassword | ReenrollTOTP | Other (name : string).

Definition noSessionMethods (m : method) : bool :=
  match m with Setup | Login | RecoverWithCodeMethod => true | _ => false end.
Definition elevatedAllowedMethods (m : method) : bool :=
  match m with ChangePassword | ReenrollTOTP => true | _ => false end.

(** What a call's context carries: an explicit token, the token of the bridge
    session (empty when the upgrade was anonymous), and the metadata values. *)
Record call_ctx := MkCtx { explicit : string; bridge : option string; header : list string }.

Definition sessionTokenFromContext (c : call_ctx) : option string :=
  if negb (is_empty (explicit c)) then Some (explicit c)
  else match bridge c with
       | Some t => if negb (is_empty t) then Some t else None
       | None => match header c with
                 | v :: _ => if negb (is_empty v) then Some v else None
                 | [] => None
                 end
       end.

Definition sessionIDByHash (hash : string) (d : AuthDB) : option Z :=
  se_id <$> List.find (fun r => bool_decide (se_token_hash r = hash)) (sessions d).

Record callerSession := MkCaller { cs_ID : Z; cs_TokenHash : string; cs_Elevated : bool }.

Section server.
Context (HashToken : string -> string).

(** The state comes back even when the call is refused: the tracker drops an
    entry that ran out and the scope may have been narrowed. *)
Definition authorize (c : call_ctx) (m : method) (now : Z) (s : Server)
    : result rpc_error (option callerSession) * Server :=
  if noSessionMethods m then (Ok None, s) else
  match sessionTokenFromContext c with
  | None => (Err Unauthenticated, s)
  | Some raw =>
    let hash := HashToken raw in
    match GetSessionByTokenHash hash (db s) with
    | Err _ => (Err Unauthenticated, s)
    | Ok sess =>
      if negb (Valid now SessionIdleTimeout sess) then (Err Unauthenticated, s) else
      match sessionIDByHash hash (db s) with
      | None => (Err Unauthenticated, s)
      | Some id =>
        let '(tracked, tr) := isElevated hash now (elevated s) in
        let s1 := set_elevated tr s in
        match SessionScope id (db s1) with
        | Err _ => (Err Internal, s1)
        | Ok stored =>
          let elev := tracked || bool_decide (stored = SessionScopeElevated) in
          let want := if elev then SessionScopeElevated else SessionScopeFull in
          let written :=
            if negb (bool_decide (stored = want)) && negb (bool_decide (stored = SessionScopeElevated))
            then SetSessionScope id want (db s1) else Ok (db s1) in
          match written with
          | Err _ => (Err Internal, s1)
          | Ok d2 =>
            let s2 := set_db d2 s1 in
            if negb (bool_decide (want = SessionScopeFull)) && negb (elevatedAllowedMethods m)
            then (Err PermissionDenied, s2)
            else match TouchSession id now (db s2) with
                 | Err _ => (Err Internal, s2)
                 | Ok d3 => (Ok (Some (MkCaller id hash elev)), set_db d3 s2)
                 end
          end
        end
      end
    end
  end.

Definition mintSession (ip ua : string) (now expires : Z) (rawToken : string) (d : AuthDB)
    : result store_error (Z * AuthDB) :=
  CreateSession (MkSess (HashToken rawToken) now now expires ip ua zero_time) d.

Definition Logout (now : Z) (cs : callerSession) (s : Server) : result rpc_error unit * Server :=
  match RevokeSession now (cs_ID cs) (db s) with
  | Err _ => (Err Internal, s)
  | Ok d => (Ok tt, set_elevated (clear (cs_TokenHash cs) (elevated s)) (set_db d s))
  end.

Definition endElevatedSession (now : Z) (cs : callerSession) (s : Server) : Server :=
  let s1 := set_elevated (clear (cs_TokenHash cs) (elevated s)) s in
  match RevokeSession now (cs_ID cs) (db s1) with Ok d => set_db d s1 | Err _ => s1 end.

Definition allRecoveryCodeHashes (d : AuthDB) : list string := c_hash <$> codes d.

Definition failed (clk : Z) (ip : string) (now : Z) (detail : string) (s : Server) : Server :=
  set_db (RecordAuthEvent clk "recover" ip false detail (db s))
    (set_backoff (recordFailure ip now (backoff s)) s).

(** [clk] are the readings the store makes, [rawToken] the token drawn, and
    [ticket] the ticket drawn when the call came over the bridge. *)
Definition RecoverWithCode (sha256hex : list Z -> string) (hashTicket : string -> string)
    (clk : nat -> Z) (now : Z) (ip ua rawToken : string) (ticket : option string) (code : list Z) (s : Server)
    : result rpc_error (Z * nat) * Server :=
  if negb (devInsecureAuth s) && blocked ip now (backoff s)
  then (Err AuthFailed, set_db (RecordAuthEvent (clk 0%nat) "recover" ip false "backoff active" (db s)) s)
  else
  match VerifyCode sha256hex code (allRecoveryCodeHashes (db s)) with
  | None => (Err AuthFailed, failed (clk 0%nat) ip now "code not recognized" s)
  | Some idx =>
    match UseRecoveryCode (clk 0%nat) (Z.of_nat idx) (db s) with
    | Err RecoveryCodeUsed | Err NotFound => (Err AuthFailed, failed (clk 1%nat) ip now "code already used" s)
    | Err _ => (Err Internal, s)
    | Ok d1 =>
      let d2 := RevokeAllSessions (clk 1%nat) d1 in
      match mintSession ip ua now (now + elevatedSessionTTL) rawToken d2 with
      | Err _ => (Err Internal, set_db d2 s)
      | Ok (id, d3) =>
        let s3 := set_elevated (mark (HashToken rawToken) (now + elevatedSessionTTL) (elevated s)) (set_db d3 s) in
        match SetSessionScope id SessionScopeElevated d3 with
        | Err _ => (Err Internal, s3)
        | Ok d4 =>
          let remaining := CountUnusedRecoveryCodes d4 in
          let s5 := set_db (RecordAuthEvent (clk 2%nat) "recover" ip true "" d4)
                      (set_backoff (recordSuccess ip (backoff s3)) s3) in
          let s6 := match ticket with
                    | Some raw => match Issue hashTicket now rawToken raw (tickets s5) with
                                  | Some (_, _, m) => set_tickets m s5
                                  | None => s5
                                  end
                    | None => s5
                    end in
          (Ok (id, remaining), s6)
        end
      end
    end
  end.
End server.

(** ** Sessions of a token *)

Definition has_hash (hash : string) (r : SessionRow) : bool := bool_decide (se_token_hash r = hash).

Lemma find_hash hash d r :
  auth_ok d -> List.find (has_hash hash) (sessions d) = Some r <-> r ∈ sessions d /\ se_token_hash r = hash.
Proof.
  intros Hd. split.
  - intros [Hin Hp]%find_some. unfold has_hash in Hp. bools. by rewrite list_elem_of_In.
  - intros [Hr Hh]. destruct (List.find (has_hash hash) (sessions d)) as [x|] eqn:E.
    + apply find_some in E as [Hin Hp]. apply list_elem_of_In in Hin. unfold has_hash in Hp. bools.
      f_equal. eapply (distinct_inj se_token_hash); [apply Hd|done|done|congruence].
    + apply list_elem_of_In in Hr. apply (find_none _ _ E) in Hr. unfold has_hash in Hr. bools. done.
Qed.

Lemma update_session_ok id f d r :
  r ∈ sessions d -> se_id r = id ->
  update_session id f d = Ok (set_sessions (update_where (is_session id) f (sessions d)) d).
Proof.
  intros Hr Hid. unfold update_session. destruct (affected _ _ =? 0)%nat eqn:E; [|done].
  apply Nat.eqb_eq in E. rewrite affected_0 in E. apply E in Hr. unfold is_session in Hr. bools. done.
Qed.

Definition with_scope (scope : string) (r : SessionRow) : SessionRow :=
  MkSession (se_id r) (se_token_hash r) (se_created_at r) (se_last_seen_at r) (se_expires_at r) (se_ip r)
    (se_user_agent r) (se_revoked_at r) scope.
Definition with_seen (at_ : Z) (r : SessionRow) : SessionRow :=
  MkSession (se_id r) (se_token_hash r) (se_created_at r) at_ (se_expires_at r) (se_ip r)
    (se_user_agent r) (se_revoked_at r) (se_scope r).

Lemma SetSessionScope_Ok id scope d d' :
  SetSessionScope id scope d = Ok d' ->
  d' = set_sessions (update_where (is_session id) (with_scope scope) (sessions d)) d.
Proof.
  unfold SetSessionScope, update_session. case_match; [done|]. case_match; [done|]. by intros [= <-].
Qed.

Lemma SetSessionScope_succeeds id scope d r :
  r ∈ sessions d -> se_id r = id -> scope ∈ [SessionScopeFull; SessionScopeElevated] ->
  SetSessionScope id scope d = Ok (set_sessions (update_where (is_session id) (with_scope scope) (sessions d)) d).
Proof.
  intros Hr Hid Hs. unfold SetSessionScope. rewrite (bool_decide_eq_true_2 _ Hs), andb_false_r.
  by rewrite (update_session_ok id _ d r).
Qed.

Lemma with_seen_evolves t r : session_evolves r (with_seen t r).
Proof. by repeat split. Qed.
Lemma with_scope_evolves sc r : session_evolves r (with_scope sc r).
Proof. by repeat split. Qed.

(** The session a call presents, with what the gate decides about it. *)
Record admitted (HashToken : string -> string) (c : call_ctx) (m : method) (now : Z) (s : Server)
    (r : SessionRow) : Prop := {
  adm_token : exists raw, sessionTokenFromContext c = Some raw /\ se_token_hash r = HashToken raw;
  adm_row : r ∈ sessions (db s);
  adm_live : se_revoked_at r = None \/ exists t, se_revoked_at r = Some t /\ (t = zero_time \/ now < t);
  adm_expiry : now < se_expires_at r;
  adm_idle : dur_sub now (se_last_seen_at r) < SessionIdleTimeout;
  adm_scope : elevatedAllowedMethods m = true \/
    se_scope r <> SessionScopeElevated /\ (isElevated (se_token_hash r) now (elevated s)).1 = false }.

Lemma Valid_row now idle r :
  Valid now idle (scanSession r).2 = true <->
  (se_revoked_at r = None \/ exists t, se_revoked_at r = Some t /\ (t = zero_time \/ now < t))
  /\ now < se_expires_at r /\ dur_sub now (se_last_seen_at r) < idle.
Proof.
  unfold Valid. cbn [scanSession snd RevokedAt ExpiresAt LastSeenAt].
  assert (Hrev : negb (is_zero (of_null_time (se_revoked_at r))) && negb (now <? of_null_time (se_revoked_at r)) = false
    <-> se_revoked_at r = None \/ exists t, se_revoked_at r = Some t /\ (t = zero_time \/ now < t)).
  { destruct (se_revoked_at r) as [t|]; cbn [of_null_time default].
    - rewrite andb_false_iff, !negb_false_iff. unfold is_zero. rewrite Z.eqb_eq, Z.ltb_lt. naive_solver.
    - split; [by left|done]. }
  rewrite <- Hrev. clear Hrev. destruct (negb _ && negb _); [naive_solver|].
  destruct (Z.ltb_spec now (se_expires_at r)); cbn; [|split; [done|lia]].
  destruct (Z.leb_spec idle (dur_sub now (se_last_seen_at r))); split; done || lia.
Qed.

Section gate.
Context (HashToken : string -> string).

(** What the gate writes for the session [r]. *)
Definition gate_scope (now : Z) (s : Server) (r : SessionRow) : bool :=
  (isElevated (se_token_hash r) now (elevated s)).1 || bool_decide (se_scope r = SessionScopeElevated).

Definition gate_db (want : string) (now : Z) (r : SessionRow) (d : AuthDB) : AuthDB :=
  if negb (bool_decide (se_scope r = want)) && negb (bool_decide (se_scope r = SessionScopeElevated))
  then set_sessions (update_where (is_session (se_id r)) (with_scope want) (sessions d)) d else d.

Lemma gate_db_rows want now r d x :
  x ∈ sessions d ->
  exists y, y ∈ sessions (gate_db want now r d) /\ se_id y = se_id x /\ session_evolves x y
    /\ (se_id x <> se_id r -> y = x).
Proof.
  intros Hx. unfold gate_db.
  destruct (negb (bool_decide (se_scope r = want)) && negb (bool_decide (se_scope r = SessionScopeElevated)));
    cbn; [|by exists x].
  exists (if is_session (se_id r) x then with_scope want x else x). split; [apply elem_of_update; eauto|].
  unfold is_session. destruct (Z.eqb_spec (se_id x) (se_id r)); (split; [done|]; split; [by repeat split|done]).
Qed.

(** The gate on a session that is found and valid. *)
Lemma authorize_found c m now s raw r :
  auth_ok (db s) -> noSessionMethods m = false -> sessionTokenFromContext c = Some raw ->
  r ∈ sessions (db s) -> se_token_hash r = HashToken raw -> Valid now SessionIdleTimeout (scanSession r).2 = true ->
  let elev := gate_scope now s r in
  let want := if elev then SessionScopeElevated else SessionScopeFull in
  let s1 := set_elevated (isElevated (se_token_hash r) now (elevated s)).2 s in
  let d2 := gate_db want now r (db s) in
  authorize HashToken c m now s
  = if elev && negb (elevatedAllowedMethods m) then (Err PermissionDenied, set_db d2 s1)
    else (Ok (Some (MkCaller (se_id r) (HashToken raw) elev)),
          set_db (set_sessions (update_where (is_session (se_id r)) (with_seen now) (sessions d2)) d2) s1).
Proof.
  intros Hok Hm Hc Hr Hh Hv elev want s1 d2. unfold authorize. rewrite Hm, Hc.
  assert (Hf : List.find (has_hash (HashToken raw)) (sessions (db s)) = Some r) by (by apply find_hash).
  unfold GetSessionByTokenHash, sessionIDByHash. unfold has_hash in Hf. rewrite Hf, Hv. cbn [negb fmap option_fmap option_map].
  unfold elev, gate_scope, s1. rewrite Hh.
  destruct (isElevated (HashToken raw) now (elevated s)) as [tracked tr] eqn:Et. cbn [fst snd].
  unfold SessionScope. cbn [db set_elevated].
  rewrite (proj2 (find_id_Some (se_id r) (sessions (db s)) r (aok_sessions _ Hok)) (conj Hr eq_refl)).
  assert (Hin : forall b : bool, (if b then SessionScopeElevated else SessionScopeFull) ∈ [SessionScopeFull; SessionScopeElevated]).
  { intros []; rewrite !elem_of_cons; auto. }
  assert (Hwrite : (if negb (bool_decide (se_scope r = want)) && negb (bool_decide (se_scope r = SessionScopeElevated))
            then SetSessionScope (se_id r) want (db s) else Ok (db s)) = Ok d2).
  { unfold d2, gate_db. case_match; [|done]. apply (SetSessionScope_succeeds _ _ _ r); [done|done|apply Hin]. }
  assert (Hwant : want = if tracked || bool_decide (se_scope r = SessionScopeElevated)
                         then SessionScopeElevated else SessionScopeFull).
  { unfold want, elev, gate_scope. by rewrite Hh, Et. }
  rewrite <- Hwant, Hwrite. cbn [db set_db].
  assert (Hd2 : exists r2, r2 ∈ sessions d2 /\ se_id r2 = se_id r).
  { unfold d2, gate_db. destruct (_ && _); [|eauto]. exists (with_scope want r). split; [|done]. cbn.
    apply elem_of_update. exists r. unfold is_session. by rewrite Z.eqb_refl. }
  destruct Hd2 as (r2 & Hr2 & Hid2). unfold TouchSession. rewrite (update_session_ok (se_id r) _ d2 r2) by done.
  rewrite Hwant. destruct (elevatedAllowedMethods m); cbn [negb]; rewrite ?andb_false_r, ?andb_true_r.
  - done.
  - by destruct (tracked || bool_decide (se_scope r = SessionScopeElevated)).
Qed.

(** No live session is presented, or this one is. *)
Lemma presented c now s :
  auth_ok (db s) ->
  (sessionTokenFromContext c = None
   \/ exists raw, sessionTokenFromContext c = Some raw
        /\ forall r, r ∈ sessions (db s) -> se_token_hash r = HashToken raw ->
             Valid now SessionIdleTimeout (scanSession r).2 = false)
  \/ exists raw r, sessionTokenFromContext c = Some raw /\ r ∈ sessions (db s)
       /\ se_token_hash r = HashToken raw /\ Valid now SessionIdleTimeout (scanSession r).2 = true.
Proof.
  intros Hok. destruct (sessionTokenFromContext c) as [raw|]; [|by left; left].
  destruct (List.find (has_hash (HashToken raw)) (sessions (db s))) as [r|] eqn:Ef.
  - apply find_hash in Ef as [Hr Hh]; [|done].
    destruct (Valid now SessionIdleTimeout (scanSession r).2) eqn:Ev; [right; by exists raw, r|].
    left. right. exists raw. split; [done|]. intros x Hx Hxh.
    by replace x with r by (eapply (distinct_inj se_token_hash); [apply Hok|done|done|congruence]).
  - left. right. exists raw. split; [done|]. intros x Hx Hxh.
    apply list_elem_of_In in Hx. apply (find_none _ _ Ef) in Hx. unfold has_hash in Hx. bools. done.
Qed.

Lemma admitted_same c m now s raw r x :
  auth_ok (db s) -> sessionTokenFromContext c = Some raw -> r ∈ sessions (db s) ->
  se_token_hash r = HashToken raw -> admitted HashToken c m now s x -> x = r.
Proof.
  intros Hok Hc Hr Hh [(raw' & Hc' & Hh') Hx _ _ _ _].
  eapply (distinct_inj se_token_hash); [apply Hok|done|done|congruence].
Qed.

Lemma admitted_found c m now s raw r :
  sessionTokenFromContext c = Some raw -> r ∈ sessions (db s) -> se_token_hash r = HashToken raw ->
  Valid now SessionIdleTimeout (scanSession r).2 = true ->
  admitted HashToken c m now s r <-> gate_scope now s r && negb (elevatedAllowedMethods m) = false.
Proof.
  intros Hc Hr Hh Hv. pose proof (proj1 (Valid_row _ _ _) Hv) as (Hl & He & Hi). unfold gate_scope. split.
  - intros [_ _ _ _ _ [->|[Hs ->]]]; [by rewrite andb_false_r|]. by rewrite bool_decide_eq_false_2.
  - intros Hg. split; eauto. destruct (elevatedAllowedMethods m); [by left|right].
    rewrite andb_true_r in Hg. apply orb_false_iff in Hg as [? ?]. bools. done.
Qed.

(** C29: the gate lets a call through exactly when it presents the token of a
    stored session that is not revoked, not past its absolute lifetime and
    not idle for an hour, and, for a session opened by a recovery code, the
    method is one of the two such a session may reach. Letting it through
    renews that session's idle clock and changes no other session. *)
Theorem authorize_exact c m now s :
  auth_ok (db s) -> noSessionMethods m = false ->
  (forall cs, (authorize HashToken c m now s).1 = Ok cs <->
     exists r, admitted HashToken c m now s r
       /\ cs = Some (MkCaller (se_id r) (se_token_hash r) (gate_scope now s r)))
  /\ (forall cs, (authorize HashToken c m now s).1 = Ok (Some cs) -> forall x,
        x ∈ sessions (db s) ->
        exists x', x' ∈ sessions (db (authorize HashToken c m now s).2)
          /\ (if se_id x =? cs_ID cs then se_last_seen_at x' = now /\ session_evolves x x' else x' = x)).
Proof.
  intros Hok Hm.
  pose proof (presented c now s Hok) as Hfail.
  destruct Hfail as [Hfail|(raw & r & Hc & Hr & Hh & Hv)].
  - assert (Hno : (authorize HashToken c m now s).1 = Err Unauthenticated).
    { unfold authorize. rewrite Hm. destruct Hfail as [->|(raw & -> & Hno)]; [done|].
      unfold GetSessionByTokenHash. destruct (List.find _ (sessions (db s))) as [r|] eqn:Ef; [|done].
      apply (find_hash (HashToken raw)) in Ef as [Hr Hh]; [|done]. by rewrite (Hno r Hr Hh). }
    rewrite Hno. split; [|done]. intros cs. split; [done|]. intros (r & [(raw & Hc & Hh) Hr Hl He Hi _] & _).
    destruct Hfail as [Hn|(raw' & Hc' & Hn)]; [congruence|]. simplify_eq.
    specialize (Hn r Hr Hh). rewrite <- not_true_iff_false, Valid_row in Hn. destruct Hn. done.
  - pose proof (authorize_found c m now s raw r Hok Hm Hc Hr Hh Hv) as Ha. cbn zeta in Ha.
    pose proof (admitted_found c m now s raw r Hc Hr Hh Hv) as Hadm.
    assert (Hsame : forall x, admitted HashToken c m now s x -> x = r) by (intros x; by apply (admitted_same c m now s raw r)).
    rewrite Ha. split.
    + intros cs. destruct (gate_scope now s r && _) eqn:Eg; cbn [fst].
      * split; [done|]. intros (x & Hx & _). rewrite (Hsame x Hx), Hadm in Hx. done.
      * split.
        -- intros [= <-]. exists r. split; [by apply Hadm|]. by rewrite Hh.
        -- intros (x & Hx & ->). by rewrite (Hsame x Hx), Hh.
    + destruct (gate_scope now s r && _) eqn:Eg; cbn [fst snd]; [done|]. intros cs [= <-] x Hx. cbn [cs_ID db set_db set_sessions sessions].
      set (want := if gate_scope now s r then _ else _).
      pose proof (gate_db_rows want now r (db s) x Hx) as Hmid.
      destruct Hmid as (y & Hy & Hidy & Hev & Hkeep).
      exists (if is_session (se_id r) y then with_seen now y else y). split; [apply elem_of_update; eauto|].
      unfold is_session. rewrite Hidy. destruct (Z.eqb_spec (se_id x) (se_id r)) as [|Hne]; [|by apply Hkeep].
      split; [done|]. destruct Hev as (?&?&?&?). by repeat split.
Qed.
End gate.

(** ** A recovery session stays confined *)

Definition confined (h : string) (d : AuthDB) : Prop :=
  forall r, r ∈ sessions d -> se_token_hash r = h -> se_scope r = SessionScopeElevated.

(** The writes that touch no scope keep it. *)
Lemma confined_update h p f d :
  (forall r, se_token_hash (f r) = se_token_hash r /\ se_scope (f r) = se_scope r) ->
  confined h d -> confined h (set_sessions (update_where p f (sessions d)) d).
Proof.
  intros Hf Hc r (r0 & Hr0 & ->)%elem_of_update Hh. destruct (p r0); [|by apply Hc].
  destruct (Hf r0) as [E1 E2]. rewrite E2. apply Hc; [done|congruence].
Qed.

Lemma confined_same h d d' : sessions d' = sessions d -> confined h d -> confined h d'.
Proof. intros E Hc r. rewrite E. apply Hc. Qed.

Lemma confined_step h d l d' :
  auth_step d l d' -> l <> MintSession h -> l <> ScopeWrite -> confined h d -> confined h d'.
Proof.
  intros Hs Hl Hsc Hc.
  destruct Hs as [now x k d' H|now x k d' H|now x k p d' H|e d' H|now s x d' H|hs d' H|now i d' H|s id d' H
    |id t d' H|now id d' H|now|id s d' H|now n d' H|x e d' H|x now nh k p d' H|now k ip ok det]; try done.
  - unfold InitAdmin in H. case_match; [done|]. injection H as <-. done.
  - unfold UpdatePassword, update_admin in H. case_match; [|done]. injection H as <-. done.
  - unfold UpdatePasswordAndPepper, update_admin in H. case_match; [|done]. injection H as <-. done.
  - unfold SetTOTPSecret, update_admin in H. case_match; [|done]. injection H as <-. done.
  - unfold MarkTOTPStepUsed in H. case_match; [done|]. injection H as <-. done.
  - unfold StoreRecoveryCodes in H. apply rbind_Ok in H as (? & _ & [= <-]). done.
  - unfold UseRecoveryCode in H. repeat (case_match; try done). injection H as <-. done.
  - unfold CreateSession in H. case_match; [done|]. injection H as _ <-. cbn.
    intros r [Hr| ->%list_elem_of_singleton]%elem_of_app Hh; [by apply Hc|]. cbn in Hh. congruence.
  - unfold TouchSession, update_session in H. case_match; [done|]. injection H as <-. by apply confined_update.
  - unfold RevokeSession, update_session in H. case_match; [done|]. injection H as <-. by apply confined_update.
  - by apply confined_update.
  - injection H as _ <-. intros r [Hr _]%elem_of_delete. by apply Hc.
  - unfold CreatePasswordResetToken in H. case_match; [done|]. injection H as <-. done.
  - unfold CompletePasswordReset in H. case_match; [done|]. injection H as <-.
    apply (confined_update h _ _ (set_admin _ (set_tokens _ d))); [done|]. exact Hc.
Qed.

(** Writing a scope keeps it when the scope is the narrow one, or the session another. *)
Lemma confined_scope h id scope d :
  scope = SessionScopeElevated \/ (forall r, r ∈ sessions d -> se_id r = id -> se_token_hash r <> h) ->
  confined h d -> confined h (set_sessions (update_where (is_session id) (with_scope scope) (sessions d)) d).
Proof.
  intros Hs Hc r (r0 & Hr0 & ->)%elem_of_update Hh. unfold is_session in *.
  destruct (Z.eqb_spec (se_id r0) id) as [Hid|]; [|by apply Hc]. cbn in *.
  destruct Hs as [->|Hn]; [done|]. exfalso. by eapply (Hn r0).
Qed.

Section confinement.
Context (HashToken : string -> string) (sha256hex : list Z -> string) (hashTicket : string -> string).

(** What can happen to the server: a call at the gate, a logout, the end of an
    elevated session, a recovery, any write of the store but a scope, and any
    change of the memory, a restart among them. *)
Inductive server_step (s : Server) : auth_label -> Server -> Prop :=
| sv_authorize c m now : server_step s OtherWrite (authorize HashToken c m now s).2
| sv_logout now cs : server_step s OtherWrite (Logout now cs s).2
| sv_end now cs : server_step s OtherWrite (endElevatedSession now cs s)
| sv_recover clk now ip ua raw ticket code :
    server_step s (MintSession (HashToken raw))
      (RecoverWithCode HashToken sha256hex hashTicket clk now ip ua raw ticket code s).2
| sv_store l d' : auth_step (db s) l d' -> l <> ScopeWrite -> server_step s l (set_db d' s)
| sv_memory e b t : server_step s OtherWrite (MkServer (db s) e b t (devInsecureAuth s)).

Definition server_history (P : auth_label -> Prop) : relation Server :=
  rtc (fun s s' => exists l, P l /\ server_step s l s').

Record confined_inv (h : string) (s : Server) : Prop := {
  ci_ok : auth_ok (db s); ci_confined : confined h (db s) }.

Lemma ci_write h s s' l :
  auth_step (db s) l (db s') -> l <> MintSession h -> l <> ScopeWrite ->
  confined_inv h s -> confined_inv h s'.
Proof. intros Hs H1 H2 [Hok Hc]. split; [by eapply auth_step_ok|by eapply confined_step]. Qed.

Lemma ci_same h s s' : db s' = db s -> confined_inv h s -> confined_inv h s'.
Proof. intros E [Hok Hc]. split; by rewrite E. Qed.

Lemma gate_db_inv h now s r :
  confined_inv h s -> r ∈ sessions (db s) ->
  let want := if gate_scope now s r then SessionScopeElevated else SessionScopeFull in
  auth_ok (gate_db want now r (db s)) /\ confined h (gate_db want now r (db s)).
Proof.
  intros [Hok Hc] Hr want. unfold gate_db.
  destruct (bool_decide (se_scope r = SessionScopeElevated)) eqn:Ee; [by rewrite andb_false_r|].
  destruct (negb (bool_decide (se_scope r = want)) && negb false); [|done].
  split; [apply auth_ok_sessions; [done|apply with_scope_evolves]|].
  apply confined_scope; [|done]. right. intros x Hx Hid Hh. bools. apply Ee.
  assert (x = r) as <- by (apply (ids_inj (sessions (db s))); [apply Hok|done|done|done]). by apply Hc.
Qed.

Lemma authorize_inv h c m now s : confined_inv h s -> confined_inv h (authorize HashToken c m now s).2.
Proof.
  intros Hi. pose proof Hi as [Hok Hc]. destruct (noSessionMethods m) eqn:Hm.
  { unfold authorize. by rewrite Hm. }
  destruct (presented HashToken c now s Hok) as [Hfail|(raw & r & Htok & Hr & Hh & Hv)].
  - unfold authorize. rewrite Hm. destruct Hfail as [->|(raw & -> & Hno)]; [done|].
    unfold GetSessionByTokenHash. destruct (List.find _ (sessions (db s))) as [r|] eqn:Ef; [|done].
    apply (find_hash (HashToken raw)) in Ef as [Hr Hh]; [|done]. by rewrite (Hno r Hr Hh).
  - pose proof (authorize_found HashToken c m now s raw r Hok Hm Htok Hr Hh Hv) as Ha. cbn zeta in Ha.
    destruct (gate_db_inv h now s r Hi Hr) as [Hok2 Hc2]. rewrite Ha.
    destruct (_ && _); cbn [snd]; [by split|].
    split; cbn; [apply auth_ok_sessions; [done|apply with_seen_evolves]|by apply confined_update].
Qed.

Lemma recover_inv h clk now ip ua raw ticket code s :
  HashToken raw <> h -> confined_inv h s ->
  confined_inv h (RecoverWithCode HashToken sha256hex hashTicket clk now ip ua raw ticket code s).2.
Proof.
  intros Hne Hi. unfold RecoverWithCode.
  assert (Hfailed : forall t d, confined_inv h (failed t ip now d s)).
  { intros t d. eapply (ci_write h s _ OtherWrite); [apply au_Event|done|done|done]. }
  destruct (_ && _); [eapply (ci_write h s _ OtherWrite); [apply au_Event|done|done|done]|].
  destruct (VerifyCode _ _ _) as [idx|]; [|apply Hfailed].
  destruct (UseRecoveryCode _ _ _) as [d1|e] eqn:Eu; [|destruct e; (apply Hfailed || exact Hi)].
  assert (H1 : confined_inv h (set_db d1 s)) by (by eapply (ci_write h s _ OtherWrite); [by eapply au_Use|done|done|]).
  set (d2 := RevokeAllSessions _ d1).
  assert (H2 : confined_inv h (set_db d2 s))
    by (eapply (ci_write h (set_db d1 s) _ OtherWrite); [apply au_RevokeAll|done|done|done]).
  destruct (mintSession _ _ _ _ _ _ d2) as [[id d3]|e] eqn:Em; [|done].
  assert (H3 : confined_inv h (set_db d3 s)).
  { eapply (ci_write h (set_db d2 s) _ (MintSession (HashToken raw))); [|congruence|done|done].
    apply (au_Create d2 (MkSess (HashToken raw) now now (now + elevatedSessionTTL) ip ua zero_time) id d3 Em). }
  destruct (SetSessionScope id SessionScopeElevated d3) as [d4|e] eqn:Es; [|by eapply ci_same, H3].
  assert (H4 : confined_inv h (set_db d4 s)).
  { destruct H3 as [Hok3 Hc3]. apply SetSessionScope_Ok in Es as ->. split.
    - apply auth_ok_sessions; [done|apply with_scope_evolves].
    - apply confined_scope; [by left|done]. }
  cbn [snd]. eapply ci_same; [|eapply (ci_write h (set_db d4 s) (set_db _ (set_db d4 s)) OtherWrite); [apply au_Event|done|done|done]].
  by repeat case_match.
Qed.

Lemma server_step_inv h s l s' :
  server_step s l s' -> l <> MintSession h -> confined_inv h s -> confined_inv h s'.
Proof.
  intros [c m now|now cs|now cs|clk now ip ua raw ticket code|l' d' Hst Hnl|e b t] Hl Hi.
  - by apply authorize_inv.
  - unfold Logout. destruct (RevokeSession now (cs_ID cs) (db s)) as [d|] eqn:E; [|done].
    eapply (ci_write h s _ OtherWrite); [by eapply au_Revoke|done|done|done].
  - unfold endElevatedSession. cbn [db set_elevated].
    destruct (RevokeSession now (cs_ID cs) (db s)) as [d|] eqn:E; [|by eapply ci_same, Hi].
    eapply (ci_write h s _ OtherWrite); [by eapply au_Revoke|done|done|done].
  - apply recover_inv; [|done]. intros E. by rewrite E in Hl.
  - by eapply (ci_write h s _ l').
  - by eapply ci_same, Hi.
Qed.

Lemma server_history_inv h s s' :
  server_history (fun l => l <> MintSession h) s s' -> confined_inv h s -> confined_inv h s'.
Proof. induction 1 as [|s s1 s2 (l & Hl & Hs) _ IH]; [done|]. intros Hi. by eapply IH, server_step_inv. Qed.

(** What a successful recovery leaves behind. *)
Lemma recover_confines clk now ip ua raw ticket code s id n s' :
  auth_ok (db s) -> RecoverWithCode HashToken sha256hex hashTicket clk now ip ua raw ticket code s = (Ok (id, n), s') ->
  confined_inv (HashToken raw) s'.
Proof.
  intros Hok H. unfold RecoverWithCode in H. destruct (_ && _); [done|].
  destruct (VerifyCode _ _ _) as [idx|]; [|done].
  destruct (UseRecoveryCode _ _ _) as [d1|e] eqn:Eu; [|by destruct e].
  set (d2 := RevokeAllSessions _ d1) in H.
  assert (Hok2 : auth_ok d2).
  { eapply (auth_step_ok d1); [|apply au_RevokeAll]. by eapply auth_step_ok, au_Use. }
  destruct (mintSession _ _ _ _ _ _ d2) as [[id' d3]|e] eqn:Em; [|done].
  assert (Hok3 : auth_ok d3) by (eapply (auth_step_ok d2); [done|by eapply au_Create, Em]).
  destruct (SetSessionScope id' SessionScopeElevated d3) as [d4|e] eqn:Es; [|done].
  assert (Hs' : exists t, db s' = RecordAuthEvent t "recover" ip true "" d4).
  { exists (clk 2%nat). injection H as _ _ <-. by repeat case_match. }
  destruct Hs' as [t Hdb]. apply SetSessionScope_Ok in Es as ->.
  split; rewrite Hdb; [eapply auth_step_ok, au_Event; apply auth_ok_sessions; [done|apply with_scope_evolves]|].
  intros r Hr Hh. cbn in Hr. apply elem_of_update in Hr as (r0 & Hr0 & ->).
  unfold mintSession, CreateSession in Em. cbn [TokenHash] in Em.
  destruct (bool_decide (HashToken raw ∈ _)) eqn:En; [done|]. injection Em as <- <-. bools. cbn in Hr0.
  apply elem_of_app in Hr0 as [Hr0| ->%list_elem_of_singleton].
  - exfalso. apply En. apply list_elem_of_fmap. exists r0. split; [|done]. by destruct (is_session _ r0).
  - unfold is_session. cbn. by rewrite Z.eqb_refl.
Qed.

(** C30: a session opened by a recovery code never reaches more than its two
    methods: after any calls, writes, memory changes and restarts that do not
    mint the same token again, the gate lets that token through to
    [ChangePassword] and [ReenrollTOTP] only. *)
Theorem recovery_session_confined clk now ip ua raw ticket code s id n s1 s2 c m now2 cs :
  auth_ok (db s) ->
  RecoverWithCode HashToken sha256hex hashTicket clk now ip ua raw ticket code s = (Ok (id, n), s1) ->
  server_history (fun l => l <> MintSession (HashToken raw)) s1 s2 ->
  noSessionMethods m = false -> sessionTokenFromContext c = Some raw ->
  (authorize HashToken c m now2 s2).1 = Ok cs ->
  m = ChangePassword \/ m = ReenrollTOTP.
Proof.
  intros Hok Hrec Hh Hm Hc Ha. apply recover_confines in Hrec; [|done].
  destruct (server_history_inv _ _ _ Hh Hrec) as [Hok2 Hconf].
  destruct (presented HashToken c now2 s2 Hok2) as [Hfail|(raw' & r & Htok & Hr & Hhash & Hv)].
  - unfold authorize in Ha. rewrite Hm, Hc in Ha. destruct Hfail as [?|(raw' & Hc' & Hno)]; [congruence|].
    rewrite Hc in Hc'. injection Hc' as <-.
    unfold GetSessionByTokenHash in Ha. destruct (List.find _ (sessions (db s2))) as [r|] eqn:Ef; [|done].
    apply (find_hash (HashToken raw)) in Ef as [Hr Hrh]; [|done]. by rewrite (Hno r Hr Hrh) in Ha.
  - rewrite Hc in Htok. injection Htok as <-. pose proof (authorize_found HashToken c m now2 s2 raw r Hok2 Hm Hc Hr Hhash Hv) as Hf.
    cbn zeta in Hf. rewrite Hf in Ha. unfold gate_scope in Ha.
    rewrite (bool_decide_eq_true_2 _ (Hconf r Hr Hhash)), orb_true_r in Ha.
    destruct m; cbn in Ha; try done; by auto.
Qed.
End confinement.

(** ** Tickets are used once *)

Inductive ticket_op := TIssue (now : Z) (session raw : string) | TRedeem (now : Z) (ticket : string).

Section ticket_history.
Context (hashTicket : string -> string).

Definition ticket_step (o : ticket_op) (m : gmap string ticketEntry) : gmap string ticketEntry :=
  match o with
  | TIssue now session raw => match Issue hashTicket now session raw m with Some (_, _, m') => m' | None => m end
  | TRedeem now ticket => (Redeem hashTicket now ticket m).2
  end.

(** What the redemptions of the ticket with hash [h] answered, and when. *)
Fixpoint redeemed (h : string) (ops : list ticket_op) (m : gmap string ticketEntry) : list (Z * string) :=
  match ops with
  | [] => []
  | o :: rest =>
      let later := redeemed h rest (ticket_step o m) in
      match o with
      | TRedeem now ticket =>
          if bool_decide (hashTicket ticket = h)
          then match (Redeem hashTicket now ticket m).1 with Some tok => (now, tok) :: later | None => later end
          else later
      | TIssue _ _ _ => later
      end
  end.

Definition not_reissued (h : string) (o : ticket_op) : Prop :=
  match o with TIssue _ _ raw => hashTicket raw <> h | TRedeem _ _ => True end.

Lemma ticket_step_absent h o m : not_reissued h o -> m !! h = None -> ticket_step o m !! h = None.
Proof.
  intros Hn Hm. destruct o as [now session raw|now ticket]; cbn in *.
  - unfold Issue. destruct (is_empty session); [done|]. by rewrite lookup_insert_ne.
  - unfold Redeem. destruct (is_empty ticket); [done|].
    destruct (m !! hashTicket ticket); [|done]. case_match; cbn; by rewrite lookup_delete_None; right.
Qed.

Lemma redeemed_absent h ops m : Forall (not_reissued h) ops -> m !! h = None -> redeemed h ops m = [].
Proof.
  intros Ho. revert m. induction Ho as [|o ops Hn _ IH]; intros m Hm; [done|]. cbn [redeemed].
  rewrite (IH _ (ticket_step_absent h o m Hn Hm)). destruct o as [|now ticket]; [done|].
  case_bool_decide as Hh; [|done]. unfold Redeem. destruct (is_empty ticket); [done|]. by rewrite Hh, Hm.
Qed.

Lemma redeemed_present h e ops m :
  Forall (not_reissued h) ops -> m !! h = Some e ->
  redeemed h ops m = [] \/ exists now, redeemed h ops m = [(now, rawSessionToken e)] /\ now < tk_expiresAt e.
Proof.
  intros Ho. revert m. induction Ho as [|o ops Hn Hops IH]; intros m Hm; [by left|]. cbn [redeemed].
  destruct o as [now session raw|now ticket]; cbn [ticket_step].
  - apply IH. unfold Issue. destruct (is_empty session); [done|]. cbn in Hn. by rewrite lookup_insert_ne.
  - case_bool_decide as Hh; unfold Redeem.
    + destruct (is_empty ticket); [by apply IH|]. rewrite Hh, Hm.
      assert (Hgone : redeemed h ops (delete h m) = []) by (apply redeemed_absent; [done|apply lookup_delete_eq]).
      destruct (Z.ltb_spec now (tk_expiresAt e)); cbn; rewrite Hgone; [right; eauto|by left].
    + destruct (is_empty ticket); [by apply IH|]. destruct (m !! hashTicket ticket); [|by apply IH].
      case_match; cbn; apply IH; by rewrite lookup_delete_ne.
Qed.

(** a login ticket buys one session at most: whatever tickets are issued
    and redeemed afterwards, in whichever order, at most one redemption of it
    succeeds, within twenty seconds of its issue, and it yields the session
    the ticket was issued for; and the first one made in time does succeed. *)
Theorem ticket_single_use now session raw m raw' exp m1 ops :
  Issue hashTicket now session raw m = Some (raw', exp, m1) -> raw <> ""%string ->
  Forall (not_reissued (hashTicket raw)) ops ->
  (redeemed (hashTicket raw) ops m1 = []
   \/ exists t, redeemed (hashTicket raw) ops m1 = [(t, session)] /\ t < now + 20 * second)
  /\ (forall t, t < now + 20 * second -> (Redeem hashTicket t raw m1).1 = Some session).
Proof.
  intros Hi Hraw Ho. unfold Issue in Hi. destruct (is_empty session); [done|]. injection Hi as _ _ <-.
  split.
  - apply (redeemed_present _ (MkTicket session (now + DefaultTicketTTL))); [done|]. by rewrite lookup_insert_eq.
  - intros t Ht. unfold Redeem, is_empty. rewrite (bool_decide_eq_false_2 _ Hraw), lookup_insert_eq.
    cbn [tk_expiresAt]. unfold DefaultTicketTTL. by rewrite (proj2 (Z.ltb_lt _ _) Ht).
Qed.
End ticket_history.

Lemma ticket_single_use_witness :
  redeemed id "t1" [TRedeem second "t1"; TIssue second "s2" "t2"; TRedeem (2 * second) "t1"]
    {[ "t1"%string := MkTicket "s1" (20 * second) ]} = [(second, "s1"%string)].
Proof.
  destruct (ticket_single_use id 0 "s1" "t1" ∅ "t1" (20 * second) {[ "t1"%string := MkTicket "s1" (20 * second) ]}
              [TRedeem second "t1"; TIssue second "s2" "t2"; TRedeem (2 * second) "t1"]) as [[H|(t & H & _)] _].
  - vm_compute. reflexivity.
  - discriminate.
  - repeat constructor; discriminate.
  - exfalso. vm_compute in H. discriminate H.
  - refine (eq_trans H _). vm_compute in H. injection H as <-. reflexivity.
Defined.

(** ** The backoff *)

(** Failures recorded for other addresses. *)
Fixpoint others (l : list (string * Z)) (t : gmap string backoffState) : gmap string backoffState :=
  match l with [] => t | (ip, now) :: rest => others rest (recordFailure ip now t) end.

Lemma sweep_keeps now t ip st :
  t !! ip = Some st -> now <= bo_until st + backoffRetention -> sweepLocked now t !! ip = Some st.
Proof.
  intros Ht Hn. unfold sweepLocked. apply map_lookup_filter_Some. split; [done|]. cbn.
  apply negb_true_iff, Z.ltb_ge. lia.
Qed.

Lemma others_keep l t ip st :
  t !! ip = Some st -> Forall (fun o => o.1 <> ip /\ o.2 <= bo_until st + backoffRetention) l ->
  others l t !! ip = Some st.
Proof.
  intros Ht Hl. revert t Ht. induction Hl as [|[x now] l [Hx Hn] _ IH]; intros t Ht; [done|]. cbn [others].
  apply IH. unfold recordFailure. rewrite lookup_insert_ne by done. by apply sweep_keeps.
Qed.

Lemma backoffDelay_formula n :
  0 <= n -> backoffDelay n = if n <=? 2 then 0 else second * Z.min 60 (2 ^ (n - 2)).
Proof.
  intros Hn. unfold backoffDelay. destruct (Z.leb_spec n 2); [done|].
  assert (Hcases : n = 3 \/ n = 4 \/ n = 5 \/ n = 6 \/ n = 7 \/ 8 <= n) by lia.
  destruct Hcases as [->|[->|[->|[->|[->|Hbig]]]]]; try reflexivity.
  assert (Hpow : 2 ^ 6 <= 2 ^ (n - 2)) by (apply Z.pow_le_mono_r; lia).
  change (2 ^ 6) with 64 in Hpow. rewrite Z.min_l by lia.
  destruct (Z.ltb_spec 6 (n - 2)).
  - reflexivity.
  - replace (n - 2) with 6 by lia. reflexivity.
Qed.

(** each further failure of an address doubles what it must wait, from two
    seconds at the third up to a minute, and the count is not lost meanwhile:
    no failures of other addresses, within a quarter of an hour of the end of
    its window, make the tracker forget it, and it is blocked for exactly the
    delay. *)
Theorem backoff_doubles ip t n u l now :
  t !! ip = Some (MkBackoff n u) -> 0 <= n ->
  Forall (fun o => o.1 <> ip /\ o.2 <= u + 15 * minute) l -> now <= u + 15 * minute ->
  let t' := recordFailure ip now (others l t) in
  let delay := if n + 1 <=? 2 then 0 else second * Z.min 60 (2 ^ (n - 1)) in
  t' !! ip = Some (MkBackoff (n + 1) (now + delay)) /\ forall x, blocked ip x t' = (x <? now + delay).
Proof.
  intros Ht Hn Hl Hnow t' delay.
  assert (H : t' !! ip = Some (MkBackoff (n + 1) (now + delay))).
  { unfold t', recordFailure. rewrite (sweep_keeps _ _ _ (MkBackoff n u)); [|by apply others_keep|done].
    cbn [bo_failures]. rewrite lookup_insert_eq, backoffDelay_formula by lia.
    unfold delay. replace (n + 1 - 2) with (n - 1) by lia. done. }
  split; [done|]. intros x. unfold blocked. by rewrite H.
Qed.

Lemma backoff_doubles_witness :
  recordFailure "a" (9 * second) (others [("b"%string, 3 * second)] {[ "a"%string := MkBackoff 3 (2 * second) ]})
    !! "a"%string = Some (MkBackoff 4 (13 * second)).
Proof.
  refine (proj1 (backoff_doubles "a" {[ "a"%string := MkBackoff 3 (2 * second) ]} 3 (2 * second)
                   [("b"%string, 3 * second)] (9 * second) _ _ _ _)).
  - vm_compute. reflexivity.
  - lia.
  - repeat constructor; vm_compute; discriminate.
  - vm_compute. discriminate.
Defined.

(** ** Recovery codes *)

Definition symbol (v : Z) : Z :=
  default 0 (recoveryAlphabet !! Z.to_nat (v mod Z.of_nat (length recoveryAlphabet))).

Lemma symbol_alphabet v : symbol v ∈ recoveryAlphabet.
Proof.
  unfold symbol. destruct (recoveryAlphabet !! _) as [x|] eqn:E; [by apply list_elem_of_lookup_2 in E|].
  exfalso. apply lookup_ge_None in E. pose proof (Z.mod_pos_bound v (Z.of_nat (length recoveryAlphabet)) ltac:(done)). lia.
Qed.

(** The alphabet has no separator and no lower-case letter. *)
Lemma alphabet_plain x : x ∈ recoveryAlphabet -> separator x = false /\ upper x = x.
Proof.
  assert (H : Forall (fun x => separator x = false /\ upper x = x) recoveryAlphabet)
    by (repeat constructor).
  rewrite Forall_forall in H. apply H.
Qed.

Lemma normalize_app a b : normalizeCode (a ++ b) = normalizeCode a ++ normalizeCode b.
Proof. induction a as [|r a IH]; [done|]. cbn. destruct (separator r); cbn; by rewrite IH. Qed.

Lemma normalize_symbol i v : normalizeCode (code_symbol i v) = [symbol v].
Proof.
  unfold code_symbol. fold (symbol v). destruct (alphabet_plain _ (symbol_alphabet v)) as [H1 H2].
  destruct (_ && _); cbn; by rewrite H1, H2.
Qed.

Lemma normalize_generated raw : normalizeCode (generateOneCode raw) = symbol <$> raw.
Proof.
  unfold generateOneCode. assert (H : forall f : nat -> nat,
    normalizeCode (mjoin (imap (fun i => code_symbol (f i)) raw)) = symbol <$> raw).
  { induction raw as [|v raw IH]; intros f; [done|]. cbn. rewrite normalize_app, normalize_symbol.
    cbn. f_equal. exact (IH (fun i => f (S i))). }
  exact (H id).
Qed.

(** What a person may do to a code when typing it: change the case of a letter,
    drop or add separators. *)
Inductive retyped : list Z -> list Z -> Prop :=
| retyped_nil : retyped [] []
| retyped_same r a b : retyped a b -> retyped (r :: a) (r :: b)
| retyped_lower r a b : 65 <= r <= 90 -> retyped a b -> retyped (r :: a) (r + 32 :: b)
| retyped_drop r a b : separator r = true -> retyped a b -> retyped (r :: a) b
| retyped_add r a b : separator r = true -> retyped a b -> retyped a (r :: b).

Lemma separator_letter r : 65 <= r <= 90 -> separator r = false /\ separator (r + 32) = false.
Proof.
  intros Hr. unfold separator.
  split; apply bool_decide_eq_false_2; rewrite !elem_of_cons, elem_of_nil; lia.
Qed.

Lemma retyped_normalize a b : retyped a b -> normalizeCode b = normalizeCode a.
Proof.
  induction 1 as [|r a b _ IH|r a b Hr _ IH|r a b Hr _ IH|r a b Hr _ IH]; cbn; [done| | | |].
  - by rewrite IH.
  - destruct (separator_letter r Hr) as [-> ->]. rewrite IH. f_equal. unfold upper.
    repeat split_if; bools; lia.
  - by rewrite Hr.
  - by rewrite Hr.
Qed.

Lemma VerifyCode_app sha code hashes h :
  VerifyCode sha code (hashes ++ [h])
  = if bool_decide (h = hashRecoveryCode sha code) then Some (length hashes) else VerifyCode sha code hashes.
Proof.
  unfold VerifyCode. rewrite imap_app, foldl_app. cbn. by rewrite Nat.add_0_r.
Qed.

Lemma VerifyCode_last sha code before after :
  hashRecoveryCode sha code ∉ after ->
  VerifyCode sha code (before ++ hashRecoveryCode sha code :: after) = Some (length before).
Proof.
  intros Hn. induction after as [|h after IH] using rev_ind.
  - by rewrite VerifyCode_app, bool_decide_eq_true_2.
  - rewrite app_comm_cons, app_assoc, VerifyCode_app.
    rewrite bool_decide_eq_false_2; [apply IH|]; set_solver.
Qed.

(** a code that was generated verifies as typed back by hand, in either case
    and with any dashes and spaces, at the position its hash is stored at. *)
Theorem recovery_code_roundtrip sha raws i raw typed :
  let hashes := (fun raw => hashRecoveryCode sha (generateOneCode raw)) <$> raws in
  raws !! i = Some raw -> NoDup hashes -> retyped (generateOneCode raw) typed ->
  VerifyCode sha typed hashes = Some i /\ normalizeCode typed = symbol <$> raw.
Proof.
  intros hashes Hi Hnd Ht. pose proof (retyped_normalize _ _ Ht) as Hn. split; [|by rewrite Hn, normalize_generated].
  assert (Hh : hashRecoveryCode sha typed = hashRecoveryCode sha (generateOneCode raw))
    by (unfold hashRecoveryCode; by rewrite Hn).
  assert (Hl : hashes !! i = Some (hashRecoveryCode sha typed)) by (unfold hashes; by rewrite list_lookup_fmap, Hi, Hh).
  pose proof Hl as Hlt%lookup_lt_Some. rewrite <- (take_drop_middle _ _ _ Hl) in Hnd |- *.
  rewrite VerifyCode_last.
  - f_equal. rewrite length_take. lia.
  - apply NoDup_app in Hnd as (_ & _ & Hnd). by apply NoDup_cons in Hnd as [? _].
Qed.

Definition demo_sha (l : list Z) : string := bytes (Z.to_nat <$> l).
Definition demo_raws : list (list Z) := [[0; 1; 2; 3; 4; 5]; [7; 7; 7; 10; 11; 12]].

Lemma recovery_code_roundtrip_witness :
  VerifyCode demo_sha [57; 57; 57; 32; 99; 100; 101] (hashRecoveryCode demo_sha ∘ generateOneCode <$> demo_raws) = Some 1%nat.
Proof.
  refine (proj1 (recovery_code_roundtrip demo_sha demo_raws 1 [7; 7; 7; 10; 11; 12] [57; 57; 57; 32; 99; 100; 101] eq_refl _ _)).
  - apply (bool_decide_eq_true_1 (NoDup _)). vm_compute. reflexivity.
  - change (generateOneCode [7; 7; 7; 10; 11; 12]) with [57; 57; 57; 67; 68; 45; 69].
    do 3 apply retyped_same. apply retyped_add; [reflexivity|]. apply (retyped_lower 67); [lia|].
    apply (retyped_lower 68); [lia|]. apply retyped_drop; [reflexivity|]. apply (retyped_lower 69); [lia|]. constructor.
Defined.

(** ** Instances of the gate *)

Definition code_row : CodeRow := MkCode 1 (demo_sha [50; 51]) None.
Definition demo_db : AuthDB :=
  MkAuthDB None [code_row] [] [MkSession 1 "live" 0 0 (12 * hour) None None None "full"] [] [].
Definition demo_server : Server := MkServer demo_db ∅ ∅ ∅ false.
Definition with_token (t : string) : call_ctx := MkCtx t None [].

Lemma demo_db_ok : auth_ok demo_db.
Proof. split; cbn; try (split; repeat constructor); repeat constructor; set_solver. Qed.

Lemma authorize_exact_witness :
  exists r, admitted id (with_token "live") (Other "ListFeeds") (10 * minute) demo_server r /\ se_id r = 1.
Proof.
  destruct (proj1 (proj1 (authorize_exact id (with_token "live") (Other "ListFeeds") (10 * minute) demo_server
              demo_db_ok eq_refl) (Some (MkCaller 1 "live" false))) eq_refl) as (r & Hr & Hid).
  exists r. split; [exact Hr|]. by injection Hid.
Defined.

Definition recovered : result rpc_error (Z * nat) * Server :=
  RecoverWithCode id demo_sha id (fun _ => minute) minute "ip" "ua" "rec" None [50; 45; 51] demo_server.

Lemma recovery_session_confined_witness :
  (authorize id (with_token "rec") ChangePassword (2 * minute) (restart recovered.2)).1 = Ok (Some (MkCaller 2 "rec" true))
  /\ (ChangePassword = ChangePassword \/ ChangePassword = ReenrollTOTP).
Proof.
  assert (H : (authorize id (with_token "rec") ChangePassword (2 * minute) (restart recovered.2)).1
              = Ok (Some (MkCaller 2 "rec" true))) by (vm_compute; reflexivity).
  split; [exact H|].
  refine (recovery_session_confined id demo_sha id (fun _ => minute) minute "ip" "ua" "rec" None [50; 45; 51] demo_server
            2 0 recovered.2 (restart recovered.2) (with_token "rec") ChangePassword (2 * minute) _
            demo_db_ok _ _ eq_refl eq_refl H).
  - vm_compute. reflexivity.
  - apply rtc_once. exists OtherWrite. split; [discriminate|]. apply (sv_memory id demo_sha id recovered.2 ∅ ∅ ∅).
Defined.
