(* ===== verification/AuthService.v ===== *)
(** * The authentication service: internal/rpc/auth.go

    The handlers behind the gate of Access.v: first-run setup, login, password
    reset and change, the session list, TOTP re-enrolment and recovery codes,
    with the re-proof of the current credentials and the encryption of the TOTP
    secret (internal/auth/totp.go) they use.

    Values drawn at random (tokens, salts, secrets, nonces, recovery codes) and
    the readings of the store's clock ([clk]) are arguments of a handler. *)

From S2P Require Import Prelude GoTime GoStrings Timestamps Tables Schema StoreItems StoreAuth Password Access.
From Stdlib Require Import String Ascii.
Local Open Scope string_scope.
Local Open Scope Z_scope.
Local Open Scope aff_scope.

(** ** What the server is built with *)

Record config := MkConfig {
  prim : primitives;
  secretKey : string; pepperKey : string; pepperVersion : Z; dummyHash : string;
  HashToken : string -> string;            (* base64 of the SHA-256 *)
  hashResetToken : string -> string;
  sha256Hex : string -> string;
  sha256code : list Z -> string;           (* of a recovery code *)
  hashTicket : string -> string;
  sha256 : string -> string;
  seal : string -> string -> string -> string;          (* AES-256-GCM: key, nonce, plaintext *)
  open_ : string -> string -> string -> option string;  (* key, nonce, ciphertext *)
  hotp : string -> Z -> string -> option bool;
  otpauth : string -> string }.                         (* the provisioning URI of a secret *)

Definition recoveryCodeCount : nat := 10.
Definition SessionAbsoluteLifetime : Z := 12 * hour.
Definition resetTokenTTL : Z := 15 * minute.
Definition gcmNonceSize : Z := 12.

Definition kdfParamsString (p : Params) : string :=
  "argon2id m=" ++ show_int (Memory p) ++ ",t=" ++ show_int (Time p) ++ ",p=" ++ show_int (Threads p).

(** [json.Marshal] of the parameters. *)
Definition json_field (name : string) (n : Z) : string := String dquote (name ++ String dquote (":" ++ show_int n)).
Definition json_params (p : Params) : string :=
  "{" ++ json_field "Time" (Time p) ++ "," ++ json_field "Memory" (Memory p) ++ "," ++ json_field "Threads" (Threads p)
  ++ "," ++ json_field "SaltLen" (SaltLen p) ++ "," ++ json_field "KeyLen" (KeyLen p) ++ "}".

(** What a session looks like on the wire. *)
Record ProtoSession := MkProto {
  ps_Id : string; ps_CreatedAt : Z; ps_LastSeenAt : Z; ps_ExpiresAt : Z; ps_Ip : string; ps_UserAgent : string;
  ps_IsCurrent : bool; ps_RevokedAt : option Z }.

Definition toProtoSession (id : Z) (sess : Session) (isCurrent : bool) : ProtoSession :=
  MkProto (show_int id) (ss_CreatedAt sess) (LastSeenAt sess) (ExpiresAt sess) (IP sess) (UserAgent sess) isCurrent
    (if is_zero (RevokedAt sess) then None else Some (RevokedAt sess)).

(** What the transport is handed after a session was minted. *)
Inductive credential := TokenHeader (raw : string) | TicketHeader (ticket : string) | NoCredential.

(** Why a re-proof of the current credentials failed. *)
Inductive cred_error := CredentialCheckFailed | CredentialCheckBroken.

(** What the context of a call says of its caller: the address, the user agent,
    and whether it came over the bridge. *)
Record caller := MkCallerInfo { clientIP : string; userAgent : string; onBridge : bool }.

Section service.
Context (cfg : config).

(** ** The TOTP secret at rest *)

Definition deriveKey (key : string) : string := if len key =? 32 then key else sha256 cfg key.

Definition EncryptSecret (secret key nonce : string) : string := nonce ++ seal cfg (deriveKey key) nonce secret.

Definition DecryptSecret (data key : string) : option string :=
  if len data <? gcmNonceSize then None
  else open_ cfg (deriveKey key) (substring 0 (Z.to_nat gcmNonceSize) data)
         (substring (Z.to_nat gcmNonceSize) (String.length data - Z.to_nat gcmNonceSize) data).

(** ** Passwords under the configured pepper *)

Definition pepperKeyConfigured : bool := (0 <? len (pepperKey cfg)) && (0 <? pepperVersion cfg).

Definition hashPassword (password salt : string) : result weakness (string * Z) :=
  let '(key, version) := if pepperKeyConfigured then (pepperKey cfg, pepperVersion cfg) else ("", 0) in
  let? hash := HashPeppered (prim cfg) password DefaultParams key salt in Ok (hash, version).

Definition verifyPassword (password hash : string) (rowPepperVersion : Z) : result hash_error (bool * bool) :=
  let '(reproducible, key) :=
    if rowPepperVersion =? 0 then (true, "")
    else if (len (pepperKey cfg) =? 0) || negb (rowPepperVersion =? pepperVersion cfg) then (false, "")
    else (true, pepperKey cfg) in
  let? (ok, needsRehash) := VerifyPasswordPeppered (prim cfg) password hash key in
  Ok (reproducible && ok, needsRehash).

(** The error is its message. *)
Definition rehashAdminPassword (clk : Z) (password salt : string) (d : AuthDB) : result string AuthDB :=
  match hashPassword password salt with
  | Err w => Err (weakness_text w)
  | Ok (newHash, version) =>
      match UpdatePasswordAndPepper clk newHash (kdfParamsString DefaultParams) version d with
      | Ok d' => Ok d'
      | Err _ => Err "store: updating password and pepper version: store: not found"
      end
  end.

(** ** The second factor *)

Definition verifyTOTPCode (clk : Z) (code : string) (now : Z) (s : Server) : result rpc_error bool * Server :=
  match GetTOTPSecret (db s) with
  | Err _ | Ok None => (Ok false, s)
  | Ok (Some enc) =>
    if is_empty enc then (Ok false, s) else
    match DecryptSecret enc (secretKey cfg) with
    | None => (Ok false, s)
    | Some secret =>
      match ValidateCode (hotp cfg) secret code now with
      | None => (Ok false, s)
      | Some step =>
        match MarkTOTPStepUsed clk step (sha256Hex cfg code) (db s) with
        | Err TOTPReplay => (Ok (devInsecureAuth s), s)
        | Err _ => (Err Internal, s)
        | Ok d => (Ok true, set_db d s)
        end
      end
    end
  end.

Definition event (clk : Z) (kind ip : string) (ok : bool) (detail : string) (s : Server) : Server :=
  set_db (RecordAuthEvent clk kind ip ok detail (db s)) s.

Definition count_failure (ip : string) (now : Z) (s : Server) : Server :=
  set_backoff (recordFailure ip now (backoff s)) s.

Definition throttled (ip : string) (now : Z) (s : Server) : bool := negb (devInsecureAuth s) && blocked ip now (backoff s).

Definition verifyCurrentCredentials (clk : Z) (ip password code : string) (now : Z) (s : Server)
    : result cred_error unit * Server :=
  if throttled ip now s then (Err CredentialCheckFailed, s) else
  match GetAdmin (db s) with
  | Err _ => (Err CredentialCheckBroken, s)
  | Ok a =>
    match verifyPassword password (a_password_hash a) (a_pepper_version a) with
    | Err _ => (Err CredentialCheckBroken, s)
    | Ok (false, _) => (Err CredentialCheckFailed, count_failure ip now s)
    | Ok (true, _) =>
      match verifyTOTPCode clk code now s with
      | (Err _, s1) => (Err CredentialCheckBroken, s1)
      | (Ok false, s1) => (Err CredentialCheckFailed, count_failure ip now s1)
      | (Ok true, s1) => (Ok tt, set_backoff (recordSuccess ip (backoff s1)) s1)
      end
    end
  end.

(** ** The credential of a new session *)

(** [draw] is the ticket drawn, [None] without a ticket store. *)
Definition issueSessionCredential (bridged : bool) (now : Z) (rawToken : string) (draw : option string) (s : Server)
    : credential * Server :=
  if negb bridged then (TokenHeader rawToken, s)
  else match draw with
       | None => (NoCredential, s)
       | Some raw => match Issue (hashTicket cfg) now rawToken raw (tickets s) with
                     | None => (NoCredential, s)
                     | Some (ticket, _, m) => (TicketHeader ticket, set_tickets m s)
                     end
       end.

(** ** Setup *)

(** The fallible work that writes nothing, on what was drawn. *)
Record enrolment := MkEnrolment {
  en_hash : string; en_kdf : string; en_secret : string; en_codes : list (list Z); en_hashes : list string; en_uri : string }.

Definition GenerateCodes (raws : list (list Z)) : list (list Z) * list string :=
  let plain := generateOneCode <$> raws in (plain, hashRecoveryCode (sha256code cfg) <$> plain).

Definition setup_prepare (clk : Z) (ip password salt secret nonce : string) (raws : list (list Z)) (s : Server)
    : result rpc_error enrolment * Server :=
  match GetAdmin (db s) with
  | Ok _ => (Err SetupUnavailable, event clk "setup" ip false "admin already exists" s)
  | Err NotFound =>
    match IsWeak (prim cfg) password with
    | Some w => (Err (InvalidArgument (weakness_text w)), s)
    | None =>
      match Hash (prim cfg) password DefaultParams salt with
      | Err _ => (Err Internal, s)
      | Ok hash =>
          let '(plain, hashes) := GenerateCodes raws in
          (Ok (MkEnrolment hash (json_params DefaultParams) (EncryptSecret secret (secretKey cfg) nonce)
                 plain hashes (otpauth cfg secret)), s)
      end
    end
  | Err _ => (Err SetupUnavailable, s)
  end.

Definition setup_claim (clk : nat -> Z) (ip : string) (e : enrolment) (s : Server)
    : result rpc_error (string * list (list Z)) * Server :=
  match InitAdmin (clk 0%nat) (en_hash e) (en_kdf e) (db s) with
  | Err AdminExists => (Err SetupUnavailable, event (clk 1%nat) "setup" ip false "admin already exists" s)
  | Err _ => (Err Internal, s)
  | Ok d1 =>
    match SetTOTPSecret (Some (en_secret e)) d1 with
    | Err _ => (Err Internal, set_db d1 s)
    | Ok d2 =>
      match StoreRecoveryCodes (en_hashes e) d2 with
      | Err _ => (Err Internal, set_db d2 s)
      | Ok d3 => (Ok (en_uri e, en_codes e), event (clk 1%nat) "setup" ip true "" (set_db d3 s))
      end
    end
  end.

(** [raws] are the bytes drawn for the codes. *)
Definition Setup (clk : nat -> Z) (ip password salt secret nonce : string) (raws : list (list Z)) (s : Server)
    : result rpc_error (string * list (list Z)) * Server :=
  match setup_prepare (clk 0%nat) ip password salt secret nonce raws s with
  | (Err e, s1) => (Err e, s1)
  | (Ok e, s1) => setup_claim (fun i => clk (S i)) ip e s1
  end.

(** ** Login *)

Definition login_failed (clk : Z) (ip : string) (now : Z) (detail : string) (s : Server) : Server :=
  event clk "login" ip false detail (count_failure ip now s).

Definition Login (clk : nat -> Z) (now : Z) (c : caller) (rawToken salt : string) (draw : option string)
    (password code : string) (s : Server) : result rpc_error (ProtoSession * credential) * Server :=
  let ip := clientIP c in
  if throttled ip now s then (Err AuthFailed, event (clk 0%nat) "login" ip false "backoff active" s) else
  let adm := GetAdmin (db s) in
  let '(hash, rowPepperVersion) :=
    match adm with Ok a => (a_password_hash a, a_pepper_version a) | Err _ => (dummyHash cfg, 0) end in
  match verifyPassword password hash rowPepperVersion with
  | Err _ => (Err AuthFailed, login_failed (clk 0%nat) ip now "credential check failed" s)
  | Ok (pwOK, needsRehash) =>
    if negb (is_ok adm) || negb pwOK
    then (Err AuthFailed, login_failed (clk 0%nat) ip now "credential check failed" s)
    else
    match verifyTOTPCode (clk 0%nat) code now s with
    | (Err _, s1) => (Err Internal, s1)
    | (Ok false, s1) => (Err AuthFailed, login_failed (clk 1%nat) ip now "totp check failed" s1)
    | (Ok true, s1) =>
      let needsRepepper := pepperKeyConfigured && negb (rowPepperVersion =? pepperVersion cfg) in
      let s2 := if needsRehash || needsRepepper then
                  match rehashAdminPassword (clk 1%nat) password salt (db s1) with
                  | Ok d => set_db d s1
                  | Err e => event (clk 2%nat) "login" ip true ("rehash failed: " ++ e) s1
                  end
                else s1 in
      match mintSession (HashToken cfg) ip (userAgent c) now (now + SessionAbsoluteLifetime) rawToken (db s2) with
      | Err _ => (Err Internal, s2)
      | Ok (id, d3) =>
        let s3 := event (clk 3%nat) "login" ip true "" (set_backoff (recordSuccess ip (backoff s2)) (set_db d3 s2)) in
        let '(cred, s4) := issueSessionCredential (onBridge c) now rawToken draw s3 in
        let sess := MkSess (HashToken cfg rawToken) now now (now + SessionAbsoluteLifetime) ip (userAgent c) zero_time in
        (Ok (toProtoSession id sess true, cred), s4)
      end
    end
  end.

(** ** Password reset *)

(** [NewResetToken] reads the clock itself: [clk 0]. *)
Definition IssuePasswordResetToken (clk : nat -> Z) (raw : string) (s : Server) : result store_error string * Server :=
  match CreatePasswordResetToken (hashResetToken cfg raw) (clk 0%nat + resetTokenTTL) (db s) with
  | Err e => (Err e, s)
  | Ok d => (Ok raw, event (clk 1%nat) "password_reset_issued" "" true "" (set_db d s))
  end.

Definition VerifyResetToken (raw hash : string) : bool := String.eqb (hashResetToken cfg raw) hash.

Definition CompletePasswordReset (clk : Z) (now : Z) (rawToken newPassword salt : string) (s : Server)
    : result rpc_error unit * Server :=
  if is_empty rawToken then (Err AuthFailed, s) else
  let matched := default "" (List.find (VerifyResetToken rawToken) (ActiveResetTokenHashes now (db s))) in
  if is_empty matched then (Err AuthFailed, event clk "password_reset" "" false "token not recognized" s) else
  match IsWeak (prim cfg) newPassword with
  | Some w => (Err (InvalidArgument (weakness_text w)), s)
  | None =>
    match hashPassword newPassword salt with
    | Err _ => (Err Internal, s)
    | Ok (newHash, version) =>
      match StoreAuth.CompletePasswordReset matched now newHash (kdfParamsString DefaultParams) version (db s) with
      | Err ResetTokenInvalid => (Err AuthFailed, event clk "password_reset" "" false "token already used or expired" s)
      | Err _ => (Err Internal, s)
      | Ok d => (Ok tt, event clk "password_reset" "" true "" (set_db d s))
      end
    end
  end.

(** ** Sessions *)

Definition whoami (cs : callerSession) (s : Server) : result rpc_error (ProtoSession * nat) :=
  match GetSessionByTokenHash (cs_TokenHash cs) (db s) with
  | Err _ => Err Unauthenticated
  | Ok sess => Ok (toProtoSession (cs_ID cs) sess true, CountUnusedRecoveryCodes (db s))
  end.

Definition ListSessions (cs : callerSession) (s : Server) : list ProtoSession :=
  (fun r => toProtoSession (se_id r) (scanSession r).2 (String.eqb (se_token_hash r) (cs_TokenHash cs)))
  <$> order_desc (fun r => formatTime (se_created_at r)) (sessions (db s)).

Definition RevokeSession (clk : Z) (sessionId : string) (s : Server) : result rpc_error unit * Server :=
  match Atoi sessionId with
  | None => (Err (InvalidArgument "invalid session_id"), s)
  | Some id =>
    match StoreAuth.RevokeSession clk id (db s) with
    | Err NotFound => (Err SessionNotFound, s)
    | Err _ => (Err Internal, s)
    | Ok d => (Ok tt, set_db d s)
    end
  end.

Definition RevokeAllSessions (clk : Z) (s : Server) : nat * Server :=
  (affected active (sessions (db s)), set_db (StoreAuth.RevokeAllSessions clk (db s)) s).

Definition other_active (keep : string) (r : SessionRow) : bool :=
  negb (String.eqb (se_token_hash r) keep) && active r.

Fixpoint revoke_each (clk : nat -> Z) (ids_ : list Z) (d : AuthDB) : result store_error AuthDB :=
  match ids_ with
  | [] => Ok d
  | id :: rest =>
      match StoreAuth.RevokeSession (clk 0%nat) id d with
      | Ok d' => revoke_each (fun i => clk (S i)) rest d'
      | Err NotFound => revoke_each (fun i => clk (S i)) rest d
      | Err e => Err e
      end
  end.

Definition revokeOtherSessions (clk : nat -> Z) (keep : string) (d : AuthDB) : result store_error (nat * AuthDB) :=
  let ids_ := se_id <$> filter (fun r => other_active keep r = true) (sessions d) in
  let? d' := revoke_each clk ids_ d in Ok (List.length ids_, d').

(** ** Changing the credentials *)

(** The re-proof of a session that is not elevated, with the audit event of a
    refusal. *)
Definition reprove (clk : nat -> Z) (kind ip password code : string) (now : Z) (s : Server)
    : result rpc_error unit * Server :=
  match verifyCurrentCredentials (clk 0%nat) ip password code now s with
  | (Ok _, s1) => (Ok tt, s1)
  | (Err CredentialCheckFailed, s1) => (Err AuthFailed, event (clk 1%nat) kind ip false "current credential check failed" s1)
  | (Err CredentialCheckBroken, s1) => (Err Internal, s1)
  end.

Definition ChangePassword (clk : nat -> Z) (now : Z) (c : caller) (cs : callerSession)
    (currentPassword code newPassword salt : string) (s : Server) : result rpc_error unit * Server :=
  let ip := clientIP c in
  let proved := if cs_Elevated cs then (Ok tt, s) else reprove clk "change_password" ip currentPassword code now s in
  match proved with
  | (Err e, s1) => (Err e, s1)
  | (Ok _, s1) =>
    match IsWeak (prim cfg) newPassword with
    | Some w => (Err (InvalidArgument (weakness_text w)), s1)
    | None =>
      match hashPassword newPassword salt with
      | Err _ => (Err Internal, s1)
      | Ok (newHash, version) =>
        match UpdatePasswordAndPepper (clk 2%nat) newHash (kdfParamsString DefaultParams) version (db s1) with
        | Err _ => (Err Internal, s1)
        | Ok d2 =>
          match revokeOtherSessions (fun i => clk (5 + i)%nat) (cs_TokenHash cs) d2 with
          | Err _ => (Err Internal, set_db d2 s1)
          | Ok (_, d3) =>
            let s3 := set_db d3 s1 in
            let s4 := if cs_Elevated cs then endElevatedSession (clk 3%nat) cs s3 else s3 in
            (Ok tt, event (clk 4%nat) "change_password" ip true "" s4)
          end
        end
      end
    end
  end.

Definition ReenrollTOTP (clk : nat -> Z) (c : caller) (cs : callerSession)
    (currentPassword secret nonce : string) (s : Server) : result rpc_error string * Server :=
  let ip := clientIP c in
  let proved :=
    if cs_Elevated cs then Ok true
    else match GetAdmin (db s) with
         | Err _ => Err Internal
         | Ok a => match verifyPassword currentPassword (a_password_hash a) (a_pepper_version a) with
                   | Ok (true, _) => Ok true
                   | _ => Ok false
                   end
         end in
  match proved with
  | Err e => (Err e, s)
  | Ok false => (Err AuthFailed, event (clk 0%nat) "reenroll_totp" ip false "current password check failed" s)
  | Ok true =>
    match SetTOTPSecret (Some (EncryptSecret secret (secretKey cfg) nonce)) (db s) with
    | Err _ => (Err Internal, s)
    | Ok d1 =>
      let ended :=
        if cs_Elevated cs then
          match revokeOtherSessions (fun i => clk (5 + i)%nat) (cs_TokenHash cs) d1 with
          | Err _ => Err (set_db d1 s)
          | Ok (_, d2) => Ok (endElevatedSession (clk 1%nat) cs (set_db d2 s))
          end
        else Ok (set_db d1 s) in
      match ended with
      | Err s2 => (Err Internal, s2)
      | Ok s2 => (Ok (otpauth cfg secret), event (clk 2%nat) "reenroll_totp" ip true "" s2)
      end
    end
  end.

Definition RegenerateRecoveryCodes (clk : nat -> Z) (now : Z) (c : caller) (currentPassword code : string)
    (raws : list (list Z)) (s : Server) : result rpc_error (list (list Z)) * Server :=
  let ip := clientIP c in
  match reprove clk "regenerate_recovery_codes" ip currentPassword code now s with
  | (Err e, s1) => (Err e, s1)
  | (Ok _, s1) =>
    let '(plain, hashes) := GenerateCodes raws in
    match StoreRecoveryCodes hashes (db s1) with
    | Err _ => (Err Internal, s1)
    | Ok d2 => (Ok plain, event (clk 2%nat) "regenerate_recovery_codes" ip true "" (set_db d2 s1))
    end
  end.
End service.

(** ** What the two factors come to *)

Section factors.
Context (cfg : config).

(** The step a code belongs to under the stored secret. *)
Definition totp_step (code : string) (now : Z) (d : AuthDB) : option Z :=
  a ← admin d; enc ← a_totp_secret_enc a;
  if is_empty enc then None else secret ← DecryptSecret cfg enc (secretKey cfg); ValidateCode (hotp cfg) secret code now.

Lemma verifyTOTPCode_step clk code now s :
  verifyTOTPCode cfg clk code now s =
  match totp_step code now (db s) with
  | None => (Ok false, s)
  | Some step =>
      if bool_decide (step ∈ ids (steps (db s))) then (Ok (devInsecureAuth s), s)
      else (Ok true, set_db (set_steps (steps (db s) ++ [MkStep step (sha256Hex cfg code) clk])%list (db s)) s)
  end.
Proof.
  unfold verifyTOTPCode, totp_step, GetTOTPSecret, MarkTOTPStepUsed. destruct (admin (db s)) as [a|]; [|done].
  cbn [mbind option_bind]. destruct (a_totp_secret_enc a) as [enc|]; [|done]. cbn [mbind option_bind].
  destruct (is_empty enc); [done|]. destruct (DecryptSecret _ _ _) as [secret|]; [|done]. cbn [mbind option_bind].
  destruct (ValidateCode _ _ _ _) as [step|]; [|done]. by case_bool_decide.
Qed.

Definition password_ok (password : string) (d : AuthDB) : Prop :=
  exists a rehash, admin d = Some a /\ verifyPassword cfg password (a_password_hash a) (a_pepper_version a) = Ok (true, rehash).

(** On a development server a step may be used again. *)
Definition code_ok (code : string) (now : Z) (s : Server) : Prop :=
  exists step, totp_step code now (db s) = Some step /\ (step ∉ ids (steps (db s)) \/ devInsecureAuth s = true).

Lemma verifyTOTPCode_ok clk code now s :
  ((verifyTOTPCode cfg clk code now s).1 = Ok true /\ code_ok code now s)
  \/ (verifyTOTPCode cfg clk code now s = (Ok false, s) /\ ~ code_ok code now s).
Proof.
  rewrite verifyTOTPCode_step. unfold code_ok. destruct (totp_step code now (db s)) as [step|]; [|right; naive_solver].
  case_bool_decide; cbn; [|left; naive_solver]. destruct (devInsecureAuth s) eqn:E; [left; naive_solver|right].
  split; [done|]. intros (x & [= <-] & [?|?]); done.
Qed.

(** What checking a code leaves alone. *)
Lemma verifyTOTPCode_frame clk code now s :
  let s1 := (verifyTOTPCode cfg clk code now s).2 in
  sessions (db s1) = sessions (db s) /\ admin (db s1) = admin (db s) /\ codes (db s1) = codes (db s)
  /\ tokens (db s1) = tokens (db s) /\ events (db s1) = events (db s) /\ elevated s1 = elevated s
  /\ backoff s1 = backoff s /\ tickets s1 = tickets s /\ devInsecureAuth s1 = devInsecureAuth s.
Proof. rewrite verifyTOTPCode_step. destruct (totp_step _ _ _); [case_bool_decide|]; by split_and!. Qed.
End factors.

Section login.
Context (cfg : config).

(** What a refused login leaves behind. *)
Record refused (ip : string) (s s' : Server) (b : gmap string backoffState) : Prop := {
  rf_sessions : sessions (db s') = sessions (db s);
  rf_admin : admin (db s') = admin (db s);
  rf_steps : steps (db s') = steps (db s);
  rf_codes : codes (db s') = codes (db s);
  rf_backoff : backoff s' = b;
  rf_event : exists e, events (db s') = (events (db s) ++ [e])%list /\ ev_ok e = false /\ ev_ip e = nullString ip }.

Lemma login_failed_refused clk ip now detail s :
  refused ip s (login_failed clk ip now detail s) (recordFailure ip now (backoff s)).
Proof. split; try done. cbn. eauto. Qed.

Definition full_session (id : Z) (hash ip ua : string) (now : Z) : SessionRow :=
  MkSession id hash now now (now + 12 * hour) (nullString ip) (nullString ua) None "full".

Lemma mint_full ip ua now raw d :
  HashToken cfg raw ∉ se_token_hash <$> sessions d ->
  mintSession (HashToken cfg) ip ua now (now + SessionAbsoluteLifetime) raw d
  = Ok (next_id (sessions d),
        set_sessions (sessions d ++ [full_session (next_id (sessions d)) (HashToken cfg raw) ip ua now])%list d).
Proof. intros Hf. unfold mintSession, CreateSession. cbn [TokenHash RevokedAt]. by rewrite bool_decide_eq_false_2. Qed.

Lemma issue_frame bridged now raw draw s :
  let '(cred, s1) := issueSessionCredential cfg bridged now raw draw s in
  db s1 = db s /\ backoff s1 = backoff s /\ elevated s1 = elevated s
  /\ match cred with TokenHeader t => bridged = false /\ t = raw | _ => bridged = true end.
Proof.
  unfold issueSessionCredential. destruct bridged; [|done]. cbn [negb]. destruct draw as [t|]; [|done].
  by destruct (Issue _ _ _ _ _) as [[[ticket ?] m]|].
Qed.

(** The transparent migration changes the admin row and the events at most. *)
Lemma migrate_frame (b : bool) clk clk' ip password salt s :
  let s2 := if b then match rehashAdminPassword cfg clk password salt (db s) with
                      | Ok d => set_db d s
                      | Err e => event clk' "login" ip true ("rehash failed: " ++ e) s
                      end
            else s in
  sessions (db s2) = sessions (db s) /\ steps (db s2) = steps (db s) /\ backoff s2 = backoff s.
Proof.
  destruct b; [|done]. unfold rehashAdminPassword. destruct (hashPassword _ _ _) as [[h v]|]; [|done].
  unfold UpdatePasswordAndPepper, update_admin. by destruct (admin (db s)).
Qed.

(** The body of a login whose factors are right. *)
Lemma login_granted clk now c raw salt draw password code s :
  HashToken cfg raw ∉ se_token_hash <$> sessions (db s) ->
  throttled (clientIP c) now s = false -> password_ok cfg password (db s) -> code_ok cfg code now s ->
  let r := Login cfg clk now c raw salt draw password code s in
  exists p cred step, r.1 = Ok (p, cred)
    /\ sessions (db r.2)
       = (sessions (db s) ++ [full_session (next_id (sessions (db s))) (HashToken cfg raw) (clientIP c) (userAgent c) now])%list
    /\ totp_step cfg code now (db s) = Some step /\ step ∈ ids (steps (db r.2))
    /\ backoff r.2 = delete (clientIP c) (backoff s)
    /\ match cred with TokenHeader t => onBridge c = false /\ t = raw | _ => onBridge c = true end.
Proof.
  intros Hf Hthr (a & rh & Ea & Ev) Hc. cbn zeta. unfold Login. set (ip := clientIP c) in *.
  unfold GetAdmin. rewrite Hthr, Ea. cbn [is_ok negb orb]. rewrite Ev. cbn [negb].
  pose proof (verifyTOTPCode_frame cfg (clk 0%nat) code now s) as Hframe.
  destruct (verifyTOTPCode_ok cfg (clk 0%nat) code now s) as [[Hok _]|[_ Hno]]; [|done].
  destruct (verifyTOTPCode cfg (clk 0%nat) code now s) as [o s1] eqn:Et.
  cbn [fst snd] in *. subst o. destruct Hframe as (Hs & Ha & _ & _ & _ & _ & Hb & _).
  set (b := rh || _). pose proof (migrate_frame b (clk 1%nat) (clk 2%nat) ip password salt s1) as Hm. cbn zeta in Hm.
  set (s2 := if b then _ else s1) in *. destruct Hm as (Hs2 & Hst2 & Hb2). rewrite Hs in Hs2. rewrite Hb in Hb2.
  rewrite mint_full by (by rewrite Hs2). cbv beta iota zeta.
  match goal with |- context [issueSessionCredential _ _ _ _ _ ?x] => set (s3 := x) end.
  pose proof (issue_frame (onBridge c) now raw draw s3) as Hi.
  destruct (issueSessionCredential cfg (onBridge c) now raw draw s3) as [cred s4]. destruct Hi as (Hdb & Hbk & _ & Hcred).
  destruct Hc as (step & Hstep & Hfresh). exists (toProtoSession (next_id (sessions (db s2)))
    (MkSess (HashToken cfg raw) now now (now + SessionAbsoluteLifetime) ip (userAgent c) zero_time) true), cred, step.
  cbn [fst snd]. rewrite Hdb, Hbk. split_and!; [done|cbn; by rewrite Hs2|done| |cbn; by rewrite Hb2|done].
  change (step ∈ ids (steps (db s2))). rewrite Hst2.
  rewrite verifyTOTPCode_step, Hstep in Et. case_bool_decide as Hin; [by injection Et as _ <-|].
  injection Et as <-. cbn [db set_db steps set_steps]. rewrite ids_app. set_solver.
Qed.

Lemma login_refused clk now c raw salt draw password code s :
  let ip := clientIP c in
  let r := Login cfg clk now c raw salt draw password code s in
  ~ (throttled ip now s = false /\ password_ok cfg password (db s) /\ code_ok cfg code now s) ->
  r.1 = Err AuthFailed
  /\ refused ip s r.2 (if throttled ip now s then backoff s else recordFailure ip now (backoff s)).
Proof.
  intros ip r Hn. unfold r, Login. fold ip. clear r.
  destruct (throttled ip now s); [split; [done|]; split; cbn; eauto|].
  unfold GetAdmin. unfold password_ok in Hn. destruct (admin (db s)) as [a|] eqn:Ea; cbn [is_ok negb orb].
  2:{ destruct (verifyPassword _ _ _ _) as [[ok rh]|]; (split; [done|apply login_failed_refused]). }
  destruct (verifyPassword cfg password _ _) as [[[] rh]|e] eqn:Ev; [|split; [done|apply login_failed_refused]..].
  cbn [negb]. destruct (verifyTOTPCode_ok cfg (clk 0%nat) code now s) as [[_ Hc]|[-> _]]; [|split; [done|apply login_failed_refused]].
  destruct Hn. split_and!; eauto.
Qed.

End login.

(** ** Guessing *)

Section guessing.
Context (cfg : config).

Record attempt := MkAttempt {
  at_clk : nat -> Z; at_now : Z; at_caller : caller; at_raw : string; at_salt : string; at_draw : option string;
  at_password : string; at_code : string }.

Definition try_login (a : attempt) (s : Server) : result rpc_error (ProtoSession * credential) * Server :=
  Login cfg (at_clk a) (at_now a) (at_caller a) (at_raw a) (at_salt a) (at_draw a) (at_password a) (at_code a) s.

(** The attempts of [ip] whose password is looked at. *)
Fixpoint guesses (ip : string) (l : list attempt) (s : Server) : nat :=
  match l with
  | [] => 0
  | a :: rest =>
      ((if bool_decide (clientIP (at_caller a) = ip) && negb (throttled ip (at_now a) s) then 1 else 0)
       + guesses ip rest (try_login a s).2)%nat
  end.

(** Every attempt of [ip] is refused. *)
Fixpoint all_refused (ip : string) (l : list attempt) (s : Server) : Prop :=
  match l with
  | [] => True
  | a :: rest => (clientIP (at_caller a) = ip -> (try_login a s).1 = Err AuthFailed) /\ all_refused ip rest (try_login a s).2
  end.

Lemma issue_dev bridged now raw draw s :
  devInsecureAuth (issueSessionCredential cfg bridged now raw draw s).2 = devInsecureAuth s.
Proof. unfold issueSessionCredential. repeat case_match; done. Qed.

Lemma try_login_backoff a s :
  let ip := clientIP (at_caller a) in
  let r := try_login a s in
  devInsecureAuth r.2 = devInsecureAuth s
  /\ (r.1 = Err AuthFailed ->
      backoff r.2 = if throttled ip (at_now a) s then backoff s else recordFailure ip (at_now a) (backoff s))
  /\ (backoff r.2 = backoff s \/ backoff r.2 = recordFailure ip (at_now a) (backoff s) \/ backoff r.2 = recordSuccess ip (backoff s)).
Proof.
  cbn zeta. unfold try_login, Login. set (ip := clientIP (at_caller a)). set (now := at_now a).
  destruct (throttled ip now s); [cbn; auto|]. unfold GetAdmin. destruct (admin (db s)) as [adm|]; cbn [is_ok negb orb].
  2:{ destruct (verifyPassword _ _ _ _) as [[ok rh]|]; cbn; auto. }
  destruct (verifyPassword cfg _ _ _) as [[[] rh]|e]; cbn [negb]; [|cbn; auto..].
  pose proof (verifyTOTPCode_frame cfg (at_clk a 0%nat) (at_code a) now s) as Hframe.
  destruct (verifyTOTPCode _ _ _ _ _) as [[[]|] s1]; cbn [snd] in Hframe;
    destruct Hframe as (_ & _ & _ & _ & _ & _ & Hb & _ & Hd); [|cbn; rewrite Hb; auto|cbn; rewrite Hb; split_and!; [done..|by left]].
  match goal with |- context [if ?b then ?x else s1] => set (s2 := if b then x else s1) end.
  assert (H2 : devInsecureAuth s2 = devInsecureAuth s /\ backoff s2 = backoff s).
  { rewrite <- Hb, <- Hd. unfold s2. destruct (_ || _); [|done]. by destruct (rehashAdminPassword _ _ _ _ _). }
  destruct H2 as [Hd2 Hb2]. destruct (mintSession _ _ _ _ _ _ _) as [[id d3]|]; [|cbn; rewrite Hb2; split_and!; [done..|by left]].
  set (s3 := event _ _ _ _ _ _). pose proof (issue_frame cfg (onBridge (at_caller a)) now (at_raw a) (at_draw a) s3) as Hi.
  pose proof (issue_dev (onBridge (at_caller a)) now (at_raw a) (at_draw a) s3) as Hi2.
  destruct (issueSessionCredential _ _ _ _ _ _) as [cred s4]. destruct Hi as (_ & Hbk & _). cbn [fst snd] in *.
  rewrite Hbk, Hi2. cbn. rewrite Hb2, Hd2. split_and!; [done..|by right; right].
Qed.

(** The waits the failures from the [n]th on cost, [m] of them. *)
Fixpoint waits (n : Z) (m : nat) : Z := match m with O => 0 | S m' => backoffDelay n + waits (n + 1) m' end.

Lemma backoffDelay_bounds n : 0 <= backoffDelay n.
Proof. unfold backoffDelay, second. repeat split_if; try lia. all: apply Z.mul_nonneg_nonneg; [lia|apply Z.pow_nonneg; lia]. Qed.

Lemma backoffDelay_mono n : 0 <= n -> backoffDelay n <= backoffDelay (n + 1).
Proof.
  intros Hn. rewrite !backoffDelay_formula by lia. destruct (Z.leb_spec n 2), (Z.leb_spec (n + 1) 2); try lia.
  - apply Z.mul_nonneg_nonneg; [done|]. apply Z.min_glb; [lia|apply Z.pow_nonneg; lia].
  - apply Z.mul_le_mono_nonneg_l; [done|]. apply Z.min_le_compat_l, Z.pow_le_mono_r; lia.
Qed.

Lemma waits_mono n m : 1 <= n -> waits 1 m <= waits n m.
Proof.
  intros Hn. assert (H : forall m a b, 0 <= a <= b -> waits a m <= waits b m).
  { clear. induction m as [|m IH]; intros a b Hab; [done|]. cbn [waits]. apply Z.add_le_mono; [|apply IH; lia].
    replace b with (a + (b - a)) by lia. pattern (b - a). apply natlike_ind; [by rewrite Z.add_0_r| |lia].
    intros x Hx Hle. etrans; [exact Hle|]. unfold Z.succ. rewrite Z.add_assoc. apply backoffDelay_mono. lia. }
  apply H. lia.
Qed.

Lemma waits_grow n m m' : (m <= m')%nat -> waits n m <= waits n m'.
Proof.
  intros Hle. revert n m' Hle. induction m as [|m IH]; intros n m' Hle.
  - clear Hle. revert n. induction m' as [|m' IH]; intros n; [done|]. cbn [waits]. pose proof (backoffDelay_bounds n).
    specialize (IH (n + 1)). cbn in *. lia.
  - destruct m' as [|m']; [lia|]. cbn [waits]. specialize (IH (n + 1) m' ltac:(lia)). lia.
Qed.

(** An entry keeps its place while others fail and succeed. *)
Lemma others_login_keep a s ip st :
  clientIP (at_caller a) <> ip -> backoff s !! ip = Some st -> at_now a <= bo_until st + backoffRetention ->
  backoff (try_login a s).2 !! ip = Some st.
Proof.
  intros Hne Hs Hn. destruct (try_login_backoff a s) as (_ & _ & [->|[->| ->]]); [done| |].
  - unfold recordFailure. rewrite lookup_insert_ne by done. by apply sweep_keeps.
  - unfold recordSuccess. by rewrite lookup_delete_ne.
Qed.

(** From a counted failure on, the guesses left before [hi] pay their waits. *)
Lemma guesses_wait ip hi l s n u :
  devInsecureAuth s = false -> backoff s !! ip = Some (MkBackoff n u) -> hi <= u + backoffRetention ->
  Forall (fun a => at_now a <= hi) l -> all_refused ip l s ->
  guesses ip l s = 0%nat \/ u + waits (n + 1) (guesses ip l s - 1) <= hi.
Proof.
  intros Hdev Hb Hhi Hl. revert s n u Hdev Hb Hhi.
  induction Hl as [|a l Ha Hl IH]; intros s n u Hdev Hb Hhi Hr; [by left|]. destruct Hr as [Hr1 Hr2]. cbn [guesses].
  destruct (try_login_backoff a s) as (Hd & Hfail & _). rewrite Hdev in Hd.
  case_bool_decide as Hip; cbn [andb].
  - specialize (Hfail (Hr1 Hip)). rewrite Hip in Hfail. destruct (throttled ip (at_now a) s) eqn:Et; cbn [negb].
    + cbn [Nat.add]. eapply IH; [done|by rewrite Hfail|done|done].
    + right. unfold throttled, blocked in Et. rewrite Hdev, Hb in Et. cbn in Et. apply Z.ltb_ge in Et.
      pose proof (backoffDelay_bounds (n + 1)) as Hd0.
      assert (Hb' : backoff (try_login a s).2 !! ip = Some (MkBackoff (n + 1) (at_now a + backoffDelay (n + 1)))).
      { rewrite Hfail. unfold recordFailure.
        rewrite (sweep_keeps _ _ _ (MkBackoff n u)); [by rewrite lookup_insert_eq|done|cbn; lia]. }
      destruct (IH _ (n + 1) (at_now a + backoffDelay (n + 1)) Hd Hb' ltac:(lia) Hr2) as [->|Hw]; [cbn; lia|].
      destruct (guesses ip l (try_login a s).2) as [|g]; [cbn; lia|].
      replace (1 + S g - 1)%nat with (S g) by lia. replace (S g - 1)%nat with g in Hw by lia. cbn [waits]. lia.
  - cbn [Nat.add]. eapply IH; [done| |done|done]. apply others_login_keep; [done|done|cbn; lia].
Qed.

(** Before the first of them nothing raises a negative count. *)
Definition counted (ip : string) (t : gmap string backoffState) : Prop :=
  forall st, t !! ip = Some st -> 0 <= bo_failures st.

Lemma counted_sweep ip now t : counted ip t -> counted ip (sweepLocked now t).
Proof. intros Hc st [Hst _]%map_lookup_filter_Some. by apply Hc. Qed.

Lemma counted_login ip a s : counted ip (backoff s) -> counted ip (backoff (try_login a s).2).
Proof.
  intros Hc. destruct (try_login_backoff a s) as (_ & _ & [->|[->| ->]]); [done| |].
  - unfold recordFailure. intros st. destruct (decide (clientIP (at_caller a) = ip)) as [->|Hne].
    + rewrite lookup_insert_eq. intros [= <-]. cbn. pose proof (counted_sweep ip (at_now a) _ Hc) as Hs.
      destruct (sweepLocked _ _ !! ip) as [x|] eqn:E; [specialize (Hs x E); lia|lia].
    + rewrite lookup_insert_ne by done. by apply counted_sweep.
  - intros st. unfold recordSuccess. rewrite lookup_delete_Some. intros [_ ?]. by apply Hc.
Qed.

End guessing.

(** ** Revoking the other sessions *)

Lemma auth_ok_same d d' :
  codes d' = codes d -> sessions d' = sessions d -> tokens d' = tokens d -> auth_ok d -> auth_ok d'.
Proof. intros Hc Hs Ht [] . by split; rewrite ?Hc, ?Hs, ?Ht. Qed.

Definition after_revoking (ids_ : list Z) (r r' : SessionRow) : Prop :=
  session_evolves r r' /\ (se_id r ∈ ids_ -> se_revoked_at r' <> None) /\ (se_id r ∉ ids_ -> r' = r).

Lemma session_evolves_trans a b c : session_evolves a b -> session_evolves b c -> session_evolves a c.
Proof.
  intros (H1 & H2 & H3 & H4) (G1 & G2 & G3 & G4). split_and!; [congruence..|]. intros Hr.
  specialize (H4 Hr). rewrite G4; congruence.
Qed.

Lemma update_where_none {R} p f (t : list R) : affected p t = 0%nat -> update_where p f t = t.
Proof.
  rewrite affected_0. unfold update_where. intros H. trans (id <$> t); [|apply list_fmap_id]. apply list_fmap_ext.
  intros i r Hr. by rewrite H by (by eapply list_elem_of_lookup_2).
Qed.

Lemma Forall2_impl_elem {A B} (P Q : A -> B -> Prop) l k :
  Forall2 P l k -> (forall x y, x ∈ l -> y ∈ k -> P x y -> Q x y) -> Forall2 Q l k.
Proof.
  induction 1 as [|x y l k Hxy _ IH]; intros H; constructor; [apply H; set_solver|]. apply IH. intros; apply H; set_solver.
Qed.

(** The loop never fails. *)
Lemma revoke_each_ok clk ids_ d :
  auth_ok d ->
  exists x, revoke_each clk ids_ d = Ok (set_sessions x d) /\ auth_ok (set_sessions x d)
    /\ Forall2 (after_revoking ids_) (sessions d) x.
Proof.
  revert clk d. induction ids_ as [|id ids_ IH]; intros clk d Hd; cbn [revoke_each].
  { exists (sessions d). assert (E : set_sessions (sessions d) d = d) by (by destruct d). rewrite E. split_and!; [done..|].
    apply Forall2_same_length_lookup_2; [done|]. intros i r r' Hr Hr'. simplify_eq. split_and!; [done|set_solver|done]. }
  set (d1 := set_sessions (update_where (is_session id) (revoke (clk 0%nat)) (sessions d)) d).
  assert (Hd1 : auth_ok d1) by (apply auth_ok_sessions; [done|apply revoke_evolves]).
  destruct (IH (fun i => clk (S i)) d1 Hd1) as (x & Hx & Hok & HF). exists x. split_and!; [|done|].
  - unfold StoreAuth.RevokeSession, update_session. destruct (affected (is_session id) (sessions d) =? 0)%nat eqn:E; [|exact Hx].
    apply Nat.eqb_eq in E. assert (Ed : d1 = d); [|by rewrite <- Ed at 1].
    unfold d1. rewrite update_where_none by done. by destruct d.
  - unfold d1, update_where in HF. cbn [sessions set_sessions] in HF. rewrite Forall2_fmap_l in HF.
    eapply Forall2_impl; [exact HF|]. intros r r' (Hev & Hin & Hout). unfold is_session in *.
    destruct (Z.eqb_spec (se_id r) id) as [<-|Hne].
    + split_and!; [by eapply session_evolves_trans; [apply revoke_evolves|]| |set_solver]. intros _.
      destruct Hev as (_ & _ & _ & Hr). by rewrite Hr.
    + split_and!; [done|set_solver|]. intros Hn. apply Hout. set_solver.
Qed.

Lemma revokeOther_spec clk keep d :
  auth_ok d ->
  exists n x, revokeOtherSessions clk keep d = Ok (n, set_sessions x d) /\ auth_ok (set_sessions x d)
    /\ Forall2 (fun r r' => session_evolves r r' /\ (if bool_decide (se_token_hash r = keep) then r' = r else se_revoked_at r' <> None))
         (sessions d) x.
Proof.
  intros Hd. unfold revokeOtherSessions. set (ids_ := se_id <$> _).
  destruct (revoke_each_ok clk ids_ d Hd) as (x & -> & Hok & HF). exists (List.length ids_), x. split_and!; [done..|].
  assert (Hids : forall r, r ∈ sessions d -> se_id r ∈ ids_ <-> other_active keep r = true).
  { intros r Hr. unfold ids_. rewrite list_elem_of_fmap. split.
    - intros (y & Hy & [Hoa Hyin]%list_elem_of_filter). by replace r with y by (apply (ids_inj (sessions d)); [apply Hd|done..]).
    - intros Hoa. exists r. split; [done|]. by apply list_elem_of_filter. }
  eapply Forall2_impl_elem; [exact HF|]. intros r r' Hr _ (Hev & Hin & Hout). split; [done|].
  specialize (Hids r Hr). unfold other_active in Hids. case_bool_decide as Hk.
  - apply Hout. rewrite Hids, Hk, String.eqb_refl. done.
  - destruct (active r) eqn:Ea.
    + apply Hin, Hids. by rewrite (proj2 (String.eqb_neq _ _) Hk).
    + unfold active in Ea. bools. destruct Hev as (_ & _ & _ & Hr'). by rewrite Hr'.
Qed.

(** ** Changing the password *)

Section changing.
Context (cfg : config).
Context (IDKey_len : forall pw salt t m th n, 0 < n -> len (IDKey (prim cfg) pw salt t m th n) = n).
Context (hmac_len : forall k x, len (hmac_sha256 (prim cfg) k x) = 32).

(** A hash just written verifies under the same configuration, whatever pepper
    it has. *)
Lemma hashPassword_verifies password salt hash version :
  salt <> "" -> hashPassword cfg password salt = Ok (hash, version) ->
  verifyPassword cfg password hash version = Ok (true, false).
Proof.
  intros Hs H. unfold hashPassword, pepperKeyConfigured in H. unfold verifyPassword.
  assert (Hc : in_ceiling DefaultParams) by (split; cbn; lia).
  destruct (_ && _) eqn:E in H; apply rbind_Ok in H as (h & Hh & [= <- <-]);
    apply hashed_verifies in Hh; try done; try (by left); try (by right).
  - bools. rewrite (proj2 (Z.eqb_neq (pepperVersion cfg) 0)), (proj2 (Z.eqb_neq (len (pepperKey cfg)) 0)), Z.eqb_refl by lia.
    cbn [negb orb]. by rewrite Hh.
  - change (0 =? 0) with true. cbv iota beta. by rewrite Hh.
Qed.

Lemma hashPassword_strong password salt :
  IsWeak (prim cfg) password = None <-> exists h v, hashPassword cfg password salt = Ok (h, v).
Proof.
  unfold hashPassword, HashPeppered. destruct pepperKeyConfigured, (IsWeak (prim cfg) password); cbn; naive_solver.
Qed.

Definition reproved (ip password code : string) (now : Z) (s : Server) : Prop :=
  throttled ip now s = false /\ password_ok cfg password (db s) /\ code_ok cfg code now s.

Lemma verifyCurrentCredentials_spec clk ip password code now s :
  let r := verifyCurrentCredentials cfg clk ip password code now s in
  ((r.1 = Ok tt /\ reproved ip password code now s) \/ ((exists e, r.1 = Err e) /\ ~ reproved ip password code now s))
  /\ sessions (db r.2) = sessions (db s) /\ admin (db r.2) = admin (db s) /\ codes (db r.2) = codes (db s)
  /\ tokens (db r.2) = tokens (db s) /\ elevated r.2 = elevated s.
Proof.
  cbn zeta. unfold verifyCurrentCredentials, reproved, password_ok, GetAdmin.
  destruct (throttled ip now s); [split; [right; split; [eauto|by intros [? _]]|done]|].
  destruct (admin (db s)) as [a|] eqn:Ea; [|split; [right; split; [eauto|by intros (_ & (? & ? & ? & _) & _)]|done]].
  destruct (verifyPassword cfg password _ _) as [[[] rh]|e] eqn:Ev.
  2,3: split; [right; split; [eauto|intros (_ & (? & ? & [= <-] & ?) & _); congruence]|done].
  pose proof (verifyTOTPCode_frame cfg clk code now s) as (Hs & Ha & Hc & Ht & _ & He & _).
  destruct (verifyTOTPCode_ok cfg clk code now s) as [[Hok Hcode]|[Hno Hcode]].
  - destruct (verifyTOTPCode cfg clk code now s) as [o s1]. cbn [fst snd] in *. subst o. cbn. rewrite <- Ea.
    split; [left; split_and!; eauto|done].
  - rewrite Hno. cbn. split; [right; split; [eauto|by intros (_ & _ & ?)]|done].
Qed.

Lemma reprove_spec clk kind ip password code now s :
  let r := reprove cfg clk kind ip password code now s in
  ((r.1 = Ok tt /\ reproved ip password code now s) \/ ((exists e, r.1 = Err e) /\ ~ reproved ip password code now s))
  /\ sessions (db r.2) = sessions (db s) /\ admin (db r.2) = admin (db s) /\ codes (db r.2) = codes (db s)
  /\ tokens (db r.2) = tokens (db s) /\ elevated r.2 = elevated s.
Proof.
  pose proof (verifyCurrentCredentials_spec (clk 0%nat) ip password code now s) as H. cbn zeta in *. unfold reprove.
  destruct (verifyCurrentCredentials _ _ _ _ _ _ _) as [[[]|[]] s1]; cbn in *; destruct H as [[[? ?]|[[? ?] ?]] ?]; try done;
    (split; [first [by left|right; eauto]|done]).
Qed.

(** The caller the gate hands on: its session's row has its id. *)
Definition caller_row (cs : callerSession) (d : AuthDB) : Prop :=
  forall r, r ∈ sessions d -> se_token_hash r = cs_TokenHash cs -> se_id r = cs_ID cs.

(** Ending the elevated session revokes the rows of its id. *)
Lemma end_elevated_rows clk cs s :
  let s' := endElevatedSession clk cs s in
  sessions (db s') = update_where (is_session (cs_ID cs)) (revoke clk) (sessions (db s))
  /\ admin (db s') = admin (db s) /\ elevated s' = delete (cs_TokenHash cs) (elevated s).
Proof.
  cbn zeta. unfold endElevatedSession, StoreAuth.RevokeSession, update_session. cbn [db set_elevated].
  destruct (affected _ _ =? 0)%nat eqn:E; cbn; [|done]. apply Nat.eqb_eq in E. by rewrite update_where_none.
Qed.

(** The proof of identity a change of the password starts with. *)
Lemma proved_spec clk c cs current code now s :
  let proved := if cs_Elevated cs then (Ok tt, s) else reprove cfg clk "change_password" (clientIP c) current code now s in
  let may := cs_Elevated cs = true \/ reproved (clientIP c) current code now s in
  ((proved.1 = Ok tt /\ may) \/ ((exists e, proved.1 = Err e) /\ ~ may))
  /\ sessions (db proved.2) = sessions (db s) /\ admin (db proved.2) = admin (db s) /\ codes (db proved.2) = codes (db s)
  /\ tokens (db proved.2) = tokens (db s) /\ elevated proved.2 = elevated s.
Proof.
  cbn zeta. destruct (cs_Elevated cs) eqn:Ee; [split; [left; auto|done]|].
  destruct (reprove_spec clk "change_password" (clientIP c) current code now s) as [[[? ?]|[? ?]] Hf]; (split; [|exact Hf]); [left; auto|].
  right. split; [done|]. by intros [?|?].
Qed.

(** a password change goes through exactly when the caller re-proved the
    password and a fresh code, or came by a recovery code, the new password is
    not weak and there is an account.  Then the new password verifies, and of
    all sessions the caller's own is the only one that can still be alive, and
    not even that one after a recovery.  A change that is refused leaves
    password and sessions as they were. *)
Theorem change_password_exact clk now c cs current code new salt s :
  auth_ok (db s) -> salt <> "" -> caller_row cs (db s) ->
  let r := ChangePassword cfg clk now c cs current code new salt s in
  (r.1 = Ok tt <->
     (cs_Elevated cs = true \/ reproved (clientIP c) current code now s)
     /\ IsWeak (prim cfg) new = None /\ admin (db s) <> None)
  /\ (r.1 = Ok tt -> password_ok cfg new (db r.2)
       /\ (forall x, x ∈ sessions (db r.2) -> se_revoked_at x = None ->
             x ∈ sessions (db s) /\ se_token_hash x = cs_TokenHash cs /\ cs_Elevated cs = false)
       /\ (cs_Elevated cs = true -> elevated r.2 !! cs_TokenHash cs = None))
  /\ (r.1 <> Ok tt -> admin (db r.2) = admin (db s) /\ sessions (db r.2) = sessions (db s)).
Proof.
  intros Hok Hsalt Hrow. cbn zeta. unfold ChangePassword.
  pose proof (proved_spec clk c cs current code now s) as Hp. cbn zeta in Hp.
  set (proved := if cs_Elevated cs then _ else _) in *.
  destruct proved as [o s1]. cbn [fst snd] in Hp. destruct Hp as [Hp (Hs & Ha & Hc & Ht & Hel)].
  destruct Hp as [[-> Hp]|[[e ->] Hp]]; [|cbn; split_and!; [split; [done|by intros [? _]]|done|done]].
  destruct (IsWeak (prim cfg) new) as [w|] eqn:Ew; [cbn; split_and!; [split; [done|by intros (_ & ? & _)]|done|done]|].
  destruct (proj1 (hashPassword_strong new salt) Ew) as (h & v & Hh). rewrite Hh.
  unfold UpdatePasswordAndPepper, update_admin. rewrite Ha. destruct (admin (db s)) as [a|] eqn:Ea.
  2:{ cbn. split_and!; [split; [done|by intros (_ & _ & ?)]|done|by rewrite Ha]. }
  set (d2 := set_admin _ _). assert (Hd2 : auth_ok d2) by (by eapply auth_ok_same, Hok).
  destruct (revokeOther_spec (fun i => clk (5 + i)%nat) (cs_TokenHash cs) d2 Hd2) as (n & x & -> & Hokx & HF).
  cbn [fst snd]. split_and!; [split; [auto|done]|intros _|done].
  assert (Hx : forall y, y ∈ x -> se_revoked_at y = None -> y ∈ sessions (db s) /\ se_token_hash y = cs_TokenHash cs).
  { intros y Hy Hn. apply list_elem_of_lookup in Hy as [i Hi]. destruct (Forall2_lookup_r _ _ _ _ _ HF Hi) as (r & Hr & _ & Hk).
    case_bool_decide; [|done]. subst y. split; [|done]. rewrite <- Hs. by eapply list_elem_of_lookup_2. }
  assert (Hnew : forall d, admin d = Some (write_password (clk 2%nat) h (kdfParamsString DefaultParams) v a) -> password_ok cfg new d).
  { intros d Hd. eexists _, false. split; [exact Hd|]. by eapply hashPassword_verifies. }
  destruct (cs_Elevated cs) eqn:Ee; [|cbn; split_and!; [by apply Hnew|intros y Hy Hn; by destruct (Hx y Hy Hn)|done]].
  destruct (end_elevated_rows (clk 3%nat) cs (set_db (set_sessions x d2) s1)) as (Hr1 & Hr2 & Hr3).
  split_and!; cbn [db event set_db RecordAuthEvent set_events admin sessions elevated].
  - apply Hnew. cbn. by rewrite Hr2.
  - rewrite Hr1. cbn [db set_db sessions set_sessions]. intros y (y0 & Hy0 & ->)%elem_of_update Hn. exfalso.
    unfold is_session in Hn. destruct (Z.eqb_spec (se_id y0) (cs_ID cs)) as [|Hid]; [done|].
    destruct (Hx y0 Hy0 Hn) as [Hy1 Hy2]. by apply Hid, Hrow.
  - intros _. rewrite Hr3. apply lookup_delete_eq.
Qed.
End changing.
