(* ===== verification/AuthFlows.v ===== *)
(** * Flows through the authentication service

    What several handlers of internal/rpc/auth.go come to in sequence: a first
    setup and the logins, recoveries and setups after it, a password reset, a
    TOTP re-enrolment; and instances of the theorems of AuthService.v. *)

From S2P Require Import Prelude GoTime GoStrings Timestamps Tables Schema StoreItems StoreAuth Password Access AuthService.
From Stdlib Require Import String Ascii.
Local Open Scope string_scope.
Local Open Scope Z_scope.
Local Open Scope aff_scope.

(** ** The secret at rest *)

Lemma substring_prefix a b : substring 0 (String.length a) (a ++ b) = a.
Proof. induction a as [|x a IH]; sapp; [by destruct b|]. by rewrite IH. Qed.

Lemma substring_whole b : substring 0 (String.length b) b = b.
Proof. induction b as [|x b IH]; [done|]. cbn. by rewrite IH. Qed.

Lemma substring_suffix a b n : n = String.length b -> substring (String.length a) n (a ++ b) = b.
Proof. intros ->. induction a as [|x a IH]; sapp; [apply substring_whole|]. exact IH. Qed.

Section secrets.
Context (cfg : config).
(** Opening what was sealed under the same key and nonce gives the plaintext. *)
Context (open_seal : forall k n x, open_ cfg k n (seal cfg k n x) = Some x).

Lemma decrypt_encrypt secret key nonce :
  String.length nonce = 12%nat -> DecryptSecret cfg (EncryptSecret cfg secret key nonce) key = Some secret.
Proof.
  intros Hn. unfold DecryptSecret, EncryptSecret. unfold len. rewrite str_app_length, Hn.
  rewrite (proj2 (Z.ltb_ge _ _)) by (unfold gcmNonceSize; lia). change (Z.to_nat gcmNonceSize) with 12%nat.
  rewrite <- Hn at 1 2. rewrite substring_prefix, substring_suffix by lia. apply open_seal.
Qed.

Lemma encrypt_nonempty secret key nonce : String.length nonce = 12%nat -> is_empty (EncryptSecret cfg secret key nonce) = false.
Proof.
  intros Hn. unfold is_empty, EncryptSecret. apply bool_decide_eq_false_2. intros E.
  assert (H : String.length (nonce ++ seal cfg (deriveKey cfg key) nonce secret) = 0%nat) by (by rewrite E).
  rewrite str_app_length in H. lia.
Qed.
End secrets.

(** ** Recovery codes as stored *)

Lemma insert_codes_hashes hs t t' :
  insert_codes hs t = Ok t' -> c_hash <$> t' = ((c_hash <$> t) ++ hs)%list /\ (NoDup (c_hash <$> t) -> NoDup (c_hash <$> t')).
Proof.
  revert t. induction hs as [|h hs IH]; intros t; cbn [insert_codes]; [intros [= <-]; by rewrite app_nil_r|].
  case_bool_decide as Hin; [done|]. intros H. destruct (IH _ H) as [E Hnd]. rewrite fmap_app in E, Hnd. cbn in E, Hnd.
  split; [by rewrite E, <- app_assoc|]. intros Ht. apply Hnd, NoDup_app. split_and!; [done|set_solver|apply NoDup_singleton].
Qed.

Lemma stored_codes hs d d' :
  StoreRecoveryCodes hs d = Ok d' -> allRecoveryCodeHashes d' = hs /\ NoDup hs.
Proof.
  unfold StoreRecoveryCodes. intros (t & Ht & [= <-])%rbind_Ok. destruct (insert_codes_hashes _ _ _ Ht) as [E Hnd].
  unfold allRecoveryCodeHashes. cbn in E, Hnd |- *. rewrite E in Hnd |- *. split; [done|]. apply Hnd. constructor.
Qed.

(** An account is not taken away by the store's writes. *)
Lemma history_admin P d d' : auth_history P d d' -> admin d <> None -> admin d' <> None.
Proof.
  intros Hr Ha. eapply (rtc_invariant _ (fun d => admin d <> None)); [|exact Ha|exact Hr]. clear.
  intros a b Ha (l & _ & Hs).
  destruct Hs as [now h k d' H|now h k d' H|now h k p d' H|e d' H|now s h d' H|hs d' H|now i d' H|s id d' H
    |id t d' H|now id d' H|now|id s d' H|now n d' H|h e d' H|h now nh k p d' H|now k ip ok det]; try done.
  - unfold InitAdmin in H. case_match; [done|]. by injection H as <-.
  - unfold UpdatePassword, update_admin in H. case_match; [|done]. by injection H as <-.
  - unfold UpdatePasswordAndPepper, update_admin in H. case_match; [|done]. by injection H as <-.
  - unfold SetTOTPSecret, update_admin in H. case_match; [|done]. by injection H as <-.
  - unfold MarkTOTPStepUsed in H. case_match; [done|]. by injection H as <-.
  - unfold StoreRecoveryCodes in H. by apply rbind_Ok in H as (? & _ & [= <-]).
  - unfold UseRecoveryCode in H. repeat (case_match; try done). by injection H as <-.
  - unfold CreateSession in H. case_match; [done|]. by injection H as _ <-.
  - unfold TouchSession, update_session in H. case_match; [done|]. by injection H as <-.
  - unfold StoreAuth.RevokeSession, update_session in H. case_match; [done|]. by injection H as <-.
  - unfold SetSessionScope, update_session in H. case_match; [done|]. case_match; [done|]. by injection H as <-.
  - by injection H as _ <-.
  - unfold CreatePasswordResetToken in H. case_match; [done|]. by injection H as <-.
  - unfold StoreAuth.CompletePasswordReset in H. case_match; [done|]. injection H as <-. cbn. by destruct (admin a).
Qed.

Section flows.
Context (cfg : config).
Context (IDKey_len : forall pw salt t m th n, 0 < n -> len (IDKey (prim cfg) pw salt t m th n) = n).
Context (hmac_len : forall k x, len (hmac_sha256 (prim cfg) k x) = 32).
Context (open_seal : forall k n x, open_ cfg k n (seal cfg k n x) = Some x).

(** What a setup that succeeds leaves in the database. *)
Lemma setup_state clk ip password salt secret nonce raws s uri plain s1 :
  salt <> "" -> Setup cfg clk ip password salt secret nonce raws s = (Ok (uri, plain), s1) ->
  exists a, admin (db s1) = Some a /\ verifyPassword cfg password (a_password_hash a) (a_pepper_version a) = Ok (true, false)
    /\ a_totp_secret_enc a = Some (EncryptSecret cfg secret (secretKey cfg) nonce)
    /\ plain = generateOneCode <$> raws
    /\ allRecoveryCodeHashes (db s1) = hashRecoveryCode (sha256code cfg) <$> plain
    /\ NoDup (hashRecoveryCode (sha256code cfg) <$> plain)
    /\ sessions (db s1) = sessions (db s) /\ steps (db s1) = steps (db s) /\ backoff s1 = backoff s
    /\ devInsecureAuth s1 = devInsecureAuth s.
Proof.
  intros Hsalt H. unfold Setup, setup_prepare, GetAdmin in H. destruct (admin (db s)) as [a0|] eqn:Ea; [done|].
  destruct (IsWeak (prim cfg) password) eqn:Ew; [done|]. unfold Hash in H. rewrite Ew in H. unfold GenerateCodes in H.
  unfold setup_claim, InitAdmin in H. rewrite Ea in H. cbn [en_hash en_kdf en_secret en_hashes en_codes en_uri] in H.
  unfold SetTOTPSecret, update_admin in H. cbn [admin set_admin] in H.
  destruct (StoreRecoveryCodes _ _) as [d3|] eqn:Es in H; [|done]. injection H as <- <- <-.
  destruct (stored_codes _ _ _ Es) as [Hc Hnd]. unfold StoreRecoveryCodes in Es. apply rbind_Ok in Es as (t & _ & [= <-]).
  eexists. split; [reflexivity|]. cbn [a_password_hash a_pepper_version a_totp_secret_enc]. split_and!; try done.
  assert (Hp : HashPeppered (prim cfg) password DefaultParams "" salt
               = Ok (encode_hash DefaultParams salt (derive_key (prim cfg) DefaultParams (KeyLen DefaultParams) salt (Normalize (prim cfg) password))))
    by (unfold HashPeppered; by rewrite Ew).
  unfold verifyPassword. change (0 =? 0) with true. cbv iota beta.
  apply hashed_verifies in Hp; [cbn [KeyLen DefaultParams] in Hp; by rewrite Hp|done|done|split; cbn; lia|done|done|by left].
Qed.

(** who sets the instance up can come in afterwards: the password of the
    setup and any code of the enrolled secret log in, each recovery code that
    was shown is recognised, typed in either case and with any dashes; and
    whatever the store does later no second setup gets through, not one that
    had passed its first check before this one finished either. *)
Theorem setup_flow clk ip password salt secret nonce raws s uri plain s1 :
  salt <> "" -> String.length nonce = 12%nat ->
  Setup cfg clk ip password salt secret nonce raws s = (Ok (uri, plain), s1) ->
  (forall clk2 now c raw salt2 draw code step,
     HashToken cfg raw ∉ se_token_hash <$> sessions (db s1) -> throttled (clientIP c) now s1 = false ->
     ValidateCode (hotp cfg) secret code now = Some step -> step ∉ ids (steps (db s1)) ->
     is_ok (Login cfg clk2 now c raw salt2 draw password code s1).1 = true)
  /\ (forall i code typed, plain !! i = Some code -> retyped code typed ->
        VerifyCode (sha256code cfg) typed (allRecoveryCodeHashes (db s1)) = Some i)
  /\ (forall P s2, auth_history P (db s1) (db s2) ->
        (forall clk2 ip2 pw2 salt2 sec2 n2 raws2,
           (Setup cfg clk2 ip2 pw2 salt2 sec2 n2 raws2 s2).1 = Err SetupUnavailable)
        /\ (forall clk2 ip2 e, (setup_claim clk2 ip2 e s2).1 = Err SetupUnavailable
              /\ admin (db (setup_claim clk2 ip2 e s2).2) = admin (db s2))).
Proof.
  intros Hsalt Hnonce H. destruct (setup_state _ _ _ _ _ _ _ _ _ _ _ Hsalt H) as (a & Ha & Hv & Henc & -> & Hc & Hnd & _). split_and!.
  - intros clk2 now c raw salt2 draw code step Hraw Hthr Hcode Hstep.
    destruct (login_granted cfg clk2 now c raw salt2 draw password code s1) as (p & cred & ? & -> & _); try done; [by exists a, false|].
    exists step. split; [|by left]. unfold totp_step. rewrite Ha. cbn. rewrite Henc. cbn.
    by rewrite encrypt_nonempty, decrypt_encrypt.
  - intros i code typed Hi Ht. rewrite Hc.
    assert (Hh : (hashRecoveryCode (sha256code cfg) <$> (generateOneCode <$> raws)) !! i = Some (hashRecoveryCode (sha256code cfg) typed)).
    { rewrite list_lookup_fmap, Hi. cbn. f_equal. unfold hashRecoveryCode. by rewrite (retyped_normalize _ _ Ht). }
    pose proof Hh as Hlt%lookup_lt_Some. rewrite <- (take_drop_middle _ _ _ Hh) in Hnd |- *. rewrite VerifyCode_last.
    + f_equal. rewrite length_take. lia.
    + apply NoDup_app in Hnd as (_ & _ & Hnd). by apply NoDup_cons in Hnd as [? _].
  - intros P s2 Hh. assert (Hs2 : admin (db s2) <> None) by (eapply history_admin; [exact Hh|by rewrite Ha]).
    unfold Setup, setup_prepare, setup_claim, GetAdmin, InitAdmin. destruct (admin (db s2)) eqn:E; [|done]. cbn. by rewrite E.
Qed.

(** C33: a reset token is worth one new password: using it logs every session
    out and makes the new password verify, and whatever the store does
    afterwards the same token is refused like an unknown one. *)
Theorem reset_flow clk now raw new salt s s1 :
  auth_ok (db s) -> salt <> "" -> CompletePasswordReset cfg clk now raw new salt s = (Ok tt, s1) ->
  (forall r, r ∈ sessions (db s1) -> se_revoked_at r <> None)
  /\ (admin (db s) <> None -> password_ok cfg new (db s1))
  /\ (forall P s2 clk2 now2 new2 salt2, auth_history P (db s1) (db s2) ->
        (CompletePasswordReset cfg clk2 now2 raw new2 salt2 s2).1 = Err AuthFailed).
Proof.
  intros Hok Hsalt H. unfold CompletePasswordReset in H. destruct (is_empty raw) eqn:Er; [done|].
  destruct (List.find _ _) as [h|] eqn:Ef; [|by vm_compute in H]. change (default "" (Some h)) with h in H. destruct (is_empty h); [done|].
  apply find_some in Ef as [Hin Hh]. unfold VerifyResetToken in Hh. apply String.eqb_eq in Hh. subst h.
  destruct (IsWeak (prim cfg) new) eqn:Ew; [done|]. destruct (hashPassword cfg new salt) as [[nh v]|] eqn:Eh; [|done].
  destruct (StoreAuth.CompletePasswordReset _ _ _ _ _ _) as [d|[]] eqn:Ec in H; try done. injection H as <-.
  assert (Hd : auth_ok d) by (eapply auth_step_ok; [exact Hok|by eapply au_Reset]).
  destruct (reset_ok _ _ _ _ _ _ _ Ec) as (Hr & Ha & Ht). split_and!; [exact Hr|..].
  - intros Hadm. destruct (admin (db s)) as [a|]; [|done]. eexists _, false. split; [exact Ha|]. by eapply hashPassword_verifies.
  - intros P s2 clk2 now2 new2 salt2 Hh. unfold CompletePasswordReset. rewrite Er.
    destruct (List.find _ _) as [h2|] eqn:Ef2; [|done]. exfalso. apply find_some in Ef2 as [Hin2 Hh2].
    unfold VerifyResetToken in Hh2. apply String.eqb_eq in Hh2. subst h2.
    destruct (history_token _ _ _ _ Hh Ht) as (r0 & Hr0 & Hh0 & Hu0).
    apply list_elem_of_In in Hin2. unfold ActiveResetTokenHashes in Hin2.
    apply list_elem_of_fmap in Hin2 as (r & Hhr & [Hl Hrin]%list_elem_of_filter).
    assert (Hok2 : auth_ok (db s2)) by (eapply (auth_history_ok _ (db (event clk "password_reset" "" true "" (set_db d s)))); [|exact Hh];
      eapply auth_step_ok, au_Event; exact Hd).
    assert (r = r0) as -> by (eapply (distinct_inj tk_hash); [apply Hok2|done|done|congruence]).
    unfold live in Hl. by rewrite bool_decide_eq_false_2 in Hl.
Qed.

(** re-enrolling the second factor takes no account of the failures an
    address has made: its answer is the same whatever the tracker holds, and a
    wrong password is not counted, so a session may try passwords through it
    without ever being made to wait. *)
Theorem reenroll_ignores_backoff clk c cs current secret nonce s b :
  (ReenrollTOTP cfg clk c cs current secret nonce (set_backoff b s)).1 = (ReenrollTOTP cfg clk c cs current secret nonce s).1
  /\ backoff (ReenrollTOTP cfg clk c cs current secret nonce (set_backoff b s)).2 = b
  /\ (cs_Elevated cs = false -> admin (db s) <> None ->
       ((ReenrollTOTP cfg clk c cs current secret nonce s).1 = Err AuthFailed <-> ~ password_ok cfg current (db s))).
Proof.
  unfold ReenrollTOTP, password_ok, GetAdmin, SetTOTPSecret, update_admin. cbn [db set_backoff].
  destruct (cs_Elevated cs); destruct (admin (db s)) as [a|] eqn:Ea; try done.
  - destruct (revokeOtherSessions _ _ _) as [[n d2]|]; [|done]. unfold endElevatedSession. cbn [db set_db set_elevated].
    by destruct (StoreAuth.RevokeSession _ _ _).
  - destruct (verifyPassword cfg current _ _) as [[[] rh]|e] eqn:Ev; cbn; (split_and!; [done..|]); intros _ _.
    + split; [done|]. intros Hn. destruct Hn. eauto.
    + split; [|done]. intros _ (x & y & [= <-] & H). congruence.
    + split; [|done]. intros _ (x & y & [= <-] & H). congruence.
Qed.
End flows.

(** ** Instances *)

Definition demo_cfg : config :=
  MkConfig demo_primitives "key" "pepper" 2 "" id id id demo_sha id id (fun _ _ x => x) (fun _ _ x => Some x)
    (fun code c _ => Some (String.eqb code (show_int c))) id.

Lemma demo_open_seal k n x : open_ demo_cfg k n (seal demo_cfg k n x) = Some x.
Proof. reflexivity. Qed.

Definition fresh_server : Server := MkServer empty_auth ∅ ∅ ∅ false.
Definition demo_caller : caller := MkCallerInfo "ip" "ua" false.
Definition demo_nonce : string := "123456789012".
Definition demo_salt : string := "0123456789abcdef".

Definition demo_setup : result rpc_error (string * list (list Z)) * Server :=
  Eval vm_compute in Setup demo_cfg (fun _ => 0) "ip" demo_passphrase demo_salt "secret" demo_nonce demo_raws fresh_server.
Definition set_up : Server := Eval vm_compute in demo_setup.2.
Definition demo_uri : string := "secret".
Definition demo_plain : list (list Z) := Eval vm_compute in generateOneCode <$> demo_raws.

Lemma setup_flow_witness :
  is_ok (Login demo_cfg (fun _ => 0) (90 * second) demo_caller "tok" demo_salt None demo_passphrase "3" set_up).1 = true.
Proof.
  refine (proj1 (setup_flow demo_cfg demo_IDKey_len demo_hmac_len demo_open_seal (fun _ => 0) "ip" demo_passphrase demo_salt
                   "secret" demo_nonce demo_raws fresh_server demo_uri demo_plain set_up _ _ _)
            (fun _ => 0) (90 * second) demo_caller "tok" demo_salt None "3" 3 _ _ _ _).
  - discriminate.
  - reflexivity.
  - vm_compute. reflexivity.
  - cbn. apply not_elem_of_nil.
  - reflexivity.
  - vm_compute. reflexivity.
  - cbn. apply not_elem_of_nil.
Defined.

Definition logged_in : Server :=
  Eval vm_compute in (Login demo_cfg (fun _ => 0) (90 * second) demo_caller "tok" demo_salt None demo_passphrase "3" set_up).2.

Example login_repeppers : (a_pepper_version <$> admin (db set_up)) = Some 0 /\ (a_pepper_version <$> admin (db logged_in)) = Some 2.
Proof. done. Qed.

Lemma demo_factors : password_ok demo_cfg demo_passphrase (db set_up) /\ code_ok demo_cfg "3" (90 * second) set_up.
Proof.
  split.
  - eexists _, false. split; [reflexivity|]. vm_compute. reflexivity.
  - exists 3. split; [vm_compute; reflexivity|]. left. apply not_elem_of_nil.
Qed.


(** Three wrong guesses, the fourth made to wait. *)
Definition demo_attempt (t : Z) : attempt :=
  MkAttempt (fun _ => 0) (t * second) demo_caller "tok" demo_salt None "wrong" "3".
Definition demo_attempts : list attempt := [demo_attempt 1; demo_attempt 2; demo_attempt 3; demo_attempt 4; demo_attempt 6].

Example demo_guesses : guesses demo_cfg "ip" demo_attempts set_up = 4%nat.
Proof. vm_compute. reflexivity. Qed.


Definition demo_cs : callerSession := MkCaller 1 "tok" false.

Lemma demo_logged_in_ok : auth_ok (db logged_in).
Proof. split; cbn; try (split; repeat constructor); repeat constructor; set_solver. Qed.

Definition demo_new : string := "another long passphrase".

Lemma change_password_exact_witness :
  (ChangePassword demo_cfg (fun _ => 0) (120 * second) demo_caller demo_cs demo_passphrase "4" demo_new demo_salt logged_in).1 = Ok tt.
Proof.
  refine (proj2 (proj1 (change_password_exact demo_cfg demo_IDKey_len demo_hmac_len (fun _ => 0) (120 * second) demo_caller demo_cs
            demo_passphrase "4" demo_new demo_salt logged_in demo_logged_in_ok _ _)) _).
  - discriminate.
  - intros r Hr _. vm_compute in Hr. apply list_elem_of_singleton in Hr as ->. reflexivity.
  - split; [right; split; [vm_compute; reflexivity|split]|split; [vm_compute; reflexivity|discriminate]].
    + eexists _, false. split; [reflexivity|]. vm_compute. reflexivity.
    + exists 4. split; [vm_compute; reflexivity|]. left. vm_compute. intros H. apply list_elem_of_singleton in H. discriminate H.
Defined.

Definition with_reset : Server := Eval vm_compute in (IssuePasswordResetToken demo_cfg (fun _ => 0) "reset" logged_in).2.
Definition was_reset : Server :=
  Eval vm_compute in (CompletePasswordReset demo_cfg 0 minute "reset" demo_new demo_salt with_reset).2.

Lemma demo_with_reset_ok : auth_ok (db with_reset).
Proof. split; cbn; try (split; repeat constructor); repeat constructor; set_solver. Qed.

Lemma reset_flow_witness :
  password_ok demo_cfg demo_new (db was_reset)
  /\ (CompletePasswordReset demo_cfg 0 (2 * minute) "reset" demo_new demo_salt was_reset).1 = Err AuthFailed.
Proof.
  destruct (reset_flow demo_cfg demo_IDKey_len demo_hmac_len 0 minute "reset" demo_new demo_salt with_reset was_reset) as (_ & H1 & H2).
  - exact demo_with_reset_ok.
  - discriminate.
  - vm_compute. reflexivity.
  - split; [apply H1; discriminate|]. apply (H2 (fun _ => True) was_reset). apply rtc_refl.
Defined.

Lemma reenroll_ignores_backoff_witness :
  (ReenrollTOTP demo_cfg (fun _ => 0) demo_caller demo_cs "wrong" "s2" demo_nonce logged_in).1 = Err AuthFailed.
Proof.
  refine (proj2 (proj2 (proj2 (reenroll_ignores_backoff demo_cfg (fun _ => 0) demo_caller demo_cs "wrong" "s2" demo_nonce logged_in ∅)) eq_refl _) _).
  - discriminate.
  - intros (a & rh & [= <-] & H). vm_compute in H. discriminate H.
Defined.
