(* ===== verification/Paging.v ===== *)
(** * Paging by cursor

    A listing in a strict order is read a page at a time; the cursor of the next
    page is the last row of this one, in a token of base64.  What the listings of the
    RPC services share. *)

From S2P Require Import Prelude GoStrings Schema Password.
From Stdlib Require Import String Ascii.
Local Open Scope string_scope.
Local Open Scope Z_scope.
Local Abbreviation length := List.length.

(** ** Tokens *)

(** base64.RawURLEncoding: the standard alphabet with [-] and [_]. *)
Definition url_char (c : ascii) : ascii := if Ascii.eqb c "+" then "-" else if Ascii.eqb c "/" then "_" else c.
Definition std_char (c : ascii) : option ascii :=
  if Ascii.eqb c "-" then Some "+"%char else if Ascii.eqb c "_" then Some "/"%char
  else if Ascii.eqb c "+" || Ascii.eqb c "/" then None else Some c.
Fixpoint map_chars (f : ascii -> option ascii) (s : string) : option string :=
  match s with EmptyString => Some "" | String c r => x ← f c; y ← map_chars f r; Some (String x y) end.
Definition url64_encode (s : string) : string := default "" (map_chars (fun c => Some (url_char c)) (b64_encode s)).
Definition url64_decode (s : string) : option string := x ← map_chars std_char s; b64_decode x.

Lemma map_chars_id s : all_bytes b64_byte s = true ->
  exists u, map_chars (fun c => Some (url_char c)) s = Some u /\ map_chars std_char u = Some s.
Proof.
  induction s as [|c s IH]; [by exists ""|]. rewrite all_bytes_cons. intros [Hc Hs]%andb_true_iff. destruct (IH Hs) as (u & E1 & E2).
  exists (String (url_char c) u). cbn [map_chars]. rewrite E1. split; [done|]. cbn [map_chars]. rewrite E2.
  assert (Hb : std_char (url_char c) = Some c); [|by rewrite Hb].
  clear - Hc. unfold b64_byte in Hc. apply existsb_exists in Hc as (x & Hx & ->%Ascii.eqb_eq).
  assert (H : forallb (fun x => match std_char (url_char x) with Some y => Ascii.eqb y x | None => false end) b64_alphabet = true) by reflexivity.
  apply (proj1 (forallb_forall _ _) H) in Hx. destruct (std_char (url_char x)); [|done]. f_equal. by apply Ascii.eqb_eq.
Qed.

Lemma url64_roundtrip s : url64_decode (url64_encode s) = Some s.
Proof.
  unfold url64_decode, url64_encode. destruct (map_chars_id (b64_encode s) (b64_encode_bytes s)) as (u & E1 & E2). rewrite E1. change (default "" (Some u)) with u.
  rewrite E2. apply b64_roundtrip.
Qed.

Lemma url64_nonempty s : s <> "" -> is_empty (url64_encode s) = false.
Proof.
  intros Hs. apply bool_decide_eq_false. intros E. pose proof (url64_roundtrip s) as H. rewrite E in H. vm_compute in H. congruence.
Qed.

(** ** Pages *)

Definition page_size (asked dflt most : Z) : Z :=
  let n := if asked <=? 0 then dflt else asked in if most <? n then most else n.

Lemma page_size_pos asked dflt most : 0 < dflt -> 0 < most -> (0 < Z.to_nat (page_size asked dflt most))%nat.
Proof. intros H1 H2. unfold page_size. cbv zeta. destruct (Z.leb_spec asked 0); case_match; lia. Qed.

Lemma last_nth {A} k (l : list A) : (0 < k)%nat -> (k < length l)%nat -> nth_error l (k - 1) = last (take k l).
Proof.
  revert l. induction k as [|k IH]; intros l Hk Hl; [lia|]. destruct l as [|x l]; [cbn in Hl; lia|]. cbn [take]. rewrite last_cons.
  destruct k as [|k]; [done|]. replace (S (S k) - 1)%nat with (S (S k - 1)) by lia. cbn [nth_error]. cbn in Hl. rewrite IH by lia.
  destruct (last (take (S k) l)) eqn:E; [done|]. apply last_None in E. destruct l; [cbn in Hl; lia|by cbn in E].
Qed.


Local Open Scope list_scope.

Section paging.
Context {A : Type} (before : A -> A -> bool).
Context (before_trans : forall a b c, before a b = true -> before b c = true -> before a c = true).
Context (before_irrefl : forall a, before a a = false).

Definition sorted (l : list A) : Prop := StronglySorted (fun a b => before a b = true) l.

(** The rows after the cursor. *)
Definition after (cur : option A) (l : list A) : list A :=
  match cur with None => l | Some x => filter (fun y => before x y = true) l end.

(** A page of [k] rows and the cursor of the next one: one row more is asked for,
    to know whether there is one. *)
Definition page (k : nat) (rest : list A) : list A * option A :=
  if (k <? length rest)%nat then (take k rest, last (take k rest)) else (rest, None).

(** All the pages, one after the other; [None] is the end of the listing. *)
Fixpoint walk (fuel k : nat) (cur : option A) (l : list A) : option (list (list A)) :=
  match fuel with
  | O => None
  | S n =>
      let p := page k (after cur l) in
      match p.2 with
      | None => Some [p.1]
      | Some x => match walk n k (Some x) l with Some ps => Some (p.1 :: ps) | None => None end
      end
  end.

Lemma after_sorted a x r : sorted (a ++ x :: r) -> filter (fun y => before x y = true) (a ++ x :: r) = r.
Proof.
  intros Hs. induction a as [|y a IH]; cbn [app] in *.
  - apply StronglySorted_inv in Hs as [_ Hall]. rewrite filter_cons_False by (by rewrite before_irrefl).
    clear - Hall. induction Hall as [|z r Hz _ IH]; [done|]. rewrite filter_cons_True by done. by rewrite IH.
  - apply StronglySorted_inv in Hs as [Hs Hall]. rewrite filter_cons_False; [by apply IH|]. intros Hb.
    rewrite Forall_forall in Hall. specialize (Hall x ltac:(apply elem_of_app; right; left)). cbv beta in Hall.
    pose proof (before_trans _ _ _ Hb Hall) as H. by rewrite before_irrefl in H.
Qed.

Lemma last_take_split k (l : list A) x : last (take k l) = Some x -> exists a, take k l = a ++ [x] /\ l = a ++ x :: drop k l.
Proof.
  intros H. apply last_Some in H as [a Ha]. exists a. split; [done|]. rewrite <- (take_drop k l) at 1. rewrite Ha, <- app_assoc. done.
Qed.

(** From a cursor inside the listing, the pages are what is left, in order. *)
Lemma walk_rest fuel k done_ rest cur :
  (0 < k)%nat -> (length rest < fuel)%nat -> sorted (done_ ++ rest) -> after cur (done_ ++ rest) = rest ->
  exists ps, walk fuel k cur (done_ ++ rest) = Some ps /\ mjoin ps = rest /\ Forall (fun p => (length p <= k)%nat) ps.
Proof.
  revert done_ rest cur. induction fuel as [|n IH]; intros dn rest cur Hk Hn Hs Ha; [lia|]. cbn [walk]. rewrite Ha. unfold page.
  destruct (Nat.ltb_spec k (length rest)) as [Hlt|Hge]; cbn [fst snd].
  2:{ exists [rest]. cbn. rewrite app_nil_r. split; [done|]. split; [done|]. by constructor. }
  destruct (last (take k rest)) as [x|] eqn:El.
  2:{ apply last_None in El. apply (f_equal length) in El. rewrite length_take in El. cbn in El. lia. }
  destruct (last_take_split _ _ _ El) as (a & Et & Er).
  assert (E : dn ++ rest = (dn ++ take k rest) ++ drop k rest) by (by rewrite <- app_assoc, take_drop).
  assert (Ha' : after (Some x) ((dn ++ take k rest) ++ drop k rest) = drop k rest).
  { cbn [after]. rewrite Et, <- !app_assoc. cbn [app]. rewrite app_assoc. apply after_sorted. rewrite <- app_assoc, <- Er. done. }
  destruct (IH (dn ++ take k rest) (drop k rest) (Some x) Hk) as (ps & E1 & E2 & E3); [rewrite length_drop; lia|by rewrite <- E|done|].
  rewrite E. rewrite E1. exists (take k rest :: ps). split; [done|]. split; [change (take k rest ++ mjoin ps = rest); rewrite E2; apply take_drop|].
  constructor; [rewrite length_take; lia|done].
Qed.

Lemma walk_all fuel k l :
  (0 < k)%nat -> (length l < fuel)%nat -> sorted l ->
  exists ps, walk fuel k None l = Some ps /\ mjoin ps = l /\ Forall (fun p => (length p <= k)%nat) ps.
Proof. intros Hk Hf Hs. by apply (walk_rest fuel k [] l None). Qed.

(** The rows fetched, one more than the page holds, tell the page and its cursor. *)
Lemma fetch_page k rest :
  (0 < k)%nat ->
  let found := take (k + 1) rest in
  (if (k <? length found)%nat then (take k found, nth_error found (k - 1)) else (found, None)) = page k rest.
Proof.
  intros Hk. cbv zeta. unfold page. rewrite length_take. destruct (Nat.ltb_spec k (length rest)) as [Hlt|Hge].
  - rewrite (proj2 (Nat.ltb_lt k (Nat.min (k + 1) (length rest)))) by lia. rewrite last_nth, take_take, Nat.min_l by (rewrite ?length_take; lia). done.
  - rewrite (proj2 (Nat.ltb_ge k (Nat.min (k + 1) (length rest)))) by lia. by rewrite take_ge by lia.
Qed.

(** ** Following the tokens *)

Context {R : Type} (token : A -> string) (fetch : string -> option (R * string)) (resp : list A -> R).

Definition token_for (cur : option A) : string := match cur with None => "" | Some x => token x end.

(** Asking for the next page for as long as there is a token. *)
Fixpoint follow (fuel : nat) (tok : string) : option (list R) :=
  match fuel with
  | O => None
  | S n =>
      match fetch tok with
      | None => None
      | Some (r, next) => if is_empty next then Some [r] else option_map (cons r) (follow n next)
      end
  end.

Lemma page_members k cur l x : (page k (after cur l)).2 = Some x -> x ∈ l.
Proof.
  unfold page. destruct (_ <? _)%nat; [|done]. cbn [snd]. intros [a Ha]%last_Some.
  assert (Hx : x ∈ after cur l) by (rewrite <- (take_drop k (after cur l)); apply elem_of_app; left; rewrite Ha; apply elem_of_app; right; left).
  destruct cur; cbn [after] in Hx; [by apply list_elem_of_filter in Hx as [_ Hx]|done].
Qed.

Lemma follow_walk fuel k l cur ps :
  (forall x, x ∈ l -> is_empty (token x) = false) ->
  (forall cur, (forall x, cur = Some x -> x ∈ l) ->
     fetch (token_for cur) = Some (resp (page k (after cur l)).1, token_for (page k (after cur l)).2)) ->
  (forall x, cur = Some x -> x ∈ l) -> walk fuel k cur l = Some ps -> follow fuel (token_for cur) = Some (resp <$> ps).
Proof.
  intros Ht Hf. revert cur ps. induction fuel as [|n IH]; intros cur ps Hcur Hw; [done|]. cbn [walk follow] in *. rewrite (Hf cur Hcur).
  pose proof (page_members k cur l) as Hmem. destruct (page k (after cur l)) as [p [x|]]; cbn [fst snd token_for] in *.
  - specialize (Hmem x eq_refl). rewrite (Ht x Hmem). destruct (walk n k (Some x) l) as [ps'|] eqn:Ew; [|done]. injection Hw as <-.
    change (token x) with (token_for (Some x)). rewrite (IH (Some x) ps'); [done|by intros y [= <-]|done].
  - by injection Hw as <-.
Qed.

(** Every row is shown exactly once, in order, in pages of at most [k]. *)
Lemma follow_all fuel k l :
  (0 < k)%nat -> (length l < fuel)%nat -> sorted l -> (forall x, x ∈ l -> is_empty (token x) = false) ->
  (forall cur, (forall x, cur = Some x -> x ∈ l) ->
     fetch (token_for cur) = Some (resp (page k (after cur l)).1, token_for (page k (after cur l)).2)) ->
  exists ps, follow fuel "" = Some (resp <$> ps) /\ mjoin ps = l /\ Forall (fun p => (length p <= k)%nat) ps.
Proof.
  intros Hk Hl Hs Ht Hf. destruct (walk_all fuel k l Hk Hl Hs) as (ps & Hw & Hj & Hlen). exists ps. split; [|done].
  change "" with (token_for None). by apply (follow_walk fuel k l).
Qed.

End paging.
