(* ===== verification/ItemService.v ===== *)
(** * The item service: internal/rpc/item.go, itemsearch.go

    Everything the control plane does to published items: create, edit under
    optimistic concurrency with a revision history, soft delete and restore,
    promotion of a preview, corrections, reverts, and the two listings with their
    cursors.

    A handler takes the state of the service and returns a gRPC code or a
    response, and the state.  It runs as one step, but for [Create], where other
    writers may come between reading the newest item and inserting ([mid]).  The
    database answers every statement; [fts] is SQLite's full-text index, [word]
    the Unicode letters and digits, [candidates_of] encoding/json over the
    generated message type, [lenient] time.Parse on a text in another form than
    the one the store writes, and [sha256hex] the digest. *)

From S2P Require Import Prelude GoTime GoStrings Utf8 Timestamps TimeRead Sanitize Tables Schema StoreItems StoreSamples Password Paging.
From Stdlib Require Import String Ascii.
Local Open Scope string_scope.
Local Open Scope Z_scope.
Local Abbreviation length := List.length.

(** ** Tables: migrations/0002 *)

(** [at] is the text of the instant of the edit. *)
Record RevisionRow := MkRevision {
  v_id : Z; v_item_id : Z; v_at : string; v_field : string; v_old : option string; v_new : option string }.
Record CorrectionRow := MkCorrection { c_item_id : Z; c_corrects_item_id : Z }.

#[export] Instance row_revision : Row RevisionRow := v_id.

(** The service: the database, the last stamp given to an edit, and the slugs whose
    documents it has had dropped from the render cache, in order. *)
Record ItemServer := MkItemServer {
  content : Content; revisions : list RevisionRow; corrections : list CorrectionRow; lastEditAt : Z; invalidated : list string }.

Definition set_content (d : Content) (s : ItemServer) : ItemServer :=
  MkItemServer d (revisions s) (corrections s) (lastEditAt s) (invalidated s).
Definition set_revisions (r : list RevisionRow) (s : ItemServer) : ItemServer :=
  MkItemServer (content s) r (corrections s) (lastEditAt s) (invalidated s).
Definition set_corrections (r : list CorrectionRow) (s : ItemServer) : ItemServer :=
  MkItemServer (content s) (revisions s) r (lastEditAt s) (invalidated s).
Definition set_stamp (t : Z) (s : ItemServer) : ItemServer :=
  MkItemServer (content s) (revisions s) (corrections s) t (invalidated s).
Definition log_invalidated (l : list string) (s : ItemServer) : ItemServer :=
  MkItemServer (content s) (revisions s) (corrections s) (lastEditAt s) (invalidated s ++ l)%list.

(** The codes the handlers answer with. *)
Inductive item_code := InvalidArgument | ItemNotFound | FailedPrecondition | InternalError.
#[export] Instance item_code_eq_dec : EqDecision item_code.
Proof. solve_decision. Defined.

(** ** Reading rows *)

(** Neither the formats nor the tags are selected. *)
Definition itemScanRow (r : ItemRow) : Item :=
  MkItem (i_id r) (i_feed_id r) (i_item_key r) (i_content_hash r) (i_title r) (i_summary_text r)
    (i_body_html r) (of_null (i_answer_html r)) no_formats (of_null (i_link r)) (of_null (i_source_name r))
    (i_published_at r) [] (i_origin r) (i_created_at r) (i_updated_at r)
    (of_null_time (i_edited_at r)) (of_null_time (i_deleted_at r)) (i_version r).

Definition itemLoadByID (id : Z) (d : Content) : option Item := itemScanRow <$> find_id id (items d).
Definition itemFeedSlug (feed : Z) (d : Content) : option string := f_slug <$> find_id feed (feeds d).

(** [MAX(published_at)], the greatest text, of the feed's other rows, deleted ones
    included; the zero time when there is none. *)
Definition itemNewestPublished (feed exclude : Z) (d : Content) : Z :=
  default zero_time (i_published_at <$> head (order_desc (fun r => formatTime (i_published_at r))
    (filter (fun r => (i_feed_id r =? feed) && ((exclude =? 0) || negb (i_id r =? exclude)) = true) (items d)))).

(** ** Checks *)

Definition itemMaxPublishedAtYear : Z := 9999.

Definition itemValidatePublishedAt (t : Z) : option item_code :=
  if is_zero t then Some InvalidArgument
  else if (Year UTC t <? 1) || (itemMaxPublishedAtYear <? Year UTC t) then Some InvalidArgument else None.

Definition itemRejectBackdated (published newest : Z) : option item_code :=
  if is_zero newest || (newest <? published) then None else Some InvalidArgument.

Definition itemTimestampRetries : nat := 5.

(** ** The wire form *)

Inductive ProtoOrigin := ORIGIN_UNSPECIFIED | ORIGIN_GENERATED | ORIGIN_SAMPLED | ORIGIN_MANUAL | ORIGIN_CORRECTION.
#[export] Instance proto_origin_eq_dec : EqDecision ProtoOrigin.
Proof. solve_decision. Defined.

Definition itemOriginToProtoMap : list (string * ProtoOrigin) :=
  [("generated", ORIGIN_GENERATED); ("sampled", ORIGIN_SAMPLED); ("manual", ORIGIN_MANUAL); ("correction", ORIGIN_CORRECTION)].

Definition itemOriginToProto (o : string) : ProtoOrigin :=
  match List.find (fun p => String.eqb p.1 o) itemOriginToProtoMap with Some p => p.2 | None => ORIGIN_UNSPECIFIED end.

Definition itemOriginToModelString (o : ProtoOrigin) : string :=
  match o with
  | ORIGIN_GENERATED => "generated" | ORIGIN_SAMPLED => "sampled" | ORIGIN_MANUAL => "manual" | ORIGIN_CORRECTION => "correction"
  | ORIGIN_UNSPECIFIED => ""
  end.

Definition itemTimestampOrNil (t : Z) : option Z := if is_zero t then None else Some t.

Record ProtoItem := MkProtoItem {
  p_Id : Z; p_FeedId : Z; p_ItemKey : string; p_Title : string; p_SummaryText : string; p_BodyHtml : string; p_AnswerHtml : string;
  p_Link : string; p_SourceName : string; p_Tags : list string; p_Origin : ProtoOrigin; p_PublishedAt : option Z;
  p_CreatedAt : option Z; p_UpdatedAt : option Z; p_EditedAt : option Z; p_DeletedAt : option Z; p_Version : Z }.

Definition itemToProto (it : Item) : ProtoItem :=
  MkProtoItem (ID it) (FeedID it) (ItemKey it) (Title it) (SummaryText it) (BodyHTML it) (AnswerHTML it) (Link it) (SourceName it)
    (Tags it) (itemOriginToProto (Origin it)) (itemTimestampOrNil (PublishedAt it)) (itemTimestampOrNil (CreatedAt it))
    (itemTimestampOrNil (UpdatedAt it)) (itemTimestampOrNil (EditedAt it)) (itemTimestampOrNil (DeletedAt it)) (Version it).

(** ** Stamps of edits *)

(** [editStamp]: later than the last one, and printed with nine digits. *)
Definition edit_stamp (now last : Z) : Z :=
  let at_ := if negb (last <? now) then last + 1 else now in
  if nsec at_ mod 10 =? 0 then at_ + 1 else at_.
Definition editStamp (now : Z) (s : ItemServer) : Z * ItemServer :=
  let at_ := edit_stamp now (lastEditAt s) in (at_, set_stamp at_ s).

(** ** Invalidation *)

(** [invalidate], after the write: the feed, and the aggregates it is a member of. *)
Definition invalidate_slug (slug : string) (s : ItemServer) : ItemServer :=
  if is_empty slug then s else log_invalidated (slug :: AggregateSlugsFor slug (content s)) s.

Definition invalidate_feed (feed : Z) (s : ItemServer) : ItemServer :=
  match itemFeedSlug feed (content s) with Some slug => invalidate_slug slug s | None => s end.

(** ** Revisions *)

Record itemRevisionEdit := MkEdit { ed_field : string; ed_old : option string; ed_new : option string }.

Definition diff_text (field o n : string) : list itemRevisionEdit :=
  if String.eqb o n then [] else [MkEdit field (nullString o) (nullString n)].

Definition itemDiff (old updated : Item) : list itemRevisionEdit :=
  (diff_text "title" (Title old) (Title updated) ++ diff_text "summary_text" (SummaryText old) (SummaryText updated)
  ++ diff_text "body_html" (BodyHTML old) (BodyHTML updated) ++ diff_text "answer_html" (AnswerHTML old) (AnswerHTML updated)
  ++ diff_text "link" (Link old) (Link updated) ++ diff_text "source_name" (SourceName old) (SourceName updated)
  ++ (if PublishedAt old =? PublishedAt updated then []
      else [MkEdit "published_at" (Some (formatTime (PublishedAt old))) (Some (formatTime (PublishedAt updated)))]))%list.

(** One [INSERT INTO item_revisions] per changed field. *)
Fixpoint insert_revisions (item : Z) (at_ : string) (l : list itemRevisionEdit) (t : list RevisionRow) : list RevisionRow :=
  match l with
  | [] => t
  | e :: l => insert_revisions item at_ l (t ++ [MkRevision (next_id t) item at_ (ed_field e) (ed_old e) (ed_new e)])
  end.

(** The [SET] list of an edit: formats, key, feed, hash and origin are not in it. *)
Definition edit_item_row (now : Z) (it : Item) (r : ItemRow) : ItemRow :=
  MkItemRow (i_id r) (i_feed_id r) (i_item_key r) (i_content_hash r) (Title it) (SummaryText it) (BodyHTML it)
    (nullString (AnswerHTML it)) (nullString (Link it)) (nullString (SourceName it)) (i_formats r) (PublishedAt it)
    (i_run_id r) (i_origin r) (i_version r + 1) (i_created_at r) now (Some now) (i_deleted_at r).

Definition at_version (id version : Z) (r : ItemRow) : bool := (i_id r =? id) && (i_version r =? version).

Definition itemVersionConflictErr (id : Z) (d : Content) : item_code :=
  match find_id id (items d) with None => ItemNotFound | Some _ => FailedPrecondition end.

Definition itemApplyEdit (old updated : Item) (expectedVersion now : Z) (s : ItemServer) : result item_code Item * ItemServer :=
  let d := content s in
  match List.find (at_version (ID old) expectedVersion) (items d) with
  | None => (Err (itemVersionConflictErr (ID old) d), s)
  | Some r =>
      if existsb (fun x => negb (i_id x =? i_id r) && bool_decide (key_published x = key_published (edit_item_row now updated r))) (items d)
      then (Err InternalError, s)
      else
        let d' := set_items (update_where (at_version (ID old) expectedVersion) (edit_item_row now updated) (items d)) d in
        let s' := set_revisions (insert_revisions (ID old) (formatTime now) (itemDiff old updated) (revisions s)) (set_content d' s) in
        match itemLoadByID (ID old) d' with Some out => (Ok out, s') | None => (Err InternalError, s') end
  end.

Section handlers.
Context (sha256hex : string -> string) (lenient : string -> option Z).

Definition nul : string := String zero "".
Definition itemContentHash (feedID : Z) (title summary body link : string) : string :=
  sha256hex (show_int feedID ++ nul ++ title ++ nul ++ summary ++ nul ++ body ++ nul ++ link).

Definition itemSanitizeHTML (s : string) : string := HTML s.

Definition itemParseTime (s : string) : option Z := parse_time lenient s.

(** The row after the write. *)
Definition reload (id : Z) (s : ItemServer) : result item_code ProtoItem :=
  match itemLoadByID id (content s) with Some it => Ok (itemToProto it) | None => Err InternalError end.

(** *** Get *)

Definition ItemService_Get (id : Z) (s : ItemServer) : result item_code ProtoItem :=
  match itemLoadByID id (content s) with Some it => Ok (itemToProto it) | None => Err ItemNotFound end.

(** *** Create *)

Definition at_published (t : Z) (it : Item) : Item :=
  MkItem (ID it) (FeedID it) (ItemKey it) (ContentHash it) (Title it) (SummaryText it) (BodyHTML it) (AnswerHTML it) (Formats it)
    (Link it) (SourceName it) t (Tags it) (Origin it) (CreatedAt it) (UpdatedAt it) (EditedAt it) (DeletedAt it) (Version it).

(** The insertions, a second later after each UNIQUE violation; [clk] are the
    store's clock readings. *)
Fixpoint create_loop (left : nat) (clk : nat -> Z) (it : Item) (published : Z) (d : Content) : result item_code (Z * Content) :=
  match InsertItem (clk left) (at_published published it) d with
  | Ok r => Ok r
  | Err e =>
      match left with
      | S n => if isUniquePublishedAtViolation e then create_loop n clk it (published + second) d else Err InternalError
      | O => Err InternalError
      end
  end.

Definition new_item (feed : Z) (key hash title summary body answer link source origin : string) : Item :=
  MkItem 0 feed key hash title summary body answer no_formats link source zero_time [] origin zero_time zero_time zero_time zero_time 0.

(** [now] and [key] are the service's clock reading and the key minted for it;
    [mid] is what other writers do after the newest item has been read. *)
Definition Create (mid : Content -> Content) (now : Z) (key : string) (clk : nat -> Z) (in_ : option ProtoItem) (s : ItemServer)
    : result item_code ProtoItem * ItemServer :=
  match in_ with
  | None => (Err InvalidArgument, s)
  | Some in_ =>
      let feedID := p_FeedId in_ in
      let title := TrimSpace (p_Title in_) in
      if feedID =? 0 then (Err InvalidArgument, s)
      else if is_empty title then (Err InvalidArgument, s)
      else match itemFeedSlug feedID (content s) with
      | None => (Err ItemNotFound, s)
      | Some slug =>
          let published := truncate (default now (p_PublishedAt in_)) second in
          match itemValidatePublishedAt published with
          | Some e => (Err e, s)
          | None =>
              let newest := truncate (itemNewestPublished feedID 0 (content s)) second in
              match itemRejectBackdated published newest with
              | Some e => (Err e, s)
              | None =>
                  let s := set_content (mid (content s)) s in
                  let bodyHTML := itemSanitizeHTML (p_BodyHtml in_) in
                  let answerHTML := itemSanitizeHTML (p_AnswerHtml in_) in
                  let hash := itemContentHash feedID title (p_SummaryText in_) bodyHTML (p_Link in_) in
                  let it := new_item feedID key hash title (p_SummaryText in_) bodyHTML answerHTML (p_Link in_) (p_SourceName in_) "manual" in
                  match create_loop itemTimestampRetries clk it published (content s) with
                  | Err e => (Err e, s)
                  | Ok (id, d) =>
                      let s := invalidate_slug slug (set_content d s) in
                      (reload id s, s)
                  end
              end
          end
      end
  end.

(** *** Update *)

Definition with_fields (title summary body answer link source : string) (published : Z) (it : Item) : Item :=
  MkItem (ID it) (FeedID it) (ItemKey it) (ContentHash it) title summary body answer (Formats it) link source published (Tags it)
    (Origin it) (CreatedAt it) (UpdatedAt it) (EditedAt it) (DeletedAt it) (Version it).

(** The publication time of an edit: the one asked for, if it is another second. *)
Definition update_published (old : Item) (asked : option Z) (d : Content) : result item_code Z :=
  match asked with
  | None => Ok (PublishedAt old)
  | Some ts =>
      let candidate := truncate ts second in
      match itemValidatePublishedAt candidate with
      | Some e => Err e
      | None =>
          if candidate =? truncate (PublishedAt old) second then Ok (PublishedAt old)
          else match itemRejectBackdated candidate (truncate (itemNewestPublished (FeedID old) (ID old) d) second) with
               | Some e => Err e
               | None => Ok candidate
               end
      end
  end.

Definition Update (now : Z) (in_ : option ProtoItem) (expectedVersion : Z) (s : ItemServer) : result item_code ProtoItem * ItemServer :=
  match in_ with
  | None => (Err InvalidArgument, s)
  | Some in_ =>
      let title := TrimSpace (p_Title in_) in
      if p_Id in_ =? 0 then (Err InvalidArgument, s)
      else if is_empty title then (Err InvalidArgument, s)
      else match itemLoadByID (p_Id in_) (content s) with
      | None => (Err ItemNotFound, s)
      | Some old =>
          match update_published old (p_PublishedAt in_) (content s) with
          | Err e => (Err e, s)
          | Ok newPublished =>
              let updated := with_fields title (p_SummaryText in_) (itemSanitizeHTML (p_BodyHtml in_)) (itemSanitizeHTML (p_AnswerHtml in_))
                               (p_Link in_) (p_SourceName in_) newPublished old in
              let (stamp, s) := editStamp now s in
              match itemApplyEdit old updated expectedVersion stamp s with
              | (Err e, s) => (Err e, s)
              | (Ok out, s) => (Ok (itemToProto out), invalidate_feed (FeedID old) s)
              end
          end
      end
  end.

(** *** Delete and Restore *)

Definition tombstone (now : Z) (deleted : option Z) (r : ItemRow) : ItemRow :=
  MkItemRow (i_id r) (i_feed_id r) (i_item_key r) (i_content_hash r) (i_title r) (i_summary_text r) (i_body_html r) (i_answer_html r)
    (i_link r) (i_source_name r) (i_formats r) (i_published_at r) (i_run_id r) (i_origin r) (i_version r + 1) (i_created_at r) now
    (i_edited_at r) deleted.

(** What the two share: the row, if it is at the expected version. *)
Definition set_deleted (now : Z) (deleted : option Z) (id expectedVersion : Z) (s : ItemServer) : result item_code Z * ItemServer :=
  match itemLoadByID id (content s) with
  | None => (Err ItemNotFound, s)
  | Some old =>
      let hit := at_version id expectedVersion in
      if (affected hit (items (content s)) =? 0)%nat then (Err (itemVersionConflictErr id (content s)), s)
      else
        let s := set_content (set_items (update_where hit (tombstone now deleted) (items (content s))) (content s)) s in
        (Ok (FeedID old), invalidate_feed (FeedID old) s)
  end.

Definition Delete (now id expectedVersion : Z) (s : ItemServer) : result item_code unit * ItemServer :=
  match set_deleted now (Some now) id expectedVersion s with (Ok _, s) => (Ok tt, s) | (Err e, s) => (Err e, s) end.

Definition Restore (now id expectedVersion : Z) (s : ItemServer) : result item_code ProtoItem * ItemServer :=
  match set_deleted now None id expectedVersion s with
  | (Ok _, s) => (reload id s, s)
  | (Err e, s) => (Err e, s)
  end.

(** *** Promotion of a preview *)

Record SampleCandidate := MkCandidate {
  sc_CandidateId : string; sc_Title : string; sc_SummaryText : string; sc_BodyHtml : string; sc_AnswerHtml : string;
  sc_Link : string; sc_SourceName : string }.

Section promote.
Context (candidates_of : string -> option (list SampleCandidate)).

Definition itemFindCandidate (payload candidateID : string) : option SampleCandidate :=
  match candidates_of payload with
  | None => None
  | Some l => List.find (fun c => String.eqb (sc_CandidateId c) candidateID) l
  end.

(** [now] is the service's clock, [gclock] the one [GetSample] reads, [clock] and
    [clk] those of the promotion. *)
Definition ItemService_PromoteSample (now gclock clock : Z) (clk : nat -> Z) (key sample candidate : string) (s : ItemServer)
    : result item_code ProtoItem * ItemServer :=
  let d := content s in
  match Atoi sample with
  | None => (Err InvalidArgument, s)
  | Some sampleID =>
      match find_id sampleID (samples d) with
      | None => (Err ItemNotFound, s)
      | Some row =>
          let feedID := s_feed_id row in
          match itemFeedSlug feedID d with
          | None => (Err InternalError, s)
          | Some slug =>
              match GetSample gclock sampleID d with
              | Err NotFound => (Err ItemNotFound, s)
              | Err _ => (Err InternalError, s)
              | Ok sm =>
                  match itemFindCandidate (smp_Payload sm) candidate with
                  | None => (Err ItemNotFound, s)
                  | Some c =>
                      let body := itemSanitizeHTML (sc_BodyHtml c) in
                      let answer := itemSanitizeHTML (sc_AnswerHtml c) in
                      let hash := itemContentHash feedID (sc_Title c) (sc_SummaryText c) body (sc_Link c) in
                      let it := new_item 0 key hash (sc_Title c) (sc_SummaryText c) body answer (sc_Link c) (sc_SourceName c) "sampled" in
                      match PromoteSample clock clk sampleID it d with
                      | Err NotFound => (Err ItemNotFound, s)
                      | Err _ => (Err InternalError, s)
                      | Ok (id, d') =>
                          let s := invalidate_slug slug (set_content d' s) in
                          match itemLoadByID id (content s) with
                          | None => (Err InternalError, s)
                          | Some out =>
                              match itemValidatePublishedAt (PublishedAt out) with
                              | Some _ => (Err InternalError, s)
                              | None => (Ok (itemToProto out), s)
                              end
                          end
                      end
                  end
              end
          end
      end
  end.
End promote.

(** *** Corrections *)

(** One attempt: the item and the link to the one it corrects, in one transaction. *)
Definition correction_row (id : Z) (it : Item) (stamp now : Z) : ItemRow :=
  MkItemRow id (FeedID it) (ItemKey it) (ContentHash it) (Title it) (SummaryText it) (BodyHTML it) None
    (nullString (Link it)) (nullString (SourceName it)) None stamp None (Origin it) 1 now now None None.

Definition itemInsertCorrectionOnce (it : Item) (stamp now correctsID : Z) (s : ItemServer) : result store_error (Z * ItemServer) :=
  let d := content s in
  let id := next_id (items d) in
  let? d1 := insert_item d (correction_row id it stamp now) in
  if negb (bool_decide (correctsID ∈ ids (items d1))) then Err ForeignKeyViolation
  else if existsb (fun c => (c_item_id c =? id) && (c_corrects_item_id c =? correctsID)) (corrections s) then Err PrimaryKeyViolation
  else Ok (id, set_corrections (corrections s ++ [MkCorrection id correctsID]) (set_content d1 s)).

Fixpoint correction_loop (left : nat) (it : Item) (stamp now correctsID : Z) (s : ItemServer) : result item_code (Z * ItemServer) :=
  match itemInsertCorrectionOnce it stamp now correctsID s with
  | Ok r => Ok r
  | Err e =>
      match left with
      | S n => if isUniquePublishedAtViolation e then correction_loop n it (stamp + second) now correctsID s else Err InternalError
      | O => Err InternalError
      end
  end.

Definition PublishCorrection (now : Z) (key : string) (correctsID : Z) (title summary body : string) (s : ItemServer)
    : result item_code ProtoItem * ItemServer :=
  let title := TrimSpace title in
  if correctsID =? 0 then (Err InvalidArgument, s)
  else if is_empty title then (Err InvalidArgument, s)
  else match itemLoadByID correctsID (content s) with
  | None => (Err ItemNotFound, s)
  | Some original =>
      match itemFeedSlug (FeedID original) (content s) with
      | None => (Err InternalError, s)
      | Some slug =>
          let title := if HasPrefix title "Correction:" then title else "Correction: " ++ title in
          let newest := itemNewestPublished (FeedID original) 0 (content s) in
          let stamp := truncate now second in
          let stamp := if negb (newest <? stamp) then newest + second else stamp in
          match itemValidatePublishedAt stamp with
          | Some e => (Err e, s)
          | None =>
              let body := itemSanitizeHTML body in
              let hash := itemContentHash (FeedID original) title summary body (Link original) in
              let it := new_item (FeedID original) key hash title summary body "" (Link original) (SourceName original) "correction" in
              match correction_loop itemTimestampRetries it stamp now correctsID s with
              | Err e => (Err e, s)
              | Ok (id, s) => let s := invalidate_slug slug s in (reload id s, s)
              end
          end
      end
  end.

(** *** Reverting an edit *)

Record ItemRevisionChange := MkChange { ch_Field : string; ch_OldValue : string; ch_NewValue : string }.
Record ItemRevision := MkItemRevision { rv_Id : Z; rv_ItemId : Z; rv_At : Z; rv_Changes : list ItemRevisionChange }.

Definition of_group (item : Z) (at_ : string) (r : RevisionRow) : bool := (v_item_id r =? item) && String.eqb (v_at r) at_.

(** The rows of one edit, in the order they were written (the ids grow). *)
Definition itemLoadRevisionFields (item : Z) (at_ : string) (t : list RevisionRow) : result item_code ItemRevision :=
  match filter (fun r => of_group item at_ r = true) t with
  | [] => Err ItemNotFound
  | r :: l =>
      match itemParseTime at_ with
      | None => Err InternalError
      | Some t => Ok (MkItemRevision (v_id r) item t
                        ((fun r => MkChange (v_field r) (of_null (v_old r)) (of_null (v_new r))) <$> r :: l))
      end
  end.

Definition itemRevisionGroupAt (item revision : Z) (t : list RevisionRow) : option string :=
  v_at <$> List.find (fun r => (v_id r =? revision) && (v_item_id r =? item)) t.

Definition itemApplyRevisionField (it : Item) (field value : string) : option Item :=
  let f title summary body answer link source published := Some (with_fields title summary body answer link source published it) in
  if String.eqb field "title" then f value (SummaryText it) (BodyHTML it) (AnswerHTML it) (Link it) (SourceName it) (PublishedAt it)
  else if String.eqb field "summary_text" then f (Title it) value (BodyHTML it) (AnswerHTML it) (Link it) (SourceName it) (PublishedAt it)
  else if String.eqb field "body_html" then f (Title it) (SummaryText it) value (AnswerHTML it) (Link it) (SourceName it) (PublishedAt it)
  else if String.eqb field "answer_html" then f (Title it) (SummaryText it) (BodyHTML it) value (Link it) (SourceName it) (PublishedAt it)
  else if String.eqb field "link" then f (Title it) (SummaryText it) (BodyHTML it) (AnswerHTML it) value (SourceName it) (PublishedAt it)
  else if String.eqb field "source_name" then f (Title it) (SummaryText it) (BodyHTML it) (AnswerHTML it) (Link it) value (PublishedAt it)
  else if String.eqb field "published_at" then
    match itemParseTime value with
    | Some t => f (Title it) (SummaryText it) (BodyHTML it) (AnswerHTML it) (Link it) (SourceName it) t
    | None => None
    end
  else None.

Fixpoint apply_changes (it : Item) (l : list ItemRevisionChange) : option Item :=
  match l with
  | [] => Some it
  | c :: l => match itemApplyRevisionField it (ch_Field c) (ch_OldValue c) with Some it => apply_changes it l | None => None end
  end.

(** The checks of a reverted publication time. *)
Definition revert_published (old updated : Item) (d : Content) : option item_code :=
  if PublishedAt updated =? PublishedAt old then None
  else match itemValidatePublishedAt (PublishedAt updated) with
       | Some e => Some e
       | None => itemRejectBackdated (PublishedAt updated) (itemNewestPublished (FeedID old) (ID old) d)
       end.

Definition RevertRevision (now itemID revisionID expectedVersion : Z) (s : ItemServer) : result item_code ProtoItem * ItemServer :=
  if itemID =? 0 then (Err InvalidArgument, s)
  else if revisionID =? 0 then (Err InvalidArgument, s)
  else match itemLoadByID itemID (content s) with
  | None => (Err ItemNotFound, s)
  | Some old =>
      match itemRevisionGroupAt itemID revisionID (revisions s) with
      | None => (Err ItemNotFound, s)
      | Some at_ =>
          match itemLoadRevisionFields itemID at_ (revisions s) with
          | Err _ => (Err InternalError, s)
          | Ok rev =>
              match apply_changes old (rv_Changes rev) with
              | None => (Err InternalError, s)
              | Some updated =>
                  if is_empty (TrimSpace (Title updated)) then (Err FailedPrecondition, s)
                  else match revert_published old updated (content s) with
                  | Some e => (Err e, s)
                  | None =>
                      let (stamp, s) := editStamp now s in
                      match itemApplyEdit old updated expectedVersion stamp s with
                      | (Err e, s) => (Err e, s)
                      | (Ok out, s) => (Ok (itemToProto out), invalidate_feed (FeedID old) s)
                      end
                  end
              end
          end
      end
  end.

(** *** Listing *)

Definition itemEncodePageToken (published id : Z) : string := url64_encode (formatTime published ++ "|" ++ show_int id).
Definition itemDecodePageToken (tok : string) : option (Z * Z) :=
  raw ← url64_decode tok;
  match cut raw "|" with
  | None => None
  | Some (a, b) => t ← itemParseTime a; id ← Atoi b; Some (t, id)
  end.

Definition itemDefaultPageSize : Z := 50.
Definition itemMaxPageSize : Z := 200.
Inductive DeletedFilter := DELETED_FILTER_UNSPECIFIED | DELETED_FILTER_EXCLUDE_DELETED | DELETED_FILTER_ONLY_DELETED | DELETED_FILTER_INCLUDE_ALL.

Record ListRequest := MkListRequest {
  lq_FeedId : Z; lq_Origin : ProtoOrigin; lq_PublishedAfter : option Z; lq_PublishedBefore : option Z;
  lq_DeletedFilter : DeletedFilter; lq_Query : string; lq_PageSize : Z; lq_PageToken : string }.
Record ListResponse := MkListResponse { lr_Items : list ProtoItem; lr_NextPageToken : string; lr_TotalCount : Z }.

Section listing.
Context (fts : string -> ItemRow -> bool) (word : Z -> bool).

Definition itemSearchMaxTerms : nat := 12.
Definition flush_term (terms : list string) (cur : string) : list string := if is_empty cur then terms else (terms ++ [cur])%list.
Fixpoint search_terms (terms : list string) (cur : string) (rs : list Z) : list string :=
  match rs with
  | [] => take itemSearchMaxTerms (flush_term terms cur)
  | r :: rs =>
      if word r then search_terms terms (cur ++ encode_rune r) rs
      else let terms := flush_term terms cur in
           if (itemSearchMaxTerms <=? length terms)%nat then terms else search_terms terms "" rs
  end.
Definition itemSearchTerms (raw : string) : list string := search_terms [] "" (runes raw).
Definition itemFTSQuery (raw : string) : string :=
  Join ((fun term => String dquote (term ++ String dquote "*")) <$> itemSearchTerms raw) " ".

Definition text_of (r : ItemRow) : string := formatTime (i_published_at r).

(** The filters of the request, without the cursor. *)
Definition list_matches (q : ListRequest) (r : ItemRow) : bool :=
  ((lq_FeedId q =? 0) || (i_feed_id r =? lq_FeedId q))
  && (let o := itemOriginToModelString (lq_Origin q) in is_empty o || String.eqb (i_origin r) o)
  && match lq_PublishedAfter q with None => true | Some t => str_ltb (formatTime t) (text_of r) end
  && match lq_PublishedBefore q with None => true | Some t => str_ltb (text_of r) (formatTime t) end
  && match lq_DeletedFilter q with
     | DELETED_FILTER_ONLY_DELETED => bool_decide (i_deleted_at r <> None)
     | DELETED_FILTER_INCLUDE_ALL => true
     | _ => bool_decide (i_deleted_at r = None)
     end
  && (let m := itemFTSQuery (lq_Query q) in is_empty m || fts m r).

Definition cursor_after (cur : option (Z * Z)) (r : ItemRow) : bool :=
  match cur with
  | None => true
  | Some (t, id) => str_ltb (text_of r) (formatTime t) || (String.eqb (text_of r) (formatTime t) && (i_id r <? id))
  end.

(** [ORDER BY published_at DESC, id DESC]. *)
Definition listed_before (a b : ItemRow) : bool := str_ltb (text_of b) (text_of a) || (String.eqb (text_of b) (text_of a) && (i_id b <? i_id a)).
Fixpoint insert_listed (r : ItemRow) (l : list ItemRow) : list ItemRow :=
  match l with [] => [r] | x :: l' => if listed_before r x then r :: l else x :: insert_listed r l' end.
Definition order_listed (t : list ItemRow) : list ItemRow := foldr insert_listed [] t.

Definition itemCountMatching (q : ListRequest) (d : Content) : Z := Z.of_nat (length (filter (fun r => list_matches q r = true) (items d))).

Definition ItemService_List (q : ListRequest) (s : ItemServer) : result item_code ListResponse :=
  let d := content s in
  let pageSize := Z.to_nat (page_size (lq_PageSize q) itemDefaultPageSize itemMaxPageSize) in
  match (if is_empty (lq_PageToken q) then Some None else option_map Some (itemDecodePageToken (lq_PageToken q))) with
  | None => Err InvalidArgument
  | Some cur =>
      let found := take (pageSize + 1) (order_listed (filter (fun r => list_matches q r && cursor_after cur r = true) (items d))) in
      let its := itemScanRow <$> found in
      if (pageSize <? length its)%nat then
        match nth_error its (pageSize - 1) with
        | Some last => Ok (MkListResponse (itemToProto <$> take pageSize its) (itemEncodePageToken (PublishedAt last) (ID last)) (itemCountMatching q d))
        | None => Err InternalError
        end
      else Ok (MkListResponse (itemToProto <$> its) "" (itemCountMatching q d))
  end.
End listing.

(** *** The history of an item *)

Definition itemRevisionDefaultPageSize : Z := 20.
Definition itemRevisionMaxPageSize : Z := 100.

Definition itemRevisionEncodePageToken (t : Z) : string := url64_encode (formatTime t).
Definition itemRevisionDecodePageToken (tok : string) : option Z := raw ← url64_decode tok; itemParseTime raw.

Record ListRevisionsResponse := MkListRevisionsResponse { rr_Revisions : list ItemRevision; rr_NextPageToken : string }.

(** [SELECT DISTINCT at ... ORDER BY at DESC]. *)
Fixpoint insert_at (a : string) (l : list string) : list string :=
  match l with
  | [] => [a]
  | x :: l' => if str_ltb x a then a :: l else if String.eqb x a then l else x :: insert_at a l'
  end.
Definition revision_ats (item : Z) (t : list RevisionRow) : list string :=
  foldr insert_at [] (v_at <$> filter (fun r => (v_item_id r =? item) = true) t).

Fixpoint load_revisions (item : Z) (ats : list string) (t : list RevisionRow) : result item_code (list ItemRevision) :=
  match ats with
  | [] => Ok []
  | a :: ats =>
      match itemLoadRevisionFields item a t with
      | Err _ => Err InternalError
      | Ok rev => match load_revisions item ats t with Ok l => Ok (rev :: l) | Err e => Err e end
      end
  end.

Definition ListRevisions (itemID pageSizeAsked : Z) (pageToken : string) (s : ItemServer) : result item_code ListRevisionsResponse :=
  if itemID =? 0 then Err InvalidArgument
  else match itemLoadByID itemID (content s) with
  | None => Err ItemNotFound
  | Some _ =>
      let pageSize := Z.to_nat (page_size pageSizeAsked itemRevisionDefaultPageSize itemRevisionMaxPageSize) in
      match (if is_empty pageToken then Some None else option_map Some (itemRevisionDecodePageToken pageToken)) with
      | None => Err InvalidArgument
      | Some cur =>
          let ok a := match cur with None => true | Some t => str_ltb a (formatTime t) end in
          let ats := take (pageSize + 1) (filter (fun a => ok a = true) (revision_ats itemID (revisions s))) in
          let next := if (pageSize <? length ats)%nat
                      then match nth_error ats (pageSize - 1) with
                           | Some a => match itemParseTime a with Some t => Some (itemRevisionEncodePageToken t, take pageSize ats) | None => None end
                           | None => None
                           end
                      else Some ("", ats) in
          match next with
          | None => Err InternalError
          | Some (token, ats) =>
              match load_revisions itemID ats (revisions s) with
              | Err e => Err e
              | Ok l => Ok (MkListRevisionsResponse l token)
              end
          end
      end
  end.

End handlers.
