(* ===== verification/ItemHistory.v ===== *)
(** * What the item service promises

    The invariant of its tables under every call, the life of an item across
    edits, deletions and corrections, the history of edits and its reversal, and
    the listings. *)

From S2P Require Import Prelude GoTime GoStrings Utf8 Timestamps TimeRead Sanitize Tables Schema StoreItems StoreRuns StoreSamples StoreHistory Password Paging ItemService.
From Stdlib Require Import String Ascii.
Local Open Scope string_scope.
Local Open Scope Z_scope.
Local Abbreviation length := List.length.

(** ** Edits *)

Lemma find_at_version id v (t : list ItemRow) r :
  table_ok t -> List.find (at_version id v) t = Some r <-> r ∈ t /\ i_id r = id /\ i_version r = v.
Proof.
  intros Ht. split.
  - intros [Hr Hv]%find_hit. unfold at_version in Hv. bools. done.
  - intros (Hr & Hi & Hv). destruct (List.find (at_version id v) t) as [r'|] eqn:E.
    + apply find_hit in E as [Hr' Hv']. unfold at_version in Hv'. bools. f_equal. eapply (ids_inj t); [done..|]. cbv [row_id row_item]. congruence.
    + exfalso. eapply find_none in E; [|by apply list_elem_of_In]. unfold at_version in E. by rewrite Hi, Hv, !Z.eqb_refl in E.
Qed.

(** The row of one item, changed. *)
Definition change_item (id : Z) (f : ItemRow -> ItemRow) (d : Content) : Content :=
  set_items (update_where (fun r => i_id r =? id) f (items d)) d.

Lemma update_at_version id v f r d :
  content_ok d -> r ∈ items d -> i_id r = id -> i_version r = v ->
  set_items (update_where (at_version id v) f (items d)) d = change_item id f d.
Proof.
  intros Hd Hr Hi Hv. unfold change_item. f_equal. unfold update_where. apply list_fmap_ext. intros i x Hx%list_elem_of_lookup_2.
  unfold at_version. destruct (i_id x =? id) eqn:E; [|done]. bools.
  assert (x = r) as -> by (eapply (ids_inj (items d)); [apply Hd|done..|]; cbv [row_id row_item]; congruence).
  by rewrite Hv, Z.eqb_refl.
Qed.

Lemma find_changed id f d r :
  content_ok d -> r ∈ items d -> i_id r = id -> (forall x, i_id (f x) = i_id x) -> find_id id (items (change_item id f d)) = Some (f r).
Proof.
  intros Hd Hr Hi Hf. apply find_id_Some.
  - unfold change_item. cbn. apply table_ok_update; [done|apply Hd].
  - unfold change_item. cbn. split; [|cbv [row_id row_item]; by rewrite Hf].
    unfold update_where. apply list_elem_of_fmap. exists r. rewrite Hi, Z.eqb_refl. done.
Qed.

Lemma load_row id d r : content_ok d -> r ∈ items d -> i_id r = id -> itemLoadByID id d = Some (itemScanRow r).
Proof. intros Hd Hr Hi. unfold itemLoadByID. rewrite (proj2 (find_id_Some id (items d) r (ok_items d Hd))); [done|by split]. Qed.

Lemma load_some id d it : itemLoadByID id d = Some it -> exists r, r ∈ items d /\ i_id r = id /\ it = itemScanRow r.
Proof.
  unfold itemLoadByID. destruct (find_id id (items d)) as [r|] eqn:E; [|done]. intros [= <-]. apply find_id_elem in E as [Hr Hi]. by exists r.
Qed.

(** No other row of the feed is published at the same text. *)
Definition slot_free (now : Z) (updated : Item) (r : ItemRow) (d : Content) : Prop :=
  forall x, x ∈ items d -> i_id x <> i_id r -> key_published x <> key_published (edit_item_row now updated r).

(** What an edit does, in every case. *)
Lemma itemApplyEdit_spec old updated v now s :
  content_ok (content s) ->
  match itemApplyEdit old updated v now s with
  | (Ok out, s') => exists r, r ∈ items (content s) /\ i_id r = ID old /\ i_version r = v /\ slot_free now updated r (content s)
      /\ out = itemScanRow (edit_item_row now updated r)
      /\ s' = set_revisions (insert_revisions (ID old) (formatTime now) (itemDiff old updated) (revisions s))
                (set_content (change_item (ID old) (edit_item_row now updated) (content s)) s)
  | (Err e, s') => s' = s /\
      match e with
      | ItemNotFound => ID old ∉ ids (items (content s))
      | FailedPrecondition => exists r, r ∈ items (content s) /\ i_id r = ID old /\ i_version r <> v
      | _ => e = InternalError /\ exists r, r ∈ items (content s) /\ i_id r = ID old /\ i_version r = v /\ ~ slot_free now updated r (content s)
      end
  end.
Proof.
  intros Hd. unfold itemApplyEdit. cbv zeta. destruct (List.find _ _) as [r|] eqn:Ef.
  - apply find_at_version in Ef as (Hr & Hi & Hv); [|apply Hd]. destruct (existsb _ _) eqn:Ex.
    + split; [done|]. split; [done|]. exists r. split_and!; [done..|]. intros Hs. apply existsb_exists in Ex as (x & Hx & He).
      apply list_elem_of_In in Hx. bools. by apply (Hs x).
    + rewrite (update_at_version _ _ _ r) by done. unfold itemLoadByID. rewrite (find_changed _ _ _ r) by done.
      exists r. split_and!; [done..| |done|done].
      intros x Hx Hne He. rewrite <- not_true_iff_false in Ex. apply Ex. apply existsb_exists. exists x. split; [by apply list_elem_of_In|].
      apply andb_true_iff. split; [by apply negb_true_iff, Z.eqb_neq|by apply bool_decide_eq_true].
  - unfold itemVersionConflictErr. destruct (find_id (ID old) (items (content s))) as [r|] eqn:E.
    + split; [done|]. apply find_id_elem in E as [Hr Hi]. exists r. split_and!; [done..|]. intros Hv.
      assert (List.find (at_version (ID old) v) (items (content s)) = Some r) by (apply find_at_version; [apply Hd|done]). congruence.
    + split; [done|]. by apply find_id_None.
Qed.

(** An edit of one row that keeps its identity keeps the schema. *)
Lemma change_item_ok id f r d :
  content_ok d -> r ∈ items d -> i_id r = id ->
  (forall x, i_id (f x) = i_id x /\ i_item_key (f x) = i_item_key x /\ i_feed_id (f x) = i_feed_id x /\
             i_content_hash (f x) = i_content_hash x /\ i_run_id (f x) = i_run_id x /\ i_origin (f x) = i_origin x) ->
  (forall x, x ∈ items d -> i_id x <> id -> key_published x <> key_published (f r)) -> content_ok (change_item id f d).
Proof.
  intros Hd Hr Hi Hf Hp. apply update_items_ok; [done|intros x; destruct (Hf x) as (?&?&?&?&?&?); auto| |].
  - intros x _. by destruct (Hf x) as (_&_&_&_&_& ->).
  - apply (distinct_update_one key_published (H := row_item)); [apply Hd|apply Hd|intros x _; apply Hf| |].
    + intros r1 r2 H1 H2 E1 E2. bools. eapply (ids_inj (items d)); [apply Hd|done..|]. cbv [row_id row_item]. congruence.
    + intros r1 r2 H1 H2 E1 E2. bools. intros He. apply (Hp r2 H2 E2). rewrite <- He. f_equal. f_equal.
      eapply (ids_inj (items d)); [apply Hd|done..|]. cbv [row_id row_item]. congruence.
Qed.

Lemma change_item_evolves id f d :
  (forall x, item_evolves x (f x)) -> evolves d (change_item id f d).
Proof. intros Hf. apply evolves_update_items. intros r _. apply Hf. Qed.

(** ** Deletions *)

Lemma affected_zero {R} (p : R -> bool) (t : list R) : (affected p t =? 0)%nat = true <-> forall r, r ∈ t -> p r = false.
Proof.
  unfold affected. rewrite Nat.eqb_eq. split.
  - intros H r Hr. destruct (p r) eqn:E; [|done]. apply nil_length_inv in H.
    assert (Hin : r ∈ filter (fun x => p x = true) t) by (by apply list_elem_of_filter). rewrite H in Hin. by apply elem_of_nil in Hin.
  - intros H. destruct (filter _ t) as [|r l] eqn:E; [done|]. exfalso. assert (Hin : r ∈ filter (fun x => p x = true) t) by (rewrite E; left).
    apply list_elem_of_filter in Hin as [Hp Hr]. rewrite H in Hp; done.
Qed.

Lemma set_deleted_spec now del id v s :
  content_ok (content s) ->
  match set_deleted now del id v s with
  | (Ok feed, s') => exists r, r ∈ items (content s) /\ i_id r = id /\ i_version r = v /\ feed = i_feed_id r
      /\ s' = invalidate_feed feed (set_content (change_item id (tombstone now del) (content s)) s)
  | (Err e, s') => s' = s /\
      match e with
      | ItemNotFound => id ∉ ids (items (content s))
      | _ => e = FailedPrecondition /\ exists r, r ∈ items (content s) /\ i_id r = id /\ i_version r <> v
      end
  end.
Proof.
  intros Hd. unfold set_deleted. destruct (itemLoadByID id (content s)) as [old|] eqn:El.
  - apply load_some in El as (r & Hr & Hi & ->). destruct (affected _ _ =? 0)%nat eqn:Ea.
    + pose proof (proj1 (affected_zero _ _) Ea r Hr) as Hv. unfold at_version in Hv. rewrite Hi, Z.eqb_refl in Hv. cbn in Hv. bools.
      unfold itemVersionConflictErr. rewrite (proj2 (find_id_Some id _ r (ok_items _ Hd)) (conj Hr Hi)). split; [done|]. split; [done|]. by exists r.
    + destruct (decide (i_version r = v)) as [Hv|Hv].
      * rewrite (update_at_version _ _ _ r) by done. exists r. done.
      * exfalso. rewrite <- not_true_iff_false in Ea. apply Ea, affected_zero. intros x Hx. unfold at_version.
        destruct (i_id x =? id) eqn:E; [|done]. bools. assert (x = r) as -> by (eapply (ids_inj (items (content s))); [apply Hd|done..|]; cbv [row_id row_item]; congruence).
        cbn. by apply Z.eqb_neq.
  - split; [done|]. unfold itemLoadByID in El. apply find_id_None. by destruct (find_id id _).
Qed.

(** ** New items *)

Definition append_item (r : ItemRow) (d : Content) : Content := set_items (items d ++ [r])%list d.

Lemma create_loop_spec n clk it published d id d' :
  content_ok d -> create_loop n clk it published d = Ok (id, d') ->
  exists k clock, (k <= n)%nat /\ content_ok d' /\ id = next_id (items d)
    /\ d' = append_item (new_item_row id clock (truncatePublishedAt (published + Z.of_nat k * second)) None it) d.
Proof.
  intros Hd. revert published. induction n as [|n IH]; intros published H; cbn [create_loop] in H;
    destruct (InsertItem _ _ d) as [[i e]|e] eqn:E; try done.
  - injection H as -> ->. exists 0%nat, (clk 0%nat). pose proof (InsertItem_ok _ _ _ _ _ Hd E) as Hok.
    unfold InsertItem in E. apply rbind_Ok in E as (x & (-> & _)%insert_item_spec & [= <- <-]). rewrite Z.mul_0_l, Z.add_0_r. split_and!; done || lia.
  - injection H as -> ->. exists 0%nat, (clk (S n)). pose proof (InsertItem_ok _ _ _ _ _ Hd E) as Hok.
    unfold InsertItem in E. apply rbind_Ok in E as (x & (-> & _)%insert_item_spec & [= <- <-]). rewrite Z.mul_0_l, Z.add_0_r. split_and!; done || lia.
  - destruct (isUniquePublishedAtViolation e); [|done]. apply IH in H as (k & c & Hk & Hok & Hi & ->). exists (S k), c.
    replace (published + second + Z.of_nat k * second) with (published + Z.of_nat (S k) * second) in * by lia. split_and!; done || lia.
Qed.

Definition corrections_ok (s : ItemServer) : Prop :=
  NoDup (corrections s) /\ Forall (fun c => c_item_id c ∈ ids (items (content s)) /\ c_corrects_item_id c ∈ ids (items (content s))) (corrections s).

Lemma insert_correction_spec it stamp now cid s id s' :
  itemInsertCorrectionOnce it stamp now cid s = Ok (id, s') ->
  id = next_id (items (content s)) /\ insert_item (content s) (correction_row id it stamp now) = Ok (append_item (correction_row id it stamp now) (content s))
  /\ cid ∈ ids (items (append_item (correction_row id it stamp now) (content s))) /\ (MkCorrection id cid ∉ corrections s)
  /\ s' = set_corrections (corrections s ++ [MkCorrection id cid])%list (set_content (append_item (correction_row id it stamp now) (content s)) s).
Proof.
  unfold itemInsertCorrectionOnce. cbv zeta. intros H. apply rbind_Ok in H as (d1 & Hi & H). pose proof Hi as (-> & _)%insert_item_spec.
  case_bool_decide as Hc; cbn [negb] in H; [|done]. destruct (existsb _ _) eqn:Ex; [done|]. injection H as <- <-. split_and!; try done.
  intros Hin. rewrite <- not_true_iff_false in Ex. apply Ex, existsb_exists. exists (MkCorrection (next_id (items (content s))) cid).
  split; [by apply list_elem_of_In|]. cbn. by rewrite !Z.eqb_refl.
Qed.

Lemma correction_loop_spec n it stamp now cid s id s' :
  correction_loop n it stamp now cid s = Ok (id, s') ->
  exists k, (k <= n)%nat /\ itemInsertCorrectionOnce it (stamp + Z.of_nat k * second) now cid s = Ok (id, s').
Proof.
  revert stamp. induction n as [|n IH]; intros stamp H; cbn [correction_loop] in H; destruct (itemInsertCorrectionOnce _ _ _ _ s) as [[i e]|e] eqn:E; try done.
  - injection H as -> ->. exists 0%nat. rewrite Z.mul_0_l, Z.add_0_r. split; [lia|done].
  - injection H as -> ->. exists 0%nat. rewrite Z.mul_0_l, Z.add_0_r. split; [lia|done].
  - destruct (isUniquePublishedAtViolation e); [|done]. apply IH in H as (k & Hk & H). exists (S k). split; [lia|].
    by replace (stamp + Z.of_nat (S k) * second) with (stamp + second + Z.of_nat k * second) by lia.
Qed.

(** ** Revisions *)

(** The rows an edit adds. *)
Fixpoint revision_rows (id item : Z) (at_ : string) (l : list itemRevisionEdit) : list RevisionRow :=
  match l with [] => [] | e :: l => MkRevision id item at_ (ed_field e) (ed_old e) (ed_new e) :: revision_rows (id + 1) item at_ l end.

Lemma next_id_append `{Row R} (t : list R) r : row_id r = next_id t -> next_id (t ++ [r]) = next_id t + 1.
Proof.
  intros Hr. unfold next_id at 1. rewrite ids_app, foldr_app. change (foldr Z.max 0 (ids [r])) with (Z.max (row_id r) 0). rewrite Hr.
  unfold next_id. assert (Hm : forall l m, foldr Z.max m l = Z.max m (foldr Z.max 0 l) \/ m < 0).
  { induction l as [|x l IH]; intros m; cbn; [lia|]. destruct (IH m); lia. }
  pose proof (next_id_pos t) as Hp. unfold next_id in Hp. destruct (Hm (ids t) (Z.max (foldr Z.max 0 (ids t) + 1) 0)) as [-> |?]; lia.
Qed.

Lemma insert_revisions_rows item at_ l t : insert_revisions item at_ l t = (t ++ revision_rows (next_id t) item at_ l)%list.
Proof.
  revert t. induction l as [|e l IH]; intros t; cbn [insert_revisions revision_rows]; [by rewrite app_nil_r|].
  rewrite IH, <- app_assoc. rewrite next_id_append by done. done.
Qed.

Lemma insert_revisions_ok item at_ l t : table_ok t -> table_ok (insert_revisions item at_ l t).
Proof. revert t. induction l as [|e l IH]; intros t Ht; [done|]. cbn [insert_revisions]. apply IH. by apply table_ok_insert. Qed.

Lemma revision_rows_item id item at_ l r : r ∈ revision_rows id item at_ l -> v_item_id r = item /\ v_at r = at_ /\ id <= v_id r.
Proof.
  revert id. induction l as [|e l IH]; intros id; cbn; [by intros ?%elem_of_nil|]. intros [->|H]%elem_of_cons; [cbn; split_and!; done || lia|].
  apply IH in H as (?&?&?). split_and!; done || lia.
Qed.

(** ** The invariant *)

Record service_ok (s : ItemServer) : Prop := {
  sok_content : content_ok (content s);
  sok_revisions : table_ok (revisions s);
  sok_revision_item : Forall (fun r => v_item_id r ∈ ids (items (content s))) (revisions s);
  sok_corrections : corrections_ok s }.

(** What a call leaves of what there was: items keep their identity, versions do
    not go down, and the history, the corrections and the log only grow. *)
Record keeps (s s' : ItemServer) : Prop := {
  kp_content : evolves (content s) (content s');
  kp_revisions : exists l, revisions s' = (revisions s ++ l)%list;
  kp_corrections : exists l, corrections s' = (corrections s ++ l)%list;
  kp_invalidated : exists l, invalidated s' = (invalidated s ++ l)%list;
  kp_stamp : lastEditAt s <= lastEditAt s' }.

#[export] Instance keeps_preorder : PreOrder keeps.
Proof.
  split.
  - intros s. split; [reflexivity|exists []; by rewrite app_nil_r..|lia].
  - intros a b c [H1 [l1 E1] [l2 E2] [l3 E3] H5] [K1 [m1 F1] [m2 F2] [m3 F3] K5]. split; [by etrans| | | |lia].
    + exists (l1 ++ m1)%list. by rewrite F1, E1, app_assoc.
    + exists (l2 ++ m2)%list. by rewrite F2, E2, app_assoc.
    + exists (l3 ++ m3)%list. by rewrite F3, E3, app_assoc.
Qed.

(** Other components' writes, and the log, do not touch the service's own tables. *)
Lemma set_content_ok d s : content_ok d -> evolves (content s) d -> service_ok s -> service_ok (set_content d s) /\ keeps s (set_content d s).
Proof.
  intros Hd He [Hc Hr Hri [Hn Hco]].
  assert (Hids : forall i, i ∈ ids (items (content s)) -> i ∈ ids (items d)).
  { intros i Hi. destruct He as [(old & new & E & F) _ _ _]. rewrite E, ids_app. apply elem_of_app. left.
    unfold ids in *. apply list_elem_of_fmap in Hi as (r & -> & Hin). apply list_elem_of_lookup in Hin as [j Hj].
    destruct (Forall2_lookup_l _ _ _ _ _ F Hj) as (r' & Hr' & He). apply list_elem_of_fmap. exists r'. split; [|by eapply list_elem_of_lookup_2].
    cbv [row_id row_item]. by destruct He as (-> & _). }
  split; [split; cbn; [done|done| |split; [done|]]|split; cbn; [done|exists []; by rewrite app_nil_r..|lia]].
  - eapply Forall_impl; [exact Hri|]. intros r. apply Hids.
  - eapply Forall_impl; [exact Hco|]. intros c [H1 H2]. split; by apply Hids.
Qed.

Lemma log_ok l s : service_ok s -> service_ok (log_invalidated l s) /\ keeps s (log_invalidated l s).
Proof.
  intros [Hc Hr Hri Hco]. split; [by split|]. split; cbn; [reflexivity|exists []; by rewrite app_nil_r..|by exists l|lia].
Qed.

Lemma invalidate_slug_ok slug s : service_ok s -> service_ok (invalidate_slug slug s) /\ keeps s (invalidate_slug slug s).
Proof. intros Hs. unfold invalidate_slug. destruct (is_empty slug); [split; [done|reflexivity]|by apply log_ok]. Qed.
Lemma invalidate_feed_ok feed s : service_ok s -> service_ok (invalidate_feed feed s) /\ keeps s (invalidate_feed feed s).
Proof. intros Hs. unfold invalidate_feed. destruct (itemFeedSlug _ _); [by apply invalidate_slug_ok|split; [done|reflexivity]]. Qed.

Lemma edit_stamp_later now last : last < edit_stamp now last.
Proof. unfold edit_stamp. cbv zeta. destruct (Z.ltb_spec last now); cbn [negb]; case_match; lia. Qed.

Lemma set_stamp_ok t s : lastEditAt s <= t -> service_ok s -> service_ok (set_stamp t s) /\ keeps s (set_stamp t s).
Proof. intros Ht [Hc Hr Hri Hco]. split; [by split|]. split; cbn; [reflexivity|exists []; by rewrite app_nil_r..|done]. Qed.

Definition sound (s s' : ItemServer) : Prop := service_ok s -> service_ok s' /\ keeps s s'.
#[export] Instance sound_preorder : PreOrder sound.
Proof.
  split; [intros s Hs; split; [done|reflexivity]|]. intros a b c H1 H2 Hs. destruct (H1 Hs) as [Hb K1]. destruct (H2 Hb) as [Hc K2]. split; [done|by etrans].
Qed.

Lemma edit_evolves now it r : item_evolves r (edit_item_row now it r).
Proof. unfold item_evolves. cbn. split_and!; done || lia. Qed.
Lemma tombstone_evolves now del r : item_evolves r (tombstone now del r).
Proof. unfold item_evolves. cbn. split_and!; done || lia. Qed.

Lemma applied_ok old updated now r s :
  r ∈ items (content s) -> i_id r = ID old -> slot_free now updated r (content s) ->
  sound s (set_revisions (insert_revisions (ID old) (formatTime now) (itemDiff old updated) (revisions s))
             (set_content (change_item (ID old) (edit_item_row now updated) (content s)) s)).
Proof.
  intros Hr Hi Hfree Hs. set (d := change_item (ID old) (edit_item_row now updated) (content s)).
  assert (Hd : content_ok d).
  { apply (change_item_ok _ _ r); [apply Hs|done|done|done|]. intros x Hx Hne. apply Hfree; [done|congruence]. }
  assert (He : evolves (content s) d) by (apply change_item_evolves; intros; apply edit_evolves).
  destruct (set_content_ok d s Hd He Hs) as [[Hc Ht Hri Hco] Hk]. split.
  - split; [done|by apply insert_revisions_ok| |done]. cbn [revisions set_revisions content]. rewrite insert_revisions_rows.
    apply Forall_app. split; [done|]. apply Forall_forall. intros v (-> & _)%revision_rows_item.
    unfold d, change_item. cbn [content set_revisions set_content items set_items]. rewrite ids_update by done. rewrite <- Hi. by apply list_elem_of_fmap_2.
  - etrans; [exact Hk|]. split; cbn; [reflexivity| |exists []; by rewrite app_nil_r..|lia]. rewrite insert_revisions_rows. by eexists.
Qed.

Section calls.
Context (sha256hex : string -> string) (lenient : string -> option Z) (candidates_of : string -> option (list SampleCandidate)).

(** One call of the service, or one write of another component. *)
Inductive item_call : ItemServer -> ItemServer -> Prop :=
| call_Create mid now key clk in_ s :
    rtc content_step (content s) (mid (content s)) -> item_call s (Create sha256hex mid now key clk in_ s).2
| call_Update now in_ v s : item_call s (Update now in_ v s).2
| call_Delete now id v s : item_call s (Delete now id v s).2
| call_Restore now id v s : item_call s (Restore now id v s).2
| call_Promote now g clock clk key sample cand s :
    item_call s (ItemService_PromoteSample sha256hex candidates_of now g clock clk key sample cand s).2
| call_Correction now key id title summary body s : item_call s (PublishCorrection sha256hex now key id title summary body s).2
| call_Revert now id rev v s : item_call s (RevertRevision lenient now id rev v s).2
| call_write d s : content_step (content s) d -> item_call s (set_content d s).

Lemma content_sound s d : rtc content_step (content s) d -> sound s (set_content d s).
Proof.
  intros H Hs. pose proof (sok_content s Hs) as Hc. apply set_content_ok; [by eapply history_ok|by apply history_evolves|done].
Qed.

Lemma step_sound s d : content_ok d -> evolves (content s) d -> sound s (set_content d s).
Proof. intros Hd He Hs. by apply set_content_ok. Qed.

Lemma slug_sound slug s : sound s (invalidate_slug slug s).
Proof. intros Hs. by apply invalidate_slug_ok. Qed.
Lemma feed_sound feed s : sound s (invalidate_feed feed s).
Proof. intros Hs. by apply invalidate_feed_ok. Qed.
Lemma stamp_sound now s : sound s (set_stamp (edit_stamp now (lastEditAt s)) s).
Proof. intros Hs. apply set_stamp_ok; [|done]. pose proof (edit_stamp_later now (lastEditAt s)). lia. Qed.

Lemma edit_sound old updated v now s : sound s (itemApplyEdit old updated v now s).2.
Proof.
  intros Hs. pose proof (itemApplyEdit_spec old updated v now s (sok_content s Hs)) as H.
  destruct (itemApplyEdit old updated v now s) as [[out|e] s']; cbn [snd].
  - destruct H as (r & Hr & Hi & _ & Hf & _ & ->). by apply (applied_ok old updated now r).
  - destruct H as [-> _]. split; [done|reflexivity].
Qed.

(** The end of an edit: the stamp, the write and the invalidation. *)
Lemma commit_sound old updated v now s :
  sound s (let (stamp, s) := editStamp now s in
           match itemApplyEdit old updated v stamp s with
           | (Err e, s) => (Err e, s)
           | (Ok out, s) => (Ok (itemToProto out), invalidate_feed (FeedID old) s)
           end).2.
Proof.
  unfold editStamp. cbv zeta. etrans; [apply (stamp_sound now)|]. set (s1 := set_stamp _ s). set (stamp := edit_stamp now (lastEditAt s)).
  pose proof (edit_sound old updated v stamp s1) as H. destruct (itemApplyEdit old updated v stamp s1) as [[out|e] s2]; cbn [snd] in *; [|done].
  etrans; [exact H|apply feed_sound].
Qed.

Lemma update_sound now in_ v s : sound s (Update now in_ v s).2.
Proof.
  unfold Update. destruct in_ as [p|]; [|reflexivity]. cbv zeta. destruct (_ =? 0); [reflexivity|]. destruct (is_empty _); [reflexivity|].
  destruct (itemLoadByID _ _) as [old|]; [|reflexivity]. destruct (update_published _ _ _) as [t|e]; [|reflexivity]. apply commit_sound.
Qed.

Lemma revert_sound now id rev v s : sound s (RevertRevision lenient now id rev v s).2.
Proof.
  unfold RevertRevision. destruct (_ =? 0); [reflexivity|]. destruct (_ =? 0); [reflexivity|]. destruct (itemLoadByID _ _) as [old|]; [|reflexivity].
  destruct (itemRevisionGroupAt _ _ _); [|reflexivity]. destruct (itemLoadRevisionFields _ _ _ _) as [r|]; [|reflexivity].
  destruct (apply_changes _ _ _) as [updated|]; [|reflexivity]. destruct (is_empty _); [reflexivity|]. destruct (revert_published _ _ _); [reflexivity|].
  apply commit_sound.
Qed.

Lemma set_deleted_sound now del id v s : sound s (set_deleted now del id v s).2.
Proof.
  intros Hs. pose proof (set_deleted_spec now del id v s (sok_content s Hs)) as H. destruct (set_deleted now del id v s) as [[feed|e] s']; cbn [snd].
  - destruct H as (r & Hr & Hi & _ & _ & ->). set (d := change_item id (tombstone now del) (content s)).
    assert (Hd : content_ok d).
    { apply (change_item_ok _ _ r); [apply Hs|done|done|done|]. intros x Hx Hne He. apply Hne. rewrite <- Hi. f_equal.
      apply (distinct_inj key_published (items (content s))); [apply (sok_content s Hs)|done|done|exact He]. }
    assert (He : evolves (content s) d) by (apply change_item_evolves; intros; apply tombstone_evolves).
    destruct (set_content_ok d s Hd He Hs) as [H1 K1]. destruct (feed_sound feed (set_content d s) H1) as [H2 K2]. split; [done|by etrans].
  - destruct H as [-> _]. split; [done|reflexivity].
Qed.

Lemma append_evolves r d : evolves d (append_item r d).
Proof. eapply evolves_append; cbn; first [reflexivity | symmetry; apply app_nil_r]. Qed.

Lemma create_sound mid now key clk in_ s :
  rtc content_step (content s) (mid (content s)) -> sound s (Create sha256hex mid now key clk in_ s).2.
Proof.
  intros Hmid. unfold Create. destruct in_ as [p|]; [|reflexivity]. cbv zeta. destruct (_ =? 0); [reflexivity|]. destruct (is_empty _); [reflexivity|].
  destruct (itemFeedSlug _ _) as [slug|]; [|reflexivity]. destruct (itemValidatePublishedAt _); [reflexivity|]. destruct (itemRejectBackdated _ _); [reflexivity|].
  etrans; [by apply content_sound|]. set (s1 := set_content (mid (content s)) s). destruct (create_loop _ _ _ _ _) as [[id d]|e] eqn:E; [|reflexivity].
  cbn [snd]. etrans; [|apply slug_sound]. intros Hs. pose proof (sok_content s1 Hs) as Hc.
  apply create_loop_spec in E as (k & c & _ & Hok & _ & ->); [|done]. apply set_content_ok; [done|apply append_evolves|done].
Qed.

Lemma promote_evolves n clk sid it stamp d id d' : promote_loop n clk sid it stamp d = Ok (id, d') -> evolves d d'.
Proof.
  revert stamp. induction n as [|n IH]; intros stamp H; cbn [promote_loop] in H; destruct (promoteOnce _ _ _ _ d) as [[i e]|e] eqn:E; try done.
  1, 2: injection H as -> ->; unfold promoteOnce in E; apply rbind_Ok in E as (x & Hx & E); destruct (_ =? 0)%nat; [done|]; injection E as <- <-;
    etrans; [by eapply evolves_insert_item|apply evolves_set_samples].
  destruct (isUniquePublishedAtViolation e); [|done]. by eapply IH.
Qed.

Lemma promote_sound now g clock clk key sample cand s :
  sound s (ItemService_PromoteSample sha256hex candidates_of now g clock clk key sample cand s).2.
Proof.
  unfold ItemService_PromoteSample. cbv zeta. destruct (Atoi sample) as [sid|]; [|reflexivity]. destruct (find_id sid _) as [row|]; [|reflexivity].
  destruct (itemFeedSlug _ _) as [slug|]; [|reflexivity]. destruct (GetSample _ _ _) as [sm|[]]; try reflexivity.
  destruct (itemFindCandidate _ _ _) as [c|]; [|reflexivity]. destruct (PromoteSample _ _ _ _ _) as [[id d]|[]] eqn:E; try reflexivity.
  assert (Hs : sound s (invalidate_slug slug (set_content d s))).
  { etrans; [|apply slug_sound]. intros Hs. apply set_content_ok; [|  |done].
    - eapply promote_from_ok; [apply (sok_content s Hs)|exact E].
    - unfold PromoteSample, promote_from in E. destruct (find_id _ _); [|done]. by eapply promote_evolves. }
  destruct (itemLoadByID _ _) as [out|]; [|exact Hs]. destruct (itemValidatePublishedAt _); exact Hs.
Qed.

Lemma correction_sound now key id title summary body s : sound s (PublishCorrection sha256hex now key id title summary body s).2.
Proof.
  unfold PublishCorrection. cbv zeta. destruct (_ =? 0); [reflexivity|]. destruct (is_empty _); [reflexivity|]. destruct (itemLoadByID _ _) as [original|]; [|reflexivity].
  destruct (itemFeedSlug _ _) as [slug|]; [|reflexivity]. destruct (itemValidatePublishedAt _); [reflexivity|].
  destruct (correction_loop _ _ _ _ _ _) as [[nid s1]|e] eqn:E; [|reflexivity]. cbn [snd]. etrans; [|apply slug_sound].
  apply correction_loop_spec in E as (k & _ & E). apply insert_correction_spec in E as (Hi & Hins & Hc & Hn & ->). intros Hs.
  set (row := correction_row _ _ _ _) in *.
  assert (Hok : content_ok (append_item row (content s))) by exact (insert_item_ok _ row _ (sok_content s Hs) Hi Hins).
  destruct (set_content_ok (append_item row (content s)) s Hok (append_evolves _ _) Hs) as [[Hc1 Hr1 Hri1 [Hn1 Hco1]] Hk]. split.
  - split; [done|done|done|]. split; cbn.
    + apply NoDup_app. split; [done|]. split; [|apply NoDup_singleton]. intros c Hcin ->%list_elem_of_singleton. done.
    + apply Forall_app. split; [done|]. constructor; [|constructor]. cbn. split; [|exact Hc]. change (nid ∈ ids (items (content s) ++ [row])%list). rewrite ids_app.
      apply elem_of_app. right. left.
  - etrans; [exact Hk|]. split; cbn; [reflexivity|exists []; by rewrite app_nil_r|by eexists|exists []; by rewrite app_nil_r|lia].
Qed.

Lemma call_sound s s' : item_call s s' -> sound s s'.
Proof.
  intros H. destruct H as [mid now key clk in_ s Hm|now in_ v s|now id v s|now id v s|now g clock clk key sample cand s|now key id t su b s|now id rev v s|d s Hd].
  - by apply create_sound.
  - apply update_sound.
  - unfold Delete. pose proof (set_deleted_sound now (Some now) id v s) as H. by destruct (set_deleted _ _ _ _ s) as [[f|e] s'].
  - unfold Restore. pose proof (set_deleted_sound now None id v s) as H. by destruct (set_deleted _ _ _ _ s) as [[f|e] s'].
  - apply promote_sound.
  - apply correction_sound.
  - apply revert_sound.
  - apply content_sound. by apply rtc_once.
Qed.

Lemma calls_sound s s' : rtc item_call s s' -> sound s s'.
Proof. intros H. induction H as [s|a b c H _ IH]; [reflexivity|]. etrans; [by apply call_sound|done]. Qed.

End calls.
