(* ===== verification/ItemEdits.v ===== *)
(** * The history of edits, and the listings of the item service

    Stamps of edits and the entries they make, reverting, what versions protect,
    where a new item lands in its feed, and following a listing page by page. *)

From S2P Require Import Prelude GoTime GoStrings Utf8 Timestamps TimeRead Sanitize Tables Schema StoreItems StoreRuns StoreSamples StoreHistory Password Paging ItemService ItemHistory.
From Stdlib Require Import String Ascii.
Local Open Scope string_scope.
Local Open Scope Z_scope.
Local Abbreviation length := List.length.

(** ** Stamps *)

(** An instant printed with all nine digits. *)
Definition nine_digits (t : Z) : Prop := nsec t mod 10 <> 0.

Lemma nsec_succ t : nsec t mod 10 = 0 -> nsec (t + 1) mod 10 <> 0.
Proof. unfold nsec, second. intros H. dlia. Qed.

Lemma edit_stamp_nine now last : nine_digits (edit_stamp now last).
Proof.
  unfold edit_stamp, nine_digits. cbv zeta. set (a := if negb _ then _ else _). destruct (nsec a mod 10 =? 0) eqn:E; bools; [by apply nsec_succ|done].
Qed.

(** Between such instants the order of the texts is the order in time. *)
Lemma nine_text_lt a b : four_digit a -> four_digit b -> nine_digits a -> nine_digits b -> a < b -> str_ltb (formatTime a) (formatTime b) = true.
Proof.
  intros Ha Hb Na Nb Hlt. unfold str_ltb. rewrite text_compare by done. pose proof (nsec_range a). pose proof (nsec_range b).
  pose proof (unix_nsec a). pose proof (unix_nsec b).
  destruct (Z.lt_trichotomy (unix a) (unix b)) as [H3|[H3|H3]]; [by rewrite then_cmp_lt| |unfold second in *; nia].
  rewrite then_cmp_eq by done. unfold nine_digits in *.
  assert (Hs : forall n, 0 <= n -> n mod 10 <> 0 -> show_frac n "Z" = String "." (pad 9 n "Z")).
  { intros n Hn0 Hn. unfold show_frac. destruct (Z.eqb_spec n 0) as [->|]; [done|]. cbn [frac_digits]. by apply Z.eqb_neq in Hn as ->. }
  rewrite !Hs by (done || lia). rewrite str_compare_same, str_compare_pad by (change (10 ^ Z.of_nat 9) with second; lia).
  rewrite then_cmp_lt; [done|]. unfold second in *. nia.
Qed.

(** Every row of the history carries the stamp of an edit already made. *)
Definition stamped (s : ItemServer) : Prop :=
  Forall (fun r => exists t, v_at r = formatTime t /\ four_digit t /\ nine_digits t /\ t <= lastEditAt s) (revisions s).

(** The stamp an edit gets, in a year of four digits. *)
Definition next_stamp (now : Z) (s : ItemServer) : Z := edit_stamp now (lastEditAt s).

Lemma stamp_is_new now s r : stamped s -> four_digit (next_stamp now s) -> r ∈ revisions s -> str_ltb (v_at r) (formatTime (next_stamp now s)) = true.
Proof.
  intros Hs Hf Hr. unfold stamped in Hs. rewrite Forall_forall in Hs. destruct (Hs r Hr) as (t & -> & H4 & H9 & Hle). pose proof (edit_stamp_later now (lastEditAt s)).
  apply nine_text_lt; [done..|apply edit_stamp_nine|unfold next_stamp; lia].
Qed.

Lemma str_ltb_irrefl a : str_ltb a a = false.
Proof. unfold str_ltb. by rewrite str_compare_refl. Qed.
Lemma str_ltb_trans a b c : str_ltb a b = true -> str_ltb b c = true -> str_ltb a c = true.
Proof.
  unfold str_ltb. destruct (String.compare a b) eqn:E1; try done. destruct (String.compare b c) eqn:E2; try done.
  by rewrite (str_compare_lt_trans _ _ _ E1 E2).
Qed.

(** *** Times of an item's edits, newest first *)

Lemma insert_at_elem a l x : x ∈ insert_at a l <-> x = a \/ x ∈ l.
Proof.
  induction l as [|y l IH]; cbn [insert_at]; [rewrite list_elem_of_singleton, elem_of_nil; tauto|].
  destruct (str_ltb y a); [by rewrite elem_of_cons|]. destruct (String.eqb_spec y a) as [->|]; [rewrite !elem_of_cons; tauto|].
  rewrite !elem_of_cons, IH. tauto.
Qed.

Lemma insert_at_newest a l : (forall x, x ∈ l -> str_ltb x a = true) -> insert_at a l = a :: l.
Proof. intros H. destruct l as [|y l]; [done|]. cbn. by rewrite (H y) by left. Qed.

Lemma insert_at_head a l : insert_at a (a :: l) = a :: l.
Proof. cbn. by rewrite str_ltb_irrefl, String.eqb_refl. Qed.


Lemma revision_rows_ats id item at_ l : v_at <$> filter (fun r => (v_item_id r =? item) = true) (revision_rows id item at_ l) = replicate (length l) at_.
Proof.
  revert id. induction l as [|e l IH]; intros id; [done|]. cbn [revision_rows]. rewrite filter_cons_True by (cbn; apply Z.eqb_refl). cbn. by rewrite IH.
Qed.

Lemma insert_at_comm_new a l t : (forall x, x ∈ l -> str_ltb x a = true) -> (forall x, x ∈ t -> str_ltb x a = true) -> foldr insert_at (a :: t) l = a :: foldr insert_at t l.
Proof.
  induction l as [|y l IH]; intros Hl Ht; [done|]. cbn [foldr]. rewrite IH; [|intros x Hx; apply Hl; by right|done].
  cbn [insert_at]. assert (Hy : str_ltb y a = true) by (apply Hl; left).
  destruct (str_ltb a y) eqn:E. { pose proof (str_ltb_trans _ _ _ Hy E) as H. by rewrite str_ltb_irrefl in H. }
  destruct (String.eqb_spec a y) as [->|]; [by rewrite str_ltb_irrefl in Hy|done].
Qed.

Lemma revision_ats_app item at_ l t :
  l <> [] -> (forall r, r ∈ t -> str_ltb (v_at r) at_ = true) ->
  revision_ats item (t ++ revision_rows (next_id t) item at_ l)%list = at_ :: revision_ats item t.
Proof.
  intros Hl Ht. unfold revision_ats. rewrite filter_app, fmap_app, revision_rows_ats, foldr_app.
  assert (Er : forall n, foldr insert_at [] (replicate (S n) at_) = [at_]).
  { induction n as [|n IH]; [done|]. cbn [replicate foldr] in *. rewrite IH. apply insert_at_head. }
  destruct l as [|e l]; [done|]. cbn [length]. rewrite Er. apply insert_at_comm_new; [|by intros x ?%elem_of_nil].
  intros x (r & -> & [_ Hr]%list_elem_of_filter)%list_elem_of_fmap. by apply Ht.
Qed.

(** *** The entry of an edit *)

Definition change_of (e : itemRevisionEdit) : ItemRevisionChange := MkChange (ed_field e) (of_null (ed_old e)) (of_null (ed_new e)).

Lemma revision_rows_group id item at_ l : filter (fun r => of_group item at_ r = true) (revision_rows id item at_ l) = revision_rows id item at_ l.
Proof.
  revert id. induction l as [|e l IH]; intros id; [done|]. cbn [revision_rows].
  rewrite filter_cons_True by (unfold of_group; cbn; by rewrite Z.eqb_refl, String.eqb_refl). by rewrite IH.
Qed.

Lemma revision_rows_changes id item at_ l :
  (fun r => MkChange (v_field r) (of_null (v_old r)) (of_null (v_new r))) <$> revision_rows id item at_ l = change_of <$> l.
Proof. revert id. induction l as [|e l IH]; intros id; [done|]. cbn [revision_rows fmap list_fmap]. by rewrite <- (IH (id + 1)). Qed.

Lemma group_is_edit item at_ l t :
  (forall r, r ∈ t -> str_ltb (v_at r) at_ = true) ->
  filter (fun r => of_group item at_ r = true) (t ++ revision_rows (next_id t) item at_ l)%list = revision_rows (next_id t) item at_ l.
Proof.
  intros Ht. rewrite filter_app, revision_rows_group. replace (filter _ t) with ([] : list RevisionRow); [done|]. symmetry.
  induction t as [|r t IH]; [done|]. rewrite filter_cons_False.
  - apply IH. intros x Hx. apply Ht. by right.
  - unfold of_group. intros [_ H%String.eqb_eq]%andb_true_iff. assert (Hlt : str_ltb (v_at r) at_ = true) by (apply Ht; left).
    by rewrite H, str_ltb_irrefl in Hlt.
Qed.

Lemma entry_of_edit lenient item stamp l t :
  l <> [] -> four_digit stamp -> (forall r, r ∈ t -> str_ltb (v_at r) (formatTime stamp) = true) ->
  itemLoadRevisionFields lenient item (formatTime stamp) (t ++ revision_rows (next_id t) item (formatTime stamp) l)%list
  = Ok (MkItemRevision (next_id t) item stamp (change_of <$> l)).
Proof.
  intros Hl Hf Ht. unfold itemLoadRevisionFields. rewrite group_is_edit by done. unfold itemParseTime. rewrite parse_time_written by done.
  destruct l as [|e l]; [done|]. pose proof (revision_rows_changes (next_id t) item (formatTime stamp) (e :: l)) as Hc. cbn [revision_rows] in *. by rewrite Hc.
Qed.

Lemma entry_found item at_ l t : table_ok t -> l <> [] ->
  itemRevisionGroupAt item (next_id t) (t ++ revision_rows (next_id t) item at_ l)%list = Some at_.
Proof.
  intros Ht Hl. unfold itemRevisionGroupAt. destruct l as [|e l]; [done|]. cbn [revision_rows].
  assert (Hn : forall t0 : list RevisionRow, (forall r, r ∈ t0 -> v_id r < next_id t) ->
     List.find (fun r => (v_id r =? next_id t) && (v_item_id r =? item)) (t0 ++ MkRevision (next_id t) item at_ (ed_field e) (ed_old e) (ed_new e)
       :: revision_rows (next_id t + 1) item at_ l)%list = Some (MkRevision (next_id t) item at_ (ed_field e) (ed_old e) (ed_new e))).
  { induction t0 as [|r t0 IH]; intros H0; cbn [List.find app v_id v_item_id]; [by rewrite !Z.eqb_refl|].
    assert (Hr : v_id r < next_id t) by (apply H0; left). rewrite (proj2 (Z.eqb_neq (v_id r) (next_id t))) by lia. cbn [andb].
    apply IH. intros x Hx. apply H0. by right. }
  rewrite Hn; [done|]. intros r Hr. apply (next_id_fresh t (v_id r)). change (v_id r) with (row_id r). by apply list_elem_of_fmap_2.
Qed.

(** ** Undoing *)

Section undo.
Context (lenient : string -> option Z).

Lemma apply_changes_app it a b :
  apply_changes lenient it (a ++ b)%list = match apply_changes lenient it a with Some it' => apply_changes lenient it' b | None => None end.
Proof. revert it. induction a as [|c a IH]; intros it; [done|]. cbn [app apply_changes]. destruct (itemApplyRevisionField _ it _ _); [apply IH|done]. Qed.

(** Where a field differs its old value is put back; where it does not, it is the
    old value already. *)
Lemma undo_text field o n it it' :
  itemApplyRevisionField lenient it field o = Some it' -> (o = n -> it' = it) -> apply_changes lenient it (change_of <$> diff_text field o n) = Some it'.
Proof.
  intros Ha He. unfold diff_text. destruct (String.eqb_spec o n) as [Heq|Hne]; [cbn; by rewrite He|].
  cbn [fmap list_fmap change_of apply_changes ed_field ed_old ed_new ch_Field ch_OldValue]. by rewrite nullString_roundtrip, Ha.
Qed.

Lemma with_fields_same it : with_fields (Title it) (SummaryText it) (BodyHTML it) (AnswerHTML it) (Link it) (SourceName it) (PublishedAt it) it = it.
Proof. by destruct it. Qed.

(** An item with the seven fields of another. *)
Definition with_fields_of (a it : Item) : Item :=
  with_fields (Title a) (SummaryText a) (BodyHTML a) (AnswerHTML a) (Link a) (SourceName a) (PublishedAt a) it.

Lemma undo_diff old updated cur :
  four_digit (PublishedAt old) -> with_fields_of updated cur = cur -> apply_changes lenient cur (change_of <$> itemDiff old updated) = Some (with_fields_of old cur).
Proof.
  intros H4 Hcur. rewrite <- Hcur. clear Hcur. unfold itemDiff, with_fields_of.
  destruct old as [a1 a2 a3 a4 t1 t2 t3 t4 a5 t5 t6 t7 a6 a7 a8 a9 a10 a11 a12], updated as [b1 b2 b3 b4 u1 u2 u3 u4 b5 u5 u6 u7 b6 b7 b8 b9 b10 b11 b12].
  cbn [Title SummaryText BodyHTML AnswerHTML Link SourceName PublishedAt] in *.
  rewrite fmap_app, apply_changes_app, (undo_text "title" t1 u1 _ (with_fields t1 u2 u3 u4 u5 u6 u7 cur)) by (reflexivity || by intros ->).
  rewrite fmap_app, apply_changes_app, (undo_text "summary_text" t2 u2 _ (with_fields t1 t2 u3 u4 u5 u6 u7 cur)) by (reflexivity || by intros ->).
  rewrite fmap_app, apply_changes_app, (undo_text "body_html" t3 u3 _ (with_fields t1 t2 t3 u4 u5 u6 u7 cur)) by (reflexivity || by intros ->).
  rewrite fmap_app, apply_changes_app, (undo_text "answer_html" t4 u4 _ (with_fields t1 t2 t3 t4 u5 u6 u7 cur)) by (reflexivity || by intros ->).
  rewrite fmap_app, apply_changes_app, (undo_text "link" t5 u5 _ (with_fields t1 t2 t3 t4 t5 u6 u7 cur)) by (reflexivity || by intros ->).
  rewrite fmap_app, apply_changes_app, (undo_text "source_name" t6 u6 _ (with_fields t1 t2 t3 t4 t5 t6 u7 cur)) by (reflexivity || by intros ->).
  destruct (Z.eqb_spec t7 u7) as [->|_]; [done|]. cbn. unfold itemApplyRevisionField. cbn. unfold itemParseTime. by rewrite parse_time_written.
Qed.
End undo.

(** ** A successful edit *)

Definition edited (p : ProtoItem) (published : Z) (old : Item) : Item :=
  with_fields (TrimSpace (p_Title p)) (p_SummaryText p) (HTML (p_BodyHtml p)) (HTML (p_AnswerHtml p)) (p_Link p) (p_SourceName p) published old.

(** The state after an edit of a row. *)
Definition after_edit (now : Z) (updated : Item) (r : ItemRow) (s : ItemServer) : ItemServer :=
  let stamp := next_stamp now s in
  invalidate_feed (i_feed_id r)
    (set_revisions (revisions s ++ revision_rows (next_id (revisions s)) (i_id r) (formatTime stamp) (itemDiff (itemScanRow r) updated))%list
      (set_content (change_item (i_id r) (edit_item_row stamp updated) (content s)) (set_stamp stamp s))).

Lemma commit_ok old updated v now s q s' r :
  service_ok s -> r ∈ items (content s) -> old = itemScanRow r ->
  (let (stamp, s) := editStamp now s in
   match itemApplyEdit old updated v stamp s with
   | (Err e, s) => (Err e, s)
   | (Ok out, s) => (Ok (itemToProto out), invalidate_feed (FeedID old) s)
   end) = (Ok q, s') ->
  i_version r = v /\ slot_free (next_stamp now s) updated r (content s)
  /\ q = itemToProto (itemScanRow (edit_item_row (next_stamp now s) updated r)) /\ s' = after_edit now updated r s.
Proof.
  intros Hs Hr -> H. unfold editStamp in H. cbv zeta in H. fold (next_stamp now s) in H.
  pose proof (itemApplyEdit_spec (itemScanRow r) updated v (next_stamp now s) (set_stamp (next_stamp now s) s) (sok_content s Hs)) as Ha.
  destruct (itemApplyEdit _ _ _ _ _) as [[out|e] s1]; [|done]. injection H as <- <-. destruct Ha as (r' & Hr' & Hi & Hv & Hf & -> & ->). cbn [content set_stamp] in *.
  assert (r' = r) as -> by (eapply (ids_inj (items (content s))); [apply Hs|done..]).
  split_and!; [done..|]. unfold after_edit. cbv zeta. rewrite insert_revisions_rows. done.
Qed.

Lemma Update_ok now p v s q s' :
  service_ok s -> Update now (Some p) v s = (Ok q, s') ->
  exists r published, r ∈ items (content s) /\ i_id r = p_Id p /\ i_version r = v
    /\ update_published (itemScanRow r) (p_PublishedAt p) (content s) = Ok published
    /\ slot_free (next_stamp now s) (edited p published (itemScanRow r)) r (content s)
    /\ q = itemToProto (itemScanRow (edit_item_row (next_stamp now s) (edited p published (itemScanRow r)) r))
    /\ s' = after_edit now (edited p published (itemScanRow r)) r s.
Proof.
  intros Hs H. unfold Update in H. cbv zeta in H. destruct (p_Id p =? 0); [done|]. destruct (is_empty _); [done|].
  destruct (itemLoadByID _ _) as [old|] eqn:El; [|done]. apply load_some in El as (r & Hr & Hi & ->).
  destruct (update_published _ _ _) as [t|e] eqn:Eu; [|done]. exists r, t. eapply commit_ok in H as (Hv & Hf & Hq & Hs'); [|done..]. by split_and!.
Qed.

Lemma update_published_old old d : update_published old None d = Ok (PublishedAt old).
Proof. done. Qed.

Lemma invalidate_feed_same feed s :
  content (invalidate_feed feed s) = content s /\ revisions (invalidate_feed feed s) = revisions s /\ lastEditAt (invalidate_feed feed s) = lastEditAt s
  /\ corrections (invalidate_feed feed s) = corrections s.
Proof. unfold invalidate_feed, invalidate_slug. destruct (itemFeedSlug _ _) as [slug|]; [|done]. by destruct (is_empty slug). Qed.

Lemma after_edit_content now updated r s : content (after_edit now updated r s) = change_item (i_id r) (edit_item_row (next_stamp now s) updated) (content s).
Proof. unfold after_edit. cbv zeta. match goal with |- context [invalidate_feed ?f ?x] => by rewrite (proj1 (invalidate_feed_same f x)) end. Qed.
Lemma after_edit_revisions now updated r s :
  revisions (after_edit now updated r s)
  = (revisions s ++ revision_rows (next_id (revisions s)) (i_id r) (formatTime (next_stamp now s)) (itemDiff (itemScanRow r) updated))%list.
Proof. unfold after_edit. cbv zeta. match goal with |- context [invalidate_feed ?f ?x] => by rewrite (proj1 (proj2 (invalidate_feed_same f x))) end. Qed.
Lemma after_edit_stamp now updated r s : lastEditAt (after_edit now updated r s) = next_stamp now s.
Proof. unfold after_edit. cbv zeta. match goal with |- context [invalidate_feed ?f ?x] => by rewrite (proj1 (proj2 (proj2 (invalidate_feed_same f x)))) end. Qed.

Lemma after_edit_row now updated r s :
  service_ok s -> r ∈ items (content s) -> find_id (i_id r) (items (content (after_edit now updated r s))) = Some (edit_item_row (next_stamp now s) updated r).
Proof. intros Hs Hr. rewrite after_edit_content. by apply find_changed; [apply Hs|..]. Qed.

Lemma after_edit_stamped now updated r s : four_digit (next_stamp now s) -> stamped s -> stamped (after_edit now updated r s).
Proof.
  intros H4 Hs. unfold stamped in *. rewrite after_edit_revisions, after_edit_stamp. apply Forall_app. split.
  - eapply Forall_impl; [exact Hs|]. intros x (t & E & Ht & H9 & Hle). exists t. split_and!; [done..|]. pose proof (edit_stamp_later now (lastEditAt s)). unfold next_stamp. lia.
  - apply Forall_forall. intros x (_ & -> & _)%revision_rows_item. exists (next_stamp now s). split_and!; [done..|apply edit_stamp_nine|lia].
Qed.

(** An edit's changes are one entry of the item's history, the newest. *)
Lemma after_edit_entry lenient now updated r s :
  service_ok s -> stamped s -> four_digit (next_stamp now s) -> itemDiff (itemScanRow r) updated <> [] ->
  let s' := after_edit now updated r s in
  revision_ats (i_id r) (revisions s') = formatTime (next_stamp now s) :: revision_ats (i_id r) (revisions s)
  /\ itemRevisionGroupAt (i_id r) (next_id (revisions s)) (revisions s') = Some (formatTime (next_stamp now s))
  /\ itemLoadRevisionFields lenient (i_id r) (formatTime (next_stamp now s)) (revisions s')
     = Ok (MkItemRevision (next_id (revisions s)) (i_id r) (next_stamp now s) (change_of <$> itemDiff (itemScanRow r) updated)).
Proof.
  intros Hs Hst H4 Hd. cbv zeta. rewrite after_edit_revisions.
  assert (Hnew : forall x, x ∈ revisions s -> str_ltb (v_at x) (formatTime (next_stamp now s)) = true) by (intros x Hx; by apply stamp_is_new).
  split_and!; [by apply revision_ats_app|by apply entry_found; [apply Hs|]|by apply entry_of_edit].
Qed.

Lemma itemApplyEdit_succeeds old updated v now s r :
  content_ok (content s) -> r ∈ items (content s) -> i_id r = ID old -> i_version r = v -> slot_free now updated r (content s) ->
  exists out s', itemApplyEdit old updated v now s = (Ok out, s').
Proof.
  intros Hd Hr Hi Hv Hf. pose proof (itemApplyEdit_spec old updated v now s Hd) as H. destruct (itemApplyEdit old updated v now s) as [[out|e] s']; [by eexists _, _|].
  exfalso. assert (Huniq : forall x, x ∈ items (content s) -> i_id x = ID old -> x = r).
  { intros x Hx Hxi. eapply (ids_inj (items (content s))); [apply Hd|done..|]. cbv [row_id row_item]. congruence. }
  destruct H as [_ H]. destruct e.
  - by destruct H.
  - apply H. rewrite <- Hi. by apply list_elem_of_fmap_2.
  - destruct H as (x & Hx & Hxi & Hxv). by rewrite (Huniq x Hx Hxi) in Hxv.
  - destruct H as [_ (x & Hx & Hxi & _ & Hn)]. rewrite (Huniq x Hx Hxi) in Hn. done.
Qed.

(** The seven fields an edit can change. *)
Definition same_fields (a b : ProtoItem) : Prop :=
  p_Title a = p_Title b /\ p_SummaryText a = p_SummaryText b /\ p_BodyHtml a = p_BodyHtml b /\ p_AnswerHtml a = p_AnswerHtml b
  /\ p_Link a = p_Link b /\ p_SourceName a = p_SourceName b /\ p_PublishedAt a = p_PublishedAt b.

Lemma edited_fields now p t r : with_fields_of (edited p t (itemScanRow r)) (itemScanRow (edit_item_row now (edited p t (itemScanRow r)) r)) = itemScanRow (edit_item_row now (edited p t (itemScanRow r)) r).
Proof. unfold itemScanRow, edit_item_row, with_fields_of, edited, with_fields. cbn -[HTML TrimSpace]. by rewrite !nullString_roundtrip. Qed.

Section service.
Context (sha256hex : string -> string) (lenient : string -> option Z) (candidates_of : string -> option (list SampleCandidate)).

Lemma revert_after_edit now now2 p v s q s1 before :
  service_ok s -> stamped s -> four_digit (next_stamp now s) ->
  ItemService_Get (p_Id p) s = Ok before -> is_empty (TrimSpace (p_Title before)) = false -> p_PublishedAt p = None ->
  (forall t, p_PublishedAt before = Some t -> four_digit t) ->
  Update now (Some p) v s = (Ok q, s1) -> revisions s1 <> revisions s ->
  exists q2 s2, RevertRevision lenient now2 (p_Id p) (next_id (revisions s)) (v + 1) s1 = (Ok q2, s2)
    /\ same_fields q2 before /\ p_ItemKey q2 = p_ItemKey before /\ p_Version q2 = v + 2 /\ (exists l, revisions s2 = (revisions s1 ++ l)%list).
Proof.
  intros Hs Hst H4 Hget Htitle Hnone Hpub Hup Hch. pose proof Hup as Hup'. apply Update_ok in Hup as (r & t & Hr & Hi & Hv & Ht & Hf & -> & ->); [|done].
  rewrite Hnone in Ht. injection Ht as <-. set (old := itemScanRow r) in *. set (up := edited p (i_published_at r) old) in *.
  unfold ItemService_Get in Hget. rewrite (load_row _ _ r (sok_content s Hs) Hr Hi) in Hget. injection Hget as <-. fold old in Htitle, Hpub |- *.
  set (stamp := next_stamp now s) in *. set (s1 := after_edit now up r s) in *. set (r1 := edit_item_row stamp up r).
  assert (Hs1 : service_ok s1).
  { pose proof (update_sound now (Some p) v s Hs) as [H _]. rewrite Hup' in H. exact H. }
  assert (Hr1 : r1 ∈ items (content s1) /\ i_id r1 = p_Id p).
  { pose proof (after_edit_row now up r s Hs Hr) as H. apply find_id_elem in H as [H1 H2]. split; [exact H1|]. rewrite <- Hi. exact H2. }
  destruct Hr1 as [Hr1 Hi1]. assert (Hd : itemDiff old up <> []).
  { intros E. apply Hch. unfold s1. rewrite after_edit_revisions. fold old. rewrite E. apply app_nil_r. }
  destruct (after_edit_entry lenient now up r s Hs Hst H4 Hd) as (_ & Eg & El). fold s1 stamp in Eg, El. fold old in El. rewrite Hi in Eg, El.
  assert (Hne : p_Id p <> 0 /\ next_id (revisions s) <> 0).
  { split; [|pose proof (next_id_pos (revisions s)); lia]. rewrite <- Hi. pose proof (proj2 (ok_items _ (sok_content s Hs))) as Hpos. rewrite Forall_forall in Hpos.
    specialize (Hpos r Hr). cbv [row_id row_item] in Hpos. lia. }
  assert (H4old : four_digit (PublishedAt old)).
  { destruct (is_zero (PublishedAt old)) eqn:Ez; [|apply (Hpub (PublishedAt old)); unfold itemToProto, itemTimestampOrNil; cbn [p_PublishedAt]; by rewrite Ez].
    apply Z.eqb_eq in Ez. rewrite Ez. unfold four_digit. vm_compute. split; discriminate. }
  unfold RevertRevision. rewrite (proj2 (Z.eqb_neq _ _) (proj1 Hne)), (proj2 (Z.eqb_neq _ _) (proj2 Hne)).
  rewrite (load_row _ _ r1 (sok_content s1 Hs1) Hr1 Hi1), Eg, El. cbn [rv_Changes].
  rewrite (undo_diff lenient old up (itemScanRow r1) H4old) by apply edited_fields. set (back := with_fields_of old (itemScanRow r1)).
  change (Title back) with (Title old). change (p_Title (itemToProto old)) with (Title old) in Htitle. rewrite Htitle.
  unfold revert_published. change (PublishedAt back) with (PublishedAt old). change (PublishedAt (itemScanRow r1)) with (PublishedAt old). rewrite Z.eqb_refl.
  unfold editStamp. cbv zeta. set (stamp2 := edit_stamp now2 (lastEditAt s1)).
  assert (Hslot : slot_free stamp2 back r1 (content (set_stamp stamp2 s1))).
  { intros x Hx Hxi He. apply Hxi. f_equal. apply (distinct_inj key_published (items (content s1))); [apply (sok_content s1 Hs1)|done|done|exact He]. }
  destruct (itemApplyEdit_succeeds (itemScanRow r1) back (v + 1) stamp2 (set_stamp stamp2 s1) r1 (sok_content s1 Hs1) Hr1 eq_refl) as (out & s2 & E);
    [cbn; lia|exact Hslot|].
  pose proof (itemApplyEdit_spec (itemScanRow r1) back (v + 1) stamp2 (set_stamp stamp2 s1) (sok_content s1 Hs1)) as Hsp. rewrite E in *.
  destruct Hsp as (r' & Hr' & Hi' & Hv' & _ & -> & ->). cbn [content set_stamp] in Hr'.
  assert (r' = r1) as -> by (eapply (ids_inj (items (content s1))); [apply (sok_content s1 Hs1)|done..]).
  eexists _, _. split; [reflexivity|]. split_and!.
  - unfold same_fields, back, with_fields_of, with_fields, itemToProto, itemScanRow, edit_item_row. cbn -[HTML TrimSpace]. by rewrite !nullString_roundtrip.
  - done.
  - cbn. lia.
  - match goal with |- context [invalidate_feed ?f ?x] => rewrite (proj1 (proj2 (invalidate_feed_same f x))) end. cbn [revisions set_revisions set_content set_stamp].
    rewrite insert_revisions_rows. by eexists.
Qed.

(** ** Versions *)

(** A call that names the version it was made from, and whether it went through. *)
Definition went_through {A} (r : result item_code A) : bool := match r with Ok _ => true | Err _ => false end.
Inductive versioned_call (id v : Z) (s : ItemServer) : bool -> ItemServer -> Prop :=
| vc_Update now p q s' : p_Id p = id -> Update now (Some p) v s = (q, s') -> versioned_call id v s (went_through q) s'
| vc_Delete now q s' : Delete now id v s = (q, s') -> versioned_call id v s (went_through q) s'
| vc_Restore now q s' : Restore now id v s = (q, s') -> versioned_call id v s (went_through q) s'
| vc_Revert now rev q s' : RevertRevision lenient now id rev v s = (q, s') -> versioned_call id v s (went_through q) s'.

Definition unchanged (s s' : ItemServer) : Prop :=
  content s' = content s /\ revisions s' = revisions s /\ corrections s' = corrections s /\ invalidated s' = invalidated s.
Definition bumped (id v : Z) (s s' : ItemServer) : Prop :=
  (exists r, r ∈ items (content s) /\ i_id r = id /\ i_version r = v) /\ (exists r, r ∈ items (content s') /\ i_id r = id /\ i_version r = v + 1).

Lemma commit_version old updated v now s q s' r :
  service_ok s -> r ∈ items (content s) -> old = itemScanRow r ->
  (let (stamp, s) := editStamp now s in
   match itemApplyEdit old updated v stamp s with
   | (Err e, s) => (Err e, s)
   | (Ok out, s) => (Ok (itemToProto out), invalidate_feed (FeedID old) s)
   end) = (q, s') ->
  went_through q = true /\ bumped (i_id r) v s s' \/ went_through q = false /\ unchanged s s'.
Proof.
  intros Hs Hr Hold H. destruct q as [q|e].
  - left. eapply commit_ok in H as (Hv & Hf & _ & ->); [|done..]. split; [done|]. split; [by exists r|].
    pose proof (after_edit_row now updated r s Hs Hr) as Ha. apply find_id_elem in Ha as [Hin Hid]. eexists. split; [exact Hin|]. split; [exact Hid|]. cbn. lia.
  - right. split; [done|]. unfold editStamp in H. cbv zeta in H.
    pose proof (itemApplyEdit_spec old updated v (edit_stamp now (lastEditAt s)) (set_stamp (edit_stamp now (lastEditAt s)) s) (sok_content s Hs)) as Ha.
    destruct (itemApplyEdit _ _ _ _ _) as [[out|e'] s1]; [done|]. injection H as <- <-. by destruct Ha as [-> _].
Qed.

Lemma versioned_cases id v s ok s' :
  service_ok s -> versioned_call id v s ok s' -> ok = true /\ bumped id v s s' \/ ok = false /\ unchanged s s'.
Proof.
  assert (Hno : forall A (e : item_code), went_through (Err e : result item_code A) = false /\ unchanged s s) by done.
  assert (Hdel : forall now del, service_ok s -> match set_deleted now del id v s with (Ok _, s1) => bumped id v s s1 | (Err _, s1) => unchanged s s1 end).
  { intros now del Hs. pose proof (set_deleted_spec now del id v s (sok_content s Hs)) as H. destruct (set_deleted now del id v s) as [[f|e] s1].
    - destruct H as (r & Hr & Hi & Hv & _ & ->). split; [by exists r|]. exists (tombstone now del r). rewrite (proj1 (invalidate_feed_same _ _)).
      pose proof (find_changed id (tombstone now del) (content s) r (sok_content s Hs) Hr Hi ltac:(done)) as Ha. apply find_id_elem in Ha as [Hin Hid].
      split; [exact Hin|]. split; [exact Hid|]. cbn. lia.
    - by destruct H as [-> _]. }
  intros Hs H. destruct H as [now p q s' Hp H|now q s' H|now q s' H|now rev q s' H].
  - unfold Update in H. cbv zeta in H. destruct (p_Id p =? 0); [right; injection H as <- <-; apply Hno|].
    destruct (is_empty _); [right; injection H as <- <-; apply Hno|].
    destruct (itemLoadByID _ _) as [old|] eqn:El; [|right; injection H as <- <-; apply Hno]. apply load_some in El as (r & Hr & Hi & Eo).
    destruct (update_published _ _ _) as [t|e]; [|right; injection H as <- <-; apply Hno]. rewrite <- Hp, <- Hi. by eapply commit_version.
  - unfold Delete in H. specialize (Hdel now (Some now) Hs). destruct (set_deleted _ _ _ _ s) as [[f|e] s1]; injection H as <- <-; [by left|by right].
  - unfold Restore in H. specialize (Hdel now None Hs). destruct (set_deleted _ _ _ _ s) as [[f|e] s1]; [|injection H as <- <-; by right].
    destruct Hdel as [Hb (r & Hr & Hi & Hv)]. injection H as <- <-. left. unfold reload.
    destruct (itemLoadByID id (content s1)) eqn:El; [split; [done|]; split; [done|by exists r]|].
    exfalso. unfold itemLoadByID in El. destruct (find_id id (items (content s1))) as [x|] eqn:E; [done|]. apply find_id_None in E. apply E. rewrite <- Hi.
    by apply list_elem_of_fmap_2.
  - unfold RevertRevision in H. destruct (id =? 0); [right; injection H as <- <-; apply Hno|]. destruct (rev =? 0); [right; injection H as <- <-; apply Hno|].
    destruct (itemLoadByID _ _) as [old|] eqn:El; [|right; injection H as <- <-; apply Hno]. apply load_some in El as (r & Hr & Hi & Eo).
    destruct (itemRevisionGroupAt _ _ _); [|right; injection H as <- <-; apply Hno].
    destruct (itemLoadRevisionFields _ _ _ _); [|right; injection H as <- <-; apply Hno].
    destruct (apply_changes _ _ _) as [up|]; [|right; injection H as <- <-; apply Hno]. destruct (is_empty _); [right; injection H as <- <-; apply Hno|].
    destruct (revert_published _ _ _); [right; injection H as <- <-; apply Hno|]. rewrite <- Hi. by eapply commit_version.
Qed.

Lemma version_later id v s s' r :
  service_ok s -> rtc (item_call sha256hex lenient candidates_of) s s' -> r ∈ items (content s) -> i_id r = id -> v <= i_version r ->
  forall r', r' ∈ items (content s') -> i_id r' = id -> v <= i_version r'.
Proof.
  intros Hs Hc Hr Hi Hv r' Hr' Hi'. destruct (calls_sound sha256hex lenient candidates_of s s' Hc Hs) as [Hs' [[(old & new & E & F) _ _ _] _ _ _ _]].
  apply list_elem_of_lookup in Hr as [j Hj]. destruct (Forall2_lookup_l _ _ _ _ _ F Hj) as (r2 & Hr2 & (Hid & _ & _ & _ & _ & _ & Hver)).
  assert (r' = r2) as ->; [|lia]. eapply (ids_inj (items (content s'))); [apply (sok_content s' Hs')|done| |cbv [row_id row_item]; congruence].
  rewrite E. apply elem_of_app. left. by eapply list_elem_of_lookup_2.
Qed.

(** ** Where a new item lands in its feed *)

(** The items of a feed are dated, in years of four digits. *)
Definition dated (feed : Z) (d : Content) : Prop :=
  forall r, r ∈ items d -> i_feed_id r = feed -> four_digit (i_published_at r) /\ zero_time + second <= i_published_at r.

Lemma text_unix a b : four_digit a -> four_digit b -> text_le a b = true -> unix a <= unix b.
Proof.
  intros Ha Hb H. unfold text_le, str_leb in H. rewrite text_compare in H by done. destruct (Z.lt_trichotomy (unix a) (unix b)) as [E|[E|E]]; [lia|lia|].
  by rewrite (proj2 (Z.compare_gt_iff _ _) E) in H.
Qed.

(** The newest publication time is of the latest second of the feed. *)
Lemma newest_bounds feed d r :
  dated feed d -> r ∈ items d -> i_feed_id r = feed ->
  let n := itemNewestPublished feed 0 d in unix (i_published_at r) <= unix n /\ zero_time + second <= n.
Proof.
  intros Hd Hr Hf. cbv zeta. unfold itemNewestPublished. set (t := filter _ (items d)).
  assert (Hin : forall x, x ∈ t -> x ∈ items d /\ i_feed_id x = feed).
  { intros x [Hx Hxi]%list_elem_of_filter. apply andb_true_iff in Hx as [Hx _]. apply Z.eqb_eq in Hx. done. }
  assert (Hrt : r ∈ t). { apply list_elem_of_filter. split; [|done]. by rewrite Hf, Z.eqb_refl. }
  destruct (head (order_desc _ t)) as [m|] eqn:E.
  2:{ apply order_desc_nil in E. rewrite E in Hrt. by apply elem_of_nil in Hrt. }
  assert (Hm : m ∈ t). { rewrite <- (order_desc_perm (fun r => formatTime (i_published_at r)) t). destruct (order_desc _ t); [done|]. injection E as ->. left. }
  cbn [fmap option_fmap option_map default]. destruct (Hin m Hm) as [Hmi Hmf]. destruct (Hd m Hmi Hmf) as [Hm4 Hmz]. split; [|done].
  apply text_unix; [by apply Hd|done|]. exact (order_desc_head (fun r => formatTime (i_published_at r)) t m r E Hrt).
Qed.

Lemma unix_truncated t : unix (truncate t second) = unix t.
Proof. exact (unix_truncate t). Qed.

Lemma unix_mono a b : a <= b -> unix a <= unix b.
Proof. intros H. unfold unix. apply Z.div_le_mono; [done|lia]. Qed.

Lemma unix_add_seconds t k : unix (t + k * second) = unix t + k.
Proof. unfold unix. by rewrite Z.div_add. Qed.

(** What [Create] does when it goes through. *)
Lemma Create_ok now key clk p s q s' :
  service_ok s -> Create sha256hex id now key clk (Some p) s = (Ok q, s') ->
  exists k clock slug row, (k <= 5)%nat /\ let published := truncate (default now (p_PublishedAt p)) second in
    itemFeedSlug (p_FeedId p) (content s) = Some slug
    /\ itemRejectBackdated published (truncate (itemNewestPublished (p_FeedId p) 0 (content s)) second) = None
    /\ row = new_item_row (next_id (items (content s))) clock (truncatePublishedAt (published + Z.of_nat k * second)) None
         (new_item (p_FeedId p) key (itemContentHash sha256hex (p_FeedId p) (TrimSpace (p_Title p)) (p_SummaryText p) (HTML (p_BodyHtml p)) (p_Link p))
            (TrimSpace (p_Title p)) (p_SummaryText p) (HTML (p_BodyHtml p)) (HTML (p_AnswerHtml p)) (p_Link p) (p_SourceName p) "manual")
    /\ s' = invalidate_slug slug (set_content (append_item row (content s)) s) /\ q = itemToProto (itemScanRow row).
Proof.
  intros Hs H. unfold Create in H. cbv zeta in H. destruct (_ =? 0); [done|]. destruct (is_empty _); [done|]. destruct (itemFeedSlug _ _) as [slug|] eqn:Es; [|done].
  destruct (itemValidatePublishedAt _); [done|]. destruct (itemRejectBackdated _ _) eqn:Eb; [done|]. change (content (set_content (id (content s)) s)) with (content s) in H.
  destruct (create_loop _ _ _ _ _) as [[nid d]|e] eqn:E; [|done]. injection H as Hq <-.
  apply create_loop_spec in E as (k & c & Hk & Hok & -> & ->); [|apply (sok_content s Hs)]. eexists k, c, slug, _. split; [exact Hk|]. cbv zeta.
  split; [done|]. split; [done|]. split; [reflexivity|]. split; [done|]. revert Hq. set (row := new_item_row _ _ _ _ _).
  assert (Hc : forall x, content (invalidate_slug slug x) = content x) by (intros x; unfold invalidate_slug; by destruct (is_empty slug)).
  unfold reload. rewrite Hc. cbn [content set_content]. rewrite (load_row _ _ row Hok); [by intros [= <-]| |done].
  cbn. apply elem_of_app. right. left.
Qed.

(** What [PublishCorrection] does when it goes through. *)
Lemma PublishCorrection_ok now key cid title summary body s q s' :
  service_ok s -> PublishCorrection sha256hex now key cid title summary body s = (Ok q, s') ->
  exists k slug original row, original ∈ items (content s) /\ i_id original = cid /\
    let newest := itemNewestPublished (i_feed_id original) 0 (content s) in
    let stamp := if negb (newest <? truncate now second) then newest + second else truncate now second in
    let title' := if HasPrefix (TrimSpace title) "Correction:" then TrimSpace title else "Correction: " ++ TrimSpace title in
    itemFeedSlug (i_feed_id original) (content s) = Some slug
    /\ row = correction_row (next_id (items (content s)))
         (new_item (i_feed_id original) key (itemContentHash sha256hex (i_feed_id original) title' summary (HTML body) (of_null (i_link original)))
            title' summary (HTML body) "" (of_null (i_link original)) (of_null (i_source_name original)) "correction") (stamp + Z.of_nat k * second) now
    /\ s' = invalidate_slug slug (set_corrections (corrections s ++ [MkCorrection (i_id row) cid])%list (set_content (append_item row (content s)) s))
    /\ q = itemToProto (itemScanRow row).
Proof.
  intros Hs H. unfold PublishCorrection in H. cbv zeta in H. destruct (_ =? 0); [done|]. destruct (is_empty _); [done|].
  destruct (itemLoadByID _ _) as [o|] eqn:El; [|done]. apply load_some in El as (original & Hr & Hi & ->). cbn [FeedID Link SourceName itemScanRow] in H.
  destruct (itemFeedSlug _ _) as [slug|] eqn:Es; [|done]. destruct (itemValidatePublishedAt _); [done|].
  destruct (correction_loop _ _ _ _ _ _) as [[nid s1]|e] eqn:E; [|done]. injection H as Hq <-.
  apply correction_loop_spec in E as (k & _ & E). apply insert_correction_spec in E as (-> & Hins & _ & _ & ->).
  eexists k, slug, original, _. split; [done|]. split; [done|]. cbv zeta. split; [done|]. split; [reflexivity|]. split; [done|]. revert Hq.
  set (row := correction_row _ _ _ _) in *.
  assert (Hc : forall x, content (invalidate_slug slug x) = content x) by (intros x; unfold invalidate_slug; by destruct (is_empty slug)).
  unfold reload. rewrite Hc. cbn [content set_content set_corrections]. rewrite (load_row _ _ row); [by intros [= <-]| | |done].
  - exact (insert_item_ok _ row _ (sok_content s Hs) eq_refl Hins).
  - cbn. apply elem_of_app. right. left.
Qed.

End service.

(** ** Tokens *)

Section pages.
Context (lenient : string -> option Z).

Lemma pad_lacks c k n r : digit_byte c = false -> lacks c r -> lacks c (pad k n r).
Proof.
  intros Hc. revert n r. induction k as [|k IH]; intros n r Hr; [done|]. cbn [pad]. apply IH. apply lacks_cons. split; [|done].
  intros E. assert (Hd : digit_byte (digit_char (n mod 10)) = true) by (unfold digit_byte; rewrite digit_digit_char by dlia; done). congruence.
Qed.

Lemma formatTime_lacks c t : digit_byte c = false -> c <> "-"%char -> c <> ":"%char -> c <> "T"%char -> c <> "."%char -> c <> "Z"%char -> lacks c (formatTime t).
Proof.
  intros Hc H1 H2 H3 H4 H5.
  assert (Hfrac : lacks c (show_frac (nsec t) "Z")).
  { unfold show_frac. assert (Hz : lacks c "Z") by (apply lacks_cons; split; done). destruct (nsec t =? 0); [done|]. apply lacks_cons. split; [done|].
    generalize 9%nat, (nsec t). induction n as [|n IH]; intros z; [done|]. cbn [frac_digits]. destruct (_ =? 0); [apply IH|by apply pad_lacks]. }
  unfold formatTime, show_year. destruct (Year UTC t <? 0); [apply lacks_cons; split; [done|]|];
    repeat first [apply pad_lacks; [done|] | apply lacks_cons; split; [done|] | exact Hfrac].
Qed.

Lemma page_token_roundtrip t i : four_digit t -> 0 <= i < 2 ^ 63 -> itemDecodePageToken lenient (itemEncodePageToken t i) = Some (t, i).
Proof.
  intros Ht Hi. unfold itemDecodePageToken, itemEncodePageToken. rewrite url64_roundtrip. cbn [mbind option_bind].
  change ("|" ++ show_int i) with (String "|" (show_int i)). rewrite cut_app by (by apply formatTime_lacks). unfold itemParseTime.
  rewrite parse_time_written by done. cbn [mbind option_bind]. by rewrite Atoi_show.
Qed.

(** ** Following a listing *)

Section listing.
Context (fts : string -> ItemRow -> bool) (word : Z -> bool).

Lemma listed_before_irrefl a : listed_before a a = false.
Proof. unfold listed_before. rewrite str_ltb_irrefl, String.eqb_refl. cbn. apply Z.ltb_irrefl. Qed.

Lemma listed_before_trans a b c : listed_before a b = true -> listed_before b c = true -> listed_before a c = true.
Proof.
  unfold listed_before. rewrite !orb_true_iff, !andb_true_iff, !String.eqb_eq, !Z.ltb_lt.
  intros [H1|[H1 H1']] [H2|[H2 H2']].
  - left. by eapply str_ltb_trans.
  - left. by rewrite H2.
  - left. by rewrite <- H1.
  - right. split; [congruence|lia].
Qed.

Lemma listed_before_total a b : i_id a <> i_id b -> listed_before a b = false -> listed_before b a = true.
Proof.
  intros Hne H. unfold listed_before in *. apply orb_false_iff in H as [H1 H2]. rewrite orb_true_iff, andb_true_iff, String.eqb_eq, Z.ltb_lt.
  unfold str_ltb in *. rewrite (String.compare_antisym (text_of b) (text_of a)) in H1. destruct (String.compare (text_of a) (text_of b)) eqn:E.
  - apply String.compare_eq_iff in E. right. split; [done|]. rewrite E, String.eqb_refl in H2. cbn in H2. apply Z.ltb_ge in H2. lia.
  - by left.
  - done.
Qed.

Lemma insert_listed_perm r l : insert_listed r l ≡ₚ r :: l.
Proof. induction l as [|x l IH]; [done|]. cbn [insert_listed]. destruct (listed_before r x); [done|]. rewrite IH. by constructor. Qed.
Lemma order_listed_perm t : order_listed t ≡ₚ t.
Proof. induction t as [|r t IH]; [done|]. cbn [order_listed foldr]. rewrite insert_listed_perm. by constructor. Qed.

Lemma insert_listed_sorted r l : (forall x, x ∈ l -> i_id x <> i_id r) -> sorted listed_before l -> sorted listed_before (insert_listed r l).
Proof.
  unfold sorted. induction l as [|x l IH]; intros Hne Hs; [repeat constructor|]. cbn [insert_listed].
  apply StronglySorted_inv in Hs as [Hs Hall]. destruct (listed_before r x) eqn:E.
  - constructor; [by constructor|]. constructor; [done|]. eapply Forall_impl; [exact Hall|]. intros y Hy. by eapply listed_before_trans.
  - constructor; [apply IH; [intros y Hy; apply Hne; by right|done]|]. apply Forall_forall. intros y Hy. rewrite insert_listed_perm in Hy.
    apply elem_of_cons in Hy as [->|Hy]; [apply listed_before_total; [|done]; intros E'; by apply (Hne x); [left|]|]. rewrite Forall_forall in Hall. by apply Hall.
Qed.

Lemma order_listed_sorted t : NoDup (i_id <$> t) -> sorted listed_before (order_listed t).
Proof.
  induction t as [|r t IH]; intros Hn; [constructor|]. cbn [order_listed foldr]. apply NoDup_cons in Hn as [Hr Hn]. apply insert_listed_sorted; [|by apply IH].
  intros x Hx E. fold (order_listed t) in Hx. rewrite order_listed_perm in Hx. apply Hr. rewrite <- E. by apply list_elem_of_fmap_2.
Qed.

Lemma filter_sorted {A} (R : A -> A -> Prop) (P : A -> Prop) `{forall x, Decision (P x)} l : StronglySorted R l -> StronglySorted R (filter P l).
Proof.
  intros Hs. induction Hs as [|x l Hs IH Hall]; [constructor|]. rewrite filter_cons. destruct (decide (P x)); [|done]. constructor; [done|].
  rewrite Forall_forall in Hall |- *. intros y [_ Hy]%list_elem_of_filter. by apply Hall.
Qed.

Lemma NoDup_ids_filter (P : ItemRow -> Prop) `{forall x, Decision (P x)} t : NoDup (i_id <$> t) -> NoDup (i_id <$> filter P t).
Proof. intros Hn. exact (sublist_NoDup _ _ Hn (fmap_sublist i_id _ _ (sublist_filter P t))). Qed.

(** Sorting what comes after a row is what comes after it when sorted. *)
Lemma order_listed_filter (P : ItemRow -> Prop) `{forall x, Decision (P x)} t :
  NoDup (i_id <$> t) -> order_listed (filter P t) = filter P (order_listed t).
Proof.
  intros Hn. pose proof (NoDup_ids_filter P t Hn) as Hsub.
  pose proof (order_listed_sorted _ Hsub) as H1. pose proof (filter_sorted _ P _ (order_listed_sorted _ Hn)) as H2.
  apply (StronglySorted_unique_strong (fun a b => listed_before a b = true)); [|done|done|].
  - intros x y _ _ Hxy Hyx. pose proof (listed_before_trans _ _ _ Hxy Hyx) as Hc. by rewrite listed_before_irrefl in Hc.
  - rewrite order_listed_perm. by rewrite (order_listed_perm t).
Qed.

Definition ask_page (tok : string) (q : ListRequest) : ListRequest :=
  MkListRequest (lq_FeedId q) (lq_Origin q) (lq_PublishedAfter q) (lq_PublishedBefore q) (lq_DeletedFilter q) (lq_Query q) (lq_PageSize q) tok.
Definition token_of (cur : option ItemRow) : string := match cur with None => "" | Some x => itemEncodePageToken (i_published_at x) (i_id x) end.
Definition listed (q : ListRequest) (d : Content) : list ItemRow := order_listed (filter (fun r => list_matches fts word q r = true) (items d)).
Definition size_of (q : ListRequest) : nat := Z.to_nat (page_size (lq_PageSize q) itemDefaultPageSize itemMaxPageSize).

(** The rows can be named by a cursor. *)
Definition named_rows (d : Content) : Prop := Forall (fun r => four_digit (i_published_at r) /\ i_id r < 2 ^ 63) (items d).

Lemma list_page q s cur :
  content_ok (content s) -> named_rows (content s) -> (forall x, cur = Some x -> x ∈ items (content s)) ->
  let p := page (size_of q) (after listed_before cur (listed q (content s))) in
  ItemService_List lenient fts word (ask_page (token_of cur) q) s
  = Ok (MkListResponse (itemToProto <$> (itemScanRow <$> p.1)) (token_of p.2) (itemCountMatching fts word q (content s))).
Proof.
  intros Hd Hn Hcur. cbv zeta. unfold ItemService_List. cbv zeta.
  assert (Hdec : (if is_empty (lq_PageToken (ask_page (token_of cur) q)) then Some None
                  else option_map Some (itemDecodePageToken lenient (lq_PageToken (ask_page (token_of cur) q))))
                 = Some (match cur with None => None | Some x => Some (i_published_at x, i_id x) end)).
  { cbn [lq_PageToken ask_page]. destruct cur as [x|]; [|done]. cbn [token_of]. unfold itemEncodePageToken at 1. rewrite url64_nonempty.
    - unfold named_rows in Hn. rewrite Forall_forall in Hn. destruct (Hn x (Hcur x eq_refl)) as [H4 Hi]. rewrite page_token_roundtrip; [done|done|].
      pose proof (proj2 (ok_items _ Hd)) as Hpos. rewrite Forall_forall in Hpos. specialize (Hpos x (Hcur x eq_refl)). cbv [row_id row_item] in Hpos. lia.
    - destruct (formatTime (i_published_at x)); [|done]. rewrite str_app_nil_l. done. }
  rewrite Hdec. change (Z.to_nat (page_size (lq_PageSize (ask_page (token_of cur) q)) itemDefaultPageSize itemMaxPageSize)) with (size_of q).
  assert (Hrest : order_listed (filter (fun r => list_matches fts word (ask_page (token_of cur) q) r
                    && cursor_after (match cur with None => None | Some x => Some (i_published_at x, i_id x) end) r = true) (items (content s)))
                  = after listed_before cur (listed q (content s))).
  { unfold listed. destruct cur as [x|].
    - cbn [after]. rewrite <- order_listed_filter.
      + f_equal. rewrite list_filter_filter. apply list_filter_iff. intros r. rewrite andb_true_iff. unfold listed_before, cursor_after. cbn. unfold text_of at 3 5. tauto.
      + apply NoDup_ids_filter. exact (table_ok_NoDup _ (ok_items _ Hd)).
    - cbn [after]. f_equal. apply list_filter_iff. intros r. cbn. by rewrite andb_true_r. }
  rewrite Hrest. set (rest := after _ _ _). set (k := size_of q).
  assert (Hk : (0 < k)%nat) by (by apply page_size_pos).
  unfold page. rewrite length_fmap, length_take. destruct (Nat.ltb_spec k (length rest)) as [Hlt|Hge].
  - rewrite (proj2 (Nat.ltb_lt k (Nat.min (k + 1) (length rest)))) by lia. cbn [fst snd].
    destruct (last (take k rest)) as [x|] eqn:El.
    2:{ apply last_None in El. apply (f_equal length) in El. rewrite length_take in El. cbn in El. lia. }
    assert (En : nth_error (itemScanRow <$> take (k + 1) rest) (k - 1) = Some (itemScanRow x)).
    { change (itemScanRow <$> take (k + 1) rest) with (List.map itemScanRow (take (k + 1) rest)). rewrite nth_error_map, last_nth; [|done|rewrite length_take; lia].
      rewrite take_take, Nat.min_l by lia. by rewrite El. }
    rewrite En. rewrite <- fmap_take, take_take, Nat.min_l by lia. done.
  - rewrite (proj2 (Nat.ltb_ge k (Nat.min (k + 1) (length rest)))) by lia. cbn [fst snd token_of]. rewrite take_ge by lia. done.
Qed.

(** Asking for the next page for as long as there is a token. *)
Fixpoint list_pages (fuel : nat) (q : ListRequest) (tok : string) (s : ItemServer) : option (list ListResponse) :=
  match fuel with
  | O => None
  | S n =>
      match ItemService_List lenient fts word (ask_page tok q) s with
      | Err _ => None
      | Ok r => if is_empty (lr_NextPageToken r) then Some [r] else option_map (cons r) (list_pages n q (lr_NextPageToken r) s)
      end
  end.

Lemma token_nonempty x : is_empty (token_of (Some x)) = false.
Proof. cbn [token_of]. apply url64_nonempty. destruct (formatTime (i_published_at x)); [|done]. by rewrite str_app_nil_l. Qed.

Definition shown (r : ItemRow) : ProtoItem := itemToProto (itemScanRow r).

Lemma list_pages_walk fuel q s cur ps :
  content_ok (content s) -> named_rows (content s) -> (forall x, cur = Some x -> x ∈ items (content s)) ->
  walk listed_before fuel (size_of q) cur (listed q (content s)) = Some ps ->
  exists rs, list_pages fuel q (token_of cur) s = Some rs /\ lr_Items <$> rs = (fun p => shown <$> p) <$> ps
    /\ Forall (fun r => lr_TotalCount r = itemCountMatching fts word q (content s)) rs.
Proof.
  intros Hd Hn. revert cur ps. induction fuel as [|n IH]; intros cur ps Hcur Hw; [done|]. cbn [walk list_pages] in *. rewrite (list_page q s cur Hd Hn Hcur).
  set (p := page (size_of q) (after listed_before cur (listed q (content s)))) in *. cbn [lr_NextPageToken].
  assert (Hmem : forall x, p.2 = Some x -> x ∈ items (content s)).
  { intros x. unfold p, page. destruct (_ <? _)%nat; [|done]. cbn [snd]. intros Hl. apply last_Some in Hl as [l Hl].
    assert (Hx : x ∈ after listed_before cur (listed q (content s))).
    { rewrite <- (take_drop (size_of q) (after _ _ _)). apply elem_of_app. left. rewrite Hl. apply elem_of_app. right. left. }
    assert (Hx' : x ∈ listed q (content s)) by (destruct cur; cbn [after] in Hx; [by apply list_elem_of_filter in Hx as [_ Hx]|done]).
    unfold listed in Hx'. rewrite order_listed_perm in Hx'. by apply list_elem_of_filter in Hx' as [_ Hx']. }
  rewrite <- list_fmap_compose. destruct p.2 as [x|] eqn:Ex.
  - rewrite token_nonempty. destruct (walk _ n _ (Some x) _) as [ps'|] eqn:Ew; [|done]. injection Hw as <-.
    destruct (IH (Some x) ps') as (rs & E1 & E2 & E3); [intros y [= <-]; by apply Hmem|done|]. rewrite E1. eexists. split; [reflexivity|].
    split; [|by constructor]. cbn. by rewrite E2.
  - injection Hw as <-. cbn [token_of]. change (is_empty "") with true. cbv iota. eexists. split; [reflexivity|]. split; [done|by constructor].
Qed.
End listing.
End pages.

(** ** Theorems *)


(** C17: no edit is lost. Once an edit, a deletion, a restoration or a revert from
    some version of an item has gone through, no such call made from that version
    or an older one goes through any more, whatever happens to the store in
    between; and a call that does not go through changes no row, writes no
    history and invalidates nothing. *)
Theorem edits_never_lost sha256hex lenient candidates_of id v v' s s1 s2 ok s3 :
  service_ok s -> versioned_call lenient id v s true s1 -> rtc (item_call sha256hex lenient candidates_of) s1 s2 ->
  v' <= v -> versioned_call lenient id v' s2 ok s3 -> ok = false /\ unchanged s2 s3.
Proof.
  intros Hs Hv Hc Hle Hv'. destruct (versioned_cases lenient id v s true s1 Hs Hv) as [[_ [_ (r & Hr & Hi & Hver)]]|[? _]]; [|done].
  assert (Hs1 : service_ok s1).
  { destruct Hv as [now p q s' Hp H|now q s' H|now q s' H|now rev q s' H].
    - pose proof (update_sound now (Some p) v s Hs) as [K _]. by rewrite H in K.
    - pose proof (call_sound sha256hex lenient candidates_of s _ (call_Delete sha256hex lenient candidates_of now id v s) Hs) as [K _]. by rewrite H in K.
    - pose proof (call_sound sha256hex lenient candidates_of s _ (call_Restore sha256hex lenient candidates_of now id v s) Hs) as [K _]. by rewrite H in K.
    - pose proof (revert_sound lenient now id rev v s Hs) as [K _]. by rewrite H in K. }
  pose proof (version_later sha256hex lenient candidates_of id (v + 1) s1 s2 r Hs1 Hc Hr Hi ltac:(lia)) as Hlater.
  destruct (calls_sound sha256hex lenient candidates_of s1 s2 Hc Hs1) as [Hs2 _].
  destruct (versioned_cases lenient id v' s2 ok s3 Hs2 Hv') as [[_ [(x & Hx & Hxi & Hxv) _]]|H]; [|done]. specialize (Hlater x Hx Hxi). lia.
Qed.

(** what an edit does when it goes through. The row was at the version the
    caller named; it gets the trimmed title, the sanitized markup and the next
    version and keeps its key, feed, hash, origin and creation time; every other
    row stays as it is; and the changed fields, with their old and new values,
    are one entry of the item's history, newer than all the others. *)
Theorem update_records_edit lenient now p v s q s' :
  service_ok s -> stamped s -> four_digit (next_stamp now s) -> Update now (Some p) v s = (Ok q, s') ->
  stamped s' /\ exists r r', r ∈ items (content s) /\ i_id r = p_Id p /\ i_version r = v
    /\ find_id (p_Id p) (items (content s')) = Some r' /\ q = itemToProto (itemScanRow r')
    /\ i_item_key r' = i_item_key r /\ i_feed_id r' = i_feed_id r /\ i_content_hash r' = i_content_hash r
    /\ i_origin r' = i_origin r /\ i_created_at r' = i_created_at r /\ i_version r' = v + 1
    /\ i_title r' = TrimSpace (p_Title p) /\ i_summary_text r' = p_SummaryText p /\ i_body_html r' = HTML (p_BodyHtml p)
    /\ of_null (i_answer_html r') = HTML (p_AnswerHtml p)
    /\ (forall x, x ∈ items (content s) -> i_id x <> p_Id p -> x ∈ items (content s'))
    /\ (let diff := itemDiff (itemScanRow r) (itemScanRow r') in diff <> [] ->
        revision_ats (p_Id p) (revisions s') = formatTime (next_stamp now s) :: revision_ats (p_Id p) (revisions s)
        /\ itemLoadRevisionFields lenient (p_Id p) (formatTime (next_stamp now s)) (revisions s')
           = Ok (MkItemRevision (next_id (revisions s)) (p_Id p) (next_stamp now s) (change_of <$> diff))).
Proof.
  intros Hs Hst H4 H. apply Update_ok in H as (r & t & Hr & Hi & Hv & Ht & Hf & -> & ->); [|done]. split; [by apply after_edit_stamped|].
  set (up := edited p t (itemScanRow r)). set (r' := edit_item_row (next_stamp now s) up r).
  assert (Ediff : itemDiff (itemScanRow r) (itemScanRow r') = itemDiff (itemScanRow r) up).
  { unfold itemDiff, r', up, edited, with_fields, itemScanRow, edit_item_row. cbn [Title SummaryText BodyHTML AnswerHTML Link SourceName PublishedAt i_title i_summary_text i_body_html i_answer_html i_link i_source_name i_published_at].
    by rewrite !nullString_roundtrip. }
  exists r, r'. split; [done|]. split; [done|]. split; [done|]. split; [rewrite <- Hi; by apply after_edit_row|]. do 6 (split; [done|]). split; [cbn; lia|].
  do 3 (split; [done|]). split; [apply nullString_roundtrip|]. split.
  - intros x Hx Hne. rewrite after_edit_content. unfold change_item, update_where. cbn. apply list_elem_of_fmap. exists x. split; [|done].
    rewrite (proj2 (Z.eqb_neq (i_id x) (i_id r))) by congruence. done.
  - cbv zeta. rewrite Ediff. intros Hd. destruct (after_edit_entry lenient now up r s Hs Hst H4 Hd) as (Ha & _ & Hl). rewrite Hi in Ha, Hl. done.
Qed.


(** what is published is seen. An item created by hand and a correction are
    dated, in whole seconds as a reader sees them, after every item their feed
    had, deleted ones included; they are new rows beside the old ones, which do
    not change, their markup is sanitized, and the feed's documents and those of
    the aggregates it belongs to are dropped from the cache. *)
Theorem published_after_newest sha256hex now key clk p s cid title summary body feed q s' :
  service_ok s -> dated feed (content s) ->
  Create sha256hex id now key clk (Some p) s = (Ok q, s') /\ p_FeedId p = feed
  \/ PublishCorrection sha256hex now key cid title summary body s = (Ok q, s') /\ (exists r, r ∈ items (content s) /\ i_id r = cid /\ i_feed_id r = feed) ->
  exists row slug, items (content s') = (items (content s) ++ [row])%list /\ q = itemToProto (itemScanRow row) /\ i_feed_id row = feed
    /\ i_item_key row = key /\ (exists html, i_body_html row = HTML html) /\ i_version row = 1
    /\ (forall r, r ∈ items (content s) -> i_feed_id r = feed -> unix (i_published_at r) < unix (i_published_at row))
    /\ itemFeedSlug feed (content s) = Some slug /\ (slug <> "" -> invalidated s' = (invalidated s ++ slug :: AggregateSlugsFor slug (content s'))%list).
Proof.
  assert (Hinv : forall slug x, content (invalidate_slug slug x) = content x
     /\ (slug <> "" -> invalidated (invalidate_slug slug x) = (invalidated x ++ slug :: AggregateSlugsFor slug (content x))%list)).
  { intros slug x. unfold invalidate_slug, is_empty. case_bool_decide; done. }
  intros Hs Hdated [[H <-]|[H (ro & Hro & Hroi & <-)]].
  - apply Create_ok in H as (k & c & slug & row & Hk & Hslug & Hb & -> & -> & ->); [|done]. set (row := new_item_row _ _ _ _ _).
    destruct (Hinv slug (set_content (append_item row (content s)) s)) as [Ec Ei]. exists row, slug. rewrite Ec. split_and!; try done; [by eexists|].
    intros r Hr Hf. destruct (newest_bounds _ _ r Hdated Hr Hf) as [Hle Hz]. unfold itemRejectBackdated in Hb. set (n := itemNewestPublished _ _ _) in *.
    cbn [i_published_at row new_item_row]. rewrite unix_truncate, unix_add_seconds, unix_truncated.
    assert (Hn : unix (truncate n second) = unix n) by apply unix_truncated. set (pub := default now (p_PublishedAt p)) in *.
    destruct (is_zero (truncate n second)) eqn:Ez.
    { apply Z.eqb_eq in Ez. exfalso. unfold truncate in Ez. pose proof (Z.mod_pos_bound (n - zero_time) second ltac:(done)). lia. }
    cbn [orb] in Hb. destruct (Z.ltb_spec (truncate n second) (truncate pub second)) as [Hlt|]; [|done].
    assert (unix n < unix pub); [|lia]. pose proof (truncate_unix n) as E1. pose proof (truncate_unix pub) as E2. unfold truncatePublishedAt in E1, E2.
    rewrite E1, E2 in Hlt. unfold second in Hlt. lia.
  - apply PublishCorrection_ok in H as (k & slug & original & row & Hor & Hoi & Hslug & -> & -> & ->); [|done].
    assert (original = ro) as -> by (eapply (ids_inj (items (content s))); [apply (sok_content s Hs)|done..|]; cbv [row_id row_item]; congruence).
    set (row := correction_row _ _ _ _).
    destruct (Hinv slug (set_corrections (corrections s ++ [MkCorrection (i_id row) cid])%list (set_content (append_item row (content s)) s))) as [Ec Ei].
    exists row, slug. rewrite Ec. split_and!; try done; [by eexists|]. intros r Hr Hf. destruct (newest_bounds _ _ r Hdated Hr Hf) as [Hle Hz].
    cbn [i_published_at row correction_row]. rewrite unix_add_seconds. set (n := itemNewestPublished _ _ _) in *.
    destruct (Z.ltb_spec n (truncate now second)) as [Hlt|Hge]; cbn [negb].
    + rewrite unix_truncated. pose proof (truncate_unix now) as E1. unfold truncatePublishedAt in E1. rewrite E1 in Hlt. pose proof (unix_nsec n). pose proof (nsec_range n). unfold second in *. nia.
    + replace (n + second) with (n + 1 * second) by lia. rewrite unix_add_seconds. lia.
Qed.

(** following a listing from its first page to the last shows every item that
    matches the filters exactly once, newest first, whatever the page size; no
    page is longer than asked, and each page counts all of them. *)
Theorem list_pages_complete lenient fts word q s :
  content_ok (content s) -> named_rows (content s) ->
  exists rs, list_pages lenient fts word (S (length (items (content s)))) q "" s = Some rs
    /\ mjoin (lr_Items <$> rs) = shown <$> listed fts word q (content s)
    /\ listed fts word q (content s) ≡ₚ filter (fun r => list_matches fts word q r = true) (items (content s))
    /\ StronglySorted (fun a b => listed_before a b = true) (listed fts word q (content s))
    /\ Forall (fun r => (length (lr_Items r) <= size_of q)%nat /\ lr_TotalCount r = Z.of_nat (length (listed fts word q (content s)))) rs.
Proof.
  intros Hd Hn. set (L := listed fts word q (content s)).
  assert (Hperm : L ≡ₚ filter (fun r => list_matches fts word q r = true) (items (content s))) by apply order_listed_perm.
  assert (Hlen : (length L <= length (items (content s)))%nat) by (rewrite Hperm; apply length_filter).
  assert (Hsort : sorted listed_before L).
  { apply order_listed_sorted, NoDup_ids_filter. exact (table_ok_NoDup _ (ok_items _ Hd)). }
  destruct (walk_all listed_before listed_before_trans listed_before_irrefl (S (length (items (content s)))) (size_of q) L) as (ps & Ew & Ej & Ek);
    [by apply page_size_pos|lia|done|].
  destruct (list_pages_walk lenient fts word _ q s None ps Hd Hn ltac:(done) Ew) as (rs & E1 & E2 & E3). exists rs. split; [exact E1|]. split_and!.
  - rewrite E2. rewrite <- Ej. clear. induction ps as [|p ps IH]; [done|].
    change (((shown <$> p) ++ mjoin ((fun p => shown <$> p) <$> ps))%list = shown <$> (p ++ mjoin ps)%list). by rewrite fmap_app, IH.
  - done.
  - exact Hsort.
  - assert (Hcount : itemCountMatching fts word q (content s) = Z.of_nat (length L)) by (unfold itemCountMatching; by rewrite Hperm).
    rewrite <- Hcount. clear - E2 E3 Ek. revert ps E2 Ek. induction E3 as [|r rs Hr _ IH]; intros ps E2 Ek; [constructor|]. destruct ps as [|p ps]; [done|].
    injection E2 as E2 E2'. apply Forall_cons_1 in Ek as [Hp Ek]. constructor; [|by eapply IH]. split; [|done]. rewrite E2, length_fmap. done.
Qed.

(** ** A concrete service, for witnesses *)

Definition demo_service : ItemServer := MkItemServer d_done [] [] 0 [].
Definition demo_edit : ProtoItem :=
  MkProtoItem 1 1 "" " New title " "summary" "<p>body</p><script>x</script>" "" "" "" [] ORIGIN_UNSPECIFIED None None None None None 0.
Definition blank_item : ProtoItem := MkProtoItem 0 0 "" "" "" "" "" "" "" [] ORIGIN_UNSPECIFIED None None None None None 0.
Definition answered (r : result item_code ProtoItem) : ProtoItem := match r with Ok q => q | Err _ => blank_item end.
Definition demo_when : Z := t0 + 60 * second.
Definition edited_service : ItemServer := (Update demo_when (Some demo_edit) 1 demo_service).2.
Definition demo_item_hash (s : string) : string := s.

Lemma demo_service_ok : service_ok demo_service.
Proof.
  split; [apply reachable_ok, d_done_reachable|apply table_ok_nil|constructor|split; constructor].
Qed.
Lemma demo_stamped : stamped demo_service.
Proof. constructor. Qed.
Lemma demo_edit_goes_through : Update demo_when (Some demo_edit) 1 demo_service = (Ok (answered (Update demo_when (Some demo_edit) 1 demo_service).1), edited_service).
Proof. vm_compute. reflexivity. Qed.
Lemma demo_four_digit : four_digit (next_stamp demo_when demo_service).
Proof. unfold four_digit. vm_compute. split; discriminate. Qed.


Lemma edits_never_lost_witness :
  unchanged edited_service (Delete (demo_when + second) 1 1 edited_service).2.
Proof.
  apply (edits_never_lost demo_item_hash (fun _ => None) (fun _ => None) 1 1 1 demo_service edited_service edited_service
           (went_through (Delete (demo_when + second) 1 1 edited_service).1)).
  - exact demo_service_ok.
  - change true with (went_through (Ok (answered (Update demo_when (Some demo_edit) 1 demo_service).1) : result item_code ProtoItem)).
    apply (vc_Update (fun _ => None) 1 1 demo_service demo_when demo_edit); [reflexivity|exact demo_edit_goes_through].
  - apply rtc_refl.
  - apply Z.le_refl.
  - apply (vc_Delete (fun _ => None) 1 1 edited_service (demo_when + second)). by destruct (Delete _ _ _ _).
Defined.

Lemma update_records_edit_witness : stamped edited_service.
Proof.
  exact (proj1 (update_records_edit (fun _ => None) demo_when demo_edit 1 demo_service (answered (Update demo_when (Some demo_edit) 1 demo_service).1) edited_service
           demo_service_ok demo_stamped demo_four_digit demo_edit_goes_through)).
Defined.


Lemma published_after_newest_witness :
  exists row slug, items (content (Create demo_item_hash id demo_when "k9" (fun _ => demo_when) (Some demo_edit) demo_service).2) = (items d_done ++ [row])%list
    /\ itemFeedSlug 1 d_done = Some slug /\ unix (t0 + 10 * second) < unix (i_published_at row).
Proof.
  destruct (published_after_newest demo_item_hash demo_when "k9" (fun _ => demo_when) demo_edit demo_service 0 "" "" "" 1
              (answered (Create demo_item_hash id demo_when "k9" (fun _ => demo_when) (Some demo_edit) demo_service).1)
              (Create demo_item_hash id demo_when "k9" (fun _ => demo_when) (Some demo_edit) demo_service).2)
    as (row & slug & Ei & _ & _ & _ & _ & _ & Hlt & Hslug & _).
  - exact demo_service_ok.
  - intros r Hr _. vm_compute in Hr. apply elem_of_cons in Hr as [->|Hr]; [|by apply elem_of_nil in Hr]. split; [|vm_compute; discriminate].
    unfold four_digit. vm_compute. split; discriminate.
  - left. split; [vm_compute; reflexivity|reflexivity].
  - exists row, slug. split; [exact Ei|]. split; [exact Hslug|]. apply (Hlt first_item); [vm_compute; left|reflexivity].
Defined.

Definition demo_query : ListRequest := MkListRequest 0 ORIGIN_UNSPECIFIED None None DELETED_FILTER_UNSPECIFIED "" 1 "".

Lemma list_pages_complete_witness :
  exists rs, list_pages (fun _ => None) (fun _ _ => false) (fun _ => true) 2 demo_query "" demo_service = Some rs
    /\ mjoin (lr_Items <$> rs) = shown <$> listed (fun _ _ => false) (fun _ => true) demo_query d_done.
Proof.
  destruct (list_pages_complete (fun _ => None) (fun _ _ => false) (fun _ => true) demo_query demo_service) as (rs & E1 & E2 & _).
  - apply reachable_ok, d_done_reachable.
  - apply Forall_forall. intros r Hr. vm_compute in Hr. apply elem_of_cons in Hr as [->|Hr]; [|by apply elem_of_nil in Hr].
    split; [unfold four_digit; vm_compute; split; discriminate|reflexivity].
  - exists rs. split; [exact E1|exact E2].
Defined.

(** An edit leaves the formatted variants of the text it replaced in the row. *)
Example edit_keeps_stale_variants :
  i_formats (edit_item_row demo_when (edited demo_edit 0 (itemScanRow first_item))
    (MkItemRow 1 1 "k" "h" "old" "" "" None None None (Some (MkFormats "old text" "" "" "")) 0 None "generated" 1 0 0 None None))
  = Some (MkFormats "old text" "" "" "").
Proof. reflexivity. Qed.
