(* ===== verification/FeedService.v ===== *)
(** * The feed service: internal/rpc/feed.go, recurrence_conv.go

    Everything the control plane does to feeds: create, edit, enable, delete, set the
    members of an aggregate, import and export recipes, start a run, and the
    listing; and the failure counters of cmd/animefeedflux/wire.go on the same rows.

    A handler takes the state of the service and returns an error or a response, and
    the state.  Between what a handler checks and what it writes other writers may
    come: that is its argument [mid].  The database answers every statement.
    [LoadLocation] and [template_ok] are those of [FeedSpec]; encoding/json of a
    recipe is the class [Codec]. *)

From S2P Require Import Prelude GoTime GoStrings Cron Recurrence Timestamps TimeRead Tables Schema StoreItems StoreRuns.
From S2P Require Import Budget Generate Pipeline FeedSpec Wire Password Paging.
From Stdlib Require Import String Ascii.
Local Open Scope string_scope.
Local Open Scope Z_scope.
Local Abbreviation length := List.length.
Local Abbreviation ToLower := GoStrings.ToLower.

(** ** The messages *)


Record ProtoRecurrence := MkProtoRecurrence {
  pr_Frequency : Z; pr_Interval : Z; pr_Weekdays : list Z; pr_MonthDay : Z; pr_SetPosition : Z; pr_Hour : Z; pr_Minute : Z;
  pr_Anchor : option Z }.
Record ProtoSource := MkProtoSource { psr_Url : string; psr_Kind : string }.

(** An absent novelty message reads as zeros. *)
Record ProtoSpec := MkProtoSpec {
  fp_ScheduleMode : string; fp_Cron : string; fp_Timezone : string; fp_Recurrence : option ProtoRecurrence;
  fp_ItemsPerRun : Z; fp_FeedWindow : Z; fp_Model : string; fp_Temperature : float64; fp_WebSearch : bool;
  fp_SystemPromptTemplate : string; fp_UserPromptTemplate : string; fp_NoveltyWindowItems : Z; fp_SimilarityThreshold : float64;
  fp_DailyTokenBudget : Z; fp_DailyRunBudget : Z; fp_Sources : list ProtoSource }.

(** What the getters of an absent message return. *)
Definition no_spec : ProtoSpec := MkProtoSpec "" "" "" None 0 0 "" f64_zero false "" "" 0 f64_zero 0 0 [].

Record ProtoFeed := MkProtoFeed {
  pf_Id : Z; pf_Slug : string; pf_Kind : Z; pf_Title : string; pf_Description : string; pf_Language : string; pf_Author : string;
  pf_Copyright : string; pf_OgImage : string; pf_TtlMinutes : Z; pf_Enabled : bool; pf_CreatedAt : Z; pf_JitterOffsetSeconds : Z;
  pf_ConsecutiveFailures : Z; pf_Version : Z; pf_LastBuiltAt : option Z; pf_MemberSlugs : list string; pf_Spec : option ProtoSpec }.

Definition FEED_KIND_UNSPECIFIED : Z := 0.
Definition FEED_KIND_GENERATIVE : Z := 1.
Definition FEED_KIND_GROUNDED : Z := 2.
Definition FEED_KIND_AGGREGATE : Z := 3.

Inductive feed_code := Feed_InvalidArgument | Feed_NotFound | Feed_FailedPrecondition | Feed_AlreadyExists | Feed_Internal.
#[export] Instance feed_code_eq_dec : EqDecision feed_code.
Proof. solve_decision. Defined.

(** ** Schedules on the wire: recurrence_conv.go *)

Definition protoWeekdays : list (Z * string) :=
  [(1, "sunday"); (2, "monday"); (3, "tuesday"); (4, "wednesday"); (5, "thursday"); (6, "friday"); (7, "saturday")].
Definition protoFrequencies : list (Z * string) := [(1, "daily"); (2, "weekly"); (3, "monthly")].

Definition name_of (k : Z) (l : list (Z * string)) : option string :=
  match List.find (fun p => p.1 =? k) l with Some p => Some p.2 | None => None end.
Definition number_of (n : string) (l : list (Z * string)) : option Z :=
  match List.find (fun p => String.eqb p.2 n) l with Some p => Some p.1 | None => None end.

(** [Timestamp.IsValid]: the years 1 to 9999. *)
Definition timestamp_valid (t : Z) : bool := (-62135596800 <=? unix t) && (unix t <=? 253402300799).

Definition recurrenceFromProto (pr : option ProtoRecurrence) : option WrittenRecurrence :=
  match pr with
  | None => None
  | Some pr =>
      match name_of (pr_Frequency pr) protoFrequencies with
      | None => None
      | Some freq =>
          let days := omap (fun d => name_of d protoWeekdays) (pr_Weekdays pr) in
          let anchor := match pr_Anchor pr with
                        | Some ts => if timestamp_valid ts then format_date UTC ts else ""
                        | None => ""
                        end in
          Some (MkWritten freq (pr_Interval pr) days (pr_MonthDay pr) (pr_SetPosition pr) (pr_Hour pr) (pr_Minute pr) anchor)
      end
  end.

Definition recurrenceToProto (r : option WrittenRecurrence) : option ProtoRecurrence :=
  match r with
  | None => None
  | Some r =>
      let days := omap (fun n => number_of n protoWeekdays) (wr_Weekdays r) in
      let anchor := if is_empty (wr_Anchor r) then None else parse_date UTC (wr_Anchor r) in
      Some (MkProtoRecurrence (default 0 (number_of (wr_Frequency r) protoFrequencies)) (wrap32 (wr_Interval r)) days
              (wrap32 (wr_MonthDay r)) (wrap32 (wr_SetPosition r)) (wrap32 (wr_Hour r)) (wrap32 (wr_Minute r)) anchor)
  end.

(** ** Recipes on the wire *)

Definition feedKindFromProto (k : Z) : string :=
  if k =? FEED_KIND_GENERATIVE then KindGenerative else if k =? FEED_KIND_GROUNDED then KindGrounded
  else if k =? FEED_KIND_AGGREGATE then KindAggregate else "".

Definition feedKindToProto (k : string) : Z :=
  if String.eqb k KindGenerative then FEED_KIND_GENERATIVE else if String.eqb k KindGrounded then FEED_KIND_GROUNDED
  else if String.eqb k KindAggregate then FEED_KIND_AGGREGATE else FEED_KIND_UNSPECIFIED.

Definition feedSourcesFromProto (l : list ProtoSource) : list SourceSpec := (fun s => MkSource (psr_Url s) (psr_Kind s)) <$> l.
Definition feedSourcesToProto (l : list SourceSpec) : list ProtoSource := (fun s => MkProtoSource (src_URL s) (src_Kind s)) <$> l.

Definition feedSpecFromProto (ps : option ProtoSpec) : FeedSpec :=
  let ps := default no_spec ps in
  MkFeedSpec "" "" "" "" "" (fp_Cron ps) (fp_Timezone ps) (recurrenceFromProto (fp_Recurrence ps)) (fp_ScheduleMode ps)
    (fp_ItemsPerRun ps) (fp_FeedWindow ps) (MkModelParams (fp_Model ps) (fp_Temperature ps) "balanced" "" (fp_WebSearch ps))
    (fp_SystemPromptTemplate ps) (fp_UserPromptTemplate ps)
    (MkNoveltyParams (fp_NoveltyWindowItems ps) (fp_SimilarityThreshold ps) (MaxRetries (fs_Novelty Defaults)))
    (MkBudgets (fp_DailyTokenBudget ps) (fp_DailyRunBudget ps)) (feedSourcesFromProto (fp_Sources ps)) [].

Definition feedSpecToProto (s : FeedSpec) : ProtoSpec :=
  MkProtoSpec (ScheduleMode s) (fs_Cron s) (fs_Timezone s) (recurrenceToProto (fs_Recurrence s)) (wrap32 (fs_ItemsPerRun s))
    (wrap32 (fs_FeedWindow s)) (mp_Model (fs_Model s)) (mp_Temperature (fs_Model s)) (mp_WebSearch (fs_Model s)) (fs_SystemPrompt s)
    (fs_UserPrompt s) (wrap32 (ExcludeLast (fs_Novelty s))) (Threshold (fs_Novelty s)) (DailyTokens (fs_Budgets s))
    (wrap32 (DailyRuns (fs_Budgets s))) (feedSourcesToProto (fs_Sources s)).

(** The recipe with the identity of the feed, and with these members. *)
Definition with_identity (slug title description language kind : string) (s : FeedSpec) : FeedSpec :=
  MkFeedSpec slug title description language kind (fs_Cron s) (fs_Timezone s) (fs_Recurrence s) (ScheduleMode s) (fs_ItemsPerRun s)
    (fs_FeedWindow s) (fs_Model s) (fs_SystemPrompt s) (fs_UserPrompt s) (fs_Novelty s) (fs_Budgets s) (fs_Sources s) (fs_Members s).
Definition with_members (members : list string) (s : FeedSpec) : FeedSpec :=
  MkFeedSpec (fs_Slug s) (fs_Title s) (fs_Description s) (fs_Language s) (fs_Kind s) (fs_Cron s) (fs_Timezone s) (fs_Recurrence s)
    (ScheduleMode s) (fs_ItemsPerRun s) (fs_FeedWindow s) (fs_Model s) (fs_SystemPrompt s) (fs_UserPrompt s) (fs_Novelty s)
    (fs_Budgets s) (fs_Sources s) members.

Definition feedFullSpecFromProto (in_ : ProtoFeed) (kind : string) : FeedSpec :=
  let spec := with_identity (pf_Slug in_) (pf_Title in_) (pf_Description in_) (pf_Language in_) kind (feedSpecFromProto (pf_Spec in_)) in
  if String.eqb kind KindAggregate then with_members (pf_MemberSlugs in_) spec else spec.

(** [json.MarshalIndent], which refuses a number that is not finite, and
    [json.Unmarshal]. *)
Class Codec := { Export : FeedSpec -> option string; Import : string -> option FeedSpec }.

(** ** Messages of problems *)

Definition feedProblemMessage (reason : string) : string :=
  default reason (assoc reason [
    ("slug_shape", "slug must be 3-48 lowercase letters, digits or hyphens");
    ("slug_reserved", "slug is reserved and cannot be used");
    ("cron_invalid", "cron expression is invalid");
    ("timezone_invalid", "timezone is not a recognised IANA zone");
    ("template_invalid", "prompt template references an unknown variable or fails to execute");
    ("kind_invalid", "kind must be generative, grounded or aggregate");
    ("grounded_requires_source", "grounded feeds require at least one source");
    ("generative_forbids_source", "generative feeds must not declare sources");
    ("aggregate_requires_member", "aggregate feeds require at least one member");
    ("aggregate_forbids_source", "aggregate feeds must not declare sources");
    ("aggregate_forbids_prompt", "aggregate feeds must not declare prompts");
    ("aggregate_self_member", "an aggregate cannot list itself as a member");
    ("budget_daily_tokens_zero", "daily token budget must be greater than zero");
    ("budget_daily_runs_zero", "daily run budget must be greater than zero");
    ("items_per_run_out_of_range", "items per run is out of range");
    ("feed_window_out_of_range", "feed window is out of range");
    ("model_not_chat", "model is an embedding model, not a text-generation model")]).

Record FieldError := MkFieldError { fe_Field : string; fe_Message : string }.
Definition feedProblemsToFieldErrors (l : list Problem) : list FieldError :=
  (fun p => MkFieldError (pb_Field p) (feedProblemMessage (pb_Reason p))) <$> l.

(** ** The state *)

(** The database, the slugs whose documents were dropped from the render cache, and
    the runs handed to the executor, each in order. *)
Record FeedServer := MkFeedServer { db : Content; dropped : list string; started : list (Z * Z) }.

Definition set_db (d : Content) (s : FeedServer) : FeedServer := MkFeedServer d (dropped s) (started s).
Definition log_dropped (l : list string) (s : FeedServer) : FeedServer := MkFeedServer (db s) (dropped s ++ l)%list (started s).

Definition set_members (x : list MemberRow) (d : Content) : Content :=
  MkContent (feeds d) x (items d) (runs d) (embeddings d) (samples d) (spend d).

Record feedRecord := MkFeedRecord {
  rec_ID : Z; rec_Slug : string; rec_Title : string; rec_Description : string; rec_Language : string; rec_Kind : string;
  rec_SpecJSON : string; rec_Enabled : bool; rec_Timezone : string; rec_JitterOffset : Z; rec_LastBuiltAt : Z;
  rec_ConsecutiveFailures : Z; rec_Author : string; rec_Copyright : string; rec_OGImage : string; rec_TTLMinutes : Z;
  rec_Version : Z; rec_DeletedAt : Z; rec_CreatedAt : Z; rec_UpdatedAt : Z }.

Definition feedScanRecord (r : FeedRow) : feedRecord :=
  MkFeedRecord (f_id r) (f_slug r) (f_title r) (f_description r) (f_language r) (f_kind r) (f_spec_json r) (f_enabled r) (f_timezone r)
    (f_jitter_offset r) (of_null_time (f_last_built_at r)) (f_consecutive_failures r) (of_null (f_author r)) (of_null (f_copyright r))
    (of_null (f_og_image r)) (f_ttl_minutes r) (f_version r) (of_null_time (f_deleted_at r)) (f_created_at r) (f_updated_at r).

Definition live (r : FeedRow) : bool := bool_decide (f_deleted_at r = None).

Definition feedRequireFeed (id : Z) (d : Content) : result feed_code feedRecord :=
  match List.find (fun r => (f_id r =? id) && live r) (feeds d) with Some r => Ok (feedScanRecord r) | None => Err Feed_NotFound end.

Definition live_slug (slug : string) (d : Content) : option FeedRow :=
  List.find (fun r => String.eqb (f_slug r) slug && live r) (feeds d).

Definition feedRequireFeedBySlug (slug : string) (d : Content) : result feed_code feedRecord :=
  match live_slug slug d with Some r => Ok (feedScanRecord r) | None => Err Feed_NotFound end.

(** [ORDER BY position]. *)
Fixpoint insert_position (m : MemberRow) (l : list MemberRow) : list MemberRow :=
  match l with
  | [] => [m]
  | x :: l' => if m_position m <=? m_position x then m :: l else x :: insert_position m l'
  end.
Definition order_position (l : list MemberRow) : list MemberRow := foldr insert_position [] l.

Definition feedListMembers (aggregateID : Z) (d : Content) : list string :=
  omap (fun m => f_slug <$> find_id (m_member m) (feeds d))
    (order_position (filter (fun m => (m_aggregate m =? aggregateID) = true) (members d))).

Definition aggregates_of (feedID : Z) (d : Content) : list string :=
  omap (fun m => f_slug <$> find_id (m_aggregate m) (feeds d)) (filter (fun m => (m_member m =? feedID) = true) (members d)).

Definition feedInvalidate (feedID : Z) (slug : string) (s : FeedServer) : FeedServer :=
  log_dropped (slug :: aggregates_of feedID (db s)) s.

Section service.
Context (LoadLocation : string -> option Location) (template_ok : string -> bool) {codec : Codec}.
Abbreviation problems_of := (Spec_Validate LoadLocation template_ok).

Definition feedToProto (rec : feedRecord) (d : Content) : result feed_code ProtoFeed :=
  let p members spec :=
    MkProtoFeed (rec_ID rec) (rec_Slug rec) (feedKindToProto (rec_Kind rec)) (rec_Title rec) (rec_Description rec) (rec_Language rec)
      (rec_Author rec) (rec_Copyright rec) (rec_OGImage rec) (wrap32 (rec_TTLMinutes rec)) (rec_Enabled rec) (rec_CreatedAt rec)
      (wrap32 (rec_JitterOffset rec)) (wrap32 (rec_ConsecutiveFailures rec)) (rec_Version rec)
      (if is_zero (rec_LastBuiltAt rec) then None else Some (rec_LastBuiltAt rec)) members spec in
  if String.eqb (rec_Kind rec) KindAggregate then Ok (p (feedListMembers (rec_ID rec) d) None)
  else match Import (rec_SpecJSON rec) with
       | None => Err Feed_Internal
       | Some spec => Ok (p [] (Some (feedSpecToProto spec)))
       end.

(** The feed as it is after a write, and the documents dropped once it is read. *)
Definition answer_feed (id : Z) (slugs : list string) (s : FeedServer) : result feed_code ProtoFeed * FeedServer :=
  match feedRequireFeed id (db s) with
  | Err e => (Err e, s)
  | Ok rec =>
      match feedToProto rec (db s) with
      | Err e => (Err e, s)
      | Ok p => (Ok p, foldl (fun s slug => feedInvalidate id slug s) s slugs)
      end
  end.

(** ** Members *)

Fixpoint feedCheckMembers (aggregateSlug : string) (slugs : list string) (d : Content) : option feed_code :=
  match slugs with
  | [] => None
  | slug :: rest =>
      if String.eqb slug aggregateSlug then Some Feed_InvalidArgument
      else match live_slug slug d with
           | None => Some Feed_InvalidArgument
           | Some r => if String.eqb (f_kind r) KindAggregate then Some Feed_InvalidArgument else feedCheckMembers aggregateSlug rest d
           end
  end.

(** The insertions, at positions from [i]; the primary key is the pair of feeds. *)
Fixpoint insert_members (aggregateID : Z) (i : Z) (slugs : list string) (d : Content) (l : list MemberRow) : result feed_code (list MemberRow) :=
  match slugs with
  | [] => Ok l
  | slug :: rest =>
      match live_slug slug d with
      | None => Err Feed_InvalidArgument
      | Some r =>
          if existsb (fun m => (m_aggregate m =? aggregateID) && (m_member m =? f_id r)) l then Err Feed_Internal
          else insert_members aggregateID (i + 1) rest d (l ++ [MkMember aggregateID (f_id r) i])
      end
  end.

Definition feedReplaceMembersTx (aggregateID : Z) (slugs : list string) (d : Content) : result feed_code Content :=
  let? l := insert_members aggregateID 0 slugs d (filter (fun m => (m_aggregate m =? aggregateID) = false) (members d)) in
  Ok (set_members l d).

(** ** Writing rows *)

Record feedIdentityExtra := MkExtra { ex_Enabled : bool; ex_Author : string; ex_Copyright : string; ex_OGImage : string; ex_TTLMinutes : Z }.

Definition feedJitterWindow : Z := 10 * minute.

Definition new_feed_row (id now : Z) (spec : FeedSpec) (specJSON : string) (extra : feedIdentityExtra) : FeedRow :=
  MkFeedRow id (fs_Slug spec) (fs_Title spec) (fs_Description spec) (fs_Language spec) (fs_Kind spec) (ex_Enabled extra) (fs_Timezone spec)
    (nullString (ex_Author extra)) (nullString (ex_Copyright extra)) (nullString (ex_OGImage extra)) (ex_TTLMinutes extra) None 1 None
    now now specJSON (Offset (fs_Slug spec) feedJitterWindow / second) 0.

(** One transaction: the row, and the members of an aggregate. *)
Definition feedInsert (now : Z) (spec : FeedSpec) (extra : feedIdentityExtra) (d : Content) : result feed_code (Z * Content) :=
  match Export spec with
  | None => Err Feed_Internal
  | Some specJSON =>
      if existsb (fun r => String.eqb (f_slug r) (fs_Slug spec)) (feeds d) then Err Feed_AlreadyExists
      else if negb (valid_kind (fs_Kind spec)) then Err Feed_Internal
      else
        let id := next_id (feeds d) in
        let d' := set_feeds (feeds d ++ [new_feed_row id now spec specJSON extra]) d in
        if String.eqb (fs_Kind spec) KindAggregate
        then let? d'' := feedReplaceMembersTx id (fs_Members spec) d' in Ok (id, d'')
        else Ok (id, d')
  end.

Definition at_feed (id version : Z) (r : FeedRow) : bool := (f_id r =? id) && (f_version r =? version).

(** The [SET] list of an edit: the kind, the jitter and the counters are not in it. *)
Definition edit_feed_row (now : Z) (spec : FeedSpec) (specJSON : string) (extra : feedIdentityExtra) (r : FeedRow) : FeedRow :=
  MkFeedRow (f_id r) (fs_Slug spec) (fs_Title spec) (fs_Description spec) (fs_Language spec) (f_kind r) (ex_Enabled extra) (fs_Timezone spec)
    (nullString (ex_Author extra)) (nullString (ex_Copyright extra)) (nullString (ex_OGImage extra)) (ex_TTLMinutes extra)
    (f_last_built_at r) (f_version r + 1) (f_deleted_at r) (f_created_at r) now specJSON (f_jitter_offset r) (f_consecutive_failures r).

(** An [UPDATE] of the row [hit] finds: no row is a version conflict, a slug that
    another row has is refused by the database. *)
Definition update_feed (hit : FeedRow -> bool) (f : FeedRow -> FeedRow) (d : Content) : result feed_code Content :=
  match List.find hit (feeds d) with
  | None => Err Feed_FailedPrecondition
  | Some r =>
      if existsb (fun x => negb (f_id x =? f_id r) && String.eqb (f_slug x) (f_slug (f r))) (feeds d) then Err Feed_Internal
      else Ok (set_feeds (update_where hit f (feeds d)) d)
  end.

Definition feedApplyUpdate (now : Z) (rec : feedRecord) (spec : FeedSpec) (extra : feedIdentityExtra) (expectedVersion : Z) (d : Content)
    : result feed_code Content :=
  match Export spec with
  | None => Err Feed_Internal
  | Some specJSON => update_feed (at_feed (rec_ID rec) expectedVersion) (edit_feed_row now spec specJSON extra) d
  end.

Definition feedCheckSlugImmutable (rec : feedRecord) (newSlug : string) (d : Content) : option feed_code :=
  if String.eqb newSlug (rec_Slug rec) then None
  else if existsb (fun r => i_feed_id r =? rec_ID rec) (items d) then Some Feed_FailedPrecondition else None.

(** ** The handlers *)

(** [settings.publishing]; [None] when the row is missing or unreadable. *)
Record Publishing := MkPublishing { DefaultAuthor : string; DefaultCopyright : string; DefaultOgImage : string; DefaultTtlMinutes : Z }.
Definition feedPublishingDefaults (row : option Publishing) : Publishing := default (MkPublishing "" "" "" 0) row.

Definition feedFirstNonEmpty (a b : string) : string :=
  if negb (is_empty (TrimSpace a)) then a else if negb (is_empty (TrimSpace b)) then b else "".

(** The rules of a new recipe, and of the members of an aggregate. *)
Definition check_new (spec : FeedSpec) (d : Content) : option feed_code :=
  if negb (no_elem (problems_of spec)) then Some Feed_InvalidArgument
  else if String.eqb (fs_Kind spec) KindAggregate then feedCheckMembers (fs_Slug spec) (fs_Members spec) d else None.

(** What [Create] and [ImportTOML] do once the recipe is checked. *)
Definition insert_and_answer (now : Z) (spec : FeedSpec) (extra : feedIdentityExtra) (s : FeedServer) : result feed_code ProtoFeed * FeedServer :=
  match feedInsert now spec extra (db s) with
  | Err e => (Err e, s)
  | Ok (id, d) => answer_feed id [fs_Slug spec] (set_db d s)
  end.

Definition FeedService_Create (mid : Content -> Content) (now : Z) (settings : option Publishing) (in_ : option ProtoFeed) (s : FeedServer)
    : result feed_code ProtoFeed * FeedServer :=
  match in_ with
  | None => (Err Feed_InvalidArgument, s)
  | Some in_ =>
      let kind := feedKindFromProto (pf_Kind in_) in
      let spec := feedFullSpecFromProto in_ kind in
      match check_new spec (db s) with
      | Some e => (Err e, s)
      | None =>
          let defaults := feedPublishingDefaults settings in
          let ttl := if pf_TtlMinutes in_ =? 0 then DefaultTtlMinutes defaults else pf_TtlMinutes in_ in
          let extra := MkExtra (pf_Enabled in_) (feedFirstNonEmpty (pf_Author in_) (DefaultAuthor defaults))
                         (feedFirstNonEmpty (pf_Copyright in_) (DefaultCopyright defaults))
                         (feedFirstNonEmpty (pf_OgImage in_) (DefaultOgImage defaults)) ttl in
          insert_and_answer now spec extra (set_db (mid (db s)) s)
      end
  end.

(** The feed at the expected version. *)
Definition at_expected (id expectedVersion : Z) (d : Content) : result feed_code feedRecord :=
  let? rec := feedRequireFeed id d in
  if rec_Version rec =? expectedVersion then Ok rec else Err Feed_FailedPrecondition.

Definition renamed (rec : feedRecord) (slug : string) : list string :=
  if String.eqb slug (rec_Slug rec) then [rec_Slug rec] else [rec_Slug rec; slug].

Definition FeedService_Update (mid : Content -> Content) (now : Z) (in_ : option ProtoFeed) (expectedVersion : Z) (s : FeedServer)
    : result feed_code ProtoFeed * FeedServer :=
  match in_ with
  | None => (Err Feed_InvalidArgument, s)
  | Some in_ =>
      match at_expected (pf_Id in_) expectedVersion (db s) with
      | Err e => (Err e, s)
      | Ok rec =>
          if negb (String.eqb (feedKindFromProto (pf_Kind in_)) (rec_Kind rec)) then (Err Feed_InvalidArgument, s)
          else match feedCheckSlugImmutable rec (pf_Slug in_) (db s) with
          | Some e => (Err e, s)
          | None =>
              let spec := feedFullSpecFromProto in_ (rec_Kind rec) in
              let spec := if String.eqb (rec_Kind rec) KindAggregate then with_members (feedListMembers (rec_ID rec) (db s)) spec else spec in
              if negb (no_elem (problems_of spec)) then (Err Feed_InvalidArgument, s)
              else
                let extra := MkExtra (pf_Enabled in_) (pf_Author in_) (pf_Copyright in_) (pf_OgImage in_) (pf_TtlMinutes in_) in
                let s := set_db (mid (db s)) s in
                match feedApplyUpdate now rec spec extra expectedVersion (db s) with
                | Err e => (Err e, s)
                | Ok d => answer_feed (rec_ID rec) (renamed rec (pf_Slug in_)) (set_db d s)
                end
          end
      end
  end.

Definition enable_row (now : Z) (enabled : bool) (r : FeedRow) : FeedRow :=
  MkFeedRow (f_id r) (f_slug r) (f_title r) (f_description r) (f_language r) (f_kind r) enabled (f_timezone r) (f_author r) (f_copyright r)
    (f_og_image r) (f_ttl_minutes r) (f_last_built_at r) (f_version r + 1) (f_deleted_at r) (f_created_at r) now (f_spec_json r)
    (f_jitter_offset r) (if enabled then 0 else f_consecutive_failures r).

Definition FeedService_SetEnabled (mid : Content -> Content) (now id : Z) (enabled : bool) (expectedVersion : Z) (s : FeedServer)
    : result feed_code ProtoFeed * FeedServer :=
  match at_expected id expectedVersion (db s) with
  | Err e => (Err e, s)
  | Ok rec =>
      let s := set_db (mid (db s)) s in
      match update_feed (at_feed (rec_ID rec) expectedVersion) (enable_row now enabled) (db s) with
      | Err e => (Err e, s)
      | Ok d => answer_feed (rec_ID rec) [rec_Slug rec] (set_db d s)
      end
  end.

Definition tombstone_slug (slug : string) (now : Z) : string := slug ++ "-deleted-" ++ show_int now.

Definition bury_row (now : Z) (slug : string) (r : FeedRow) : FeedRow :=
  MkFeedRow (f_id r) slug (f_title r) (f_description r) (f_language r) (f_kind r) (f_enabled r) (f_timezone r) (f_author r) (f_copyright r)
    (f_og_image r) (f_ttl_minutes r) (f_last_built_at r) (f_version r + 1) (Some now) (f_created_at r) now (f_spec_json r)
    (f_jitter_offset r) (f_consecutive_failures r).

Definition FeedService_Delete (mid : Content -> Content) (now id expectedVersion : Z) (s : FeedServer) : result feed_code unit * FeedServer :=
  match at_expected id expectedVersion (db s) with
  | Err e => (Err e, s)
  | Ok rec =>
      let s := set_db (mid (db s)) s in
      let hit r := at_feed (rec_ID rec) expectedVersion r && live r in
      match update_feed hit (bury_row now (tombstone_slug (rec_Slug rec) now)) (db s) with
      | Err e => (Err e, s)
      | Ok d => (Ok tt, feedInvalidate (rec_ID rec) (rec_Slug rec) (set_db d s))
      end
  end.

(** [checked] and [now] are the clock readings of [StartRun]. *)
Definition FeedService_RunNow (checked now id : Z) (s : FeedServer) : result feed_code Z * FeedServer :=
  match feedRequireFeed id (db s) with
  | Err e => (Err e, s)
  | Ok rec =>
      if String.eqb (rec_Kind rec) KindAggregate then (Err Feed_FailedPrecondition, s)
      else match StartRun checked now (rec_ID rec) "manual" "rpc:feed.RunNow" (db s) with
           | Err RunInProgress => (Err Feed_FailedPrecondition, s)
           | Err _ => (Err Feed_Internal, s)
           | Ok (runID, d) => (Ok runID, MkFeedServer d (dropped s) (started s ++ [(rec_ID rec, runID)])%list)
           end
  end.

Definition FeedService_ValidateSpec (spec : option ProtoSpec) (slug : string) (kind : Z) : bool * list FieldError :=
  let problems := problems_of (with_identity slug "" "" "" (feedKindFromProto kind) (feedSpecFromProto spec)) in
  (no_elem problems, feedProblemsToFieldErrors problems).

Definition touch_row (now : Z) (specJSON : option string) (r : FeedRow) : FeedRow :=
  MkFeedRow (f_id r) (f_slug r) (f_title r) (f_description r) (f_language r) (f_kind r) (f_enabled r) (f_timezone r) (f_author r)
    (f_copyright r) (f_og_image r) (f_ttl_minutes r) (f_last_built_at r)
    (match specJSON with None => f_version r + 1 | Some _ => f_version r end) (f_deleted_at r) (f_created_at r)
    (match specJSON with None => now | Some _ => f_updated_at r end) (default (f_spec_json r) specJSON)
    (f_jitter_offset r) (f_consecutive_failures r).

(** The transaction of [SetMembers]: the version, the members, and the recipe that
    mirrors them. *)
Definition set_members_tx (now : Z) (rec : feedRecord) (slugs : list string) (expectedVersion : Z) (d : Content) : result feed_code Content :=
  let? d := update_feed (at_feed (rec_ID rec) expectedVersion) (touch_row now None) d in
  let? d := feedReplaceMembersTx (rec_ID rec) slugs d in
  match Import (rec_SpecJSON rec) with
  | None => Err Feed_Internal
  | Some spec =>
      match Export (with_members slugs spec) with
      | None => Err Feed_Internal
      | Some j => Ok (set_feeds (update_where (fun r => f_id r =? rec_ID rec) (touch_row now (Some j)) (feeds d)) d)
      end
  end.

Definition FeedService_SetMembers (mid : Content -> Content) (now id : Z) (slugs : list string) (expectedVersion : Z) (s : FeedServer)
    : result feed_code ProtoFeed * FeedServer :=
  match feedRequireFeed id (db s) with
  | Err e => (Err e, s)
  | Ok rec =>
      if negb (String.eqb (rec_Kind rec) KindAggregate) then (Err Feed_InvalidArgument, s)
      else if negb (rec_Version rec =? expectedVersion) then (Err Feed_FailedPrecondition, s)
      else match feedCheckMembers (rec_Slug rec) slugs (db s) with
           | Some e => (Err e, s)
           | None =>
               let s := set_db (mid (db s)) s in
               match set_members_tx now rec slugs expectedVersion (db s) with
               | Err e => (Err e, s)
               | Ok d => answer_feed (rec_ID rec) [rec_Slug rec] (set_db d s)
               end
           end
  end.

Definition FeedService_ExportTOML (id : Z) (s : FeedServer) : result feed_code string :=
  let? rec := feedRequireFeed id (db s) in
  match Import (rec_SpecJSON rec) with
  | None => Err Feed_Internal
  | Some spec =>
      let spec := with_identity (rec_Slug rec) (rec_Title rec) (rec_Description rec) (rec_Language rec) (rec_Kind rec) spec in
      let spec := if String.eqb (rec_Kind rec) KindAggregate then with_members (feedListMembers (rec_ID rec) (db s)) spec else spec in
      match Export spec with None => Err Feed_Internal | Some out => Ok out end
  end.

Definition extra_of (rec : feedRecord) : feedIdentityExtra :=
  MkExtra (rec_Enabled rec) (rec_Author rec) (rec_Copyright rec) (rec_OGImage rec) (wrap32 (rec_TTLMinutes rec)).

Definition FeedService_ImportTOML (mid : Content -> Content) (now id : Z) (toml : string) (expectedVersion : Z) (s : FeedServer)
    : result feed_code ProtoFeed * FeedServer :=
  match Import toml with
  | None => (Err Feed_InvalidArgument, s)
  | Some spec =>
      if id =? 0 then
        match check_new spec (db s) with
        | Some e => (Err e, s)
        | None => insert_and_answer now spec (MkExtra false "" "" "" 0) (set_db (mid (db s)) s)
        end
      else match at_expected id expectedVersion (db s) with
      | Err e => (Err e, s)
      | Ok rec =>
          if negb (String.eqb (fs_Kind spec) (rec_Kind rec)) then (Err Feed_InvalidArgument, s)
          else match feedCheckSlugImmutable rec (fs_Slug spec) (db s) with
          | Some e => (Err e, s)
          | None =>
              let aggregate := String.eqb (fs_Kind spec) KindAggregate in
              match (if aggregate then feedCheckMembers (fs_Slug spec) (fs_Members spec) (db s) else None) with
              | Some e => (Err e, s)
              | None =>
                  if negb (no_elem (problems_of spec)) then (Err Feed_InvalidArgument, s)
                  else
                    let s := set_db (mid (db s)) s in
                    match feedApplyUpdate now rec spec (extra_of rec) expectedVersion (db s) with
                    | Err e => (Err e, s)
                    | Ok d =>
                        let s := set_db d s in
                        match (if aggregate then feedReplaceMembersTx (rec_ID rec) (fs_Members spec) d else Ok d) with
                        | Err e => (Err e, s)
                        | Ok d => answer_feed (rec_ID rec) (renamed rec (fs_Slug spec)) (set_db d s)
                        end
                    end
              end
          end
      end
  end.

(** *** Reading *)

Definition FeedService_Get (id : Z) (slug : string) (s : FeedServer) : result feed_code ProtoFeed :=
  let? rec := (if negb (id =? 0) then feedRequireFeed id (db s)
               else if negb (is_empty slug) then feedRequireFeedBySlug slug (db s) else Err Feed_InvalidArgument) in
  feedToProto rec (db s).

Definition feedEncodeCursor (id : Z) : string := url64_encode (show_int id).
Definition feedDecodeCursor (token : string) : option Z :=
  if is_empty token then Some 0 else b ← url64_decode token; Atoi b.

(** [strings.NewReplacer] of the backslash, the percent sign and the underscore. *)
Definition backslash : ascii := "092".
Fixpoint feedEscapeLike (s : string) : string :=
  match s with
  | EmptyString => ""
  | String c r => if existsb (Ascii.eqb c) [backslash; "%"%char; "_"%char] then String backslash (String c (feedEscapeLike r)) else String c (feedEscapeLike r)
  end.

(** SQLite's [LIKE ... ESCAPE '\'] on bytes, letters of ASCII in either case; [_] takes a
    rune. *)
Inductive like_token := LikeAny | LikeOne | LikeByte (c : ascii).
Fixpoint like_tokens (p : string) : option (list like_token) :=
  match p with
  | EmptyString => Some []
  | String c r =>
      if Ascii.eqb c backslash then
        match r with EmptyString => None | String e r' => option_map (cons (LikeByte e)) (like_tokens r') end
      else option_map (cons (if Ascii.eqb c "%" then LikeAny else if Ascii.eqb c "_" then LikeOne else LikeByte c)) (like_tokens r)
  end.
Definition same_letter (a b : ascii) : bool := Ascii.eqb (lower_ascii a) (lower_ascii b).
Fixpoint like_match (p : list like_token) : string -> bool :=
  match p with
  | [] => is_empty
  | LikeByte c :: p => fun s => match s with String a r => same_letter a c && like_match p r | EmptyString => false end
  | LikeOne :: p => fun s => match s with
                             | EmptyString => false
                             | String _ r => like_match p (match rune_len s with Some (S k) => substring k (String.length r) r | _ => r end)
                             end
  | LikeAny :: p => fix any s := like_match p s || match s with String _ r => any r | EmptyString => false end
  end.
Definition LIKE (text pattern : string) : bool := match like_tokens pattern with Some p => like_match p text | None => false end.

Record FeedListRequest := MkFeedList { fl_PageSize : Z; fl_PageToken : string; fl_EnabledOnly : bool; fl_Search : string }.

Definition feed_matches (q : FeedListRequest) (r : FeedRow) : bool :=
  live r && (negb (fl_EnabledOnly q) || f_enabled r)
  && (let search := TrimSpace (fl_Search q) in
      is_empty search || (let like := "%" ++ feedEscapeLike search ++ "%" in LIKE (f_slug r) like || LIKE (f_title r) like)).

Definition feed_page_size (asked : Z) : nat := Z.to_nat (if (asked <=? 0) || (200 <? asked) then 50 else asked).

(** [ORDER BY id ASC]. *)
Fixpoint insert_feed_id (r : FeedRow) (l : list FeedRow) : list FeedRow :=
  match l with [] => [r] | x :: l' => if f_id r <? f_id x then r :: l else x :: insert_feed_id r l' end.
Definition order_feeds (l : list FeedRow) : list FeedRow := foldr insert_feed_id [] l.

Fixpoint map_proto (l : list FeedRow) (d : Content) : result feed_code (list ProtoFeed) :=
  match l with
  | [] => Ok []
  | r :: l => let? p := feedToProto (feedScanRecord r) d in let? ps := map_proto l d in Ok (p :: ps)
  end.

Definition FeedService_List (q : FeedListRequest) (s : FeedServer) : result feed_code (list ProtoFeed * string) :=
  let pageSize := feed_page_size (fl_PageSize q) in
  match feedDecodeCursor (fl_PageToken q) with
  | None => Err Feed_InvalidArgument
  | Some afterID =>
      let found := take (pageSize + 1) (order_feeds (filter (fun r => feed_matches q r && (afterID <? f_id r) = true) (feeds (db s)))) in
      let '(recs, cur) := if (pageSize <? length found)%nat then (take pageSize found, nth_error found (pageSize - 1)) else (found, None) in
      let? ps := map_proto recs (db s) in
      Ok (ps, match cur with Some r => feedEncodeCursor (f_id r) | None => "" end)
  end.

End service.

(** ** The failure counters: feedFailureSink of wire.go *)

Definition set_failures (n : Z -> Z) (r : FeedRow) : FeedRow :=
  MkFeedRow (f_id r) (f_slug r) (f_title r) (f_description r) (f_language r) (f_kind r) (f_enabled r) (f_timezone r) (f_author r)
    (f_copyright r) (f_og_image r) (f_ttl_minutes r) (f_last_built_at r) (f_version r) (f_deleted_at r) (f_created_at r)
    (f_updated_at r) (f_spec_json r) (f_jitter_offset r) (n (f_consecutive_failures r)).

Definition on_feed (id : Z) (f : FeedRow -> FeedRow) (d : Content) : Content := set_feeds (update_where (fun r => f_id r =? id) f (feeds d)) d.

Definition RecordFailure (id : Z) (d : Content) : Content := on_feed id (set_failures (fun n => n + 1)) d.
Definition ResetFailures (id : Z) (d : Content) : Content := on_feed id (set_failures (fun _ => 0)) d.

Definition disable_row (now : Z) (r : FeedRow) : FeedRow :=
  MkFeedRow (f_id r) (f_slug r) (f_title r) (f_description r) (f_language r) (f_kind r) false (f_timezone r) (f_author r) (f_copyright r)
    (f_og_image r) (f_ttl_minutes r) (f_last_built_at r) (f_version r + 1) (f_deleted_at r) (f_created_at r) now (f_spec_json r)
    (f_jitter_offset r) (f_consecutive_failures r).
Definition DisableFeed (now id : Z) (d : Content) : Content := on_feed id (disable_row now) d.

Definition LoadFailures (d : Content) : list (Z * Z) :=
  (fun r => (f_id r, f_consecutive_failures r)) <$> filter (fun r => live r = true) (feeds d).
