(* ===== verification/FeedHistory.v ===== *)
(** * What the feed service keeps

    The invariant of the feeds and of the members of aggregates under every call,
    whatever the generator and the item service write meanwhile, and what never
    changes of a feed. *)

From S2P Require Import Prelude GoTime GoStrings Timestamps Tables Schema StoreItems StoreRuns StoreSamples StoreHistory.
From S2P Require Import Pipeline FeedSpec FeedService.
From Stdlib Require Import String Ascii.
Local Open Scope string_scope.
Local Open Scope Z_scope.
Local Abbreviation length := List.length.

(** ** What is kept *)

(** The feed has had an item. *)
Definition published (d : Content) (feed : Z) : Prop := exists i, i ∈ items d /\ i_feed_id i = feed.

(** A feed keeps its id, kind and creation; its version never goes down; a deleted
    feed stays as it was deleted; with [fixed] its slug lasts as long as it lives. *)
Record feed_evolves (fixed : Prop) (r r' : FeedRow) : Prop := {
  fe_id : f_id r' = f_id r;
  fe_kind : f_kind r' = f_kind r;
  fe_created : f_created_at r' = f_created_at r;
  fe_version : f_version r <= f_version r';
  fe_deleted : f_deleted_at r <> None -> f_deleted_at r' = f_deleted_at r /\ f_slug r' = f_slug r;
  fe_slug : fixed -> f_deleted_at r' = None -> f_slug r' = f_slug r }.

Definition kept_from (fixed : Z -> Prop) (d d' : Content) : Prop :=
  forall r, r ∈ feeds d -> exists r', r' ∈ feeds d' /\ feed_evolves (fixed (f_id r)) r r'.

Record feeds_kept (d d' : Content) : Prop := {
  fk_published : forall id, published d id -> published d' id;
  fk_feeds : kept_from (published d) d d' }.

(** Every member of an aggregate is a feed that is not one, and is listed once. *)
Record members_ok (d : Content) : Prop := {
  mo_kinds : Forall (fun m => (exists a, a ∈ feeds d /\ f_id a = m_aggregate m /\ f_kind a = KindAggregate) /\
                              (exists r, r ∈ feeds d /\ f_id r = m_member m /\ f_kind r <> KindAggregate)) (members d);
  mo_once : distinct (fun m => (m_aggregate m, m_member m)) (members d) }.

Record feeds_ok (s : FeedServer) : Prop := { fo_content : content_ok (db s); fo_members : members_ok (db s) }.

Lemma feed_evolves_refl P r : feed_evolves P r r.
Proof. by split. Qed.

Lemma feed_evolves_trans P Q r1 r2 r3 : (P -> Q) -> feed_evolves P r1 r2 -> feed_evolves Q r2 r3 -> feed_evolves P r1 r3.
Proof.
  intros HPQ [] []. split; try congruence; try lia.
  - intros H. destruct fe_deleted0 as [E1 E2]; [done|]. destruct fe_deleted1 as [E3 E4]; [by rewrite E1|]. split; congruence.
  - intros HP H3. assert (H2 : f_deleted_at r2 = None).
    { destruct (f_deleted_at r2) eqn:E; [|done]. destruct fe_deleted1 as [E3 _]; [done|congruence]. }
    rewrite fe_slug1 by tauto. by apply fe_slug0.
Qed.

Lemma kept_from_trans (P Q : Z -> Prop) a b c :
  (forall id, P id -> Q id) -> kept_from P a b -> kept_from Q b c -> kept_from P a c.
Proof.
  intros HPQ H2 K2 r Hr. destruct (H2 r Hr) as (r' & Hr' & He). destruct (K2 r' Hr') as (r'' & Hr'' & He').
  exists r''. split; [done|]. eapply feed_evolves_trans; [|done|done]. rewrite (fe_id _ _ _ He). auto.
Qed.

#[export] Instance feeds_kept_preorder : PreOrder feeds_kept.
Proof.
  split.
  - intros d. split; [done|]. intros r Hr. exists r. split; [done|apply feed_evolves_refl].
  - intros a b c [H1 H2] [K1 K2]. split; [auto|]. by eapply kept_from_trans.
Qed.

Lemma members_kept P d d' : kept_from P d d' -> members d' = members d -> members_ok d -> members_ok d'.
Proof.
  intros Hk Hm [H1 H2]. split; rewrite Hm; [|done]. eapply Forall_impl; [exact H1|]. intros m [(a & Ha & Hi & Hka) (r & Hr & Hi' & Hkr)].
  destruct (Hk a Ha) as (a' & Ha' & Ea), (Hk r Hr) as (r' & Hr' & Er).
  split; [exists a'|exists r']; (split; [done|]); [destruct Ea|destruct Er]; split; congruence.
Qed.

(** ** Writes of the store *)

(** What the generator and the item service leave of a feed: all but the time it was
    last built. *)
Definition same_feed (r r' : FeedRow) : Prop :=
  f_id r' = f_id r /\ f_slug r' = f_slug r /\ f_kind r' = f_kind r /\ f_created_at r' = f_created_at r /\ f_version r' = f_version r /\
  f_deleted_at r' = f_deleted_at r /\ f_spec_json r' = f_spec_json r.

Record store_kept (d d' : Content) : Prop := {
  sk_published : forall id, published d id -> published d' id;
  sk_feeds : forall r, r ∈ feeds d -> exists r', r' ∈ feeds d' /\ same_feed r r';
  sk_members : members d' = members d }.

Lemma same_feed_evolves P r r' : same_feed r r' -> feed_evolves P r r'.
Proof. intros (?&?&?&?&?&?&?). split; (done || lia || congruence). Qed.

#[export] Instance store_kept_preorder : PreOrder store_kept.
Proof.
  split.
  - intros d. split; [done| |done]. intros r Hr. by exists r.
  - intros a b c [H1 H2 H3] [K1 K2 K3]. split; [auto| |congruence]. intros r Hr. destruct (H2 r Hr) as (r' & Hr' & Hs).
    destruct (K2 r' Hr') as (r'' & Hr'' & Hs'). exists r''. split; [done|].
    destruct Hs as (?&?&?&?&?&?&?), Hs' as (?&?&?&?&?&?&?). repeat split; congruence.
Qed.

Lemma evolves_published d d' id : evolves d d' -> published d id -> published d' id.
Proof.
  intros He (i & Hi & Hid). destruct (ev_items _ _ He) as (old & new & E & H2). apply list_elem_of_lookup in Hi as [n Hn].
  destruct (Forall2_lookup_l _ _ _ _ _ H2 Hn) as (i' & Hi' & Hev). apply list_elem_of_lookup_2 in Hi'.
  exists i'. split; [rewrite E; apply elem_of_app; by left|]. destruct Hev as (_ & _ & Hf' & _). congruence.
Qed.

(** The feeds are rewritten by [f], and some may be added. *)
Lemma kept_rewritten P d d' p f new :
  feeds d' = (update_where p f (feeds d) ++ new)%list ->
  (forall r, r ∈ feeds d -> p r = true -> feed_evolves (P (f_id r)) r (f r)) -> kept_from P d d'.
Proof.
  intros Hf He r Hr. exists (if p r then f r else r). split.
  - rewrite Hf. apply elem_of_app. left. apply elem_of_update. by exists r.
  - destruct (p r) eqn:E; [by apply He|apply feed_evolves_refl].
Qed.

Lemma kept_appended P d d' new : feeds d' = (feeds d ++ new)%list -> kept_from P d d'.
Proof. intros Hf r Hr. exists r. split; [rewrite Hf; apply elem_of_app; by left|apply feed_evolves_refl]. Qed.

Lemma reclaim_feeds now l a b d : feeds (reclaim now l a b d).2 = feeds d /\ members (reclaim now l a b d).2 = members d.
Proof. revert a b d. induction l as [|id l IH]; intros a b d; [done|]. cbn [reclaim]. destruct (negb _); (split; [etrans; [apply IH|done]|etrans; [apply IH|done]]). Qed.

Lemma insert_item_feeds d r d' : insert_item d r = Ok d' -> feeds d' = feeds d /\ members d' = members d.
Proof. by intros (-> & _)%insert_item_spec. Qed.

Lemma update_run_feeds id f d d' : update_run id f d = Ok d' -> feeds d' = feeds d /\ members d' = members d.
Proof. unfold update_run. case_match; [done|]. by intros [= <-]. Qed.

(** What a write of the store does to feeds and members. *)
Lemma step_feeds d d' : content_ok d -> content_step d d' -> store_kept d d'.
Proof.
  intros Hd Hs. pose proof (fun id => evolves_published d d' id (step_evolves _ _ Hd Hs)) as He.
  assert (Hsame : feeds d' = feeds d /\ members d' = members d -> store_kept d d')
    by (intros [Hf Hm]; split; [done| |done]; intros r Hr; exists r; by rewrite Hf).
  destruct Hs as
    [now f id d' H|now it id d' H|now it v d' H|now key d' H|now key d' H
    |checked now feed trig holder id d' H|now run d' H|pre now run its s embs d' H
    |now run kind msg s d' H|now run reason s d' H|checked now older a b d' H
    |now feed payload ti to cost ttl id d' H|id d' H|now n d' H|clock now id it d0 i d' H].
  - unfold CreateFeed in H. repeat (case_match; try done). injection H as _ <-. split; [done| |done].
    intros r Hr. exists r. split; [apply elem_of_app; by left|done].
  - apply Hsame. unfold InsertItem in H. apply rbind_Ok in H as (x & Hx & [= _ <-]). by eapply insert_item_feeds.
  - apply Hsame. by apply UpdateItem_spec in H as (r & _ & _ & _ & _ & _ & ->).
  - apply Hsame. unfold SoftDeleteItem in H. case_match; [done|]. by injection H as <-.
  - apply Hsame. unfold RestoreItem in H. case_match; [done|]. by injection H as <-.
  - apply Hsame. by apply StartRun_spec in H as (_ & _ & _ & _ & ->).
  - apply Hsame. by eapply update_run_feeds.
  - apply CommitRun_spec in H as (d1 & rs & m & _ & _ & Hc & _ & _ & ->); [|done].
    pose proof (commit_items_spec _ _ _ _ _ _ _ Hd Hc) as (_ & _ & Hm & _). split; [done| |exact Hm].
    intros r Hr. eexists. split; [apply elem_of_update; exists r; split; [exact Hr|reflexivity]|]. by case_match.
  - apply Hsame. unfold FailRun in H. apply rbind_Ok in H as (rs & _ & H). by eapply update_run_feeds.
  - apply Hsame. unfold SkipRun in H. apply rbind_Ok in H as (rs & _ & H). apply rbind_Ok in H as (? & _ & H). by eapply update_run_feeds.
  - apply Hsame. unfold ReclaimStaleRuns in H.
    match type of H with reclaim ?n ?l ?x ?y ?z = _ => pose proof (reclaim_feeds n l x y z) as Hr end. by rewrite H in Hr.
  - apply Hsame. unfold PutSample in H. case_match; [done|]. by injection H as _ <-.
  - apply Hsame. unfold DiscardSample in H. case_match; [done|]. by injection H as <-.
  - apply Hsame. by injection H as _ <-.
  - apply Hsame. unfold promote_from in H. case_match; [|done]. apply promote_loop_spec in H as (k & t & _ & H).
    apply promoteOnce_spec in H as (d1 & _ & Hi & _ & ->). by apply insert_item_feeds in Hi.
Qed.

Lemma steps_feeds d d' : content_ok d -> rtc content_step d d' -> content_ok d' /\ store_kept d d'.
Proof.
  intros Hd Hs. induction Hs as [d|d1 d2 d3 H12 _ IH]; [done|]. pose proof (step_ok _ _ Hd H12) as Hd2.
  destruct (IH Hd2) as [Hd3 Hk]. split; [done|]. etrans; [by apply step_feeds|done].
Qed.

(** ** Members *)

(** The names belong to feeds that are not aggregates. *)
Definition plain_names (slugs : list string) (d : Content) : Prop :=
  Forall (fun slug => exists r, r ∈ feeds d /\ f_slug r = slug /\ f_kind r <> KindAggregate) slugs.

Lemma live_slug_spec slug d r : live_slug slug d = Some r -> r ∈ feeds d /\ f_slug r = slug /\ f_deleted_at r = None.
Proof. unfold live_slug, live. intros [Hr [Hs%String.eqb_eq Hl%bool_decide_eq_true]%andb_true_iff]%find_hit. done. Qed.

Lemma check_members_plain agg slugs d : feedCheckMembers agg slugs d = None -> plain_names slugs d.
Proof.
  induction slugs as [|slug rest IH]; [constructor|]. cbn [feedCheckMembers]. case_match; [done|]. destruct (live_slug slug d) as [r|] eqn:El; [|done].
  destruct (String.eqb_spec (f_kind r) KindAggregate); [done|]. intros Hc. constructor; [|by apply IH].
  apply live_slug_spec in El as (Hr & Hs & _). by exists r.
Qed.

Lemma plain_names_store slugs d d' : store_kept d d' -> plain_names slugs d -> plain_names slugs d'.
Proof.
  intros [_ Hk _] H. eapply Forall_impl; [exact H|]. intros slug (r & Hr & Hs & Hkd). destruct (Hk r Hr) as (r' & Hr' & (?&?&?&_)).
  exists r'. split; [done|]. split; congruence.
Qed.

Lemma insert_members_spec id slugs d i l l' :
  content_ok d -> insert_members id i slugs d l = Ok l' -> distinct (fun m => (m_aggregate m, m_member m)) l ->
  distinct (fun m => (m_aggregate m, m_member m)) l' /\
  forall m, m ∈ l' -> m ∈ l \/ (m_aggregate m = id /\ exists r, r ∈ feeds d /\ f_id r = m_member m /\ f_slug r ∈ slugs).
Proof.
  intros Hd. revert i l. induction slugs as [|slug rest IH]; intros i l; cbn [insert_members].
  { intros [= <-] Hl. split; [done|]. by left. }
  destruct (live_slug slug d) as [r|] eqn:El; [|done]. destruct (existsb _ l) eqn:Ex; [done|]. intros H Hl.
  apply live_slug_spec in El as (Hr & Hs & _). destruct (IH _ _ H) as [H1 H2].
  { apply distinct_insert; [done|]. intros (m & E & Hm)%list_elem_of_fmap. injection E as E1 E2.
    rewrite <- not_true_iff_false in Ex. apply Ex. apply existsb_exists. exists m. split; [by apply list_elem_of_In|]. cbn in E1, E2.
    by rewrite E1, E2, !Z.eqb_refl. }
  split; [done|]. intros m Hm. destruct (H2 m Hm) as [Hin|(Ha & x & Hx & Hi & Hxs)].
  - apply elem_of_app in Hin as [Hin|Hin]; [by left|]. apply list_elem_of_singleton in Hin as ->. right. split; [done|]. exists r.
    split; [done|]. split; [done|]. rewrite Hs. left.
  - right. split; [done|]. exists x. split; [done|]. split; [done|]. by right.
Qed.

Lemma replace_members_ok id slugs d d' :
  content_ok d -> members_ok d -> (exists a, a ∈ feeds d /\ f_id a = id /\ f_kind a = KindAggregate) -> plain_names slugs d ->
  feedReplaceMembersTx id slugs d = Ok d' -> content_ok d' /\ members_ok d' /\ exists l, d' = set_members l d.
Proof.
  intros Hd [Hm1 Hm2] Ha Hp H. unfold feedReplaceMembersTx in H. apply rbind_Ok in H as (l & Hl & [= <-]).
  split; [by content_inv Hd|]. split; [|by eexists].
  apply insert_members_spec in Hl as [Hu Hin]; [|done|by apply distinct_delete].
  split; [|done]. apply Forall_forall. intros m Hm. cbn [feeds set_members]. destruct (Hin m Hm) as [Hold|(-> & r & Hr & Hi & Hs)].
  - apply list_elem_of_filter in Hold as [_ Hold]. rewrite Forall_forall in Hm1. by apply Hm1.
  - split; [done|]. unfold plain_names in Hp. rewrite Forall_forall in Hp. destruct (Hp _ Hs) as (x & Hx & Hxs & Hk).
    assert (x = r) as -> by (by eapply (distinct_inj f_slug); [apply Hd| | |]). by exists r.
Qed.

(** ** Writes to feeds *)

(** One feed is rewritten, to a slug no other has. *)
Lemma rewrite_feed_ok p f id d :
  content_ok d -> (forall r, p r = true -> f_id r = id) -> (forall r, f_id (f r) = f_id r /\ f_kind (f r) = f_kind r) ->
  (forall r x, r ∈ feeds d -> x ∈ feeds d -> p r = true -> f_id x <> id -> f_slug (f r) <> f_slug x) ->
  content_ok (set_feeds (update_where p f (feeds d)) d).
Proof.
  intros Hd Hp Hf Hs.
  assert (Hsub : forall i, i ∈ ids (feeds d) -> i ∈ ids (update_where p f (feeds d))) by (intros i; by rewrite ids_update by (intros r; apply (Hf r))).
  assert (Hone : forall r x, r ∈ feeds d -> x ∈ feeds d -> f_id r = f_id x -> r = x) by (intros; by eapply (ids_inj (feeds d)); [apply Hd|..]).
  pose proof (ok_slug _ Hd) as Hsl. pose proof (ok_feeds _ Hd) as Hok.
  content_inv Hd; try (by eapply refers_target).
  - apply table_ok_update; [intros r; apply (Hf r)|done].
  - apply (distinct_update_one f_slug p f (feeds d)); [done|done|intros r _; apply (Hf r)| |].
    + intros r x Hr Hx H1%Hp H2%Hp. apply Hone; congruence.
    + intros r x Hr Hx H1 H2. apply Hs; [done|done|done|]. intros E. assert (r = x) as -> by (apply Hone; [done|done|rewrite E; by apply Hp]). congruence.
  - unfold update_where. apply Forall_fmap. eapply Forall_impl; [eassumption|]. intros r Hr. simpl.
    destruct (p r); [|done]. by destruct (Hf r) as (_ & ->).
Qed.

Lemma update_feed_spec hit f d d' :
  update_feed hit f d = Ok d' ->
  exists r, r ∈ feeds d /\ hit r = true /\ (forall x, x ∈ feeds d -> f_id x <> f_id r -> f_slug x <> f_slug (f r)) /\
            d' = set_feeds (update_where hit f (feeds d)) d.
Proof.
  unfold update_feed. destruct (List.find hit (feeds d)) as [r|] eqn:E; [|done]. destruct (existsb _ _) eqn:Ex; [done|]. intros [= <-].
  apply find_hit in E as [Hr Hh]. exists r. split; [done|]. split; [done|]. split; [|done]. intros x Hx Hi Hs.
  rewrite <- not_true_iff_false in Ex. apply Ex. apply existsb_exists. exists x. split; [by apply list_elem_of_In|].
  apply andb_true_iff. split; [by apply negb_true_iff, Z.eqb_neq|by apply String.eqb_eq].
Qed.

(** The database keeps the invariant. *)
Definition db_ok (d : Content) : Prop := content_ok d /\ members_ok d.

(** A write from [d]: the invariant lasts, and so does what is kept, the slugs being
    fixed where [fixed] says. *)
Definition db_sound (fixed : Z -> Prop) (d d' : Content) : Prop :=
  db_ok d -> db_ok d' /\ kept_from fixed d d' /\ (forall id, published d id -> published d' id).

#[export] Instance db_sound_preorder P : PreOrder (db_sound P).
Proof.
  split.
  - intros d H. split; [done|]. split; [|done]. by apply (kept_appended P d d []); rewrite app_nil_r.
  - intros a b c Hab Hbc Ha. destruct (Hab Ha) as (Hb & K1 & L1). destruct (Hbc Hb) as (Hc & K2 & L2). split; [done|]. split; [|auto]. by eapply kept_from_trans.
Qed.

Lemma store_kept_from P d d' : store_kept d d' -> kept_from P d d'.
Proof. intros [_ H2 _] r Hr. destruct (H2 r Hr) as (r' & Hr' & Hs). exists r'. split; [done|by apply same_feed_evolves]. Qed.

Lemma store_sound P d d' : rtc content_step d d' -> db_sound P d d'.
Proof.
  intros H [Hd Hm]. destruct (steps_feeds _ _ Hd H) as [Hd' Hk]. split; [|split; [by apply store_kept_from|apply Hk]]. split; [done|].
  eapply (members_kept P); [by apply store_kept_from|apply Hk|done].
Qed.

Lemma update_feed_sound P id hit f d d' :
  (forall r, hit r = true -> f_id r = id) -> (forall r, f_id (f r) = f_id r /\ f_kind (f r) = f_kind r) ->
  (forall r, r ∈ feeds d -> hit r = true -> feed_evolves (P (f_id r)) r (f r)) ->
  update_feed hit f d = Ok d' -> db_sound P d d'.
Proof.
  intros Hhit Hf He H [Hd Hm]. apply update_feed_spec in H as (r & Hr & Hh & Hs & ->).
  assert (Hk : kept_from P d (set_feeds (update_where hit f (feeds d)) d)) by (eapply (kept_rewritten P d _ _ f []); [by rewrite app_nil_r|done]).
  split; [|done]. split; [|by eapply members_kept].
  apply (rewrite_feed_ok _ _ id); [done|done|done|]. intros x y Hx Hy Hhx Hne.
  assert (x = r) as -> by (eapply (ids_inj (feeds d)); [apply Hd|done|done|]; cbv [row_id row_feed]; by rewrite (Hhit x), (Hhit r)).
  intros E. apply (Hs y); [done| |by symmetry]. by rewrite (Hhit r).
Qed.

(** A write that does not touch what is kept. *)
Lemma on_feed_sound P p f d :
  (forall r, f_id (f r) = f_id r /\ f_slug (f r) = f_slug r /\ f_kind (f r) = f_kind r) ->
  (forall r Q, feed_evolves Q r (f r)) -> db_sound P d (set_feeds (update_where p f (feeds d)) d).
Proof.
  intros Hf He [Hd Hm].
  assert (Hk : kept_from P d (set_feeds (update_where p f (feeds d)) d)) by (eapply (kept_rewritten P d _ _ f []); [by rewrite app_nil_r|auto]).
  split; [|done]. split; [by apply update_feeds_ok|by eapply members_kept].
Qed.

Lemma insert_feed_sound P r d :
  f_id r = next_id (feeds d) -> valid_kind (f_kind r) = true -> f_slug r ∉ f_slug <$> feeds d -> db_sound P d (set_feeds (feeds d ++ [r]) d).
Proof.
  intros Hi Hk Hs [Hd Hm]. pose proof (kept_appended P d (set_feeds (feeds d ++ [r]) d) [r] eq_refl) as Hkept.
  split; [|done]. split; [by apply insert_feed_ok|by eapply members_kept].
Qed.

Lemma replace_members_sound P id slugs d d' :
  (exists a, a ∈ feeds d /\ f_id a = id /\ f_kind a = KindAggregate) -> plain_names slugs d ->
  feedReplaceMembersTx id slugs d = Ok d' -> db_sound P d d'.
Proof.
  intros Ha Hp H [Hd Hm]. destruct (replace_members_ok _ _ _ _ Hd Hm Ha Hp H) as (Hd' & Hm' & l & ->). split; [done|].
  split; [|done]. by apply (kept_appended P _ _ []); rewrite app_nil_r.
Qed.

(** ** The handlers *)

Lemma require_feed_spec id d rec : feedRequireFeed id d = Ok rec ->
  exists r, r ∈ feeds d /\ f_id r = id /\ f_deleted_at r = None /\ rec = feedScanRecord r.
Proof.
  unfold feedRequireFeed. destruct (List.find _ _) as [r|] eqn:E; [|done]. intros [= <-].
  apply find_hit in E as [Hr [Hi%Z.eqb_eq Hl%bool_decide_eq_true]%andb_true_iff]. by exists r.
Qed.

Lemma at_expected_spec id v d rec : at_expected id v d = Ok rec -> feedRequireFeed id d = Ok rec /\ rec_Version rec = v.
Proof. unfold at_expected. intros (x & Hx & H)%rbind_Ok. destruct (Z.eqb_spec (rec_Version x) v); [|done]. by injection H as <-. Qed.

(** The row that was read is still there when it is written. *)
Lemma read_row id d rec d1 :
  content_ok d -> feedRequireFeed id d = Ok rec -> rtc content_step d d1 ->
  exists r, r ∈ feeds d1 /\ f_id r = id /\ rec_ID rec = id /\ f_slug r = rec_Slug rec /\ f_kind r = rec_Kind rec /\ f_deleted_at r = None /\
    f_version r = rec_Version rec /\ (forall x, x ∈ feeds d1 -> f_id x = id -> x = r).
Proof.
  intros Hd (r0 & Hr0 & Hi & Hl & ->)%require_feed_spec Hs. destruct (steps_feeds _ _ Hd Hs) as [Hd1 Hk].
  destruct (sk_feeds _ _ Hk r0 Hr0) as (r & Hr & (E1&E2&E3&_&E5&E6&_)). exists r. cbn. split; [done|]. split; [congruence|]. split; [done|].
  split; [done|]. split; [done|]. split; [congruence|]. split; [done|].
  intros x Hx Hxi. eapply (ids_inj (feeds d1)); [apply Hd1|done|done|]. cbv [row_id row_feed]. congruence.
Qed.

Lemma slug_immutable_spec rec slug d :
  feedCheckSlugImmutable rec slug d = None -> slug = rec_Slug rec \/ ~ published d (rec_ID rec).
Proof.
  unfold feedCheckSlugImmutable. destruct (String.eqb_spec slug (rec_Slug rec)); [by left|]. destruct (existsb _ _) eqn:E; [done|].
  intros _. right. intros (i & Hi & Hid). rewrite <- not_true_iff_false in E. apply E. apply existsb_exists. exists i.
  split; [by apply list_elem_of_In|by apply Z.eqb_eq].
Qed.

Section handlers.
Context (LoadLocation : string -> option Location) (template_ok : string -> bool) {codec : Codec}.

Lemma answer_db id slugs s : db (answer_feed id slugs s).2 = db s.
Proof.
  unfold answer_feed. destruct (feedRequireFeed _ _); [|done]. destruct (feedToProto _ _); [|done]. cbn [snd].
  revert s. induction slugs as [|x l IH]; intros s; [done|]. cbn [foldl]. by rewrite IH.
Qed.

Lemma edit_feed_sound (P : Z -> Prop) now rec spec extra d0 d d' :
  content_ok d0 -> feedRequireFeed (rec_ID rec) d0 = Ok rec -> rtc content_step d0 d ->
  (fs_Slug spec = rec_Slug rec \/ ~ P (rec_ID rec)) ->
  feedApplyUpdate now rec spec extra (rec_Version rec) d = Ok d' -> db_sound P d d'.
Proof.
  intros Hd0 Hr Hs Hslug H. destruct (read_row _ _ _ _ Hd0 Hr Hs) as (r & Hin & Hi & _ & Hsl & _ & Hl & Hv & Hone).
  unfold feedApplyUpdate in H. destruct (Export spec) as [j|]; [|done]. revert H. apply (update_feed_sound P (rec_ID rec)).
  - intros x Hx. unfold at_feed in Hx. bools. done.
  - done.
  - intros x Hx Hh. unfold at_feed in Hh. bools. rewrite (Hone x) by done. split; cbn; try done; try lia. intros HP _. rewrite Hi in HP. destruct Hslug; [congruence|done].
Qed.

Lemma enable_sound P now enabled id v d d' : update_feed (at_feed id v) (enable_row now enabled) d = Ok d' -> db_sound P d d'.
Proof.
  apply (update_feed_sound P id); [|done|].
  - intros x Hx. unfold at_feed in Hx. bools. done.
  - intros x Hx _. split; cbn; done || lia.
Qed.

Lemma bury_sound P now slug id v d d' :
  update_feed (fun r => at_feed id v r && live r) (bury_row now slug) d = Ok d' -> db_sound P d d'.
Proof.
  apply (update_feed_sound P id); [|done|].
  - intros x Hx. unfold at_feed in Hx. bools. done.
  - intros x Hx Hh. unfold at_feed, live in Hh. bools. split; cbn; done || lia.
Qed.

Lemma insert_sound P now spec extra d id d' :
  (fs_Kind spec = KindAggregate -> plain_names (fs_Members spec) d) -> feedInsert now spec extra d = Ok (id, d') -> db_sound P d d'.
Proof.
  intros Hp. unfold feedInsert. destruct (Export spec) as [j|]; [|done]. destruct (existsb _ _) eqn:Ex; [done|].
  destruct (valid_kind _) eqn:Ek; cbn [negb]; [|done]. set (row := new_feed_row _ _ _ _ _).
  assert (Hrow : db_sound P d (set_feeds (feeds d ++ [row]) d)).
  { apply insert_feed_sound; [done|done|]. intros (x & E & Hx)%list_elem_of_fmap. rewrite <- not_true_iff_false in Ex. apply Ex.
    apply existsb_exists. exists x. split; [by apply list_elem_of_In|]. apply String.eqb_eq. by rewrite <- E. }
  destruct (String.eqb_spec (fs_Kind spec) KindAggregate) as [E|_].
  - intros (d2 & H2 & [= _ <-])%rbind_Ok. etrans; [exact Hrow|]. eapply replace_members_sound; [|eapply Forall_impl; [exact (Hp E)|]|exact H2].
    + exists row. split; [apply elem_of_app; right; left|done].
    + intros slug (r & Hr & Hs). exists r. split; [apply elem_of_app; by left|done].
  - by intros [= _ <-].
Qed.

Lemma check_new_plain spec d : check_new LoadLocation template_ok spec d = None -> fs_Kind spec = KindAggregate -> plain_names (fs_Members spec) d.
Proof.
  unfold check_new. case_match; [done|]. intros Hc E. rewrite E, String.eqb_refl in Hc. by eapply check_members_plain.
Qed.

Lemma insert_answer_sound P now spec extra s :
  (fs_Kind spec = KindAggregate -> plain_names (fs_Members spec) (db s)) -> db_sound P (db s) (db (insert_and_answer now spec extra s).2).
Proof.
  intros Hp. unfold insert_and_answer. destruct (feedInsert _ _ _ _) as [[id d]|e] eqn:E; [|reflexivity]. rewrite answer_db. by eapply insert_sound.
Qed.

(** *** Each handler, whatever the store writes meanwhile *)

Definition between (mid : Content -> Content) (s : FeedServer) : Prop := rtc content_step (db s) (mid (db s)).

Abbreviation call_sound s s' := (db_sound (published (db s)) (db s) (db s')).

Lemma feed_create_sound mid now settings in_ s :
  between mid s -> call_sound s (FeedService_Create LoadLocation template_ok mid now settings in_ s).2.
Proof.
  intros Hm. unfold FeedService_Create. destruct in_ as [in_|]; [|reflexivity]. cbv zeta. destruct (check_new _ _ _ _) eqn:Ec; [reflexivity|].
  intros Hs. refine ((_ : db_sound _ _ _) Hs). etrans; [by apply store_sound|]. apply (insert_answer_sound _ _ _ _ (set_db (mid (db s)) s)).
  intros E. eapply plain_names_store; [|by eapply check_new_plain]. apply steps_feeds; [apply Hs|done].
Qed.

Lemma feed_update_sound mid now in_ v s :
  between mid s -> call_sound s (FeedService_Update LoadLocation template_ok mid now in_ v s).2.
Proof.
  intros Hm. unfold FeedService_Update. destruct in_ as [in_|]; [|reflexivity]. destruct (at_expected _ _ _) as [rec|] eqn:Ea; [|reflexivity].
  apply at_expected_spec in Ea as [Hr <-]. case_match; [reflexivity|]. destruct (feedCheckSlugImmutable _ _ _) eqn:Es; [reflexivity|]. cbv zeta.
  case_match; [reflexivity|]. intros Hs. refine ((_ : db_sound _ _ _) Hs). etrans; [by apply store_sound|].
  destruct (feedApplyUpdate _ _ _ _ _ _) as [d|e] eqn:Eu; [|reflexivity]. rewrite answer_db. cbn [db set_db].
  destruct (require_feed_spec _ _ _ Hr) as (r0 & _ & Hi & _ & E). assert (Hid : rec_ID rec = pf_Id in_) by (by rewrite E).
  eapply edit_feed_sound; [apply Hs|by rewrite Hid|exact Hm| |exact Eu]. apply slug_immutable_spec in Es.
  unfold feedFullSpecFromProto. by repeat case_match.
Qed.

Lemma set_enabled_sound mid now id enabled v s :
  between mid s -> call_sound s (FeedService_SetEnabled mid now id enabled v s).2.
Proof.
  intros Hm. unfold FeedService_SetEnabled. destruct (at_expected _ _ _) as [rec|] eqn:Ea; [|reflexivity]. cbv zeta.
  etrans; [by apply store_sound|]. destruct (update_feed _ _ _) as [d|e] eqn:Eu; [|reflexivity]. rewrite answer_db. by eapply enable_sound.
Qed.

Lemma delete_sound mid now id v s : between mid s -> call_sound s (FeedService_Delete mid now id v s).2.
Proof.
  intros Hm. unfold FeedService_Delete. destruct (at_expected _ _ _) as [rec|] eqn:Ea; [|reflexivity]. cbv zeta.
  etrans; [by apply store_sound|]. destruct (update_feed _ _ _) as [d|e] eqn:Eu; [|reflexivity]. by eapply bury_sound.
Qed.

Lemma run_now_sound checked now id s : call_sound s (FeedService_RunNow checked now id s).2.
Proof.
  unfold FeedService_RunNow. destruct (feedRequireFeed _ _) as [rec|]; [|reflexivity]. case_match; [reflexivity|].
  destruct (StartRun _ _ _ _ _ _) as [[run d]|e] eqn:E; [|destruct e; reflexivity]. apply store_sound, rtc_once. by eapply step_StartRun.
Qed.

(** The aggregate and the names, in the state they are written to. *)
Lemma members_ready id slugs agg d d1 rec :
  content_ok d -> feedRequireFeed id d = Ok rec -> rec_Kind rec = KindAggregate -> feedCheckMembers agg slugs d = None -> rtc content_step d d1 ->
  (exists a, a ∈ feeds d1 /\ f_id a = id /\ f_kind a = KindAggregate) /\ plain_names slugs d1.
Proof.
  intros Hd Hr Hk Hc Hs. destruct (read_row _ _ _ _ Hd Hr Hs) as (a & Ha & Hi & _ & _ & Hka & _). split; [exists a; split; [done|]; split; congruence|].
  eapply plain_names_store; [by apply steps_feeds|by eapply check_members_plain].
Qed.

(** An aggregate rewritten under its own id leaves the other names. *)
Lemma ready_updated id slugs hit f d d' :
  content_ok d -> (forall r, hit r = true -> f_id r = id) -> (forall r, f_id (f r) = f_id r /\ f_kind (f r) = f_kind r) ->
  (exists a, a ∈ feeds d /\ f_id a = id /\ f_kind a = KindAggregate) /\ plain_names slugs d ->
  d' = set_feeds (update_where hit f (feeds d)) d ->
  (exists a, a ∈ feeds d' /\ f_id a = id /\ f_kind a = KindAggregate) /\ plain_names slugs d'.
Proof.
  intros Hd Hhit Hf [(a & Ha & Hi & Hk) Hp] ->. split.
  - exists (if hit a then f a else a). split; [apply elem_of_update; by exists a|]. destruct (hit a); [|done]. destruct (Hf a) as [-> ->]. done.
  - eapply Forall_impl; [exact Hp|]. intros slug (r & Hr & Hs & Hne). exists r. split; [|done]. apply elem_of_update. exists r. split; [done|].
    destruct (hit r) eqn:E; [|done]. exfalso. apply Hne. assert (r = a) as -> by (eapply (ids_inj (feeds d)); [apply Hd|done|done|];
      cbv [row_id row_feed]; rewrite (Hhit r); done). done.
Qed.

Lemma touch_evolves P now j r : feed_evolves P r (touch_row now j r).
Proof. split; cbn; try done. destruct j; lia. Qed.

Lemma set_members_sound P now rec slugs v d d' :
  content_ok d -> (exists a, a ∈ feeds d /\ f_id a = rec_ID rec /\ f_kind a = KindAggregate) /\ plain_names slugs d ->
  set_members_tx now rec slugs v d = Ok d' -> db_sound P d d'.
Proof.
  intros Hd Hready. unfold set_members_tx. intros (d1 & H1 & (d2 & H2 & H)%rbind_Ok)%rbind_Ok.
  assert (Hhit : forall r, at_feed (rec_ID rec) v r = true -> f_id r = rec_ID rec) by (intros r Hr; unfold at_feed in Hr; by bools).
  assert (Hs1 : db_sound P d d1) by (eapply (update_feed_sound P (rec_ID rec) _ (touch_row now None)); [exact Hhit|done|intros; apply touch_evolves|exact H1]).
  apply update_feed_spec in H1 as (r & _ & _ & _ & E1).
  assert (Hready1 := ready_updated _ _ _ (touch_row now None) _ _ Hd Hhit ltac:(done) Hready E1).
  etrans; [exact Hs1|]. etrans; [eapply replace_members_sound; [apply Hready1|apply Hready1|exact H2]|].
  destruct (Import _) as [spec|]; [|done]. destruct (Export _) as [j|]; [|done]. injection H as <-.
  apply on_feed_sound; [done|intros; apply touch_evolves].
Qed.

Lemma service_members_sound mid now id slugs v s : between mid s -> call_sound s (FeedService_SetMembers mid now id slugs v s).2.
Proof.
  intros Hm. unfold FeedService_SetMembers. destruct (feedRequireFeed _ _) as [rec|] eqn:Er; [|reflexivity].
  destruct (String.eqb_spec (rec_Kind rec) KindAggregate) as [Hk|]; [|reflexivity]. cbn [negb]. case_match; [reflexivity|].
  destruct (feedCheckMembers _ _ _) eqn:Ec; [reflexivity|]. cbv zeta. intros Hs. refine ((_ : db_sound _ _ _) Hs). etrans; [by apply store_sound|].
  destruct (set_members_tx _ _ _ _ _) as [d|e] eqn:Et; [|reflexivity]. rewrite answer_db. cbn [db set_db] in *.
  destruct (require_feed_spec _ _ _ Er) as (r0 & _ & Hi & _ & E). assert (Hid : rec_ID rec = id) by (by rewrite E).
  assert (Hc : content_ok (mid (db s))) by (apply steps_feeds in Hm; [apply Hm|apply Hs]).
  eapply set_members_sound; [exact Hc| |exact Et]. rewrite Hid. eapply members_ready; [apply Hs|exact Er|exact Hk|exact Ec|exact Hm].
Qed.

Lemma import_sound mid now id toml v s :
  between mid s -> call_sound s (FeedService_ImportTOML LoadLocation template_ok mid now id toml v s).2.
Proof.
  intros Hm. unfold FeedService_ImportTOML. destruct (Import toml) as [spec|]; [|reflexivity]. destruct (id =? 0).
  { destruct (check_new _ _ _ _) eqn:Ec; [reflexivity|]. intros Hs. refine ((_ : db_sound _ _ _) Hs). etrans; [by apply store_sound|].
    apply (insert_answer_sound _ _ _ _ (set_db (mid (db s)) s)). intros E. eapply plain_names_store; [|by eapply check_new_plain].
    apply steps_feeds; [apply Hs|done]. }
  destruct (at_expected _ _ _) as [rec|] eqn:Ea; [|reflexivity]. apply at_expected_spec in Ea as [Hr <-].
  destruct (String.eqb_spec (fs_Kind spec) (rec_Kind rec)) as [Hk|]; [|reflexivity]. cbn [negb].
  destruct (feedCheckSlugImmutable _ _ _) eqn:Es; [reflexivity|]. cbv zeta. destruct (if String.eqb (fs_Kind spec) KindAggregate then _ else _) eqn:Ec; [reflexivity|].
  destruct (negb (no_elem _)); [reflexivity|]. intros Hs. refine ((_ : db_sound _ _ _) Hs). etrans; [by apply store_sound|].
  destruct (feedApplyUpdate _ _ _ _ _ _) as [d|e] eqn:Eu; [|reflexivity]. cbn [db set_db] in *.
  destruct (require_feed_spec _ _ _ Hr) as (r0 & _ & Hi & _ & E0). assert (Hid : rec_ID rec = id) by (by rewrite E0).
  assert (Hc : content_ok (mid (db s))) by (apply steps_feeds in Hm; [apply Hm|apply Hs]). apply slug_immutable_spec in Es.
  etrans; [eapply edit_feed_sound; [apply Hs|by rewrite Hid|exact Hm|exact Es|exact Eu]|].
  destruct (String.eqb_spec (fs_Kind spec) KindAggregate) as [Ha|]; [|rewrite answer_db; reflexivity].
  destruct (feedReplaceMembersTx _ _ _) as [d'|e] eqn:Et; [|reflexivity]. rewrite answer_db. cbn [db set_db].
  unfold feedApplyUpdate in Eu. destruct (Export spec) as [j|]; [|done]. apply update_feed_spec in Eu as (r & _ & _ & _ & E1).
  assert (Hready := members_ready id (fs_Members spec) _ _ _ _ (proj1 Hs) Hr ltac:(congruence) Ec Hm).
  rewrite Hid in *. assert (Hready' := ready_updated id _ (at_feed id (rec_Version rec)) (edit_feed_row now spec j (extra_of rec)) _ _ Hc ltac:(intros x Hx; unfold at_feed in Hx; by bools) ltac:(done) Hready E1).
  eapply replace_members_sound; [apply Hready'|apply Hready'|exact Et].
Qed.

(** ** Any sequence of calls *)

(** A call, or a write of the generator, of the item service or of the failure
    counters. *)
Inductive feed_call : FeedServer -> FeedServer -> Prop :=
| call_feed_Create mid now settings in_ s :
    between mid s -> feed_call s (FeedService_Create LoadLocation template_ok mid now settings in_ s).2
| call_feed_Update mid now in_ v s : between mid s -> feed_call s (FeedService_Update LoadLocation template_ok mid now in_ v s).2
| call_feed_SetEnabled mid now id enabled v s : between mid s -> feed_call s (FeedService_SetEnabled mid now id enabled v s).2
| call_feed_Delete mid now id v s : between mid s -> feed_call s (FeedService_Delete mid now id v s).2
| call_feed_SetMembers mid now id slugs v s : between mid s -> feed_call s (FeedService_SetMembers mid now id slugs v s).2
| call_feed_Import mid now id toml v s :
    between mid s -> feed_call s (FeedService_ImportTOML LoadLocation template_ok mid now id toml v s).2
| call_feed_RunNow checked now id s : feed_call s (FeedService_RunNow checked now id s).2
| call_store d s : content_step (db s) d -> feed_call s (set_db d s)
| call_failure id s : feed_call s (set_db (RecordFailure id (db s)) s)
| call_reset id s : feed_call s (set_db (ResetFailures id (db s)) s)
| call_disable now id s : feed_call s (set_db (DisableFeed now id (db s)) s).

Lemma feed_call_sound s s' : feed_call s s' -> call_sound s s'.
Proof.
  intros H. destruct H; cbn [db set_db].
  - by apply feed_create_sound.
  - by apply feed_update_sound.
  - by apply set_enabled_sound.
  - by apply delete_sound.
  - by apply service_members_sound.
  - by apply import_sound.
  - apply run_now_sound.
  - by apply store_sound, rtc_once.
  - apply on_feed_sound; [done|]. intros r Q. by split.
  - apply on_feed_sound; [done|]. intros r Q. by split.
  - apply on_feed_sound; [done|]. intros r Q. split; cbn; done || lia.
Qed.

Lemma feed_calls_keep s s' : feeds_ok s -> rtc feed_call s s' -> feeds_ok s' /\ feeds_kept (db s) (db s').
Proof.
  intros Hs H. induction H as [s|a b c Hab _ IH]; [split; [done|reflexivity]|].
  destruct (feed_call_sound _ _ Hab) as ([H1 H2] & Hk & Hp); [by destruct Hs|]. destruct IH as [Hc Hkc]; [by split|].
  split; [done|]. etrans; [|exact Hkc]. by split.
Qed.

End handlers.
