(* ===== verification/FeedEdits.v ===== *)
(** * What the feed service promises

    Edits under optimistic concurrency, the documents they drop, deletion, the
    search and the pages of the listing, the recipe on the wire, and what an accepted
    recipe is worth to the generator. *)

From S2P Require Import Prelude GoTime GoStrings Cron Recurrence Timestamps TimeRead Tables Schema StoreItems StoreRuns StoreSamples StoreHistory.
From S2P Require Import PublicSite Budget Generate Pipeline FeedSpec Wire Password Paging FeedService FeedHistory.
From Stdlib Require Import String Ascii.
Local Open Scope string_scope.
Local Open Scope Z_scope.
Local Abbreviation length := List.length.

(** ** Edits *)

(** The calls that carry the version they were made of. *)
Inductive feed_edit :=
| EUpdate (in_ : ProtoFeed) | ESetEnabled (enabled : bool) | EDelete | ESetMembers (slugs : list string) | EImport (toml : string).

Definition with_id (id : Z) (p : ProtoFeed) : ProtoFeed :=
  MkProtoFeed id (pf_Slug p) (pf_Kind p) (pf_Title p) (pf_Description p) (pf_Language p) (pf_Author p) (pf_Copyright p) (pf_OgImage p)
    (pf_TtlMinutes p) (pf_Enabled p) (pf_CreatedAt p) (pf_JitterOffsetSeconds p) (pf_ConsecutiveFailures p) (pf_Version p)
    (pf_LastBuiltAt p) (pf_MemberSlugs p) (pf_Spec p).

Section edits.
Context (LoadLocation : string -> option Location) (template_ok : string -> bool) {codec : Codec}.

(** Whether the call succeeded, and the state. *)
Definition do_edit (e : feed_edit) (mid : Content -> Content) (now id v : Z) (s : FeedServer) : bool * FeedServer :=
  match e with
  | EUpdate in_ => let r := FeedService_Update LoadLocation template_ok mid now (Some (with_id id in_)) v s in (negb (failed r.1), r.2)
  | ESetEnabled enabled => let r := FeedService_SetEnabled mid now id enabled v s in (negb (failed r.1), r.2)
  | EDelete => let r := FeedService_Delete mid now id v s in (negb (failed r.1), r.2)
  | ESetMembers slugs => let r := FeedService_SetMembers mid now id slugs v s in (negb (failed r.1), r.2)
  | EImport toml => let r := FeedService_ImportTOML LoadLocation template_ok mid now id toml v s in (negb (failed r.1), r.2)
  end.

(** The slug the feed has after the edit. *)
Definition asked_slug (e : feed_edit) (rec : feedRecord) : string :=
  match e with
  | EUpdate in_ => pf_Slug in_
  | EImport toml => match Import toml with Some spec => fs_Slug spec | None => rec_Slug rec end
  | _ => rec_Slug rec
  end.

(** What a successful edit has done: it found the feed at the version, wrote its row
    and nothing of the other feeds, and dropped the documents that show it. *)
Definition edited (e : feed_edit) (d0 d : Content) (id v : Z) (s s' : FeedServer) : Prop :=
  exists rec r r',
    feedRequireFeed id d0 = Ok rec /\ rec_Version rec = v /\
    r ∈ feeds d /\ f_id r = id /\ f_version r = v /\
    r' ∈ feeds (db s') /\ f_id r' = id /\ f_version r' = v + 1 /\
    (forall x, f_id x <> id -> x ∈ feeds (db s') <-> x ∈ feeds d) /\ items (db s') = items d /\
    exists l, dropped s' = (dropped s ++ l)%list /\ rec_Slug rec ∈ l /\ (e <> EDelete -> asked_slug e rec ∈ l) /\
      forall slug, slug ∈ aggregates_of id (db s') -> slug ∈ l.

Lemma answer_feed_ok id slugs s p s' :
  answer_feed id slugs s = (Ok p, s') ->
  (exists rec, feedRequireFeed id (db s) = Ok rec /\ feedToProto rec (db s) = Ok p) /\ db s' = db s /\
  exists l, dropped s' = (dropped s ++ l)%list /\ (forall x, x ∈ slugs -> x ∈ l) /\
    (slugs <> [] -> forall x, x ∈ aggregates_of id (db s) -> x ∈ l).
Proof.
  unfold answer_feed. destruct (feedRequireFeed _ _) as [rec|]; [|done]. destruct (feedToProto _ _) as [q|] eqn:Ep; [|done].
  intros [= <- <-]. split; [by exists rec|].
  assert (H : forall t, db (foldl (fun s slug => feedInvalidate id slug s) t slugs) = db t /\
    exists l, dropped (foldl (fun s slug => feedInvalidate id slug s) t slugs) = (dropped t ++ l)%list /\ (forall x, x ∈ slugs -> x ∈ l) /\
      (slugs <> [] -> forall x, x ∈ aggregates_of id (db t) -> x ∈ l)); [|apply H].
  clear. induction slugs as [|x slugs IH]; intros t.
  { split; [done|]. exists []. cbn. rewrite app_nil_r. split; [done|]. split; [done|]. by intros []. }
  cbn [foldl]. destruct (IH (feedInvalidate id x t)) as (H1 & l & H2 & H3 & _). split; [done|].
  exists (x :: aggregates_of id (db t) ++ l)%list. rewrite H2. cbn. rewrite <- app_assoc. split; [done|]. split; [set_solver|]. set_solver.
Qed.

(** The rows of the other feeds, after one is rewritten. *)
Lemma others_same hit f id d x :
  (forall r, hit r = true -> f_id r = id) -> (forall r, f_id (f r) = f_id r) -> f_id x <> id ->
  x ∈ update_where hit f (feeds d) <-> x ∈ feeds d.
Proof.
  intros Hh Hf Hx. rewrite elem_of_update. split.
  - intros (r & Hr & ->). destruct (hit r) eqn:E; [|done]. rewrite Hf in Hx. by rewrite (Hh r) in Hx.
  - intros Hr. exists x. split; [done|]. destruct (hit x) eqn:E; [|done]. by rewrite (Hh x) in Hx.
Qed.

Lemma at_feed_id id v r : at_feed id v r = true <-> f_id r = id /\ f_version r = v.
Proof. unfold at_feed. by rewrite andb_true_iff, !Z.eqb_eq. Qed.

(** What an [UPDATE] at a version does, when the rewritten row moves it on. *)
Lemma update_feed_edits hit f id v d d' :
  (forall r, hit r = true -> f_id r = id /\ f_version r = v) -> (forall r, f_id (f r) = f_id r /\ f_version (f r) = f_version r + 1) ->
  update_feed hit f d = Ok d' ->
  exists r r', r ∈ feeds d /\ f_id r = id /\ f_version r = v /\ r' ∈ feeds d' /\ f_id r' = id /\ f_version r' = v + 1 /\
    (forall x, f_id x <> id -> x ∈ feeds d' <-> x ∈ feeds d) /\ items d' = items d.
Proof.
  intros Hh Hf (r & Hr & Hhit & _ & ->)%update_feed_spec. destruct (Hh r Hhit) as [Hi Hv], (Hf r) as [Hfi Hfv]. exists r, (f r).
  split; [done|]. split; [done|]. split; [done|]. split; [apply elem_of_update; exists r; by rewrite Hhit|]. split; [congruence|]. split; [lia|].
  split; [|done]. intros x Hx. apply (others_same _ _ id); [by intros y [? _]%Hh|apply Hf|done].
Qed.

(** The end of an edit that reads the feed back. *)
Lemma edited_answer e d0 d d1 id v rec slugs s p s' :
  feedRequireFeed id d0 = Ok rec -> rec_Version rec = v ->
  (exists r r', r ∈ feeds d /\ f_id r = id /\ f_version r = v /\ r' ∈ feeds d1 /\ f_id r' = id /\ f_version r' = v + 1 /\
    (forall x, f_id x <> id -> x ∈ feeds d1 <-> x ∈ feeds d) /\ items d1 = items d) ->
  answer_feed id slugs (set_db d1 s) = (Ok p, s') -> rec_Slug rec ∈ slugs -> asked_slug e rec ∈ slugs -> edited e d0 d id v s s'.
Proof.
  intros Hr Hv (r & r' & H1 & H2 & H3 & H4 & H5 & H6 & H7 & H8) (_ & Hdb & l & Hl & Hin & Hag)%answer_feed_ok Hs Ha. exists rec, r, r'.
  rewrite Hdb. cbn [db set_db dropped] in *. do 10 (split; [done|]). exists l. split; [done|]. split; [by apply Hin|]. split; [intros _; by apply Hin|].
  apply Hag. intros ->. by apply elem_of_nil in Hs.
Qed.

Lemma renamed_both rec slug : rec_Slug rec ∈ renamed rec slug /\ slug ∈ renamed rec slug.
Proof. unfold renamed. destruct (String.eqb_spec slug (rec_Slug rec)) as [->|]; set_solver. Qed.

Lemma apply_update_edits now rec spec extra id v d d' :
  rec_ID rec = id -> feedApplyUpdate now rec spec extra v d = Ok d' ->
  exists r r', r ∈ feeds d /\ f_id r = id /\ f_version r = v /\ r' ∈ feeds d' /\ f_id r' = id /\ f_version r' = v + 1 /\
    (forall x, f_id x <> id -> x ∈ feeds d' <-> x ∈ feeds d) /\ items d' = items d.
Proof.
  intros <-. unfold feedApplyUpdate. destruct (Export spec); [|done]. apply update_feed_edits; [by intros r ?%at_feed_id|done].
Qed.

Lemma expected_id id v d rec : at_expected id v d = Ok rec -> feedRequireFeed id d = Ok rec /\ rec_Version rec = v /\ rec_ID rec = id.
Proof. intros [Hr Hv]%at_expected_spec. destruct (require_feed_spec _ _ _ Hr) as (r & _ & Hi & _ & ->). done. Qed.

Lemma update_edits mid now in_ id v s p s' :
  FeedService_Update LoadLocation template_ok mid now (Some (with_id id in_)) v s = (Ok p, s') -> edited (EUpdate in_) (db s) (mid (db s)) id v s s'.
Proof.
  unfold FeedService_Update. cbn [pf_Id with_id]. destruct (at_expected _ _ _) as [rec|] eqn:Ea; [|done]. apply expected_id in Ea as (Hr & Hv & Hid).
  case_match; [done|]. destruct (feedCheckSlugImmutable _ _ _); [done|]. cbv zeta. case_match; [done|].
  destruct (feedApplyUpdate _ _ _ _ _ _) as [d|] eqn:Eu; [|done]. rewrite Hid. intros Ha.
  eapply (edited_answer _ _ _ d); [done|done| |exact Ha|apply renamed_both|apply renamed_both]. by eapply apply_update_edits.
Qed.

Lemma enable_edits mid now enabled id v s p s' :
  FeedService_SetEnabled mid now id enabled v s = (Ok p, s') -> edited (ESetEnabled enabled) (db s) (mid (db s)) id v s s'.
Proof.
  unfold FeedService_SetEnabled. destruct (at_expected _ _ _) as [rec|] eqn:Ea; [|done]. apply expected_id in Ea as (Hr & Hv & Hid). cbv zeta.
  destruct (update_feed _ _ _) as [d|] eqn:Eu; [|done]. rewrite Hid in *. intros Ha.
  eapply (edited_answer _ _ _ d); [done|done| |exact Ha|left|left]. eapply (update_feed_edits _ (enable_row now enabled)); [by intros r ?%at_feed_id|done|exact Eu].
Qed.

Lemma delete_edits mid now id v s s' :
  FeedService_Delete mid now id v s = (Ok tt, s') -> edited EDelete (db s) (mid (db s)) id v s s'.
Proof.
  unfold FeedService_Delete. destruct (at_expected _ _ _) as [rec|] eqn:Ea; [|done]. apply expected_id in Ea as (Hr & Hv & Hid). cbv zeta.
  destruct (update_feed _ _ _) as [d|] eqn:Eu; [|done]. rewrite Hid in *. intros [= <-]. eapply update_feed_edits in Eu as (r & r' & Hall).
  - exists rec, r, r'. do 2 (split; [done|]). destruct Hall as (H1&H2&H3&H4&H5&H6&H7&H8). do 8 (split; [done|]).
    eexists. split; [reflexivity|]. split; [left|]. split; [done|]. intros slug Hs. by right.
  - intros x. by intros [?%at_feed_id _]%andb_true_iff.
  - done.
Qed.

Lemma members_edits mid now slugs id v s p s' :
  FeedService_SetMembers mid now id slugs v s = (Ok p, s') -> edited (ESetMembers slugs) (db s) (mid (db s)) id v s s'.
Proof.
  unfold FeedService_SetMembers. destruct (feedRequireFeed _ _) as [rec|] eqn:Er; [|done]. case_match; [done|].
  destruct (Z.eqb_spec (rec_Version rec) v) as [Hv|]; [|done]. cbn [negb]. destruct (feedCheckMembers _ _ _); [done|]. cbv zeta.
  destruct (set_members_tx _ _ _ _ _) as [d|] eqn:Et; [|done].
  assert (Hid : rec_ID rec = id) by (destruct (require_feed_spec _ _ _ Er) as (r & _ & Hi & _ & ->); done). rewrite Hid in *. intros Ha.
  eapply (edited_answer _ _ _ d); [done|done| |exact Ha|left|left]. unfold set_members_tx in Et. rewrite Hid in Et.
  apply rbind_Ok in Et as (d1 & E1 & (d2 & E2 & E3)%rbind_Ok).
  eapply update_feed_edits in E1 as (r & r' & H1 & H2 & H3 & H4 & H5 & H6 & H7 & H8); [|by intros x ?%at_feed_id|done].
  unfold feedReplaceMembersTx in E2. apply rbind_Ok in E2 as (l & _ & [= <-]). destruct (Import _) as [spec|]; [|done]. destruct (Export _) as [j|]; [|done].
  injection E3 as <-. cbn [feeds items set_feeds set_members] in *. exists r, (touch_row now (Some j) r'). do 3 (split; [done|]).
  split; [apply elem_of_update; exists r'; by rewrite H5, Z.eqb_refl|]. do 2 (split; [done|]). split; [|done]. intros x Hx. rewrite <- H7 by done.
  apply (others_same (fun r => f_id r =? id) _ id d1 x); [by intros y ?%Z.eqb_eq|done|done].
Qed.

Lemma import_edits mid now toml id v s p s' :
  id <> 0 -> FeedService_ImportTOML LoadLocation template_ok mid now id toml v s = (Ok p, s') -> edited (EImport toml) (db s) (mid (db s)) id v s s'.
Proof.
  intros Hz. unfold FeedService_ImportTOML. destruct (Import toml) as [spec|] eqn:Ei; [|done]. rewrite (proj2 (Z.eqb_neq id 0)) by done.
  destruct (at_expected _ _ _) as [rec|] eqn:Ea; [|done]. apply expected_id in Ea as (Hr & Hv & Hid). case_match; [done|].
  destruct (feedCheckSlugImmutable _ _ _); [done|]. cbv zeta. destruct (match String.eqb (fs_Kind spec) KindAggregate with true => feedCheckMembers _ _ _ | false => None end); [done|].
  destruct (negb (no_elem _)); [done|]. destruct (feedApplyUpdate _ _ _ _ _ _) as [d|] eqn:Eu; [|done]. cbn [db set_db] in *.
  destruct (apply_update_edits _ _ _ _ _ _ _ _ Hid Eu) as (r & r' & H1 & H2 & H3 & H4 & H5 & H6 & H7 & H8).
  destruct (match String.eqb (fs_Kind spec) KindAggregate with true => feedReplaceMembersTx _ _ _ | false => _ end) as [d'|] eqn:Em; [|done]. rewrite Hid. intros Ha.
  assert (Hsame : feeds d' = feeds d /\ items d' = items d).
  { destruct (String.eqb (fs_Kind spec) KindAggregate); [|by injection Em as <-]. unfold feedReplaceMembersTx in Em. by apply rbind_Ok in Em as (l & _ & [= <-]). }
  destruct Hsame as [Hf Hi']. assert (Hslug : asked_slug (EImport toml) rec = fs_Slug spec) by (cbn; by rewrite Ei).
  eapply (edited_answer _ _ _ d'); [done|done| |exact Ha|apply renamed_both|rewrite Hslug; apply renamed_both].
  exists r, r'. rewrite Hf, Hi'. done.
Qed.

Lemma do_edit_edits e mid now id v s s' : id <> 0 -> do_edit e mid now id v s = (true, s') -> edited e (db s) (mid (db s)) id v s s'.
Proof.
  intros Hz. destruct e as [in_|enabled| |slugs|toml]; cbn [do_edit];
    match goal with |- context [failed (?c).1] => destruct c as [[p|?] t] eqn:Ec end; cbn; try done; intros [= <-].
  - by eapply update_edits.
  - by eapply enable_edits.
  - destruct p. by eapply delete_edits.
  - by eapply members_edits.
  - by eapply import_edits.
Qed.

(** An edit of a version the feed is no longer at changes nothing. *)
Lemma stale_edit_refused e mid now id v s :
  id <> 0 -> (forall rec, feedRequireFeed id (db s) = Ok rec -> rec_Version rec <> v) -> do_edit e mid now id v s = (false, s).
Proof.
  intros Hz Hv. assert (Ha : forall rec, at_expected id v (db s) <> Ok rec).
  { intros rec [Hr Hv']%at_expected_spec. by apply (Hv rec). }
  destruct e as [in_|enabled| |slugs|toml]; cbn [do_edit].
  - unfold FeedService_Update. cbn [pf_Id with_id]. by destruct (at_expected id v (db s)) as [rec|]; [destruct (Ha rec)|].
  - unfold FeedService_SetEnabled. by destruct (at_expected id v (db s)) as [rec|]; [destruct (Ha rec)|].
  - unfold FeedService_Delete. by destruct (at_expected id v (db s)) as [rec|]; [destruct (Ha rec)|].
  - unfold FeedService_SetMembers. destruct (feedRequireFeed id (db s)) as [rec|]; [|done]. case_match; [done|].
    by rewrite (proj2 (Z.eqb_neq (rec_Version rec) v)) by (by apply Hv).
  - unfold FeedService_ImportTOML. destruct (Import toml); [|done]. rewrite (proj2 (Z.eqb_neq id 0)) by done.
    by destruct (at_expected id v (db s)) as [rec|]; [destruct (Ha rec)|].
Qed.
End edits.

Lemma filter_iff_in {A} (P Q : A -> Prop) `{forall x, Decision (P x)} `{forall x, Decision (Q x)} (l : list A) :
  (forall x, x ∈ l -> P x <-> Q x) -> filter P l = filter Q l.
Proof.
  induction l as [|x l IH]; intros H2; [done|]. rewrite !filter_cons. rewrite IH by (intros y Hy; apply H2; by right).
  destruct (decide (P x)), (decide (Q x)); [done| | |done]; exfalso; destruct (H2 x ltac:(left)); auto.
Qed.

(** ** Search *)

Definition lowers (s : string) : string := string_of_list_ascii (lower_ascii <$> list_ascii_of_string s).

(** [q] occurs in [t], letters of ASCII in either case. *)
Definition occurs (q t : string) : Prop := exists a m b, t = a ++ m ++ b /\ lowers m = lowers q.

Lemma lowers_cons c s : lowers (String c s) = String (lower_ascii c) (lowers s).
Proof. done. Qed.

Definition literal (q : string) : list like_token := LikeByte <$> list_ascii_of_string q.

Lemma like_tokens_escaped q rest : like_tokens (feedEscapeLike q ++ rest) = option_map (app (literal q)) (like_tokens rest).
Proof.
  induction q as [|c q IH]; [change (feedEscapeLike "" ++ rest) with rest; by destruct (like_tokens rest)|]. cbn [feedEscapeLike]. destruct (existsb _ _) eqn:E.
  - rewrite !str_app_cons. cbn [like_tokens]. rewrite Ascii.eqb_refl, IH. by destruct (like_tokens rest).
  - rewrite str_app_cons. cbn [like_tokens existsb] in *. rewrite !orb_false_iff in E. destruct E as (E1 & E2 & E3 & _). rewrite E1, E2, E3, IH.
    by destruct (like_tokens rest).
Qed.

Lemma like_any_all t : like_match [LikeAny] t = true.
Proof. induction t as [|c t IH]; [done|]. cbn [like_match] in *. by rewrite IH, orb_true_r. Qed.

Lemma like_literal q t : like_match (literal q ++ [LikeAny]) t = true <-> exists m b, t = m ++ b /\ lowers m = lowers q.
Proof.
  revert t. induction q as [|c q IH]; intros t.
  - change (literal "" ++ [LikeAny])%list with [LikeAny]. rewrite like_any_all. split; [|done]. intros _. by exists "", t.
  - change (literal (String c q) ++ [LikeAny])%list with (LikeByte c :: literal q ++ [LikeAny])%list. cbn [like_match].
    destruct t as [|a t]; [split; [done|]; intros (m & b & E & Hm); destruct m; [by rewrite lowers_cons in Hm|done]|].
    rewrite andb_true_iff, IH. unfold same_letter. rewrite Ascii.eqb_eq. split.
    + intros (Hc & m & b & -> & Hm). exists (String a m), b. split; [done|]. rewrite !lowers_cons. congruence.
    + intros (m & b & E & Hm). destruct m as [|x m]; [done|]. rewrite !lowers_cons in Hm. injection Hm as Hc Hm. rewrite str_app_cons in E.
      injection E as -> ->. split; [done|]. by exists m, b.
Qed.

Lemma like_anywhere p t : like_match (LikeAny :: p) t = true <-> exists a b, t = a ++ b /\ like_match p b = true.
Proof.
  induction t as [|c t IH]; cbn [like_match] in *.
  - rewrite orb_false_r. split; [intros H; by exists "", ""|]. intros (a & b & E & H). destruct a; [|done]. by rewrite str_app_nil_l in E; subst.
  - rewrite orb_true_iff, IH. split.
    + intros [H|(a & b & -> & H)]; [by exists "", (String c t)|by exists (String c a), b].
    + intros (a & b & E & H). destruct a as [|x a]; [left; rewrite str_app_nil_l in E; by subst|]. rewrite str_app_cons in E. injection E as -> ->.
      right. by exists a, b.
Qed.

Lemma search_spec q t : LIKE t ("%" ++ feedEscapeLike q ++ "%") = true <-> occurs q t.
Proof.
  unfold LIKE. change ("%" ++ feedEscapeLike q ++ "%") with (String "%" (feedEscapeLike q ++ "%")). cbn [like_tokens].
  change (Ascii.eqb "%" backslash) with false. cbv iota. rewrite like_tokens_escaped. change (like_tokens "%") with (Some [LikeAny]).
  cbn [option_map]. change (Ascii.eqb "%" "%") with true. cbv iota. rewrite like_anywhere. unfold occurs. setoid_rewrite like_literal. split.
  - intros (a & b & -> & m & b' & -> & Hm). by exists a, m, b'.
  - intros (a & m & b & -> & Hm). exists a, (m ++ b). split; [done|]. by exists m, b.
Qed.

(** ** Pages *)

Section listing.
Context {codec : Codec}.

Definition id_before (a b : FeedRow) : bool := f_id a <? f_id b.

Lemma order_feeds_id l : sorted id_before l -> order_feeds l = l.
Proof.
  induction l as [|r l IH]; intros Hs; [done|]. apply StronglySorted_inv in Hs as [Hs Hall]. unfold order_feeds. cbn [foldr].
  fold (order_feeds l). rewrite IH by done. destruct l as [|x l]; [done|]. cbn [insert_feed_id]. apply Forall_inv in Hall. unfold id_before in Hall. by rewrite Hall.
Qed.

Lemma feeds_sorted (P : FeedRow -> Prop) `{forall r, Decision (P r)} d : content_ok d -> sorted id_before (filter P (feeds d)).
Proof.
  intros Hd. destruct (ok_feeds _ Hd) as [Hs _]. unfold ids in Hs. unfold sorted. induction (feeds d) as [|r l IH]; [constructor|].
  rewrite fmap_cons in Hs. apply StronglySorted_inv in Hs as [Hs Hall]. rewrite filter_cons. destruct (decide (P r)); [|by apply IH].
  constructor; [by apply IH|]. apply Forall_forall. intros x [_ Hx]%list_elem_of_filter. unfold id_before. apply Z.ltb_lt.
  rewrite Forall_forall in Hall. apply (Hall (f_id x)). exact (list_elem_of_fmap_2 row_id _ _ Hx).
Qed.

Definition feed_token : option FeedRow -> string := token_for (fun r => feedEncodeCursor (f_id r)).
Definition ask_feed_page (tok : string) (q : FeedListRequest) : FeedListRequest := MkFeedList (fl_PageSize q) tok (fl_EnabledOnly q) (fl_Search q).
Definition feeds_listed (q : FeedListRequest) (d : Content) : list FeedRow := filter (fun r => feed_matches q r = true) (feeds d).

(** The ids fit the cursor, and the recipes of the feeds can be read. *)
Definition listable (d : Content) : Prop :=
  Forall (fun r => f_id r < 2 ^ 63 /\ (live r = true -> exists p, feedToProto (feedScanRecord r) d = Ok p)) (feeds d).

Definition shown_feed (d : Content) (r : FeedRow) : option ProtoFeed :=
  match feedToProto (feedScanRecord r) d with Ok p => Some p | Err _ => None end.

Lemma map_proto_shown l d : (forall r, r ∈ l -> exists p, feedToProto (feedScanRecord r) d = Ok p) -> map_proto l d = Ok (omap (shown_feed d) l).
Proof.
  induction l as [|r l IH]; intros H; [done|]. cbn [map_proto]. destruct (H r ltac:(left)) as [p Hp]. rewrite Hp. cbn [rbind].
  rewrite IH by (intros x Hx; apply H; by right). cbn. unfold shown_feed at 2. by rewrite Hp.
Qed.

Lemma feed_page_pos n : (0 < feed_page_size n)%nat.
Proof. unfold feed_page_size. destruct (_ || _) eqn:E; [lia|]. rewrite orb_false_iff in E. bools. lia. Qed.

Lemma cursor_roundtrip i : 0 < i < 2 ^ 63 -> feedDecodeCursor (feedEncodeCursor i) = Some i.
Proof.
  intros Hi. unfold feedDecodeCursor, feedEncodeCursor. rewrite url64_nonempty, url64_roundtrip.
  - cbn [mbind option_bind]. rewrite Atoi_show by lia. done.
  - intros E. pose proof (Atoi_show i ltac:(lia)) as H. by rewrite E in H.
Qed.

Lemma feed_list_page q s cur :
  content_ok (db s) -> listable (db s) -> (forall x, cur = Some x -> x ∈ feeds (db s)) ->
  let p := page (feed_page_size (fl_PageSize q)) (after id_before cur (feeds_listed q (db s))) in
  FeedService_List (ask_feed_page (feed_token cur) q) s = Ok (omap (shown_feed (db s)) p.1, feed_token p.2).
Proof.
  intros Hd Hl Hcur. cbv zeta. unfold FeedService_List, listable in *. cbv zeta. rewrite Forall_forall in Hl. destruct (ok_feeds _ Hd) as [_ Hpos]. rewrite Forall_forall in Hpos.
  assert (Hdec : feedDecodeCursor (fl_PageToken (ask_feed_page (feed_token cur) q)) = Some (match cur with None => 0 | Some x => f_id x end)).
  { destruct cur as [x|]; [|done]. cbn. apply cursor_roundtrip. destruct (Hl x (Hcur x eq_refl)). specialize (Hpos x (Hcur x eq_refl)).
    cbv [row_id row_feed] in Hpos. lia. }
  rewrite Hdec. change (fl_PageSize (ask_feed_page (feed_token cur) q)) with (fl_PageSize q).
  assert (Hrest : order_feeds (filter (fun r => feed_matches (ask_feed_page (feed_token cur) q) r && (match cur with None => 0 | Some x => f_id x end <? f_id r) = true) (feeds (db s)))
                  = after id_before cur (feeds_listed q (db s))).
  { rewrite order_feeds_id by (by apply feeds_sorted). unfold feeds_listed. destruct cur as [x|]; cbn [after].
    - rewrite list_filter_filter. apply list_filter_iff. intros r. rewrite andb_true_iff. unfold id_before. tauto.
    - apply filter_iff_in. intros r Hr. rewrite andb_true_iff, Z.ltb_lt. specialize (Hpos r Hr).
      cbv [row_id row_feed] in Hpos. split; [by intros [H _]|done]. }
  rewrite Hrest, (fetch_page _ _ (feed_page_pos _)). set (pg := page _ _).
  assert (Hin : forall r, r ∈ pg.1 -> r ∈ feeds_listed q (db s)).
  { intros r Hr. assert (Hr' : r ∈ after id_before cur (feeds_listed q (db s))) by (unfold pg, page in Hr; destruct (_ <? _)%nat; [by apply elem_of_take in Hr as (i & Hi%list_elem_of_lookup_2 & _)|done]).
    destruct cur; cbn [after] in Hr'; [by apply list_elem_of_filter in Hr' as [_ Hr']|done]. }
  destruct pg as [recs cur'] eqn:Epg. cbn [fst snd] in *. rewrite map_proto_shown; [done|].
  intros r [Hm Hr]%Hin%list_elem_of_filter. apply Hl in Hr as [_ Hp]. apply Hp. unfold feed_matches in Hm. rewrite !andb_true_iff in Hm. by destruct Hm as [[Hm _] _].
Qed.

(** Asking for the next page for as long as there is a token. *)
Definition fetch_feeds (q : FeedListRequest) (s : FeedServer) (tok : string) : option (list ProtoFeed * string) :=
  match FeedService_List (ask_feed_page tok q) s with Ok p => Some p | Err _ => None end.
Definition feed_pages (fuel : nat) (q : FeedListRequest) (tok : string) (s : FeedServer) : option (list (list ProtoFeed)) :=
  follow (fetch_feeds q s) fuel tok.

Lemma omap_mjoin {A B} (f : A -> option B) (ls : list (list A)) : mjoin ((omap f : list A -> list B) <$> ls) = omap f (mjoin ls).
Proof. induction ls as [|l ls IH]; [done|]. cbn. rewrite omap_app. by f_equal. Qed.

Lemma feed_pages_all q s :
  content_ok (db s) -> listable (db s) ->
  exists ps, feed_pages (S (length (feeds (db s)))) q "" s = Some ps /\ mjoin ps = omap (shown_feed (db s)) (feeds_listed q (db s)) /\
    Forall (fun p => (length p <= feed_page_size (fl_PageSize q))%nat) ps.
Proof.
  intros Hd Hl.
  assert (Hin : forall x, x ∈ feeds_listed q (db s) -> x ∈ feeds (db s)) by (intros x Hx; by apply list_elem_of_filter in Hx as [_ Hx]).
  destruct (follow_all id_before ltac:(intros a b c; unfold id_before; rewrite !Z.ltb_lt; lia) ltac:(intros a; apply Z.ltb_irrefl)
    (fun r => feedEncodeCursor (f_id r)) (fetch_feeds q s) (omap (shown_feed (db s)))
    (S (length (feeds (db s)))) (feed_page_size (fl_PageSize q)) (feeds_listed q (db s)) (feed_page_pos _)) as (ps & Hw & Hj & Hlen).
  - apply Nat.lt_succ_r, length_filter.
  - by apply feeds_sorted.
  - intros x Hx%Hin. destruct (ok_feeds _ Hd) as [_ Hpos]. unfold listable in Hl. rewrite Forall_forall in Hpos, Hl. specialize (Hpos x Hx).
    destruct (Hl x Hx) as [Hb _]. cbv [row_id row_feed] in Hpos. apply url64_nonempty. intros E. pose proof (Atoi_show (f_id x) ltac:(lia)) as H. by rewrite E in H.
  - intros cur Hcur. unfold fetch_feeds. change (token_for _ cur) with (feed_token cur). rewrite feed_list_page by auto. done.
  - exists ((omap (shown_feed (db s)) : list FeedRow -> list ProtoFeed) <$> ps). split; [exact Hw|]. split; [by rewrite omap_mjoin, Hj|].
    apply Forall_fmap. eapply Forall_impl; [exact Hlen|]. intros p Hp. cbn. etrans; [|exact Hp]. clear. induction p as [|x p IH]; [done|]. cbn.
    destruct (shown_feed _ x); cbn; lia.
Qed.
End listing.

(** ** The recipe on the wire *)

(** Midnight of a date of the years 1 to 9999, in UTC. *)
Definition midnight (t : Z) : Prop := timestamp_valid t = true /\ four_digit t /\ t mod (86400 * second) = 0.

Lemma midnight_date t : midnight t -> parse_date UTC (format_date UTC t) = Some t.
Proof.
  intros (_ & Hy & Hm). unfold format_date. rewrite show_year_pad by done.
  destruct (four_pad (Year UTC t) (String "-" (pad 2 (Month UTC t) (String "-" (pad 2 (Day UTC t) "")))) Hy) as (y1 & y2 & y3 & y4 & -> & E4).
  pose proof (month_range t) as Hmo. pose proof (day_range t) as Hda.
  destruct (two_pad (Month UTC t) (String "-" (pad 2 (Day UTC t) ""))) as (m1 & m2 & -> & Em); [lia|].
  destruct (two_pad (Day UTC t) "") as (d1 & d2 & -> & Ed); [lia|].
  cbn [parse_date]. rewrite E4, Em, Ed. cbn [mbind option_bind]. change (negb _) with false. cbv iota.
  destruct (civil_of_day_valid (local_day UTC t)) as [_ [_ Hd]]. fold (Year UTC t) (Month UTC t) (Day UTC t) in Hd.
  rewrite (proj2 (Z.ltb_ge (Month UTC t) 1)), (proj2 (Z.ltb_ge 12 (Month UTC t))), (proj2 (Z.ltb_ge (Day UTC t) 1)) by lia.
  rewrite (proj2 (Z.ltb_ge (days_in_month _ _) (Day UTC t))) by done. cbn [orb]. f_equal.
  change UTC with (fixed_zone 0) at 1. rewrite Date_fixed. unfold Year, Month, Day. rewrite days_of_civil_of_day. unfold local_day. rewrite wall_UTC.
  unfold unix, second in *. dlia.
Qed.

Lemma midnight_nonempty t : midnight t -> is_empty (format_date UTC t) = false.
Proof. intros H%midnight_date. apply is_empty_false. intros E. by rewrite E in H. Qed.

Definition wire_recurrence (r : ProtoRecurrence) : Prop :=
  1 <= pr_Frequency r <= 3 /\ Forall (fun d => 1 <= d <= 7) (pr_Weekdays r) /\ int32 (pr_Interval r) /\ int32 (pr_MonthDay r) /\
  int32 (pr_SetPosition r) /\ int32 (pr_Hour r) /\ int32 (pr_Minute r) /\ (forall t, pr_Anchor r = Some t -> midnight t).

(** A message as the wire can carry it, its enums known and its anchor a date. *)
Definition wire_spec (p : ProtoSpec) : Prop :=
  int32 (fp_ItemsPerRun p) /\ int32 (fp_FeedWindow p) /\ int32 (fp_NoveltyWindowItems p) /\ int32 (fp_DailyRunBudget p) /\
  (forall r, fp_Recurrence p = Some r -> wire_recurrence r).

Lemma names_roundtrip l : Forall (fun d => 1 <= d <= 7) l ->
  omap (fun n => number_of n protoWeekdays) (omap (fun d => name_of d protoWeekdays) l) = l.
Proof.
  intros Hl. induction Hl as [|d l Hd _ IH]; [done|].
  assert (Hc : d = 1 \/ d = 2 \/ d = 3 \/ d = 4 \/ d = 5 \/ d = 6 \/ d = 7) by lia.
  repeat destruct Hc as [->|Hc]; try subst d; cbn in *; by rewrite IH.
Qed.

Lemma recurrence_roundtrip r : wire_recurrence r -> recurrenceToProto (recurrenceFromProto (Some r)) = Some r.
Proof.
  intros (Hf & Hw & H1 & H2 & H3 & H4 & H5 & Ha). destruct r as [f iv wd md sp h mi an]. cbn in *.
  assert (Hn : exists n, name_of f protoFrequencies = Some n /\ number_of n protoFrequencies = Some f).
  { assert (Hc : f = 1 \/ f = 2 \/ f = 3) by lia. destruct Hc as [-> | [-> | -> ]]; eexists; done. }
  destruct Hn as (n & En & En'). rewrite En. cbn. rewrite En', names_roundtrip, !wrap32_int32 by done. cbn. do 2 f_equal.
  destruct an as [t|]; [|done]. pose proof (Ha t eq_refl) as Hm. rewrite (proj1 Hm), midnight_nonempty by done. by apply midnight_date.
Qed.

Lemma sources_roundtrip l : feedSourcesToProto (feedSourcesFromProto l) = l.
Proof. induction l as [|[u k] l IH]; [done|]. cbn. f_equal. exact IH. Qed.

(** What the editor sends is what it reads back. *)
Lemma wire_there_and_back p : wire_spec p -> feedSpecToProto (feedSpecFromProto (Some p)) = p.
Proof.
  intros (H1 & H2 & H3 & H4 & Hr). destruct p as [? ? ? rc ? ? ? ? ? ? ? ? ? ? ? ?]. unfold feedSpecToProto, feedSpecFromProto. cbn -[feedSourcesToProto feedSourcesFromProto] in *. rewrite !wrap32_int32, sources_roundtrip by done. f_equal.
  destruct rc as [r|]; [|done]. apply recurrence_roundtrip. by apply Hr.
Qed.

(** A stored schedule in the words the service writes. *)
Definition plain_recurrence (r : WrittenRecurrence) : Prop :=
  wr_Frequency r ∈ ["daily"; "weekly"; "monthly"] /\ Forall (fun n => n ∈ protoWeekdays.*2) (wr_Weekdays r) /\ int32 (wr_Interval r) /\
  int32 (wr_MonthDay r) /\ int32 (wr_SetPosition r) /\ int32 (wr_Hour r) /\ int32 (wr_Minute r) /\
  (wr_Anchor r = "" \/ exists t, midnight t /\ wr_Anchor r = format_date UTC t).

Definition plain_spec (s : FeedSpec) : Prop :=
  int32 (fs_ItemsPerRun s) /\ int32 (fs_FeedWindow s) /\ int32 (ExcludeLast (fs_Novelty s)) /\ int32 (DailyRuns (fs_Budgets s)) /\
  (forall r, fs_Recurrence s = Some r -> plain_recurrence r).

Lemma written_names l : Forall (fun n => n ∈ protoWeekdays.*2) l ->
  omap (fun d => name_of d protoWeekdays) (omap (fun n => number_of n protoWeekdays) l) = l.
Proof.
  intros Hl. induction Hl as [|n l Hn _ IH]; [done|]. cbn in Hn.
  repeat (apply elem_of_cons in Hn as [->|Hn]; [cbn in *; by rewrite IH|]). by apply elem_of_nil in Hn.
Qed.

Lemma written_roundtrip r : plain_recurrence r -> recurrenceFromProto (recurrenceToProto (Some r)) = Some r.
Proof.
  intros (Hf & Hw & H1 & H2 & H3 & H4 & H5 & Ha). destruct r as [f iv wd md sp h mi an]. cbn in *. rewrite !wrap32_int32, written_names by done.
  assert (Hn : name_of (default 0 (number_of f protoFrequencies)) protoFrequencies = Some f).
  { repeat (apply elem_of_cons in Hf as [->|Hf]; [done|]). by apply elem_of_nil in Hf. }
  rewrite Hn. do 2 f_equal. destruct Ha as [->|(t & Ht & ->)]; [done|]. rewrite midnight_nonempty, midnight_date by done. destruct Ht as [Hv _]. by rewrite Hv.
Qed.

(** The part of a recipe that an edit in the browser keeps: the mode, the speed and
    the retries have no place in the message. *)
Definition as_edited (s : FeedSpec) : FeedSpec :=
  MkFeedSpec "" "" "" "" "" (fs_Cron s) (fs_Timezone s) (fs_Recurrence s) (ScheduleMode s) (fs_ItemsPerRun s) (fs_FeedWindow s)
    (MkModelParams (mp_Model (fs_Model s)) (mp_Temperature (fs_Model s)) "balanced" "" (mp_WebSearch (fs_Model s))) (fs_SystemPrompt s)
    (fs_UserPrompt s) (MkNoveltyParams (ExcludeLast (fs_Novelty s)) (Threshold (fs_Novelty s)) 3) (fs_Budgets s) (fs_Sources s) [].

Lemma wire_back_and_there s : plain_spec s -> feedSpecFromProto (Some (feedSpecToProto s)) = as_edited s.
Proof.
  intros (H1 & H2 & H3 & H4 & Hr). destruct s as [? ? ? ? ? ? ? rc ? ? ? [] ? ? [] [] src ?]. unfold feedSpecToProto, feedSpecFromProto, as_edited. cbn -[feedSourcesToProto feedSourcesFromProto] in *.
  rewrite !wrap32_int32 by done. assert (E : feedSourcesFromProto (feedSourcesToProto src) = src) by (clear; induction src as [|[] ? IH]; [done|cbn; f_equal; exact IH]).
  rewrite E. destruct rc as [r|]; [|done]. by rewrite (written_roundtrip r (Hr r eq_refl)).
Qed.

(** ** Creating *)

(** The texts of a recipe are UTF-8, as they are in a message. *)
Definition recipe_texts (s : FeedSpec) : list string :=
  ([fs_Slug s; fs_Title s; fs_Description s; fs_Language s; fs_Kind s; fs_Cron s; fs_Timezone s; ScheduleMode s; mp_Model (fs_Model s);
    mp_Mode (fs_Model s); mp_Speed (fs_Model s); fs_SystemPrompt s; fs_UserPrompt s]
   ++ (src ← fs_Sources s; [src_URL src; src_Kind src]) ++ fs_Members s
   ++ match fs_Recurrence s with Some r => wr_Frequency r :: wr_Anchor r :: wr_Weekdays r | None => [] end)%list.
Definition utf8_recipe (s : FeedSpec) : Prop := Forall (fun t => ValidString t = true) (recipe_texts s).

Lemma utf8_check s : forallb ValidString (recipe_texts s) = true -> utf8_recipe s.
Proof. intros H. apply Forall_forall. intros t Ht%list_elem_of_In. by apply (proj1 (forallb_forall _ _) H). Qed.

(** encoding/json reads back a recipe it has written. *)
Class CodecLaws (codec : Codec) : Prop := import_export : forall s j, utf8_recipe s -> Export s = Some j -> Import j = Some s.

Section creating.
Context (LoadLocation : string -> option Location) (template_ok : string -> bool) {codec : Codec} {laws : CodecLaws codec}.

(** The members of an aggregate, in order, as they were given. *)
Lemma inserted_members id slugs d i l l' :
  content_ok d -> insert_members id i slugs d l = Ok l' ->
  exists new, l' = (l ++ new)%list /\ Forall (fun m => m_aggregate m = id) new /\ order_position new = new /\
    (forall m, m ∈ new -> i <= m_position m) /\ omap (fun m => f_slug <$> find_id (m_member m) (feeds d)) new = slugs.
Proof.
  intros Hd. revert i l. induction slugs as [|slug rest IH]; intros i l; cbn [insert_members].
  { intros [= <-]. exists []. rewrite app_nil_r. do 3 (split; [done|]). split; [|done]. intros m []%elem_of_nil. }
  destruct (live_slug slug d) as [r|] eqn:El; [|done]. case_match; [done|]. intros Hl. apply live_slug_spec in El as (Hr & Hs & _).
  destruct (IH _ _ Hl) as (new & -> & H1 & H2 & H3 & H4). exists (MkMember id (f_id r) i :: new). rewrite <- app_assoc. split; [done|].
  split; [by constructor|]. split; [|split].
  - unfold order_position. cbn [foldr]. fold (order_position new). rewrite H2. destruct new as [|m new]; [done|]. cbn [insert_position m_position].
    rewrite (proj2 (Z.leb_le i (m_position m))); [done|]. specialize (H3 m ltac:(left)). lia.
  - intros m [->|Hm]%elem_of_cons; [done|]. specialize (H3 m Hm). lia.
  - cbn. assert (Hfind : find_id (f_id r) (feeds d) = Some r) by (apply find_id_Some; [apply Hd|done]). rewrite Hfind. cbn. rewrite Hs. by f_equal.
Qed.

Lemma filter_none {A} (P : A -> Prop) `{forall x, Decision (P x)} (l : list A) : (forall x, x ∈ l -> ~ P x) -> filter P l = [].
Proof.
  induction l as [|x l IH]; intros Hn; [done|]. rewrite filter_cons_False by (apply Hn; left). apply IH. intros y Hy. apply Hn. by right.
Qed.

Lemma filter_every {A} (P : A -> Prop) `{forall x, Decision (P x)} (l : list A) : Forall P l -> filter P l = l.
Proof. intros Hl. induction Hl as [|x l Hx _ IH]; [done|]. rewrite filter_cons_True by done. by rewrite IH. Qed.

(** The members listed after they are replaced. *)
Lemma replaced_members id slugs d d' : content_ok d -> feedReplaceMembersTx id slugs d = Ok d' -> feedListMembers id d' = slugs.
Proof.
  intros Hd. unfold feedReplaceMembersTx. intros (l & Hl & [= <-])%rbind_Ok. unfold feedListMembers. cbn [members feeds set_members].
  apply (inserted_members _ _ _ _ _ _ Hd) in Hl as (new & -> & H1 & H2 & _ & H4). rewrite filter_app.
  rewrite filter_none, app_nil_l.
  - rewrite filter_every; [by rewrite H2|]. eapply Forall_impl; [exact H1|]. intros m ->. apply Z.eqb_refl.
  - intros m [Hm _]%list_elem_of_filter. congruence.
Qed.

(** What is stored of a text that may be left blank. *)
Definition filled (given fallback got : string) : Prop :=
  (TrimSpace given <> "" -> got = given) /\ (TrimSpace given = "" -> TrimSpace fallback <> "" -> got = fallback) /\
  (TrimSpace given = "" -> TrimSpace fallback = "" -> got = "").

Lemma filled_first a b : filled a b (feedFirstNonEmpty a b).
Proof.
  unfold filled, feedFirstNonEmpty, is_empty. destruct (TrimSpace a) as [|c r]; cbn [negb]; [|by repeat split].
  destruct (TrimSpace b); by repeat split.
Qed.

(** The feed a request creates, as it is read back. *)
Record created_as (defaults : Publishing) (in_ p : ProtoFeed) : Prop := {
  ca_slug : pf_Slug p = pf_Slug in_;
  ca_kind : pf_Kind p = pf_Kind in_;
  ca_title : pf_Title p = pf_Title in_;
  ca_description : pf_Description p = pf_Description in_;
  ca_language : pf_Language p = pf_Language in_;
  ca_author : filled (pf_Author in_) (DefaultAuthor defaults) (pf_Author p);
  ca_copyright : filled (pf_Copyright in_) (DefaultCopyright defaults) (pf_Copyright p);
  ca_image : filled (pf_OgImage in_) (DefaultOgImage defaults) (pf_OgImage p);
  ca_ttl : int32 (pf_TtlMinutes in_) -> int32 (DefaultTtlMinutes defaults) ->
             pf_TtlMinutes p = if pf_TtlMinutes in_ =? 0 then DefaultTtlMinutes defaults else pf_TtlMinutes in_;
  ca_enabled : pf_Enabled p = pf_Enabled in_;
  ca_version : pf_Version p = 1;
  ca_fresh : pf_ConsecutiveFailures p = 0 /\ pf_LastBuiltAt p = None;
  ca_members : pf_Kind in_ = FEED_KIND_AGGREGATE -> pf_MemberSlugs p = pf_MemberSlugs in_ /\ pf_Spec p = None;
  ca_spec : forall sp, pf_Kind in_ <> FEED_KIND_AGGREGATE -> pf_Spec in_ = Some sp -> wire_spec sp -> pf_Spec p = Some sp }.

Lemma asked_ttl given fallback :
  int32 given -> int32 fallback -> wrap32 (if given =? 0 then fallback else given) = if given =? 0 then fallback else given.
Proof. intros H1 H2. apply wrap32_int32. by destruct (given =? 0). Qed.

Lemma kind_roundtrip k : feedKindFromProto k <> "" -> feedKindToProto (feedKindFromProto k) = k.
Proof.
  unfold feedKindFromProto. destruct (Z.eqb_spec k FEED_KIND_GENERATIVE) as [->|]; [done|]. destruct (Z.eqb_spec k FEED_KIND_GROUNDED) as [->|]; [done|].
  by destruct (Z.eqb_spec k FEED_KIND_AGGREGATE) as [->|].
Qed.

Lemma full_spec_fields in_ k :
  let spec := feedFullSpecFromProto in_ k in
  fs_Slug spec = pf_Slug in_ /\ fs_Title spec = pf_Title in_ /\ fs_Description spec = pf_Description in_ /\ fs_Language spec = pf_Language in_ /\
  fs_Kind spec = k /\ (k = KindAggregate -> fs_Members spec = pf_MemberSlugs in_) /\
  feedSpecToProto spec = feedSpecToProto (feedSpecFromProto (pf_Spec in_)).
Proof. unfold feedFullSpecFromProto. destruct (String.eqb_spec k KindAggregate); by repeat split. Qed.

(** A live row is the one its id finds. *)
Lemma require_row d r : content_ok d -> r ∈ feeds d -> f_deleted_at r = None -> feedRequireFeed (f_id r) d = Ok (feedScanRecord r).
Proof.
  intros Hd Hr Hl. unfold feedRequireFeed. destruct (List.find _ _) as [x|] eqn:E.
  - apply find_hit in E as [Hx [Hi%Z.eqb_eq _]%andb_true_iff]. by rewrite (ids_inj (feeds d) x r (ok_feeds _ Hd) Hx Hr Hi).
  - exfalso. eapply find_none in E; [|by apply list_elem_of_In]. unfold live in E. by rewrite Hl, Z.eqb_refl in E.
Qed.

(** The row an insertion adds is the one it answers with. *)
Lemma insert_row now spec extra d id d' :
  content_ok d -> feedInsert now spec extra d = Ok (id, d') ->
  0 < id /\ exists j, Export spec = Some j /\ valid_kind (fs_Kind spec) = true /\
    feedRequireFeed id d' = Ok (feedScanRecord (new_feed_row id now spec j extra)) /\
    (fs_Kind spec = KindAggregate -> feedListMembers id d' = fs_Members spec).
Proof.
  intros Hd. unfold feedInsert. destruct (Export spec) as [j|]; [|done]. destruct (existsb _ _) eqn:Ex; [done|].
  destruct (valid_kind (fs_Kind spec)) eqn:Ek; cbn [negb]; [|done]. cbv zeta. set (row := new_feed_row _ _ _ _ _). set (d1 := set_feeds _ d).
  assert (Hd1 : content_ok d1).
  { apply insert_feed_ok; [done|done|done|]. intros (x & E & Hx)%list_elem_of_fmap. rewrite <- not_true_iff_false in Ex. apply Ex.
    apply existsb_exists. exists x. split; [by apply list_elem_of_In|]. apply String.eqb_eq. by rewrite <- E. }
  assert (Hrow : row ∈ feeds d1) by (apply elem_of_app; right; left).
  intros H. assert (Hd' : id = next_id (feeds d) /\ content_ok d' /\ feeds d' = feeds d1 /\ (fs_Kind spec = KindAggregate -> feedListMembers id d' = fs_Members spec)).
  { destruct (String.eqb_spec (fs_Kind spec) KindAggregate) as [E|]; [|by injection H as <- <-]. apply rbind_Ok in H as (d2 & H2 & [= <- <-]).
    split; [done|]. pose proof (replaced_members _ _ _ _ Hd1 H2) as Hm. unfold feedReplaceMembersTx in H2. apply rbind_Ok in H2 as (l & _ & [= <-]).
    split; [by content_inv Hd1|]. done. }
  destruct Hd' as (-> & Hok & Hf & Hm). split; [apply next_id_pos|]. exists j. split; [done|]. split; [done|]. split; [|done].
  apply (require_row d' row); [done|by rewrite Hf|done].
Qed.

Definition asked_extra (settings : option Publishing) (in_ : ProtoFeed) : feedIdentityExtra :=
  let defaults := feedPublishingDefaults settings in
  MkExtra (pf_Enabled in_) (feedFirstNonEmpty (pf_Author in_) (DefaultAuthor defaults))
    (feedFirstNonEmpty (pf_Copyright in_) (DefaultCopyright defaults)) (feedFirstNonEmpty (pf_OgImage in_) (DefaultOgImage defaults))
    (if pf_TtlMinutes in_ =? 0 then DefaultTtlMinutes defaults else pf_TtlMinutes in_).

Lemma create_row mid now settings in_ s p s' :
  content_ok (mid (db s)) ->
  FeedService_Create LoadLocation template_ok mid now settings (Some in_) s = (Ok p, s') ->
  let spec := feedFullSpecFromProto in_ (feedKindFromProto (pf_Kind in_)) in
  exists extra id j, extra = asked_extra settings in_ /\ 0 < id /\ Export spec = Some j /\ valid_kind (fs_Kind spec) = true /\
    feedRequireFeed id (db s') = Ok (feedScanRecord (new_feed_row id now spec j extra)) /\
    (fs_Kind spec = KindAggregate -> feedListMembers id (db s') = fs_Members spec) /\
    feedToProto (feedScanRecord (new_feed_row id now spec j extra)) (db s') = Ok p.
Proof.
  intros Hd. unfold FeedService_Create, insert_and_answer. cbv zeta. destruct (check_new _ _ _ _); [done|].
  destruct (feedInsert _ _ _ _) as [[id d]|] eqn:Ei; [|done]. intros (H1 & Hdb & _)%answer_feed_ok. destruct H1 as (rec & Hr & Hp).
  apply insert_row in Ei as (Hid & j & Hj & Hk & Hreq & Hm); [|done]. cbn [db set_db] in *. rewrite Hdb. rewrite Hreq in Hr. injection Hr as <-.
  eexists _, id, j. split; [|by repeat split]. done.
Qed.

Lemma created mid now settings in_ s p s' :
  content_ok (mid (db s)) -> utf8_recipe (feedFullSpecFromProto in_ (feedKindFromProto (pf_Kind in_))) ->
  FeedService_Create LoadLocation template_ok mid now settings (Some in_) s = (Ok p, s') ->
  created_as (feedPublishingDefaults settings) in_ p /\ FeedService_Get (pf_Id p) "" s' = Ok p.
Proof.
  intros Hd Hu Hc. destruct (create_row _ _ _ _ _ _ _ Hd Hc) as (extra & id & j & -> & Hid & Hj & Hk & Hreq & Hm & Hp).
  destruct (full_spec_fields in_ (feedKindFromProto (pf_Kind in_))) as (F1 & F2 & F3 & F4 & F5 & F6 & F7).
  set (spec := feedFullSpecFromProto in_ (feedKindFromProto (pf_Kind in_))) in *.
  assert (Hid' : pf_Id p = id) by (unfold feedToProto in Hp; destruct (String.eqb (rec_Kind _) KindAggregate); [by injection Hp as <-|];
    destruct (Import _); [by injection Hp as <-|done]).
  split.
  2:{ unfold FeedService_Get. rewrite Hid', (proj2 (Z.eqb_neq id 0)) by lia. cbn [negb]. rewrite Hreq. exact Hp. }
  assert (Hkn : feedKindFromProto (pf_Kind in_) <> "") by (rewrite <- F5; intros E; by rewrite E in Hk).
  assert (Hagg : fs_Kind spec = KindAggregate <-> pf_Kind in_ = FEED_KIND_AGGREGATE).
  { rewrite F5. split; [|by intros ->]. intros E. rewrite <- (kind_roundtrip _ Hkn), E. done. }
  unfold feedToProto in Hp. cbn [rec_Kind rec_SpecJSON feedScanRecord new_feed_row f_kind f_spec_json] in Hp.
  destruct (String.eqb_spec (fs_Kind spec) KindAggregate) as [Ea|Ea].
  - injection Hp as <-. split; cbn -[feedFirstNonEmpty filled int32 of_null nullString wrap32]; rewrite ?F1, ?F2, ?F3, ?F4, ?F5, ?nullString_roundtrip; try done; try apply filled_first.
    + by apply kind_roundtrip.
    + apply asked_ttl.
    + intros _. split; [|done]. rewrite Hm by done. apply F6. by rewrite <- F5.
    + intros sp Hne. tauto.
  - rewrite (import_export spec j Hu Hj) in Hp. injection Hp as <-. split; cbn -[feedSpecToProto feedFirstNonEmpty filled int32 of_null nullString wrap32];
      rewrite ?F1, ?F2, ?F3, ?F4, ?F5, ?nullString_roundtrip; try done; try apply filled_first.
    + by apply kind_roundtrip.
    + apply asked_ttl.
    + tauto.
    + intros sp _ Hsp Hw. f_equal. rewrite F7, Hsp. by apply wire_there_and_back.
Qed.
End creating.

(** ** Deleting *)

Lemma suffixed_other s t : t <> "" -> s ++ t <> s.
Proof.
  intros Ht E. apply (f_equal String.length) in E. rewrite str_app_length in E. destruct t; [done|]. cbn in E. lia.
Qed.

Lemma listFeeds_elem r d : r ∈ feeds d -> scanFeedRow r ∈ listFeeds d.
Proof. intros Hr. unfold listFeeds. rewrite order_asc_elem. apply list_elem_of_fmap_2. by rewrite order_asc_elem. Qed.

Lemma deleted mid now id v s s' :
  content_ok (db s) -> between mid s -> FeedService_Delete mid now id v s = (Ok tt, s') ->
  exists slug r, r ∈ feeds (db s) /\ f_id r = id /\ f_slug r = slug /\
    content_ok (db s') /\ (forall x, x ∈ feeds (db s') -> f_slug x <> slug) /\ getFeedBySlug slug (db s') = None /\
    exists f, getFeedBySlug (tombstone_slug slug now) (db s') = Some f /\ fd_ID f = id /\ f ∈ listFeeds (db s') /\
      listItems id (db s') = listItems id (mid (db s)).
Proof.
  intros Hd Hm H. unfold FeedService_Delete in H. destruct (at_expected _ _ _) as [rec|] eqn:Ea; [|done]. apply expected_id in Ea as (Hr & Hv & Hid).
  destruct (read_row _ _ _ _ Hd Hr Hm) as (r1 & Hr1 & Hi1 & _ & Hs1 & _ & Hl1 & Hv1 & Hone).
  destruct (require_feed_spec _ _ _ Hr) as (r0 & Hr0 & Hi0 & _ & Erec). cbv zeta in H. destruct (update_feed _ _ _) as [d|] eqn:Eu; [|done].
  injection H as <-. rewrite Hid in *. cbn [db set_db feedInvalidate log_dropped] in *.
  assert (Hmid : content_ok (mid (db s))) by (by apply steps_feeds in Hm as [? _]).
  assert (Hhit : forall x, at_feed id v x && live x = true -> f_id x = id) by (intros x [[? _]%at_feed_id _]%andb_true_iff; done).
  pose proof Eu as (r & Hin & Hh & Hfree & Ed)%update_feed_spec. pose proof (Hone r Hin (Hhit r Hh)) as ->.
  assert (Hok : content_ok d).
  { rewrite Ed. apply (rewrite_feed_ok _ _ id); [done|done|done|]. intros x y Hx Hy Hhx Hne E. apply (Hfree y); [done|by rewrite Hi1|by rewrite <- E]. }
  assert (Hnew : bury_row now (tombstone_slug (rec_Slug rec) now) r1 ∈ feeds d) by (rewrite Ed; apply elem_of_update; exists r1; by rewrite Hh).
  assert (Hgone : forall x, x ∈ feeds d -> f_slug x <> rec_Slug rec).
  { intros x Hx E. rewrite Ed in Hx. apply elem_of_update in Hx as (y & Hy & ->). destruct (at_feed id v y && live y) eqn:Ey.
    - cbn in E. revert E. by apply suffixed_other.
    - assert (y = r1) as ->; [|congruence]. eapply (distinct_inj f_slug); [apply Hmid|done|done|]. congruence. }
  exists (rec_Slug rec), r0. split; [done|]. split; [done|]. split; [by rewrite Erec|]. split; [done|]. split; [done|]. split.
  - unfold getFeedBySlug. destruct (List.find _ _) as [x|] eqn:E; [|done]. apply find_hit in E as [Hx Hs%bool_decide_eq_true]. by destruct (Hgone x Hx).
  - exists (scanFeedRow (bury_row now (tombstone_slug (rec_Slug rec) now) r1)). split; [by apply (getFeedBySlug_row _ d _ Hok Hnew)|].
    split; [done|]. split; [by apply listFeeds_elem|]. rewrite Ed. done.
Qed.

(** ** What an accepted recipe is worth *)

Lemma accepted_retries LoadLocation template_ok s :
  Spec_Validate LoadLocation template_ok s = [] -> 0 <= MaxRetries (fs_Novelty s) <= 10.
Proof.
  intros Hv. destruct (decide (0 <= MaxRetries (fs_Novelty s) <= 10)) as [|H]; [done|].
  pose proof (problems_complete _ _ _ _ _ (RetriesOutside LoadLocation template_ok s H)) as Hp. rewrite Hv in Hp. by apply elem_of_nil in Hp.
Qed.

(** ** A service to try the statements on *)

#[export] Instance spec_float_eq_dec : EqDecision spec_float.
Proof. solve_decision. Defined.
#[export] Instance model_params_eq_dec : EqDecision ModelParams.
Proof. solve_decision. Defined.
#[export] Instance novelty_eq_dec : EqDecision NoveltyParams.
Proof. solve_decision. Defined.
#[export] Instance budgets_eq_dec : EqDecision Budgets.
Proof. solve_decision. Defined.
#[export] Instance source_eq_dec : EqDecision SourceSpec.
Proof. solve_decision. Defined.
#[export] Instance written_eq_dec : EqDecision WrittenRecurrence.
Proof. solve_decision. Defined.
#[export] Instance feed_spec_eq_dec : EqDecision FeedSpec.
Proof. solve_decision. Defined.

(** A codec that knows the recipes of a table by their number. *)
Definition table_codec (t : list FeedSpec) : Codec :=
  {| Export := fun s => match list_find (fun x => x = s) t with Some (i, _) => Some (show_int (Z.of_nat i)) | None => None end;
     Import := fun j => z ← Atoi j; t !! Z.to_nat z |}.

Lemma table_codec_laws t : Z.of_nat (length t) < 2 ^ 63 -> CodecLaws (table_codec t).
Proof.
  intros Hn s j _. cbn. destruct (list_find _ _) as [[i x]|] eqn:E; [|done]. intros [= <-]. apply list_find_Some in E as (Hl & -> & _).
  apply lookup_lt_Some in Hl as Hi. rewrite Atoi_show by lia. cbn. by rewrite Nat2Z.id.
Qed.

Definition demo_zones (tz : string) : option Location := if String.eqb tz "UTC" then Some UTC else None.
Definition demo_templates (_ : string) : bool := true.

Definition demo_wire : ProtoSpec :=
  MkProtoSpec "" "" "UTC" (Some (MkProtoRecurrence 2 2 [3; 5] 0 0 9 30 (Some (1767225600 * second)))) 3 50 "gpt-4o" f64_zero false "system" "user" 50
    default_threshold 200000 24 [].
Definition demo_feed (slug : string) : ProtoFeed :=
  MkProtoFeed 0 slug 1 "Trivia" "Questions" "en" "" "" "" 30 true 0 0 0 0 None [] (Some demo_wire).
Definition demo_aggregate (slug : string) (ms : list string) : ProtoFeed :=
  MkProtoFeed 0 slug 3 "Everything" "" "en" "" "" "" 30 true 0 0 0 0 None ms
    (Some (MkProtoSpec "adhoc" "" "UTC" None 1 50 "" f64_zero false "" "" 0 f64_zero 1 1 [])).

Definition demo_specs : list FeedSpec :=
  [feedFullSpecFromProto (demo_feed "trivia-one") KindGenerative; feedFullSpecFromProto (demo_aggregate "everything" ["trivia-one"]) KindAggregate;
   feedFullSpecFromProto (demo_feed "trivia-two") KindGenerative; feedFullSpecFromProto (demo_aggregate "trivia-one" ["trivia-two"]) KindAggregate;
   feedFullSpecFromProto (demo_aggregate "everything" ["trivia-two"; "trivia-two"]) KindAggregate;
   feedFullSpecFromProto (demo_aggregate "everything" ["trivia-one-deleted-9"]) KindAggregate].
#[local] Instance demo_codec : Codec := table_codec demo_specs.

Definition start : FeedServer := MkFeedServer empty_content [] [].
Definition create_feed (in_ : ProtoFeed) (s : FeedServer) : result feed_code ProtoFeed * FeedServer :=
  FeedService_Create demo_zones demo_templates (fun d => d) t0 None (Some in_) s.
Definition with_trivia : FeedServer := (create_feed (demo_feed "trivia-one") start).2.
Definition with_aggregate : FeedServer := (create_feed (demo_aggregate "everything" ["trivia-one"]) with_trivia).2.
Definition with_both : FeedServer := (create_feed (demo_feed "trivia-two") with_aggregate).2.

Lemma start_ok : feeds_ok start.
Proof. split; [apply empty_content_ok|]. split; constructor. Qed.

Lemma created_call in_ s : rtc (feed_call demo_zones demo_templates) s (create_feed in_ s).2.
Proof. apply rtc_once, call_feed_Create. unfold between. reflexivity. Qed.

Lemma with_both_reached : rtc (feed_call demo_zones demo_templates) start with_both.
Proof. etrans; [apply created_call|]. etrans; [apply created_call|]. apply created_call. Qed.

Lemma with_both_ok : feeds_ok with_both.
Proof. exact (proj1 (feed_calls_keep _ _ _ _ start_ok with_both_reached)). Qed.

Example with_both_holds :
  f_slug <$> feeds (db with_both) = ["trivia-one"; "everything"; "trivia-two"] /\ members (db with_both) = [MkMember 2 1 0] /\
  dropped with_both = ["trivia-one"; "everything"; "trivia-two"].
Proof. vm_compute. done. Qed.

(** ** Theorems *)



(** C19: an edit of a feed succeeds only on the version it was made of, whatever was
    written between the reading and the writing: it rewrites the row at that
    version, moves the version on by one, touches no other feed and no item, and
    drops the documents of the feed under its old and its new slug and of every
    aggregate that contains it. Every later edit of the same version is refused
    and changes nothing. *)
Theorem feed_edits_never_lost LoadLocation template_ok (codec : Codec) e mid now id v s s1 :
  id <> 0 -> do_edit LoadLocation template_ok e mid now id v s = (true, s1) ->
  edited e (db s) (mid (db s)) id v s s1 /\
  (feeds_ok s1 -> forall e' mid' now' s2, rtc (feed_call LoadLocation template_ok) s1 s2 ->
     do_edit LoadLocation template_ok e' mid' now' id v s2 = (false, s2)).
Proof.
  intros Hz H. pose proof (do_edit_edits _ _ _ _ _ _ _ _ _ Hz H) as He. split; [done|]. intros Hok e' mid' now' s2 Hs2.
  destruct He as (rec & r & r' & _ & _ & _ & _ & _ & Hr' & Hi' & Hv' & _). destruct (feed_calls_keep _ _ _ _ Hok Hs2) as [Hok2 Hk].
  destruct (fk_feeds _ _ Hk r' Hr') as (r2 & Hr2 & Hev). apply stale_edit_refused; [done|].
  intros rec2 (x & Hx & Hxi & _ & ->)%require_feed_spec. cbn. assert (x = r2) as ->.
  { eapply (ids_inj (feeds (db s2))); [apply Hok2|done|done|]. cbv [row_id row_feed]. rewrite (fe_id _ _ _ Hev). congruence. }
  pose proof (fe_version _ _ _ Hev). lia.
Qed.

Definition disabled_once : FeedServer := (do_edit demo_zones demo_templates (ESetEnabled false) (fun d => d) (t0 + second) 1 1 with_both).2.

Lemma disabled_once_ok : feeds_ok disabled_once.
Proof.
  refine (proj1 (feed_calls_keep demo_zones demo_templates with_both disabled_once with_both_ok _)). apply rtc_once.
  apply (call_feed_SetEnabled demo_zones demo_templates (fun d => d) (t0 + second) 1 false 1 with_both). unfold between. reflexivity.
Qed.

Lemma feed_edits_never_lost_witness :
  do_edit demo_zones demo_templates EDelete (fun d => d) (t0 + 2 * second) 1 1 disabled_once = (false, disabled_once).
Proof.
  refine (proj2 (feed_edits_never_lost demo_zones demo_templates demo_codec (ESetEnabled false) (fun d => d) (t0 + second) 1 1 with_both disabled_once _ _) _ _ _ _ _ _).
  - discriminate.
  - vm_compute. reflexivity.
  - exact disabled_once_ok.
  - reflexivity.
Defined.

(** a feed that is created reads back as it was asked for: its identity, its
    kind, whether it is enabled, the members of an aggregate in their order, and
    the recipe of any other feed exactly as it was sent; an author, a copyright, an
    image or a lifetime left blank is the one of the publishing settings. It starts
    at version one with no failure and no build, and [Get] returns what [Create]
    did. *)
Theorem created_feed_reads_back LoadLocation template_ok (codec : Codec) mid now settings in_ s p s' :
  CodecLaws codec -> content_ok (mid (db s)) -> utf8_recipe (feedFullSpecFromProto in_ (feedKindFromProto (pf_Kind in_))) ->
  FeedService_Create LoadLocation template_ok mid now settings (Some in_) s = (Ok p, s') ->
  created_as (feedPublishingDefaults settings) in_ p /\ FeedService_Get (pf_Id p) "" s' = Ok p.
Proof. intros Hl Hd Hu Hc. exact (created (laws := Hl) _ _ _ _ _ _ _ _ _ Hd Hu Hc). Qed.

Lemma demo_int32 : wire_spec demo_wire.
Proof.
  unfold wire_spec, int32. cbn. do 4 (split; [lia|]). intros r [= <-]. unfold wire_recurrence, int32.
  cbn [pr_Frequency pr_Weekdays pr_Interval pr_MonthDay pr_SetPosition pr_Hour pr_Minute pr_Anchor]. split; [lia|].
  split; [repeat (constructor; [lia|]); constructor|]. do 5 (split; [lia|]). intros t [= <-]. unfold midnight, four_digit. vm_compute. done.
Qed.

Lemma created_feed_reads_back_witness :
  exists p, create_feed (demo_feed "trivia-one") start = (Ok p, with_trivia) /\ pf_Spec p = Some demo_wire /\ FeedService_Get 1 "" with_trivia = Ok p.
Proof.
  destruct (create_feed (demo_feed "trivia-one") start) as [[p|e] s'] eqn:E; [|vm_compute in E; discriminate E].
  destruct (created_feed_reads_back demo_zones demo_templates demo_codec (fun d => d) t0 None (demo_feed "trivia-one") start p s') as [Hc Hg].
  - apply table_codec_laws. vm_compute. done.
  - apply empty_content_ok.
  - apply utf8_check. vm_compute. reflexivity.
  - exact E.
  - exists p. split; [|split].
    + unfold with_trivia. by rewrite E.
    + apply (ca_spec _ _ _ Hc demo_wire); [discriminate|reflexivity|exact demo_int32].
    + replace with_trivia with s' by (unfold with_trivia; by rewrite E). assert (Hp : pf_Id p = 1) by (vm_compute in E; injection E as <- _; reflexivity).
      by rewrite <- Hp.
Defined.

(** the recipe crosses the wire unharmed: a message read as a recipe and written
    back is the message, whatever schedule it carries; and a stored recipe in the
    service's own words that is sent to the editor and back is the same but for
    the model's mode and speed and the number of retries, which the message has no
    place for and which are set to balanced, none and three. *)
Theorem recipe_wire_roundtrip :
  (forall p, wire_spec p -> feedSpecToProto (feedSpecFromProto (Some p)) = p) /\
  (forall s, plain_spec s -> feedSpecFromProto (Some (feedSpecToProto s)) = as_edited s).
Proof. split; [apply wire_there_and_back|apply wire_back_and_there]. Qed.

Lemma recipe_wire_roundtrip_witness : feedSpecToProto (feedSpecFromProto (Some demo_wire)) = demo_wire.
Proof. exact (proj1 recipe_wire_roundtrip demo_wire demo_int32). Defined.

(** the search finds exactly the feeds whose slug or title contains the text,
    letters of ASCII in either case and no character having a special meaning;
    and following the page tokens from the first page yields each live feed that
    matches exactly once, in the order of their ids, in pages of at most the size
    asked for. *)
Theorem feed_pages_complete (codec : Codec) q s :
  content_ok (db s) -> listable (db s) ->
  (forall r, feed_matches q r = true <->
     f_deleted_at r = None /\ (fl_EnabledOnly q = true -> f_enabled r = true) /\
     (TrimSpace (fl_Search q) <> "" -> occurs (TrimSpace (fl_Search q)) (f_slug r) \/ occurs (TrimSpace (fl_Search q)) (f_title r))) /\
  exists ps, feed_pages (S (length (feeds (db s)))) q "" s = Some ps /\
    mjoin ps = omap (shown_feed (db s)) (filter (fun r => feed_matches q r = true) (feeds (db s))) /\
    Forall (fun p => (length p <= feed_page_size (fl_PageSize q))%nat) ps.
Proof.
  intros Hd Hl. split; [|by apply feed_pages_all]. intros r. unfold feed_matches. cbv zeta.
  rewrite !andb_true_iff, !orb_true_iff, !search_spec, negb_true_iff. unfold live. rewrite bool_decide_eq_true.
  destruct (is_empty (TrimSpace (fl_Search q))) eqn:E.
  - apply bool_decide_eq_true in E. destruct (fl_EnabledOnly q); naive_solver.
  - apply is_empty_false in E. destruct (fl_EnabledOnly q); naive_solver.
Qed.

Lemma demo_listable : listable (db with_both).
Proof.
  assert (H : forallb (fun r => (f_id r <? 2 ^ 63) && negb (failed (feedToProto (feedScanRecord r) (db with_both)))) (feeds (db with_both)) = true)
    by (vm_compute; reflexivity).
  apply Forall_forall. intros r Hr%list_elem_of_In. apply (proj1 (forallb_forall _ _) H) in Hr as [Hi%Z.ltb_lt Hp]%andb_true_iff. split; [done|]. intros _.
  destruct (feedToProto _ _) as [p|]; [by exists p|done].
Qed.

Lemma feed_pages_complete_witness :
  exists ps, feed_pages 4 (MkFeedList 1 "" true "IVIA-") "" with_both = Some ps /\ length <$> ps = [1; 1]%nat.
Proof.
  destruct (feed_pages_complete demo_codec (MkFeedList 1 "" true "IVIA-") with_both (fo_content _ with_both_ok) demo_listable) as (_ & ps & H & _).
  exists ps. split; [exact H|]. vm_compute in H. injection H as <-. reflexivity.
Defined.

(** deleting a feed frees its name and no route of the public plane finds the
    feed under it any more; but the public plane does not look at the deletion:
    under the name the row is given instead, it still serves the feed with all of
    its items, and the index lists it. *)
Theorem deleted_feed_moves mid now id v s s' :
  content_ok (db s) -> between mid s -> FeedService_Delete mid now id v s = (Ok tt, s') ->
  exists slug r, r ∈ feeds (db s) /\ f_id r = id /\ f_slug r = slug /\
    content_ok (db s') /\ (forall x, x ∈ feeds (db s') -> f_slug x <> slug) /\ getFeedBySlug slug (db s') = None /\
    exists f, getFeedBySlug (tombstone_slug slug now) (db s') = Some f /\ fd_ID f = id /\ f ∈ listFeeds (db s') /\
      listItems id (db s') = listItems id (mid (db s)).
Proof. apply deleted. Qed.

Definition without_trivia : FeedServer := (FeedService_Delete (fun d => d) 9 1 1 with_both).2.

Lemma deleted_feed_moves_witness : exists f, getFeedBySlug "trivia-one-deleted-9" (db without_trivia) = Some f /\ f ∈ listFeeds (db without_trivia).
Proof.
  destruct (deleted_feed_moves (fun d => d) 9 1 1 with_both without_trivia) as (slug & r & Hr & Hi & <- & _ & _ & _ & f & Hf & _ & Hl & _).
  - exact (fo_content _ with_both_ok).
  - unfold between. reflexivity.
  - vm_compute. reflexivity.
  - exists f. split; [|exact Hl].
    assert (Hb : forallb (fun x => negb (f_id x =? 1) || String.eqb (f_slug x) "trivia-one") (feeds (db with_both)) = true) by (vm_compute; reflexivity).
    apply list_elem_of_In, (proj1 (forallb_forall _ _) Hb) in Hr. rewrite Hi in Hr. apply String.eqb_eq in Hr. rewrite Hr in Hf. exact Hf.
Defined.

(** a recipe that passes validation has a schedule unless it is only run by
    hand, and a run of it makes at most twenty-two model calls, whatever the model
    answers. *)
Theorem accepted_recipe_runs LoadLocation template_ok {W} (deps : Deps W) rules prices defaults calls ck runID row fs trigger w d :
  Spec_Validate LoadLocation template_ok fs = [] -> counts deps calls ->
  (IsScheduled fs = true -> exists fi, Spec_Firing LoadLocation fs = Ok fi) /\
  calls (run_open deps rules prices defaults ck runID row fs trigger w d).1.2.1 <= calls w + 22.
Proof.
  intros Hv Hc. split; [by apply (accepted_fires _ template_ok)|]. pose proof (accepted_retries _ _ _ Hv) as Hr.
  unfold run_open. cbv zeta. cbn [fst snd]. set (spec := generateSpecFrom _ _ _ _). set (st := (w, _)).
  pose proof (Run_costs deps rules (scanFeed row) spec calls Hc st) as H. cbn [fst st] in H. etrans; [exact H|].
  assert (Hn : MaxNoveltyRetries spec = MaxRetries (fs_Novelty fs)) by (unfold spec, generateSpecFrom; by repeat case_match).
  unfold maxAttempts. rewrite Hn. destruct (_ && _); lia.
Qed.

Lemma accepted_recipe_runs_witness :
  (exists fi, Spec_Firing demo_zones demo_fs = Ok fi) /\
  Z.of_nat (run_open (demo_deps [titled ""]) demo_rules NewTable (MkDefaults "model" "low") demo_clock 1 trivia_row demo_fs "cron" 0%nat d_done).1.2.1 <= 0 + 22.
Proof.
  destruct (accepted_recipe_runs demo_zones demo_templates (demo_deps [titled ""]) demo_rules NewTable (MkDefaults "model" "low") Z.of_nat
    demo_clock 1 trivia_row demo_fs "cron" 0%nat d_done) as [H1 H2].
  - vm_compute. reflexivity.
  - split; intros; try discriminate; cbn; lia.
  - split; [apply H1; vm_compute; reflexivity|exact H2].
Defined.

(** ** Behaviour to know of *)

(** Between the check of the members and the writing, another tab deletes the member
    and gives its name to an aggregate: the aggregates nest. *)
Definition swap_member (d : Content) : Content :=
  let s := (FeedService_Delete (fun d => d) 9 1 1 (MkFeedServer d [] [])).2 in
  db (create_feed (demo_aggregate "trivia-one" ["trivia-two"]) s).2.

Example members_can_nest :
  let r := FeedService_SetMembers swap_member 10 2 ["trivia-one"] 1 with_both in
  failed r.1 = false /\ members (db r.2) = [MkMember 4 3 0; MkMember 2 4 0] /\ (f_kind <$> find_id 4 (feeds (db r.2))) = Some KindAggregate.
Proof. vm_compute. done. Qed.

(** Importing a recipe whose members repeat is answered with an error, after the row
    has been rewritten: the members stay as they were, and the documents of the
    feed are not dropped. *)
Example import_can_write_half :
  let r := FeedService_ImportTOML demo_zones demo_templates (fun d => d) 10 2 "4" 1 with_both in
  r.1 = Err Feed_Internal /\ (f_version <$> find_id 2 (feeds (db r.2))) = Some 2 /\ members (db r.2) = members (db with_both) /\ dropped r.2 = dropped with_both.
Proof. vm_compute. done. Qed.

(** An aggregate keeps naming a member that was deleted, by the name the row was
    given: its export cannot be imported again. *)
Example export_names_the_dead :
  let out := FeedService_ExportTOML 2 without_trivia in
  out = Ok "5" /\ (FeedService_ImportTOML demo_zones demo_templates (fun d => d) 10 2 "5" 1 without_trivia).1 = Err Feed_InvalidArgument.
Proof. vm_compute. done. Qed.

(** Names in capitals are accepted from a recipe file; on the wire the schedule is
    lost, and the feed falls back to its cron expression at the next edit. *)
Definition shouted : WrittenRecurrence := MkWritten "Weekly" 1 ["Thursday"] 0 0 9 0 "".
Example capitals_lose_the_schedule :
  failed (Resolve demo_zones shouted "UTC") = false /\ recurrenceFromProto (recurrenceToProto (Some shouted)) = None.
Proof. vm_compute. done. Qed.

(** A feed that has not published may be renamed; its jitter stays that of the old slug. *)
Example rename_keeps_jitter :
  let r := FeedService_Update demo_zones demo_templates (fun d => d) 10 (Some (with_id 1 (demo_feed "trivia-two"))) 1 with_trivia in
  failed r.1 = false /\ (f_jitter_offset <$> find_id 1 (feeds (db r.2))) = Some (Offset "trivia-one" feedJitterWindow / second) /\
  Offset "trivia-one" feedJitterWindow / second <> Offset "trivia-two" feedJitterWindow / second.
Proof. vm_compute. done. Qed.
