(* ===== verification/RunService.v ===== *)
(** * The run service

    internal/rpc/run.go: the history of runs page by page, one run, its deletion,
    and [Watch], which streams a run to every browser that looks at it.  Progress
    is reported through a hub with a bounded channel per watcher; hub, watchers and
    database are one state, and each thing a goroutine does is a step of it. *)

From S2P Require Import Prelude GoTime GoStrings Timestamps Tables Schema StoreItems StoreRuns StoreSamples StoreHistory Password Paging.
From Stdlib Require Import String Ascii.
Local Open Scope string_scope.
Local Open Scope Z_scope.
Local Abbreviation length := List.length.

(** ** Runs on the wire *)

Inductive run_code := Run_InvalidArgument | Run_NotFound | Run_ClientGone.

Definition RUN_STATUS_UNSPECIFIED : Z := 0.
Definition RUN_STATUS_RUNNING : Z := 1.
Definition RUN_STATUS_SUCCEEDED : Z := 2.
Definition RUN_STATUS_FAILED : Z := 3.
Definition RUN_STATUS_SKIPPED : Z := 4.

(** The words of the column [status]. *)
Definition status_word (st : run_status) : string :=
  match st with
  | Running => "running" | Success => "success" | Failed => "failed" | Skipped => "skipped"
  | Interrupted => "interrupted" | CompletedUnconfirmed => "completed_unconfirmed"
  end.

Definition runIsTerminal (st : run_status) : bool := negb (bool_decide (st = Running)).

Definition runStatusToProto (st : run_status) : Z :=
  match st with
  | Running => RUN_STATUS_RUNNING
  | Success => RUN_STATUS_SUCCEEDED
  | Failed | Interrupted | CompletedUnconfirmed => RUN_STATUS_FAILED
  | Skipped => RUN_STATUS_SKIPPED
  end.

Definition runProtoStatusToStore (s : Z) : option (list run_status) :=
  if s =? RUN_STATUS_RUNNING then Some [Running]
  else if s =? RUN_STATUS_SUCCEEDED then Some [Success]
  else if s =? RUN_STATUS_FAILED then Some [Failed; Interrupted; CompletedUnconfirmed]
  else if s =? RUN_STATUS_SKIPPED then Some [Skipped]
  else None.

Definition runErrorKindToProto (k : string) : Z :=
  if String.eqb k "transient" then 1 else if String.eqb k "invalid" then 2 else if String.eqb k "fatal" then 3 else 0.

Definition runTriggerToProto (t : string) : Z := if String.eqb t "cron" then 1 else if String.eqb t "manual" then 2 else 0.

(** The counts by reason, in the order of the reasons. *)
Definition runReasonsFromJSON (m : gmap string Z) : list (string * Z) :=
  (fun p : string * Z => (p.1, wrap32 p.2)) <$> order_asc fst (map_to_list m).

Record ProtoRun := MkProtoRun {
  rn_Id : Z; rn_FeedId : Z; rn_Trigger : Z; rn_Status : Z; rn_ErrorKind : Z; rn_Error : string; rn_ItemsAdded : Z; rn_ItemsRejected : Z;
  rn_RejectReasons : list (string * Z); rn_TokensIn : Z; rn_TokensOut : Z; rn_EstCostUsd : float64;
  rn_StartedAt : option Z; rn_FinishedAt : option Z; rn_HeartbeatAt : option Z }.

(** A time that was set. *)
Definition set_time (t : Z) : option Z := if is_zero t then None else Some t.

(** The text that keeps the two words of the watchdog apart from a failure. *)
Definition error_text (st : run_status) (err : string) : string :=
  match st with
  | Interrupted | CompletedUnconfirmed => if is_empty err then status_word st else status_word st ++ ": " ++ err
  | _ => err
  end.

Definition runToProto (r : RunRow) : ProtoRun :=
  MkProtoRun (r_id r) (r_feed_id r) (runTriggerToProto (r_trigger r)) (runStatusToProto (r_status r)) (runErrorKindToProto (of_null (r_error_kind r)))
    (error_text (r_status r) (of_null (r_error r))) (wrap32 (r_items_added r)) (wrap32 (r_items_rejected r)) (runReasonsFromJSON (r_reject_reasons r))
    (wrap32 (r_tokens_in r)) (wrap32 (r_tokens_out r)) (r_est_cost_usd r) (set_time (r_started_at r)) (set_time (of_null_time (r_finished_at r)))
    (set_time (of_null_time (r_heartbeat_at r))).

(** ** The history *)

Definition runDefaultPageSize : Z := 50.
Definition runMaxPageSize : Z := 200.

Definition runEncodeCursor (id : Z) : string := url64_encode (show_int id).
Definition runDecodeCursor (token : string) : option Z := b ← url64_decode token; Atoi b.

Record HistoryRequest := MkHistoryRequest {
  hq_FeedId : Z; hq_Status : Z; hq_StartedAfter : option Z; hq_StartedBefore : option Z; hq_PageSize : Z; hq_PageToken : string }.
Record HistoryResponse := MkHistoryResponse { hr_Runs : list ProtoRun; hr_NextPageToken : string; hr_TotalCount : Z }.

(** The conditions of the [WHERE] clause but for the cursor. *)
Definition run_matches (q : HistoryRequest) (r : RunRow) : bool :=
  ((hq_FeedId q =? 0) || (r_feed_id r =? hq_FeedId q))
  && match runProtoStatusToStore (hq_Status q) with Some l => bool_decide (r_status r ∈ l) | None => true end
  && match hq_StartedAfter q with Some t => text_le t (r_started_at r) | None => true end
  && match hq_StartedBefore q with Some t => text_le (r_started_at r) t | None => true end.

Definition runCountMatching (q : HistoryRequest) (d : Content) : Z := Z.of_nat (length (filter (fun r => run_matches q r = true) (runs d))).

(** [ORDER BY id DESC]: the rows are by increasing id. *)
Definition History (q : HistoryRequest) (d : Content) : result run_code HistoryResponse :=
  let pageSize := Z.to_nat (page_size (hq_PageSize q) runDefaultPageSize runMaxPageSize) in
  let cursor := if is_empty (hq_PageToken q) then Some None else Some <$> runDecodeCursor (hq_PageToken q) in
  match cursor with
  | None => Err Run_InvalidArgument
  | Some cursor =>
      let below r := match cursor with Some id => r_id r <? id | None => true end in
      let found := take (pageSize + 1) (rev (filter (fun r => run_matches q r && below r = true) (runs d))) in
      let '(out, last) := if (pageSize <? length found)%nat then (take pageSize found, nth_error found (pageSize - 1)) else (found, None) in
      Ok (MkHistoryResponse (runToProto <$> out) (match last with Some r => runEncodeCursor (r_id r) | None => "" end) (runCountMatching q d))
  end.

(** ** One run *)

Definition runGetByID (id : Z) (d : Content) : result run_code RunRow :=
  match find_id id (runs d) with Some r => Ok r | None => Err Run_NotFound end.

Definition RunService_Get (id : Z) (d : Content) : result run_code ProtoRun := let? r := runGetByID id d in Ok (runToProto r).

(** [ON DELETE SET NULL] of items.run_id. *)
Definition detach (r : ItemRow) : ItemRow :=
  MkItemRow (i_id r) (i_feed_id r) (i_item_key r) (i_content_hash r) (i_title r) (i_summary_text r) (i_body_html r) (i_answer_html r)
    (i_link r) (i_source_name r) (i_formats r) (i_published_at r) None (i_origin r) (i_version r) (i_created_at r) (i_updated_at r)
    (i_edited_at r) (i_deleted_at r).

Definition of_run (id : Z) (r : ItemRow) : bool := bool_decide (i_run_id r = Some id).

Definition RunService_Delete (id : Z) (d : Content) : result run_code Content :=
  let hit r := r_id r =? id in
  if (affected hit (runs d) =? 0)%nat then Err Run_NotFound
  else Ok (set_items (update_where (of_run id) detach (items d)) (set_runs (delete_where hit (runs d)) d)).

(** ** The progress hub

    Channels live in a store of their own: the hub's sets and the watchers name them. *)

Record RunProgress := MkProgress { Phase : string; CandidatesSeen : Z; ItemsCommitted : Z }.

Definition runProgressChanBuf : nat := 8.

Record runProgressHub := MkHub {
  subs : gmap Z (gset nat);
  lastCommitted : gmap Z Z;
  chans : gmap nat (list RunProgress);
  made : nat }.

Definition newRunProgressHub : runProgressHub := MkHub ∅ ∅ ∅ 0.

Definition subs_of (run : Z) (h : runProgressHub) : gset nat := default ∅ (subs h !! run).

Definition subscribe (run : Z) (h : runProgressHub) : nat * runProgressHub :=
  let ch := made h in
  (ch, MkHub (<[run := {[ch]} ∪ subs_of run h]> (subs h)) (lastCommitted h) (<[ch := []]> (chans h)) (S ch)).

Definition unsubscribe (run : Z) (ch : nat) (h : runProgressHub) : runProgressHub :=
  match subs h !! run with
  | None => h
  | Some ss =>
      let rest := ss ∖ {[ch]} in
      if decide (rest = ∅) then MkHub (delete run (subs h)) (delete run (lastCommitted h)) (chans h) (made h)
      else MkHub (<[run := rest]> (subs h)) (lastCommitted h) (chans h) (made h)
  end.

(** A send that does not block: on a full channel the tick is dropped. *)
Definition offer (p : RunProgress) (buf : list RunProgress) : list RunProgress :=
  if (length buf <? runProgressChanBuf)%nat then (buf ++ [p])%list else buf.

Definition fan_out (ss : gset nat) (p : RunProgress) (cs : gmap nat (list RunProgress)) : gmap nat (list RunProgress) :=
  map_imap (fun ch buf => Some (if decide (ch ∈ ss) then offer p buf else buf)) cs.

Definition publish (run : Z) (p : RunProgress) (h : runProgressHub) : runProgressHub :=
  MkHub (subs h) (lastCommitted h) (fan_out (subs_of run h) p (chans h)) (made h).

Definition publishCommitted (run itemsCommitted : Z) (h : runProgressHub) : runProgressHub :=
  if decide (subs_of run h = ∅) then h
  else if match lastCommitted h !! run with Some prev => itemsCommitted <? prev | None => false end then h
  else MkHub (subs h) (<[run := itemsCommitted]> (lastCommitted h)) (fan_out (subs_of run h) (MkProgress "" 0 itemsCommitted) (chans h)) (made h).

Definition ReportCandidate (run : Z) (phase : string) (candidatesSeen : Z) (h : runProgressHub) : runProgressHub :=
  publish run (MkProgress phase candidatesSeen 0) h.
Definition ReportCommitted (run itemsCommitted : Z) (h : runProgressHub) : runProgressHub := publishCommitted run itemsCommitted h.

(** ** Watching

    A call of [Watch] is named by the channel it subscribed with. *)

Inductive WatchResponse := Snapshot (p : ProtoRun) | Tick (p : RunProgress).

Inductive watch_phase := W_Subscribed | W_Loop | W_Done (err : option run_code).

Record Watcher := MkWatcher { wt_run : Z; wt_phase : watch_phase; wt_sent : list WatchResponse }.

Record RunWorld := MkWorld { rw_db : Content; rw_hub : runProgressHub; rw_watchers : gmap nat Watcher }.

(** How a poll goes: the read fails because the client has gone, the answer cannot be
    sent, or it is sent. *)
Inductive poll_outcome := P_Canceled | P_SendFails | P_Sends.
#[export] Instance poll_outcome_eq_dec : EqDecision poll_outcome.
Proof. solve_decision. Defined.

Definition pollAndSend (o : poll_outcome) (run : Z) (d : Content) : result run_code bool * list WatchResponse :=
  match o with
  | P_Canceled => (Ok false, [])
  | _ =>
      match runGetByID run d with
      | Err e => (Err e, [])
      | Ok r => match o with
                | P_Sends => (Ok (runIsTerminal (r_status r)), [Snapshot (runToProto r)])
                | _ => (Err Run_ClientGone, [])
                end
      end
  end.

(** What a watcher does next: its first poll, and the cases of its [select]; [gone] is
    what [ctx.Err()] says when it is asked. *)
Inductive watch_event :=
| E_First (o : poll_outcome) (gone : bool)
| E_ContextDone
| E_Progress (sent : bool)
| E_Ticker (gone : bool) (o : poll_outcome).

Definition put_watcher (ch : nat) (w : Watcher) (s : RunWorld) : RunWorld := MkWorld (rw_db s) (rw_hub s) (<[ch := w]> (rw_watchers s)).

(** The watcher returns, and its deferred [unsubscribe] runs. *)
Definition finish (ch : nat) (w : Watcher) (msgs : list WatchResponse) (err : option run_code) (s : RunWorld) : RunWorld :=
  MkWorld (rw_db s) (unsubscribe (wt_run w) ch (rw_hub s)) (<[ch := MkWatcher (wt_run w) (W_Done err) (wt_sent w ++ msgs)%list]> (rw_watchers s)).

Definition go_on (ch : nat) (w : Watcher) (msgs : list WatchResponse) (s : RunWorld) : RunWorld :=
  put_watcher ch (MkWatcher (wt_run w) W_Loop (wt_sent w ++ msgs)%list) s.

(** [Watch], up to its first poll. *)
Definition Watch (run : Z) (s : RunWorld) : RunWorld :=
  let '(ch, h) := subscribe run (rw_hub s) in MkWorld (rw_db s) h (<[ch := MkWatcher run W_Subscribed []]> (rw_watchers s)).

Definition watch_step (ch : nat) (e : watch_event) (s : RunWorld) : option RunWorld :=
  match rw_watchers s !! ch with
  | None => None
  | Some w =>
      match wt_phase w, e with
      | W_Subscribed, E_First o gone =>
          match pollAndSend o (wt_run w) (rw_db s) with
          | (Err err, msgs) => Some (finish ch w msgs (Some err) s)
          | (Ok terminal, msgs) =>
              Some (if terminal || gone || bool_decide (o = P_Canceled) then finish ch w msgs None s else go_on ch w msgs s)
          end
      | W_Loop, E_ContextDone => Some (finish ch w [] None s)
      | W_Loop, E_Progress sent =>
          match chans (rw_hub s) !! ch with
          | Some (p :: rest) =>
              let h := rw_hub s in
              let s := MkWorld (rw_db s) (MkHub (subs h) (lastCommitted h) (<[ch := rest]> (chans h)) (made h)) (rw_watchers s) in
              Some (if sent : bool then go_on ch w [Tick p] s else finish ch w [] (Some Run_ClientGone) s)
          | _ => None
          end
      | W_Loop, E_Ticker gone o =>
          if gone : bool then Some (finish ch w [] None s)
          else match pollAndSend o (wt_run w) (rw_db s) with
               | (Err err, msgs) => Some (finish ch w msgs (Some err) s)
               | (Ok terminal, msgs) => Some (if terminal : bool then finish ch w msgs None s else go_on ch w msgs s)
               end
      | _, _ => None
      end
  end.

(** ** Everything that happens

    The writes are those of the store, and the deletion of runs where [deletes]
    allows it. *)
Inductive run_step (deletes : Z -> Prop) (s : RunWorld) : RunWorld -> Prop :=
| rs_write d : content_step (rw_db s) d -> run_step deletes s (MkWorld d (rw_hub s) (rw_watchers s))
| rs_delete id d : deletes id -> RunService_Delete id (rw_db s) = Ok d -> run_step deletes s (MkWorld d (rw_hub s) (rw_watchers s))
| rs_candidate run phase n : run_step deletes s (MkWorld (rw_db s) (ReportCandidate run phase n (rw_hub s)) (rw_watchers s))
| rs_committed run n : run_step deletes s (MkWorld (rw_db s) (ReportCommitted run n (rw_hub s)) (rw_watchers s))
| rs_watch run : run_step deletes s (Watch run s)
| rs_event ch e s' : watch_step ch e s = Some s' -> run_step deletes s s'.
