(* ===== verification/RunWatch.v ===== *)
(** * What the run service promises

    Deleting a run leaves what is published as it is; the history is complete; a
    watcher sees the run as it is, never a count of items that goes back, and is
    done when the run is; the hub knows the watchers there are and no others. *)

From S2P Require Import Prelude GoTime GoStrings Timestamps Tables Schema StoreItems StoreRuns StoreSamples StoreHistory PublicSite Password Paging RunService.
From Stdlib Require Import String Ascii.
Local Open Scope string_scope.
Local Open Scope Z_scope.
Local Abbreviation length := List.length.

(** ** The hub and its watchers *)

Definition watching (w : Watcher) : Prop := match wt_phase w with W_Done _ => False | _ => True end.

Definition ticks (l : list WatchResponse) : list RunProgress := omap (fun m => match m with Tick p => Some p | Snapshot _ => None end) l.

(** The counts of committed items among the ticks; those on the way to a candidate
    carry none. *)
Definition committed (l : list RunProgress) : list Z := filter (fun n => n <> 0) (ItemsCommitted <$> l).
Definition rising (l : list RunProgress) : Prop := StronglySorted Z.le (committed l).

Record hub_ok (s : RunWorld) : Prop := {
  ho_subs : forall run ch, ch ∈ subs_of run (rw_hub s) <-> exists w, rw_watchers s !! ch = Some w /\ wt_run w = run /\ watching w;
  ho_nonempty : forall run ss, subs (rw_hub s) !! run = Some ss -> ss <> ∅;
  ho_last : forall run n, lastCommitted (rw_hub s) !! run = Some n -> is_Some (subs (rw_hub s) !! run);
  ho_bufs : forall ch buf, chans (rw_hub s) !! ch = Some buf -> (length buf <= runProgressChanBuf)%nat /\ (ch < made (rw_hub s))%nat;
  ho_chan : forall ch w, rw_watchers s !! ch = Some w -> is_Some (chans (rw_hub s) !! ch);
  ho_rising : forall ch w buf, rw_watchers s !! ch = Some w -> chans (rw_hub s) !! ch = Some buf -> watching w ->
    rising (ticks (wt_sent w) ++ buf) /\
    Forall (fun n => exists m, lastCommitted (rw_hub s) !! wt_run w = Some m /\ n <= m) (committed (ticks (wt_sent w) ++ buf));
  ho_past : forall ch w, rw_watchers s !! ch = Some w -> rising (ticks (wt_sent w)) }.

Lemma committed_app a b : committed (a ++ b) = (committed a ++ committed b)%list.
Proof. unfold committed. by rewrite fmap_app, filter_app. Qed.

Lemma committed_one p : committed [p] = if decide (ItemsCommitted p = 0) then [] else [ItemsCommitted p].
Proof. unfold committed. rewrite list_fmap_singleton. rewrite filter_cons. destruct (decide (ItemsCommitted p = 0)), (decide (ItemsCommitted p <> 0)); done. Qed.

Lemma ticks_app a b : ticks (a ++ b) = (ticks a ++ ticks b)%list.
Proof. apply omap_app. Qed.

Lemma rising_front a b : rising (a ++ b) -> rising a.
Proof. unfold rising. rewrite committed_app. apply StronglySorted_app_1_l. Qed.

Lemma subs_of_subscribed run run' h :
  subs_of run' (subscribe run h).2 = if decide (run = run') then {[made h]} ∪ subs_of run h else subs_of run' h.
Proof. unfold subs_of at 1. cbn. destruct (decide (run = run')) as [->|]; [by rewrite lookup_insert_eq|by rewrite lookup_insert_ne]. Qed.

Lemma subs_of_unsubscribed run ch run' h :
  subs_of run' (unsubscribe run ch h) = if decide (run = run') then subs_of run h ∖ {[ch]} else subs_of run' h.
Proof.
  unfold unsubscribe, subs_of. destruct (subs h !! run) as [ss|] eqn:E.
  - destruct (decide (ss ∖ {[ch]} = ∅)) as [Ed|]; cbn; destruct (decide (run = run')) as [<-|].
    + rewrite lookup_delete_eq. cbn. by rewrite Ed.
    + by rewrite lookup_delete_ne.
    + by rewrite lookup_insert_eq.
    + by rewrite lookup_insert_ne.
  - destruct (decide (run = run')) as [<-|]; [|done]. rewrite ?E. cbn. apply set_eq. intros x. set_solver.
Qed.

Lemma fan_out_lookup ss p cs ch : fan_out ss p cs !! ch = (fun buf => if decide (ch ∈ ss) then offer p buf else buf) <$> cs !! ch.
Proof. unfold fan_out. rewrite map_lookup_imap. by destruct (cs !! ch). Qed.

Lemma offer_cases p buf : (length buf <= runProgressChanBuf)%nat -> (length (offer p buf) <= runProgressChanBuf)%nat /\ (offer p buf = buf \/ offer p buf = buf ++ [p])%list.
Proof.
  intros H. unfold offer. destruct (Nat.ltb_spec (length buf) runProgressChanBuf); [|auto]. rewrite length_app. cbn. split; [lia|auto].
Qed.

(** A write of the database. *)
Lemma hub_ok_db d s : hub_ok s -> hub_ok (MkWorld d (rw_hub s) (rw_watchers s)).
Proof. by intros []. Qed.

(** Ticks fanned out to the watchers of one run, with the count they carry, if any,
    not below the last one. *)
Lemma hub_ok_fan_out s run p last' :
  hub_ok s -> (forall run', run' <> run -> last' !! run' = lastCommitted (rw_hub s) !! run') ->
  (forall m, lastCommitted (rw_hub s) !! run = Some m -> exists m', last' !! run = Some m' /\ m <= m') ->
  (forall m', last' !! run = Some m' -> is_Some (subs (rw_hub s) !! run)) ->
  (ItemsCommitted p <> 0 -> last' !! run = Some (ItemsCommitted p)) ->
  hub_ok (MkWorld (rw_db s) (MkHub (subs (rw_hub s)) last' (fan_out (subs_of run (rw_hub s)) p (chans (rw_hub s))) (made (rw_hub s))) (rw_watchers s)).
Proof.
  intros [H1 H2 H3 H4 H5 H6 H7] Ho Hm Hs Hp. split; cbn [rw_hub rw_watchers subs lastCommitted chans made]; try done.
  - intros run' n Hn. destruct (decide (run' = run)) as [->|]; [by eapply Hs|]. rewrite Ho in Hn by done. by eapply H3.
  - intros ch buf. rewrite fan_out_lookup. intros (b & Hb & ->)%fmap_Some. apply H4 in Hb as [Hb1 Hb2]. split; [|done]. destruct (decide _); [by apply offer_cases|done].
  - intros ch w Hw. rewrite fan_out_lookup. destruct (H5 ch w Hw) as [b ->]. by eexists.
  - intros ch w buf Hw. rewrite fan_out_lookup. intros (b & Hb & ->)%fmap_Some Ha. destruct (H6 ch w b Hw Hb Ha) as [R1 R2].
    assert (Hkeep : Forall (fun n => exists m, last' !! wt_run w = Some m /\ n <= m) (committed (ticks (wt_sent w) ++ b))).
    { eapply Forall_impl; [exact R2|]. intros n (m & E & Hle). destruct (decide (wt_run w = run)) as [Er|Er]; [|exists m; by rewrite Ho].
      rewrite Er in *. destruct (Hm m E) as (m' & E' & Hle'). exists m'. split; [done|lia]. }
    destruct (decide (ch ∈ subs_of run (rw_hub s))) as [Hin|]; [|done]. apply H1 in Hin as (w' & Hw' & Hr & _). rewrite Hw in Hw'. injection Hw' as <-.
    destruct (H4 ch b Hb) as [Hlen _]. destruct (proj2 (offer_cases p b Hlen)) as [->| ->]; [done|]. rewrite app_assoc. unfold rising.
    rewrite !(committed_app (ticks (wt_sent w) ++ b) [p]), !committed_one. destruct (decide (ItemsCommitted p = 0)) as [|Hne]; [by rewrite app_nil_r|].
    specialize (Hp Hne). rewrite Hr in *. split.
    + apply StronglySorted_app_2; [|done|by repeat constructor]. intros x y Hx ->%list_elem_of_singleton. rewrite Forall_forall in Hkeep.
      destruct (Hkeep x Hx) as (m & E & Hle). rewrite Hp in E. by injection E as <-.
    + apply Forall_app. split; [done|]. constructor; [|done]. by exists (ItemsCommitted p).
Qed.

Lemma hub_ok_candidate run phase n s : hub_ok s -> hub_ok (MkWorld (rw_db s) (ReportCandidate run phase n (rw_hub s)) (rw_watchers s)).
Proof. intros Hs. apply (hub_ok_fan_out s run); cbn; [done|done|by intros m Hm; exists m|by eapply ho_last|done]. Qed.

Lemma hub_ok_committed run n s : hub_ok s -> hub_ok (MkWorld (rw_db s) (ReportCommitted run n (rw_hub s)) (rw_watchers s)).
Proof.
  intros Hs. unfold ReportCommitted, publishCommitted. destruct (decide (subs_of run (rw_hub s) = ∅)) as [|Hne]; [by apply hub_ok_db|].
  destruct (match lastCommitted _ !! run with Some _ => _ | None => _ end) eqn:El; [by apply hub_ok_db|].
  apply (hub_ok_fan_out s run); cbn; [done|..].
  - intros run' H. by rewrite lookup_insert_ne.
  - intros m Hm. rewrite Hm in El. exists n. rewrite lookup_insert_eq. split; [done|]. bools. lia.
  - intros _ _. unfold subs_of in Hne. destruct (subs _ !! run); [done|by cbn in Hne].
  - intros _. by rewrite lookup_insert_eq.
Qed.

Lemma hub_ok_watch run s : hub_ok s -> hub_ok (Watch run s).
Proof.
  intros [H1 H2 H3 H4 H5 H6 H7]. unfold Watch. destruct (subscribe run (rw_hub s)) as [ch h] eqn:E. injection E as <- Eh.
  assert (Hnew : rw_watchers s !! made (rw_hub s) = None).
  { destruct (rw_watchers s !! made (rw_hub s)) as [w|] eqn:Ew; [|done]. destruct (H5 _ _ Ew) as [b Hb]. apply H4 in Hb as [_ Hb]. lia. }
  split; cbn [rw_hub rw_watchers].
  - intros run' c. replace h with (subscribe run (rw_hub s)).2 by (by rewrite <- Eh). rewrite subs_of_subscribed. destruct (decide (c = made (rw_hub s))) as [->|Hc].
    + rewrite lookup_insert_eq. split.
      * destruct (decide (run = run')) as [->|]; [intros _; by eexists|]. rewrite H1, Hnew. by intros (w & ? & _).
      * intros (w & [= <-] & <- & _). cbn. rewrite decide_True by done. set_solver.
    + rewrite lookup_insert_ne by done. rewrite <- H1. destruct (decide (run = run')) as [->|]; [set_solver|done].
  - intros run' ss. rewrite <- Eh. cbn. destruct (decide (run = run')) as [->|]; [rewrite lookup_insert_eq; intros [= <-]; set_solver|rewrite lookup_insert_ne by done; apply H2].
  - intros run' n. rewrite <- Eh. cbn. intros Hn%H3. destruct (decide (run = run')) as [->|]; [rewrite lookup_insert_eq; by eexists|by rewrite lookup_insert_ne].
  - intros c buf. rewrite <- Eh. cbn. destruct (decide (c = made (rw_hub s))) as [->|]; [rewrite lookup_insert_eq; intros [= <-]; cbn; split; [unfold runProgressChanBuf|]; lia|].
    rewrite lookup_insert_ne by done. intros Hb%H4. cbn. lia.
  - intros c w. rewrite <- Eh. cbn. destruct (decide (c = made (rw_hub s))) as [->|]; [rewrite !lookup_insert_eq; by eexists|rewrite !lookup_insert_ne by done; apply H5].
  - intros c w buf. rewrite <- Eh. cbn. destruct (decide (c = made (rw_hub s))) as [->|]; [|rewrite !lookup_insert_ne by done; apply H6].
    rewrite !lookup_insert_eq. intros [= <-] [= <-] _. split; constructor.
  - intros c w. destruct (decide (c = made (rw_hub s))) as [->|]; [rewrite lookup_insert_eq; intros [= <-]; constructor|rewrite lookup_insert_ne by done; apply H7].
Qed.

(** A tick taken from the channel of a watcher: sent to it, or lost with it. *)
Lemma rising_drop a p b (P : Z -> Prop) :
  rising (a ++ p :: b) -> Forall P (committed (a ++ p :: b)) -> rising (a ++ b) /\ Forall P (committed (a ++ b)).
Proof.
  unfold rising. change (p :: b) with ([p] ++ b)%list. rewrite !committed_app, !Forall_app, !StronglySorted_app.
  intros (H1 & H2 & H3 & H4 & H5) (F1 & F2 & F3). split; [|done]. split; [|done]. intros x y Hx Hy. apply H1; [done|]. apply elem_of_app. by right.
Qed.

Definition with_buffer (ch : nat) (buf : list RunProgress) (s : RunWorld) : RunWorld :=
  MkWorld (rw_db s) (MkHub (subs (rw_hub s)) (lastCommitted (rw_hub s)) (<[ch := buf]> (chans (rw_hub s))) (made (rw_hub s))) (rw_watchers s).

(** The watcher goes on, with this buffer and these messages. *)
Lemma hub_ok_goes_on s ch w w' buf rest :
  hub_ok s -> rw_watchers s !! ch = Some w -> watching w -> chans (rw_hub s) !! ch = Some buf ->
  wt_run w' = wt_run w -> watching w' -> (length rest <= length buf)%nat ->
  rising (ticks (wt_sent w') ++ rest) ->
  Forall (fun n => exists m, lastCommitted (rw_hub s) !! wt_run w = Some m /\ n <= m) (committed (ticks (wt_sent w') ++ rest)) ->
  hub_ok (put_watcher ch w' (with_buffer ch rest s)).
Proof.
  intros [H1 H2 H3 H4 H5 H6 H7] Hw Ha Hb Hr Ha' Hlen R1 R2. split; cbn; try done.
  - intros run c. change (subs_of run _) with (subs_of run (rw_hub s)). rewrite H1. destruct (decide (c = ch)) as [->|]; [|by rewrite lookup_insert_ne].
    rewrite lookup_insert_eq, Hw. split; intros (x & [= <-] & ? & ?); eexists; (split; [done|split; [congruence|done]]).
  - intros c b. destruct (decide (c = ch)) as [->|]; [|rewrite lookup_insert_ne by done; apply H4]. rewrite lookup_insert_eq. intros [= <-].
    destruct (H4 ch buf Hb). split; [lia|done].
  - intros c x. destruct (decide (c = ch)) as [->|]; [rewrite !lookup_insert_eq; by eexists|rewrite !lookup_insert_ne by done; apply H5].
  - intros c x b. destruct (decide (c = ch)) as [->|]; [|rewrite !lookup_insert_ne by done; apply H6]. rewrite !lookup_insert_eq. intros [= <-] [= <-] _.
    by rewrite Hr.
  - intros c x. destruct (decide (c = ch)) as [->|]; [|rewrite lookup_insert_ne by done; apply H7]. rewrite lookup_insert_eq. intros [= <-]. by eapply rising_front.
Qed.

Lemma with_same_buffer ch buf s : chans (rw_hub s) !! ch = Some buf -> with_buffer ch buf s = s.
Proof. intros H. destruct s as [d [a b c m] ws]. unfold with_buffer. cbn in *. by rewrite insert_id. Qed.

Lemma hub_ok_polled s ch w msgs :
  hub_ok s -> rw_watchers s !! ch = Some w -> watching w -> ticks msgs = [] -> hub_ok (go_on ch w msgs s).
Proof.
  intros Hs Hw Ha Ht. destruct (ho_chan _ Hs _ _ Hw) as [buf Hb]. destruct (ho_rising _ Hs _ _ _ Hw Hb Ha) as [R1 R2].
  unfold go_on. rewrite <- (with_same_buffer ch buf s Hb) at 1. apply (hub_ok_goes_on s ch w _ buf); cbn; try done; rewrite ticks_app, Ht, app_nil_r; done.
Qed.

Lemma hub_ok_finish s ch w msgs err :
  hub_ok s -> rw_watchers s !! ch = Some w -> watching w -> ticks msgs = [] -> hub_ok (finish ch w msgs err s).
Proof.
  intros [H1 H2 H3 H4 H5 H6 H7] Hw Ha Ht. unfold finish. set (w' := MkWatcher _ _ _).
  assert (Hch : ch ∈ subs_of (wt_run w) (rw_hub s)) by (apply H1; by exists w).
  assert (Hsame : chans (unsubscribe (wt_run w) ch (rw_hub s)) = chans (rw_hub s) /\ made (unsubscribe (wt_run w) ch (rw_hub s)) = made (rw_hub s)).
  { unfold unsubscribe. destruct (subs _ !! _); [|done]. by destruct (decide _). }
  destruct Hsame as [Ec Em].
  split; cbn [rw_hub rw_watchers].
  - intros run c. rewrite subs_of_unsubscribed. destruct (decide (c = ch)) as [->|Hc].
    + rewrite lookup_insert_eq. split; [|by intros (x & [= <-] & _ & [])]. destruct (decide (wt_run w = run)) as [<-|]; [set_solver|].
      intros (x & Hx & ? & _)%H1. rewrite Hw in Hx. by injection Hx as <-.
    + rewrite lookup_insert_ne by done. rewrite <- H1. destruct (decide (wt_run w = run)) as [<-|]; [set_solver|done].
  - intros run ss. unfold unsubscribe. destruct (subs (rw_hub s) !! wt_run w) as [t|] eqn:E; [|apply H2]. destruct (decide (t ∖ {[ch]} = ∅)); cbn.
    + intros Hl. destruct (decide (run = wt_run w)) as [->|]; [by rewrite lookup_delete_eq in Hl|]. rewrite lookup_delete_ne in Hl by done. by eapply H2.
    + destruct (decide (run = wt_run w)) as [->|]; [rewrite lookup_insert_eq; by intros [= <-]|rewrite lookup_insert_ne by done; apply H2].
  - intros run n. unfold unsubscribe. destruct (subs (rw_hub s) !! wt_run w) as [t|] eqn:E; [|apply H3]. destruct (decide (t ∖ {[ch]} = ∅)); cbn.
    + intros Hl. destruct (decide (run = wt_run w)) as [->|]; [by rewrite lookup_delete_eq in Hl|]. rewrite lookup_delete_ne in Hl by done. rewrite lookup_delete_ne by done. by eapply H3.
    + intros Hl%H3. destruct (decide (run = wt_run w)) as [->|]; [rewrite lookup_insert_eq; by eexists|by rewrite lookup_insert_ne].
  - intros c b. rewrite Ec, Em. apply H4.
  - intros c x. rewrite Ec. destruct (decide (c = ch)) as [->|]; [intros _; by eapply H5|rewrite lookup_insert_ne by done; apply H5].
  - intros c x b. rewrite Ec. destruct (decide (c = ch)) as [->|Hc]; [rewrite lookup_insert_eq; intros [= <-] _ []|]. rewrite lookup_insert_ne by done.
    intros Hx Hb Hax. destruct (H6 c x b Hx Hb Hax) as [R1 R2]. split; [done|]. eapply Forall_impl; [exact R2|]. intros n (m & E & Hle). exists m. split; [|done].
    unfold unsubscribe. destruct (subs (rw_hub s) !! wt_run w) as [t|] eqn:Es; [|done]. destruct (decide (t ∖ {[ch]} = ∅)) as [Ee|]; [|done]. cbn.
    rewrite lookup_delete_ne; [done|]. intros Er. assert (Hin : c ∈ subs_of (wt_run w) (rw_hub s)) by (apply H1; exists x; split; [done|by split]).
    unfold subs_of in Hin. rewrite Es in Hin. cbn in Hin. set_solver.
  - intros c x. destruct (decide (c = ch)) as [->|]; [|rewrite lookup_insert_ne by done; apply H7]. rewrite lookup_insert_eq. intros [= <-].
    subst w'. cbn. rewrite ticks_app, Ht, app_nil_r. by eapply H7.
Qed.

Lemma hub_ok_event ch e s s' : hub_ok s -> watch_step ch e s = Some s' -> hub_ok s'.
Proof.
  intros Hs. unfold watch_step. destruct (rw_watchers s !! ch) as [w|] eqn:Hw; [|done].
  assert (Hpoll : forall o, ticks (pollAndSend o (wt_run w) (rw_db s)).2 = []) by (intros []; cbn; [done|..]; destruct (runGetByID _ _); done).
  destruct (wt_phase w) eqn:Ep; [|  |done].
  - assert (Ha : watching w) by (unfold watching; by rewrite Ep). destruct e as [o gone| | |]; try done. specialize (Hpoll o).
    destruct (pollAndSend _ _ _) as [[t|err] msgs]; intros [= <-]; [|by apply hub_ok_finish]. destruct (_ || _); [by apply hub_ok_finish|by apply hub_ok_polled].
  - assert (Ha : watching w) by (unfold watching; by rewrite Ep). destruct e as [? ?| |sent|gone o]; [done| | |].
    + intros [= <-]. by apply hub_ok_finish.
    + destruct (chans (rw_hub s) !! ch) as [[|p rest]|] eqn:Hb; [done| |done]. cbv zeta. intros [= <-].
      destruct (ho_rising _ Hs _ _ _ Hw Hb Ha) as [R1 R2]. change (MkWorld (rw_db s) _ (rw_watchers s)) with (with_buffer ch rest s). destruct sent.
      * apply (hub_ok_goes_on s ch w _ (p :: rest)); cbn; try done; [lia| |]; rewrite ticks_app, <- app_assoc; done.
      * apply hub_ok_finish; [|done..]. destruct (rising_drop _ _ _ _ R1 R2) as [R1' R2'].
        replace (with_buffer ch rest s) with (put_watcher ch w (with_buffer ch rest s)) by (unfold put_watcher; cbn; by rewrite (insert_id (rw_watchers s))).
        apply (hub_ok_goes_on s ch w _ (p :: rest)); cbn; try done. lia.
    + destruct gone; [intros [= <-]; by apply hub_ok_finish|]. specialize (Hpoll o).
      destruct (pollAndSend _ _ _) as [[t|err] msgs]; intros [= <-]; [|by apply hub_ok_finish]. destruct t; [by apply hub_ok_finish|by apply hub_ok_polled].
Qed.

Lemma hub_ok_steps deletes s s' : hub_ok s -> rtc (run_step deletes) s s' -> hub_ok s'.
Proof.
  intros Hs Hr. induction Hr as [|s1 s2 s3 H12 _ IH]; [done|]. apply IH. destruct H12; eauto using hub_ok_db, hub_ok_candidate, hub_ok_committed, hub_ok_watch, hub_ok_event.
Qed.

Definition quiet_world (d : Content) : RunWorld := MkWorld d newRunProgressHub ∅.

Lemma quiet_hub d : hub_ok (quiet_world d).
Proof.
  assert (Hn : forall c, rw_watchers (quiet_world d) !! c = None) by (intros c; apply lookup_empty).
  split; cbn.
  - intros run c. split; [|intros (w & Hw & _); by rewrite lookup_empty in Hw]. unfold subs_of. cbn. rewrite lookup_empty. cbn. set_solver.
  - intros run ss H. by rewrite lookup_empty in H.
  - intros run n H. by rewrite lookup_empty in H.
  - intros ch b H. by rewrite lookup_empty in H.
  - intros ch w H. by rewrite lookup_empty in H.
  - intros ch w b H. by rewrite lookup_empty in H.
  - intros ch w H. by rewrite lookup_empty in H.
Qed.

(** ** Deleting a run *)

Lemma delete_run_spec id d d' :
  RunService_Delete id d = Ok d' <->
  id ∈ ids (runs d) /\ d' = set_items (update_where (of_run id) detach (items d)) (set_runs (delete_where (fun r => r_id r =? id) (runs d)) d).
Proof.
  unfold RunService_Delete, affected. destruct (filter (fun r => (r_id r =? id) = true) (runs d)) as [|x l] eqn:E; cbn.
  - split; [done|]. intros [(r & -> & Hr)%list_elem_of_fmap _]. exfalso. apply (not_elem_of_nil r). rewrite <- E. apply list_elem_of_filter. split; [apply Z.eqb_refl|done].
  - assert (Hx : x ∈ filter (fun r => (r_id r =? id) = true) (runs d)) by (rewrite E; left). apply list_elem_of_filter in Hx as [Hx%Z.eqb_eq Hin].
    split; [intros [= <-]|by intros [_ ->]]. split; [|done]. apply list_elem_of_fmap. by exists x.
Qed.

Lemma delete_run_ok id d d' : content_ok d -> RunService_Delete id d = Ok d' -> content_ok d'.
Proof.
  intros Hd [_ ->]%delete_run_spec. content_inv Hd; try (by apply table_ok_delete); try (by apply refers_delete).
  - by apply table_ok_update.
  - by apply distinct_update.
  - by apply distinct_update.
  - by apply distinct_update.
  - by apply refers_update.
  - unfold refers, update_where in *. apply Forall_fmap. rewrite Forall_forall in *. intros r Hr i. cbn. unfold of_run. case_bool_decide as Hc; [done|].
    intros Hi. specialize (ok_item_run r Hr i Hi). apply list_elem_of_fmap in ok_item_run as (x & -> & Hx). apply list_elem_of_fmap. exists x. split; [done|].
    apply elem_of_delete. split; [done|]. apply Z.eqb_neq. intros E. apply Hc. rewrite Hi. by f_equal.
  - eapply refers_target; [|eassumption]. intros i. by rewrite ids_update.
  - unfold update_where. apply Forall_fmap. eapply Forall_impl; [done|]. intros r Hr. cbn. by destruct (of_run id r).
  - rewrite Forall_forall in *. intros r [Hr _]%elem_of_delete. auto.
Qed.

(** Nothing the public plane reads has changed. *)
Lemma detach_shown r : scanItemRow (detach r) = scanItemRow r.
Proof. done. Qed.

Lemma fmap_shown (t : list ItemRow) id : scanItemRow <$> update_where (of_run id) detach t = scanItemRow <$> t.
Proof. unfold update_where. rewrite <- list_fmap_compose. apply list_fmap_ext. intros i r _. cbn. by destruct (of_run id r). Qed.

Lemma filter_detached (P : ItemRow -> bool) id t :
  (forall r, P (detach r) = P r) -> filter (fun r => P r = true) (update_where (of_run id) detach t) = update_where (of_run id) detach (filter (fun r => P r = true) t).
Proof.
  intros HP. unfold update_where. induction t as [|r t IH]; [done|]. cbn [fmap list_fmap]. rewrite !filter_cons.
  assert (E : P (if of_run id r then detach r else r) = P r) by (destruct (of_run id r); auto).
  destruct (decide (P (if of_run id r then detach r else r) = true)), (decide (P r = true)); try congruence. cbn. by f_equal.
Qed.

Lemma order_detached (key : ItemRow -> string) id t :
  (forall r, key (detach r) = key r) -> order_desc key (update_where (of_run id) detach t) = update_where (of_run id) detach (order_desc key t).
Proof.
  intros Hk. unfold update_where, order_desc. induction t as [|r t IH]; [done|]. cbn [fmap list_fmap foldr]. rewrite IH. clear IH.
  generalize (foldr (insert_desc key) [] t). intros l. induction l as [|x l IHl]; [done|]. cbn.
  assert (E : forall y, key (if of_run id y then detach y else y) = key y) by (intros y; destruct (of_run id y); auto).
  rewrite !E. destruct (str_leb _ _); [done|]. cbn. by f_equal.
Qed.

Lemma delete_run_published id d d' :
  RunService_Delete id d = Ok d' -> feeds d' = feeds d /\ (forall feed, listItems feed d' = listItems feed d) /\ (forall key, getItem key d' = getItem key d).
Proof.
  intros [_ ->]%delete_run_spec. split; [done|]. split.
  - intros feed. unfold listItems. cbn [items set_items set_runs]. rewrite filter_detached by done. rewrite order_detached by done.
    unfold limit. case_match; [apply fmap_shown|]. unfold update_where. rewrite firstn_map. apply fmap_shown.
  - intros key. unfold getItem. cbn [items feeds set_items set_runs]. induction (items d) as [|r t IH]; [done|]. cbn [update_where fmap list_fmap List.find].
    assert (E : has_key key (if of_run id r then detach r else r) = has_key key r) by (by destruct (of_run id r)). rewrite E.
    destruct (has_key key r); [by destruct (of_run id r)|exact IH].
Qed.

(** ** A run and its watchers *)

(** What a watcher's step leaves alone. *)
Lemma watch_step_cases ch e s s' :
  watch_step ch e s = Some s' ->
  exists w w' l, rw_watchers s !! ch = Some w /\ watching w /\ rw_db s' = rw_db s /\ rw_watchers s' = <[ch := w']> (rw_watchers s) /\
    wt_run w' = wt_run w /\ wt_sent w' = (wt_sent w ++ l)%list.
Proof.
  unfold watch_step, watching. destruct (rw_watchers s !! ch) as [w|] eqn:Hw; [|done].
  destruct (wt_phase w) eqn:Ep, e as [o gone| |sent|gone o]; try done.
  - destruct (pollAndSend _ _ _) as [[t|err] msgs]; [|intros [= <-]; (eexists w, _, msgs; split_and!; [done|by rewrite Ep|reflexivity..])]. destruct (_ || _); intros [= <-]; (eexists w, _, msgs; split_and!; [done|by rewrite Ep|reflexivity..]).
  - intros [= <-]. (eexists w, _, []; split_and!; [done|by rewrite Ep|reflexivity..]).
  - destruct (chans _ !! ch) as [[|p rest]|]; try done. cbv zeta. destruct sent; intros [= <-]; [(eexists w, _, [Tick p]; split_and!; [done|by rewrite Ep|reflexivity..])|(eexists w, _, []; split_and!; [done|by rewrite Ep|reflexivity..])].
  - destruct gone; [intros [= <-]; (eexists w, _, []; split_and!; [done|by rewrite Ep|reflexivity..])|]. destruct (pollAndSend _ _ _) as [[t|err] msgs]; [|intros [= <-]; (eexists w, _, msgs; split_and!; [done|by rewrite Ep|reflexivity..])].
    destruct t; intros [= <-]; (eexists w, _, msgs; split_and!; [done|by rewrite Ep|reflexivity..]).
Qed.

Lemma step_content_ok deletes s s' : content_ok (rw_db s) -> run_step deletes s s' -> content_ok (rw_db s').
Proof.
  intros Hd [d H|id d _ H|run ph n|run n|run|ch e s'' H]; cbn [rw_db]; [by eapply step_ok|by eapply delete_run_ok|done|done|by unfold Watch|].
  - apply watch_step_cases in H as (w & w' & l & _ & _ & E & _). by rewrite E.
Qed.

(** A closed run stays as it was closed, for as long as it is not deleted. *)
Lemma closed_stays deletes s s' id r :
  content_ok (rw_db s) -> ~ deletes id -> rtc (run_step deletes) s s' -> find_id id (runs (rw_db s)) = Some r -> r_status r <> Running ->
  find_id id (runs (rw_db s')) = Some r.
Proof.
  intros Hd Hn Hs. induction Hs as [|s1 s2 s3 H12 _ IH]; [done|]. intros Hf Hc. apply IH; [by eapply step_content_ok| |done].
  pose proof (step_content_ok _ _ _ Hd H12) as Hd2. apply find_id_elem in Hf as [Hr Hid].
  assert (Hin : r ∈ runs (rw_db s2)); [|apply find_id_Some; [apply Hd2|done]].
  destruct H12 as [d H|i d Hi H|run ph n|run n|run|ch e s'' H]; cbn [rw_db] in *; [| |done|done|by unfold Watch|].
  - destruct (closed_run_is_final _ _ r Hd (rtc_once _ _ H) Hr) as (r' & Hr' & _ & E). by rewrite <- (E Hc).
  - apply delete_run_spec in H as [_ ->]. apply elem_of_delete. split; [done|]. apply Z.eqb_neq. intros E. apply Hn. by rewrite <- Hid, <- E in *.
  - apply watch_step_cases in H as (w & w' & l & _ & _ & E & _). by rewrite E.
Qed.

(** A watcher keeps its run, and once it is done it is left alone. *)
Lemma watcher_kept deletes s s' ch w :
  hub_ok s -> rtc (run_step deletes) s s' -> rw_watchers s !! ch = Some w ->
  exists w', rw_watchers s' !! ch = Some w' /\ wt_run w' = wt_run w /\ (exists l, wt_sent w' = (wt_sent w ++ l)%list) /\ (~ watching w -> w' = w).
Proof.
  intros Hh Hs. revert w. induction Hs as [s|s1 s2 s3 H12 _ IH]; intros w Hw; [exists w; split_and!; [done..| |done]; exists []; by rewrite app_nil_r|].
  pose proof (hub_ok_steps _ _ _ Hh (rtc_once _ _ H12)) as Hh2. specialize (IH Hh2).
  assert (Hone : exists w2, rw_watchers s2 !! ch = Some w2 /\ wt_run w2 = wt_run w /\ (exists l, wt_sent w2 = (wt_sent w ++ l)%list) /\ (~ watching w -> w2 = w)).
  { assert (Hsame : rw_watchers s2 !! ch = Some w -> exists w2, rw_watchers s2 !! ch = Some w2 /\ wt_run w2 = wt_run w /\ (exists l, wt_sent w2 = (wt_sent w ++ l)%list) /\ (~ watching w -> w2 = w)).
    { intros H. exists w. split_and!; [done..| |done]. exists []. by rewrite app_nil_r. }
    destruct H12 as [d H|i d Hi H|run ph n|run n|run|c e s'' H]; cbn [rw_watchers] in *; [by apply Hsame..| |].
    - apply Hsame. unfold Watch. destruct (subscribe run (rw_hub s1)) as [c h] eqn:E. injection E as <- _. cbn. rewrite lookup_insert_ne; [done|].
      intros <-. destruct (ho_chan _ Hh _ _ Hw) as [b Hb]. apply (ho_bufs _ Hh) in Hb as [_ Hb]. lia.
    - apply watch_step_cases in H as (x & x' & l & Hx & Ha & _ & E & Er & El). destruct (decide (c = ch)) as [->|Hc]; [|apply Hsame; by rewrite E, lookup_insert_ne].
      rewrite Hw in Hx. injection Hx as <-. exists x'. rewrite E, lookup_insert_eq. split; [done|]. split; [done|]. split; [by exists l|by intros []]. }
  destruct Hone as (w2 & Hw2 & E2 & (l2 & El2) & D2). destruct (IH w2 Hw2) as (w3 & Hw3 & E3 & (l3 & El3) & D3).
  exists w3. split; [done|]. split; [congruence|]. split; [exists (l2 ++ l3)%list; by rewrite El3, El2, app_assoc|].
  intros Ha. specialize (D2 Ha) as ->. by apply D3.
Qed.

(** A poll that reads the database and whose answer is sent. *)
Definition gets_through (e : watch_event) : bool :=
  match e with E_First P_Sends _ | E_Ticker false P_Sends => true | _ => false end.

(** The watcher found its client gone. *)
Definition client_gone (e : watch_event) : Prop :=
  match e with
  | E_ContextDone => True
  | E_First o gone => o = P_Canceled \/ gone = true
  | E_Ticker gone _ => gone = true
  | E_Progress _ => False
  end.

Lemma poll_closed ch e s s' w r :
  rw_watchers s !! ch = Some w -> watch_step ch e s = Some s' -> gets_through e = true ->
  find_id (wt_run w) (runs (rw_db s)) = Some r -> r_status r <> Running ->
  rw_watchers s' !! ch = Some (MkWatcher (wt_run w) (W_Done None) (wt_sent w ++ [Snapshot (runToProto r)])).
Proof.
  intros Hw Hs Hg Hf Hc. unfold watch_step in Hs. rewrite Hw in Hs.
  assert (Ht : runIsTerminal (r_status r) = true) by (unfold runIsTerminal; by rewrite bool_decide_false).
  assert (Hp : pollAndSend P_Sends (wt_run w) (rw_db s) = (Ok true, [Snapshot (runToProto r)])) by (unfold pollAndSend, runGetByID; by rewrite Hf, Ht).
  destruct (wt_phase w), e as [o gone| |sent|gone o]; try done; [destruct o; try done|destruct gone, o; try done];
    rewrite Hp in Hs; injection Hs as <-; cbn; apply lookup_insert_eq.
Qed.

Lemma poll_enabled ch s w r :
  rw_watchers s !! ch = Some w -> watching w -> find_id (wt_run w) (runs (rw_db s)) = Some r ->
  exists e s', gets_through e = true /\ watch_step ch e s = Some s'.
Proof.
  intros Hw Ha Hf. unfold watch_step, watching in *. rewrite Hw.
  assert (Hp : pollAndSend P_Sends (wt_run w) (rw_db s) = (Ok (runIsTerminal (r_status r)), [Snapshot (runToProto r)])) by (unfold pollAndSend, runGetByID; by rewrite Hf).
  destruct (wt_phase w); [exists (E_First P_Sends false)|exists (E_Ticker false P_Sends)|done]; rewrite Hp; by eexists.
Qed.

Lemma ended_why ch e s s' w w' :
  rw_watchers s !! ch = Some w -> watch_step ch e s = Some s' -> rw_watchers s' !! ch = Some w' -> wt_phase w' = W_Done None ->
  client_gone e \/ exists r, find_id (wt_run w) (runs (rw_db s)) = Some r /\ r_status r <> Running /\ wt_sent w' = (wt_sent w ++ [Snapshot (runToProto r)])%list.
Proof.
  intros Hw Hs Hw' Hd. unfold watch_step in Hs. rewrite Hw in Hs.
  assert (Hpoll : forall o msgs, pollAndSend o (wt_run w) (rw_db s) = (Ok true, msgs) ->
    exists r, find_id (wt_run w) (runs (rw_db s)) = Some r /\ r_status r <> Running /\ msgs = [Snapshot (runToProto r)]).
  { intros o msgs. unfold pollAndSend, runGetByID. destruct o; [done|by destruct (find_id _ _)|]. destruct (find_id _ _) as [r|]; [|done]. intros [= Ht <-]. exists r. split; [done|].
    unfold runIsTerminal in Ht. apply negb_true_iff, bool_decide_eq_false in Ht. done. }
  assert (Hend : forall msgs err, s' = finish ch w msgs err s -> err = None /\ wt_sent w' = (wt_sent w ++ msgs)%list).
  { intros msgs err ->. cbn in Hw'. rewrite lookup_insert_eq in Hw'. injection Hw' as <-. cbn in Hd. by injection Hd as ->. }
  assert (Hgo : forall msgs, s' <> go_on ch w msgs s) by (intros msgs ->; cbn in Hw'; rewrite lookup_insert_eq in Hw'; by injection Hw' as <-).
  destruct (wt_phase w), e as [o gone| |sent|gone o]; try done.
  - destruct (pollAndSend o _ _) as [[t|err] msgs] eqn:Ep; injection Hs as <-; [|by destruct (Hend _ _ eq_refl)]. destruct t; cbn [orb] in *.
    + right. destruct (Hpoll _ _ Ep) as (r & H1 & H2 & ->). exists r. split; [done|]. split; [done|]. by apply Hend with None.
    + left. cbn. destruct gone; [by right|]. cbn in *. case_bool_decide; [by left|]. by destruct (Hgo msgs).
  - by left.
  - destruct (chans _ !! ch) as [[|p rest]|]; try done. exfalso. destruct sent; injection Hs as <-; cbn in Hw'; rewrite lookup_insert_eq in Hw'; by injection Hw' as <-.
  - destruct gone; [by left|]. destruct (pollAndSend o _ _) as [[t|err] msgs] eqn:Ep; injection Hs as <-; [|by destruct (Hend _ _ eq_refl)]. destruct t.
    + right. destruct (Hpoll _ _ Ep) as (r & H1 & H2 & ->). exists r. split; [done|]. split; [done|]. by apply Hend with None.
    + by destruct (Hgo msgs).
Qed.

(** ** The history *)

Definition newer_run (a b : RunRow) : bool := r_id b <? r_id a.
Definition run_token : RunRow -> string := fun r => runEncodeCursor (r_id r).
Definition ask_history (tok : string) (q : HistoryRequest) : HistoryRequest :=
  MkHistoryRequest (hq_FeedId q) (hq_Status q) (hq_StartedAfter q) (hq_StartedBefore q) (hq_PageSize q) tok.
Definition matching_runs (q : HistoryRequest) (d : Content) : list RunRow := filter (fun r => run_matches q r = true) (runs d).
Definition history_size (q : HistoryRequest) : nat := Z.to_nat (page_size (hq_PageSize q) runDefaultPageSize runMaxPageSize).
Definition fetch_history (q : HistoryRequest) (d : Content) (tok : string) : option (list ProtoRun * Z * string) :=
  match History (ask_history tok q) d with Ok r => Some (hr_Runs r, hr_TotalCount r, hr_NextPageToken r) | Err _ => None end.

(** The ids fit the cursor. *)
Definition run_ids_fit (d : Content) : Prop := Forall (fun r => r_id r < 2 ^ 63) (runs d).

Lemma runs_bounded d r : content_ok d -> run_ids_fit d -> r ∈ runs d -> 0 < r_id r < 2 ^ 63.
Proof.
  intros Hd Hf Hr. destruct (ok_runs _ Hd) as [_ Hp]. unfold run_ids_fit in Hf. rewrite Forall_forall in Hp, Hf. specialize (Hp r Hr). specialize (Hf r Hr).
  cbv [row_id row_run] in Hp. lia.
Qed.

Lemma show_id_nonempty n : 0 <= n < 2 ^ 63 -> show_int n <> "".
Proof. intros Hn E. pose proof (Atoi_show n Hn) as H. by rewrite E in H. Qed.

Lemma run_cursor_roundtrip n : 0 <= n < 2 ^ 63 -> is_empty (runEncodeCursor n) = false /\ runDecodeCursor (runEncodeCursor n) = Some n.
Proof.
  intros Hn. unfold runDecodeCursor, runEncodeCursor. split; [by apply url64_nonempty, show_id_nonempty|]. rewrite url64_roundtrip. cbn [mbind option_bind]. by rewrite Atoi_show.
Qed.

Lemma runs_sorted (P : RunRow -> Prop) `{forall r, Decision (P r)} d : content_ok d -> sorted newer_run (rev (filter P (runs d))).
Proof.
  intros Hd. destruct (ok_runs _ Hd) as [Hs _]. unfold ids in Hs. unfold sorted. induction (runs d) as [|r l IH]; [constructor|].
  rewrite fmap_cons in Hs. apply StronglySorted_inv in Hs as [Hs Hall]. rewrite filter_cons. destruct (decide (P r)); [|by apply IH].
  cbn [rev]. apply StronglySorted_app_2; [|by apply IH|by repeat constructor].
  intros x y Hx ->%list_elem_of_singleton. apply list_elem_of_In, in_rev, list_elem_of_In, list_elem_of_filter in Hx as [_ Hx]. unfold newer_run. apply Z.ltb_lt.
  rewrite Forall_forall in Hall. apply (Hall (r_id x)). exact (list_elem_of_fmap_2 row_id _ _ Hx).
Qed.

Lemma filter_rev {A} (P : A -> Prop) `{forall x, Decision (P x)} (l : list A) : filter P (rev l) = rev (filter P l).
Proof. induction l as [|x l IH]; [done|]. cbn [rev]. rewrite filter_app, IH, !filter_cons. destruct (decide (P x)); cbn; [done|]. by rewrite app_nil_r. Qed.

Lemma history_page q d cur :
  content_ok d -> run_ids_fit d -> (forall x, cur = Some x -> x ∈ runs d) ->
  let p := page (history_size q) (after newer_run cur (rev (matching_runs q d))) in
  fetch_history q d (token_for run_token cur) = Some (runToProto <$> p.1, runCountMatching q d, token_for run_token p.2).
Proof.
  intros Hd Hf Hcur. cbv zeta. unfold fetch_history, History. cbv zeta. cbn [hq_PageSize hq_PageToken ask_history]. fold (history_size q).
  set (cursor := if is_empty _ then _ else _).
  assert (Hc : cursor = Some (r_id <$> cur)).
  { subst cursor. destruct cur as [x|]; [|done]. cbn [token_for]. pose proof (runs_bounded d x Hd Hf (Hcur x eq_refl)).
    destruct (run_cursor_roundtrip (r_id x) ltac:(lia)) as [E1 E2]. unfold run_token. by rewrite E1, E2. }
  rewrite Hc. set (rest := after newer_run cur (rev (matching_runs q d))).
  assert (Hrest : rev (filter (fun r => run_matches (ask_history (token_for run_token cur) q) r && match r_id <$> cur with Some id => r_id r <? id | None => true end = true) (runs d)) = rest).
  { unfold rest, matching_runs. destruct cur as [x|]; cbn [after fmap option_fmap option_map].
    - rewrite filter_rev, list_filter_filter. f_equal. apply list_filter_iff. intros r. rewrite andb_true_iff. unfold newer_run. tauto.
    - f_equal. apply list_filter_iff. intros r. by rewrite andb_true_r. }
  rewrite Hrest, (fetch_page (history_size q) rest) by (by apply page_size_pos). destruct (page (history_size q) rest) as [out last]. cbn. by destruct last.
Qed.

Lemma history_pages_all q d :
  content_ok d -> run_ids_fit d ->
  exists ps, follow (fetch_history q d) (S (length (runs d))) "" = Some ((fun p => (runToProto <$> p, runCountMatching q d)) <$> ps) /\
    mjoin ps = rev (matching_runs q d) /\ Forall (fun p => (length p <= history_size q)%nat) ps.
Proof.
  intros Hd Hf. assert (Hin : forall x, x ∈ rev (matching_runs q d) -> x ∈ runs d).
  { intros x Hx. apply list_elem_of_In, in_rev, list_elem_of_In, list_elem_of_filter in Hx as [_ Hx]. done. }
  apply (follow_all newer_run ltac:(intros a b c; unfold newer_run; rewrite !Z.ltb_lt; lia) ltac:(intros a; apply Z.ltb_irrefl) run_token).
  - by apply page_size_pos.
  - rewrite length_rev. apply Nat.lt_succ_r, length_filter.
  - by apply runs_sorted.
  - intros x Hx%Hin. pose proof (runs_bounded d x Hd Hf Hx). by apply run_cursor_roundtrip; lia.
  - intros cur Hcur. rewrite history_page by auto. done.
Qed.

(** ** Theorems *)

(** C20: whatever is reported, watched, written and dropped, in whatever order: the
    counts of committed items that reach a watcher never go down, however the
    generator reports them; the hub knows exactly the watchers that are still
    there, so it keeps nothing of a run nobody looks at; and no channel holds more
    than eight ticks. *)
Theorem progress_never_goes_back deletes d s :
  rtc (run_step deletes) (quiet_world d) s ->
  (forall ch w, rw_watchers s !! ch = Some w -> StronglySorted Z.le (committed (ticks (wt_sent w)))) /\
  (forall run ch, ch ∈ subs_of run (rw_hub s) <-> exists w, rw_watchers s !! ch = Some w /\ wt_run w = run /\ watching w) /\
  (forall run, (forall ch w, rw_watchers s !! ch = Some w -> wt_run w = run -> ~ watching w) ->
     subs (rw_hub s) !! run = None /\ lastCommitted (rw_hub s) !! run = None) /\
  (forall ch buf, chans (rw_hub s) !! ch = Some buf -> (length buf <= 8)%nat).
Proof.
  intros Hr. destruct (hub_ok_steps _ _ _ (quiet_hub d) Hr) as [H1 H2 H3 H4 _ _ H7]. split; [exact H7|]. split; [exact H1|]. split; [|intros ch buf Hb; by destruct (H4 ch buf Hb)].
  intros run Hno. assert (Hs : subs (rw_hub s) !! run = None).
  { destruct (subs (rw_hub s) !! run) as [ss|] eqn:E; [|done]. exfalso. apply (H2 run ss E), set_eq. intros ch. split; [|set_solver]. intros Hch.
    assert (Hin : ch ∈ subs_of run (rw_hub s)) by (unfold subs_of; by rewrite E). apply H1 in Hin as (w & Hw & Hwr & Ha). by destruct (Hno ch w Hw Hwr). }
  split; [done|]. destruct (lastCommitted (rw_hub s) !! run) as [n|] eqn:E; [|done]. apply H3 in E as [ss E]. congruence.
Qed.

(** A watcher of the first run, and the counts 2, 1 and 3 reported to it. *)
Definition demo_report (n : Z) (s : RunWorld) : RunWorld := MkWorld (rw_db s) (ReportCommitted 1 n (rw_hub s)) (rw_watchers s).
Definition demo_event (e : watch_event) (s : RunWorld) : RunWorld := default s (watch_step 0 e s).
Definition world1 : RunWorld := demo_event (E_First P_Sends false) (Watch 1 (quiet_world d_run)).
Definition world2 : RunWorld := demo_report 3 (demo_report 1 (demo_report 2 world1)).
Definition world3 : RunWorld := demo_event (E_Progress true) world2.
Definition world4 : RunWorld := demo_event (E_Progress true) world3.

Lemma demo_step deletes e s s' : demo_event e s = s' -> is_Some (watch_step 0 e s) -> run_step deletes s s'.
Proof. intros <- [s2 E]. apply (rs_event _ _ 0 e). unfold demo_event. by rewrite E. Qed.

Lemma demo_watched deletes : rtc (run_step deletes) (quiet_world d_run) world4.
Proof.
  eapply rtc_l; [apply (rs_watch _ _ 1)|].
  eapply rtc_l; [apply (demo_step _ (E_First P_Sends false) _ world1); [done|vm_compute; eauto]|].
  eapply rtc_l; [apply (rs_committed _ _ 1 2)|]. eapply rtc_l; [apply (rs_committed _ _ 1 1)|]. eapply rtc_l; [apply (rs_committed _ _ 1 3)|].
  eapply rtc_l; [apply (demo_step _ (E_Progress true) world2 world3); [done|vm_compute; eauto]|].
  apply rtc_once, (demo_step _ (E_Progress true)); [done|vm_compute; eauto].
Qed.

Lemma progress_never_goes_back_witness :
  exists w, rw_watchers world4 !! 0%nat = Some w /\ committed (ticks (wt_sent w)) = [2; 3] /\ StronglySorted Z.le (committed (ticks (wt_sent w))).
Proof.
  destruct (rw_watchers world4 !! 0%nat) as [w|] eqn:Ew; [|vm_compute in Ew; discriminate Ew].
  exists w. split; [reflexivity|]. split; [vm_compute in Ew; injection Ew as <-; reflexivity|].
  exact (proj1 (progress_never_goes_back (fun _ => True) d_run world4 (demo_watched _)) 0%nat w Ew).
Defined.



(** deleting a run cannot be seen from outside: the schema is kept, every feed is
    found and lists the items it listed, and every permalink shows what it showed;
    the items of the run stay, without their run; and the history loses that run
    and no other. *)
Theorem run_deletion_is_invisible id d d' :
  content_ok d -> RunService_Delete id d = Ok d' ->
  content_ok d' /\ (forall feed, listItems feed d' = listItems feed d) /\ (forall key, getItem key d' = getItem key d) /\
  (forall slug, getFeedBySlug slug d' = getFeedBySlug slug d) /\
  RunService_Get id d' = Err Run_NotFound /\ (forall i, i <> id -> RunService_Get i d' = RunService_Get i d) /\
  Forall (fun r => i_run_id r <> Some id) (items d').
Proof.
  intros Hd H. pose proof (delete_run_ok _ _ _ Hd H) as Hd'. destruct (delete_run_published _ _ _ H) as (Hf & Hl & Hg).
  split; [done|]. split; [done|]. split; [done|]. split; [intros slug; unfold getFeedBySlug; by rewrite Hf|].
  apply delete_run_spec in H as [_ ->]. unfold RunService_Get, runGetByID. cbn [runs set_items set_runs]. split; [|split].
  - destruct (find_id id _) as [r|] eqn:E; [|done]. apply find_id_elem in E as [[_ Hr%Z.eqb_neq]%elem_of_delete Hi]. done.
  - intros i Hi. assert (E : find_id i (delete_where (fun r => r_id r =? id) (runs d)) = find_id i (runs d)); [|by rewrite E].
    destruct (find_id i (runs d)) as [r|] eqn:E.
    + apply find_id_elem in E as [Hr Hid]. apply find_id_Some; [by apply table_ok_delete, Hd|]. split; [|done]. apply elem_of_delete. split; [done|]. apply Z.eqb_neq. by rewrite <- Hid in Hi.
    + apply find_id_None. apply find_id_None in E. intros (r & -> & [Hr _]%elem_of_delete)%list_elem_of_fmap. apply E. apply list_elem_of_fmap. by exists r.
  - cbn. unfold update_where. apply Forall_fmap, Forall_forall. intros r _. cbn. unfold of_run. by case_bool_decide.
Qed.

Lemma run_deletion_is_invisible_witness :
  exists d', RunService_Delete 1 d_done = Ok d' /\ content_ok d' /\ length (listItems 1 d') = 1%nat.
Proof.
  destruct (RunService_Delete 1 d_done) as [d'|] eqn:E; [|vm_compute in E; discriminate E]. exists d'. split; [reflexivity|].
  destruct (run_deletion_is_invisible 1 d_done d') as (H1 & H2 & _).
  - apply reachable_ok, d_done_reachable.
  - exact E.
  - split; [exact H1|]. rewrite H2. vm_compute. reflexivity.
Defined.

(** Following the page tokens of the history shows every run that matches exactly
    once, newest first; no page is longer than asked, and each counts all of them. *)
Theorem history_pages_complete q d :
  content_ok d -> run_ids_fit d ->
  exists ps, follow (fetch_history q d) (S (length (runs d))) "" = Some ((fun p => (runToProto <$> p, Z.of_nat (length (matching_runs q d)))) <$> ps) /\
    mjoin ps = rev (matching_runs q d) /\ Forall (fun p => (length p <= history_size q)%nat) ps.
Proof. exact (history_pages_all q d). Qed.

(** ** Behaviour to know of *)

(** The tokens of a run count against the day until the run is deleted: deleting the
    history makes room for more. *)
Example deletion_forgets_the_spend :
  let d' := match RunService_Delete 1 d_done with Ok d' => d' | Err _ => d_done end in
  (SpendSince (fun _ => f64_zero) 0 (t0 - hour) d_done).1 = (120, 30) /\ (SpendSince (fun _ => f64_zero) 0 (t0 - hour) d').1 = (0, 0).
Proof. vm_compute. done. Qed.

(** A run deleted while it runs gives its id back: the run of another feed takes it,
    and the first generator's commit closes that run and files its items there. *)
Definition other_feed : Feed := MkFeed 0 "news" "News" "" "en" "generative" "" "" "" 15 true "UTC" zero_time zero_time 0.
Definition reused : Content :=
  let d1 := match RunService_Delete 1 d_run with Ok d => d | Err _ => d_run end in
  let d2 := (StoreHistory.get (0, d1) (CreateFeed t0 other_feed d1)).2 in
  (StoreHistory.get (0, d2) (StartRun t0 t0 2 "cron" "host" d2)).2.
Example deleted_run_is_mistaken :
  (fun r => (r_feed_id r, r_status r)) <$> find_id 1 (runs reused) = Some (2, Running) /\
  let d' := StoreHistory.get reused (CommitRun true (t0 + 10 * second) 1 [demo_item "k1" "h1" (t0 + 10 * second)] demo_summary [] reused) in
  (fun r => (r_feed_id r, r_status r)) <$> find_id 1 (runs d') = Some (2, Success) /\ (fun r => (i_feed_id r, i_run_id r)) <$> items d' = [(1, Some 1)].
Proof. vm_compute. done. Qed.
