(* ===== verification/Settings.v ===== *)
(** * Settings

    The settings of internal/rpc/system.go, models.go and provider_endpoint.go, and
    the two readers of cmd/animefeedflux/wire.go: the sections and how they are
    read with their defaults, [UpdateSettings] with its checks and the stored API
    keys, the kill switch, where a provider call goes and with which key, and the
    cached list of models.

    A section is a row of the table [settings] and holds the JSON of a message; the
    rows here hold the message, or nothing that can be read.  A stored key is the
    ciphertext under [AFF_SECRET_KEY]. *)

From S2P Require Import Prelude GoTime GoStrings Utf8 Regexp GoURL Schema Budget Pipeline FeedSpec Wire Password Access AuthService.
From Stdlib Require Import String Ascii.
From Stdlib Require Import Floats.SpecFloat.
Local Open Scope string_scope.
Local Open Scope Z_scope.
Local Abbreviation length := List.length.

(** ** The messages *)

Inductive sys_code := Sys_InvalidArgument | Sys_FailedPrecondition | Sys_PermissionDenied | Sys_Internal.

(** [pp_ApiKey] and [pp_ClearStoredKey] are only ever sent to the server,
    [pp_KeyPresent] and [pp_HasStoredKey] only by it. *)
Record ProviderProfile := MkProfile {
  pp_Name : string; pp_BaseUrl : string; pp_ApiKeyEnv : string; pp_KeyPresent : bool; pp_ApiKey : string; pp_HasStoredKey : bool;
  pp_ClearStoredKey : bool }.

Record SettingsProvider := MkProvider {
  sp_ActiveProvider : string; sp_DefaultModel : string; sp_EmbeddingModel : string; sp_ApiKeyPresent : bool; sp_PriceTable : list PriceEntry;
  sp_Effort : string; sp_ActiveProfile : string; sp_Profiles : list ProviderProfile; sp_DefaultApiKey : string; sp_DefaultKeyStored : bool;
  sp_ClearDefaultKey : bool }.

Record SettingsGeneration := MkGeneration {
  sg_Enabled : bool; sg_GlobalDailyTokenCeiling : Z; sg_GlobalDailySpendCeilingUsd : float64; sg_DefaultDailyTokenBudget : Z;
  sg_DefaultDailyRunBudget : Z; sg_DefaultFeedWindow : Z; sg_StalenessThresholdMinutes : Z }.

Record SettingsPublishing := MkPublishing {
  sb_PublicBaseUrl : string; sb_DefaultAuthor : string; sb_DefaultContact : string; sb_DefaultCopyright : string; sb_DefaultTtlMinutes : Z;
  sb_DefaultCacheControl : string; sb_DefaultOgImage : string }.

(** What is read: all three sections. *)
Record Settings := MkSettings { se_Provider : SettingsProvider; se_Generation : SettingsGeneration; se_Publishing : SettingsPublishing }.
(** What is sent: the sections to replace. *)
Record SettingsPatch := MkPatch { up_Provider : option SettingsProvider; up_Generation : option SettingsGeneration; up_Publishing : option SettingsPublishing }.

Definition zero_provider : SettingsProvider := MkProvider "" "" "" false [] "" "" [] "" false false.
Definition zero_generation : SettingsGeneration := MkGeneration false 0 f64_zero 0 0 0 0.
Definition zero_publishing : SettingsPublishing := MkPublishing "" "" "" "" 0 "" "".

(** ** The rows *)

Inductive stored (A : Type) := Readable (a : A) | Unreadable.
Arguments Readable {A} a.
Arguments Unreadable {A}.

Record SettingsRows := MkRows {
  row_provider : option (stored SettingsProvider); row_generation : option (stored SettingsGeneration);
  row_publishing : option (stored SettingsPublishing); row_keys : option (stored (gmap string string)) }.

Definition no_rows : SettingsRows := MkRows None None None None.
Definition set_provider (p : SettingsProvider) (r : SettingsRows) : SettingsRows := MkRows (Some (Readable p)) (row_generation r) (row_publishing r) (row_keys r).
Definition set_generation (g : SettingsGeneration) (r : SettingsRows) : SettingsRows := MkRows (row_provider r) (Some (Readable g)) (row_publishing r) (row_keys r).
Definition set_publishing (b : SettingsPublishing) (r : SettingsRows) : SettingsRows := MkRows (row_provider r) (row_generation r) (Some (Readable b)) (row_keys r).
Definition set_keys (k : gmap string string) (r : SettingsRows) : SettingsRows := MkRows (row_provider r) (row_generation r) (row_publishing r) (Some (Readable k)).

Definition sysReadSetting {A} (row : option (stored A)) : result sys_code (option A) :=
  match row with None => Ok None | Some (Readable a) => Ok (Some a) | Some Unreadable => Err Sys_Internal end.

(** [json.Marshal] refuses a number that is not finite. *)
Definition finite (x : float64) : bool := match x with S754_nan | S754_infinity _ => false | _ => true end.
Definition provider_encodes (p : SettingsProvider) : bool := forallb (fun e => finite (UsdPer1KTokensIn e) && finite (UsdPer1KTokensOut e)) (sp_PriceTable p).
Definition generation_encodes (g : SettingsGeneration) : bool := finite (sg_GlobalDailySpendCeilingUsd g).

(** [strings.TrimRight] of one byte. *)
Fixpoint TrimRight (c : ascii) (s : string) : string :=
  match s with
  | EmptyString => ""
  | String x r => let t := TrimRight c r in if is_empty t && Ascii.eqb x c then "" else String x t
  end.

(** ** Defaults *)

Definition sysProviderAPIKeyEnv : string := "SCHEMAFLUX_API_KEY".
Definition sysPublicBaseURLEnv : string := "AFF_PUBLIC_BASE_URL".
Definition defaultProviderEffort : string := "quick".
Definition DefaultProviderModel : string := "gpt-55.6-luna".
Definition DefaultProviderEmbeddingModel : string := "text-embedding-3-small".
Definition validProviderEfforts : list string := ["smart"; "fast"; "quick"].
Definition validProviderBackends : list string := ["openai"; "anthropic"; "openrouter"; "cerebras"; "deepseek"; "qwen"; "zai"].
Definition DefaultGlobalDailyTokenCeiling : Z := 2000000.
Definition DefaultGlobalDailySpendCeilingUSD : float64 := f64_of_int 5.
Definition DefaultFeedDailyTokenBudget : Z := 100000.
Definition DefaultFeedDailyRunBudget : Z := 24.
Definition DefaultFeedWindowItems : Z := 50.
Definition sysPublishingTTLMax : Z := 7 * 24 * 60.

Definition or_default (dflt s : string) : string := if is_empty s then dflt else s.
Definition member (x : string) (l : list string) : bool := bool_decide (x ∈ l).

(** ** Which variables may hold a key *)

(** [^[A-Z][A-Z0-9]*(_[A-Z0-9]+)*_(KEY|TOKEN)$]: parts between underscores. *)
Definition upper_or_digit (c : ascii) : bool := in_range 65 90 c || in_range 48 57 c.
Definition word_part (s : string) : bool := negb (is_empty s) && all_bytes upper_or_digit s.
Definition apiKeyEnvPattern (s : string) : bool :=
  match Split s "_" with
  | first :: (_ :: _) as ps =>
      match first with String c _ => in_range 65 90 c | EmptyString => false end
      && forallb word_part ps
      && member (List.last ps "") ["KEY"; "TOKEN"]
  | _ => false
  end.

Definition allowedAPIKeyEnv (name : string) : bool :=
  if is_empty name then false else if HasPrefix name "AFF_" then false else apiKeyEnvPattern name.

Section settings.
Context (cfg : config) (getenv : string -> string) (ToLower : string -> string) (parseIPLiteral : string -> option string) (strictColons : string -> bool).
(** [AFF_SECRET_KEY] as wired, empty when it is not; what the environment says the
    kill switch starts as. *)
Context (secretKey : string) (defaultGenerationEnabled : bool).

(** ** Reading the sections *)

Definition apiKeyPresent : bool := negb (is_empty (getenv sysProviderAPIKeyEnv)).

Definition sysLoadProviderKeys (r : SettingsRows) : result sys_code (gmap string string) :=
  let? k := sysReadSetting (row_keys r) in Ok (default ∅ k).

Definition show_profile (keys : gmap string string) (p : ProviderProfile) : ProviderProfile :=
  let has := bool_decide (is_Some (keys !! pp_Name p)) in
  MkProfile (pp_Name p) (pp_BaseUrl p) (pp_ApiKeyEnv p) (has || (negb (is_empty (pp_ApiKeyEnv p)) && negb (is_empty (getenv (pp_ApiKeyEnv p))))) "" has false.

Definition sysLoadProvider (r : SettingsRows) : result sys_code SettingsProvider :=
  let? row := sysReadSetting (row_provider r) in
  let p := default zero_provider row in
  let? keys := sysLoadProviderKeys r in
  let defaultStored := bool_decide (is_Some (keys !! "")) in
  Ok (MkProvider (sp_ActiveProvider p) (or_default DefaultProviderModel (sp_DefaultModel p)) (or_default DefaultProviderEmbeddingModel (sp_EmbeddingModel p))
        (defaultStored || apiKeyPresent) (sp_PriceTable p) (or_default defaultProviderEffort (sp_Effort p)) (sp_ActiveProfile p)
        (show_profile keys <$> sp_Profiles p) "" defaultStored false).

Definition sysLoadGeneration (r : SettingsRows) : result sys_code SettingsGeneration :=
  let? row := sysReadSetting (row_generation r) in
  Ok (match row with
      | None => MkGeneration defaultGenerationEnabled DefaultGlobalDailyTokenCeiling DefaultGlobalDailySpendCeilingUSD
                  DefaultFeedDailyTokenBudget DefaultFeedDailyRunBudget DefaultFeedWindowItems 0
      | Some g => g
      end).

Definition with_base (url : string) (b : SettingsPublishing) : SettingsPublishing :=
  MkPublishing url (sb_DefaultAuthor b) (sb_DefaultContact b) (sb_DefaultCopyright b) (sb_DefaultTtlMinutes b) (sb_DefaultCacheControl b) (sb_DefaultOgImage b).

Definition sysLoadPublishing (r : SettingsRows) : result sys_code SettingsPublishing :=
  let? row := sysReadSetting (row_publishing r) in
  let b := default zero_publishing row in
  Ok (with_base (or_default (getenv sysPublicBaseURLEnv) (sb_PublicBaseUrl b)) b).

Definition sysLoadSettings (r : SettingsRows) : result sys_code Settings :=
  let? p := sysLoadProvider r in
  let? g := sysLoadGeneration r in
  let? b := sysLoadPublishing r in
  Ok (MkSettings p g b).

Definition GetSettings (r : SettingsRows) : result sys_code Settings := sysLoadSettings r.

(** ** The readers of wire.go *)

Definition loadGenerationSettings (defaultEnabled : bool) (r : SettingsRows) : option GenSettings :=
  match row_generation r with
  | None => Some (MkGenSettings defaultEnabled DefaultGlobalDailyTokenCeiling DefaultGlobalDailySpendCeilingUSD)
  | Some (Readable g) => Some (MkGenSettings (sg_Enabled g) (sg_GlobalDailyTokenCeiling g) (sg_GlobalDailySpendCeilingUsd g))
  | Some Unreadable => None
  end.

Definition loadProviderDefaults (r : SettingsRows) : providerDefaults :=
  match row_provider r with
  | Some (Readable p) => MkDefaults (or_default DefaultProviderModel (TrimSpace (sp_DefaultModel p))) (or_default defaultProviderEffort (TrimSpace (sp_Effort p)))
  | _ => MkDefaults DefaultProviderModel defaultProviderEffort
  end.

(** ** Checks *)

(** An absolute URL of one of the two schemes. *)
Definition web_url (raw : string) : bool :=
  match Parse parseIPLiteral strictColons raw with
  | None => false
  | Some u => negb (is_empty (Scheme u)) && negb (is_empty (Host u)) && (String.eqb (Scheme u) "http" || String.eqb (Scheme u) "https")
  end.

Definition sysValidateBaseURL (raw : string) : bool := negb (is_empty raw) && web_url raw.

Definition sysValidatePublishing (b : SettingsPublishing) : bool :=
  sysValidateBaseURL (sb_PublicBaseUrl b)
  && (0 <=? sb_DefaultTtlMinutes b) && (sb_DefaultTtlMinutes b <=? sysPublishingTTLMax)
  && (let raw := TrimSpace (sb_DefaultOgImage b) in is_empty raw || web_url raw).

Fixpoint validate_profiles (ps : list ProviderProfile) (seen : gset string) : option (list ProviderProfile * gset string) :=
  match ps with
  | [] => Some ([], seen)
  | p :: rest =>
      let name := TrimSpace (pp_Name p) in
      let base := TrimSpace (pp_BaseUrl p) in
      if is_empty name || bool_decide (name ∈ seen) then None
      else if negb (is_empty base) && negb (web_url base) then None
      else '(out, seen) ← validate_profiles rest ({[name]} ∪ seen);
           Some (MkProfile name base (TrimSpace (pp_ApiKeyEnv p)) false "" false false :: out, seen)
  end.

Definition sysValidateProfiles (ps : list ProviderProfile) (active : string) : option (list ProviderProfile) :=
  '(out, seen) ← validate_profiles ps ∅;
  if negb (is_empty active) && negb (bool_decide (active ∈ seen)) then None else Some out.

(** ** Stored keys *)

(** What the write-only fields of a slot ask for; [n] counts the nonces drawn. *)
Definition apply_key (nonces : nat -> string) (name newKey : string) (clear : bool) (st : nat * gmap string string * bool)
    : result sys_code (nat * gmap string string * bool) :=
  let '(n, keys, changed) := st in
  if negb (is_empty (TrimSpace newKey)) then
    if is_empty secretKey then Err Sys_FailedPrecondition
    else Ok (S n, <[name := EncryptSecret cfg (TrimSpace newKey) secretKey (nonces n)]> keys, true)
  else if clear then Ok (n, delete name keys, changed || bool_decide (is_Some (keys !! name)))
  else Ok st.

Fixpoint apply_keys (nonces : nat -> string) (ps : list ProviderProfile) (st : nat * gmap string string * bool)
    : result sys_code (nat * gmap string string * bool) :=
  match ps with
  | [] => Ok st
  | p :: rest =>
      let name := TrimSpace (pp_Name p) in
      if is_empty name then apply_keys nonces rest st
      else let? st := apply_key nonces name (pp_ApiKey p) (pp_ClearStoredKey p) st in apply_keys nonces rest st
  end.

(** The keys of the profiles there are, and the one of the built-in provider. *)
Definition keep_key (names : list string) (name : string) : bool := is_empty name || member name names.
Definition sweep_keys (names : list string) (keys : gmap string string) : gmap string string :=
  filter (fun p : string * string => keep_key names p.1 = true) keys.

Definition storedProviderKey (profile : string) (r : SettingsRows) : option string :=
  if is_empty secretKey then None
  else match sysLoadProviderKeys r with
       | Err _ => None
       | Ok keys => blob ← keys !! profile; DecryptSecret cfg blob secretKey
       end.

(** ** Replacing sections *)

Definition stored_provider (backend effort : string) (profiles : list ProviderProfile) (p : SettingsProvider) : SettingsProvider :=
  MkProvider backend (sp_DefaultModel p) (sp_EmbeddingModel p) false (sp_PriceTable p) effort (sp_ActiveProfile p) profiles "" false false.

Definition update_provider (nonces : nat -> string) (p : SettingsProvider) (r : SettingsRows) : result sys_code SettingsRows :=
  let effort := or_default defaultProviderEffort (sp_Effort p) in
  if negb (member effort validProviderEfforts) then Err Sys_InvalidArgument else
  let backend := ToLower (TrimSpace (sp_ActiveProvider p)) in
  if negb (is_empty backend) && negb (member backend validProviderBackends) then Err Sys_InvalidArgument else
  match sysValidateProfiles (sp_Profiles p) (sp_ActiveProfile p) with
  | None => Err Sys_InvalidArgument
  | Some profiles =>
      let? keys := sysLoadProviderKeys r in
      let? st := apply_keys nonces (sp_Profiles p) (0%nat, keys, false) in
      let? (_, keys, changed) := apply_key nonces "" (sp_DefaultApiKey p) (sp_ClearDefaultKey p) st in
      let kept := sweep_keys (pp_Name <$> profiles) keys in
      let r := if changed || negb (bool_decide (kept = keys)) then set_keys kept r else r in
      if negb (provider_encodes p) then Err Sys_Internal else Ok (set_provider (stored_provider backend effort profiles p) r)
  end.

Definition update_generation (g : SettingsGeneration) (r : SettingsRows) : result sys_code SettingsRows :=
  if negb (generation_encodes g) then Err Sys_Internal else Ok (set_generation g r).

Definition canonical_base (b : SettingsPublishing) : SettingsPublishing := with_base (TrimRight "/" (TrimSpace (sb_PublicBaseUrl b))) b.

Definition update_section {A} (f : A -> SettingsRows -> result sys_code SettingsRows) (a : option A) (r : SettingsRows) : result sys_code SettingsRows :=
  match a with Some a => f a r | None => Ok r end.

(** One transaction: all sections or none. *)
Definition update_rows (nonces : nat -> string) (in_ : SettingsPatch) (r : SettingsRows) : result sys_code SettingsRows :=
  if match up_Publishing in_ with Some b => negb (sysValidatePublishing b) | None => false end then Err Sys_InvalidArgument else
  let? r := update_section (update_provider nonces) (up_Provider in_) r in
  let? r := update_section update_generation (up_Generation in_) r in
  update_section (fun b r => Ok (set_publishing (canonical_base b) r)) (up_Publishing in_) r.

Record ProviderModel := MkModel { pm_Id : string; pm_OwnedBy : string; pm_Chat : bool; pm_Embedding : bool }.

(** The rows, the price table runs are charged by, what the publish plane is told,
    and the last list of models with its time. *)
Record SystemState := MkSystem {
  sys_rows : SettingsRows; sys_prices : PriceTable; sys_published : option SettingsPublishing; sys_models : option (list ProviderModel * Z) }.

Definition UpdateSettings (nonces : nat -> string) (in_ : option SettingsPatch) (s : SystemState) : result sys_code Settings * SystemState :=
  match in_ with
  | None => (Err Sys_InvalidArgument, s)
  | Some in_ =>
      match update_rows nonces in_ (sys_rows s) with
      | Err e => (Err e, s)
      | Ok r =>
          let s := MkSystem r (sys_prices s) (sys_published s) (sys_models s) in
          match sysLoadSettings r with
          | Err e => (Err e, s)
          | Ok st => (Ok st, MkSystem r (applyPriceTable (sp_PriceTable (se_Provider st)) (sys_prices s)) (Some (se_Publishing st)) (sys_models s))
          end
      end
  end.

(** ** The kill switch *)

Definition with_enabled (b : bool) (g : SettingsGeneration) : SettingsGeneration :=
  MkGeneration b (sg_GlobalDailyTokenCeiling g) (sg_GlobalDailySpendCeilingUsd g) (sg_DefaultDailyTokenBudget g) (sg_DefaultDailyRunBudget g)
    (sg_DefaultFeedWindow g) (sg_StalenessThresholdMinutes g).

Definition sysLoadGenerationTx (r : SettingsRows) : result sys_code SettingsGeneration :=
  let? row := sysReadSetting (row_generation r) in Ok (default (with_enabled defaultGenerationEnabled zero_generation) row).

Definition SetGenerationEnabled (enabled : bool) (s : SystemState) : result sys_code bool * SystemState :=
  match sysLoadGenerationTx (sys_rows s) with
  | Err e => (Err e, s)
  | Ok g =>
      match update_generation (with_enabled enabled g) (sys_rows s) with
      | Err e => (Err e, s)
      | Ok r => (Ok enabled, MkSystem r (sys_prices s) (sys_published s) (sys_models s))
      end
  end.

(** ** Where a provider call goes *)

Record ProviderEndpoint := MkEndpoint { en_BaseURL : string; en_APIKey : string; en_Profile : string; en_Backend : string }.

Definition ResolveProviderEndpoint (p : SettingsProvider) : ProviderEndpoint :=
  let backend := ToLower (TrimSpace (sp_ActiveProvider p)) in
  let active := TrimSpace (sp_ActiveProfile p) in
  match (if is_empty active then None else List.find (fun q => String.eqb (pp_Name q) active) (sp_Profiles p)) with
  | Some prof =>
      let keyEnv := TrimSpace (pp_ApiKeyEnv prof) in
      MkEndpoint (TrimRight "/" (TrimSpace (pp_BaseUrl prof))) (if allowedAPIKeyEnv keyEnv then getenv keyEnv else "") (pp_Name prof) backend
  | None => MkEndpoint "" (getenv sysProviderAPIKeyEnv) "" backend
  end.

Definition applyStoredProviderKey (r : SettingsRows) (e : ProviderEndpoint) : ProviderEndpoint :=
  match storedProviderKey (en_Profile e) r with
  | Some key => MkEndpoint (en_BaseURL e) key (en_Profile e) (en_Backend e)
  | None => e
  end.

(** The endpoint, and whether the settings could not be read. *)
Definition Resolver_Resolve (r : SettingsRows) : ProviderEndpoint * bool :=
  match sysLoadProvider r with
  | Err _ => (MkEndpoint "" (getenv sysProviderAPIKeyEnv) "" "", true)
  | Ok p => (applyStoredProviderKey r (ResolveProviderEndpoint p), false)
  end.

(** ** The models on offer *)

Definition modelCacheTTL : Z := 10 * minute.

Inductive ListModelsResponse := Models (l : list ProviderModel) | NoKey | Unreachable.

(** [lister] asks the provider at an endpoint; [now] is when the cache is looked at,
    [stored_at] when an answer is kept. *)
Definition ListModels (lister : ProviderEndpoint -> option (list ProviderModel)) (now stored_at : Z) (s : SystemState) : ListModelsResponse * SystemState :=
  let endpoint := (Resolver_Resolve (sys_rows s)).1 in
  if is_empty (en_APIKey endpoint) then (NoKey, s)
  else match sys_models s with
       | Some (l, at_) =>
           if modelCacheTTL <? now - at_ then
             match lister endpoint with
             | Some l' => (Models l', MkSystem (sys_rows s) (sys_prices s) (sys_published s) (Some (l', stored_at)))
             | None => (Models l, s)
             end
           else (Models l, s)
       | None =>
           match lister endpoint with
           | Some l' => (Models l', MkSystem (sys_rows s) (sys_prices s) (sys_published s) (Some (l', stored_at)))
           | None => (Unreachable, s)
           end
       end.
End settings.
