(* ===== verification/SettingsUse.v ===== *)
(** * What the settings promise

    A change replaces the sections sent and no others; a key that was stored can
    be used but not read; a call with a profile's address carries no secret of the
    deployment; and the kill switch stops every run. *)

From S2P Require Import Prelude GoTime GoStrings Utf8 GoURL Tables Schema StoreItems StoreRuns StoreSamples StoreHistory Budget Generate Pipeline FeedSpec Wire.
From S2P Require Import Password Access AuthService AuthFlows Settings.
From Stdlib Require Import String Ascii.
Local Open Scope string_scope.
Local Open Scope Z_scope.
Local Abbreviation length := List.length.

Section settings.
Context (cfg : config) (getenv : string -> string) (ToLower : string -> string) (parseIPLiteral : string -> option string) (strictColons : string -> bool).
Context (secretKey : string) (defaultGenerationEnabled : bool).

Abbreviation update_rows := (update_rows cfg ToLower parseIPLiteral strictColons secretKey).
Abbreviation update_provider := (update_provider cfg ToLower parseIPLiteral strictColons secretKey).
Abbreviation sysLoadSettings := (sysLoadSettings getenv defaultGenerationEnabled).
Abbreviation sysLoadProvider := (sysLoadProvider getenv).
Abbreviation UpdateSettings := (UpdateSettings cfg getenv ToLower parseIPLiteral strictColons secretKey defaultGenerationEnabled).

(** ** What a key cannot tell *)

(** Two maps of keys with the same slots. *)
Definition alike_keys (a b : gmap string string) : Prop := forall n, is_Some (a !! n) <-> is_Some (b !! n).

Definition alike_rows (a b : SettingsRows) : Prop :=
  row_provider a = row_provider b /\ row_generation a = row_generation b /\ row_publishing a = row_publishing b /\
  match row_keys a, row_keys b with
  | Some (Readable x), Some (Readable y) => alike_keys x y
  | Some Unreadable, Some Unreadable | None, None => True
  | _, _ => False
  end.

(** Two requests that differ in the texts of keys, but not in which are blank. *)
Definition alike_text (a b : string) : Prop := is_empty (TrimSpace a) = is_empty (TrimSpace b).
Definition alike_profile (a b : ProviderProfile) : Prop :=
  pp_Name a = pp_Name b /\ pp_BaseUrl a = pp_BaseUrl b /\ pp_ApiKeyEnv a = pp_ApiKeyEnv b /\ pp_ClearStoredKey a = pp_ClearStoredKey b /\
  alike_text (pp_ApiKey a) (pp_ApiKey b).
Record alike_provider (a b : SettingsProvider) : Prop := {
  al_backend : sp_ActiveProvider a = sp_ActiveProvider b;
  al_model : sp_DefaultModel a = sp_DefaultModel b;
  al_embedding : sp_EmbeddingModel a = sp_EmbeddingModel b;
  al_prices : sp_PriceTable a = sp_PriceTable b;
  al_effort : sp_Effort a = sp_Effort b;
  al_active : sp_ActiveProfile a = sp_ActiveProfile b;
  al_profiles : Forall2 alike_profile (sp_Profiles a) (sp_Profiles b);
  al_clear : sp_ClearDefaultKey a = sp_ClearDefaultKey b;
  al_key : alike_text (sp_DefaultApiKey a) (sp_DefaultApiKey b) }.
Definition alike_patch (a b : SettingsPatch) : Prop :=
  option_Forall2 alike_provider (up_Provider a) (up_Provider b) /\ up_Generation a = up_Generation b /\ up_Publishing a = up_Publishing b.

Definition alike_state (a b : nat * gmap string string * bool) : Prop := alike_keys a.1.2 b.1.2 /\ a.2 = b.2.

(** The same error, or related results. *)
Definition alike_result {A B} (R : A -> B -> Prop) (a : result sys_code A) (b : result sys_code B) : Prop :=
  match a, b with Ok x, Ok y => R x y | Err e, Err f => e = f | _, _ => False end.

Lemma alike_bool a b n : alike_keys a b -> bool_decide (is_Some (a !! n)) = bool_decide (is_Some (b !! n)).
Proof. intros H. by apply bool_decide_ext. Qed.

Lemma alike_insert n x y a b : alike_keys a b -> alike_keys (<[n := x]> a) (<[n := y]> b).
Proof.
  intros H m. destruct (decide (n = m)) as [<-|]; [rewrite !lookup_insert_eq; split; intros _; by eexists|]. by rewrite !lookup_insert_ne.
Qed.
Lemma alike_delete n a b : alike_keys a b -> alike_keys (delete n a) (delete n b).
Proof.
  intros H m. destruct (decide (n = m)) as [<-|]; [rewrite !lookup_delete_eq; split; intros []; done|]. by rewrite !lookup_delete_ne.
Qed.
Lemma sweep_lookup names k n : sweep_keys names k !! n = if keep_key names n then k !! n else None.
Proof.
  unfold sweep_keys. destruct (k !! n) as [x|] eqn:E.
  - destruct (keep_key names n) eqn:Ek; [by apply map_lookup_filter_Some_2|]. apply map_lookup_filter_None. right. intros y Hy. cbn. congruence.
  - rewrite map_lookup_filter, E. by destruct (keep_key names n).
Qed.
Lemma alike_sweep names a b : alike_keys a b -> alike_keys (sweep_keys names a) (sweep_keys names b).
Proof. intros H n. rewrite !sweep_lookup. by destruct (keep_key names n). Qed.
Lemma swept_same names k : sweep_keys names k = k <-> forall n, is_Some (k !! n) -> keep_key names n = true.
Proof.
  split.
  - intros E n Hn. rewrite <- E in Hn. rewrite sweep_lookup in Hn. destruct (keep_key names n); [done|by destruct Hn].
  - intros H. apply map_eq. intros n. rewrite sweep_lookup. destruct (keep_key names n) eqn:E; [done|]. destruct (k !! n) eqn:Ek; [|done].
    rewrite H in E; [done|]. by rewrite Ek.
Qed.
Lemma alike_swept names a b : alike_keys a b -> bool_decide (sweep_keys names a = a) = bool_decide (sweep_keys names b = b).
Proof. intros H. apply bool_decide_ext. rewrite !swept_same. split; intros Hk n Hn; apply Hk; by apply H. Qed.

Lemma alike_apply_key n1 n2 name k1 k2 clear a b :
  alike_text k1 k2 -> alike_state a b ->
  alike_result alike_state (apply_key cfg secretKey n1 name k1 clear a) (apply_key cfg secretKey n2 name k2 clear b).
Proof.
  intros Hk. destruct a as [[i a] ca], b as [[j b] cb]. intros [Hab Hc]. cbn in Hab, Hc. subst cb. unfold apply_key. rewrite Hk.
  destruct (negb (is_empty (TrimSpace k2))); [destruct (is_empty secretKey); [done|]|destruct clear; [|done]].
  - split; [by apply alike_insert|done].
  - split; [by apply alike_delete|]. cbn. by rewrite (alike_bool a b).
Qed.

Lemma alike_apply_keys n1 n2 ps qs a b :
  Forall2 alike_profile ps qs -> alike_state a b ->
  alike_result alike_state (apply_keys cfg secretKey n1 ps a) (apply_keys cfg secretKey n2 qs b).
Proof.
  intros Hp. revert a b. induction Hp as [|p q ps qs (En & _ & _ & Ec & Ek) _ IH]; intros a b Hab; [done|]. cbn [apply_keys]. rewrite En.
  destruct (is_empty _); [by apply IH|]. rewrite Ec. pose proof (alike_apply_key n1 n2 (TrimSpace (pp_Name q)) _ _ (pp_ClearStoredKey q) a b Ek Hab) as H.
  destruct (apply_key _ _ n1 _ _ _ _), (apply_key _ _ n2 _ _ _ _); cbn in H |- *; [by apply IH|done|done|done].
Qed.

Lemma alike_validate ps qs seen :
  Forall2 alike_profile ps qs -> validate_profiles parseIPLiteral strictColons ps seen = validate_profiles parseIPLiteral strictColons qs seen.
Proof.
  intros Hp. revert seen. induction Hp as [|p q ps qs (E1 & E2 & E3 & _) _ IH]; intros seen; [done|]. cbn [validate_profiles]. by rewrite E1, E2, E3, IH.
Qed.

Lemma alike_update_provider n1 n2 p q a b :
  alike_provider p q -> alike_rows a b -> alike_result alike_rows (update_provider n1 p a) (update_provider n2 q b).
Proof.
  intros [] (E1 & E2 & E3 & E4). unfold Settings.update_provider. rewrite al_effort0, al_backend0, al_active0. cbv zeta. destruct (negb (member _ _)); [done|].
  destruct (negb _ && negb _); [done|]. unfold sysValidateProfiles. rewrite (alike_validate _ _ ∅ al_profiles0). destruct (_ ≫= _) as [profiles|]; [|done].
  assert (Hk : alike_result alike_keys (sysLoadProviderKeys a) (sysLoadProviderKeys b)).
  { unfold sysLoadProviderKeys, sysReadSetting. destruct (row_keys a) as [[x|]|], (row_keys b) as [[y|]|]; done. }
  destruct (sysLoadProviderKeys a) as [ka|], (sysLoadProviderKeys b) as [kb|]; try done. cbn [rbind].
  assert (Hs : alike_state (0%nat, ka, false) (0%nat, kb, false)) by (by split).
  pose proof (alike_apply_keys n1 n2 _ _ _ _ al_profiles0 Hs) as H1.
  destruct (apply_keys _ _ n1 _ _) as [s1|], (apply_keys _ _ n2 _ _) as [s2|]; try done. cbn [rbind].
  rewrite al_clear0. pose proof (alike_apply_key n1 n2 "" _ _ (sp_ClearDefaultKey q) s1 s2 al_key0 H1) as H2.
  destruct (apply_key _ _ n1 _ _ _ _) as [[[i k1] c1]|], (apply_key _ _ n2 _ _ _ _) as [[[j k2] c2]|]; try done. cbn [rbind].
  destruct H2 as [H2 H3]. cbn in H2, H3. subst c2. rewrite (alike_swept (pp_Name <$> profiles) k1 k2 H2). unfold provider_encodes. rewrite al_prices0.
  destruct (negb (forallb _ _)); [done|]. cbn. unfold stored_provider. rewrite al_model0, al_embedding0, al_active0, al_prices0.
  destruct (c1 || _); (split; [done|]); (split; [done|]); (split; [done|]); cbn; [by apply alike_sweep|exact E4].
Qed.

Lemma alike_update n1 n2 x y a b :
  alike_patch x y -> alike_rows a b -> alike_result alike_rows (update_rows n1 x a) (update_rows n2 y b).
Proof.
  intros (Hp & Eg & Eb) Hr. unfold Settings.update_rows. rewrite Eb, Eg. destruct (match up_Publishing y with Some _ => _ | None => _ end); [done|].
  assert (H1 : alike_result alike_rows (update_section (update_provider n1) (up_Provider x) a) (update_section (update_provider n2) (up_Provider y) b)).
  { destruct Hp as [p q Hpq|]; [by apply alike_update_provider|done]. }
  destruct (update_section (update_provider n1) _ a) as [a1|], (update_section (update_provider n2) _ b) as [b1|]; try done. cbn [rbind].
  assert (H2 : alike_result alike_rows (update_section update_generation (up_Generation y) a1) (update_section update_generation (up_Generation y) b1)).
  { destruct (up_Generation y) as [g|]; [|done]. cbn. unfold update_generation. destruct (negb _); [done|]. destruct H1 as (F1 & F2 & F3 & F4). by split_and!. }
  destruct (update_section update_generation _ a1) as [a2|], (update_section update_generation _ b1) as [b2|]; try done. cbn [rbind].
  destruct (up_Publishing y); [|done]. destruct H2 as (F1 & F2 & F3 & F4). by split_and!.
Qed.

(** What is shown depends on which slots hold a key, not on the keys. *)
Lemma alike_load a b : alike_rows a b -> sysLoadSettings a = sysLoadSettings b.
Proof.
  intros (E1 & E2 & E3 & E4). unfold Settings.sysLoadSettings, Settings.sysLoadProvider, sysLoadGeneration, sysLoadPublishing, sysLoadProviderKeys. rewrite E1, E2, E3.
  destruct (sysReadSetting (row_provider b)) as [p|]; [|done]. cbn [rbind]. destruct (row_keys a) as [[x|]|], (row_keys b) as [[y|]|]; try done. cbn [sysReadSetting rbind].
  assert (Hs : forall q, show_profile getenv x q = show_profile getenv y q) by (intros q; unfold show_profile; by rewrite (alike_bool x y _ E4)).
  change (default ∅ (Some x)) with x. change (default ∅ (Some y)) with y. rewrite (alike_bool x y "" E4).
  assert (Hf : show_profile getenv x <$> sp_Profiles (default zero_provider p) = show_profile getenv y <$> sp_Profiles (default zero_provider p)) by (apply list_fmap_ext; intros i q _; apply Hs).
  by rewrite Hf.
Qed.

Lemma alike_answers n1 n2 x y s t :
  alike_patch x y -> alike_rows (sys_rows s) (sys_rows t) -> (UpdateSettings n1 (Some x) s).1 = (UpdateSettings n2 (Some y) t).1.
Proof.
  intros Hp Hr. unfold Settings.UpdateSettings. pose proof (alike_update n1 n2 x y _ _ Hp Hr) as H.
  destruct (update_rows n1 x (sys_rows s)) as [a|], (update_rows n2 y (sys_rows t)) as [b|]; try done; [|cbn in H; by subst].
  rewrite (alike_load a b H). by destruct (sysLoadSettings b).
Qed.

(** ** What a change changes *)

Lemma update_provider_rows n p r r' :
  update_provider n p r = Ok r' ->
  row_generation r' = row_generation r /\ row_publishing r' = row_publishing r /\
  exists backend profiles, backend = ToLower (TrimSpace (sp_ActiveProvider p)) /\
    sysValidateProfiles parseIPLiteral strictColons (sp_Profiles p) (sp_ActiveProfile p) = Some profiles /\
    row_provider r' = Some (Readable (stored_provider backend (or_default defaultProviderEffort (sp_Effort p)) profiles p)).
Proof.
  unfold Settings.update_provider. cbv zeta. destruct (negb (member _ _)); [done|]. destruct (negb _ && negb _); [done|].
  destruct (sysValidateProfiles _ _ _ _) as [profiles|]; [|done]. intros (keys & _ & H)%rbind_Ok. apply rbind_Ok in H as (st & _ & H).
  apply rbind_Ok in H as ([[i k] c] & _ & H). cbn in H. destruct (negb (provider_encodes p)); [done|]. injection H as <-.
  destruct (c || _); cbn; (split; [done|]); (split; [done|]); by exists (ToLower (TrimSpace (sp_ActiveProvider p))), profiles.
Qed.

Lemma update_rows_sections n in_ r r' :
  update_rows n in_ r = Ok r' ->
  (up_Provider in_ = None -> row_provider r' = row_provider r /\ row_keys r' = row_keys r) /\
  (forall p, up_Provider in_ = Some p -> exists r1, update_provider n p r = Ok r1 /\ row_provider r' = row_provider r1 /\ row_keys r' = row_keys r1) /\
  row_generation r' = match up_Generation in_ with Some g => Some (Readable g) | None => row_generation r end /\
  row_publishing r' = match up_Publishing in_ with Some b => Some (Readable (canonical_base b)) | None => row_publishing r end /\
  (forall b, up_Publishing in_ = Some b -> sysValidatePublishing parseIPLiteral strictColons b = true).
Proof.
  unfold Settings.update_rows. destruct (match up_Publishing in_ with Some _ => _ | None => _ end) eqn:Ev; [done|].
  intros (r1 & H1 & H)%rbind_Ok. apply rbind_Ok in H as (r2 & H2 & H3).
  assert (E2 : row_provider r2 = row_provider r1 /\ row_keys r2 = row_keys r1 /\ row_publishing r2 = row_publishing r1 /\
    row_generation r2 = match up_Generation in_ with Some g => Some (Readable g) | None => row_generation r1 end).
  { destruct (up_Generation in_) as [g|]; [|by injection H2 as <-]. cbn in H2. unfold update_generation in H2. destruct (negb _); [done|]. by injection H2 as <-. }
  destruct E2 as (F1 & F2 & F3 & F4).
  assert (E3 : row_provider r' = row_provider r2 /\ row_keys r' = row_keys r2 /\ row_generation r' = row_generation r2 /\
    row_publishing r' = match up_Publishing in_ with Some b => Some (Readable (canonical_base b)) | None => row_publishing r2 end).
  { destruct (up_Publishing in_) as [b|]; by injection H3 as <-. }
  destruct E3 as (G1 & G2 & G3 & G4). rewrite G1, G2, G3, G4, F1, F2, F3, F4.
  assert (Hval : forall b, up_Publishing in_ = Some b -> sysValidatePublishing parseIPLiteral strictColons b = true).
  { intros b Hb. rewrite Hb in Ev. by apply negb_false_iff in Ev. }
  destruct (up_Provider in_) as [p|]; cbn in H1.
  - destruct (update_provider_rows _ _ _ _ H1) as (K1 & K2 & _). rewrite K1, K2. split; [done|]. split; [intros q [= <-]; by exists r1|]. done.
  - injection H1 as <-. done.
Qed.

Definition all_readable (r : SettingsRows) : Prop :=
  row_provider r <> Some Unreadable /\ row_generation r <> Some Unreadable /\ row_publishing r <> Some Unreadable /\ row_keys r <> Some Unreadable.

Lemma update_provider_keys n p r r' : update_provider n p r = Ok r' -> row_keys r' = row_keys r \/ exists k, row_keys r' = Some (Readable k).
Proof.
  unfold Settings.update_provider. cbv zeta. destruct (negb (member _ _)); [done|]. destruct (negb _ && negb _); [done|].
  destruct (sysValidateProfiles _ _ _ _) as [profiles|]; [|done]. intros (keys & _ & H)%rbind_Ok. apply rbind_Ok in H as (st & _ & H).
  apply rbind_Ok in H as ([[i k] c] & _ & H). cbn in H. destruct (negb (provider_encodes p)); [done|]. injection H as <-. destruct (c || _); cbn; eauto.
Qed.

Lemma update_readable n in_ r r' : all_readable r -> update_rows n in_ r = Ok r' -> all_readable r'.
Proof.
  intros (A1 & A2 & A3 & A4) H. destruct (update_rows_sections _ _ _ _ H) as (H1 & H2 & H3 & H4 & _). unfold all_readable. rewrite H3, H4.
  assert (Hpk : row_provider r' <> Some Unreadable /\ row_keys r' <> Some Unreadable).
  { destruct (up_Provider in_) as [p|] eqn:Ep.
    - destruct (H2 p eq_refl) as (r1 & Hu & -> & ->). destruct (update_provider_rows _ _ _ _ Hu) as (_ & _ & b & ps & _ & _ & ->). split; [done|].
      destruct (update_provider_keys _ _ _ _ Hu) as [->|[k ->]]; [done|done].
    - by destruct (H1 eq_refl) as [-> ->]. }
  split; [apply Hpk|]. split; [by destruct (up_Generation in_)|]. split; [by destruct (up_Publishing in_)|apply Hpk].
Qed.

Lemma load_readable r : all_readable r -> exists st, sysLoadSettings r = Ok st.
Proof.
  intros (A1 & A2 & A3 & A4). unfold Settings.sysLoadSettings, Settings.sysLoadProvider, sysLoadGeneration, sysLoadPublishing, sysLoadProviderKeys.
  destruct (row_provider r) as [[p|]|], (row_keys r) as [[k|]|], (row_generation r) as [[g|]|], (row_publishing r) as [[b|]|]; try done; by eexists.
Qed.

(** What the settings show of a provider section that was stored. *)
Definition profile_text (q : ProviderProfile) : string * string * string := (pp_Name q, pp_BaseUrl q, pp_ApiKeyEnv q).
Definition trimmed_text (q : ProviderProfile) : string * string * string := (TrimSpace (pp_Name q), TrimSpace (pp_BaseUrl q), TrimSpace (pp_ApiKeyEnv q)).
Definition provider_as_sent (p : SettingsProvider) (shown : SettingsProvider) : Prop :=
  sp_ActiveProvider shown = ToLower (TrimSpace (sp_ActiveProvider p)) /\
  sp_DefaultModel shown = or_default DefaultProviderModel (sp_DefaultModel p) /\
  sp_EmbeddingModel shown = or_default DefaultProviderEmbeddingModel (sp_EmbeddingModel p) /\
  sp_PriceTable shown = sp_PriceTable p /\ sp_Effort shown = or_default defaultProviderEffort (sp_Effort p) /\
  sp_ActiveProfile shown = sp_ActiveProfile p /\
  profile_text <$> sp_Profiles shown = trimmed_text <$> sp_Profiles p.

Lemma validated_profiles ps seen out seen' :
  validate_profiles parseIPLiteral strictColons ps seen = Some (out, seen') ->
  profile_text <$> out = trimmed_text <$> ps /\
  NoDup (pp_Name <$> out) /\ Forall (fun q => pp_Name q <> "" /\ (pp_Name q ∉ seen) /\ pp_ApiKey q = "") out /\ seen' = seen ∪ list_to_set (pp_Name <$> out).
Proof.
  revert seen out seen'. induction ps as [|p ps IH]; intros seen out seen'; cbn [validate_profiles].
  - intros [= <- <-]. split; [done|]. split; [constructor|]. split; [constructor|]. cbn. set_solver.
  - destruct (is_empty (TrimSpace (pp_Name p)) || _) eqn:En; [done|]. destruct (negb _ && negb _); [done|].
    apply orb_false_iff in En as [En1 En2%bool_decide_eq_false]. intros ([o s1] & H & [= <- <-])%bind_Some.
    destruct (IH _ _ _ H) as (E1 & E2 & E3 & ->). cbn. split; [by f_equal|]. rewrite Forall_forall in E3. split.
    + constructor; [|done]. intros (q & Hq & Hin)%list_elem_of_fmap. destruct (E3 q Hin) as (_ & Hn & _). set_solver.
    + split; [|set_solver]. constructor; [split_and!; [|done|done]; intros E; cbn in E; by rewrite E in En1|]. apply Forall_forall. intros q Hq. destruct (E3 q Hq). set_solver.
Qed.

Lemma updated_settings n in_ s st s' :
  UpdateSettings n (Some in_) s = (Ok st, s') ->
  sysLoadSettings (sys_rows s') = Ok st /\ update_rows n in_ (sys_rows s) = Ok (sys_rows s') /\
  sys_prices s' = applyPriceTable (sp_PriceTable (se_Provider st)) (sys_prices s) /\ sys_published s' = Some (se_Publishing st).
Proof.
  unfold Settings.UpdateSettings. destruct (update_rows n in_ (sys_rows s)) as [r|]; [|done]. destruct (sysLoadSettings r) as [x|] eqn:E; [|done].
  by intros [= <- <-].
Qed.

Lemma loaded_provider r st : sysLoadSettings r = Ok st -> sysLoadProvider r = Ok (se_Provider st).
Proof.
  unfold Settings.sysLoadSettings. intros (p & -> & H)%rbind_Ok. apply rbind_Ok in H as (g & _ & H). apply rbind_Ok in H as (b & _ & [= <-]). done.
Qed.

Lemma shown_sent n p r r' st :
  update_provider n p r = Ok r' -> forall r2, row_provider r2 = row_provider r' -> sysLoadProvider r2 = Ok st -> provider_as_sent p st.
Proof.
  intros H r2 E2. destruct (update_provider_rows _ _ _ _ H) as (_ & _ & backend & profiles & -> & Hv & Ep). unfold Settings.sysLoadProvider.
  rewrite E2, Ep. cbn [sysReadSetting rbind]. intros (k & _ & [= <-])%rbind_Ok. change (default zero_provider (Some ?x)) with x. cbn.
  unfold sysValidateProfiles in Hv. destruct (validate_profiles _ _ _ _) as [[out seen]|] eqn:Eo; [|done]. cbn in Hv. destruct (negb _ && negb _); [done|]. injection Hv as <-.
  destruct (validated_profiles _ _ _ _ Eo) as (E & _). unfold provider_as_sent. cbn. split_and!; try done.
  - unfold or_default. destruct (is_empty (sp_Effort p)) eqn:Ee; cbn; [done|by rewrite Ee].
  - rewrite <- E. rewrite <- list_fmap_compose. apply list_fmap_ext. by intros i q _.
Qed.

(** ** Keys that were stored *)

Abbreviation apply_keys := (apply_keys cfg secretKey).
Abbreviation apply_key := (apply_key cfg secretKey).

Lemma apply_key_other n name key clear st st' m : apply_key n name key clear st = Ok st' -> m <> name -> st'.1.2 !! m = st.1.2 !! m.
Proof.
  destruct st as [[i k] c]. unfold Settings.apply_key. destruct (negb _); [destruct (is_empty secretKey); [done|]|destruct clear]; intros [= <-] Hm; cbn;
    [by rewrite lookup_insert_ne|by rewrite lookup_delete_ne|done].
Qed.

Lemma apply_keys_other n ps st st' m : apply_keys n ps st = Ok st' -> m ∉ (fun q => TrimSpace (pp_Name q)) <$> ps -> st'.1.2 !! m = st.1.2 !! m.
Proof.
  revert st. induction ps as [|p ps IH]; intros st; cbn [Settings.apply_keys]; [by intros [= <-]|]. rewrite fmap_cons, not_elem_of_cons. intros H [Hm Hin].
  destruct (is_empty _); [by apply IH|]. apply rbind_Ok in H as (s1 & H1 & H2). rewrite (IH _ H2 Hin). by eapply apply_key_other.
Qed.

Lemma apply_key_changed n name key clear st st' : apply_key n name key clear st = Ok st' -> st.2 = true -> st'.2 = true.
Proof.
  destruct st as [[i k] c]. unfold Settings.apply_key. cbn. destruct (negb _); [destruct (is_empty secretKey); [done|]|destruct clear]; intros [= <-] H; cbn; [done|by rewrite H|done].
Qed.

Lemma apply_keys_changed n ps st st' : apply_keys n ps st = Ok st' -> st.2 = true -> st'.2 = true.
Proof.
  revert st. induction ps as [|p ps IH]; intros st; cbn [Settings.apply_keys]; [by intros [= <-]|]. destruct (is_empty _); [apply IH|].
  intros (s1 & H1 & H2)%rbind_Ok Hc. eapply IH; [done|]. by eapply apply_key_changed.
Qed.

Lemma apply_keys_stored n ps st st' q :
  apply_keys n ps st = Ok st' -> NoDup ((fun q => TrimSpace (pp_Name q)) <$> ps) -> q ∈ ps -> TrimSpace (pp_Name q) <> "" -> TrimSpace (pp_ApiKey q) <> "" ->
  secretKey <> "" /\ st'.2 = true /\ exists i, st'.1.2 !! TrimSpace (pp_Name q) = Some (EncryptSecret cfg (TrimSpace (pp_ApiKey q)) secretKey (n i)).
Proof.
  revert st. induction ps as [|p ps IH]; intros st H Hnd Hq Hn Hk; [by apply elem_of_nil in Hq|]. cbn [Settings.apply_keys] in H.
  rewrite fmap_cons in Hnd. apply NoDup_cons in Hnd as [Hnin Hnd]. apply elem_of_cons in Hq as [->|Hq].
  - assert (E : is_empty (TrimSpace (pp_Name p)) = false) by (by apply bool_decide_eq_false). rewrite E in H. apply rbind_Ok in H as ([[i k] c] & H1 & H2).
    rewrite (apply_keys_other _ _ _ _ _ H2 Hnin). destruct st as [[i0 k0] c0]. unfold Settings.apply_key in H1.
    assert (E' : is_empty (TrimSpace (pp_ApiKey p)) = false) by (by apply bool_decide_eq_false). rewrite E' in H1. cbn [negb] in H1.
    destruct (is_empty secretKey) eqn:Es; [done|]. injection H1 as <- <- <-. split; [intros ->; done|]. split; [by eapply apply_keys_changed|]. exists i0. cbn. apply lookup_insert_eq.
  - destruct (is_empty _); [by eapply IH|]. apply rbind_Ok in H as (s1 & _ & H2). by eapply IH.
Qed.

Lemma validated_names p profiles :
  sysValidateProfiles parseIPLiteral strictColons (sp_Profiles p) (sp_ActiveProfile p) = Some profiles ->
  profile_text <$> profiles = trimmed_text <$> sp_Profiles p /\ (fun q => TrimSpace (pp_Name q)) <$> sp_Profiles p = pp_Name <$> profiles /\
  NoDup (pp_Name <$> profiles) /\ Forall (fun q => pp_Name q <> "" /\ pp_ApiKey q = "") profiles /\
  (sp_ActiveProfile p <> "" -> sp_ActiveProfile p ∈ pp_Name <$> profiles).
Proof.
  unfold sysValidateProfiles. destruct (validate_profiles _ _ _ _) as [[out seen]|] eqn:Eo; [|done]. cbn. destruct (negb _ && negb _) eqn:Ea; [done|]. intros [= <-].
  destruct (validated_profiles _ _ _ _ Eo) as (E & Hnd & Hall & ->). split; [done|]. split.
  { apply (f_equal (fmap (fun x : string * string * string => x.1.1))) in E. rewrite <- !list_fmap_compose in E. symmetry. exact E. }
  split; [done|]. split; [eapply Forall_impl; [exact Hall|]; by intros q (? & _ & ?)|]. intros Hne.
  assert (En : is_empty (sp_ActiveProfile p) = false) by (by apply bool_decide_eq_false). rewrite En in Ea. cbn in Ea.
  apply negb_false_iff, bool_decide_eq_true in Ea. set_solver.
Qed.

Lemma key_stored n p r r' q :
  update_provider n p r = Ok r' -> q ∈ sp_Profiles p -> TrimSpace (pp_ApiKey q) <> "" ->
  secretKey <> "" /\ exists k i, row_keys r' = Some (Readable k) /\ k !! TrimSpace (pp_Name q) = Some (EncryptSecret cfg (TrimSpace (pp_ApiKey q)) secretKey (n i)).
Proof.
  unfold Settings.update_provider. cbv zeta. destruct (negb (member _ _)); [done|]. destruct (negb _ && negb _); [done|].
  destruct (sysValidateProfiles _ _ _ _) as [profiles|] eqn:Ev; [|done]. intros (keys & _ & H)%rbind_Ok. apply rbind_Ok in H as (st & Hst & H).
  apply rbind_Ok in H as ([[i k] c] & Hd & H). cbn in H. destruct (negb (provider_encodes p)); [done|]. injection H as <-. intros Hq Hk.
  destruct (validated_names _ _ Ev) as (_ & En & Hnd & Hall & _).
  assert (Hin : TrimSpace (pp_Name q) ∈ pp_Name <$> profiles) by (rewrite <- En; exact (list_elem_of_fmap_2 (fun q => TrimSpace (pp_Name q)) _ _ Hq)).
  assert (Hne : TrimSpace (pp_Name q) <> "").
  { apply list_elem_of_fmap in Hin as (x & -> & Hx). rewrite Forall_forall in Hall. apply (Hall x Hx). }
  destruct (apply_keys_stored _ _ _ _ q Hst) as (Hs & Hc & j & Hj); [by rewrite En|done|done|done|]. split; [done|].
  pose proof (apply_key_other _ _ _ _ _ _ _ Hd Hne) as Ho. cbn in Ho. rewrite Hj in Ho.
  pose proof (apply_key_changed _ _ _ _ _ _ Hd Hc) as Hc'. cbn in Hc'. subst c. cbn [orb].
  exists (sweep_keys (pp_Name <$> profiles) k), j. split; [done|]. rewrite sweep_lookup.
  by assert (keep_key (pp_Name <$> profiles) (TrimSpace (pp_Name q)) = true) as -> by (unfold keep_key, member; rewrite (bool_decide_true _ Hin); apply orb_true_r).
Qed.

Lemma find_named (l : list ProviderProfile) y : NoDup (pp_Name <$> l) -> y ∈ l -> List.find (fun q => String.eqb (pp_Name q) (pp_Name y)) l = Some y.
Proof.
  induction l as [|x l IH]; [by intros _ ?%elem_of_nil|]. rewrite fmap_cons, NoDup_cons. intros [Hx Hnd] [->|Hy]%elem_of_cons; cbn [List.find]; [by rewrite String.eqb_refl|].
  destruct (String.eqb_spec (pp_Name x) (pp_Name y)) as [E|]; [|by apply IH]. exfalso. apply Hx. rewrite E. by apply list_elem_of_fmap_2.
Qed.

(** A nonce is drawn at its length, and opening what was sealed gives it back. *)
Context (open_seal : forall k n x, open_ cfg k n (seal cfg k n x) = Some x).

Lemma stored_key_resolves n p r r' q :
  (forall i, String.length (n i) = 12%nat) -> update_provider n p r = Ok r' -> q ∈ sp_Profiles p -> TrimSpace (pp_ApiKey q) <> "" ->
  sp_ActiveProfile p = TrimSpace (pp_Name q) ->
  forall r2, row_provider r2 = row_provider r' -> row_keys r2 = row_keys r' ->
  exists e, Resolver_Resolve cfg getenv ToLower secretKey r2 = (e, false) /\
    en_Profile e = TrimSpace (pp_Name q) /\ en_BaseURL e = TrimRight "/" (TrimSpace (pp_BaseUrl q)) /\ en_APIKey e = TrimSpace (pp_ApiKey q).
Proof.
  intros Hn Hu Hq Hk Ha r2 E1 E2. destruct (key_stored _ _ _ _ _ Hu Hq Hk) as (Hs & k & i & Hrow & Hlook).
  destruct (update_provider_rows _ _ _ _ Hu) as (_ & _ & backend & profiles & -> & Hv & Ep). destruct (validated_names _ _ Hv) as (Et & En & Hnd & Hall & Hact).
  unfold Resolver_Resolve, Settings.sysLoadProvider, sysLoadProviderKeys. rewrite E1, E2, Ep, Hrow. cbn [sysReadSetting rbind].
  change (default zero_provider (Some ?x)) with x. change (default ∅ (Some k)) with k. cbn [stored_provider sp_ActiveProfile sp_ActiveProvider sp_Profiles].
  assert (Hne : TrimSpace (pp_Name q) <> "").
  { intros E. assert (Hin : TrimSpace (pp_Name q) ∈ pp_Name <$> profiles) by (rewrite <- En; exact (list_elem_of_fmap_2 (fun q => TrimSpace (pp_Name q)) _ _ Hq)).
    apply list_elem_of_fmap in Hin as (x & Ex & Hx). rewrite Forall_forall in Hall. destruct (Hall x Hx) as [Hx' _]. congruence. }
  unfold ResolveProviderEndpoint. cbn [sp_ActiveProfile sp_ActiveProvider sp_Profiles]. rewrite Ha, TrimSpace_idem.
  assert (is_empty (TrimSpace (pp_Name q)) = false) as -> by (by apply bool_decide_eq_false).
  assert (Hy : trimmed_text q ∈ profile_text <$> profiles) by (rewrite Et; by apply list_elem_of_fmap_2).
  apply list_elem_of_fmap in Hy as (y & [= Ey1 Ey2 Ey3] & Hy).
  assert (Hf : List.find (fun x => String.eqb (pp_Name x) (TrimSpace (pp_Name q))) (show_profile getenv k <$> profiles) = Some (show_profile getenv k y)).
  { rewrite Ey1. apply (find_named (show_profile getenv k <$> profiles) (show_profile getenv k y)); [by rewrite <- list_fmap_compose|by apply list_elem_of_fmap_2]. }
  rewrite Hf. cbn [show_profile pp_Name pp_BaseUrl pp_ApiKeyEnv]. rewrite <- Ey1, <- Ey2, TrimSpace_idem.
  eexists. split; [reflexivity|]. unfold applyStoredProviderKey, storedProviderKey, sysLoadProviderKeys. cbn [en_Profile].
  assert (is_empty secretKey = false) as -> by (by apply bool_decide_eq_false). rewrite E2, Hrow. cbn [sysReadSetting rbind].
  change (default ∅ (Some k)) with k. rewrite Hlook. cbn [mbind option_bind]. rewrite decrypt_encrypt by done. done.
Qed.

(** ** What a call may carry *)

(** Outside the application's own variables. *)
Definition same_outside (g1 g2 : string -> string) : Prop := forall n, HasPrefix n "AFF_" = false -> g1 n = g2 n.

Lemma endpoint_env g1 g2 p p' :
  same_outside g1 g2 -> sp_ActiveProvider p = sp_ActiveProvider p' -> sp_ActiveProfile p = sp_ActiveProfile p' ->
  profile_text <$> sp_Profiles p = profile_text <$> sp_Profiles p' ->
  ResolveProviderEndpoint g1 ToLower p = ResolveProviderEndpoint g2 ToLower p'.
Proof.
  intros Hg E1 E2 E3. unfold ResolveProviderEndpoint. rewrite E1, E2. cbv zeta.
  assert (Hf : forall a, option_map profile_text (List.find (fun q => String.eqb (pp_Name q) a) (sp_Profiles p)) =
                         option_map profile_text (List.find (fun q => String.eqb (pp_Name q) a) (sp_Profiles p'))).
  { intros a. revert E3. generalize (sp_Profiles p) (sp_Profiles p'). induction l as [|x l IH]; intros [|y l'] E; try done. injection E as Ex1 Ex2 Ex3 E.
    cbn [List.find]. rewrite Ex1. destruct (String.eqb (pp_Name y) a); [|by apply IH]. cbn. unfold profile_text. by rewrite Ex1, Ex2, Ex3. }
  destruct (is_empty _); [by rewrite (Hg sysProviderAPIKeyEnv)|]. specialize (Hf (TrimSpace (sp_ActiveProfile p'))).
  destruct (List.find _ (sp_Profiles p)) as [x|], (List.find _ (sp_Profiles p')) as [y|]; try done; [|by rewrite (Hg sysProviderAPIKeyEnv)].
  injection Hf as Ex1 Ex2 Ex3. rewrite Ex1, Ex2, Ex3. f_equal. destruct (allowedAPIKeyEnv _) eqn:Ea; [|done]. apply Hg.
  unfold allowedAPIKeyEnv in Ea. destruct (is_empty _); [done|]. by destruct (HasPrefix _ _).
Qed.

Lemma resolve_env g1 g2 r :
  same_outside g1 g2 -> Resolver_Resolve cfg g1 ToLower secretKey r = Resolver_Resolve cfg g2 ToLower secretKey r.
Proof.
  intros Hg. unfold Resolver_Resolve, Settings.sysLoadProvider. destruct (sysReadSetting (row_provider r)) as [p|]; cbn [rbind]; [|by rewrite (Hg sysProviderAPIKeyEnv)].
  destruct (sysLoadProviderKeys r) as [k|]; cbn [rbind]; [|by rewrite (Hg sysProviderAPIKeyEnv)].
  f_equal. f_equal. apply endpoint_env; [done|done|done|]. cbn. rewrite <- !list_fmap_compose. apply list_fmap_ext. by intros i q _.
Qed.

(** The key of the deployment goes to the provider's own address only. *)
Lemma resolve_cases r e b :
  Resolver_Resolve cfg getenv ToLower secretKey r = (e, b) ->
  (en_BaseURL e = "" /\ en_Profile e = "" /\ (en_APIKey e = getenv sysProviderAPIKeyEnv \/ storedProviderKey cfg secretKey "" r = Some (en_APIKey e))) \/
  (exists q, (exists p, row_provider r = Some (Readable p) /\ q ∈ sp_Profiles p) /\ en_Profile e = pp_Name q /\ en_BaseURL e = TrimRight "/" (TrimSpace (pp_BaseUrl q)) /\
     (storedProviderKey cfg secretKey (pp_Name q) r = Some (en_APIKey e) \/ en_APIKey e = "" \/
      exists v, allowedAPIKeyEnv v = true /\ v = TrimSpace (pp_ApiKeyEnv q) /\ en_APIKey e = getenv v)).
Proof.
  unfold Resolver_Resolve. destruct (sysLoadProvider r) as [shown|] eqn:Es; [|intros [= <- <-]; left; cbn; auto].
  unfold Settings.sysLoadProvider in Es. apply rbind_Ok in Es as (p & Hp & Es). apply rbind_Ok in Es as (k & Hk & [= <-]). intros [= <- _].
  unfold applyStoredProviderKey, ResolveProviderEndpoint. cbn [sp_ActiveProfile sp_ActiveProvider sp_Profiles]. cbv zeta.
  set (found := if is_empty _ then _ else _). destruct found as [x|] eqn:Ef.
  - subst found. destruct (is_empty _); [done|]. apply find_some in Ef as [Hx _]. apply list_elem_of_In, list_elem_of_fmap in Hx as (q & -> & Hq).
    right. exists q. split.
    + destruct (row_provider r) as [[y|]|]; cbn in Hp; [| done|]; injection Hp as <-; cbn in Hq; [by exists y|by apply elem_of_nil in Hq].
    + cbn [show_profile pp_Name pp_BaseUrl pp_ApiKeyEnv en_Profile]. destruct (storedProviderKey cfg secretKey (pp_Name q) r) as [key|] eqn:Ek; cbn; [auto|].
      split; [done|]. split; [done|]. right. destruct (allowedAPIKeyEnv (TrimSpace (pp_ApiKeyEnv q))) eqn:Ea; [right; by exists (TrimSpace (pp_ApiKeyEnv q))|by left].
  - left. cbn [en_Profile]. destruct (storedProviderKey cfg secretKey "" r) as [key|] eqn:Ek; cbn; auto.
Qed.
(** The service reads the kill switch and the two ceilings as the gate does. *)
Lemma readers_agree r : loadGenerationSettings defaultGenerationEnabled r =
  match sysLoadGeneration defaultGenerationEnabled r with
  | Ok g => Some (MkGenSettings (sg_Enabled g) (sg_GlobalDailyTokenCeiling g) (sg_GlobalDailySpendCeilingUsd g))
  | Err _ => None
  end.
Proof. unfold loadGenerationSettings, sysLoadGeneration. by destruct (row_generation r) as [[g|]|]. Qed.
End settings.

(** ** Theorems *)


(** Nothing stored yet, and a change of all three sections. *)
Definition demo_env (v : string) : string := if String.eqb v "LOCAL_KEY" then "local" else if String.eqb v "AFF_SECRET_KEY" then "secret" else "".
Definition demo_nonce (i : nat) : string := "nonce-nonce-".
Definition demo_profile (key : string) : ProviderProfile := MkProfile " shim " "https://shim.test/v1/" "LOCAL_KEY" false key false false.
Definition demo_patch (key : string) : SettingsPatch :=
  MkPatch (Some (MkProvider "OpenAI" "" "" false [] "smart" "shim" [demo_profile key] "" false false))
    (Some (with_enabled true zero_generation)) (Some (MkPublishing "https://example.com/" "Ann" "" "" 60 "" "")).
Definition demo_system : SystemState := MkSystem no_rows NewTable None None.
Definition demo_ToLower (s : string) : string := if String.eqb s "OpenAI" then "openai" else s.
Definition demo_update (key : string) : result sys_code Settings * SystemState :=
  UpdateSettings demo_cfg demo_env demo_ToLower (fun _ => None) (fun _ => true) "secret" true demo_nonce (Some (demo_patch key)) demo_system.

Lemma demo_readable : all_readable no_rows.
Proof. unfold all_readable. by split_and!. Qed.


Definition no_key (st : Settings) : Prop :=
  sp_DefaultApiKey (se_Provider st) = "" /\ Forall (fun q => pp_ApiKey q = "") (sp_Profiles (se_Provider st)).

Lemma loaded_no_key getenv dflt r st : sysLoadSettings getenv dflt r = Ok st -> no_key st.
Proof.
  intros H%loaded_provider. unfold sysLoadProvider in H. apply rbind_Ok in H as (p & _ & H). apply rbind_Ok in H as (k & _ & [= H]).
  unfold no_key. rewrite <- H. cbn. split; [done|]. apply Forall_fmap, Forall_forall. by intros q _.
Qed.

(** C36: an API key that is stored is never shown: every answer has the key fields
    empty, and two requests that differ only in the texts of the keys, sent to
    servers whose stored keys differ only in their texts, are answered alike, and
    so is every later request for the settings. *)
Theorem stored_keys_are_secret cfg getenv ToLower ip sc secretKey dflt n1 n2 x y s t :
  alike_patch x y -> alike_rows (sys_rows s) (sys_rows t) ->
  let a := UpdateSettings cfg getenv ToLower ip sc secretKey dflt n1 (Some x) s in
  let b := UpdateSettings cfg getenv ToLower ip sc secretKey dflt n2 (Some y) t in
  a.1 = b.1 /\ alike_rows (sys_rows a.2) (sys_rows b.2) /\ GetSettings getenv dflt (sys_rows a.2) = GetSettings getenv dflt (sys_rows b.2) /\
  (forall st, a.1 = Ok st \/ GetSettings getenv dflt (sys_rows a.2) = Ok st -> no_key st).
Proof.
  cbv zeta. intros Hp Hr. split; [by apply alike_answers|].
  assert (Hrows : alike_rows (sys_rows (UpdateSettings cfg getenv ToLower ip sc secretKey dflt n1 (Some x) s).2)
                             (sys_rows (UpdateSettings cfg getenv ToLower ip sc secretKey dflt n2 (Some y) t).2)).
  { pose proof (alike_update cfg ToLower ip sc secretKey n1 n2 x y _ _ Hp Hr) as H. unfold UpdateSettings.
    destruct (update_rows _ _ _ _ _ n1 x _), (update_rows _ _ _ _ _ n2 y _); try done. cbn in H. rewrite (alike_load getenv dflt _ _ H). by destruct (sysLoadSettings _ _ _). }
  split; [done|]. split; [by apply alike_load|]. intros st [H|H]; [|by eapply loaded_no_key].
  destruct (UpdateSettings cfg getenv ToLower ip sc secretKey dflt n1 (Some x) s) as [a1 a2] eqn:E. cbn in H. subst a1.
  apply updated_settings in E as (E & _). by eapply loaded_no_key.
Qed.

Lemma stored_keys_are_secret_witness :
  (demo_update "key one").1 = (demo_update "another key").1 /\
  GetSettings demo_env true (sys_rows (demo_update "key one").2) = GetSettings demo_env true (sys_rows (demo_update "another key").2).
Proof.
  destruct (stored_keys_are_secret demo_cfg demo_env demo_ToLower (fun _ => None) (fun _ => true) "secret" true demo_nonce demo_nonce
    (demo_patch "key one") (demo_patch "another key") demo_system demo_system) as (H1 & _ & H2 & _).
  - split; [|by split]. constructor. split; try reflexivity. constructor; [|constructor]. unfold alike_profile, alike_text. split_and!; vm_compute; reflexivity.
  - unfold alike_rows. by split_and!.
  - split; [exact H1|exact H2].
Defined.

(** a key stored for the active profile is the one its calls carry: after the
    change that sends it, a provider call goes to the address of the profile with
    that key, whatever the environment holds. *)
Theorem stored_key_is_used cfg getenv ToLower ip sc secretKey dflt n in_ p q s st s' :
  (forall k m x, open_ cfg k m (seal cfg k m x) = Some x) -> (forall i, String.length (n i) = 12%nat) ->
  UpdateSettings cfg getenv ToLower ip sc secretKey dflt n (Some in_) s = (Ok st, s') ->
  up_Provider in_ = Some p -> q ∈ sp_Profiles p -> sp_ActiveProfile p = TrimSpace (pp_Name q) -> TrimSpace (pp_ApiKey q) <> "" ->
  exists e, Resolver_Resolve cfg getenv ToLower secretKey (sys_rows s') = (e, false) /\
    en_Profile e = TrimSpace (pp_Name q) /\ en_BaseURL e = TrimRight "/" (TrimSpace (pp_BaseUrl q)) /\ en_APIKey e = TrimSpace (pp_ApiKey q).
Proof.
  intros Hos Hn Hu Hp Hq Ha Hk. apply updated_settings in Hu as (_ & Hrows & _). apply update_rows_sections in Hrows as (_ & H2 & _).
  destruct (H2 p Hp) as (r1 & Hr1 & E1 & E2). by eapply stored_key_resolves.
Qed.

Lemma stored_key_is_used_witness :
  exists e, Resolver_Resolve demo_cfg demo_env demo_ToLower "secret" (sys_rows (demo_update " key ").2) = (e, false) /\
    en_BaseURL e = "https://shim.test/v1" /\ en_APIKey e = "key".
Proof.
  destruct (demo_update " key ") as [[st|] s'] eqn:E; [|vm_compute in E; discriminate E].
  destruct (stored_key_is_used demo_cfg demo_env demo_ToLower (fun _ => None) (fun _ => true) "secret" true demo_nonce (demo_patch " key ")
    (MkProvider "OpenAI" "" "" false [] "smart" "shim" [demo_profile " key "] "" false false) (demo_profile " key ") demo_system st s') as (e & H1 & _ & H2 & H3).
  - exact demo_open_seal.
  - reflexivity.
  - exact E.
  - reflexivity.
  - left.
  - vm_compute. reflexivity.
  - vm_compute. discriminate.
  - exists e. split; [exact H1|]. rewrite H2, H3. vm_compute. done.
Defined.


(** Calls that do not write the generation section. *)
Inductive other_change cfg getenv ToLower ip sc secretKey dflt : SystemState -> SystemState -> Prop :=
| oc_update n in_ s : up_Generation in_ = None ->
    other_change cfg getenv ToLower ip sc secretKey dflt s (UpdateSettings cfg getenv ToLower ip sc secretKey dflt n (Some in_) s).2
| oc_models lister now at_ s : other_change cfg getenv ToLower ip sc secretKey dflt s (ListModels cfg getenv ToLower secretKey lister now at_ s).2.

Lemma other_change_generation cfg getenv ToLower ip sc secretKey dflt s s' :
  other_change cfg getenv ToLower ip sc secretKey dflt s s' -> row_generation (sys_rows s') = row_generation (sys_rows s).
Proof.
  intros [n in_ t Hin|lister now at_ t].
  - unfold UpdateSettings. destruct (update_rows _ _ _ _ _ _ _ _) as [r|] eqn:Er; [|done].
    apply update_rows_sections in Er as (_ & _ & E & _). rewrite Hin in E. by destruct (sysLoadSettings _ _ _).
  - unfold ListModels. destruct (is_empty _); [done|]. destruct (sys_models t) as [[l x]|]; [destruct (_ <? _); [|done]|]; by destruct (lister _).
Qed.

(** C13: the kill switch stops everything: once generation has been switched off, and
    until the generation section is written again, the gate refuses every feed at
    every time, whatever else is changed in the settings, whatever the tables hold
    and whatever the environment says. *)
Theorem kill_switch_stops_runs cfg getenv ToLower ip sc secretKey dflt dflt' s s1 s2 sql_sum recipe monthly now now2 feed d :
  SetGenerationEnabled dflt false s = (Ok false, s1) -> rtc (other_change cfg getenv ToLower ip sc secretKey dflt) s1 s2 ->
  Allowed sql_sum recipe (loadGenerationSettings dflt' (sys_rows s2)) monthly now now2 feed d = (false, "generation_disabled").
Proof.
  intros H Hs. assert (Hrow : exists g, row_generation (sys_rows s1) = Some (Readable g) /\ sg_Enabled g = false).
  { unfold SetGenerationEnabled in H. destruct (sysLoadGenerationTx dflt (sys_rows s)) as [g|]; [|done]. unfold update_generation in H.
    destruct (negb _); [done|]. injection H as <-. by eexists. }
  destruct Hrow as (g & Hrow & Hg).
  assert (Hrow2 : row_generation (sys_rows s2) = Some (Readable g)).
  { clear H. induction Hs as [|a b c Hab _ IH]; [done|]. apply IH. by rewrite (other_change_generation _ _ _ _ _ _ _ _ _ Hab). }
  unfold loadGenerationSettings. rewrite Hrow2. unfold Allowed. cbn. by rewrite Hg.
Qed.

Lemma kill_switch_stops_runs_witness :
  exists s1 s2, SetGenerationEnabled true false demo_system = (Ok false, s1) /\ s2 <> s1 /\
    Allowed (fun _ => f64_zero) (fun _ => None) (loadGenerationSettings true (sys_rows s2)) f64_zero t0 t0 1 d_feed = (false, "generation_disabled").
Proof.
  destruct (SetGenerationEnabled true false demo_system) as [[[]|] s1] eqn:E; try (vm_compute in E; discriminate E).
  pose (patch := MkPatch None None (Some (MkPublishing "https://example.com/" "" "" "" 60 "" ""))).
  pose (s2 := (UpdateSettings demo_cfg demo_env demo_ToLower (fun _ => None) (fun _ => true) "secret" true demo_nonce (Some patch) s1).2).
  exists s1, s2. split; [reflexivity|]. split; [vm_compute in E; injection E as <-; vm_compute; discriminate|].
  eapply (kill_switch_stops_runs demo_cfg demo_env demo_ToLower (fun _ => None) (fun _ => true) "secret" true); [exact E|].
  apply rtc_once. apply (oc_update _ _ _ _ _ _ _ demo_nonce patch). reflexivity.
Defined.

(** ** Behaviour to know of *)

(** Switching generation off and on again on a fresh installation leaves it without the
    daily ceilings it started with: the row that is written has none, and zero means
    no limit. *)
Example switching_drops_the_ceilings :
  let s1 := (SetGenerationEnabled true false demo_system).2 in
  let s2 := (SetGenerationEnabled true true s1).2 in
  loadGenerationSettings true no_rows = Some (MkGenSettings true 2000000 (f64_of_int 5)) /\
  loadGenerationSettings true (sys_rows s2) = Some (MkGenSettings true 0 f64_zero).
Proof. vm_compute. done. Qed.

(** The list of models is the one of the endpoint that was asked last, for ten minutes
    after another one has been made active. *)
Example models_of_another_endpoint :
  let old := MkModel "old" "" true false in
  let s := MkSystem (sys_rows (demo_update "key").2) NewTable None (Some ([old], t0)) in
  en_BaseURL (Resolver_Resolve demo_cfg demo_env demo_ToLower "secret" (sys_rows s)).1 = "https://shim.test/v1" /\
  (ListModels demo_cfg demo_env demo_ToLower "secret" (fun _ => Some [MkModel "new" "" true false]) (t0 + 9 * minute) (t0 + 9 * minute) s).1 = Models [old].
Proof. vm_compute. done. Qed.

(** A profile that names a variable of the application is shown as having a key, and
    calls with none. *)
Definition nosy : SettingsPatch :=
  MkPatch (Some (MkProvider "" "" "" false [] "" "shim" [MkProfile "shim" "https://shim.test" "AFF_SECRET_KEY" false "" false false] "" false false)) None None.
Example forbidden_variable_is_present :
  let r := UpdateSettings demo_cfg demo_env demo_ToLower (fun _ => None) (fun _ => true) "secret" true demo_nonce (Some nosy) demo_system in
  match r.1 with Ok st => pp_KeyPresent <$> sp_Profiles (se_Provider st) | Err _ => [] end = [true] /\
  en_APIKey (Resolver_Resolve demo_cfg demo_env demo_ToLower "secret" (sys_rows r.2)).1 = "".
Proof. vm_compute. done. Qed.
