(* ===== verification/SystemService.v ===== *)
(** * The system service

    The rest of internal/rpc/system.go and models.go over internal/store/system.go and
    the daily totals of internal/store/runs.go: the dashboard ([Stats]), the backup with
    its proof of identity, the audit trail and its pages, [Vacuum], and the cost history
    with one bucket per day. *)

From S2P Require Import Prelude GoTime GoStrings Utf8 Tables Timestamps Schema StoreItems StoreRuns StoreSamples StoreAuth Budget Wire Password Access AuthService Paging TimeRead RunService RunWatch Settings SettingsUse AuthFlows StoreHistory.
From Stdlib Require Import String Ascii.
From Stdlib Require Import Floats.SpecFloat.
Local Open Scope string_scope.
Local Open Scope Z_scope.
Local Abbreviation length := List.length.

Definition f64_sub : float64 -> float64 -> float64 := SFsub 53 1024.

Definition day_length : Z := 24 * hour.

(** ** The files of the database *)

(** What [os.Stat] says of a path. *)
Inductive file_stat := FileSize (n : Z) | NotExist | StatFails.

Fixpoint files_size (stat : string -> file_stat) (path : string) (suffixes : list string) (total : Z) : option Z :=
  match suffixes with
  | [] => Some total
  | suffix :: rest =>
      match stat (path ++ suffix) with
      | FileSize n => files_size stat path rest (total + n)
      | NotExist => files_size stat path rest total
      | StatFails => None
      end
  end.

Definition sysDBSizeBytes (stat : string -> file_stat) (path : string) : option Z := files_size stat path [""; "-wal"; "-shm"] 0.

(** ** The dashboard *)

Record StatsResponse := MkStats {
  ss_FeedCount : Z; ss_EnabledFeedCount : Z; ss_ItemCount : Z; ss_DbSizeBytes : Z; ss_TodaySpendUsd : float64; ss_TodayRemainingBudgetUsd : float64;
  ss_GenerationEnabled : bool }.

Definition remaining_budget (ceiling spent : float64) : float64 :=
  if f64_pos ceiling then let remaining := f64_sub ceiling spent in if f64_lt remaining f64_zero then f64_zero else remaining else f64_zero.

Section stats.
Context (sql_sum : list float64 -> float64) (defaultGenerationEnabled : bool).

(** The count of feeds is read into 32 bits. *)
Definition SystemService_Stats (stat : string -> file_stat) (path : string) (now : Z) (r : SettingsRows) (d : Content) : result sys_code StatsResponse :=
  let live := filter (fun f => f_deleted_at f = None) (feeds d) in
  let feedCount := Z.of_nat (length live) in
  if 2 ^ 31 <=? feedCount then Err Sys_Internal else
  let enabledFeedCount := Z.of_nat (length (filter (fun f => f_enabled f = true) live)) in
  let itemCount := Z.of_nat (length (filter (fun it => i_deleted_at it = None) (items d))) in
  match sysDBSizeBytes stat path with
  | None => Err Sys_Internal
  | Some dbSize =>
      let todayStart := truncate now day_length in
      let todaySpend := (TotalSpendSince sql_sum 0 todayStart d).2 in
      let? generation := sysLoadGeneration defaultGenerationEnabled r in
      Ok (MkStats feedCount (wrap32 enabledFeedCount) itemCount dbSize todaySpend
            (remaining_budget (sg_GlobalDailySpendCeilingUsd generation) todaySpend) (sg_Enabled generation))
  end.

End stats.

(** ** Backup *)

(** [snapshot] is the file [VACUUM INTO] writes of the database, if it can be written
    and read; [wired] tells whether the server was given a verifier. *)
Definition backup_name (now : Z) : string :=
  "animefeedflux-" ++ show_year (Year UTC now) (pad 2 (Month UTC now) (pad 2 (Day UTC now) (String "-" (pad 2 (Hour UTC now) (pad 2 (Minute UTC now) (pad 2 (Second UTC now) ".db")))))).

Definition Backup (cfg : config) (wired : bool) (snapshot : AuthDB -> option string) (clk : nat -> Z) (c : caller) (password code : string) (s : Server)
    : result sys_code (string * string) * Server :=
  if negb wired then (Err Sys_FailedPrecondition, s) else
  let ip := clientIP c in
  match verifyCurrentCredentials cfg (clk 1%nat) ip password code (clk 0%nat) s with
  | (Err _, s1) => (Err Sys_PermissionDenied, event (clk 2%nat) "backup" ip false "current credential check failed" s1)
  | (Ok _, s1) =>
      let s2 := event (clk 2%nat) "backup" ip true "" s1 in
      match snapshot (db s2) with
      | None => (Err Sys_Internal, s2)
      | Some data => (Ok (data, backup_name (clk 3%nat)), s2)
      end
  end.

(** ** The audit trail *)

Definition ListAuditEventsPage (beforeID lim : Z) (d : AuthDB) : result sys_code (list EventRow) :=
  if lim <=? 0 then Err Sys_Internal
  else Ok (take (Z.to_nat lim) (rev (filter (fun e => (if 0 <? beforeID then ev_id e <? beforeID else true) = true) (events d)))).

Definition sysAuditDefaultPageSize : Z := 50.
Definition sysAuditMaxPageSize : Z := 200.

Definition sysAuditEncodeCursor (id : Z) : string := url64_encode (show_int id).
Definition sysAuditDecodeCursor (token : string) : option Z := b ← url64_decode token; Atoi b.

Record AuditEvent := MkAudit { ae_Id : Z; ae_At : Z; ae_Kind : string; ae_Ip : string; ae_Ok : bool }.

Definition sysAuditEventToProto (e : EventRow) : AuditEvent := MkAudit (ev_id e) (ev_at e) (ev_kind e) (default "" (ev_ip e)) (ev_ok e).

(** The rows up to the look-ahead row, and the cursor if there is one. *)
Fixpoint audit_loop (left : nat) (previous : option EventRow) (rows : list EventRow) : list AuditEvent * string :=
  match rows with
  | [] => ([], "")
  | e :: rest =>
      match left with
      | O => ([], match previous with Some p => sysAuditEncodeCursor (ev_id p) | None => "" end)
      | S n => let '(out, tok) := audit_loop n (Some e) rest in (sysAuditEventToProto e :: out, tok)
      end
  end.

Definition ListAuditEvents (pageSize : Z) (token : string) (d : AuthDB) : result sys_code (list AuditEvent * string) :=
  let pageSize := page_size pageSize sysAuditDefaultPageSize sysAuditMaxPageSize in
  match (if is_empty token then Some 0 else sysAuditDecodeCursor token) with
  | None => Err Sys_InvalidArgument
  | Some beforeID =>
      let? rows := ListAuditEventsPage beforeID (pageSize + 1) d in
      Ok (audit_loop (Z.to_nat pageSize) None rows)
  end.

(** ** Vacuum *)

Definition RunInFlight (d : Content) : bool := bool_decide (filter (fun r => r_status r = Running) (runs d) <> []).

Record VacuumStats := MkVacuum { SizeBeforeBytes : Z; SizeAfterBytes : Z; Duration_ : Z }.

Definition dbFileSizeBytes (stat : string -> file_stat) (path : string) : option Z := files_size stat path [""; "-wal"; "-shm"] 0.

(** [before] and [after_] are the files around the [VACUUM], [vacuumed] whether it went
    through, [clk] the clock around it. *)
Definition Store_Vacuum (before : string -> file_stat) (vacuumed : bool) (after_ : string -> file_stat) (clk : nat -> Z) (path : string) : result sys_code VacuumStats :=
  match dbFileSizeBytes before path with
  | None => Err Sys_Internal
  | Some b =>
      if negb vacuumed then Err Sys_Internal else
      let elapsed := dur_sub (clk 1%nat) (clk 0%nat) in
      match dbFileSizeBytes after_ path with
      | None => Err Sys_Internal
      | Some a => Ok (MkVacuum b a elapsed)
      end
  end.

Definition Vacuum (before : string -> file_stat) (vacuumed : bool) (after_ : string -> file_stat) (clk : nat -> Z) (path : string) (d : Content) : result sys_code (Z * Z * Z) :=
  if RunInFlight d then Err Sys_FailedPrecondition else
  let? stats := Store_Vacuum before vacuumed after_ clk path in
  Ok (SizeBeforeBytes stats, SizeAfterBytes stats, Z.quot (Duration_ stats) 1000000).

(** ** The cost of each day *)

Record DailySpend := MkDaily { dy_Date : string; dy_CostUSD : float64; dy_Runs : Z; dy_TokensIn : Z; dy_TokensOut : Z }.

(** [substr(at, 1, 10)], and the day as [2006-01-02]. *)
Definition day_of (t : Z) : string := substring 0 10 (formatTime t).
Definition format_day (t : Z) : string := show_year (Year UTC t) (String "-" (pad 2 (Month UTC t) (String "-" (pad 2 (Day UTC t) "")))).

(** [GROUP BY day]. *)
Definition groups {R} (at_ : R -> Z) (rows : list R) : list (string * list R) :=
  (fun day => (day, filter (fun r => day_of (at_ r) = day) rows)) <$> remove_dups (day_of ∘ at_ <$> rows).

Section spend.
Context (sql_sum : list float64 -> float64).

Definition no_day (day : string) : DailySpend := MkDaily day f64_zero 0 0 0.

Definition run_day (g : string * list RunRow) : string * DailySpend :=
  (g.1, MkDaily g.1 (sum_real sql_sum r_est_cost_usd g.2) (Z.of_nat (length g.2)) (sum_int r_tokens_in g.2) (sum_int r_tokens_out g.2)).

Definition add_sample_day (into : gmap string DailySpend) (g : string * list SpendRow) : gmap string DailySpend :=
  let d := default (no_day "") (into !! g.1) in
  <[g.1 := MkDaily g.1 (f64_add (dy_CostUSD d) (sum_real sql_sum sp_cost_usd g.2)) (dy_Runs d)
             (dy_TokensIn d + sum_int sp_tokens_in g.2) (dy_TokensOut d + sum_int sp_tokens_out g.2)]> into.

Definition addSampleSpendByDay (since : Z) (d : Content) (into : gmap string DailySpend) : gmap string DailySpend :=
  fold_left add_sample_day (groups sp_at (filter (fun r => text_le since (sp_at r) = true) (spend d))) into.

(** The loop over the days. *)
Fixpoint fill_days (fuel : nat) (found : gmap string DailySpend) (day end_ : Z) : option (list DailySpend) :=
  match fuel with
  | O => None
  | S n =>
      if end_ <? day then Some []
      else let key := format_day day in
           option_map (cons (default (no_day key) (found !! key))) (fill_days n found (AddDate UTC day 0 0 1) end_)
  end.

Definition spend_found (since : Z) (d : Content) : gmap string DailySpend :=
  addSampleSpendByDay since d (list_to_map (run_day <$> groups r_started_at (filter (fun r => text_le since (r_started_at r) = true) (runs d)))).

(** [None] is a search that has run out of fuel; one turn for each day, and one to
    stop, are enough. *)
Definition SpendByDay (since now : Z) (d : Content) : option (list DailySpend) :=
  let day := truncate since day_length in
  let end_ := truncate now day_length in
  fill_days (S (Z.to_nat ((end_ - day) / day_length + 1))) (spend_found since d) day end_.

Definition costHistoryDefaultDays : Z := 30.
Definition costHistoryMaxDays : Z := 365.

Definition history_days (asked : Z) : Z :=
  if asked <=? 0 then costHistoryDefaultDays else if costHistoryMaxDays <? asked then costHistoryMaxDays else asked.

Definition history_since (asked now : Z) : Z := truncate (AddDate UTC now 0 0 (- (history_days asked - 1))) day_length.

(** [now] is the clock of the handler, [now2] that of the store.  A bucket carries the
    fields of a [DailySpend]. *)
Definition CostHistory (asked now now2 : Z) (d : Content) : option (list DailySpend * float64) :=
  daily ← SpendByDay (history_since asked now) now2 d;
  Some (daily, fold_left (fun total x => f64_add total (dy_CostUSD x)) daily f64_zero).

End spend.

(** ** Days *)

Definition today (t : Z) : Z := local_day UTC t.

Lemma today_div t : today t = t / day_length.
Proof. unfold today, local_day. rewrite wall_UTC. unfold unix, day_length, hour, minute, second. dlia. Qed.

Lemma truncate_day t : truncate t day_length = today t * day_length.
Proof. rewrite today_div. unfold truncate, zero_time, day_length, hour, minute, second. dlia. Qed.

Lemma today_start n : today (n * day_length) = n.
Proof. rewrite today_div. unfold day_length, hour, minute, second. dlia. Qed.

Lemma AddDate_UTC t k : AddDate UTC t 0 0 k = t + k * day_length.
Proof.
  unfold AddDate, Date. change UTC with (fixed_zone 0). rewrite resolve_fixed, days_of_civil_add, !Z.add_0_r, Z.sub_0_r.
  unfold Year, Month, Day. rewrite days_of_civil_of_day. unfold Hour, Minute, Second, local_day. rewrite wall_fixed, Z.add_0_r.
  unfold nsec, unix, day_length, hour, minute, second. dlia.
Qed.

Lemma string_tail c r s : String c r = String c s -> r = s.
Proof. by intros [= ->]. Qed.

Lemma format_day_inj a b : four_digit a -> four_digit b -> format_day a = format_day b -> today a = today b.
Proof.
  intros Ha Hb H. unfold format_day in H. rewrite !show_year_pad in H by done. pose proof (month_range a). pose proof (month_range b). pose proof (day_range a). pose proof (day_range b).
  apply pad_inj in H as [Hy H]; [|unfold four_digit in *; change (10 ^ Z.of_nat 4) with 10000; lia..]. apply string_tail in H.
  apply pad_inj in H as [Hm H]; [|change (10 ^ Z.of_nat 2) with 100; lia..]. apply string_tail in H.
  apply pad_inj in H as [Hd _]; [|change (10 ^ Z.of_nat 2) with 100; lia..].
  unfold today. rewrite <- (days_of_civil_of_day (local_day UTC a)), <- (days_of_civil_of_day (local_day UTC b)). unfold Year, Month, Day in *. by rewrite Hy, Hm, Hd.
Qed.

Lemma format_day_today a b : today a = today b -> format_day a = format_day b.
Proof. unfold today, format_day, Year, Month, Day. by intros ->. Qed.

Lemma four_digit_today a b : today a = today b -> four_digit a -> four_digit b.
Proof. unfold four_digit, today, Year. by intros ->. Qed.

Lemma day_of_format t : four_digit t -> day_of t = format_day t.
Proof.
  intros Ht. unfold day_of, formatTime, format_day. rewrite !show_year_pad by done. reflexivity.
Qed.

(** ** The loop over the days *)

(** What the chart shows of a day: the runs and previews counted since [since]. *)
Definition counted_runs (since : Z) (d : Content) : list RunRow := filter (fun r => text_le since (r_started_at r) = true) (runs d).
Definition counted_previews (since : Z) (d : Content) : list SpendRow := filter (fun r => text_le since (sp_at r) = true) (spend d).
Definition on_day {R} (at_ : R -> Z) (n : Z) (rows : list R) : list R := filter (fun r => today (at_ r) = n) rows.

Lemma fill_days_S n found day end_ :
  fill_days (S n) found day end_ =
  if end_ <? day then Some []
  else option_map (cons (default (no_day (format_day day)) (found !! format_day day))) (fill_days n found (AddDate UTC day 0 0 1) end_).
Proof. done. Qed.

Lemma fill_days_spec found n : forall a b, Z.of_nat n = Z.max 0 (b - a + 1) ->
  forall k, fill_days (S n + k) found (a * day_length) (b * day_length) =
  Some ((fun i => let key := format_day (i * day_length) in default (no_day key) (found !! key)) <$> seqZ a (b - a + 1)).
Proof.
  induction n as [|n IH]; intros a b Hn k.
  - rewrite seqZ_nil by lia. cbn [Nat.add]. rewrite fill_days_S. replace (_ <? _) with true; [done|]. symmetry. apply Z.ltb_lt. unfold day_length, hour, minute, second. lia.
  - rewrite seqZ_cons by lia. change (S (S n) + k)%nat with (S (S n + k)). rewrite fill_days_S. replace (_ <? _) with false; [|symmetry; apply Z.ltb_ge; unfold day_length, hour, minute, second; lia].
    rewrite AddDate_UTC. replace (a * day_length + 1 * day_length) with ((a + 1) * day_length) by lia. rewrite (IH (a + 1) b) by lia.
    cbn [option_map]. rewrite fmap_cons. replace (Z.pred (b - a + 1)) with (b - (a + 1) + 1) by lia. by replace (Z.succ a) with (a + 1) by lia.
Qed.

Lemma SpendByDay_days sql_sum since now d :
  SpendByDay sql_sum since now d =
  Some ((fun i => let key := format_day (i * day_length) in default (no_day key) (spend_found sql_sum since d !! key)) <$> seqZ (today since) (today now - today since + 1)).
Proof.
  unfold SpendByDay. cbv zeta. rewrite !truncate_day. set (a := today since). set (b := today now).
  replace ((b * day_length - a * day_length) / day_length + 1) with (b - a + 1).
  2: { rewrite <- Z.mul_sub_distr_r, Z.div_mul; [done|]. unfold day_length, hour, minute, second. lia. }
  rewrite <- (fill_days_spec _ (Z.to_nat (b - a + 1)) a b ltac:(lia) 0). f_equal. lia.
Qed.

(** ** The buckets *)

Lemma groups_NoDup {R} (at_ : R -> Z) rows : NoDup (groups at_ rows).*1.
Proof. unfold groups. rewrite <- list_fmap_compose. change (NoDup (id <$> remove_dups (day_of ∘ at_ <$> rows))). rewrite list_fmap_id. apply NoDup_remove_dups. Qed.

Lemma groups_elem {R} (at_ : R -> Z) rows day g :
  (day, g) ∈ groups at_ rows <-> g = filter (fun r => day_of (at_ r) = day) rows /\ g <> [].
Proof.
  unfold groups. rewrite list_elem_of_fmap. split.
  - intros (x & [= -> ->] & Hx). split; [done|]. apply elem_of_remove_dups, list_elem_of_fmap in Hx as (r & -> & Hr). intros E.
    apply (not_elem_of_nil r). rewrite <- E. by apply list_elem_of_filter.
  - intros [-> Hg]. exists day. split; [done|]. apply elem_of_remove_dups, list_elem_of_fmap.
    destruct (filter _ rows) as [|r l] eqn:E; [done|]. assert (Hr : r ∈ filter (fun r => day_of (at_ r) = day) rows) by (rewrite E; left).
    apply list_elem_of_filter in Hr as [Hr Hin]. by exists r.
Qed.

Section buckets.
Context (sql_sum : list float64 -> float64).

Lemma run_days_lookup rows day :
  default (no_day day) ((list_to_map (run_day sql_sum <$> groups r_started_at rows) : gmap string DailySpend) !! day) =
  (run_day sql_sum (day, filter (fun r => day_of (r_started_at r) = day) rows)).2.
Proof.
  assert (Hnd : NoDup (run_day sql_sum <$> groups r_started_at rows).*1).
  { rewrite <- list_fmap_compose. erewrite list_fmap_ext; [apply groups_NoDup|done]. }
  set (g := filter _ rows). destruct (decide (g = [])) as [E|E].
  - rewrite E. rewrite not_elem_of_list_to_map_1; [done|]. rewrite <- list_fmap_compose. intros (p & -> & Hp)%list_elem_of_fmap. destruct p as [x l].
    apply groups_elem in Hp as [-> Hp]. by apply Hp.
  - rewrite (elem_of_list_to_map_1 _ day (run_day sql_sum (day, g)).2 Hnd); [done|]. apply list_elem_of_fmap. exists (day, g). split; [done|]. by apply groups_elem.
Qed.

Lemma add_samples_lookup (gs : list (string * list SpendRow)) : NoDup gs.*1 -> forall into day,
  fold_left (add_sample_day sql_sum) gs into !! day =
  match list_find (fun g => g.1 = day) gs with Some (_, g) => add_sample_day sql_sum into g !! day | None => into !! day end.
Proof.
  induction gs as [|g gs IH]; intros Hnd into day; [done|]. rewrite fmap_cons in Hnd. apply NoDup_cons in Hnd as [Hg Hnd]. cbn [fold_left list_find].
  rewrite (IH Hnd). destruct (decide (g.1 = day)) as [<-|Hne].
  - destruct (list_find _ gs) as [[i h]|] eqn:E; [|done]. exfalso. apply list_find_Some in E as (Hh & Hd & _). apply Hg. rewrite <- Hd.
    apply list_elem_of_fmap. exists h. split; [done|]. by eapply list_elem_of_lookup_2.
  - destruct (list_find _ gs) as [[i h]|] eqn:E; cbn [fmap option_fmap option_map prod_map fst snd id].
    + apply list_find_Some in E as (_ & Hd & _). unfold add_sample_day. rewrite !Hd. rewrite !lookup_insert_eq. rewrite (lookup_insert_ne into g.1 day) by done. done.
    + unfold add_sample_day. by rewrite lookup_insert_ne.
Qed.

(** The bucket of a day, whatever else there is. *)
Lemma bucket_of since d key :
  let b := default (no_day key) (spend_found sql_sum since d !! key) in
  let rs := filter (fun r => day_of (r_started_at r) = key) (counted_runs since d) in
  let ps := filter (fun r => day_of (sp_at r) = key) (counted_previews since d) in
  dy_Date b = key /\ dy_Runs b = Z.of_nat (length rs) /\
  dy_TokensIn b = sum_int r_tokens_in rs + sum_int sp_tokens_in ps /\ dy_TokensOut b = sum_int r_tokens_out rs + sum_int sp_tokens_out ps /\
  dy_CostUSD b = match ps with [] => sum_real sql_sum r_est_cost_usd rs | _ => f64_add (sum_real sql_sum r_est_cost_usd rs) (sum_real sql_sum sp_cost_usd ps) end.
Proof.
  cbv zeta. unfold spend_found, addSampleSpendByDay. fold (counted_runs since d). fold (counted_previews since d).
  set (into := list_to_map _). pose proof (run_days_lookup (counted_runs since d) key) as Hrun. fold into in Hrun. cbn [run_day fst snd] in Hrun.
  set (rs := filter _ (counted_runs since d)) in *. set (ps := filter _ (counted_previews since d)).
  rewrite add_samples_lookup by apply groups_NoDup. destruct (list_find _ _) as [[i [x g]]|] eqn:E.
  - apply list_find_Some in E as (Hg & Hx & _). cbn [fst] in Hx. subst x. apply list_elem_of_lookup_2, groups_elem in Hg as [-> Hg]. fold ps in Hg |- *.
    unfold add_sample_day. cbn [fst snd]. rewrite lookup_insert_eq. cbn [default dy_Date dy_Runs dy_TokensIn dy_TokensOut dy_CostUSD].
    destruct (into !! key) as [b|]; cbn [default id from_option no_day dy_Date dy_Runs dy_TokensIn dy_TokensOut dy_CostUSD] in *.
    + subst b. cbn. split_and!; try done. by destruct ps.
    + injection Hrun as H1 H2 H3 H4. rewrite <- H1, <- H2, <- H3, <- H4. split_and!; try done. by destruct ps.
  - assert (Hps : ps = []).
    { destruct ps as [|p l] eqn:Ep; [done|exfalso]. apply list_find_None in E. rewrite Forall_forall in E.
      apply (E (key, ps)); [|done]. apply groups_elem. rewrite Ep. split; [by rewrite <- Ep|done]. }
    rewrite Hps. rewrite Hrun. cbn. split_and!; try done; lia.
Qed.

End buckets.

(** ** The days together *)

Lemma zsum_map_add {A} (f g : A -> Z) (l : list A) : zsum ((fun x => f x + g x) <$> l) = zsum (f <$> l) + zsum (g <$> l).
Proof. induction l as [|x l IH]; [done|]. rewrite !fmap_cons, !zsum_cons, IH. lia. Qed.

Lemma zsum_one k c a n : zsum ((fun i => if decide (k = i) then c else 0) <$> seqZ a n) = if decide (a <= k < a + n) then c else 0.
Proof.
  destruct (decide (n < 0)); [rewrite seqZ_nil by lia; case_decide; [lia|done]|]. assert (Hn : 0 <= n) by lia. revert a. pattern n. apply natlike_ind; [|clear n n0 Hn; intros n Hn IH a|done].
  - intros a. cbn. case_decide; [lia|done].
  - rewrite seqZ_cons by lia. rewrite Z.pred_succ, fmap_cons, zsum_cons, IH. repeat case_decide; lia.
Qed.

Lemma sum_by_day {R} (at_ : R -> Z) (f : R -> Z) rows a n :
  Forall (fun r => a <= today (at_ r) < a + n) rows -> zsum ((fun i => sum_int f (on_day at_ i rows)) <$> seqZ a n) = sum_int f rows.
Proof.
  induction 1 as [|r rows Hr _ IH].
  - unfold sum_int, on_day. cbn [filter list_filter]. cbn. induction (seqZ a n) as [|x l IH]; [done|]. by rewrite fmap_cons, zsum_cons, IH.
  - assert (E : (fun i => sum_int f (on_day at_ i (r :: rows))) <$> seqZ a n = (fun i => (if decide (today (at_ r) = i) then f r else 0) + sum_int f (on_day at_ i rows)) <$> seqZ a n).
    { apply list_fmap_ext. intros _ i _. unfold on_day. rewrite filter_cons. unfold sum_int. by case_decide. }
    rewrite E, zsum_map_add, IH, zsum_one. unfold sum_int at 2. rewrite fmap_cons, zsum_cons. by rewrite decide_True.
Qed.

Lemma sum_int_length {R} (l : list R) : sum_int (fun _ => 1) l = Z.of_nat (length l).
Proof. unfold sum_int. induction l as [|x l IH]; [done|]. rewrite fmap_cons, zsum_cons, IH. cbn [List.length]. lia. Qed.

(** No run and no preview is stamped after today. *)
Definition stamped_by (now : Z) (d : Content) : Prop :=
  Forall (fun r => four_digit (r_started_at r) /\ today (r_started_at r) <= today now) (runs d) /\
  Forall (fun r => four_digit (sp_at r) /\ today (sp_at r) <= today now) (spend d).

Lemma counted_range {R} (at_ : R -> Z) since now rows :
  four_digit since -> since = today since * day_length -> Forall (fun r => four_digit (at_ r) /\ today (at_ r) <= today now) rows ->
  Forall (fun r => four_digit (at_ r) /\ today since <= today (at_ r) < today since + (today now - today since + 1)) (filter (fun r => text_le since (at_ r) = true) rows).
Proof.
  intros Hs Ew Hall. apply Forall_forall. intros r [Ht Hr]%list_elem_of_filter. rewrite Forall_forall in Hall. destruct (Hall r Hr) as [H4 Hle]. split; [done|].
  apply text_ge_whole in Ht; [|done..|]. 2: { rewrite Ew. unfold nsec, day_length, hour, minute. rewrite Z.mul_assoc. replace (_ * _) with (today since * 86400 * second) by (unfold second; lia). apply Z.mod_mul. done. }
  split; [|lia]. rewrite !today_div. apply Z.div_le_mono; [unfold day_length, hour, minute, second; lia|].
  destruct Ht as [Ht| ->]; [|done]. unfold unix, second in Ht. rewrite Ew in *. dlia.
Qed.

Lemma four_digit_between a b n : four_digit a -> four_digit b -> today a <= n <= today b -> four_digit (n * day_length).
Proof.
  unfold four_digit, Year. fold (today a) (today b) (today (n * day_length)). rewrite today_start. intros Ha Hb [H1 H2].
  pose proof (civil_mono _ _ H1) as [? _]. pose proof (civil_mono _ _ H2) as [? _]. lia.
Qed.

Lemma on_day_text {R} (at_ : R -> Z) n rows :
  Forall (fun r => four_digit (at_ r)) rows -> four_digit (n * day_length) ->
  filter (fun r => day_of (at_ r) = format_day (n * day_length)) rows = on_day at_ n rows.
Proof.
  intros Hall Hn. induction Hall as [|r rows Hr _ IH]; [done|]. unfold on_day in *. rewrite !filter_cons, IH.
  assert (Hiff : day_of (at_ r) = format_day (n * day_length) <-> today (at_ r) = n).
  { rewrite (day_of_format _ Hr). split; [intros H%format_day_inj; [|done..]; by rewrite today_start in H|]. intros <-. apply format_day_today. by rewrite today_start. }
  repeat case_decide; tauto.
Qed.

Lemma history_since_day asked now : today (history_since asked now) = today now - history_days asked + 1 /\ history_since asked now = today (history_since asked now) * day_length.
Proof.
  unfold history_since. rewrite truncate_day, today_start, AddDate_UTC. split; [|done]. rewrite !today_div, Z.div_add; [lia|]. unfold day_length, hour, minute, second. lia.
Qed.

Lemma history_days_range asked : 1 <= history_days asked <= 365.
Proof. unfold history_days, costHistoryDefaultDays, costHistoryMaxDays. destruct (Z.leb_spec asked 0); [lia|]. destruct (Z.ltb_spec 365 asked); lia. Qed.

Lemma sum_int_zero {R} (l : list R) : sum_int (fun _ => 0) l = 0.
Proof. unfold sum_int. induction l as [|x l IH]; [done|]. by rewrite fmap_cons, zsum_cons, IH. Qed.

Section window.
Context (sql_sum : list float64 -> float64) (since now : Z) (d : Content).
Context (Hs : four_digit since) (Hw : since = today since * day_length) (Hn : four_digit now) (Hd : stamped_by now d).

Definition bucket (n : Z) : DailySpend := let key := format_day (n * day_length) in default (no_day key) (spend_found sql_sum since d !! key).
Definition window : Z := today now - today since + 1.
Definition day_runs (n : Z) : list RunRow := on_day r_started_at n (counted_runs since d).
Definition day_previews (n : Z) : list SpendRow := on_day sp_at n (counted_previews since d).

Lemma SpendByDay_window : SpendByDay sql_sum since now d = Some (bucket <$> seqZ (today since) window).
Proof. apply SpendByDay_days. Qed.

Lemma runs_in_window : Forall (fun r => four_digit (r_started_at r) /\ today since <= today (r_started_at r) < today since + window) (counted_runs since d).
Proof. destruct Hd. by apply counted_range. Qed.

Lemma previews_in_window : Forall (fun r => four_digit (sp_at r) /\ today since <= today (sp_at r) < today since + window) (counted_previews since d).
Proof. destruct Hd. by apply counted_range. Qed.

Lemma bucket_on_day n : today since <= n < today since + window ->
  dy_Date (bucket n) = format_day (n * day_length) /\ dy_Runs (bucket n) = Z.of_nat (length (day_runs n)) /\
  dy_TokensIn (bucket n) = sum_int r_tokens_in (day_runs n) + sum_int sp_tokens_in (day_previews n) /\
  dy_TokensOut (bucket n) = sum_int r_tokens_out (day_runs n) + sum_int sp_tokens_out (day_previews n).
Proof.
  intros Hrange. assert (H4 : four_digit (n * day_length)) by (apply (four_digit_between since now); unfold window in *; [done..|lia]).
  unfold day_runs, day_previews. rewrite <- (on_day_text r_started_at n), <- (on_day_text sp_at n); try done;
    [|eapply Forall_impl; [exact previews_in_window|by intros ? [? _]]|eapply Forall_impl; [exact runs_in_window|by intros ? [? _]]].
  pose proof (bucket_of sql_sum since d (format_day (n * day_length))) as (? & ? & ? & ? & _). done.
Qed.

Lemma buckets_sum (col : DailySpend -> Z) (f : RunRow -> Z) (g : SpendRow -> Z) :
  (forall n, today since <= n < today since + window -> col (bucket n) = sum_int f (day_runs n) + sum_int g (day_previews n)) ->
  zsum (col <$> (bucket <$> seqZ (today since) window)) = sum_int f (counted_runs since d) + sum_int g (counted_previews since d).
Proof.
  intros H. rewrite <- (sum_by_day r_started_at f _ (today since) window), <- (sum_by_day sp_at g _ (today since) window), <- zsum_map_add.
  - rewrite <- list_fmap_compose. f_equal. apply list_fmap_ext. intros i x Hx. apply H. apply lookup_seqZ in Hx. lia.
  - eapply Forall_impl; [exact previews_in_window|by intros ? [_ ?]].
  - eapply Forall_impl; [exact runs_in_window|by intros ? [_ ?]].
Qed.

Lemma total_tokens :
  (TotalSpendSince sql_sum 0 since d).1.1 = sum_int r_tokens_in (counted_runs since d) + sum_int sp_tokens_in (counted_previews since d) /\
  (TotalSpendSince sql_sum 0 since d).1.2 = sum_int r_tokens_out (counted_runs since d) + sum_int sp_tokens_out (counted_previews since d).
Proof.
  unfold TotalSpendSince, SpendSince, SampleSpendSince, counted_runs, counted_previews. cbn [fst snd]. unfold in_feed. cbn [Z.eqb orb].
  split; f_equal; f_equal; apply list_filter_iff; intros x; by rewrite andb_true_r.
Qed.

End window.


(** ** The audit trail *)

Definition newer_event (a b : EventRow) : bool := ev_id b <? ev_id a.
Definition event_token (e : EventRow) : string := sysAuditEncodeCursor (ev_id e).
Definition audit_size (asked : Z) : nat := Z.to_nat (page_size asked sysAuditDefaultPageSize sysAuditMaxPageSize).
Definition fetch_audit (asked : Z) (d : AuthDB) (tok : string) : option (list AuditEvent * string) :=
  match ListAuditEvents asked tok d with Ok p => Some p | Err _ => None end.

(** Only [RecordAuthEvent] writes the table, and it only appends. *)
Lemma auth_step_events d l d' : auth_step d l d' -> exists new, events d' = (events d ++ new)%list /\ (table_ok (events d) -> table_ok (events d')).
Proof.
  assert (Hsame : forall d2, events d2 = events d -> exists new, events d2 = (events d ++ new)%list /\ (table_ok (events d) -> table_ok (events d2))).
  { intros d2 ->. exists []. by rewrite app_nil_r. }
  intros H. destruct H as [now h k d' H|now h k d' H|now h k p d' H|e d' H|now s h d' H|hs d' H|now i d' H|s id d' H|id t d' H|now id d' H|now|id s d' H|now n d' H|h e d' H|h now nh k p d' H|now k ip ok det].
  all: try (unfold InitAdmin, UpdatePassword, UpdatePasswordAndPepper, SetTOTPSecret, update_admin, MarkTOTPStepUsed, UseRecoveryCode, CreateSession, TouchSession, StoreAuth.RevokeSession, SetSessionScope, PurgeExpiredSessions, CreatePasswordResetToken, StoreAuth.CompletePasswordReset, update_session in H; cbv zeta in H; repeat case_match; simplify_eq; by apply Hsame).
  - unfold StoreRecoveryCodes in H. apply rbind_Ok in H as (t & _ & [= <-]). by apply Hsame.
  - by apply Hsame.
  - eexists. split; [done|]. intros Hok. by apply table_ok_insert.
Qed.

Lemma audit_history P d d' : auth_history P d d' -> table_ok (events d) -> table_ok (events d') /\ exists new, events d' = (events d ++ new)%list.
Proof.
  induction 1 as [d|d1 d2 d3 (l & _ & Hs) _ IH]; intros Hok; [split; [done|exists []; by rewrite app_nil_r]|].
  destruct (auth_step_events _ _ _ Hs) as (n1 & E1 & K1). destruct (IH (K1 Hok)) as (K2 & n2 & E2). split; [done|]. exists (n1 ++ n2)%list. by rewrite E2, E1, app_assoc.
Qed.

Lemma audit_loop_page k rows previous :
  (0 < k)%nat -> audit_loop k previous (take (k + 1) rows) = (sysAuditEventToProto <$> (page k rows).1, token_for event_token (page k rows).2).
Proof.
  revert rows previous. induction k as [|k IH]; intros rows previous Hk; [lia|]. destruct rows as [|e rows]; [done|]. cbn [Nat.add take audit_loop].
  destruct k as [|k].
  - destruct rows as [|e2 rows]; [done|]. done.
  - rewrite IH by lia. unfold page. cbn [length]. destruct (Nat.ltb_spec (S k) (length rows)) as [Hlt|Hge].
    + rewrite (proj2 (Nat.ltb_lt (S (S k)) (S (length rows)))) by lia. cbn [fst snd]. f_equal. f_equal. change (take (S (S k)) (e :: rows)) with (e :: take (S k) rows). rewrite last_cons.
      destruct (last (take (S k) rows)) eqn:E; [done|]. apply last_None in E. destruct rows; [cbn in Hlt; lia|done].
    + rewrite (proj2 (Nat.ltb_ge (S (S k)) (S (length rows)))) by lia. done.
Qed.

Definition event_ids_fit (d : AuthDB) : Prop := Forall (fun e => ev_id e < 2 ^ 63) (events d).

Lemma events_bounded d e : table_ok (events d) -> event_ids_fit d -> e ∈ events d -> 0 < ev_id e < 2 ^ 63.
Proof.
  intros [_ Hp] Hf He. unfold event_ids_fit in Hf. rewrite Forall_forall in Hp, Hf. specialize (Hp e He). specialize (Hf e He). cbv [row_id row_event] in Hp. lia.
Qed.

Lemma audit_page asked d cur :
  table_ok (events d) -> event_ids_fit d -> (forall x, cur = Some x -> x ∈ events d) ->
  let p := page (audit_size asked) (after newer_event cur (rev (events d))) in
  fetch_audit asked d (token_for event_token cur) = Some (sysAuditEventToProto <$> p.1, token_for event_token p.2).
Proof.
  intros Hd Hf Hcur. cbv zeta. unfold fetch_audit, ListAuditEvents. cbv zeta. fold (audit_size asked).
  assert (Hpos : (0 < audit_size asked)%nat) by (by apply page_size_pos).
  set (cursor := if is_empty _ then _ else _).
  assert (Hc : cursor = Some (default 0 (ev_id <$> cur))).
  { subst cursor. destruct cur as [x|]; [|done]. cbn [token_for]. pose proof (events_bounded d x Hd Hf (Hcur x eq_refl)).
    destruct (run_cursor_roundtrip (ev_id x) ltac:(lia)) as [E1 E2]. unfold event_token, sysAuditEncodeCursor, sysAuditDecodeCursor. unfold runEncodeCursor in E1, E2. unfold runDecodeCursor in E2. by rewrite E1, E2. }
  rewrite Hc. unfold ListAuditEventsPage. replace (_ <=? 0) with false by (symmetry; apply Z.leb_gt; unfold audit_size in Hpos; lia). cbn [rbind].
  assert (Hrest : rev (filter (fun e => (if 0 <? default 0 (ev_id <$> cur) then ev_id e <? default 0 (ev_id <$> cur) else true) = true) (events d)) = after newer_event cur (rev (events d))).
  { destruct cur as [x|].
    - change (default 0 (ev_id <$> Some x)) with (ev_id x). cbn [after]. pose proof (events_bounded d x Hd Hf (Hcur x eq_refl)). rewrite filter_rev. f_equal. apply list_filter_iff. intros e. unfold newer_event. rewrite (proj2 (Z.ltb_lt 0 (ev_id x))) by lia. done.
    - cbn [after]. f_equal. clear. induction (events d) as [|e l IH]; [done|]. rewrite filter_cons. cbn. f_equal. exact IH. }
  rewrite Hrest. replace (Z.to_nat (_ + 1)) with (audit_size asked + 1)%nat by (unfold audit_size in *; lia). by rewrite audit_loop_page.
Qed.

(** The trail only grows, and following the tokens shows every event once, the newest
    first. *)
Theorem audit_trail_complete asked P d d' :
  auth_history P d d' -> table_ok (events d) -> event_ids_fit d' ->
  (exists new, events d' = (events d ++ new)%list) /\
  exists ps, follow (fetch_audit asked d') (S (length (events d'))) "" = Some ((fun p => sysAuditEventToProto <$> p) <$> ps) /\
    mjoin ps = rev (events d') /\ Forall (fun p => (length p <= audit_size asked)%nat) ps.
Proof.
  intros Hh Hok Hf. destruct (audit_history _ _ _ Hh Hok) as [Hd Hnew]. split; [done|].
  assert (Hin : forall x, x ∈ rev (events d') -> x ∈ events d') by (intros x Hx; by apply list_elem_of_In, in_rev, list_elem_of_In in Hx).
  apply (follow_all newer_event ltac:(intros a b c; unfold newer_event; rewrite !Z.ltb_lt; lia) ltac:(intros a; apply Z.ltb_irrefl) event_token).
  - by apply page_size_pos.
  - rewrite length_rev. lia.
  - destruct Hd as [Hs _]. unfold ids in Hs. unfold sorted. clear -Hs. induction (events d') as [|r l IH]; [constructor|].
    rewrite fmap_cons in Hs. apply StronglySorted_inv in Hs as [Hs Hall]. cbn [rev]. apply StronglySorted_app_2; [|by apply IH|by repeat constructor].
    intros x y Hx ->%list_elem_of_singleton. apply list_elem_of_In, in_rev, list_elem_of_In in Hx. unfold newer_event. apply Z.ltb_lt.
    rewrite Forall_forall in Hall. apply (Hall (ev_id x)). exact (list_elem_of_fmap_2 row_id _ _ Hx).
  - intros x Hx%Hin. pose proof (events_bounded d' x Hd Hf Hx). by apply run_cursor_roundtrip; lia.
  - intros cur Hcur. rewrite audit_page by auto. done.
Qed.

(** ** Backup *)

Lemma verifyCurrentCredentials_events cfg clk ip password code now s : events (db (verifyCurrentCredentials cfg clk ip password code now s).2) = events (db s).
Proof.
  unfold verifyCurrentCredentials. destruct (throttled ip now s); [done|]. destruct (GetAdmin (db s)) as [a|]; [|done]. destruct (verifyPassword _ _ _ _) as [[[] ?]|]; try done.
  pose proof (verifyTOTPCode_frame cfg clk code now s) as (_ & _ & _ & _ & He & _). destruct (verifyTOTPCode cfg clk code now s) as [[[]|] s1]; done.
Qed.

(** The newest event is the first one shown. *)
Lemma newest_event_first asked clk kind ip ok detail s :
  exists rest tok, ListAuditEvents asked "" (db (event clk kind ip ok detail s)) =
    Ok (sysAuditEventToProto (MkEvent (next_id (events (db s))) clk kind (nullString ip) ok (nullString detail)) :: rest, tok).
Proof.
  unfold ListAuditEvents. cbv zeta. cbn [is_empty]. unfold ListAuditEventsPage. pose proof (page_size_pos asked sysAuditDefaultPageSize sysAuditMaxPageSize eq_refl eq_refl) as Hp.
  set (k := page_size _ _ _) in *. replace (k + 1 <=? 0) with false by (symmetry; apply Z.leb_gt; lia). cbn [rbind Z.ltb]. cbn [event set_db db RecordAuthEvent set_events events].
  change (is_empty "") with true. cbv iota beta. rewrite filter_app, rev_app_distr, filter_cons. cbn [Z.ltb Z.compare]. rewrite decide_True by done. cbn [filter list_filter rev List.app].
  replace (Z.to_nat (k + 1)) with (S (Z.to_nat k)) by lia. destruct (Z.to_nat k) as [|n]; [lia|]. cbn [take audit_loop].
  destruct (audit_loop n _ _) as [out tok]. by exists out, tok.
Qed.


(** ** The dashboard *)

Lemma midnight_truncate now : midnightUTC now = truncate now day_length.
Proof.
  rewrite truncate_day. unfold midnightUTC, today, Year, Month, Day. change UTC with (fixed_zone 0). rewrite Date_fixed, days_of_civil_of_day.
  unfold day_length, hour, minute, second. lia.
Qed.

Lemma f64_lt_add_zero c x : f64_lt c (f64_add x f64_zero) = f64_lt c x.
Proof. unfold f64_lt, f64_add, SFltb. destruct x as [[]|[]| |? ? ?]; try done; by destruct c as [[]|[]| |[] ? ?]. Qed.

(** The dashboard and the gate look at the same numbers: what is shown as spent today
    is what the gate compares with the ceiling, and a run is let through only while
    generation is shown as enabled and the spend shown is not over the ceiling. *)
Theorem dashboard_agrees_with_gate sql_sum dflt stat path now r d st :
  SystemService_Stats sql_sum dflt stat path now r d = Ok st ->
  ss_TodaySpendUsd st = (TotalSpendSince sql_sum 0 (midnightUTC now) d).2 /\
  exists gs, loadGenerationSettings dflt r = Some gs /\ ss_GenerationEnabled st = gs_Enabled gs /\
    ss_TodayRemainingBudgetUsd st = remaining_budget (GlobalDailySpendCeilingUsd gs) (ss_TodaySpendUsd st) /\
    forall recipe monthly now' feed reason, Allowed sql_sum recipe (Some gs) monthly now' now feed d = (true, reason) ->
      ss_GenerationEnabled st = true /\
      (f64_pos (GlobalDailySpendCeilingUsd gs) = true -> f64_lt (GlobalDailySpendCeilingUsd gs) (ss_TodaySpendUsd st) = false).
Proof.
  unfold SystemService_Stats. cbv zeta. destruct (_ <=? _); [done|]. destruct (sysDBSizeBytes stat path); [|done]. rewrite readers_agree.
  destruct (sysLoadGeneration dflt r) as [g|]; [|done]. cbn [rbind]. intros [= <-]. cbn [ss_TodaySpendUsd ss_GenerationEnabled ss_TodayRemainingBudgetUsd]. rewrite midnight_truncate.
  split; [done|]. eexists. split; [done|]. cbn [gs_Enabled GlobalDailySpendCeilingUsd]. split; [done|]. split; [done|].
  intros recipe monthly now' feed reason H. unfold Allowed in H. cbn [gs_Enabled GlobalDailySpendCeilingUsd GlobalDailyTokenCeiling] in H.
  destruct (sg_Enabled g); [|done]. split; [done|]. intros Hpos. apply not_true_is_false. intros E. cbn [negb] in H. destruct (loadFeedRow feed d) as [row|]; [|done].
  destruct (negb (f_enabled row)); [done|]. destruct (recipe row) as [fs|]; [|done]. cbv zeta in H. unfold CheckRequest in H. cbn [GlobalDailyUSD rqb_USD sd_USD spend_of] in H.
  rewrite f64_lt_add_zero, midnight_truncate, Hpos in H. change (f64_lt _ _ = true) with (f64_lt (sg_GlobalDailySpendCeilingUsd g) (TotalSpendSince sql_sum 0 (truncate now day_length) d).2 = true) in E.
  cbn [sd_USD] in H. rewrite E in H.
  destruct (_ && _) in H; [done|]. destruct (_ && _) in H; [done|]. by destruct (_ && _) in H.
Qed.

(** ** Instances *)


(** The right password and a fresh code get the file, and a second try with the same
    code does not; both are in the trail. *)
Definition demo_backup (s : Server) : result sys_code (string * string) * Server :=
  Backup demo_cfg true (fun _ => Some "file") (fun _ => 150 * second) demo_caller demo_passphrase "5" s.
Example backup_once :
  (demo_backup logged_in).1 = Ok ("file", "animefeedflux-19700101-000230.db") /\ (demo_backup (demo_backup logged_in).2).1 = Err Sys_PermissionDenied /\
  option_map (fun p => (map ae_Kind p.1, map ae_Ok p.1)) (fetch_audit 2 (db (demo_backup (demo_backup logged_in).2).2) "") = Some (["backup"; "backup"], [false; true]).
Proof. vm_compute. done. Qed.

(** A database with a run in progress is not compacted. *)
Example vacuum_waits : let files n := fun path => if String.eqb path "/aff.db" then FileSize n else NotExist in
  Vacuum (files 4096) true (files 1024) (fun _ => t0) "/aff.db" d_run = Err Sys_FailedPrecondition /\
  Vacuum (files 4096) true (files 1024) (fun n => t0 + Z.of_nat n * second) "/aff.db" d_done = Ok (4096, 1024, 1000).
Proof. vm_compute. done. Qed.
