(* ===== verification/SampleService.v ===== *)
(** * The sample service

    internal/rpc/sample.go with the parts of cmd/animefeedflux/wire.go it is given: a
    dry run of a recipe, with an unsaved draft over it, through the same pipeline as a
    run; the candidates as they would be published; the streamed form; the list of
    previews and their removal. *)

From S2P Require Import Prelude GoTime GoStrings Utf8 Tables Timestamps Schema StoreItems StoreRuns StoreSamples StoreHistory Generate Pipeline Budget FeedSpec Contract Xml Render Wire Password ItemService Settings SystemService.
From Stdlib Require Import String Ascii.
From Stdlib Require Import Floats.SpecFloat.
Local Open Scope string_scope.
Local Open Scope Z_scope.
Local Abbreviation length := List.length.

Inductive smp_code := Smp_InvalidArgument | Smp_NotFound | Smp_FailedPrecondition | Smp_Unavailable | Smp_Internal.

(** ** The draft *)

Record SampleDraft := MkDraft { dr_SystemPrompt : string; dr_UserPrompt : string; dr_Model : string; dr_Effort : string }.

Definition smpValidEfforts : list string := ["smart"; "fast"; "quick"].

Definition with_prompts (system user : string) (s : Spec) : Spec :=
  MkSpec system user (sp_Model s) (Temperature s) (Effort s) (ItemsPerRun s) (RecentTitlesN s) (MaxCandidates s) (MaxNoveltyRetries s)
    (PriceInputPerMToken s) (PriceOutputPerMToken s) (sp_Trigger s) (WatchMode s) (WebSearch s).
Definition with_model (model : string) (pin pout : float64) (s : Spec) : Spec :=
  MkSpec (SystemPrompt s) (UserPromptTemplate s) model (Temperature s) (Effort s) (ItemsPerRun s) (RecentTitlesN s) (MaxCandidates s) (MaxNoveltyRetries s)
    pin pout (sp_Trigger s) (WatchMode s) (WebSearch s).
Definition with_effort (effort : string) (s : Spec) : Spec :=
  MkSpec (SystemPrompt s) (UserPromptTemplate s) (sp_Model s) (Temperature s) effort (ItemsPerRun s) (RecentTitlesN s) (MaxCandidates s) (MaxNoveltyRetries s)
    (PriceInputPerMToken s) (PriceOutputPerMToken s) (sp_Trigger s) (WatchMode s) (WebSearch s).
Definition with_size (n : Z) (s : Spec) : Spec :=
  MkSpec (SystemPrompt s) (UserPromptTemplate s) (sp_Model s) (Temperature s) (Effort s) n (RecentTitlesN s) (MaxCandidates s) (MaxNoveltyRetries s)
    (PriceInputPerMToken s) (PriceOutputPerMToken s) "" (WatchMode s) (WebSearch s).

(** A field of the draft that is not blank. *)
Definition over (v saved : string) : string := if is_empty v then saved else v.

(** A model of the draft's own, at its own price. *)
Definition draft_model (prices : PriceTable) (model : string) (s : Spec) : Spec :=
  if negb (is_empty model) && negb (String.eqb model (sp_Model s))
  then match Table_Lookup model prices with
       | Some p => with_model model (InputPerMTok p) (OutputPerMTok p) s
       | None => with_model model f64_zero f64_zero s
       end
  else s.

(** [template_ok] is [generate.ValidateTemplate]. *)
Definition smpApplyDraft (template_ok : string -> bool) (prices : PriceTable) (draft : option SampleDraft) (s : Spec) : result smp_code Spec :=
  match draft with
  | None => Ok s
  | Some dr =>
      let s := with_prompts (over (dr_SystemPrompt dr) (SystemPrompt s)) (over (dr_UserPrompt dr) (UserPromptTemplate s)) s in
      let s := draft_model prices (dr_Model dr) s in
      if negb (is_empty (dr_Effort dr)) && negb (member (dr_Effort dr) smpValidEfforts) then Err Smp_InvalidArgument else
      let s := with_effort (over (dr_Effort dr) (Effort s)) s in
      if negb (template_ok (SystemPrompt s)) then Err Smp_InvalidArgument
      else if negb (template_ok (UserPromptTemplate s)) then Err Smp_InvalidArgument else Ok s
  end.

(** ** Sizes and estimates *)

Definition smpEstimatedOutputTokensPerItem : Z := 400.

Definition smpProjectedTokens (s : Spec) : Z :=
  let base := EstimateRequest (UserPromptTemplate s) (SystemPrompt s) in
  let items := if ItemsPerRun s <=? 0 then 1 else ItemsPerRun s in
  (base + items * smpEstimatedOutputTokensPerItem) * 2.

Definition smpValidateSampleSize (n : Z) : result smp_code Z :=
  if n =? 0 then Ok 1 else if (n <? 1) || (5 <? n) then Err Smp_InvalidArgument else Ok n.

(** Each candidate's share of the tokens, and what is left over. *)
Definition smpSplitTokens (tokensIn tokensOut n : Z) : (Z * Z) * Z * Z :=
  if n <=? 0 then ((0, 0), 0, 0) else ((Z.quot tokensIn n, Z.quot tokensOut n), Z.rem tokensIn n, Z.rem tokensOut n).

(** ** Candidates *)

Record NoveltyVerdict := MkVerdict { nv_IsNovel : bool; nv_Similarity : float64; nv_NearestItemTitle : string }.

(** [pc_basic] is the part a promotion reads. *)
Record PreviewCandidate := MkPreview {
  pc_basic : SampleCandidate; pc_SlackPreviewText : string; pc_RenderedXml : string; pc_EmbedPreviewHtml : string; pc_Novelty : option NoveltyVerdict;
  pc_LinkVerdicts : list (string * bool); pc_TokensIn : Z; pc_TokensOut : Z; pc_EstimatedCostUsd : float64 }.

Definition smpSlackPreview (it : Item) : string :=
  (if is_empty (Link it) then Title it else Title it ++ " (" ++ Link it ++ ")") ++ lf ++ SummaryText it.

(** The text after the last line break. *)
Fixpoint last_line (s line : string) : string :=
  match s with
  | EmptyString => line
  | String c r => if Ascii.eqb c (ascii_of_nat 10) then last_line r "" else last_line r (line ++ String c "")
  end.

Definition smpExtractItemFragment (doc : string) : option string :=
  match find_sub "<item>" doc with
  | None => None
  | Some (before, rest) =>
      match find_sub "</item>" ("<item>" ++ rest) with
      | None => None
      | Some (body, _) => Some (last_line before "" ++ body ++ "</item>")
      end
  end.

Definition with_published (t : Z) (it : Item) : Item :=
  MkItem (ID it) (FeedID it) (ItemKey it) (ContentHash it) (Title it) (SummaryText it) (BodyHTML it) (AnswerHTML it) (Formats it) (Link it)
    (SourceName it) t (Tags it) (Origin it) (CreatedAt it) (UpdatedAt it) (EditedAt it) (DeletedAt it) (Version it).

(** What the server is given: the pipeline's dependencies and rules, the novelty check
    with its details, the recipes, the templates, the arguments of Contract.v and
    Render.v, encoding/json of the candidates, and the configuration. *)
Record SampleEnv (W : Type) := MkSampleEnv {
  sv_deps : Deps W; sv_rules : Rules; sv_check : option (Z -> string -> W -> result gen_error (bool * string * float64) * W);
  sv_recipe : FeedRow -> option FeedSpec; sv_sum : list float64 -> float64; sv_template_ok : string -> bool;
  sv_lower : string -> string; sv_ip : string -> option string; sv_colons : string -> bool; sv_encode : list PreviewCandidate -> option string;
  sv_PublicHost : string; sv_Generator : string; sv_SampleTTL : Z; sv_enabledDefault : bool }.
Arguments sv_deps {W}. Arguments sv_rules {W}. Arguments sv_check {W}. Arguments sv_recipe {W}. Arguments sv_sum {W}. Arguments sv_template_ok {W}.
Arguments sv_lower {W}. Arguments sv_ip {W}. Arguments sv_colons {W}. Arguments sv_encode {W}. Arguments sv_PublicHost {W}. Arguments sv_Generator {W}.
Arguments sv_SampleTTL {W}. Arguments sv_enabledDefault {W}.

(** [smpGenerateStore]: the reads of the store, and a commit that is always refused. *)
Definition smp_commit (run : RunRecord) (its : list Item) (d : Content) : result gen_error Content := Err (PlainError "rpc: sample pipeline invoked CommitRun").
Definition smpGenerateStore (commit : RunRecord -> list Item -> Content -> result gen_error Content) : RunStore Content := {|
  RecentTitles feed n d := Ok (adapter_RecentTitles feed n d);
  StoreNewest feed d := Ok (NewestPublished feed d);
  StoreCommit := commit |}.

Section service.
Context {W : Type} (env : SampleEnv W).

Definition sampleTTL : Z := if 0 <? sv_SampleTTL env then sv_SampleTTL env else 24 * hour.

Definition candidateChannel (feed : Feed) (it : Item) (w : W) : Channel * W :=
  let now := Now (sv_deps env) in
  let '(tagYear, w) := if Year UTC (fd_CreatedAt feed) =? 0 then let '(t, w) := now w in (Year (Local (sv_deps env)) t, w) else (Year UTC (fd_CreatedAt feed), w) in
  let '(it, w) := if is_zero (PublishedAt it) then let '(t, w) := now w in (with_published t it, w) else (it, w) in
  let '(built, w) := now w in
  let host := sv_PublicHost env in
  (MkChannel feed ("https://" ++ host ++ "/feeds/" ++ fd_Slug feed ++ ".xml") ("https://" ++ host ++ "/") host tagYear [it] built (sv_Generator env)
     "https://www.rssboard.org/rss-specification", w).

Definition renderCandidateXML (feed : Feed) (it : Item) (w : W) : option string * W :=
  let '(c, w) := candidateChannel feed it w in (smpExtractItemFragment (RSS c), w).

Definition renderCandidateEmbed (feed : Feed) (it : Item) (w : W) : string * W :=
  let '(c, w) := candidateChannel feed it w in (Embed (sv_ip env) (sv_colons env) c (MkEmbedOptions 0 ""), w).

Definition noveltyVerdict (feedID : Z) (it : Item) (w : W) : NoveltyVerdict * W :=
  match sv_check env with
  | None => (MkVerdict true f64_zero "", w)
  | Some check =>
      match check feedID (Title it ++ " " ++ SummaryText it) w with
      | (Err _, w) => (MkVerdict true f64_zero "", w)
      | (Ok (dup, nearest, score), w) => (MkVerdict (negb dup) score nearest, w)
      end
  end.

Section candidates.
Context (feed : Feed) (urls : list string) (share : Z * Z) (remIn remOut : Z) (cost : float64).

(** The loop over the items; [i] counts them from one. *)
Fixpoint build_candidates (i : Z) (its : list Item) (w : W) : option (list PreviewCandidate) * W :=
  match its with
  | [] => (Some [], w)
  | it :: rest =>
      let lastOne := bool_decide (rest = []) in
      let tIn := if lastOne then share.1 + remIn else share.1 in
      let tOut := if lastOne then share.2 + remOut else share.2 in
      match renderCandidateXML feed it w with
      | (None, w) => (None, w)
      | (Some xml, w) =>
          let '(embed, w) := renderCandidateEmbed feed it w in
          let '(novelty, w) := if bool_decide (fd_Kind feed = KindGenerative) then let '(v, w) := noveltyVerdict (fd_ID feed) it w in (Some v, w) else (None, w) in
          let links := if bool_decide (fd_Kind feed = KindGrounded) && negb (is_empty (Link it))
                       then [(Link it, bool_decide (CheckLink (sv_lower env) (sv_ip env) (sv_colons env) (Link it) urls = None))] else [] in
          let c := MkPreview (MkCandidate ("c" ++ show_int i) (Title it) (SummaryText it) (BodyHTML it) (AnswerHTML it) (Link it) (SourceName it))
                     (smpSlackPreview it) xml embed novelty links (wrap32 tIn) (wrap32 tOut) cost in
          let '(more, w) := build_candidates (i + 1) rest w in
          (option_map (cons c) more, w)
      end
  end.

End candidates.

Definition buildCandidates (feed : Feed) (res : SampleResult) (w : W) : option (list PreviewCandidate) * W :=
  let its := sr_Items res in
  if (length its =? 0)%nat then (Some [], w) else
  let '(urls, w) := if bool_decide (fd_Kind feed = KindGrounded)
                    then match Candidates (sv_deps env) (fd_ID feed) w with (Ok cands, w) => (sc_URL <$> cands, w) | (Err _, w) => ([], w) end
                    else ([], w) in
  let n := Z.of_nat (length its) in
  let '(share, remIn, remOut) := smpSplitTokens (sr_TokensIn res) (sr_TokensOut res) n in
  build_candidates feed urls share remIn remOut (f64_div (sr_EstCostUSD res) (f64_of_int n)) 1 its w.

(** ** The handlers *)

Definition smpClassifySampleError (e : gen_error) : smp_code :=
  match as_llm e with
  | Some l => match le_Kind l with
              | Transient => Smp_Unavailable
              | Invalid => Smp_InvalidArgument
              | Fatal => Smp_FailedPrecondition
              | KindUnclassified => if is_malformed e then Smp_InvalidArgument else Smp_Internal
              end
  | None => if is_malformed e then Smp_InvalidArgument else Smp_Internal
  end.

(** [feedLookup]. *)
Definition GetFeedForSample (prices : PriceTable) (r : SettingsRows) (feedID : Z) (d : Content) : result smp_code (Feed * Spec) :=
  match loadFeedRow feedID d with
  | None => Err Smp_NotFound
  | Some row =>
      match sv_recipe env row with
      | None => Err Smp_Internal
      | Some fs => Ok (scanFeed row, generateSpecFrom fs "" prices (loadProviderDefaults r))
      end
  end.

(** The settings, the prices and the clock as the handler meets them: the settings when
    the feed is looked up and the switch read, at the budget check, and at the end. *)
Record SampleReads := MkReads {
  rd_rows : SettingsRows; rd_prices : PriceTable; rd_budget : SettingsRows; rd_checked : Z; rd_put : Z; rd_end : SettingsRows; rd_ended : Z }.

Definition prepareSample (rd : SampleReads) (feedID size : Z) (draft : option SampleDraft) (w : W) (d : Content)
    : result smp_code (Feed * SampleResult * list PreviewCandidate) * W :=
  match GetFeedForSample (rd_prices rd) (rd_rows rd) feedID d with
  | Err e => (Err e, w)
  | Ok (feed, s) =>
      if bool_decide (fd_Kind feed = KindAggregate) then (Err Smp_InvalidArgument, w) else
      match smpApplyDraft (sv_template_ok env) (rd_prices rd) draft (with_size size s) with
      | Err e => (Err e, w)
      | Ok s =>
          match loadGenerationSettings (sv_enabledDefault env) (rd_rows rd) with
          | None => (Err Smp_Internal, w)
          | Some gs =>
              if negb (gs_Enabled gs) then (Err Smp_FailedPrecondition, w) else
              if negb (Allow (CheckSample (sv_sum env) (sv_recipe env) (loadGenerationSettings true (rd_budget rd)) (rd_checked rd) (fd_ID feed) (smpProjectedTokens s) d))
              then (Err Smp_FailedPrecondition, w) else
              let out := @Pipeline.Sample W Content (smpGenerateStore smp_commit) (sv_deps env) (sv_rules env) feed s (w, d) in
              match out.1.2 with
              | Some e => (Err (smpClassifySampleError e), out.2.1)
              | None =>
                  match buildCandidates feed out.1.1 out.2.1 with
                  | (None, w) => (Err Smp_Internal, w)
                  | (Some cands, w) => (Ok (feed, out.1.1, cands), w)
                  end
              end
          end
      end
  end.

Definition RemainingDailyUSD (r : SettingsRows) (now : Z) (d : Content) : option float64 :=
  match loadGenerationSettings true r with
  | None => None
  | Some gs =>
      let ceiling := GlobalDailySpendCeilingUsd gs in
      if SFleb ceiling f64_zero then Some f64_zero
      else let remaining := f64_sub ceiling (TotalSpendSince (sv_sum env) 0 (midnightUTC now) d).2 in
           Some (if f64_lt remaining f64_zero then f64_zero else remaining)
  end.

Record SampleResponse := MkSampleResponse { rs_SampleId : string; rs_Candidates : list PreviewCandidate; rs_RemainingDailyBudgetUsd : float64 }.

(** The preview in the tables: its payload and its cost. *)
Definition put_preview (rd : SampleReads) (feed : Feed) (res : SampleResult) (cands : list PreviewCandidate) (d : Content) : result smp_code (Z * Content) :=
  match sv_encode env cands with
  | None => Err Smp_Internal
  | Some payload =>
      match PutSample (rd_put rd) (fd_ID feed) payload (sr_TokensIn res) (sr_TokensOut res) (sr_EstCostUSD res) sampleTTL d with
      | Err _ => Err Smp_Internal
      | Ok p => Ok p
      end
  end.

(** [d] is what the pipeline reads, [d1] the tables when the preview is written. *)
Definition SampleService_Sample (rd : SampleReads) (feedID size : Z) (draft : option SampleDraft) (w : W) (d d1 : Content)
    : result smp_code SampleResponse * (W * Content) :=
  if feedID =? 0 then (Err Smp_InvalidArgument, (w, d1)) else
  match smpValidateSampleSize size with
  | Err e => (Err e, (w, d1))
  | Ok n =>
      match prepareSample rd feedID n draft w d with
      | (Err e, w) => (Err e, (w, d1))
      | (Ok (feed, res, cands), w) =>
          match put_preview rd feed res cands d1 with
          | Err e => (Err e, (w, d1))
          | Ok (id, d2) =>
              match RemainingDailyUSD (rd_end rd) (rd_ended rd) d2 with
              | None => (Err Smp_Internal, (w, d2))
              | Some remaining => (Ok (MkSampleResponse (show_int id) cands remaining), (w, d2))
              end
          end
      end
  end.

(** *** The stream *)

Definition smpGRPCCodeToErrorKind (c : smp_code) : Z :=
  match c with Smp_Unavailable => 1 | Smp_InvalidArgument => 2 | Smp_FailedPrecondition | Smp_NotFound => 3 | Smp_Internal => 0 end.

Record StreamMessage := MkMessage { sm_SampleId : string; sm_Candidate : option PreviewCandidate; sm_Done : bool; sm_ErrorKind : Z }.

(** What the client does at each step: still there, gone, or refusing what is sent. *)
Inductive client := Listening | Gone | Refusing.

(** The messages that went out, and whether the client was there to the end. *)
Fixpoint send_all (client_at : nat -> client) (i : nat) (msgs : list StreamMessage) : list StreamMessage * bool :=
  match msgs with
  | [] => ([], true)
  | m :: rest =>
      match client_at i with
      | Listening => let '(out, ok) := send_all client_at (S i) rest in (m :: out, ok)
      | Gone | Refusing => ([], false)
      end
  end.

(** A status error is no [*llm.Error], so the kind is that of the code. *)
Definition SampleStream (rd : SampleReads) (feedID size : Z) (draft : option SampleDraft) (client_at : nat -> client) (w : W) (d d1 : Content)
    : result smp_code (list StreamMessage * bool) * (W * Content) :=
  if feedID =? 0 then (Err Smp_InvalidArgument, (w, d1)) else
  match smpValidateSampleSize size with
  | Err e => (Err e, (w, d1))
  | Ok n =>
      let '(prepared, w) := prepareSample rd feedID n draft w d in
      let '(cands, sampleID, cerr, d2) :=
        match prepared with
        | Err e => ([], "", Some e, d1)
        | Ok (feed, res, cands) =>
            match put_preview rd feed res cands d1 with
            | Err e => (cands, "", Some e, d1)
            | Ok (id, d2) => (cands, show_int id, None, d2)
            end
        end in
      let final := MkMessage sampleID None true (match cerr with Some c => smpGRPCCodeToErrorKind c | None => 0 end) in
      (Ok (send_all client_at 0 (((fun c => MkMessage sampleID (Some c) false 0) <$> cands) ++ [final])%list), (w, d2))
  end.

End service.

(** *** The list *)

Record SampleSummary := MkSampleSummary { sy_SampleId : string; sy_FeedId : Z; sy_CreatedAt : Z; sy_ExpiresAt : Z; sy_CandidateCount : Z }.

(** [count] is [smpCandidateCount], the length of the payload's array. *)
Fixpoint summarize (count : string -> option Z) (l : list StoreSamples.Sample) : result smp_code (list SampleSummary) :=
  match l with
  | [] => Ok []
  | s :: rest =>
      match count (smp_Payload s) with
      | None => Err Smp_Internal
      | Some n =>
          let? out := summarize count rest in
          Ok (MkSampleSummary (show_int (smp_ID s)) (smp_FeedID s) (smp_CreatedAt s) (smp_ExpiresAt s) (wrap32 n) :: out)
      end
  end.

Definition SampleService_ListSamples (count : string -> option Z) (now feedID pageSize : Z) (d : Content) : result smp_code (list SampleSummary) :=
  if feedID =? 0 then Err Smp_InvalidArgument else
  let rows := StoreSamples.ListSamples now feedID d in
  let n := if (pageSize <=? 0) || (Z.of_nat (length rows) <? pageSize) then length rows else Z.to_nat pageSize in
  summarize count (take n rows).

Definition SampleService_DiscardSample (id : string) (d : Content) : result smp_code Content :=
  match Atoi id with
  | None => Err Smp_InvalidArgument
  | Some n => match StoreSamples.DiscardSample n d with Ok d' => Ok d' | Err NotFound => Err Smp_NotFound | Err _ => Err Smp_Internal end
  end.

(** ** The pipeline *)

Section sampling.
Context {W St : Type} `{RunStore St} (deps : Deps W) (rules : Rules) (feed : Feed) (spec : Spec).

Local Abbreviation gives := (Pipeline.gives (W := W) (St := St)).

(** A dry run leaves the store alone and returns no more items than asked for, each of
    them one the rules and the gate accepted. *)
Definition previewed (p : SampleResult * option gen_error) : Prop :=
  Z.of_nat (length (sr_Items p.1)) <= ItemsPerRun spec /\
  Forall (fun it => exists opts it0, accepted deps rules feed opts it0 /\ same_content rules it0 it) (sr_Items p.1).

Lemma Sample_gives : 0 < ItemsPerRun spec -> gives previewed (Pipeline.Sample deps rules feed spec).
Proof.
  intros Hn. assert (Hnone : forall e : option gen_error, gives previewed (ret (no_sample, e))) by (intros e; apply gives_ret; split; cbn; [lia|constructor]).
  unfold Pipeline.Sample. destruct (bool_decide _); [apply Hnone|]. eapply gives_bind; [apply gives_lift_any|]. intros now _.
  eapply gives_bind; [eapply gives_any, acquireContext_gives|]. intros [[data opts]|e] _; [|apply Hnone].
  destruct (_ && _); [apply Hnone|]. destruct (Pipeline.Render rules _ _) as [prompt|e]; [|apply Hnone].
  eapply gives_bind; [apply runAttempt_gives|]. intros [ar [e|]] Hv; [apply gives_ret; split; cbn; [lia|constructor]|]. cbn [fst] in Hv.
  eapply (gives_bind (fun p => Forall (accepted deps rules feed opts) p.1.1)).
  { unfold accepted. destruct (generative feed).
    - eapply gives_weaken; [|apply filterNovel_gives]. intros p [H1 H2]. rewrite Forall_forall in Hv, H1 |- *. intros it Hit. split; [by apply Hv, H2|]. intros _. by apply H1.
    - apply gives_ret. eapply Forall_impl; [exact Hv|]. by intros it Hit. }
  intros [[its vecs] totals] Hits. cbn [fst] in Hits. eapply gives_bind; [apply formatItems_gives|]. intros [[out tin] tout] Hf. apply gives_ret. cbn [fst sr_Items] in *. split; cbn [fst sr_Items].
  - apply Forall2_length in Hf. rewrite <- Hf. by apply cap_items_length.
  - apply Forall_forall. intros it [k Hk]%list_elem_of_lookup. destruct (Forall2_lookup_r _ _ _ _ _ Hf Hk) as (it0 & H0 & Hs). exists opts, it0. split; [|done].
    apply list_elem_of_lookup_2, cap_items_elem in H0. rewrite Forall_forall in Hits. by apply Hits.
Qed.

End sampling.

(** Whatever would be committed never is. *)
Lemma sample_ignores_commit {W} (deps : Deps W) rules feed spec commit commit' s :
  @Pipeline.Sample W Content (smpGenerateStore commit) deps rules feed spec s = @Pipeline.Sample W Content (smpGenerateStore commit') deps rules feed spec s.
Proof. reflexivity. Qed.

(** ** Candidates *)

Definition shown (it : Item) (c : SampleCandidate) : Prop :=
  sc_Title c = Title it /\ sc_SummaryText c = SummaryText it /\ sc_BodyHtml c = BodyHTML it /\ sc_AnswerHtml c = AnswerHTML it /\ ItemService.sc_Link c = Link it /\
  sc_SourceName c = SourceName it.

Section built.
Context {W : Type} (env : SampleEnv W).

Lemma build_candidates_spec feed urls share remIn remOut cost its : forall i w cands w',
  build_candidates env feed urls share remIn remOut cost i its w = (Some cands, w') ->
  Forall2 (fun it c => shown it (pc_basic c)) its cands /\
  (forall k c, cands !! k = Some c -> sc_CandidateId (pc_basic c) = "c" ++ show_int (i + Z.of_nat k) /\
     pc_TokensIn c = wrap32 (if bool_decide (S k = length its) then share.1 + remIn else share.1) /\
     pc_TokensOut c = wrap32 (if bool_decide (S k = length its) then share.2 + remOut else share.2)).
Proof.
  induction its as [|it its IH]; intros i w cands w'; cbn [build_candidates]; [intros [= <- <-]; split; [constructor|done]|].
  destruct (renderCandidateXML env feed it w) as [[xml|] w1]; [|done]. destruct (renderCandidateEmbed env feed it w1) as [emb w2].
  destruct (if bool_decide (fd_Kind feed = KindGenerative) then _ else _) as [nov w3].
  destruct (build_candidates env feed urls share remIn remOut cost (i + 1) its w3) as [[more|] w4] eqn:E; [|done]. cbn [option_map]. intros [= <- <-].
  apply IH in E as [H1 H2]. split; [by constructor|]. intros [|k] c Hk.
  - injection Hk as <-. cbn [pc_basic sc_CandidateId pc_TokensIn pc_TokensOut length]. rewrite Z.add_0_r. split; [done|].
    assert (Eb : bool_decide (its = []) = bool_decide (1%nat = S (length its))) by (apply bool_decide_ext; destruct its; cbn; split; intros; try done; lia).
    by rewrite Eb.
  - destruct (H2 k c Hk) as (E1 & E2 & E3). rewrite E1, E2, E3. split; [do 2 f_equal; lia|].
    assert (Eb : bool_decide (S k = length its) = bool_decide (S (S k) = length (it :: its))) by (apply bool_decide_ext; cbn; lia). by rewrite Eb.
Qed.

Lemma buildCandidates_spec feed res w cands w' :
  buildCandidates env feed res w = (Some cands, w') ->
  Forall2 (fun it c => shown it (pc_basic c)) (sr_Items res) cands /\
  (forall k c, cands !! k = Some c -> sc_CandidateId (pc_basic c) = "c" ++ show_int (Z.of_nat k + 1)).
Proof.
  unfold buildCandidates. destruct (length (sr_Items res) =? 0)%nat eqn:E0.
  { intros [= <- <-]. destruct (sr_Items res); [|done]. split; [constructor|done]. }
  destruct (if bool_decide (fd_Kind feed = KindGrounded) then _ else _) as [urls w1]. destruct (smpSplitTokens _ _ _) as [[share remIn] remOut].
  intros [H1 H2]%build_candidates_spec. split; [done|]. intros k c Hk. destruct (H2 k c Hk) as (-> & _). by rewrite (Z.add_comm 1).
Qed.

End built.

(** ** What the handlers leave *)

Section handlers.
Context {W : Type} (env : SampleEnv W).

(** The tables after a preview has been written. *)
Definition preview_written (feedID now ttl : Z) (payload : string) (res : SampleResult) (d d' : Content) : Prop :=
  let row := MkSampleRow (next_id (samples d)) feedID now (now + ttl) payload (sr_TokensIn res) (sr_TokensOut res) (sr_EstCostUSD res) in
  let sp := MkSpendRow (next_id (spend d)) feedID now (sr_TokensIn res) (sr_TokensOut res) (sr_EstCostUSD res) in
  d' = MkContent (feeds d) (members d) (items d) (runs d) (embeddings d) (samples d ++ [row]) (spend d ++ [sp]).

Lemma put_preview_spec rd feed res cands d id d' :
  put_preview env rd feed res cands d = Ok (id, d') ->
  exists payload, sv_encode env cands = Some payload /\ id = next_id (samples d) /\ preview_written (fd_ID feed) (rd_put rd) (sampleTTL env) payload res d d'.
Proof.
  unfold put_preview. destruct (sv_encode env cands) as [payload|]; [|done]. unfold PutSample. destruct (negb _); [done|]. intros [= <- <-].
  exists payload. split_and!; try done.
Qed.

Lemma GetFeedForSample_id prices r feedID d feed s : GetFeedForSample env prices r feedID d = Ok (feed, s) -> fd_ID feed = feedID /\ loadFeedRow feedID d <> None.
Proof.
  unfold GetFeedForSample. destruct (loadFeedRow feedID d) as [row|] eqn:E; [|done]. destruct (sv_recipe env row); [|done]. intros [= <- _]. split; [|done].
  cbn. unfold loadFeedRow, find_id in E. destruct (List.find _ _) as [r'|] eqn:Ef; [|done]. destruct (bool_decide _); [|done]. injection E as ->.
  apply find_some in Ef as [_ Ef]. bools. done.
Qed.

(** What has gone through when the pipeline is reached. *)
Definition let_through (rd : SampleReads) (feedID : Z) (d : Content) : Prop :=
  loadFeedRow feedID d <> None /\ (exists gs, loadGenerationSettings (sv_enabledDefault env) (rd_rows rd) = Some gs /\ gs_Enabled gs = true) /\
  exists projected, Allow (CheckSample (sv_sum env) (sv_recipe env) (loadGenerationSettings true (rd_budget rd)) (rd_checked rd) feedID projected d) = true.

Lemma with_draft_size ok prices draft n s s' : smpApplyDraft ok prices draft (with_size n s) = Ok s' -> ItemsPerRun s' = n.
Proof.
  unfold smpApplyDraft. destruct draft as [dr|]; [|by intros [= <-]]. cbv zeta.
  destruct (_ && _); [done|]. destruct (negb _); [done|]. destruct (negb _); [done|]. intros [= <-].
  cbn. unfold draft_model. destruct (_ && _); [|done]. by destruct (Table_Lookup _ _).
Qed.

Lemma prepareSample_spec rd feedID n draft w d :
  0 < n ->
  match prepareSample env rd feedID n draft w d with
  | (Err _, w') => w' = w \/ let_through rd feedID d
  | (Ok (feed, res, cands), w') =>
      fd_ID feed = feedID /\ let_through rd feedID d /\ Z.of_nat (length cands) <= n /\
      Forall2 (fun it c => shown it (pc_basic c)) (sr_Items res) cands /\
      Forall (fun it => exists opts it0, accepted (sv_deps env) (sv_rules env) feed opts it0 /\ same_content (sv_rules env) it0 it) (sr_Items res) /\
      (forall k c, cands !! k = Some c -> sc_CandidateId (pc_basic c) = "c" ++ show_int (Z.of_nat k + 1))
  end.
Proof.
  intros Hn. unfold prepareSample. destruct (GetFeedForSample _ _ _ _ _) as [[feed s]|] eqn:Eg; [|by left]. apply GetFeedForSample_id in Eg as [Hid Hrow].
  destruct (bool_decide _); [by left|]. destruct (smpApplyDraft _ _ _ _) as [s'|] eqn:Ed; [|by left]. apply with_draft_size in Ed.
  destruct (loadGenerationSettings (sv_enabledDefault env) (rd_rows rd)) as [gs|] eqn:Egs; [|by left]. destruct (gs_Enabled gs) eqn:Een; [|by left]. cbn [negb].
  destruct (Allow _) eqn:Ea; [|by left]. cbn [negb]. rewrite Hid in Ea. assert (Hlet : let_through rd feedID d) by (split; [done|]; split; [by exists gs|by eexists]).
  pose proof (@Sample_gives W Content (smpGenerateStore smp_commit) (sv_deps env) (sv_rules env) feed s' ltac:(lia) (w, d)) as [_ [Hlen Hacc]]. rewrite Ed in Hlen.
  destruct (Pipeline.Sample _ _ _ _ _) as [[res [e|]] [w1 d1]]; cbn [fst snd] in *; [by right|].
  destruct (buildCandidates env feed res w1) as [[cands|] w2] eqn:Eb; [|by right]. apply buildCandidates_spec in Eb as [H1 H2]. split_and!; try done.
  by rewrite <- (Forall2_length _ _ _ H1).
Qed.

End handlers.

(** ** Theorems *)


(** What encoding/json keeps. *)
Definition utf8_candidate (c : SampleCandidate) : Prop :=
  Forall (fun s => ValidString s = true) [sc_CandidateId c; sc_Title c; sc_SummaryText c; sc_BodyHtml c; sc_AnswerHtml c; ItemService.sc_Link c; sc_SourceName c].

(** The candidates of a payload are those it was made of. *)
Definition payload_roundtrip {W} (env : SampleEnv W) (candidates_of : string -> option (list SampleCandidate)) : Prop :=
  forall l payload, Forall utf8_candidate (pc_basic <$> l) -> sv_encode env l = Some payload -> candidates_of payload = Some (pc_basic <$> l).

Lemma candidate_id_inj a b : 0 <= a < 2 ^ 63 -> 0 <= b < 2 ^ 63 -> "c" ++ show_int a = "c" ++ show_int b -> a = b.
Proof. intros Ha Hb H. apply (string_tail "c"%char) in H. change (show_int a = show_int b) in H. pose proof (Atoi_show a Ha) as E. rewrite H, Atoi_show in E by done. by injection E. Qed.

Lemma find_candidate (l : list PreviewCandidate) k c :
  Z.of_nat (length l) <= 5 -> (forall j x, l !! j = Some x -> sc_CandidateId (pc_basic x) = "c" ++ show_int (Z.of_nat j + 1)) -> l !! k = Some c ->
  List.find (fun x => String.eqb (sc_CandidateId x) (sc_CandidateId (pc_basic c))) (pc_basic <$> l) = Some (pc_basic c).
Proof.
  intros Hlen Hids Hk. destruct (List.find _ _) as [x|] eqn:E.
  - apply find_some in E as [Hx He]. apply String.eqb_eq in He. apply list_elem_of_In, list_elem_of_fmap in Hx as (y & -> & [j Hj]%list_elem_of_lookup).
    rewrite (Hids _ _ Hj), (Hids _ _ Hk) in He. pose proof (lookup_lt_Some _ _ _ Hj). pose proof (lookup_lt_Some _ _ _ Hk).
    apply candidate_id_inj in He; [|lia..]. assert (j = k) as -> by lia. congruence.
  - exfalso. pose proof (find_none _ _ E (pc_basic c)) as Hn. cbn in Hn. rewrite String.eqb_refl in Hn. discriminate Hn.
    apply list_elem_of_In, list_elem_of_fmap_2. by eapply list_elem_of_lookup_2.
Qed.

Lemma Sample_answer {W} (env : SampleEnv W) rd feedID size draft w d d1 resp w' d2 :
  SampleService_Sample env rd feedID size draft w d d1 = (Ok resp, (w', d2)) ->
  exists res payload, sv_encode env (rs_Candidates resp) = Some payload /\ rs_SampleId resp = show_int (next_id (samples d1)) /\
    preview_written feedID (rd_put rd) (sampleTTL env) payload res d1 d2 /\ Z.of_nat (length (rs_Candidates resp)) <= 5 /\
    forall k c, rs_Candidates resp !! k = Some c -> sc_CandidateId (pc_basic c) = "c" ++ show_int (Z.of_nat k + 1).
Proof.
  unfold SampleService_Sample. destruct (feedID =? 0); [done|]. destruct (smpValidateSampleSize size) as [n|e] eqn:En; [|done].
  assert (Hn : 0 < n <= 5).
  { unfold smpValidateSampleSize in En. destruct (Z.eqb_spec size 0); [injection En as <-; lia|]. destruct (_ || _) eqn:Eo; [done|]. injection En as <-. bools. lia. }
  pose proof (prepareSample_spec env rd feedID n draft w d ltac:(lia)) as Hp.
  destruct (prepareSample env rd feedID n draft w d) as [[[[feed res] cands]|e] w1]; [|done]. destruct Hp as (Hid & _ & Hlen & _ & _ & Hids).
  destruct (put_preview env rd feed res cands d1) as [[id dp]|e] eqn:Ep; [|done]. apply put_preview_spec in Ep as (payload & Hpay & -> & Hw). rewrite Hid in Hw.
  destruct (RemainingDailyUSD env (rd_end rd) (rd_ended rd) dp); [|done]. intros [= <- <- <-]. exists res, payload. cbn. split_and!; try done. lia.
Qed.


(** ** The stream *)

Lemma send_all_listening msgs : forall i, send_all (fun _ => Listening) i msgs = (msgs, true).
Proof. induction msgs as [|m msgs IH]; intros i; cbn [send_all]; [done|]. by rewrite IH. Qed.

(** The streamed form is the unary one: to a client that listens it sends the candidates
    one by one and then the end, with the id of the preview; and whatever the client
    does, it leaves the same tables and has made the same calls. *)
Theorem stream_agrees_with_sample {W} (env : SampleEnv W) rd feedID size draft client_at w d d1 resp w' d2 :
  SampleService_Sample env rd feedID size draft w d d1 = (Ok resp, (w', d2)) ->
  (SampleStream env rd feedID size draft client_at w d d1).2 = (w', d2) /\
  (SampleStream env rd feedID size draft (fun _ => Listening) w d d1).1 =
    Ok (((fun c => MkMessage (rs_SampleId resp) (Some c) false 0) <$> rs_Candidates resp) ++ [MkMessage (rs_SampleId resp) None true 0], true)%list.
Proof.
  unfold SampleService_Sample, SampleStream. destruct (feedID =? 0); [done|]. destruct (smpValidateSampleSize size) as [n|e]; [|done].
  destruct (prepareSample env rd feedID n draft w d) as [[[[feed res] cands]|e] w1]; [|done]. destruct (put_preview env rd feed res cands d1) as [[id dp]|e]; [|done].
  destruct (RemainingDailyUSD env (rd_end rd) (rd_ended rd) dp); [|done]. intros [= <- <- <-]. cbn [rs_SampleId rs_Candidates]. by rewrite send_all_listening.
Qed.

(** ** The shares *)

Lemma zsum_but_last a b (l : list Z) : l <> [] -> (forall k x, l !! k = Some x -> x = if bool_decide (S k = length l) then a + b else a) -> zsum l = Z.of_nat (length l) * a + b.
Proof.
  induction l as [|x l IH]; [done|]. intros _ H. rewrite zsum_cons. destruct l as [|y l].
  - rewrite (H 0%nat x eq_refl), bool_decide_eq_true_2 by done. cbn [zsum foldr length]. lia.
  - rewrite (H 0%nat x eq_refl). rewrite bool_decide_eq_false_2 by (cbn; lia). rewrite IH; [cbn [length]; lia|done|].
    intros k z Hk. rewrite (H (S k) z Hk). assert (E : bool_decide (S (S k) = length (x :: y :: l)) = bool_decide (S k = length (y :: l))) by (apply bool_decide_ext; cbn; lia). by rewrite E.
Qed.

(** The tokens shown of the candidates add up to those the preview is charged with. *)
Theorem candidate_tokens_add_up {W} (env : SampleEnv W) feed res w cands w' :
  buildCandidates env feed res w = (Some cands, w') -> sr_Items res <> [] -> 0 <= sr_TokensIn res < 2 ^ 31 -> 0 <= sr_TokensOut res < 2 ^ 31 ->
  zsum (pc_TokensIn <$> cands) = sr_TokensIn res /\ zsum (pc_TokensOut <$> cands) = sr_TokensOut res.
Proof.
  intros H Hne Hin Hout. unfold buildCandidates in H. destruct (length (sr_Items res) =? 0)%nat eqn:E0; [apply Nat.eqb_eq, length_zero_iff_nil in E0; done|].
  destruct (if bool_decide (fd_Kind feed = KindGrounded) then _ else _) as [urls w1]. unfold smpSplitTokens in H. set (n := Z.of_nat (length (sr_Items res))) in *.
  apply Nat.eqb_neq in E0. rewrite (proj2 (Z.leb_gt n 0)) in H by lia. apply build_candidates_spec in H as [H1 H2]. apply Forall2_length in H1.
  assert (Hsum : forall (f : PreviewCandidate -> Z) t, 0 <= t < 2 ^ 31 ->
    (forall k c, cands !! k = Some c -> f c = wrap32 (if bool_decide (S k = length (sr_Items res)) then Z.quot t n + Z.rem t n else Z.quot t n)) -> zsum (f <$> cands) = t).
  { intros f t Ht Hf. rewrite (zsum_but_last (Z.quot t n) (Z.rem t n)).
    - rewrite length_fmap, <- H1. fold n. pose proof (Z.quot_rem' t n). lia.
    - intros E. apply fmap_nil_inv in E. subst cands. cbn in H1. lia.
    - intros k x Hk. apply list_lookup_fmap_Some in Hk as (c & -> & Hk). rewrite (Hf _ _ Hk), length_fmap, <- H1.
      assert (Hq : 0 <= Z.quot t n /\ 0 <= Z.rem t n /\ Z.quot t n + Z.rem t n <= t).
      { rewrite Z.quot_div_nonneg, Z.rem_mod_nonneg by lia. pose proof (Z.div_mod t n ltac:(lia)). pose proof (Z.mod_pos_bound t n ltac:(lia)). pose proof (Z.div_pos t n ltac:(lia) ltac:(lia)). nia. }
      apply wrap32_int32. unfold int32. case_bool_decide; lia. }
  split; apply Hsum; try done; intros k c Hk; destruct (H2 k c Hk) as (_ & Ha & Hb); done.
Qed.

(** ** Instances *)

#[export] Instance SampleCandidate_eq_dec : EqDecision SampleCandidate.
Proof. solve_decision. Defined.

Definition demo_shown : list SampleCandidate := [MkCandidate "c1" "A new question" "summary" "body" "" "" ""].
(** A payload for the one list of candidates the demonstration makes. *)
Definition demo_encode (l : list PreviewCandidate) : option string := if decide (pc_basic <$> l = demo_shown) then Some "payload" else None.
Definition demo_payload (p : string) : option (list SampleCandidate) := if String.eqb p "payload" then Some demo_shown else None.

Definition demo_env (deps : Deps nat) : SampleEnv nat :=
  MkSampleEnv nat deps demo_rules None demo_recipe first_cost (fun _ => true) id (fun _ => None) (fun _ => true) demo_encode "feeds.example" "aff" 0 true.
Definition demo_reads : SampleReads := MkReads no_rows NewTable no_rows t0 (t0 + 50 * second) no_rows (t0 + 50 * second).
Definition demo_preview (deps : Deps nat) : result smp_code SampleResponse * (nat * Content) :=
  SampleService_Sample (demo_env deps) demo_reads 1 1 None 0%nat d_done d_done.

Example demo_preview_goes_through :
  match demo_preview (demo_deps [titled "A new question"; titled "Another"]) with
  | (Ok r, (calls, d)) => rs_SampleId r = "1" /\ length (rs_Candidates r) = 1%nat /\ calls = 1%nat /\ length (samples d) = 1%nat /\ items d = items d_done
  | _ => False
  end.
Proof. vm_compute. done. Qed.

Lemma demo_roundtrip deps : payload_roundtrip (demo_env deps) demo_payload.
Proof. intros l payload _. cbn. unfold demo_encode. case_decide as H; [|done]. intros [= <-]. by rewrite H. Qed.


(** ** Behaviour to know of *)

(** A preview that fails after the model has been called costs nothing on the books: two
    calls were made, and the ledger the budget is checked against has no trace of them. *)
Example failed_preview_is_free :
  match demo_preview (demo_deps [titled ""]) with
  | (Err e, (calls, d)) => e = Smp_InvalidArgument /\ calls = 2%nat /\ spend d = spend d_done /\ runs d = runs d_done
  | _ => False
  end.
Proof. vm_compute. done. Qed.

(** The feed handed to the previews has no creation time, and the year of no time is one:
    the guid shown is of the year 1. *)
Example preview_guid_is_of_year_one :
  match demo_preview (demo_deps [titled "A new question"]) with
  | (Ok r, _) => map (fun c => FeedSpec.Contains (pc_RenderedXml c) "tag:feeds.example,1:trivia/") (rs_Candidates r) = [true]
  | _ => False
  end.
Proof. vm_compute. done. Qed.

(** The fragment shown has the variant the formatting stage wrote for the feed; what a
    promotion publishes is the body. *)
Definition with_variant (deps : Deps nat) : Deps nat :=
  MkDeps nat (Now deps) (Generate deps) (Some (fun _ w => (Ok (MkFormatResult (MkFormats "<p>variant</p>" "" "" "") "raw"), w))) (Novelty deps) (Candidates deps)
    (LoadLocation deps) (Local deps) (NewItemKey deps) (ToLower deps) (sha256hex deps).
Example preview_shows_the_variant :
  match demo_preview (with_variant (demo_deps [titled "A new question"])) with
  | (Ok r, (_, d2)) =>
      map (fun c => (FeedSpec.Contains (pc_RenderedXml c) "<p>variant</p>", sc_BodyHtml (pc_basic c))) (rs_Candidates r) = [(true, "body")] /\
      match ItemService_PromoteSample id demo_payload t0 (t0 + 60 * second) (t0 + 60 * second) (fun _ => t0 + 60 * second) "k9" "1" "c1" (MkItemServer d2 [] [] 0 []) with
      | (Ok _, s) => option_map (fun r => (i_body_html r, i_formats r)) (last (items (content s))) = Some ("body", None)
      | _ => False
      end
  | _ => False
  end.
Proof. vm_compute. done. Qed.
